(* ===== verification/_CoqProject ===== *)
-Q . S2P
Prelude.v
PageDefs.v
PageAlgos.v
PageSpec.v
PageSkel.v
PageSafe.v
PageLru.v
PageOptimal.v
PageThms.v
PageMenu.v
Spinlock.v
ProcDefs.v
ProcInv.v
ProcOps.v
Stride.v
ProcThms.v
Variants.v
AddSyscall.v
UpdateSched.v
Syscall.v
Trap.v
Asm.v
Calls.v
TraceCalls.v
UpdateCalls.v
Kalloc.v
Pipe.v
Log.v
LogThms.v
Bio.v
BioThms.v
BioCache.v
MemIde.v
Strings.v
FsDefs.v
FsBase.v
FsBlocks.v
FsInode.v
FsFile.v
FsWrite.v
FsTrunc.v
FsDir.v
FsCache.v
FsPath.v
FsThms.v
FileDefs.v
FileThms.v
FileTable.v
SysfileDefs.v
Mkfs.v
MkfsFile.v
MkfsThms.v
UserTests.v
Printf.v
Console.v
Devices.v
Kbd.v
Grep.v
UserProgs.v
Mains.v
Login.v
VmDefs.v
Machine.v
VmBase.v
VmOps.v
VmSpace.v
VmThms.v
Start.v
Entry.v
Umalloc.v
Programs.v
ShDefs.v
ShLex.v
ShParse.v
ShRun.v
ExecDefs.v
ExecMem.v
ExecLoad.v
ExecThms.v
Boot.v
