(* ===== verification/Prelude.v ===== *)
(** * A verification development for [xv6_os_implementation2022]

    The repository is the teaching operating system xv6 with three exercises
    (system calls for tracing, a stride scheduler, shell programs) and a
    simulator of page replacement algorithms.  This library translates its C
    code into executable definitions and proves what the code promises.

    ** The program and its parts

    - [src/page replacement] is a host program: [main.c] reads options and a
      reference string and runs the chosen algorithms, [random.c] writes random
      reference strings.
    - [src/xv6-public] is the kernel with its user programs.  From the bottom:
      locks ([spinlock.c], [sleeplock.c]); physical pages ([kalloc.c]) and page
      tables on them ([vm.c]); processes and the scheduler ([proc.c]), entered
      by traps ([trap.c]) and system calls ([syscall.c], [sysproc.c]); the disk
      driver and the buffer cache ([ide.c], [bio.c]), the write-ahead log
      ([log.c]), inodes and directories ([fs.c]), open files and pipes
      ([file.c], [pipe.c]), the file system calls ([sysfile.c]) and [exec.c];
      the console and the keyboard, interrupt controllers and the serial port.
      [bootmain.c], [main.c] and [mp.c] run at the start; assembly enters traps
      ([trapasm.S]), switches threads ([swtch.S]) and makes system calls
      ([usys.S]).  [mkfs.c] makes the disk.  User programs use [ulib.c], [printf.c] and
      [umalloc.c].
    - [src/add system call] and [src/update scheduler] are the changed files of
      two other versions of the kernel, [src/add shell program] has programs.

    ** Conventions

    C functions keep their names.  A function that only computes is a Rocq
    function; one that can panic, exit or do something undefined gives an
    [outcome]; one that changes state is a computation of the state monad [stm]
    over the record of its component.  Integers are [Z] with wrap-around
    written where the C type wraps and the value can reach it.  [wp m Q s] says
    that [m] run from [s] _returns_, with a result and a state in [Q]: a
    specification with [wp] excludes panics, undefined behaviour and
    non-termination.  Waiting is explicit: a function that sleeps is split
    at the point where it gives up the CPU, and entered again.

    ** Files

    This file: outcomes, the state monad, [wp] with its rules (hint database
    [wp]), loops, and lemmas on lists and integers.

    Page replacement ([src/page replacement]).
    - [PageDefs], [PageAlgos]: data, printing, the eight algorithms, [simulate].
    - [PageSpec]: demand paging as a relation on sets of pages.
    - [PageSkel], [PageSafe], [PageLru], [PageOptimal], [PageThms]: one loop
      for all algorithms over an interface ([policy], class [PolicyOk]), its
      instances, and the theorems: every algorithm is memory safe, terminates
      and is a run of demand paging; OPTIMAL is optimal; the two LRU programs
      are equivalent.
    - [PageMenu]: the menu, the input, [main] and [random.c].

    Locks, processes and system calls.
    - [Spinlock]: [spinlock.c], [sleeplock.c]; mutual exclusion over all
      interleavings.
    - [ProcDefs], [ProcInv], [ProcOps], [ProcThms]: [proc.c]; the invariant of
      the process table, and that no operation of a reachable kernel panics.
      What [proc.c] calls elsewhere is the class [KernelEnv].
    - [Stride]: fairness of the scheduler of the update.
    - [Variants], [AddSyscall], [UpdateSched]: the other two versions of
      [proc.c], shown to agree with the first up to the fields they lack; the
      round-robin scheduler starves nobody.
    - [Syscall]: [syscall.c] and [sysproc.c]; arguments stay inside the
      process, results, and the trace line.
    - [Trap]: [trap.c]; every trap from user space ends in user space or in the
      scheduler, in a well-formed state.
    - [Asm]: [trapasm.S], the entry points of [vectors.pl], [swtch.S],
      [initcode.S] and the first stack of a process, as code of a small x86
      machine with registers, segments, a stack and a memory of words: traps and
      context switches give back what they saved, and a new process starts
      where it should.  The C functions the code calls are parameters.
    - [Calls]: the stubs of [usys.S] and the tables of [syscall.c] in the three
      kernels; a call followed through [Asm], [Syscall] and back.
    - [TraceCalls], [UpdateCalls]: [syscall.c] and [sysproc.c] of the other two
      kernels, with the calls they add.

    Memory.
    - [Kalloc]: [kalloc.c], the free list inside the free pages.
    - [VmDefs], [VmBase], [VmOps], [VmSpace], [VmThms]: [vm.c] on that memory;
      an address space is a map from pages to entries together with the pages
      it occupies, disjoint from all others.
    - [ExecDefs], [ExecMem], [ExecLoad], [ExecThms]: [exec.c]; replacing the
      image is all or nothing.
    - [Umalloc]: [umalloc.c]; blocks are disjoint.

    Files.
    - [Log], [LogThms]: [log.c]; atomicity under crashes, recovery.
    - [Bio], [BioThms], [BioCache]: [bio.c] and the queue of [ide.c]; the
      linked list is in order of use, and the cache is coherent.
    - [FsDefs], [FsBase], [FsBlocks], [FsInode], [FsFile], [FsWrite],
      [FsTrunc], [FsDir], [FsCache], [FsPath], [FsThms]: [fs.c]; the bitmap as
      a set, a file as its bytes, a directory as its entries.  This layer uses
      the buffer cache and the log as what they promise.
    - [FileDefs], [FileThms], [FileTable]: [file.c] and [pipealloc].
    - [Pipe]: [pipe.c]; a pipe is a byte stream, no wake-up is lost.
    - [SysfileDefs]: [sysfile.c].
    - [MemIde]: [memide.c], which can take the place of [ide.c].
    - [Mkfs], [MkfsFile], [MkfsThms]: [mkfs.c]; the image holds the files it was
      given, in an inode each, with the bitmap of the blocks used.
    - [UserTests]: tests of [usertests.c] as programs over [SysfileDefs], run on
      the image of [Mkfs]: the whole file stack executed together.

    Devices and start.
    - [Console], [Kbd], [Printf]: [console.c], output of [uart.c], [kbd.c],
      [printf.c].
    - [Devices]: [ioapic.c], [picirq.c], [lapic.c], [uart.c] and the polling of
      [ide.c] on a [bus], the effect of a port or register on the world.  What
      the data sheet of a device says is a record of hypotheses ([ioapic_dev],
      [lapic_dev], [uart_dev], [ide_dev]), which examples satisfy.
    - [Machine]: [mp.c] and the clock of [lapic.c].
    - [Start]: segments and the registers of a CPU ([seginit], [switchuvm],
      [switchkvm], [kvmalloc] of [vm.c]), [getcallerpcs], and of [main.c] the
      boot page table, [startothers] and what [main] does with memory.
    - [Entry]: [bootasm.S], [entry.S] and [entryother.S] on a machine with real and
      protected mode, segments and paging: each gets to its C function.
    - [Boot]: [bootmain.c].

    User programs.
    - [Strings]: [string.c] and the strings of [ulib.c].
    - [ShDefs], [ShLex], [ShParse], [ShRun]: [sh.c]; the parser inverts
      printing, and the programs get the descriptors the line asks for.
    - [Grep], [UserProgs], [Login]: [grep.c]; [cat.c], [wc.c], [hcat.c] and
      [fmtname]; [ssu_login.c].
    - [Mains]: the [main] functions of these, and [ls.c].
    - [Programs]: programs of a few system calls ([echo], [rm], [init],
      [sdebug], [forktest] and the like) as trees of calls.

    ** Fuel

    Loops whose number of rounds is not that of a structure have fuel, and run
    out of it as [Hang]; since [wp] excludes [Hang], each specification proves
    that the fuel is enough.  The fuel is a bound on the rounds: the number of
    bytes for copying loops (every round copies one), of buffers, table entries
    or frames for searches, of characters of the line for the lexer and the
    parser (every token has one), twice the frames for the second-chance scan
    (a first pass clears all bits), the length of the free list for the
    allocators, the number of polls until a device is ready.  [Hang] also stands for a loop that does not end in the C code.
    Theorems about sequences of operations ([kreach], the interleavings of
    [Spinlock], [Pipe] and [LogThms]) are by induction over them and have no
    bound.

    ** Not modelled

    - The linker script; the addresses it gives are parameters ([kend], [kdata] and
      those of code).  [vectors.S] is the output of [vectors.pl].
    - In [proc.c] the call of [swtch] is the point where a function is split; the
      machine of [Asm] and the process table are different states, related by
      what the theorems of [Asm], [Start] and [Calls] assume of the C functions.
    - [idtinit] and [mpmain], which load the interrupt table and enter the
      scheduler, and [procdump], which prints for debugging.  Of [main] the calls
      that use memory, CPU registers or the interrupting devices are in [Start]
      and [Devices]; the others initialise locks and tables whose initial states
      are those of their components.
    - Prompts and messages of user programs, where the claim is not about them.
    - The tests of [usertests.c] that need processes running at the same time,
      [sbrk] or [exec]: the models of files, of processes and of memory have
      separate states, and these tests need their union.  The trees of
      [Programs] are not run on the kernel either: the results of their calls
      are arguments.
    - Headers with declarations only ([defs.h], [types.h], [user.h]).

    More than one CPU is considered for locks ([Spinlock]), for pipes and for
    the log; [Start] starts the others; processes and traps are those of one CPU. *)
From stdpp Require Export prelude gmap list strings.
From Stdlib Require Export ZArith Lia.

(** ** Outcomes of C code

    A C function either returns, calls [panic]/[exit] (with the message it
    prints), or performs an operation the C language leaves undefined: an
    array access out of bounds, the read of an uninitialised local, a division
    by zero ([Undef] carries the reason), or it does not return because it
    spins on something only another CPU can change ([Hang]). *)
Inductive outcome (A : Type) : Type :=
  | Ret (a : A)
  | Panic (msg : string)
  | Undef (why : string)
  | Hang (why : string).
Arguments Ret {A} a.
Arguments Panic {A} msg.
Arguments Undef {A} why.
Arguments Hang {A} why.

Global Instance outcome_ret : MRet outcome := fun _ a => Ret a.
Global Instance outcome_bind : MBind outcome := fun _ _ f m =>
  match m with
  | Ret a => f a
  | Panic s => Panic s
  | Undef s => Undef s
  | Hang s => Hang s
  end.
Global Instance outcome_fmap : FMap outcome := fun _ _ f m =>
  match m with
  | Ret a => Ret (f a)
  | Panic s => Panic s
  | Undef s => Undef s
  | Hang s => Hang s
  end.

(** [returns m P]: the computation returns, and its result satisfies [P]
    (total correctness: neither a panic nor undefined behaviour). *)
Definition returns {A} (m : outcome A) (P : A -> Prop) : Prop :=
  match m with
  | Ret a => P a
  | _ => False
  end.

(** ** C arrays as lists *)

(** [a[i]] for an array of known length; out of range is undefined. *)
Definition rd {A} (a : list A) (i : nat) : outcome A :=
  match a !! i with
  | Some x => Ret x
  | None => Undef "array read out of bounds"
  end.

(** [a[i] = x]. *)
Definition wr {A} (a : list A) (i : nat) (x : A) : outcome (list A) :=
  if decide (i < length a) then Ret (<[i:=x]> a)
  else Undef "array write out of bounds".

(** [for (int i = start; i < start + count; i++) body] where [body] threads a
    state. *)
Fixpoint for_ {St} (start count : nat) (body : nat -> St -> outcome St) (s : St)
    : outcome St :=
  match count with
  | O => Ret s
  | S n => s' ← body start s; for_ (S start) n body s'
  end.

(** ** Machine integers *)

(** The value of a 32-bit two's complement [int] after wrap-around. *)
Definition int32 (z : Z) : Z := (z + 2147483648) mod 4294967296 - 2147483648.
(** The value of a 32-bit [uint]. *)
Definition uint32 (z : Z) : Z := z mod 4294967296.

Lemma int32_id z : (- 2 ^ 31 <= z < 2 ^ 31)%Z -> int32 z = z.
Proof. intros Hz. unfold int32. rewrite Z.mod_small; lia. Qed.
Lemma uint32_id z : (0 <= z < 2 ^ 32)%Z -> uint32 z = z.
Proof. intros Hz. apply Z.mod_small. lia. Qed.
Lemma uint32_bound z : (0 <= uint32 z < 2 ^ 32)%Z.
Proof. apply Z.mod_pos_bound. lia. Qed.

(** ** Lemmas on outcomes *)
Lemma bind_Ret {A B} (m : outcome A) (f : A -> outcome B) b :
  m ≫= f = Ret b <-> exists a, m = Ret a /\ f a = Ret b.
Proof.
  destruct m; cbn; split; try done; [eauto|by intros (? & [= <-] & ?)|by intros (? & ? & _)..].
Qed.

Lemma returns_bind {A B} (m : outcome A) (f : A -> outcome B) P :
  returns (m ≫= f) P <-> returns m (fun a => returns (f a) P).
Proof. by destruct m. Qed.

Lemma returns_Ret {A} (m : outcome A) P :
  returns m P <-> exists a, m = Ret a /\ P a.
Proof. destruct m; cbn; naive_solver. Qed.

Lemma returns_mono {A} (m : outcome A) (P Q : A -> Prop) :
  (forall a, P a -> Q a) -> returns m P -> returns m Q.
Proof. destruct m; cbn; auto. Qed.

Lemma rd_Ret {A} (a : list A) i x : rd a i = Ret x <-> a !! i = Some x.
Proof. unfold rd. destruct (a !! i); naive_solver. Qed.

Lemma rd_lookup {A} (a : list A) i x : a !! i = Some x -> rd a i = Ret x.
Proof. apply rd_Ret. Qed.

Lemma rd_lt {A} (a : list A) i : i < length a -> exists x, a !! i = Some x /\ rd a i = Ret x.
Proof. intros H. destruct (lookup_lt_is_Some_2 a i H) as [x Hx]. exists x. by rewrite rd_Ret. Qed.

Lemma wr_lt {A} (a : list A) i x : i < length a -> wr a i x = Ret (<[i:=x]> a).
Proof. intros H. unfold wr. by rewrite decide_True. Qed.

Lemma wr_Ret {A} (a b : list A) i x :
  wr a i x = Ret b <-> i < length a /\ b = <[i:=x]> a.
Proof. unfold wr. case_decide; naive_solver. Qed.

(** The induction principle of [for_] loops: an invariant indexed by the loop
    counter that the body preserves (and that makes the body return) holds at
    the exit, and the loop returns. *)
Lemma for_invariant {St} (I : nat -> St -> Prop) body start count (s : St) :
  I start s ->
  (forall i s, start <= i < start + count -> I i s -> returns (body i s) (I (S i))) ->
  returns (for_ start count body s) (I (start + count)).
Proof.
  revert start s. induction count as [|n IH]; intros start s H0 Hstep; cbn.
  - by rewrite Nat.add_0_r.
  - apply returns_bind. eapply returns_mono; [|apply Hstep; [lia|done]].
    intros s' Hs'. cbn in *. rewrite <- Nat.add_succ_comm.
    apply IH; [done|]. intros i s1 Hi. apply Hstep. lia.
Qed.

Lemma for_app {St} (body : nat -> St -> outcome St) n m start s :
  for_ start (n + m) body s = s' ← for_ start n body s; for_ (start + n) m body s'.
Proof.
  revert start s. induction n as [|n IH]; intros start s; cbn.
  - by rewrite Nat.add_0_r.
  - destruct (body start s) as [s'| | |]; cbn; [|done..].
    rewrite IH. by rewrite <- Nat.add_succ_comm.
Qed.

Lemma for_ext {St} (f g : nat -> St -> outcome St) start count s :
  (forall i s, start <= i < start + count -> f i s = g i s) ->
  for_ start count f s = for_ start count g s.
Proof.
  revert start s. induction count as [|n IH]; intros start s H; cbn; [done|].
  rewrite (H start s) by lia. destruct (g start s); cbn; [|done..].
  apply IH. intros. apply H. lia.
Qed.

(** The loop [for (j...) if (key\[j\] < key\[m\]) m = j], started at [m0], finds a
    minimum of [key] on [\[0, n)]: [m0] when nothing is smaller, and otherwise
    the first one. *)
Definition argmin_of (n : nat) (key : nat -> nat) (m0 m : nat) : Prop :=
  m < n /\ (forall j, j < n -> key m <= key j) /\
  (m = m0 \/ (key m < key m0 /\ forall j, j < m -> key m < key j)).

Lemma argmin_loop (key : nat -> nat) (body : nat -> nat -> outcome nat) n m0 :
  m0 < n ->
  (forall j m, j < n -> m < n -> body j m = Ret (if decide (key j < key m) then j else m)) ->
  returns (for_ 0 n body m0) (argmin_of n key m0).
Proof.
  intros Hm0 Hbody.
  pose proof (for_invariant (fun i m => m < n /\ (forall j, j < i -> key m <= key j) /\
     (m = m0 \/ (key m < key m0 /\ forall j, j < m -> key m < key j))) body 0 n m0) as H.
  eapply returns_mono; [|apply H]; clear H.
  - intros m (H1 & H2 & H3). split_and!; auto.
  - split_and!; [done|lia|by left].
  - intros i m Hi (H1 & H2 & H3). rewrite Hbody by lia. cbn. case_decide as Hlt.
    + split_and!; [lia| |].
      * intros j Hj. destruct (decide (j = i)) as [->|]; [lia|].
        specialize (H2 j ltac:(lia)). lia.
      * right. split; [destruct H3 as [->|[??]]; lia|].
        intros j Hj. specialize (H2 j Hj). lia.
    + split_and!; [done| |done].
      intros j Hj. destruct (decide (j = i)) as [->|]; [lia|]. apply H2. lia.
Qed.

(** Two loops whose bodies correspond through [φ] on the states that satisfy an
    invariant of the first one. *)
Lemma for_sim {S1 S2} (I : nat -> S1 -> Prop) (φ : S1 -> S2) b1 b2 start n (s : S1) :
  I start s ->
  (forall i s, start <= i < start + n -> I i s ->
     returns (b1 i s) (I (S i)) /\ b2 i (φ s) = φ <$> b1 i s) ->
  for_ start n b2 (φ s) = φ <$> for_ start n b1 s.
Proof.
  revert start s. induction n as [|n IH]; intros start s H0 Hstep; cbn; [done|].
  destruct (Hstep start s) as [H1 ->]; [lia|done|].
  destruct (b1 start s) as [s'| | |]; cbn; [|done..].
  apply IH; [done|]. intros i s1 Hi. apply Hstep. lia.
Qed.

(** ** Filters *)
Lemma filter_iff_on {A} (P Q : A -> Prop) `{!forall x, Decision (P x), !forall x, Decision (Q x)} (l : list A) :
  (forall y, y ∈ l -> Q y <-> P y) -> filter Q l = filter P l.
Proof.
  induction l as [|a l IH]; intros HQ; [done|]. rewrite !filter_cons.
  assert (Q a <-> P a) as Ha by (apply HQ; by left).
  rewrite IH by (intros; apply HQ; by right). destruct (decide (P a)), (decide (Q a)); done || tauto.
Qed.

Lemma filter_remove `{EqDecision A} (P Q : A -> Prop) `{!forall x, Decision (P x), !forall x, Decision (Q x)} (l : list A) x :
  NoDup l -> x ∈ l -> P x -> (forall y, y ∈ l -> Q y <-> P y /\ y <> x) -> S (length (filter Q l)) = length (filter P l).
Proof.
  induction l as [|a l IH]; intros Hnd Hx HPx HQ; [by apply elem_of_nil in Hx|].
  apply NoDup_cons in Hnd as [Ha Hnd]. rewrite !filter_cons. pose proof (HQ a ltac:(by left)) as Haa.
  destruct (decide (a = x)) as [->|Hne].
  - rewrite (decide_True (P := P x)) by done. rewrite decide_False by tauto. cbn. do 2 f_equal.
    apply filter_iff_on. intros y Hy. rewrite HQ by by right. split; [tauto|]. intros HP. split; [done|]. by intros ->.
  - assert (x ∈ l) as Hxl by (apply elem_of_cons in Hx as [->|]; done).
    pose proof (IH Hnd Hxl HPx ltac:(intros; apply HQ; by right)) as IH'.
    destruct (decide (P a)), (decide (Q a)); cbn; try tauto; lia.
Qed.

(** ** A state monad over outcomes, for code that updates global state *)
Definition stm (St A : Type) : Type := St -> outcome (A * St).

Global Instance stm_ret {St} : MRet (stm St) := fun _ a s => Ret (a, s).
Global Instance stm_bind {St} : MBind (stm St) := fun _ _ f m s =>
  '(a, s) ← m s; f a s.

Definition get {St} : stm St St := fun s => Ret (s, s).
Definition put {St} (s : St) : stm St unit := fun _ => Ret (tt, s).
Definition modify {St} (f : St -> St) : stm St unit := fun s => Ret (tt, f s).
Definition panic {St A} (msg : string) : stm St A := fun _ => Panic msg.
Definition undef {St A} (why : string) : stm St A := fun _ => Undef why.
Definition hang {St A} (why : string) : stm St A := fun _ => Hang why.

Lemma stm_bind_Ret {St A B} (m : stm St A) (f : A -> stm St B) s a s' :
  m s = Ret (a, s') -> (m ≫= f) s = f a s'.
Proof. intros H. unfold mbind, stm_bind. by rewrite H. Qed.

Lemma stm_bind_inv {St A B} (m : stm St A) (f : A -> stm St B) s r :
  (m ≫= f) s = Ret r -> exists a s', m s = Ret (a, s') /\ f a s' = Ret r.
Proof. unfold mbind, stm_bind. destruct (m s) as [[a s']| | |]; [|done..]. intros H. by exists a, s'. Qed.

Lemma stm_bind_Undef {St A B} (m : stm St A) (f : A -> stm St B) s why :
  m s = Undef why -> (m ≫= f) s = Undef why.
Proof. intros H. unfold mbind, stm_bind. by rewrite H. Qed.

(** Sequencing of state-monad computations. *)
Notation "m ;; k" := (mbind (fun _ => k) m)
  (at level 100, k at level 200, right associativity) : stdpp_scope.

(** [wp m Q s]: from [s], [m] returns with a result and state satisfying [Q]. *)
Definition wp {St A} (m : stm St A) (Q : A -> St -> Prop) (s : St) : Prop :=
  returns (m s) (fun r => Q (fst r) (snd r)).

Lemma wp_bind {St A B} (m : stm St A) (f : A -> stm St B) Q s :
  wp m (fun a => wp (f a) Q) s -> wp (m ≫= f) Q s.
Proof. unfold wp, mbind, stm_bind. by destruct (m s) as [[a s']| | |]. Qed.

Lemma wp_ret {St A} (a : A) Q (s : St) : Q a s -> wp (mret a) Q s.
Proof. done. Qed.

Lemma wp_get {St} Q (s : St) : Q s s -> wp get Q s.
Proof. done. Qed.

Lemma wp_modify {St} (f : St -> St) Q s : Q tt (f s) -> wp (modify f) Q s.
Proof. done. Qed.

Lemma wp_mono {St A} (m : stm St A) (P Q : A -> St -> Prop) s :
  wp m P s -> (forall a s', P a s' -> Q a s') -> wp m Q s.
Proof. unfold wp. intros H HPQ. eapply returns_mono; [|exact H]. intros []. apply HPQ. Qed.

(** Symbolic execution of a state-monad program: the rules of the components
    are in the database [wp]. *)
Create HintDb wp.
#[export] Hint Resolve wp_ret wp_get wp_modify : wp.

Lemma wp_and {St A} (m : stm St A) (P Q : A -> St -> Prop) s :
  wp m P s -> wp m Q s -> wp m (fun a s' => P a s' /\ Q a s') s.
Proof. unfold wp. by destruct (m s). Qed.

Lemma wp_Ret {St A} (m : stm St A) (Q : A -> St -> Prop) s :
  wp m Q s <-> exists a s', m s = Ret (a, s') /\ Q a s'.
Proof. unfold wp. rewrite returns_Ret. split; [intros ([a s'] & ? & ?); eauto|intros (a & s' & ? & ?)]. exists (a, s'). done. Qed.

Lemma wp_elim {St A} (m : stm St A) (Q : A -> St -> Prop) s a s' :
  wp m Q s -> m s = Ret (a, s') -> Q a s'.
Proof. unfold wp. intros Hw Hm. by rewrite Hm in Hw. Qed.
