(* ===== verification/PageDefs.v ===== *)
(** * Page replacement simulator: data, printing and hit test

    Models the shared part of [src/page replacement/main.c]: the globals
    [pf_num], [ref_num], [save] and [references], the printing routines with
    their 100-byte buffer, and [check_hit].  The algorithms are in [PageAlgos]. *)
From stdpp Require Export pretty.
From S2P Require Export Prelude.

Module Page.

(** The length of the array [references]. *)
Definition MAX : Z := 10000.

(** [struct psr]: one entry of the reference string. *)
Record psr := mkPsr { data : Z; rw : Z }.

(** The globals the algorithms read: [pf_num], [save], [ref_num] and the array
    [references]. *)
Record glob := mkGlob {
  pf_num : nat;
  save : bool;
  ref_num : nat;
  references : list psr
}.

(** What the program has written to the console and to [output.txt]. *)
Record io := mkIo { stdout : string; fp : string }.

Definition emit (g : glob) (s : string) (o : io) : io :=
  mkIo (stdout o +:+ s) (if save g then fp o +:+ s else fp o).

Definition tab : string := String (Ascii.ascii_of_nat 9) "".
Definition newline : string := String (Ascii.ascii_of_nat 10) "".

(** [char tmp\[100\]]: a [sprintf] into it is defined when the text and its
    terminating nul fit. *)
Definition sprintf100 (s : string) : outcome string :=
  if decide (String.length s < 100) then Ret s
  else Undef "sprintf overflows tmp[100]".

Definition print_msg (g : glob) (msg : string) (o : io) : io := emit g msg o.

Definition print_page_fault (g : glob) (page_fault : nat) (o : io) : outcome io :=
  tmp ← sprintf100 ("page_fault: " +:+ pretty page_fault +:+ "개 / "
                     +:+ pretty (ref_num g) +:+ "개" +:+ newline);
  Ret (emit g tmp o).

(** The loop of [print_page_frame] appends ["%d\t"] for every frame. *)
Definition print_page_frame (g : glob) (page_frame : list Z) (hit : string) (o : io)
    : outcome io :=
  tmp ← for_ 0 (pf_num g)
          (fun i tmp => x ← rd page_frame i; sprintf100 (tmp +:+ (pretty x +:+ tab))) "";
  tmp ← sprintf100 (tmp +:+ (hit +:+ newline));
  Ret (emit g tmp o).

(** [check_hit] returns the index of the frame that holds [key], or -1.  While
    there are free frames it also looks at the first free one. *)
Fixpoint check_hit_loop (key : Z) (page_frame : list Z) (i n : nat) : outcome Z :=
  match n with
  | O => Ret (-1)%Z
  | S n =>
      x ← rd page_frame i;
      if decide (key = x) then Ret (Z.of_nat i)
      else check_hit_loop key page_frame (S i) n
  end.

Definition check_hit (g : glob) (key : Z) (page_frame : list Z) (occupied : nat)
    : outcome Z :=
  let occupied := if decide (occupied < pf_num g) then S occupied else occupied in
  check_hit_loop key page_frame 0 occupied.

(** The locals common to all the algorithms, and what has been printed. *)
Record frames := mkFrames {
  page_frame : list Z;
  page_fault : nat;
  occupied : nat;
  out : io
}.

(** The loop [for (i...) page_frame\[i\] = -1] and the declarations before it. *)
Definition init_frames (g : glob) (o : io) : frames :=
  mkFrames (replicate (pf_num g) (-1)%Z) 0 0 o.

End Page.
