(* ===== verification/PageAlgos.v ===== *)
(** * Page replacement simulator: the algorithms

    One definition per function of [src/page replacement/main.c]: the loop body
    of each algorithm, its victim selection, and the whole algorithm as the
    [for] loop over the reference string followed by [print_page_fault].
    [simulate] is the dispatcher. *)
From S2P Require Export PageDefs.

Module Algos.
Import Page.

Section Algorithms.
Context (g : glob).

(** Print the heading and the empty frames, run the loop, print the faults. *)

(** ** FIFO *)
Definition fifo_body (i : nat) (s : frames) : outcome frames :=
  r ← rd (references g) i;
  h ← check_hit g (data r) (page_frame s) (occupied s);
  if decide (0 <= h)%Z then
    o ← print_page_frame g (page_frame s) "(hit!)" (out s);
    Ret (mkFrames (page_frame s) (page_fault s) (occupied s) o)
  else
    let page_fault := S (page_fault s) in
    '(pf, occ) ←
      (if decide (pf_num g <= occupied s) then
         pf ← wr (page_frame s) ((page_fault - 1) mod pf_num g) (data r);
         Ret (pf, occupied s)
       else
         pf ← wr (page_frame s) (occupied s) (data r);
         Ret (pf, S (occupied s)));
    o ← print_page_frame g pf "" (out s);
    Ret (mkFrames pf page_fault occ o).

Definition fifo (o : io) : outcome frames :=
  let s := init_frames g (print_msg g (newline +:+ "[FIFO]" +:+ newline) o) in
  o ← print_page_frame g (page_frame s) "" (out s);
  s ← for_ 0 (ref_num g) fifo_body (mkFrames (page_frame s) 0 0 o);
  o ← print_page_fault g (page_fault s) (out s);
  Ret (mkFrames (page_frame s) (page_fault s) (occupied s) o).

(** ** LIFO *)
Definition lifo_body (i : nat) (s : frames) : outcome frames :=
  r ← rd (references g) i;
  h ← check_hit g (data r) (page_frame s) (occupied s);
  if decide (0 <= h)%Z then
    o ← print_page_frame g (page_frame s) "(hit!)" (out s);
    Ret (mkFrames (page_frame s) (page_fault s) (occupied s) o)
  else
    let page_fault := S (page_fault s) in
    '(pf, occ) ←
      (if decide (pf_num g <= occupied s) then
         pf ← wr (page_frame s) (occupied s - 1) (data r);
         Ret (pf, occupied s)
       else
         pf ← wr (page_frame s) (occupied s) (data r);
         Ret (pf, S (occupied s)));
    o ← print_page_frame g pf "" (out s);
    Ret (mkFrames pf page_fault occ o).

Definition lifo (o : io) : outcome frames :=
  let s := init_frames g (print_msg g (newline +:+ "[LIFO]" +:+ newline) o) in
  o ← print_page_frame g (page_frame s) "" (out s);
  s ← for_ 0 (ref_num g) lifo_body (mkFrames (page_frame s) 0 0 o);
  o ← print_page_fault g (page_fault s) (out s);
  Ret (mkFrames (page_frame s) (page_fault s) (occupied s) o).

(** ** Optimal *)

(** The inner loop of [find_farthest_aft_idx]: the final value of [j], the
    first index from [j] on where [page] is referenced, or [ref_num]. *)
Fixpoint aft_scan (page : Z) (j n : nat) : outcome nat :=
  match n with
  | O => Ret j
  | S n =>
      r ← rd (references g) j;
      if decide (page = data r) then Ret j else aft_scan page (S j) n
  end.

(** The outer loop: [n] frames from index [i] remain. *)
Fixpoint find_farthest_aft_loop (start_idx : nat) (page_frame : list Z)
    (i n max : nat) (max_idx : Z) : outcome Z :=
  match n with
  | O => Ret (if decide (max_idx = -1)%Z then 0%Z else max_idx)
  | S n =>
      page ← rd page_frame i;
      j ← aft_scan page start_idx (ref_num g - start_idx);
      let '(max, max_idx) :=
        if decide (j < ref_num g) then
          if decide (max < j) then (j, Z.of_nat i) else (max, max_idx)
        else (max, max_idx) in
      if decide (j = ref_num g) then Ret (Z.of_nat i)
      else find_farthest_aft_loop start_idx page_frame (S i) n max max_idx
  end.

Definition find_farthest_aft_idx (start_idx : nat) (page_frame : list Z) : outcome Z :=
  find_farthest_aft_loop start_idx page_frame 0 (pf_num g) start_idx (-1)%Z.

Definition optimal_body (i : nat) (s : frames) : outcome frames :=
  r ← rd (references g) i;
  h ← check_hit g (data r) (page_frame s) (occupied s);
  if decide (0 <= h)%Z then
    o ← print_page_frame g (page_frame s) "(hit!)" (out s);
    Ret (mkFrames (page_frame s) (page_fault s) (occupied s) o)
  else
    let page_fault := S (page_fault s) in
    '(pf, occ) ←
      (if decide (pf_num g <= occupied s) then
         tmp ← find_farthest_aft_idx (i + 1) (page_frame s);
         pf ← wr (page_frame s) (Z.to_nat tmp) (data r);
         Ret (pf, occupied s)
       else
         pf ← wr (page_frame s) (occupied s) (data r);
         Ret (pf, S (occupied s)));
    o ← print_page_frame g pf "" (out s);
    Ret (mkFrames pf page_fault occ o).

Definition optimal (o : io) : outcome frames :=
  let s := init_frames g (print_msg g ("[OPTIMAL]" +:+ newline) o) in
  o ← print_page_frame g (page_frame s) "" (out s);
  s ← for_ 0 (ref_num g) optimal_body (mkFrames (page_frame s) 0 0 o);
  o ← print_page_fault g (page_fault s) (out s);
  Ret (mkFrames (page_frame s) (page_fault s) (occupied s) o).

(** ** LRU *)

(** The inner loop of [find_farthest_idx], from [j = n - 1] down to 0: the last
    index before [n] where [page] is referenced, if there is one. *)
Fixpoint bef_scan (page : Z) (n : nat) : outcome (option nat) :=
  match n with
  | O => Ret None
  | S j =>
      r ← rd (references g) j;
      if decide (page = data r) then Ret (Some j) else bef_scan page j
  end.

(** [distance] starts uninitialised ([None]); the first loop fills it. *)
Definition fill_distance (start_idx : Z) (page_frame : list Z)
    : outcome (list (option nat)) :=
  for_ 0 (pf_num g)
    (fun i distance =>
       page ← rd page_frame i;
       j ← bef_scan page (Z.to_nat (start_idx + 1));
       match j with
       | Some j => wr distance i (Some j)
       | None => Ret distance
       end)
    (replicate (pf_num g) None).

(** Reading an uninitialised element is undefined. *)
Definition rd_init {A} (a : list (option A)) (i : nat) : outcome A :=
  x ← rd a i;
  match x with
  | Some v => Ret v
  | None => Undef "read of an uninitialised variable"
  end.

Definition find_farthest_idx (start_idx : Z) (page_frame : list Z) : outcome nat :=
  distance ← fill_distance start_idx page_frame;
  for_ 0 (pf_num g)
    (fun i farthest_idx =>
       x ← rd_init distance i;
       y ← rd_init distance farthest_idx;
       Ret (if decide (x < y) then i else farthest_idx))
    0.

Definition lru_body (i : nat) (s : frames) : outcome frames :=
  r ← rd (references g) i;
  h ← check_hit g (data r) (page_frame s) (occupied s);
  if decide (0 <= h)%Z then
    o ← print_page_frame g (page_frame s) "(hit!)" (out s);
    Ret (mkFrames (page_frame s) (page_fault s) (occupied s) o)
  else
    let page_fault := S (page_fault s) in
    '(pf, occ) ←
      (if decide (pf_num g <= occupied s) then
         v ← find_farthest_idx (Z.of_nat i - 1) (page_frame s);
         pf ← wr (page_frame s) v (data r);
         Ret (pf, occupied s)
       else
         pf ← wr (page_frame s) (occupied s) (data r);
         Ret (pf, S (occupied s)));
    o ← print_page_frame g pf "" (out s);
    Ret (mkFrames pf page_fault occ o).

Definition lru (o : io) : outcome frames :=
  let s := init_frames g (print_msg g (newline +:+ "[Least Recently Used]" +:+ newline) o) in
  o ← print_page_frame g (page_frame s) "" (out s);
  s ← for_ 0 (ref_num g) lru_body (mkFrames (page_frame s) 0 0 o);
  o ← print_page_fault g (page_fault s) (out s);
  Ret (mkFrames (page_frame s) (page_fault s) (occupied s) o).

(** ** Algorithms with a counter per frame *)

(** The loop that selects the frame with the least counter: [min_idx]. *)
Definition min_counter (counter : list nat) : outcome nat :=
  for_ 0 (pf_num g)
    (fun j min_idx =>
       x ← rd counter j;
       y ← rd counter min_idx;
       Ret (if decide (x < y) then j else min_idx))
    0.

(** [lru2], the second implementation of LRU: [counter] holds the time of the
    last use of a frame, [cnt] is the clock. *)
Record lru2_st := mkLru2 { l2_counter : list nat; l2_cnt : nat; l2_f : frames }.

Definition lru2_body (i : nat) (s : lru2_st) : outcome lru2_st :=
  let cnt := S (l2_cnt s) in
  let counter := l2_counter s in
  let f := l2_f s in
  r ← rd (references g) i;
  tmp ← check_hit g (data r) (page_frame f) (occupied f);
  if decide (0 <= tmp)%Z then
    o ← print_page_frame g (page_frame f) "(hit!)" (out f);
    counter ← wr counter (Z.to_nat tmp) cnt;
    Ret (mkLru2 counter cnt (mkFrames (page_frame f) (page_fault f) (occupied f) o))
  else
    let page_fault := S (page_fault f) in
    '(pf, counter, occ) ←
      (if decide (pf_num g <= occupied f) then
         min_idx ← min_counter counter;
         pf ← wr (page_frame f) min_idx (data r);
         counter ← wr counter min_idx cnt;
         Ret (pf, counter, occupied f)
       else
         pf ← wr (page_frame f) (occupied f) (data r);
         counter ← wr counter (occupied f) cnt;
         Ret (pf, counter, S (occupied f)));
    o ← print_page_frame g pf "" (out f);
    Ret (mkLru2 counter cnt (mkFrames pf page_fault occ o)).

Definition lru2 (o : io) : outcome frames :=
  let s := init_frames g (print_msg g (newline +:+ "[Least Recently Used]" +:+ newline) o) in
  o ← print_page_frame g (page_frame s) "" (out s);
  t ← for_ 0 (ref_num g) lru2_body
        (mkLru2 (replicate (pf_num g) 0) 0 (mkFrames (page_frame s) 0 0 o));
  let s := l2_f t in
  o ← print_page_fault g (page_fault s) (out s);
  Ret (mkFrames (page_frame s) (page_fault s) (occupied s) o).

(** [lfu]: [counter] counts the references served by a frame; it is not reset
    when the page of the frame is replaced. *)
Record lfu_st := mkLfu { lf_counter : list nat; lf_f : frames }.

Definition incr (counter : list nat) (i : nat) : outcome (list nat) :=
  x ← rd counter i; wr counter i (S x).

Definition lfu_body (i : nat) (s : lfu_st) : outcome lfu_st :=
  let counter := lf_counter s in
  let f := lf_f s in
  r ← rd (references g) i;
  tmp ← check_hit g (data r) (page_frame f) (occupied f);
  if decide (0 <= tmp)%Z then
    o ← print_page_frame g (page_frame f) "(hit!)" (out f);
    counter ← incr counter (Z.to_nat tmp);
    Ret (mkLfu counter (mkFrames (page_frame f) (page_fault f) (occupied f) o))
  else
    let page_fault := S (page_fault f) in
    '(pf, counter, occ) ←
      (if decide (pf_num g <= occupied f) then
         min_idx ← min_counter counter;
         pf ← wr (page_frame f) min_idx (data r);
         counter ← incr counter min_idx;
         Ret (pf, counter, occupied f)
       else
         pf ← wr (page_frame f) (occupied f) (data r);
         counter ← incr counter (occupied f);
         Ret (pf, counter, S (occupied f)));
    o ← print_page_frame g pf "" (out f);
    Ret (mkLfu counter (mkFrames pf page_fault occ o)).

Definition lfu (o : io) : outcome frames :=
  let s := init_frames g (print_msg g (newline +:+ "[Least Frequently Used]" +:+ newline) o) in
  o ← print_page_frame g (page_frame s) "" (out s);
  t ← for_ 0 (ref_num g) lfu_body
        (mkLfu (replicate (pf_num g) 0) (mkFrames (page_frame s) 0 0 o));
  let s := lf_f t in
  o ← print_page_fault g (page_fault s) (out s);
  Ret (mkFrames (page_frame s) (page_fault s) (occupied s) o).

(** ** Second chance *)

Record sc_st := mkSc { sc_head : nat; sc_rbit : list Z; sc_f : frames }.

(** [while (rbit\[head\]) { rbit\[head\]=0; head = (head+1) % pf_num; }] *)
Fixpoint sc_scan (fuel : nat) (head : nat) (rbit : list Z) : outcome (nat * list Z) :=
  match fuel with
  | O => Undef "out of fuel"
  | S fuel =>
      b ← rd rbit head;
      if decide (b = 0)%Z then Ret (head, rbit)
      else rbit ← wr rbit head 0%Z; sc_scan fuel ((head + 1) mod pf_num g) rbit
  end.

Definition sc_body (i : nat) (s : sc_st) : outcome sc_st :=
  let head := sc_head s in
  let rbit := sc_rbit s in
  let f := sc_f s in
  r ← rd (references g) i;
  tmp ← check_hit g (data r) (page_frame f) (occupied f);
  if decide (0 <= tmp)%Z then
    o ← print_page_frame g (page_frame f) "(hit!)" (out f);
    rbit ← wr rbit (Z.to_nat tmp) 1%Z;
    Ret (mkSc ((head + 1) mod pf_num g) rbit
              (mkFrames (page_frame f) (page_fault f) (occupied f) o))
  else
    let page_fault := S (page_fault f) in
    '(pf, head, rbit, occ) ←
      (if decide (pf_num g <= occupied f) then
         '(head, rbit) ← sc_scan (S (pf_num g)) head rbit;
         pf ← wr (page_frame f) head (data r);
         rbit ← wr rbit head 1%Z;
         Ret (pf, head, rbit, occupied f)
       else
         pf ← wr (page_frame f) (occupied f) (data r);
         rbit ← wr rbit (occupied f) 1%Z;
         Ret (pf, head, rbit, S (occupied f)));
    o ← print_page_frame g pf "" (out f);
    Ret (mkSc head rbit (mkFrames pf page_fault occ o)).

Definition sc (o : io) : outcome frames :=
  let s := init_frames g (print_msg g (newline +:+ "[Second Chance]" +:+ newline) o) in
  o ← print_page_frame g (page_frame s) "" (out s);
  t ← for_ 0 (ref_num g) sc_body
        (mkSc 0 (replicate (pf_num g) 0%Z) (mkFrames (page_frame s) 0 0 o));
  let s := sc_f t in
  o ← print_page_fault g (page_fault s) (out s);
  Ret (mkFrames (page_frame s) (page_fault s) (occupied s) o).

(** ** Enhanced second chance *)

(** The class of a frame, from its two bits; other values leave [tmp\[i\]]
    uninitialised. *)
Definition esc_class (rbit wbit : Z) : option nat :=
  if decide (rbit = 0 /\ wbit = 0)%Z then Some 0
  else if decide (rbit = 0 /\ wbit = 1)%Z then Some 1
  else if decide (rbit = 1 /\ wbit = 0)%Z then Some 2
  else if decide (rbit = 1 /\ wbit = 1)%Z then Some 3
  else None.

Definition esc_classes (rbit wbit : list Z) : outcome (list (option nat)) :=
  for_ 0 (pf_num g)
    (fun i tmp =>
       r ← rd rbit i;
       w ← rd wbit i;
       match esc_class r w with
       | Some c => wr tmp i (Some c)
       | None => Ret tmp
       end)
    (replicate (pf_num g) None).

Definition get_high_priority_idx (head : nat) (rbit wbit : list Z) : outcome nat :=
  r ← rd rbit head;
  w ← rd wbit head;
  if decide (r = 0 /\ w = 0)%Z then Ret head
  else
    tmp ← esc_classes rbit wbit;
    for_ 0 (pf_num g)
      (fun i head =>
         x ← rd_init tmp head;
         y ← rd_init tmp i;
         Ret (if decide (y < x) then i else head))
      head.

Record esc_st := mkEsc {
  e_counter : list nat;
  e_cnt : nat;
  e_rbit : list Z;
  e_wbit : list Z;
  e_f : frames
}.

(** Setting the two bits of a freshly loaded frame from the access kind. *)
Definition esc_set_bits (w : Z) (idx : nat) (rbit wbit : list Z)
    : outcome (list Z * list Z) :=
  if decide (w = 0)%Z then
    rbit ← wr rbit idx 1%Z; wbit ← wr wbit idx 0%Z; Ret (rbit, wbit)
  else
    rbit ← wr rbit idx 0%Z; wbit ← wr wbit idx 1%Z; Ret (rbit, wbit).

Definition esc_body (i : nat) (s : esc_st) : outcome esc_st :=
  let cnt := S (e_cnt s) in
  let counter := e_counter s in
  let rbit := e_rbit s in
  let wbit := e_wbit s in
  let f := e_f s in
  r ← rd (references g) i;
  tmp ← check_hit g (data r) (page_frame f) (occupied f);
  if decide (0 <= tmp)%Z then
    o ← print_page_frame g (page_frame f) "(hit!)" (out f);
    wbit ← wr wbit (Z.to_nat tmp) 1%Z;
    counter ← wr counter (Z.to_nat tmp) cnt;
    Ret (mkEsc counter cnt rbit wbit
               (mkFrames (page_frame f) (page_fault f) (occupied f) o))
  else
    let page_fault := S (page_fault f) in
    '(pf, counter, rbit, wbit, occ) ←
      (if decide (pf_num g <= occupied f) then
         min_idx ← min_counter counter;
         index ← get_high_priority_idx min_idx rbit wbit;
         pf ← wr (page_frame f) index (data r);
         '(rbit, wbit) ← esc_set_bits (rw r) index rbit wbit;
         counter ← wr counter index cnt;
         Ret (pf, counter, rbit, wbit, occupied f)
       else
         pf ← wr (page_frame f) (occupied f) (data r);
         '(rbit, wbit) ← esc_set_bits (rw r) (occupied f) rbit wbit;
         counter ← wr counter (occupied f) cnt;
         Ret (pf, counter, rbit, wbit, S (occupied f)));
    o ← print_page_frame g pf "" (out f);
    Ret (mkEsc counter cnt rbit wbit (mkFrames pf page_fault occ o)).

Definition esc (o : io) : outcome frames :=
  let s := init_frames g
             (print_msg g (newline +:+ "[Enhanced Second Chance]" +:+ newline) o) in
  o ← print_page_frame g (page_frame s) "" (out s);
  t ← for_ 0 (ref_num g) esc_body
        (mkEsc (replicate (pf_num g) 0) 0 (replicate (pf_num g) 0%Z)
               (replicate (pf_num g) 0%Z) (mkFrames (page_frame s) 0 0 o));
  let s := e_f t in
  o ← print_page_fault g (page_fault s) (out s);
  Ret (mkFrames (page_frame s) (page_fault s) (occupied s) o).

(** ** The dispatcher *)

(** One selected algorithm; [case]s other than 1..7 do nothing. *)
Definition run_algorithm (n : Z) (o : io) : outcome io :=
  match n with
  | 1%Z => out <$> optimal o
  | 2%Z => out <$> fifo o
  | 3%Z => out <$> lifo o
  | 4%Z => out <$> lru o
  | 5%Z => out <$> lfu o
  | 6%Z => out <$> sc o
  | 7%Z => out <$> esc o
  | _ => Ret o
  end.

(** [for (i = 0; algorithm\[i\] != 0; i++)] over the array [algorithm\[3\]];
    the fuel exceeds the length of the array by one, so that running out of it
    is the out-of-bounds read. *)
Fixpoint simulate_loop (algorithm : list Z) (i fuel : nat) (o : io) : outcome io :=
  match fuel with
  | O => Undef "out of fuel"
  | S fuel =>
      a ← rd algorithm i;
      if decide (a = 0)%Z then Ret o
      else o ← run_algorithm a o; simulate_loop algorithm (S i) fuel o
  end.

Definition simulate (algorithm : list Z) (o : io) : outcome io :=
  a ← rd algorithm 0;
  if decide (a = 8)%Z then
    o ← run_algorithm 1 o;
    o ← run_algorithm 2 o;
    o ← run_algorithm 3 o;
    o ← run_algorithm 4 o;
    o ← run_algorithm 5 o;
    o ← run_algorithm 6 o;
    run_algorithm 7 o
  else simulate_loop algorithm 0 (S (length algorithm)) o.

End Algorithms.
End Algos.
