(* ===== verification/PageSpec.v ===== *)
(** * Demand paging: the specification the simulator implements

    [dstep] and [dsteps] are the abstract semantics of demand paging with
    [k] frames on sets of resident pages: a page is loaded only when it is
    referenced and absent, and a page is evicted only when all the frames are
    in use.  [frames_ok] relates the locals of an algorithm of [PageAlgos] after
    [i] references to such a run.  The file also has the lemmas on printing
    and on [check_hit] that all the algorithms share. *)
From S2P Require Export PageAlgos.

Module Spec.
Import Page Algos.

(** ** The abstract semantics *)

(** [dstep k r S c S']: with [S] resident, referencing [r] costs [c] faults and
    leaves [S'] resident. *)
Inductive dstep (k : nat) (r : Z) : gset Z -> nat -> gset Z -> Prop :=
  | dstep_hit S : r ∈ S -> dstep k r S 0 S
  | dstep_cold S : r ∉ S -> size S < k -> dstep k r S 1 ({[r]} ∪ S)
  | dstep_evict S v : r ∉ S -> k <= size S -> v ∈ S -> dstep k r S 1 ({[r]} ∪ (S ∖ {[v]})).

Inductive dsteps (k : nat) : list Z -> gset Z -> nat -> gset Z -> Prop :=
  | dsteps_nil S : dsteps k [] S 0 S
  | dsteps_cons r w S c S1 n S2 :
      dstep k r S c S1 -> dsteps k w S1 n S2 -> dsteps k (r :: w) S (c + n) S2.

(** ** Inputs the program accepts *)

(** The pages referenced, in order. *)
Definition refs (g : glob) : list Z := data <$> take (ref_num g) (references g).

(** [choose_option] requires 3 to 10 frames; [references] has [MAX] = 10000
    elements; a page number prints in at most 8 characters, so that 10 of them
    fit in [tmp\[100\]] ([get_data_entry] generates pages 1 to 29), and is not
    the mark -1 of a free frame. *)
Record wf_glob (g : glob) : Prop := {
  wf_pf : 3 <= pf_num g <= 10;
  wf_ref : ref_num g <= length (references g);
  wf_max : (Z.of_nat (length (references g)) <= MAX)%Z;
  wf_data : Forall (fun r => 0 <= data r <= 99999999)%Z (references g)
}.

Global Instance wf_glob_dec g : Decision (wf_glob g).
Proof.
  destruct (decide ((3 <= pf_num g <= 10 /\ ref_num g <= length (references g)) /\
    (Z.of_nat (length (references g)) <= MAX)%Z /\
    Forall (fun r => 0 <= data r <= 99999999)%Z (references g))) as [H|H].
  - left. destruct H as [[??] [??]]. by constructor.
  - right. intros [????]. apply H. auto.
Defined.

(** The pages held by the first [occupied] frames. *)
Definition resident (f : frames) : list Z := take (occupied f) (page_frame f).

(** The locals of an algorithm before reference [i]. *)
Record frames_ok (g : glob) (i : nat) (f : frames) : Prop := {
  fo_len : length (page_frame f) = pf_num g;
  fo_occ : occupied f <= pf_num g;
  fo_free : drop (occupied f) (page_frame f) = replicate (pf_num g - occupied f) (-1)%Z;
  fo_nodup : NoDup (resident f);
  fo_sub : forall p, p ∈ resident f -> p ∈ take i (refs g);
  fo_run : dsteps (pf_num g) (take i (refs g)) ∅ (page_fault f) (list_to_set (resident f))
}.

(** ** Printing never overflows [tmp] *)

Lemma string_length_app (s t : string) :
  String.length (s +:+ t) = String.length s + String.length t.
Proof. induction s as [|a s IH]; [done|]. exact (f_equal S IH). Qed.

Lemma pretty_N_go_length d x s :
  (x < 10 ^ N.of_nat d)%N ->
  String.length (pretty_N_go x s) <= d + String.length s.
Proof.
  revert x s. induction d as [|d IH]; intros x s Hx.
  - cbn in Hx. replace x with 0%N by lia. done.
  - destruct (decide (x = 0)%N) as [->|]; [rewrite pretty_N_go_0; lia|].
    rewrite pretty_N_go_step by lia.
    rewrite IH; [cbn; lia|].
    rewrite Nat2N.inj_succ, N.pow_succ_r' in Hx.
    apply N.Div0.div_lt_upper_bound. lia.
Qed.

Lemma pretty_N_length d x :
  0 < d -> (x < 10 ^ N.of_nat d)%N -> String.length (pretty x) <= d.
Proof.
  intros Hd Hx. unfold pretty, pretty_N. case_decide; [cbn; lia|].
  rewrite (pretty_N_go_length d) by done. cbn. lia.
Qed.

Lemma pretty_page_length z :
  (-1 <= z <= 99999999)%Z -> String.length (pretty z) <= 8.
Proof.
  intros Hz. destruct z as [|p|p]; cbn; [lia| |].
  - apply (pretty_N_length 8); [lia|]. change (10 ^ N.of_nat 8)%N with 100000000%N. lia.
  - replace p with 1%positive by lia. vm_compute. lia.
Qed.

(** The text of one line of frames. *)
Definition frame_text (pf : list Z) : string :=
  foldl (fun tmp x => tmp +:+ (pretty x +:+ tab)) "" pf.

Lemma frame_text_snoc pf x : frame_text (pf ++ [x]) = frame_text pf +:+ (pretty x +:+ tab).
Proof. unfold frame_text. by rewrite foldl_app. Qed.

Lemma frame_text_length pf :
  Forall (fun z => -1 <= z <= 99999999)%Z pf ->
  String.length (frame_text pf) <= 9 * length pf.
Proof.
  induction pf as [|x pf IH] using rev_ind; intros H; [done|].
  apply Forall_app in H as [H1 H2]. rewrite Forall_singleton in H2.
  rewrite frame_text_snoc, !string_length_app, length_app.
  apply pretty_page_length in H2. specialize (IH H1). cbn [length tab String.length]. lia.
Qed.

Lemma print_page_frame_ok g pf hit o :
  length pf = pf_num g -> pf_num g <= 10 -> String.length hit <= 6 ->
  Forall (fun z => -1 <= z <= 99999999)%Z pf ->
  print_page_frame g pf hit o = Ret (emit g (frame_text pf +:+ (hit +:+ newline)) o).
Proof.
  intros Hlen Hk Hhit Hpf. unfold print_page_frame.
  pose proof (for_invariant (fun i tmp => tmp = frame_text (take i pf))
    (fun i tmp => x ← rd pf i; sprintf100 (tmp +:+ (pretty x +:+ tab)))
    0 (pf_num g) "") as Hfor.
  apply returns_Ret in Hfor as (tmp & -> & ->).
  - cbn [mbind outcome_bind]. rewrite Nat.add_0_l, <- Hlen, firstn_all.
    unfold sprintf100. rewrite decide_True; [done|].
    rewrite !string_length_app. pose proof (frame_text_length pf Hpf).
    cbn [String.length newline]. lia.
  - done.
  - intros i tmp Hi ->. destruct (rd_lt pf i) as (x & Hx & ->); [lia|]. cbn [mbind outcome_bind].
    rewrite <- frame_text_snoc, <- take_S_r by done.
    unfold sprintf100. rewrite decide_True; [done|].
    pose proof (frame_text_length (take (S i) pf) (Forall_take _ _ _ Hpf)) as H1.
    rewrite length_take in H1. lia.
Qed.

Lemma print_page_fault_ok g n o :
  (Z.of_nat n <= MAX)%Z -> (Z.of_nat (ref_num g) <= MAX)%Z ->
  exists o', print_page_fault g n o = Ret o'.
Proof.
  unfold MAX. intros Hn Hr. unfold print_page_fault, sprintf100. eexists.
  rewrite decide_True; [done|].
  rewrite !string_length_app.
  pose proof (pretty_N_length 5 (N.of_nat n)) as H1.
  pose proof (pretty_N_length 5 (N.of_nat (ref_num g))) as H2.
  change (10 ^ N.of_nat 5)%N with 100000%N in *.
  unfold pretty, pretty_nat.
  specialize (H1 ltac:(lia) ltac:(lia)). specialize (H2 ltac:(lia) ltac:(lia)).
  cbn [String.length newline]. lia.
Qed.

(** ** Runs *)

Lemma dsteps_snoc k w r S n S' c S'' :
  dsteps k w S n S' -> dstep k r S' c S'' -> dsteps k (w ++ [r]) S (c + n) S''.
Proof.
  induction 1 as [S|r0 w S c0 S1 n S2 Hs _ IH]; intros H; cbn.
  - apply dsteps_cons with S''; [done|constructor].
  - replace (c + (c0 + n)) with (c0 + (c + n)) by lia.
    apply dsteps_cons with S1; auto.
Qed.

(** A run faults at most once per reference. *)
Lemma dsteps_le k w S n S' : dsteps k w S n S' -> n <= length w.
Proof.
  induction 1 as [|r w S c S1 n S2 Hs _ IH]; cbn; [lia|].
  assert (c <= 1) by (destruct Hs; lia). lia.
Qed.

(** Every page referenced but not resident at the start is fetched. *)
Lemma dsteps_covers k w S n S' :
  dsteps k w S n S' -> size (list_to_set w ∖ S) <= n.
Proof.
  induction 1 as [S|r w S c S1 n S2 Hs _ IH].
  - replace (list_to_set [] ∖ S) with (∅ : gset Z) by set_solver. by rewrite size_empty.
  - destruct Hs as [S Hr|S Hr _|S v Hr _ Hv]; cbn.
    + etrans; [|exact IH]. apply subseteq_size. set_solver.
    + transitivity (size ({[r]} ∪ (list_to_set w ∖ ({[r]} ∪ S)) : gset Z)).
      * apply subseteq_size. intros x Hx. destruct (decide (x = r)); set_solver.
      * rewrite size_union_alt, size_singleton.
        assert (size (list_to_set w ∖ ({[r]} ∪ S) ∖ {[r]} : gset Z)
                <= size (list_to_set w ∖ ({[r]} ∪ S) : gset Z)) by (apply subseteq_size; set_solver).
        lia.
    + transitivity (size ({[r]} ∪ (list_to_set w ∖ ({[r]} ∪ S ∖ {[v]})) : gset Z)).
      * apply subseteq_size. intros x Hx. destruct (decide (x = r)); set_solver.
      * rewrite size_union_alt, size_singleton.
        assert (size (list_to_set w ∖ ({[r]} ∪ S ∖ {[v]}) ∖ {[r]} : gset Z)
                <= size (list_to_set w ∖ ({[r]} ∪ S ∖ {[v]}) : gset Z))
          by (apply subseteq_size; set_solver).
        lia.
Qed.

(** ** The hit test *)

Lemma check_hit_loop_spec key pf i n :
  i + n <= length pf ->
  (exists h, i <= h < i + n /\ pf !! h = Some key /\ check_hit_loop key pf i n = Ret (Z.of_nat h)) \/
  ((forall h, i <= h < i + n -> pf !! h <> Some key) /\ check_hit_loop key pf i n = Ret (-1)%Z).
Proof.
  revert i. induction n as [|n IH]; intros i Hlen; cbn.
  - right. split; [lia|done].
  - destruct (rd_lt pf i) as (x & Hx & ->); [lia|]. cbn.
    case_decide as Hk; [left; exists i; subst; split_and!; auto; lia|].
    destruct (IH (S i)) as [(h & Hh & Hp & ->)|[Hno ->]]; [lia| |].
    + left. exists h. split_and!; auto; lia.
    + right. split; [|done]. intros h Hh Hc.
      destruct (decide (h = i)) as [->|]; [congruence|]. apply (Hno h); [lia|done].
Qed.

Lemma resident_lookup f h p :
  resident f !! h = Some p <-> h < occupied f /\ page_frame f !! h = Some p.
Proof. unfold resident. rewrite lookup_take_Some. naive_solver. Qed.

Lemma elem_of_resident f p :
  p ∈ resident f <-> exists h, h < occupied f /\ page_frame f !! h = Some p.
Proof.
  rewrite list_elem_of_lookup. setoid_rewrite resident_lookup. done.
Qed.

Lemma insert_set (l : list Z) v p r :
  NoDup l -> l !! v = Some p -> r ∉ l ->
  list_to_set (<[v:=r]> l) = {[r]} ∪ (list_to_set l ∖ {[p]}) :> gset Z.
Proof.
  intros Hnd Hp Hr. pose proof (lookup_lt_Some _ _ _ Hp).
  rewrite insert_take_drop by done.
  rewrite <- (take_drop_middle l v p Hp) in Hnd. rewrite <- (take_drop_middle l v p Hp) at 3.
  apply NoDup_app in Hnd as (H1 & H2 & H3). apply NoDup_cons in H3 as [H3 H4].
  rewrite !list_to_set_app_L, !list_to_set_cons.
  assert (p ∉ take v l) by (intros ?; apply (H2 p); set_solver).
  apply set_eq. intros x. destruct (decide (x = p)) as [->|].
  - assert (p <> r) by (intros ->; apply Hr, list_elem_of_lookup; eauto). set_solver.
  - set_solver.
Qed.

Lemma NoDup_insert (l : list Z) v r : NoDup l -> r ∉ l -> NoDup (<[v:=r]> l).
Proof.
  intros Hnd Hr. apply NoDup_alt. intros i j x Hi Hj.
  apply list_lookup_insert_Some in Hi, Hj.
  destruct Hi as [(<- & <- & ?)|[? Hi]], Hj as [(? & ? & ?)|[? Hj]]; subst; auto.
  - exfalso. apply Hr, list_elem_of_lookup. eauto.
  - exfalso. apply Hr, list_elem_of_lookup. eauto.
  - eapply NoDup_lookup; eauto.
Qed.

Section Ok.
Context (g : glob) (Hg : wf_glob g).

Lemma free_lookup i f h :
  frames_ok g i f -> occupied f <= h < pf_num g -> page_frame f !! h = Some (-1)%Z.
Proof.
  intros Hf Hh.
  assert (H : drop (occupied f) (page_frame f) !! (h - occupied f) = Some (-1)%Z).
  { rewrite (fo_free _ _ _ Hf). apply lookup_replicate_2. lia. }
  rewrite lookup_drop in H. rewrite <- H. f_equal. lia.
Qed.

Lemma check_hit_spec i f key :
  frames_ok g i f -> (0 <= key)%Z ->
  (exists h, h < occupied f /\ page_frame f !! h = Some key /\ key ∈ resident f /\
     check_hit g key (page_frame f) (occupied f) = Ret (Z.of_nat h)) \/
  (key ∉ resident f /\ check_hit g key (page_frame f) (occupied f) = Ret (-1)%Z).
Proof.
  intros Hf Hkey. pose proof (fo_len _ _ _ Hf) as Hlen. pose proof (fo_occ _ _ _ Hf) as Hocc.
  unfold check_hit. set (n := if decide _ then _ else _).
  assert (Hn : n <= pf_num g /\ occupied f <= n) by (subst n; case_decide; lia).
  destruct (check_hit_loop_spec key (page_frame f) 0 n) as [(h & Hh & Hp & ->)|[Hno ->]]; [lia| |].
  - left. exists h. assert (h < occupied f).
    { destruct (decide (h < occupied f)); [done|].
      rewrite (free_lookup i f h Hf) in Hp by lia. simplify_eq. lia. }
    split_and!; [done|done| |done]. apply elem_of_resident. eauto.
  - right. split; [|done]. rewrite elem_of_resident. intros (h & Hh & Hp).
    apply (Hno h); [lia|done].
Qed.

Lemma refs_lookup i : i < ref_num g -> exists r,
  references g !! i = Some r /\ rd (references g) i = Ret r /\
  refs g !! i = Some (data r) /\ (0 <= data r <= 99999999)%Z.
Proof.
  intros Hi. destruct (rd_lt (references g) i) as (r & Hr & Hrd).
  { pose proof (wf_ref _ Hg). lia. }
  pose proof (wf_data _ Hg) as Hd. rewrite Forall_lookup in Hd. specialize (Hd _ _ Hr).
  exists r. split_and!; [done|done| |lia|lia].
  unfold refs. rewrite list_lookup_fmap, lookup_take_lt, Hr by done. done.
Qed.

Lemma length_refs : length (refs g) = ref_num g.
Proof. unfold refs. rewrite length_fmap, length_take. pose proof (wf_ref _ Hg). lia. Qed.

Lemma refs_printable p : p ∈ refs g -> (0 <= p <= 99999999)%Z.
Proof.
  unfold refs. rewrite list_elem_of_fmap. intros (r & -> & Hr).
  pose proof (wf_data _ Hg) as Hd. rewrite Forall_forall in Hd. apply Hd.
  rewrite <- (take_drop (ref_num g) (references g)). set_solver.
Qed.

Lemma frames_printable i f :
  frames_ok g i f -> Forall (fun z => -1 <= z <= 99999999)%Z (page_frame f).
Proof.
  intros Hf. rewrite <- (take_drop (occupied f)), Forall_app. split.
  - apply Forall_forall. intros p Hp.
    apply (fo_sub _ _ _ Hf) in Hp.
    assert (p ∈ refs g) as Hr by (rewrite <- (take_drop i (refs g)); set_solver).
    apply refs_printable in Hr. lia.
  - rewrite (fo_free _ _ _ Hf). apply Forall_replicate. lia.
Qed.

Lemma print_frames_ok i f hit o :
  frames_ok g i f -> String.length hit <= 6 ->
  exists o', print_page_frame g (page_frame f) hit o = Ret o'.
Proof.
  intros Hf Hh. eexists. apply print_page_frame_ok; [apply (fo_len _ _ _ Hf)| |done|].
  - pose proof (wf_pf _ Hg). lia.
  - by eapply frames_printable.
Qed.

(** ** The three kinds of steps preserve [frames_ok] *)

Lemma frames_ok_init o : frames_ok g 0 (mkFrames (replicate (pf_num g) (-1)%Z) 0 0 o).
Proof.
  constructor; cbn; rewrite ?length_replicate; auto with lia.
  - by rewrite drop_0, Nat.sub_0_r.
  - constructor.
  - constructor.
Qed.

Lemma frames_ok_hit i f r o :
  frames_ok g i f -> refs g !! i = Some r -> r ∈ resident f ->
  frames_ok g (S i) (mkFrames (page_frame f) (page_fault f) (occupied f) o).
Proof.
  intros [Hlen Hocc Hfree Hnd Hsub Hrun] Hr Hin. constructor; cbn; auto.
  - unfold resident in *. cbn in *. intros p Hp. rewrite (take_S_r _ _ r) by done. set_solver.
  - rewrite (take_S_r _ _ r) by done. change (page_fault f) with (0 + page_fault f).
    eapply dsteps_snoc; [exact Hrun|]. apply dstep_hit. by apply elem_of_list_to_set.
Qed.

Lemma size_resident i f : frames_ok g i f -> size (list_to_set (resident f) : gset Z) = occupied f.
Proof.
  intros [Hlen Hocc Hfree Hnd Hsub Hrun]. rewrite size_list_to_set by done.
  unfold resident. rewrite length_take. lia.
Qed.

Lemma frames_ok_cold i f r o :
  frames_ok g i f -> refs g !! i = Some r -> r ∉ resident f -> occupied f < pf_num g ->
  frames_ok g (S i) (mkFrames (<[occupied f:=r]> (page_frame f)) (S (page_fault f)) (S (occupied f)) o).
Proof.
  intros Hf Hr Hin Hlt. pose proof (size_resident _ _ Hf) as Hsz.
  destruct Hf as [Hlen Hocc Hfree Hnd Hsub Hrun].
  assert (Hres : take (S (occupied f)) (<[occupied f:=r]> (page_frame f)) = resident f ++ [r]).
  { erewrite take_S_r by (apply list_lookup_insert_eq; lia). by rewrite take_insert_ge by lia. }
  constructor; cbn; unfold resident in *; cbn; rewrite ?Hres.
  - by rewrite length_insert.
  - lia.
  - rewrite drop_insert_lt by lia. rewrite <- Nat.add_1_r, <- drop_drop, Hfree.
    rewrite drop_replicate. f_equal. lia.
  - apply NoDup_app. split_and!; [done|set_solver|apply NoDup_singleton].
  - intros p Hp. rewrite (take_S_r _ _ r) by done. set_solver.
  - rewrite (take_S_r _ _ r), list_to_set_app_L by done. cbn.
    replace (list_to_set (take (occupied f) (page_frame f)) ∪ ({[r]} ∪ ∅) : gset Z)
      with ({[r]} ∪ list_to_set (take (occupied f) (page_frame f)) : gset Z) by set_solver.
    change (S (page_fault f)) with (1 + page_fault f).
    eapply dsteps_snoc; [exact Hrun|]. apply dstep_cold; [by rewrite elem_of_list_to_set|lia].
Qed.

Lemma frames_ok_evict i f r v o :
  frames_ok g i f -> refs g !! i = Some r -> r ∉ resident f -> pf_num g <= occupied f ->
  v < pf_num g ->
  frames_ok g (S i) (mkFrames (<[v:=r]> (page_frame f)) (S (page_fault f)) (occupied f) o).
Proof.
  intros Hf Hr Hin Hge Hv. pose proof (size_resident _ _ Hf) as Hsz.
  destruct Hf as [Hlen Hocc Hfree Hnd Hsub Hrun].
  assert (Hres : resident f = page_frame f) by (apply take_ge; lia).
  assert (Hres' : take (occupied f) (<[v:=r]> (page_frame f)) = <[v:=r]> (page_frame f)).
  { apply take_ge. rewrite length_insert. lia. }
  rewrite Hres in *.
  destruct (lookup_lt_is_Some_2 (page_frame f) v) as [p Hp]; [lia|].
  constructor; cbn; unfold resident in *; cbn; rewrite ?Hres'.
  - by rewrite length_insert.
  - lia.
  - rewrite drop_ge by (rewrite length_insert; lia).
    by replace (pf_num g - occupied f) with 0 by lia.
  - by apply NoDup_insert.
  - intros q Hq. rewrite (take_S_r _ _ r) by done.
    apply list_elem_of_lookup in Hq as [j Hj].
    apply list_lookup_insert_Some in Hj as [(-> & -> & _)|[_ Hj]]; [set_solver|].
    apply elem_of_app. left. apply Hsub, list_elem_of_lookup. eauto.
  - rewrite (take_S_r _ _ r), (insert_set _ v p r) by done.
    change (S (page_fault f)) with (1 + page_fault f).
    eapply dsteps_snoc; [exact Hrun|]. apply dstep_evict.
    + by rewrite elem_of_list_to_set.
    + lia.
    + apply elem_of_list_to_set, list_elem_of_lookup. eauto.
Qed.
End Ok.
End Spec.
