(* ===== verification/PageSkel.v ===== *)
(** * The common shape of the page replacement algorithms

    Every algorithm of [PageAlgos] runs the same loop and differs in the state
    it keeps beside the frames and in what it does with it on a hit, to choose
    a victim and after a load.  [policy] is that interface and [paging_body]
    the loop body over it; each algorithm is an instance ([*_skel] lemmas), so
    that safety, termination and the demand-paging contract are proved once
    ([paging_loop]). *)
From S2P Require Export PageSpec.

Module Skel.
Import Page Algos Spec.

Record policy (X : Type) := mkPolicy {
  p_tick : X -> X;
  p_hit : nat -> X -> outcome X;
  p_victim : nat -> frames -> X -> outcome (nat * X);
  p_load : psr -> nat -> X -> outcome X
}.
Arguments mkPolicy {X}.
Arguments p_tick {X}.
Arguments p_hit {X}.
Arguments p_victim {X}.
Arguments p_load {X}.

Section Body.
Context (g : glob) {X : Type} (P : policy X).

Definition paging_body (i : nat) (s : X * frames) : outcome (X * frames) :=
  let x := p_tick P (fst s) in
  let f := snd s in
  r ← rd (references g) i;
  h ← check_hit g (data r) (page_frame f) (occupied f);
  if decide (0 <= h)%Z then
    o ← print_page_frame g (page_frame f) "(hit!)" (out f);
    x ← p_hit P (Z.to_nat h) x;
    Ret (x, mkFrames (page_frame f) (page_fault f) (occupied f) o)
  else
    '(pf, x, occ) ←
      (if decide (pf_num g <= occupied f) then
         '(v, x) ← p_victim P i f x;
         pf ← wr (page_frame f) v (data r);
         x ← p_load P r v x;
         Ret (pf, x, occupied f)
       else
         pf ← wr (page_frame f) (occupied f) (data r);
         x ← p_load P r (occupied f) x;
         Ret (pf, x, S (occupied f)));
    o ← print_page_frame g pf "" (out f);
    Ret (x, mkFrames pf (S (page_fault f)) occ o).

(** What a policy owes to the loop: an invariant of its state, relative to the
    frames and to the number of references processed, that every step keeps. *)
Class PolicyOk (J : nat -> list Z -> nat -> nat -> X -> Prop) : Prop := {
  ok_hit i f x r h :
    frames_ok g i f -> J i (page_frame f) (page_fault f) (occupied f) x ->
    refs g !! i = Some r -> h < occupied f -> page_frame f !! h = Some r ->
    returns (p_hit P h (p_tick P x)) (J (S i) (page_frame f) (page_fault f) (occupied f));
  ok_cold i f x r :
    frames_ok g i f -> J i (page_frame f) (page_fault f) (occupied f) x ->
    references g !! i = Some r -> refs g !! i = Some (data r) ->
    data r ∉ resident f -> occupied f < pf_num g ->
    returns (p_load P r (occupied f) (p_tick P x))
      (J (S i) (<[occupied f:=data r]> (page_frame f)) (S (page_fault f)) (S (occupied f)));
  ok_evict i f x r :
    frames_ok g i f -> J i (page_frame f) (page_fault f) (occupied f) x ->
    references g !! i = Some r -> refs g !! i = Some (data r) ->
    data r ∉ page_frame f -> occupied f = pf_num g ->
    returns (p_victim P i f (p_tick P x)) (fun '(v, x) =>
      v < pf_num g /\
      returns (p_load P r v x)
        (J (S i) (<[v:=data r]> (page_frame f)) (S (page_fault f)) (occupied f)))
}.

Definition loop_inv (J : nat -> list Z -> nat -> nat -> X -> Prop) (i : nat) (s : X * frames) : Prop :=
  frames_ok g i (snd s) /\
  J i (page_frame (snd s)) (page_fault (snd s)) (occupied (snd s)) (fst s).

Context (Hg : wf_glob g) (J : nat -> list Z -> nat -> nat -> X -> Prop) `{!PolicyOk J}.

Lemma paging_body_ok i s :
  i < ref_num g -> loop_inv J i s -> returns (paging_body i s) (loop_inv J (S i)).
Proof.
  destruct s as [x f]. intros Hi [Hf HJ]. cbn in Hf, HJ. unfold paging_body. cbn [fst snd].
  destruct (refs_lookup g Hg i Hi) as (r & Hr & -> & Hrf & Hpos). cbn [mbind outcome_bind].
  destruct (check_hit_spec g i f (data r) Hf) as [(h & Hh & Hp & Hin & ->)|[Hin ->]]; [lia| |];
    cbn [mbind outcome_bind].
  - rewrite decide_True by lia.
    destruct (print_frames_ok g Hg i f "(hit!)" (out f) Hf) as [o ->]; [cbn; lia|].
    cbn [mbind outcome_bind]. rewrite Nat2Z.id. apply returns_bind.
    eapply returns_mono; [|by eapply ok_hit]. intros x' Hx'. split; [|done].
    cbn. eapply frames_ok_hit; eauto.
  - rewrite decide_False by lia.
    case_decide as Hfull.
    + assert (occupied f = pf_num g) as Hocc by (pose proof (fo_occ _ _ _ Hf); lia).
      assert (Hres : resident f = page_frame f).
      { apply take_ge. rewrite (fo_len _ _ _ Hf). lia. }
      rewrite Hres in Hin.
      pose proof (ok_evict i f x r Hf HJ Hr Hrf Hin Hocc) as Hv.
      apply returns_Ret in Hv as ([v x1] & -> & Hv & Hl). cbn [mbind outcome_bind].
      rewrite wr_lt by (rewrite (fo_len _ _ _ Hf); done). cbn [mbind outcome_bind].
      apply returns_Ret in Hl as (x2 & -> & Hl). cbn [mbind outcome_bind].
      rewrite <- Hres in Hin.
      pose proof (frames_ok_evict g Hg i f (data r) v (out f) Hf Hrf Hin Hfull Hv) as Hf'.
      destruct (print_frames_ok g Hg _ _ "" (out f) Hf') as [o Ho]; [cbn; lia|].
      cbn [page_frame] in Ho. rewrite Ho. cbn [mbind outcome_bind].
      split; [|done]. cbn. by eapply frames_ok_evict.
    + assert (Hlt : occupied f < pf_num g) by lia.
      rewrite wr_lt by (rewrite (fo_len _ _ _ Hf); done). cbn [mbind outcome_bind].
      pose proof (ok_cold i f x r Hf HJ Hr Hrf Hin Hlt) as Hl.
      apply returns_Ret in Hl as (x2 & -> & Hl). cbn [mbind outcome_bind].
      pose proof (frames_ok_cold g Hg i f (data r) (out f) Hf Hrf Hin Hlt) as Hf'.
      destruct (print_frames_ok g Hg _ _ "" (out f) Hf') as [o Ho]; [cbn; lia|].
      cbn [page_frame] in Ho. rewrite Ho. cbn [mbind outcome_bind].
      split; [|done]. cbn. by eapply frames_ok_cold.
Qed.

Lemma paging_loop x o :
  J 0 (replicate (pf_num g) (-1)%Z) 0 0 x ->
  returns (for_ 0 (ref_num g) paging_body (x, mkFrames (replicate (pf_num g) (-1)%Z) 0 0 o))
    (loop_inv J (ref_num g)).
Proof.
  intros HJ.
  apply (for_invariant (loop_inv J)).
  - split; [apply frames_ok_init|done].
  - intros i s Hi. apply paging_body_ok. lia.
Qed.
End Body.

(** Two loops whose bodies correspond through [φ]. *)
Lemma for_map {S1 S2} (φ : S1 -> S2) (b1 : nat -> S1 -> outcome S1) (b2 : nat -> S2 -> outcome S2) :
  (forall i s, b2 i (φ s) = φ <$> b1 i s) ->
  forall start n s, for_ start n b2 (φ s) = φ <$> for_ start n b1 s.
Proof.
  intros H start n. revert start. induction n as [|n IH]; intros start s; cbn; [done|].
  rewrite H. destruct (b1 start s); cbn; [apply IH|done..].
Qed.

(** ** The algorithms as policies *)
Section Instances.
Context (g : glob).

(** An algorithm that keeps no state of its own. *)
Definition plain (victim : nat -> frames -> outcome nat) : policy unit :=
  mkPolicy (fun x => x) (fun _ x => Ret x)
    (fun i f x => v ← victim i f; Ret (v, x)) (fun _ _ x => Ret x).

Definition fifo_policy := plain (fun _ f => Ret (page_fault f mod pf_num g)).
Definition lifo_policy := plain (fun _ f => Ret (occupied f - 1)).
Definition optimal_policy :=
  plain (fun i f => Z.to_nat <$> find_farthest_aft_idx g (i + 1) (page_frame f)).
Definition lru_policy :=
  plain (fun i f => find_farthest_idx g (Z.of_nat i - 1) (page_frame f)).

Definition lru2_policy : policy (list nat * nat) :=
  mkPolicy (fun '(c, n) => (c, S n))
    (fun h '(c, n) => c ← wr c h n; Ret (c, n))
    (fun _ _ '(c, n) => m ← min_counter g c; Ret (m, (c, n)))
    (fun _ v '(c, n) => c ← wr c v n; Ret (c, n)).

Definition lfu_policy : policy (list nat) :=
  mkPolicy (fun c => c) (fun h c => incr c h)
    (fun _ _ c => m ← min_counter g c; Ret (m, c)) (fun _ v c => incr c v).

Definition sc_policy : policy (nat * list Z) :=
  mkPolicy (fun x => x)
    (fun h '(head, rbit) => rbit ← wr rbit h 1%Z; Ret ((head + 1) mod pf_num g, rbit))
    (fun _ _ '(head, rbit) => '(head, rbit) ← sc_scan g (S (pf_num g)) head rbit; Ret (head, (head, rbit)))
    (fun _ v '(head, rbit) => rbit ← wr rbit v 1%Z; Ret (head, rbit)).

Definition esc_policy : policy (list nat * nat * list Z * list Z) :=
  mkPolicy (fun '(c, n, rb, wb) => (c, S n, rb, wb))
    (fun h '(c, n, rb, wb) => wb ← wr wb h 1%Z; c ← wr c h n; Ret (c, n, rb, wb))
    (fun _ _ '(c, n, rb, wb) =>
       m ← min_counter g c; v ← get_high_priority_idx g m rb wb; Ret (v, (c, n, rb, wb)))
    (fun r v '(c, n, rb, wb) =>
       '(rb, wb) ← esc_set_bits (rw r) v rb wb; c ← wr c v n; Ret (c, n, rb, wb)).

(** Case analysis on every outcome and test of both sides of an equation. *)
Ltac skel_solve :=
  repeat
    match goal with
    | |- context [match ?m with Ret _ => _ | Panic _ => _ | Undef _ => _ | Hang _ => _ end] =>
        lazymatch m with
        | context [match _ with _ => _ end] => fail
        | _ => destruct m; cbn; [|reflexivity..]
        end
    | |- context [if ?d then _ else _] => destruct d; cbn
    | |- context [let '(_, _) := ?p in _] => destruct p; cbn
    end; try reflexivity.

Ltac unfold_binds := cbn; unfold mbind, outcome_bind, fmap, outcome_fmap; cbn.

Lemma fifo_skel i f : paging_body g fifo_policy i (tt, f) = pair tt <$> fifo_body g i f.
Proof.
  unfold paging_body, fifo_body, fifo_policy, plain. rewrite Nat.sub_succ, Nat.sub_0_r.
  unfold_binds. skel_solve.
Qed.

Lemma lifo_skel i f : paging_body g lifo_policy i (tt, f) = pair tt <$> lifo_body g i f.
Proof. unfold paging_body, lifo_body, lifo_policy, plain. unfold_binds. skel_solve. Qed.

Lemma optimal_skel i f : paging_body g optimal_policy i (tt, f) = pair tt <$> optimal_body g i f.
Proof. unfold paging_body, optimal_body, optimal_policy, plain. unfold_binds. skel_solve. Qed.

Lemma lru_skel i f : paging_body g lru_policy i (tt, f) = pair tt <$> lru_body g i f.
Proof. unfold paging_body, lru_body, lru_policy, plain. unfold_binds. skel_solve. Qed.

Definition lru2_state (s : lru2_st) : list nat * nat * frames := (l2_counter s, l2_cnt s, l2_f s).
Definition lfu_state (s : lfu_st) : list nat * frames := (lf_counter s, lf_f s).
Definition sc_state (s : sc_st) : nat * list Z * frames := (sc_head s, sc_rbit s, sc_f s).
Definition esc_state (s : esc_st) : list nat * nat * list Z * list Z * frames :=
  (e_counter s, e_cnt s, e_rbit s, e_wbit s, e_f s).

Lemma lru2_skel i s : paging_body g lru2_policy i (lru2_state s) = lru2_state <$> lru2_body g i s.
Proof. unfold paging_body, lru2_body, lru2_policy, lru2_state. unfold_binds. skel_solve. Qed.

Lemma lfu_skel i s : paging_body g lfu_policy i (lfu_state s) = lfu_state <$> lfu_body g i s.
Proof. unfold paging_body, lfu_body, lfu_policy, lfu_state. unfold_binds. skel_solve. Qed.

Lemma sc_skel i s : paging_body g sc_policy i (sc_state s) = sc_state <$> sc_body g i s.
Proof. unfold paging_body, sc_body, sc_policy, sc_state. unfold_binds. skel_solve. Qed.

Lemma esc_skel i s : paging_body g esc_policy i (esc_state s) = esc_state <$> esc_body g i s.
Proof. unfold paging_body, esc_body, esc_policy, esc_state. unfold_binds. skel_solve. Qed.
End Instances.
End Skel.
