(* ===== verification/PageSafe.v ===== *)
(** * Every page replacement algorithm is safe and implements demand paging

    For each algorithm, the obligations of [PolicyOk]: the victim it selects
    exists, no array is accessed out of bounds, no uninitialised local is read
    and the scan of the second-chance algorithm terminates.  The strong
    invariants of FIFO and LIFO (refinement of a queue and of a stack) are
    here too; those of LRU are in [PageLru] and of OPTIMAL in [PageOptimal]. *)
From S2P Require Export PageSkel.

Module Safe.
Import Page Algos Spec Skel.

(** ** Reference queues *)

(** FIFO on the list of resident pages, oldest first. *)
Definition fifo_q (k : nat) (q : list Z) (r : Z) : list Z :=
  if decide (r ∈ q) then q
  else if decide (length q < k) then q ++ [r] else tail q ++ [r].

(** LIFO on the list of resident pages, newest last. *)
Definition lifo_q (k : nat) (q : list Z) (r : Z) : list Z :=
  if decide (r ∈ q) then q
  else if decide (length q < k) then q ++ [r] else removelast q ++ [r].

Lemma foldl_take_S {A B} (f : A -> B -> A) a l i x :
  l !! i = Some x -> foldl f a (take (S i) l) = f (foldl f a (take i l)) x.
Proof. intros H. by rewrite (take_S_r _ _ _ H), foldl_app. Qed.

Lemma NoDup_snoc (l : list Z) x : NoDup l -> x ∉ l -> NoDup (l ++ [x]).
Proof. intros. apply NoDup_app. split_and!; [done|set_solver|apply NoDup_singleton]. Qed.

(** ** Plain policies *)
Section Plain.
Context (g : glob) (Hg : wf_glob g).

(** The queue of FIFO, read off the frames: the element [j] of the queue is in
    frame [(page_fault - occupied + j) mod pf_num]. *)
Definition fifo_J (i : nat) (pf : list Z) (faults occ : nat) (_ : unit) : Prop :=
  let q := foldl (fifo_q (pf_num g)) [] (take i (refs g)) in
  length q = occ /\ NoDup q /\ occ <= faults /\ (occ < pf_num g -> faults = occ) /\
  (forall p, p ∈ q <-> p ∈ take occ pf) /\
  forall j, j < occ -> pf !! ((faults - occ + j) mod pf_num g) = q !! j.

Lemma fifo_ok : PolicyOk g (fifo_policy g) fifo_J.
Proof.
  assert (0 < pf_num g) as Hk by (pose proof (wf_pf _ Hg); lia).
  constructor; cbn.
  - intros i f x r h Hf (Hq & Hnd & Hle & Hcold & Hset & Hj) Hr Hh Hp.
    unfold fifo_J. rewrite (foldl_take_S _ _ _ _ _ Hr). unfold fifo_q.
    rewrite decide_True; [done|]. apply Hset, elem_of_resident. eauto.
  - intros i f x r Hf (Hq & Hnd & Hle & Hcold & Hset & Hj) _ Hr Hin Hlt.
    unfold fifo_J. rewrite (foldl_take_S _ _ _ _ _ Hr).
    set (q := foldl _ _ _) in *. unfold fifo_q.
    pose proof (fo_len _ _ _ Hf) as Hlen.
    rewrite decide_False by (by rewrite Hset). rewrite decide_True by lia.
    rewrite length_app. cbn. split_and!; [lia| |lia|lia| |].
    + by apply NoDup_snoc; [|rewrite Hset].
    + intros p. rewrite elem_of_app, Hset.
      erewrite take_S_r by (apply list_lookup_insert_eq; lia).
      rewrite take_insert_ge, elem_of_app by lia. done.
    + intros j Hjlt. rewrite Hcold, Nat.sub_diag, Nat.mod_small by lia. cbn.
      specialize (Hj j). rewrite Hcold, Nat.sub_diag, Nat.mod_small in Hj by lia. cbn in Hj.
      destruct (decide (j = occupied f)) as [->|].
      * rewrite list_lookup_insert_eq by lia. rewrite lookup_app_r, Hq, Nat.sub_diag by lia. done.
      * rewrite list_lookup_insert_ne by lia. rewrite lookup_app_l by lia. apply Hj. lia.
  - intros i f x r Hf (Hq & Hnd & Hle & Hcold & Hset & Hj) _ Hr Hin Hocc.
    pose proof (fo_len _ _ _ Hf) as Hlen.
    split; [apply Nat.mod_upper_bound; lia|].
    unfold fifo_J. rewrite (foldl_take_S _ _ _ _ _ Hr).
    assert (Hfull : take (occupied f) (page_frame f) = page_frame f) by (apply take_ge; lia).
    set (q := foldl _ _ _) in *. unfold fifo_q. rewrite Hfull in Hset.
    rewrite decide_False by (by rewrite Hset). rewrite decide_False by lia.
    set (n := page_fault f) in *. set (k := pf_num g) in *. set (pf := page_frame f) in *.
    assert (Hq0 : exists p q', q = p :: q').
    { destruct q as [|p q']; [cbn in Hq; lia|eauto]. }
    destruct Hq0 as (p0 & q' & Hqe). rewrite Hqe in *. cbn [tail length] in *.
    assert (Hlook : forall j, j < k ->
      <[n mod k:=data r]> pf !! ((S n - k + j) mod k) = (q' ++ [data r]) !! j).
    { intros j Hjk. destruct (decide (j = k - 1)) as [->|Hne].
      - replace (S n - k + (k - 1)) with n by lia.
        rewrite list_lookup_insert_eq by (rewrite Hlen; apply Nat.mod_upper_bound; lia).
        rewrite lookup_app_r by lia. by replace (k - 1 - length q') with 0 by lia.
      - rewrite list_lookup_insert_ne.
        + specialize (Hj (S j)). rewrite Hocc in Hj.
          replace (n - k + S j) with (S n - k + j) in Hj by lia.
          rewrite Hj by lia. rewrite lookup_app_l by lia. done.
        + intros Heq. pose proof (Nat.div_mod_eq n k). pose proof (Nat.div_mod_eq (S n - k + j) k).
          assert (n = S n - k + j + k * (n / k - (S n - k + j) / k)
                  \/ S n - k + j = n + k * ((S n - k + j) / k - n / k)) as [|]; nia. }
    assert (Hp0 : pf !! (n mod k) = Some p0).
    { pose proof (Hj 0 ltac:(lia)) as H0. cbn in H0. rewrite <- H0. f_equal.
      replace n with (n - occupied f + 0 + 1 * k) at 1 by lia. apply Nat.Div0.mod_add. }
    apply NoDup_cons in Hnd as [Hp0q Hnd].
    rewrite length_app. cbn. rewrite Hocc. split_and!; [lia| |lia|lia| |done].
    + apply NoDup_snoc; [done|]. intros ?. apply Hin, Hset. set_solver.
    + intros p. rewrite take_ge by (rewrite length_insert; lia).
      rewrite <- (elem_of_list_to_set (C := gset Z) p (<[_:=_]> _)), (insert_set _ _ p0) by
        (try done; rewrite <- Hfull; apply (fo_nodup _ _ _ Hf)).
      rewrite elem_of_app, elem_of_union, elem_of_difference, elem_of_list_to_set, <- Hset.
      set_solver.
Qed.

(** LIFO: the occupied frames are the stack. *)
Definition lifo_J (i : nat) (pf : list Z) (_ occ : nat) (_ : unit) : Prop :=
  take occ pf = foldl (lifo_q (pf_num g)) [] (take i (refs g)).

Lemma insert_last (l : list Z) x : l <> [] -> <[length l - 1:=x]> l = removelast l ++ [x].
Proof.
  intros Hl. destruct (exists_last Hl) as (l' & y & ->).
  rewrite removelast_last, length_app, Nat.add_sub.
  replace (length l') with (length l' + 0) by lia. by rewrite insert_app_r.
Qed.

Lemma lifo_ok : PolicyOk g lifo_policy lifo_J.
Proof.
  assert (0 < pf_num g) as Hk by (pose proof (wf_pf _ Hg); lia).
  constructor; cbn; unfold lifo_J.
  - intros i f x r h Hf HJ Hr Hh Hp. rewrite (foldl_take_S _ _ _ _ _ Hr), <- HJ.
    unfold lifo_q. rewrite decide_True; [done|]. apply elem_of_resident. eauto.
  - intros i f x r Hf HJ _ Hr Hin Hlt. rewrite (foldl_take_S _ _ _ _ _ Hr), <- HJ.
    pose proof (fo_len _ _ _ Hf) as Hlen. unfold lifo_q.
    rewrite decide_False by done. rewrite decide_True by (rewrite length_take; lia).
    erewrite take_S_r by (apply list_lookup_insert_eq; lia). by rewrite take_insert_ge by lia.
  - intros i f x r Hf HJ _ Hr Hin Hocc. rewrite (foldl_take_S _ _ _ _ _ Hr), <- HJ.
    pose proof (fo_len _ _ _ Hf) as Hlen. split; [lia|].
    rewrite !take_ge by (rewrite ?length_insert; lia). unfold lifo_q.
    rewrite decide_False by done. rewrite decide_False by lia.
    rewrite <- insert_last by (intros Hc; rewrite Hc in Hlen; cbn in Hlen; lia).
    f_equal. lia.
Qed.
End Plain.

(** ** LFU *)
Section Lfu.
Context (g : glob) (Hg : wf_glob g).

(** The counters of the frames add up to the number of references served, and
    exactly the occupied frames have a positive counter. *)
Definition lfu_J (i : nat) (_ : list Z) (_ occ : nat) (c : list nat) : Prop :=
  length c = pf_num g /\ sum_list c = i /\ forall j x, c !! j = Some x -> 0 < x <-> j < occ.

Lemma min_counter_spec c :
  length c = pf_num g -> 0 < pf_num g ->
  returns (min_counter g c) (argmin_of (pf_num g) (fun j => default 0 (c !! j)) 0).
Proof.
  intros Hlen Hk. apply argmin_loop; [done|]. intros j m Hj Hm.
  destruct (rd_lt c j) as (x & Hx & ->); [lia|]. destruct (rd_lt c m) as (y & Hy & ->); [lia|].
  cbn. by rewrite Hx, Hy.
Qed.

Lemma sum_list_insert (c : list nat) j x y :
  c !! j = Some x -> sum_list (<[j:=y]> c) + x = sum_list c + y.
Proof.
  revert j. induction c as [|z c IH]; intros [|j] H; cbn in *; try done.
  - simplify_eq. lia.
  - specialize (IH _ H). change (sum_list (<[j:=y]> c)) with (sum_list_with id (<[j:=y]> c)) in *.
    unfold sum_list in *. lia.
Qed.

Lemma incr_spec c j :
  j < length c -> exists x, c !! j = Some x /\ incr c j = Ret (<[j:=S x]> c).
Proof.
  intros Hj. unfold incr. destruct (rd_lt c j) as (x & Hx & ->); [done|].
  exists x. split; [done|]. cbn. by rewrite wr_lt.
Qed.

Lemma lfu_J_incr i pf n occ occ' c j :
  lfu_J i pf n occ c -> j < pf_num g -> occ <= occ' ->
  (forall h, h < occ' <-> h < occ \/ h = j) ->
  returns (incr c j) (fun c' => forall pf' n', lfu_J (S i) pf' n' occ' c').
Proof.
  intros (Hlen & Hsum & Hpos) Hj Hle Hocc.
  destruct (incr_spec c j) as (x & Hx & ->); [lia|]. cbn. intros pf' n'. split_and!.
  - by rewrite length_insert.
  - pose proof (sum_list_insert c j x (S x) Hx). lia.
  - intros h y Hy. apply list_lookup_insert_Some in Hy as [(<- & <- & _)|[Hne Hy]].
    + rewrite Hocc. lia.
    + rewrite Hocc, (Hpos h y Hy). naive_solver.
Qed.

Lemma lfu_ok : PolicyOk g (lfu_policy g) lfu_J.
Proof.
  assert (0 < pf_num g) as Hk by (pose proof (wf_pf _ Hg); lia).
  constructor; cbn.
  - intros i f c r h Hf HJ Hr Hh Hp. pose proof (fo_occ _ _ _ Hf).
    eapply returns_mono; [|eapply (lfu_J_incr _ _ _ _ (occupied f)); eauto; lia]. eauto.
  - intros i f c r Hf HJ _ Hr Hin Hlt.
    eapply returns_mono; [|eapply (lfu_J_incr _ _ _ _ (S (occupied f))); eauto; lia]. eauto.
  - intros i f c r Hf HJ _ Hr Hin Hocc.
    pose proof (min_counter_spec c (proj1 HJ) Hk) as Hm.
    apply returns_Ret in Hm as (m & -> & Hm & _). cbn. split; [done|].
    eapply returns_mono; [|eapply (lfu_J_incr _ _ _ _ (occupied f)); eauto; lia]. eauto.
Qed.
End Lfu.

(** ** Second chance *)
Section Sc.
Context (g : glob).

(** The reference bits after the scan has passed [d] frames from [head]. *)
Fixpoint clear_bits (head d : nat) (rbit : list Z) : list Z :=
  match d with
  | O => rbit
  | S d => clear_bits ((head + 1) mod pf_num g) d (<[head:=0%Z]> rbit)
  end.

(** [d] is the number of frames the scan from [head] passes: the frames before
    have their bit set, and the next one has it clear, unless the scan went
    once around. *)
Definition scan_dist (head : nat) (rbit : list Z) (d : nat) : Prop :=
  d <= pf_num g /\
  (forall e, e < d -> exists b, rbit !! ((head + e) mod pf_num g) = Some b /\ b <> 0%Z) /\
  (d < pf_num g -> rbit !! ((head + d) mod pf_num g) = Some 0%Z).

Lemma mod_add_ne k head e : head < k -> S e < k -> (head + S e) mod k <> head.
Proof.
  intros Hh He. destruct (decide (head + S e < k)).
  - rewrite Nat.mod_small by done. lia.
  - replace (head + S e) with (head + S e - k + 1 * k) by lia.
    rewrite Nat.Div0.mod_add, Nat.mod_small by lia. lia.
Qed.

Lemma mod_succ_add k head e : ((head + 1) mod k + e) mod k = (head + S e) mod k.
Proof. rewrite Nat.Div0.add_mod_idemp_l. f_equal. lia. Qed.

Lemma sc_scan_lt d : forall fuel head rbit,
  head < pf_num g -> length rbit = pf_num g -> d < fuel -> d < pf_num g ->
  scan_dist head rbit d ->
  sc_scan g fuel head rbit = Ret ((head + d) mod pf_num g, clear_bits head d rbit).
Proof.
  induction d as [|d IH]; intros [|fuel] head rbit Hh Hlen Hfuel Hd (_ & Hset & Hclr);
    try lia; cbn [sc_scan clear_bits].
  - specialize (Hclr Hd). rewrite Nat.add_0_r, Nat.mod_small in Hclr by done.
    rewrite (rd_lookup _ _ _ Hclr), Nat.add_0_r, (Nat.mod_small head) by done. done.
  - destruct (Hset 0) as (b & Hb & Hb0); [lia|]. rewrite Nat.add_0_r, Nat.mod_small in Hb by done.
    rewrite (rd_lookup _ _ _ Hb). cbn [mbind outcome_bind].
    rewrite decide_False, wr_lt by (done || lia). cbn [mbind outcome_bind].
    rewrite IH; rewrite ?length_insert; try lia.
    + by rewrite mod_succ_add.
    + apply Nat.mod_upper_bound. lia.
    + split_and!; [lia| |].
      * intros e He. rewrite mod_succ_add.
        rewrite list_lookup_insert_ne by (apply not_eq_sym, mod_add_ne; lia). apply Hset. lia.
      * intros _. rewrite mod_succ_add.
        rewrite list_lookup_insert_ne by (apply not_eq_sym, mod_add_ne; lia). by apply Hclr.
Qed.

(** The scan stops within [pf_num] steps, and where it should. *)
Lemma sc_scan_spec head rbit d :
  head < pf_num g -> length rbit = pf_num g -> scan_dist head rbit d ->
  sc_scan g (S (pf_num g)) head rbit = Ret ((head + d) mod pf_num g, clear_bits head d rbit).
Proof.
  intros Hh Hlen Hd. destruct (decide (d < pf_num g)); [apply sc_scan_lt; auto; lia|].
  pose proof Hd as (Hle & Hset & _). assert (d = S (pf_num g - 1)) as -> by lia.
  destruct (Hset 0) as (b & Hb & Hb0); [lia|]. rewrite Nat.add_0_r, Nat.mod_small in Hb by done.
  cbn [sc_scan clear_bits].
  rewrite (rd_lookup _ _ _ Hb). cbn [mbind outcome_bind].
  rewrite decide_False, wr_lt by (done || lia). cbn [mbind outcome_bind].
  rewrite (sc_scan_lt (pf_num g - 1)); rewrite ?length_insert; try lia.
  - by rewrite mod_succ_add.
  - apply Nat.mod_upper_bound. lia.
  - split_and!; [lia| |].
    + intros e He. rewrite mod_succ_add.
      rewrite list_lookup_insert_ne by (apply not_eq_sym, mod_add_ne; lia). apply Hset. lia.
    + intros _. rewrite mod_succ_add. replace (head + S (pf_num g - 1)) with (head + 1 * pf_num g) by lia.
      rewrite Nat.Div0.mod_add, Nat.mod_small by done. apply list_lookup_insert_eq. lia.
Qed.

Lemma scan_dist_exists head rbit :
  0 < pf_num g -> length rbit = pf_num g -> exists d, scan_dist head rbit d.
Proof.
  intros Hk Hlen.
  assert (forall n, n <= pf_num g ->
    (exists d, d < n /\ scan_dist head rbit d) \/
    (forall e, e < n -> exists b, rbit !! ((head + e) mod pf_num g) = Some b /\ b <> 0%Z)) as H.
  { induction n as [|n IH]; intros Hn; [right; lia|].
    destruct (IH ltac:(lia)) as [(d & Hd & Hs)|Hs]; [left; exists d; split; [lia|done]|].
    destruct (lookup_lt_is_Some_2 rbit ((head + n) mod pf_num g)) as [b Hb].
    { rewrite Hlen. apply Nat.mod_upper_bound. lia. }
    destruct (decide (b = 0)%Z) as [->|Hb0].
    - left. exists n. split; [lia|]. split_and!; [lia|done|done].
    - right. intros e He. destruct (decide (e = n)) as [->|]; [eauto|]. apply Hs. lia. }
  destruct (H (pf_num g) ltac:(lia)) as [(d & _ & Hs)|Hs]; [eauto|].
  exists (pf_num g). split_and!; [lia|done|lia].
Qed.

Lemma length_clear_bits d : forall head rbit, length (clear_bits head d rbit) = length rbit.
Proof. induction d; intros; cbn; [done|]. rewrite IHd. by rewrite length_insert. Qed.

Context (Hg : wf_glob g).

Definition sc_J (_ : nat) (_ : list Z) (_ _ : nat) (x : nat * list Z) : Prop :=
  fst x < pf_num g /\ length (snd x) = pf_num g.

Lemma sc_ok : PolicyOk g (sc_policy g) sc_J.
Proof.
  assert (0 < pf_num g) as Hk by (pose proof (wf_pf _ Hg); lia).
  constructor; cbn -[sc_scan].
  - intros i f [head rbit] r h Hf [Hh Hlen] Hr Ho Hp. cbn in *.
    rewrite wr_lt by (pose proof (fo_occ _ _ _ Hf); lia). split; cbn.
    + apply Nat.mod_upper_bound. lia.
    + by rewrite length_insert.
  - intros i f [head rbit] r Hf [Hh Hlen] _ Hr Hin Hlt. cbn in *.
    rewrite wr_lt by lia. split; cbn; [done|]. by rewrite length_insert.
  - intros i f [head rbit] r Hf [Hh Hlen] _ Hr Hin Hocc. cbn [fst snd] in *.
    destruct (scan_dist_exists head rbit Hk Hlen) as [d Hd].
    rewrite (sc_scan_spec head rbit d) by done. cbn.
    assert ((head + d) mod pf_num g < pf_num g) by (apply Nat.mod_upper_bound; lia).
    split; [done|]. rewrite wr_lt by (rewrite length_clear_bits; lia).
    split; cbn; [done|]. by rewrite length_insert, length_clear_bits.
Qed.
End Sc.

(** ** Enhanced second chance *)
Section Esc.
Context (g : glob).

Definition is_bit (b : Z) : Prop := b = 0%Z \/ b = 1%Z.

(** The class of frame [j]: 00 before 01 before 10 before 11. *)
Definition class_at (rbit wbit : list Z) (j : nat) : nat :=
  Z.to_nat (2 * default 0 (rbit !! j) + default 0 (wbit !! j))%Z.

Lemma esc_class_bits r w : is_bit r -> is_bit w -> esc_class r w = Some (Z.to_nat (2 * r + w)).
Proof. intros [->| ->] [->| ->]; reflexivity. Qed.

Lemma esc_classes_spec rbit wbit :
  length rbit = pf_num g -> length wbit = pf_num g ->
  Forall is_bit rbit -> Forall is_bit wbit ->
  exists tmp, esc_classes g rbit wbit = Ret tmp /\
    forall j, j < pf_num g -> tmp !! j = Some (Some (class_at rbit wbit j)).
Proof.
  intros Hr Hw Hrb Hwb.
  pose proof (for_invariant (fun i (tmp : list (option nat)) => length tmp = pf_num g /\
    forall j, j < i -> tmp !! j = Some (Some (class_at rbit wbit j)))
    (fun i tmp =>
       r ← rd rbit i; w ← rd wbit i;
       match esc_class r w with Some c => wr tmp i (Some c) | None => Ret tmp end)
    0 (pf_num g) (replicate (pf_num g) None)) as H.
  apply returns_Ret in H as (tmp & Htmp & _ & H); [by exists tmp| |].
  - rewrite length_replicate. split; [done|lia].
  - intros i tmp Hi [Hlen Hj].
    destruct (rd_lt rbit i) as (r & Hri & ->); [lia|].
    destruct (rd_lt wbit i) as (w & Hwi & ->); [lia|]. cbn [mbind outcome_bind].
    rewrite (esc_class_bits r w (Forall_lookup_1 _ _ _ _ Hrb Hri) (Forall_lookup_1 _ _ _ _ Hwb Hwi)).
    rewrite wr_lt by lia. cbn [returns]. rewrite length_insert. split; [done|].
    intros j Hlt. destruct (decide (j = i)) as [->|].
    + rewrite list_lookup_insert_eq by lia. unfold class_at. by rewrite Hri, Hwi.
    + rewrite list_lookup_insert_ne by lia. apply Hj. lia.
Qed.

(** The victim has the least class; the frame [head] is kept when nothing is
    better, and otherwise the first frame of the least class is taken. *)
Lemma get_high_priority_idx_spec head rbit wbit :
  head < pf_num g -> length rbit = pf_num g -> length wbit = pf_num g ->
  Forall is_bit rbit -> Forall is_bit wbit ->
  returns (get_high_priority_idx g head rbit wbit)
    (argmin_of (pf_num g) (class_at rbit wbit) head).
Proof.
  intros Hh Hr Hw Hrb Hwb. unfold get_high_priority_idx.
  destruct (rd_lt rbit head) as (r & Hri & ->); [lia|].
  destruct (rd_lt wbit head) as (w & Hwi & ->); [lia|]. cbn [mbind outcome_bind].
  case_decide as H0.
  - destruct H0 as [-> ->]. cbn. split_and!; [done| |by left].
    intros j Hj. unfold class_at at 1. rewrite Hri, Hwi. cbn. lia.
  - destruct (esc_classes_spec rbit wbit) as (tmp & -> & Htmp); [done..|]. cbn [mbind outcome_bind].
    apply argmin_loop; [done|]. intros j m Hj Hm. unfold rd_init.
    rewrite (rd_lookup _ _ _ (Htmp j Hj)), (rd_lookup _ _ _ (Htmp m Hm)). done.
Qed.

Lemma esc_set_bits_spec w v rbit wbit :
  v < pf_num g -> length rbit = pf_num g -> length wbit = pf_num g ->
  Forall is_bit rbit -> Forall is_bit wbit ->
  returns (esc_set_bits w v rbit wbit) (fun '(rb, wb) =>
    length rb = pf_num g /\ length wb = pf_num g /\ Forall is_bit rb /\ Forall is_bit wb).
Proof.
  intros Hv Hr Hw Hrb Hwb. unfold esc_set_bits.
  case_decide; rewrite !wr_lt by lia; cbn; rewrite !length_insert;
    split_and!; try done; apply Forall_insert; try done; unfold is_bit; auto.
Qed.

Context (Hg : wf_glob g).

Definition esc_J (_ : nat) (_ : list Z) (_ _ : nat) (x : list nat * nat * list Z * list Z) : Prop :=
  let '(c, _, rb, wb) := x in
  length c = pf_num g /\ length rb = pf_num g /\ length wb = pf_num g /\
  Forall is_bit rb /\ Forall is_bit wb.

Lemma esc_load r v i pf n occ i' pf' n' occ' x :
  esc_J i pf n occ x -> v < pf_num g ->
  returns (p_load (esc_policy g) r v x) (esc_J i' pf' n' occ').
Proof.
  destruct x as [[[c t] rb] wb]. intros (Hc & Hr & Hw & Hrb & Hwb) Hv. cbn.
  pose proof (esc_set_bits_spec (rw r) v rb wb Hv Hr Hw Hrb Hwb) as H.
  apply returns_Ret in H as ([rb' wb'] & -> & H). cbn.
  rewrite wr_lt by lia. cbn. rewrite length_insert. naive_solver.
Qed.

Lemma esc_ok : PolicyOk g (esc_policy g) esc_J.
Proof.
  assert (0 < pf_num g) as Hk by (pose proof (wf_pf _ Hg); lia).
  constructor.
  - intros i f [[[c t] rb] wb] r h Hf (Hc & Hr & Hw & Hrb & Hwb) _ Hh _. cbn.
    pose proof (fo_occ _ _ _ Hf). rewrite !wr_lt by lia. cbn.
    rewrite !length_insert. split_and!; try done. apply Forall_insert; [done|]. by right.
  - intros i f [[[c t] rb] wb] r Hf HJ _ _ _ Hlt. by apply (esc_load _ _ i (page_frame f) (page_fault f) (occupied f)).
  - intros i f [[[c t] rb] wb] r Hf HJ _ _ _ Hocc. cbn [p_victim p_tick esc_policy].
    pose proof HJ as (Hc & Hr & Hw & Hrb & Hwb).
    pose proof (min_counter_spec g c Hc Hk) as Hm.
    apply returns_Ret in Hm as (m & -> & Hm & _). cbn [mbind outcome_bind].
    pose proof (get_high_priority_idx_spec m rb wb Hm Hr Hw Hrb Hwb) as Hv.
    apply returns_Ret in Hv as (v & -> & Hv & _). cbn [mbind outcome_bind returns].
    split; [done|]. by apply (esc_load _ _ i (page_frame f) (page_fault f) (occupied f)).
Qed.
End Esc.
End Safe.
