(* ===== verification/PageLru.v ===== *)
(** * LRU: the two implementations and the recency list

    [mru] is the list of the pages referenced so far, most recent first.  LRU
    with [k] frames keeps exactly the first [k] of them ([lru_ok]); [lru2], the
    implementation with time stamps, makes the same choices as [lru]
    ([lru_body_lru2]). *)
From Stdlib Require Import Sorted.
From S2P Require Export PageSafe.

Module Lru.
Import Page Algos Spec Skel Safe.

Definition mru_step (m : list Z) (r : Z) : list Z := r :: filter (fun p => p <> r) m.
Definition mru (l : list Z) : list Z := foldl mru_step [] l.

(** LRU on the recency list: the faults with [k] frames. *)
Fixpoint mru_faults (k : nat) (m : list Z) (l : list Z) : nat :=
  match l with
  | [] => 0
  | r :: l => (if decide (r ∈ take k m) then 0 else 1) + mru_faults k (mru_step m r) l
  end.

(** [j] is the index of the last occurrence of [p] in [l]. *)
Definition is_last (l : list Z) (p : Z) (j : nat) : Prop :=
  l !! j = Some p /\ forall j', j < j' -> l !! j' <> Some p.

Lemma is_last_unique l p j j' : is_last l p j -> is_last l p j' -> j = j'.
Proof.
  intros [H1 H2] [H3 H4]. destruct (decide (j < j')); [exfalso; by eapply H2|].
  destruct (decide (j' < j)); [exfalso; by eapply H4|]. lia.
Qed.

Lemma is_last_snoc l r p j :
  is_last (l ++ [r]) p j <-> (p = r /\ j = length l) \/ (p <> r /\ is_last l p j).
Proof.
  unfold is_last. split.
  - intros [H1 H2]. destruct (decide (j = length l)) as [->|Hne].
    + rewrite lookup_app_r, Nat.sub_diag in H1 by lia. cbn in H1. simplify_eq. auto.
    + assert (j < length l).
      { apply lookup_lt_Some in H1. rewrite length_app in H1. cbn in H1. lia. }
      rewrite lookup_app_l in H1 by done. right.
      assert (p <> r).
      { intros ->. apply (H2 (length l)); [done|]. by rewrite lookup_app_r, Nat.sub_diag by lia. }
      split_and!; [done|done|]. intros j' Hj' Hc. apply (H2 j' Hj').
      rewrite lookup_app_l; [done|]. by eapply lookup_lt_Some.
  - intros [[-> ->]|[Hne [H1 H2]]].
    + split; [by rewrite lookup_app_r, Nat.sub_diag by lia|].
      intros j' Hj' Hc. apply lookup_lt_Some in Hc. rewrite length_app in Hc. cbn in Hc. lia.
    + split; [by apply lookup_app_l_Some|]. intros j' Hj' Hc.
      apply lookup_app_Some in Hc as [Hc|[Hle Hc]]; [by apply (H2 j')|].
      apply list_lookup_singleton_Some in Hc as [_ ->]. done.
Qed.

Lemma is_last_exists l p : p ∈ l -> exists j, is_last l p j.
Proof.
  induction l as [|r l IH] using rev_ind; [set_solver|].
  intros Hp. destruct (decide (p = r)) as [->|Hne].
  - exists (length l). apply is_last_snoc. auto.
  - destruct IH as [j Hj]; [set_solver|]. exists j. apply is_last_snoc. auto.
Qed.

(** ** The recency list *)

Lemma mru_snoc l r : mru (l ++ [r]) = mru_step (mru l) r.
Proof. unfold mru. by rewrite foldl_app. Qed.

Lemma elem_of_mru l p : p ∈ mru l <-> p ∈ l.
Proof.
  induction l as [|r l IH] using rev_ind; [done|].
  rewrite mru_snoc. unfold mru_step. rewrite elem_of_cons, list_elem_of_filter, IH.
  destruct (decide (p = r)); set_solver.
Qed.

Lemma NoDup_mru l : NoDup (mru l).
Proof.
  induction l as [|r l IH] using rev_ind; [constructor|].
  rewrite mru_snoc. constructor; [rewrite list_elem_of_filter; naive_solver|].
  by apply NoDup_filter.
Qed.

(** [p] was used after [q]. *)
Definition later (l : list Z) (p q : Z) : Prop :=
  forall jp jq, is_last l p jp -> is_last l q jq -> jq < jp.

Lemma StronglySorted_weaken {A} (R1 R2 : A -> A -> Prop) (l : list A) :
  (forall x y, x ∈ l -> y ∈ l -> R1 x y -> R2 x y) -> StronglySorted R1 l -> StronglySorted R2 l.
Proof.
  intros H. induction 1 as [|x l Hs IH Hall]; constructor.
  - apply IH. set_solver.
  - rewrite Forall_forall in *. intros y Hy. apply H; set_solver.
Qed.

Lemma StronglySorted_filter_ne (R : Z -> Z -> Prop) (r : Z) (l : list Z) :
  StronglySorted R l -> StronglySorted R (filter (fun p => p <> r) l).
Proof.
  induction 1 as [|x l Hs IH Hall]; [constructor|].
  rewrite filter_cons. case_decide; [|done]. constructor; [done|].
  rewrite Forall_forall in *. intros y Hy. apply Hall. rewrite list_elem_of_filter in Hy. naive_solver.
Qed.

Lemma mru_sorted l : StronglySorted (later l) (mru l).
Proof.
  induction l as [|r l IH] using rev_ind; [constructor|].
  rewrite mru_snoc. constructor.
  - eapply StronglySorted_weaken; [|by apply StronglySorted_filter_ne].
    intros x y Hx Hy Hxy jp jq Hp Hq. rewrite !list_elem_of_filter in Hx, Hy.
    rewrite is_last_snoc in Hp, Hq. naive_solver.
  - apply Forall_forall. intros q Hq jp jq H1 H2. rewrite list_elem_of_filter in Hq.
    rewrite is_last_snoc in H1, H2. destruct H1 as [[_ ->]|[? _]]; [|done].
    destruct H2 as [[-> _]|[_ [H2 _]]]; [naive_solver|]. by eapply lookup_lt_Some.
Qed.

Lemma StronglySorted_lookup {A} (R : A -> A -> Prop) (l : list A) a b x y :
  StronglySorted R l -> a < b -> l !! a = Some x -> l !! b = Some y -> R x y.
Proof.
  intros Hs. revert a b. induction Hs as [|z l Hs IH Hall]; intros [|a] [|b] Hab Hx Hy;
    try done; try lia; cbn in *.
  - simplify_eq. rewrite Forall_lookup in Hall. eauto.
  - eapply IH; [|done..]. lia.
Qed.

(** ** The first [k] of the recency list under a reference *)

Lemma filter_ne_id (r : Z) (m : list Z) : r ∉ m -> filter (fun p => p <> r) m = m.
Proof.
  induction m as [|x m IH]; intros Hr; [done|].
  rewrite filter_cons, decide_True, IH by set_solver. done.
Qed.

Lemma take_mono (m : list Z) k k' p : k <= k' -> p ∈ take k m -> p ∈ take k' m.
Proof.
  rewrite !list_elem_of_lookup. intros Hk [j Hj]. exists j.
  rewrite lookup_take_Some in *. split; [naive_solver|lia].
Qed.

Lemma take_elem (m : list Z) k p : p ∈ take k m -> p ∈ m.
Proof. rewrite <- (take_drop k m) at 2. set_solver. Qed.

Lemma take_filter_ne k (m : list Z) r : r ∉ take k m -> take k (filter (fun p => p <> r) m) = take k m.
Proof.
  revert k. induction m as [|x m IH]; intros [|k] Hr; try done. cbn [take] in Hr.
  rewrite filter_cons, decide_True by set_solver. cbn [take]. f_equal. apply IH. set_solver.
Qed.

Lemma take_mru_miss k m r :
  0 < k -> r ∉ take k m -> take k (mru_step m r) = r :: take (k - 1) m.
Proof.
  intros Hk Hr. destruct k as [|k]; [lia|]. unfold mru_step. cbn [take]. f_equal.
  replace (S k - 1) with k by lia. apply take_filter_ne. intros Hc. apply Hr.
  eapply take_mono; [|done]. lia.
Qed.

Lemma take_filter_hit k (m : list Z) r p :
  NoDup m -> r ∈ take k m ->
  p ∈ take (k - 1) (filter (fun p => p <> r) m) <-> p ∈ take k m /\ p <> r.
Proof.
  intros Hnd. revert k. induction Hnd as [|x m Hx Hnd IH]; intros [|k] Hr; cbn [take] in *;
    try (set_solver by idtac).
  rewrite Nat.sub_succ, Nat.sub_0_r, filter_cons.
  destruct (decide (x = r)) as [->|Hne].
  - rewrite decide_False by naive_solver. rewrite filter_ne_id by done.
    assert (r ∉ take k m) by (intros Hc; by eapply Hx, take_elem).
    set_solver.
  - rewrite decide_True by done. assert (Hr' : r ∈ take k m) by set_solver.
    destruct k as [|k]; [set_solver|]. cbn [take]. specialize (IH (S k) Hr').
    rewrite Nat.sub_succ, Nat.sub_0_r in IH. rewrite !elem_of_cons, IH. set_solver.
Qed.

Lemma take_mru_hit k m r p :
  NoDup m -> r ∈ take k m -> p ∈ take k (mru_step m r) <-> p ∈ take k m.
Proof.
  intros Hnd Hr. destruct k as [|k]; [set_solver|]. unfold mru_step.
  change (take (S k) (r :: ?l)) with (r :: take k l).
  pose proof (take_filter_hit (S k) m r p Hnd Hr) as H. rewrite Nat.sub_succ, Nat.sub_0_r in H.
  rewrite elem_of_cons, H. destruct (decide (p = r)); naive_solver.
Qed.

(** More frames never give more faults: the first [k1] of the recency list are
    among the first [k2]. *)
Lemma mru_faults_mono k1 k2 l m : k1 <= k2 -> mru_faults k2 m l <= mru_faults k1 m l.
Proof.
  intros Hk. revert m. induction l as [|r l IH]; intros m; cbn; [done|].
  specialize (IH (mru_step m r)).
  destruct (decide (r ∈ take k1 m)) as [H1|]; [|case_decide; lia].
  rewrite decide_True by (by eapply take_mono). lia.
Qed.

Lemma mru_faults_snoc k l r m :
  mru_faults k m (l ++ [r]) =
  mru_faults k m l + (if decide (r ∈ take k (foldl mru_step m l)) then 0 else 1).
Proof.
  revert m. induction l as [|x l IH]; intros m; cbn; [lia|]. rewrite IH. lia.
Qed.

(** ** Victim selection of [lru] *)
Section Victim.
Context (g : glob) (Hg : wf_glob g).

Lemma bef_scan_spec n p :
  n <= ref_num g -> p ∈ take n (refs g) ->
  exists j, bef_scan g p n = Ret (Some j) /\ is_last (take n (refs g)) p j.
Proof.
  induction n as [|n IH]; intros Hn Hp; [set_solver|].
  destruct (refs_lookup g Hg n) as (r & Hr & Hrd & Hrf & _); [lia|].
  assert (Hlen : length (take n (refs g)) = n) by (rewrite length_take, (length_refs g Hg); lia).
  rewrite (take_S_r _ _ _ Hrf) in *. cbn [bef_scan]. rewrite Hrd. cbn [mbind outcome_bind].
  case_decide as Hd.
  - exists n. split; [done|]. apply is_last_snoc. left. by rewrite Hlen.
  - destruct IH as (j & -> & Hj); [lia|set_solver|]. exists j. split; [done|].
    apply is_last_snoc. auto.
Qed.

(** The time of the last use of the page in frame [j], as a key. *)
Definition last_key (i : nat) (pf : list Z) (key : nat -> nat) : Prop :=
  forall j p, pf !! j = Some p -> is_last (take i (refs g)) p (key j).

Lemma fill_distance_spec i pf :
  i <= ref_num g -> 0 < i -> length pf = pf_num g -> (forall p, p ∈ pf -> p ∈ take i (refs g)) ->
  exists distance key, fill_distance g (Z.of_nat i - 1) pf = Ret distance /\
    last_key i pf key /\ forall j, j < pf_num g -> distance !! j = Some (Some (key j)).
Proof.
  intros Hi Hi0 Hlen Hsub.
  pose proof (for_invariant (fun n (d : list (option nat)) => length d = pf_num g /\
    forall j p, j < n -> pf !! j = Some p ->
      exists t, d !! j = Some (Some t) /\ is_last (take i (refs g)) p t)
    (fun i0 distance =>
       page ← rd pf i0;
       j ← bef_scan g page (Z.to_nat (Z.of_nat i - 1 + 1));
       match j with Some j => wr distance i0 (Some j) | None => Ret distance end)
    0 (pf_num g) (replicate (pf_num g) None)) as H.
  apply returns_Ret in H as (d & Hd & Hld & H).
  - exists d, (fun j => default 0 (mjoin (d !! j))). split_and!; [exact Hd| |].
    + intros j p Hj. destruct (H j p) as (t & Ht & Hl); [|done|by rewrite Ht].
      apply lookup_lt_Some in Hj. lia.
    + intros j Hj. destruct (lookup_lt_is_Some_2 pf j) as [p Hp]; [lia|].
      destruct (H j p) as (t & Ht & Hl); [lia|done|]. by rewrite Ht.
  - rewrite length_replicate. split; [done|lia].
  - intros n d' Hn [Hl Hj]. destruct (rd_lt pf n) as (p & Hp & ->); [lia|]. cbn [mbind outcome_bind].
    replace (Z.to_nat (Z.of_nat i - 1 + 1)) with i by lia.
    destruct (bef_scan_spec i p Hi) as (t & -> & Ht).
    { apply Hsub, list_elem_of_lookup. eauto. }
    cbn [mbind outcome_bind]. rewrite wr_lt by lia. cbn [returns].
    rewrite length_insert. split; [done|]. intros j q Hjn Hq.
    destruct (decide (j = n)) as [->|].
    + exists t. rewrite list_lookup_insert_eq by lia. by simplify_eq.
    + rewrite list_lookup_insert_ne by done. apply Hj; [lia|done].
Qed.

Lemma find_farthest_idx_spec i pf :
  i <= ref_num g -> 0 < i -> length pf = pf_num g -> (forall p, p ∈ pf -> p ∈ take i (refs g)) ->
  exists m key, find_farthest_idx g (Z.of_nat i - 1) pf = Ret m /\
    last_key i pf key /\ argmin_of (pf_num g) key 0 m.
Proof.
  intros Hi Hi0 Hlen Hsub. pose proof (wf_pf _ Hg).
  destruct (fill_distance_spec i pf Hi Hi0 Hlen Hsub) as (d & key & Hd & Hkey & Hj).
  unfold find_farthest_idx. rewrite Hd. cbn [mbind outcome_bind].
  pose proof (argmin_loop key (fun i0 farthest_idx =>
       x ← rd_init d i0; y ← rd_init d farthest_idx;
       Ret (if decide (x < y) then i0 else farthest_idx)) (pf_num g) 0) as H0.
  apply returns_Ret in H0 as (m & Hm & Harg); [by exists m, key|lia|].
  intros j m' Hj1 Hm1. unfold rd_init.
  rewrite (rd_lookup _ _ _ (Hj j Hj1)), (rd_lookup _ _ _ (Hj m' Hm1)). done.
Qed.

(** When the frames hold the first [k] of the recency list, the frame with the
    oldest last use holds the [k]-th. *)
Lemma oldest_is_kth i pf key m :
  length pf = pf_num g ->
  (forall p, p ∈ pf <-> p ∈ take (pf_num g) (mru (take i (refs g)))) ->
  pf_num g <= length (mru (take i (refs g))) ->
  last_key i pf key -> argmin_of (pf_num g) key 0 m ->
  pf !! m = mru (take i (refs g)) !! (pf_num g - 1).
Proof.
  intros Hlen Hset Hge Hkey (Hm & Hmin & _). set (l := take i (refs g)) in *.
  pose proof (wf_pf _ Hg).
  destruct (lookup_lt_is_Some_2 pf m) as [v Hv]; [lia|].
  destruct (lookup_lt_is_Some_2 (mru l) (pf_num g - 1)) as [u Hu]; [lia|].
  rewrite Hv, Hu. f_equal.
  assert (v ∈ take (pf_num g) (mru l)) as Hvt by (apply Hset, list_elem_of_lookup; eauto).
  apply list_elem_of_lookup in Hvt as [a Ha]. apply lookup_take_Some in Ha as [Ha Hak].
  destruct (decide (a = pf_num g - 1)) as [->|Hne]; [congruence|]. exfalso.
  assert (u ∈ pf) as Hup.
  { apply Hset, list_elem_of_lookup. exists (pf_num g - 1). apply lookup_take_Some. split; [done|lia]. }
  apply list_elem_of_lookup in Hup as [b Hb].
  pose proof (StronglySorted_lookup _ _ a (pf_num g - 1) v u (mru_sorted l) ltac:(lia) Ha Hu) as Hlt.
  pose proof (lookup_lt_Some _ _ _ Hb).
  specialize (Hlt _ _ (Hkey m v Hv) (Hkey b u Hb)). specialize (Hmin b ltac:(lia)). lia.
Qed.

(** ** The invariant of LRU *)
Definition lru_J (i : nat) (pf : list Z) (faults occ : nat) (_ : unit) : Prop :=
  let m := mru (take i (refs g)) in
  occ = Nat.min (pf_num g) (length m) /\
  faults = mru_faults (pf_num g) [] (take i (refs g)) /\
  forall p, p ∈ take occ pf <-> p ∈ take (pf_num g) m.

Lemma mru_miss_length l r : r ∉ mru l -> length (mru (l ++ [r])) = S (length (mru l)).
Proof. intros H. rewrite mru_snoc. unfold mru_step. cbn. by rewrite filter_ne_id. Qed.

Lemma lru_J_hit i f r :
  frames_ok g i f -> lru_J i (page_frame f) (page_fault f) (occupied f) tt ->
  refs g !! i = Some r -> r ∈ resident f ->
  lru_J (S i) (page_frame f) (page_fault f) (occupied f) tt.
Proof.
  intros Hf (Hocc & Hfl & Hset) Hr Hin. unfold lru_J.
  rewrite (take_S_r _ _ _ Hr), mru_snoc, mru_faults_snoc. set (l := take i (refs g)) in *.
  change (foldl mru_step [] l) with (mru l). apply Hset in Hin as Hin'.
  rewrite decide_True by done. split_and!; [|lia|].
  - assert (length (mru_step (mru l) r) = length (mru l)) as ->; [|done].
    unfold mru_step. cbn. apply take_elem, elem_of_Permutation in Hin' as [m' Hm'].
    assert (r ∉ m') as Hnr.
    { pose proof (NoDup_mru l) as Hnd. rewrite Hm' in Hnd. by inversion Hnd. }
    rewrite Hm'. rewrite filter_cons, decide_False by naive_solver. cbn.
    by rewrite filter_ne_id.
  - intros p. rewrite Hset. symmetry. apply take_mru_hit; [apply NoDup_mru|done].
Qed.

Lemma lru_J_cold i f r :
  frames_ok g i f -> lru_J i (page_frame f) (page_fault f) (occupied f) tt ->
  refs g !! i = Some r -> r ∉ resident f -> occupied f < pf_num g ->
  lru_J (S i) (<[occupied f:=r]> (page_frame f)) (S (page_fault f)) (S (occupied f)) tt.
Proof.
  intros Hf (Hocc & Hfl & Hset) Hr Hin Hlt. unfold lru_J.
  pose proof (fo_len _ _ _ Hf) as Hlen.
  rewrite (take_S_r _ _ _ Hr), mru_snoc, mru_faults_snoc. set (l := take i (refs g)) in *.
  change (foldl mru_step [] l) with (mru l).
  assert (Htk : take (pf_num g) (mru l) = mru l) by (apply take_ge; lia).
  unfold resident in Hin. rewrite Hset in Hin. rewrite decide_False by done.
  assert (Hst : mru_step (mru l) r = r :: mru l).
  { unfold mru_step. rewrite Htk in Hin. by rewrite filter_ne_id. }
  rewrite Hst. split_and!; [cbn; lia|lia|]. intros p.
  erewrite take_S_r by (apply list_lookup_insert_eq; lia).
  rewrite take_insert_ge, elem_of_app, Hset, Htk by lia.
  rewrite (take_ge (r :: mru l)) by (cbn; lia). set_solver.
Qed.

Lemma lru_J_evict i f r v :
  frames_ok g i f -> lru_J i (page_frame f) (page_fault f) (occupied f) tt ->
  refs g !! i = Some r -> r ∉ page_frame f -> occupied f = pf_num g -> v < pf_num g ->
  page_frame f !! v = mru (take i (refs g)) !! (pf_num g - 1) ->
  lru_J (S i) (<[v:=r]> (page_frame f)) (S (page_fault f)) (occupied f) tt.
Proof.
  intros Hf (Hocc & Hfl & Hset) Hr Hin Hfull Hv Hvic. unfold lru_J. pose proof (wf_pf _ Hg).
  pose proof (fo_len _ _ _ Hf) as Hlen. pose proof (fo_nodup _ _ _ Hf) as Hnd.
  unfold resident in Hnd.
  rewrite (take_S_r _ _ _ Hr), mru_snoc, mru_faults_snoc. set (l := take i (refs g)) in *.
  change (foldl mru_step [] l) with (mru l).
  rewrite (take_ge (page_frame f)) in Hset, Hnd by lia.
  assert (Hr' : r ∉ take (pf_num g) (mru l)) by (by rewrite <- Hset).
  rewrite decide_False by done.
  destruct (lookup_lt_is_Some_2 (mru l) (pf_num g - 1)) as [u Hu]; [lia|]. rewrite Hu in Hvic.
  split_and!; [|lia|].
  - unfold mru_step. cbn. pose proof (f_equal length (take_filter_ne _ _ _ Hr')) as Hl.
    rewrite !length_take in Hl. lia.
  - intros p. rewrite take_ge by (rewrite length_insert; lia).
    rewrite <- (elem_of_list_to_set (C := gset Z) p (<[_:=_]> _)), (insert_set _ _ u) by done.
    rewrite take_mru_miss by (done || lia).
    assert (Hsplit : take (pf_num g) (mru l) = take (pf_num g - 1) (mru l) ++ [u]).
    { rewrite <- (take_S_r _ _ _ Hu). f_equal. lia. }
    assert (u ∉ take (pf_num g - 1) (mru l)) as Hnu.
    { pose proof (NoDup_mru l) as Hn. rewrite <- (take_drop (pf_num g) (mru l)), Hsplit in Hn.
      apply NoDup_app in Hn as [Hn _]. apply NoDup_app in Hn as (_ & Hn & _). set_solver. }
    rewrite elem_of_union, elem_of_difference, elem_of_list_to_set, Hset, Hsplit. set_solver.
Qed.

Lemma lru_ok : PolicyOk g (lru_policy g) lru_J.
Proof.
  constructor.
  - intros i f [] r h Hf HJ Hr Hh Hp. cbn. eapply lru_J_hit; eauto. apply elem_of_resident. eauto.
  - intros i f [] r Hf HJ _ Hr Hin Hlt. cbn. by eapply lru_J_cold.
  - intros i f [] r Hf HJ _ Hr Hin Hocc. cbn. pose proof (wf_pf _ Hg).
    pose proof HJ as (Hmin & _ & Hset). pose proof (fo_len _ _ _ Hf) as Hlen.
    rewrite (take_ge (page_frame f)) in Hset by lia.
    apply lookup_lt_Some in Hr as Hi. rewrite (length_refs g Hg) in Hi.
    assert (Hi0 : 0 < i).
    { destruct i; [|lia]. change (length (mru (take 0 (refs g)))) with 0 in Hmin. lia. }
    destruct (find_farthest_idx_spec i (page_frame f)) as (m & key & -> & Hkey & Harg);
      [lia|done|done| |].
    { intros p Hp. apply (fo_sub _ _ _ Hf). unfold resident. by rewrite take_ge by lia. }
    cbn. split; [apply Harg|]. eapply lru_J_evict; eauto; [apply Harg|].
    eapply oldest_is_kth; eauto. lia.
Qed.

(** ** [lru2] *)

(** The time stamps of [lru2]: one more than the index of the last use of the
    page in the frame, 0 for a free frame. *)
Definition lru2_J (i : nat) (pf : list Z) (_ occ : nat) (x : list nat * nat) : Prop :=
  snd x = i /\ length (fst x) = pf_num g /\
  (forall j p, j < occ -> pf !! j = Some p ->
     exists t, is_last (take i (refs g)) p t /\ fst x !! j = Some (S t)) /\
  forall j, occ <= j < pf_num g -> fst x !! j = Some 0.

(** Setting the time stamp of the frame just used. *)
Lemma lru2_J_use i f pf' c r v n' occ' :
  frames_ok g i f -> lru2_J i (page_frame f) (page_fault f) (occupied f) (c, i) ->
  refs g !! i = Some r -> r ∉ resident f \/ (v < occupied f /\ page_frame f !! v = Some r) ->
  v < pf_num g -> pf' = <[v:=r]> (page_frame f) ->
  (forall j, j < occ' <-> j < occupied f \/ j = v) ->
  lru2_J (S i) pf' n' occ' (<[v:=S i]> c, S i).
Proof.
  intros Hf (_ & Hlen & Hocc & Hfree) Hr Hin Hv -> Hocc'. cbn [fst snd] in *.
  pose proof (fo_len _ _ _ Hf) as Hpl. apply lookup_lt_Some in Hr as Hi.
  split_and!; cbn [fst snd]; [done|by rewrite length_insert| |].
  - intros j p Hj Hp. rewrite (take_S_r _ _ _ Hr).
    apply list_lookup_insert_Some in Hp as [(<- & -> & _)|[Hne Hp]].
    + exists i. split; [|apply list_lookup_insert_eq; lia].
      apply is_last_snoc. left. split; [done|]. rewrite length_take. lia.
    + apply Hocc' in Hj as [Hj| ->]; [|done].
      destruct (Hocc j p Hj Hp) as (t & Ht & Hc). exists t.
      rewrite list_lookup_insert_ne by done. split; [|done]. apply is_last_snoc. right.
      split; [|done]. intros ->. destruct Hin as [Hin|[Hvo Hvr]].
      * apply Hin, elem_of_resident. eauto.
      * apply Hne. eapply NoDup_lookup; [apply (fo_nodup _ _ _ Hf)| |];
          apply resident_lookup; eauto.
  - intros j Hj. assert (~ (j < occupied f \/ j = v)) by (rewrite <- Hocc'; lia).
    rewrite list_lookup_insert_ne by lia. apply Hfree. lia.
Qed.

(** With all the frames in use, both implementations choose the same frame. *)
Lemma victims_agree i f c :
  frames_ok g i f -> lru2_J i (page_frame f) (page_fault f) (occupied f) (c, i) ->
  i < ref_num g -> occupied f = pf_num g ->
  exists v, v < pf_num g /\ find_farthest_idx g (Z.of_nat i - 1) (page_frame f) = Ret v /\
    min_counter g c = Ret v.
Proof.
  intros Hf (_ & Hlen & Hc & _) Hi Hfull. cbn [fst snd] in *. pose proof (wf_pf _ Hg).
  pose proof (fo_len _ _ _ Hf) as Hpl.
  assert (Hres : resident f = page_frame f) by (apply take_ge; lia).
  assert (Hi0 : 0 < i).
  { destruct (lookup_lt_is_Some_2 (page_frame f) 0) as [p Hp]; [lia|].
    destruct (Hc 0 p) as (t & [Ht _] & _); [lia|done|].
    apply lookup_lt_Some in Ht. rewrite length_take in Ht. lia. }
  destruct (find_farthest_idx_spec i (page_frame f)) as (v & key & Hfind & Hkey & Hv & Hmin & _);
    [lia|done|done| |].
  { intros p Hp. apply (fo_sub _ _ _ Hf). by rewrite Hres. }
  exists v. split_and!; [done|done|].
  pose proof (min_counter_spec g c Hlen ltac:(lia)) as Hmc.
  apply returns_Ret in Hmc as (m & -> & Hm & Hmin' & _). f_equal.
  assert (Hk : forall j, j < pf_num g -> default 0 (c !! j) = S (key j)).
  { intros j Hj. destruct (lookup_lt_is_Some_2 (page_frame f) j) as [p Hp]; [lia|].
    destruct (Hc j p) as (t & Ht & ->); [lia|done|]. cbn. f_equal.
    eapply is_last_unique; eauto. }
  specialize (Hmin m Hm). specialize (Hmin' v Hv). rewrite !Hk in Hmin' by done.
  destruct (lookup_lt_is_Some_2 (page_frame f) m) as [p Hp]; [lia|].
  destruct (lookup_lt_is_Some_2 (page_frame f) v) as [q Hq]; [lia|].
  assert (p = q) as ->.
  { pose proof (Hkey m p Hp) as [H1 _]. pose proof (Hkey v q Hq) as [H2 _].
    assert (key m = key v) as Heq by lia. rewrite Heq in H1. congruence. }
  pose proof (fo_nodup _ _ _ Hf) as Hnd. rewrite Hres in Hnd. by eapply NoDup_lookup.
Qed.

Lemma lru2_ok : PolicyOk g (lru2_policy g) lru2_J.
Proof.
  constructor; cbn.
  - intros i f [c n] r h Hf HJ Hr Hh Hp. pose proof HJ as (Hn & Hlen & _). cbn in Hn, Hlen. subst n.
    pose proof (fo_occ _ _ _ Hf). rewrite wr_lt by lia. cbn.
    eapply lru2_J_use; eauto; [lia|by rewrite list_insert_id|lia].
  - intros i f [c n] r Hf HJ _ Hr Hin Hlt. pose proof HJ as (Hn & Hlen & _). cbn in Hn, Hlen. subst n.
    rewrite wr_lt by lia. cbn. eapply lru2_J_use; eauto; lia.
  - intros i f [c n] r Hf HJ _ Hr Hin Hocc. pose proof HJ as (Hn & Hlen & _). cbn in Hn, Hlen. subst n.
    apply lookup_lt_Some in Hr as Hi. rewrite (length_refs g Hg) in Hi.
    destruct (victims_agree i f c Hf HJ Hi Hocc) as (v & Hv & _ & ->). cbn. split; [done|].
    rewrite wr_lt by lia. cbn.
    assert (Hres : resident f = page_frame f) by (apply take_ge; rewrite (fo_len _ _ _ Hf); lia).
    eapply lru2_J_use; eauto; [left; by rewrite Hres|lia].
Qed.

(** One iteration of [lru] and of [lru2] from the same frames do the same. *)
Lemma lru_body_lru2 i x f :
  frames_ok g i f -> lru2_J i (page_frame f) (page_fault f) (occupied f) x -> i < ref_num g ->
  paging_body g (lru_policy g) i (tt, f) =
  (fun s => (tt, snd s)) <$> paging_body g (lru2_policy g) i (x, f).
Proof.
  destruct x as [c n]. intros Hf HJ Hi. pose proof HJ as (Hn & Hlen & _). cbn in Hn, Hlen. subst n.
  unfold paging_body. cbn [fst snd p_tick p_hit p_victim p_load lru_policy lru2_policy plain].
  pose proof (fo_occ _ _ _ Hf).
  destruct (refs_lookup g Hg i Hi) as (r & Hr & -> & Hrf & Hpos). cbn [mbind outcome_bind].
  destruct (check_hit_spec g i f (data r) Hf) as [(h & Hh & Hp & Hin & ->)|[Hin ->]]; [lia| |];
    cbn [mbind outcome_bind].
  - destruct (decide (0 <= Z.of_nat h)%Z); [|lia]. destruct (print_page_frame _ _ _ _); cbn; [|done..].
    rewrite wr_lt by lia. done.
  - destruct (decide (0 <= -1)%Z); [lia|]. case_decide.
    + destruct (victims_agree i f c Hf HJ Hi) as (v & Hv & -> & ->); [lia|].
      cbn [mbind outcome_bind]. rewrite wr_lt by (rewrite (fo_len _ _ _ Hf); lia).
      cbn [mbind outcome_bind]. rewrite wr_lt by lia. cbn [mbind outcome_bind].
      by destruct (print_page_frame _ _ _ _).
    + rewrite wr_lt by (rewrite (fo_len _ _ _ Hf); lia).
      cbn [mbind outcome_bind]. rewrite wr_lt by lia. cbn [mbind outcome_bind].
      by destruct (print_page_frame _ _ _ _).
Qed.
End Victim.
End Lru.
