(* ===== verification/PageOptimal.v ===== *)
(** * OPTIMAL: evicting the page used farthest in the future is optimal

    [exchange] compares two caches that differ in one page: the run of one can
    be followed by the other with at most one more fault, and with no more
    faults when the page it has is used first.  It gives that the choice of
    [find_farthest_aft_idx] never costs a fault against any other run of
    demand paging ([optimal_ok]). *)
From S2P Require Export PageSafe.

Module Opt.
Import Page Algos Spec Skel Safe.

(** The number of references before the next use of [p]; the length of the
    string when there is none. *)
Fixpoint next_use (w : list Z) (p : Z) : nat :=
  match w with
  | [] => 0
  | r :: w => if decide (p = r) then 0 else S (next_use w p)
  end.

Lemma next_use_le w p : next_use w p <= length w.
Proof. induction w as [|r w IH]; cbn; [lia|]. case_decide; lia. Qed.

(** ** The exchange argument *)

Lemma size_swap (C : gset Z) r v : r ∉ C -> v ∈ C -> size ({[r]} ∪ C ∖ {[v]}) = size C.
Proof.
  intros Hr Hv. rewrite size_union, size_singleton by set_solver.
  rewrite size_difference, size_singleton by set_solver.
  assert (size C <> 0) by (rewrite size_non_empty_iff; set_solver). lia.
Qed.

Lemma exchange k w : forall C x y n S',
  x ∉ C -> y ∉ C -> x <> y -> k <= S (size C) ->
  dsteps k w ({[x]} ∪ C) n S' ->
  exists n' S'', dsteps k w ({[y]} ∪ C) n' S'' /\ n' <= S n /\
    (next_use w y <= next_use w x -> n' <= n).
Proof.
  induction w as [|r w IH]; intros C x y n S' Hx Hy Hxy Hk Hrun.
  { inversion Hrun; subst. eexists 0, _. split_and!; [constructor|lia|lia]. }
  inversion Hrun as [|? ? T c S1 m S2 Hs Hr]; subst. clear Hrun.
  assert (HszT : size ({[x]} ∪ C) = S (size C)) by (by rewrite size_union, size_singleton by set_solver).
  assert (HszT' : size ({[y]} ∪ C) = S (size C)) by (by rewrite size_union, size_singleton by set_solver).
  inversion Hs as [T Hin|T Hin Hlt|T v Hin Hge Hv]; subst; [|lia|].
  - destruct (decide (r = x)) as [->|Hrx].
    + exists (1 + m), S'. split_and!; [|lia|].
      * eapply dsteps_cons; [apply (dstep_evict k x _ y); set_solver by lia|].
        replace ({[x]} ∪ ({[y]} ∪ C) ∖ {[y]}) with ({[x]} ∪ C) by set_solver. done.
      * cbn. rewrite decide_False by congruence. rewrite decide_True by done. lia.
    + assert (HrC : r ∈ C) by set_solver. assert (r <> y) by set_solver.
      destruct (IH C x y m S') as (n' & S'' & Hn & H1 & H2); [done..|].
      exists (0 + n'), S''. split_and!; [|lia|].
      * eapply dsteps_cons; [apply dstep_hit; set_solver|done].
      * cbn. rewrite !decide_False by congruence. intros. apply H2. lia.
  - assert (HrC : r ∉ C) by set_solver. assert (Hrx : r <> x) by set_solver.
    destruct (decide (r = y)) as [->|Hry].
    + (* the second cache hits *)
      destruct (decide (v = x)) as [->|Hvx].
      * exists (0 + m), S'. split_and!; [|lia|lia].
        eapply dsteps_cons; [apply dstep_hit; set_solver|].
        replace ({[y]} ∪ ({[x]} ∪ C) ∖ {[x]}) with ({[y]} ∪ C) in Hr by set_solver. done.
      * assert (HvC : v ∈ C) by set_solver.
        replace ({[y]} ∪ ({[x]} ∪ C) ∖ {[v]}) with ({[x]} ∪ ({[y]} ∪ C ∖ {[v]})) in Hr by set_solver.
        destruct (IH ({[y]} ∪ C ∖ {[v]}) x v m S') as (n' & S'' & Hn & H1 & H2);
          [set_solver|set_solver|done|rewrite size_swap by done; lia|done|].
        exists (0 + n'), S''. split_and!; [|lia|lia].
        eapply dsteps_cons; [apply dstep_hit; set_solver|].
        replace ({[v]} ∪ ({[y]} ∪ C ∖ {[v]})) with ({[y]} ∪ C) in Hn; [done|].
        apply set_eq. intros z. destruct (decide (z = v)); set_solver.
    + destruct (decide (v = x)) as [->|Hvx].
      * exists (1 + m), S'. split_and!; [|lia|lia].
        eapply dsteps_cons; [apply (dstep_evict k r _ y); [set_solver|lia|set_solver]|].
        replace ({[r]} ∪ ({[y]} ∪ C) ∖ {[y]}) with ({[r]} ∪ ({[x]} ∪ C) ∖ {[x]}) by set_solver.
        done.
      * assert (HvC : v ∈ C) by set_solver.
        replace ({[r]} ∪ ({[x]} ∪ C) ∖ {[v]}) with ({[x]} ∪ ({[r]} ∪ C ∖ {[v]})) in Hr by set_solver.
        destruct (IH ({[r]} ∪ C ∖ {[v]}) x y m S') as (n' & S'' & Hn & H1 & H2);
          [set_solver|set_solver|done|rewrite size_swap by done; lia|done|].
        exists (1 + n'), S''. split_and!; [|lia|].
        -- eapply dsteps_cons; [apply (dstep_evict k r _ v); [set_solver|lia|set_solver]|].
           replace ({[r]} ∪ ({[y]} ∪ C) ∖ {[v]}) with ({[y]} ∪ ({[r]} ∪ C ∖ {[v]})) by set_solver.
           done.
        -- cbn. rewrite !decide_False by congruence. intros. apply le_n_S, H2. lia.
Qed.

(** Evicting the page used last keeps a run that is at least as good. *)
Lemma evict_farthest k r w R n S' b :
  dsteps k (r :: w) R n S' -> r ∉ R -> k <= size R -> b ∈ R ->
  (forall p, p ∈ R -> next_use w p <= next_use w b) ->
  exists n' S'', dsteps k w ({[r]} ∪ R ∖ {[b]}) n' S'' /\ S n' <= n.
Proof.
  intros Hrun Hr Hk Hb Hfar.
  inversion Hrun as [|? ? T c S1 m S2 Hs Hw]; subst.
  inversion Hs as [T Hin|T Hin Hlt|T v Hin Hge Hv]; subst; [done|lia|].
  destruct (decide (v = b)) as [->|Hvb]; [exists m, S'; auto|].
  destruct (exchange k w ({[r]} ∪ R ∖ {[b]} ∖ {[v]}) b v m S') as (n' & S'' & Hn & _ & Hle).
  - set_solver.
  - set_solver.
  - done.
  - rewrite size_swap; [|set_solver|set_solver].
    rewrite size_difference, size_singleton by set_solver. lia.
  - replace ({[b]} ∪ ({[r]} ∪ R ∖ {[b]} ∖ {[v]})) with ({[r]} ∪ R ∖ {[v]}); [done|].
    apply set_eq. intros z. destruct (decide (z = b)); set_solver.
  - exists n', S''. split; [|apply le_n_S, Hle, Hfar; done].
    replace ({[r]} ∪ R ∖ {[b]}) with ({[v]} ∪ ({[r]} ∪ R ∖ {[b]} ∖ {[v]})); [done|].
    apply set_eq. intros z. destruct (decide (z = v)); set_solver.
Qed.

(** ** Victim selection of [optimal] *)
Section Victim.
Context (g : glob) (Hg : wf_glob g).

Lemma aft_scan_spec p n j :
  j + n = ref_num g -> aft_scan g p j n = Ret (j + next_use (drop j (refs g)) p).
Proof.
  revert j. induction n as [|n IH]; intros j Hj; cbn [aft_scan].
  - rewrite drop_ge by (rewrite (length_refs g Hg); lia). cbn. by rewrite Nat.add_0_r.
  - destruct (refs_lookup g Hg j) as (r & Hr & -> & Hrf & _); [lia|]. cbn [mbind outcome_bind].
    rewrite (drop_S _ _ _ Hrf). cbn [next_use]. case_decide; [by rewrite Nat.add_0_r|].
    rewrite IH by lia. f_equal. lia.
Qed.

(** What the outer loop has found among the first [i] frames. *)
Definition best_so_far (start : nat) (pf : list Z) (i max : nat) (max_idx : Z) : Prop :=
  let nu j := next_use (drop start (refs g)) (default 0%Z (pf !! j)) in
  (max_idx = (-1)%Z /\ max = start /\ forall j, j < i -> nu j = 0) \/
  (exists m, m < i /\ max_idx = Z.of_nat m /\ max = start + nu m /\ forall j, j < i -> nu j <= nu m).

Lemma find_farthest_aft_loop_spec start pf i n max max_idx :
  start <= ref_num g -> i + n <= length pf -> 0 < i + n ->
  best_so_far start pf i max max_idx ->
  exists v, find_farthest_aft_loop g start pf i n max max_idx = Ret (Z.of_nat v) /\ v < i + n /\
    forall j, j < i + n ->
      next_use (drop start (refs g)) (default 0%Z (pf !! j)) <=
      next_use (drop start (refs g)) (default 0%Z (pf !! v)).
Proof.
  revert i max max_idx. induction n as [|n IH]; intros i max max_idx Hst Hlen Hpos Hbest;
    cbn [find_farthest_aft_loop].
  - rewrite Nat.add_0_r in *. destruct Hbest as [(-> & _ & Hz)|(m & Hm & -> & _ & Hmax)].
    + exists 0. split_and!; [done|lia|]. intros j Hj. rewrite Hz by done. lia.
    + exists m. rewrite decide_False by lia. auto.
  - destruct (rd_lt pf i) as (p & Hp & ->); [lia|]. cbn [mbind outcome_bind].
    rewrite aft_scan_spec by lia. cbn [mbind outcome_bind].
    pose proof (next_use_le (drop start (refs g)) p) as Hle.
    rewrite length_drop, (length_refs g Hg) in Hle.
    set (nu := next_use (drop start (refs g)) p) in *.
    destruct (decide (start + nu = ref_num g)) as [Heq|Hne].
    + exists i.
      split_and!; [by repeat case_decide|lia|].
      intros j Hj. rewrite Hp. cbn. fold nu. pose proof (next_use_le (drop start (refs g)) (default 0%Z (pf !! j))) as H1.
      rewrite length_drop, (length_refs g Hg) in H1. lia.
    + rewrite decide_True by lia.
      assert (Hb : let '(max', idx') := if decide (max < start + nu) then (start + nu, Z.of_nat i)
                   else (max, max_idx) in best_so_far start pf (S i) max' idx').
      { case_decide as Hd.
        - right. exists i. rewrite Hp. cbn. fold nu. split_and!; [lia|done|done|].
          intros j Hj. destruct (decide (j = i)) as [->|]; [rewrite Hp; cbn; fold nu; lia|].
          destruct Hbest as [(_ & -> & Hz)|(m & Hm & _ & -> & Hmax)];
            [rewrite Hz by lia; lia|]. specialize (Hmax j ltac:(lia)). lia.
        - destruct Hbest as [(-> & -> & Hz)|(m & Hm & -> & -> & Hmax)].
          + left. split_and!; [done|done|]. intros j Hj.
            destruct (decide (j = i)) as [->|]; [rewrite Hp; cbn; fold nu; lia|]. apply Hz. lia.
          + right. exists m. split_and!; [lia|done|done|]. intros j Hj.
            destruct (decide (j = i)) as [->|]; [rewrite Hp; cbn; fold nu; lia|]. apply Hmax. lia. }
      destruct (if decide (max < start + nu) then _ else _) as [max' idx'].
      destruct (IH (S i) max' idx') as (v & Hv & Hlt & Hfar); [lia|lia|lia|done|].
      exists v. split_and!; [done|lia|]. intros j Hj. apply Hfar. lia.
Qed.

(** The invariant against a competing run that faults [N] times: what is left
    of the string can be served from the current frames within the budget. *)
Definition opt_J (N : nat) (i : nat) (pf : list Z) (faults occ : nat) (_ : unit) : Prop :=
  exists m S', dsteps (pf_num g) (drop i (refs g)) (list_to_set (take occ pf)) m S' /\
    faults + m <= N.

Lemma optimal_ok N : PolicyOk g (optimal_policy g) (opt_J N).
Proof.
  pose proof (wf_pf _ Hg) as Hk. constructor; cbn.
  - intros i f [] r h Hf (m & S' & Hm & Hle) Hr Hh Hp. rewrite (drop_S _ _ _ Hr) in Hm.
    assert (r ∈ (list_to_set (resident f) : gset Z)) as Hin.
    { apply elem_of_list_to_set, elem_of_resident. eauto. }
    inversion Hm as [|? ? T c S1 n S2 Hs Hw]; subst.
    inversion Hs; subst; [|done|done]. exists n, S'. auto.
  - intros i f [] r Hf (m & S' & Hm & Hle) _ Hr Hin Hlt. rewrite (drop_S _ _ _ Hr) in Hm.
    pose proof (size_resident g _ _ Hf) as Hsz. unfold resident in *. pose proof (fo_len _ _ _ Hf).
    inversion Hm as [|? ? T c S1 n S2 Hs Hw]; subst.
    inversion Hs; subst; [by rewrite elem_of_list_to_set in *| |lia]. exists n, S'. split; [|lia].
    erewrite take_S_r by (apply list_lookup_insert_eq; lia).
    rewrite take_insert_ge, list_to_set_app_L by lia.
    replace (list_to_set (take (occupied f) (page_frame f)) ∪ list_to_set [data r])
      with ({[data r]} ∪ list_to_set (take (occupied f) (page_frame f)) : gset Z) by set_solver.
    done.
  - intros i f [] r Hf (m & S' & Hm & Hle) _ Hr Hin Hocc. rewrite (drop_S _ _ _ Hr) in Hm.
    pose proof (size_resident g _ _ Hf) as Hsz. pose proof (fo_len _ _ _ Hf) as Hlen.
    pose proof (fo_nodup _ _ _ Hf) as Hnd. unfold resident in *.
    rewrite take_ge in Hm, Hsz, Hnd by lia.
    apply lookup_lt_Some in Hr as Hi. rewrite (length_refs g Hg) in Hi.
    destruct (find_farthest_aft_loop_spec (i + 1) (page_frame f) 0 (pf_num g) (i + 1) (-1)%Z)
      as (v & Hv & Hvk & Hfar); [lia|lia|lia|left; split_and!; [done|done|lia]|].
    unfold find_farthest_aft_idx. rewrite Hv. cbn. rewrite Nat2Z.id.
    split; [done|]. destruct (lookup_lt_is_Some_2 (page_frame f) v) as [b Hb]; [lia|].
    destruct (evict_farthest _ _ _ _ _ _ b Hm) as (n' & S'' & Hn & Hle').
    + by rewrite elem_of_list_to_set.
    + lia.
    + apply elem_of_list_to_set, list_elem_of_lookup. eauto.
    + intros p Hp. apply elem_of_list_to_set, list_elem_of_lookup in Hp as [j Hj].
      specialize (Hfar j). rewrite Hb, Hj, Nat.add_1_r in Hfar. apply Hfar.
      apply lookup_lt_Some in Hj. lia.
    + exists n', S''. split; [|lia].
      rewrite take_ge by (rewrite length_insert; lia). by rewrite (insert_set _ _ b).
Qed.
End Victim.
End Opt.
