(* ===== verification/PageThms.v ===== *)
(** * The page replacement simulator: theorems

    What each algorithm of [src/page replacement/main.c] computes, from the
    loop invariants of [PageSafe], [PageLru] and [PageOptimal]. *)
From S2P Require Export PageLru PageOptimal.

Module PageThms.
Import Page Algos Spec Skel Safe Lru Opt.

Section Whole.
Context (g : glob) (Hg : wf_glob g).

(** From the loop to the whole algorithm: the initial print, the loop and the
    final count all return. *)
Lemma whole_ok {X St} (P : policy X) J (φ : St -> X * frames) body (mk : frames -> St) x0 o :
  PolicyOk g P J ->
  (forall i s, paging_body g P i (φ s) = φ <$> body i s) ->
  (forall f, φ (mk f) = (x0, f)) ->
  J 0 (replicate (pf_num g) (-1)%Z) 0 0 x0 ->
  returns
    (o ← print_page_frame g (replicate (pf_num g) (-1)%Z) "" o;
     t ← for_ 0 (ref_num g) body (mk (mkFrames (replicate (pf_num g) (-1)%Z) 0 0 o));
     o ← print_page_fault g (page_fault (snd (φ t))) (out (snd (φ t)));
     Ret (mkFrames (page_frame (snd (φ t))) (page_fault (snd (φ t))) (occupied (snd (φ t))) o))
    (fun s => frames_ok g (ref_num g) s /\
              exists x, J (ref_num g) (page_frame s) (page_fault s) (occupied s) x).
Proof.
  intros HP Hskel Hmk HJ.
  destruct (print_frames_ok g Hg 0 (mkFrames (replicate (pf_num g) (-1)%Z) 0 0 o) "" o)
    as [o1 Ho1]; [apply frames_ok_init; auto|cbn; lia|].
  cbn [page_frame] in Ho1. rewrite Ho1. cbn [mbind outcome_bind].
  pose proof (paging_loop g P Hg J x0 o1 HJ) as Hl. rewrite <- Hmk in Hl.
  rewrite (for_map φ body _ Hskel) in Hl.
  destruct (for_ 0 (ref_num g) body _) as [t| | |]; [|done..].
  cbn [mbind outcome_bind]. destruct Hl as [Hf HJ'].
  pose proof (dsteps_le _ _ _ _ _ (fo_run _ _ _ Hf)) as Hle.
  rewrite length_take, (length_refs g Hg) in Hle.
  pose proof (wf_ref _ Hg). pose proof (wf_max _ Hg).
  destruct (print_page_fault_ok g (page_fault (snd (φ t))) (out (snd (φ t)))) as [o2 ->]; [lia|lia|].
  cbn. split; [by destruct Hf|]. by exists (fst (φ t)).
Qed.

Lemma fifo_whole o : returns (fifo g o) (fun s => frames_ok g (ref_num g) s /\
  exists x, fifo_J g (ref_num g) (page_frame s) (page_fault s) (occupied s) x).
Proof.
  apply (whole_ok (fifo_policy g) (fifo_J g) (pair tt) (fifo_body g) (fun f => f) tt);
    [by apply fifo_ok|apply fifo_skel|done|].
  cbn. split_and!; try done; try lia. constructor.
Qed.

Lemma lifo_whole o : returns (lifo g o) (fun s => frames_ok g (ref_num g) s /\
  exists x, lifo_J g (ref_num g) (page_frame s) (page_fault s) (occupied s) x).
Proof.
  apply (whole_ok lifo_policy (lifo_J g) (pair tt) (lifo_body g) (fun f => f) tt);
    [by apply lifo_ok|apply lifo_skel|done|done].
Qed.

Lemma lru_whole o : returns (lru g o) (fun s => frames_ok g (ref_num g) s /\
  exists x, lru_J g (ref_num g) (page_frame s) (page_fault s) (occupied s) x).
Proof.
  apply (whole_ok (lru_policy g) (lru_J g) (pair tt) (lru_body g) (fun f => f) tt);
    [by apply lru_ok|apply lru_skel|done|].
  split_and!; [change (length (mru (take 0 (refs g)))) with 0; lia|done|].
  intros p. change (mru (take 0 (refs g))) with (@nil Z). by rewrite take_nil.
Qed.

Lemma optimal_whole N S' o : dsteps (pf_num g) (refs g) ∅ N S' ->
  returns (optimal g o) (fun s => frames_ok g (ref_num g) s /\
    exists x, opt_J g N (ref_num g) (page_frame s) (page_fault s) (occupied s) x).
Proof.
  intros HN.
  apply (whole_ok (optimal_policy g) (opt_J g N) (pair tt) (optimal_body g) (fun f => f) tt);
    [by apply optimal_ok|apply optimal_skel|done|]. by exists N, S'.
Qed.

Lemma lru2_whole o : returns (lru2 g o) (fun s => frames_ok g (ref_num g) s /\
  exists x, lru2_J g (ref_num g) (page_frame s) (page_fault s) (occupied s) x).
Proof.
  apply (whole_ok (lru2_policy g) (lru2_J g) lru2_state (lru2_body g)
           (mkLru2 (replicate (pf_num g) 0) 0) (replicate (pf_num g) 0, 0));
    [by apply lru2_ok|apply lru2_skel|done|].
  split_and!; cbn; [done|by rewrite length_replicate|lia|].
  intros j Hj. apply lookup_replicate_2. lia.
Qed.

Lemma lfu_whole o : returns (lfu g o) (fun s => frames_ok g (ref_num g) s /\
  exists x, lfu_J g (ref_num g) (page_frame s) (page_fault s) (occupied s) x).
Proof.
  apply (whole_ok (lfu_policy g) (lfu_J g) lfu_state (lfu_body g)
           (mkLfu (replicate (pf_num g) 0)) (replicate (pf_num g) 0));
    [by apply lfu_ok|apply lfu_skel|done|].
  split_and!; [by rewrite length_replicate| |].
  - rewrite sum_list_replicate. lia.
  - intros j x Hj. apply lookup_replicate in Hj as [-> _]. lia.
Qed.

Lemma sc_whole o : returns (sc g o) (fun s => frames_ok g (ref_num g) s /\
  exists x, sc_J g (ref_num g) (page_frame s) (page_fault s) (occupied s) x).
Proof.
  apply (whole_ok (sc_policy g) (sc_J g) sc_state (sc_body g)
           (mkSc 0 (replicate (pf_num g) 0%Z)) (0, replicate (pf_num g) 0%Z));
    [by apply sc_ok|apply sc_skel|done|].
  pose proof (wf_pf _ Hg). split; cbn; [lia|]. by rewrite length_replicate.
Qed.

Lemma esc_whole o : returns (esc g o) (fun s => frames_ok g (ref_num g) s /\
  exists x, esc_J g (ref_num g) (page_frame s) (page_fault s) (occupied s) x).
Proof.
  apply (whole_ok (esc_policy g) (esc_J g) esc_state (esc_body g)
           (mkEsc (replicate (pf_num g) 0) 0 (replicate (pf_num g) 0%Z) (replicate (pf_num g) 0%Z))
           (replicate (pf_num g) 0, 0, replicate (pf_num g) 0%Z, replicate (pf_num g) 0%Z));
    [by apply esc_ok|apply esc_skel|done|].
  split_and!; rewrite ?length_replicate; try done; apply Forall_replicate; by left.
Qed.

(** A run of demand paging over the whole string, with its faults. *)
Definition demand_run (s : frames) : Prop :=
  exists R, dsteps (pf_num g) (refs g) ∅ (page_fault s) R.

Lemma frames_ok_run s : frames_ok g (ref_num g) s -> demand_run s.
Proof.
  intros Hf. exists (list_to_set (resident s)). pose proof (fo_run _ _ _ Hf) as H.
  rewrite take_ge in H; [done|]. rewrite (length_refs g Hg). lia.
Qed.

(** Some run exists: the one of FIFO. *)
Lemma some_run : exists N R, dsteps (pf_num g) (refs g) ∅ N R.
Proof.
  pose proof (fifo_whole (mkIo "" "")) as H.
  apply returns_Ret in H as (s & _ & Hf & _). destruct (frames_ok_run s Hf) as [R HR]. eauto.
Qed.
End Whole.

(** The algorithms of the program. *)
Definition algorithms : list (glob -> io -> outcome frames) :=
  [optimal; fifo; lifo; lru; lru2; lfu; sc; esc].

Lemma algorithms_ok g alg o :
  wf_glob g -> In alg algorithms -> returns (alg g o) (frames_ok g (ref_num g)).
Proof.
  intros Hg Halg. destruct (some_run g Hg) as (N & R & HR).
  assert (forall (m : outcome frames) (Q : frames -> Prop),
    returns m (fun s => frames_ok g (ref_num g) s /\ Q s) -> returns m (frames_ok g (ref_num g))) as Hw.
  { intros m Q. apply returns_mono. intros s Hs. apply Hs. }
  destruct Halg as [<-|[<-|[<-|[<-|[<-|[<-|[<-|[<-|[]]]]]]]]].
  - eapply Hw, (optimal_whole g Hg N R o HR).
  - eapply Hw, (fifo_whole g Hg o).
  - eapply Hw, (lifo_whole g Hg o).
  - eapply Hw, (lru_whole g Hg o).
  - eapply Hw, (lru2_whole g Hg o).
  - eapply Hw, (lfu_whole g Hg o).
  - eapply Hw, (sc_whole g Hg o).
  - eapply Hw, (esc_whole g Hg o).
Qed.


(** ** Optimality *)

(** C8. With [pf_num] frames, [optimal] returns (no out-of-bounds access, no
    uninitialised read, no overflow of the print buffer), what it does is a
    run of demand paging, and no run of demand paging over the same reference
    string, with whatever choice of victims, has fewer page faults. *)
Theorem optimal_is_optimal g o :
  wf_glob g ->
  returns (optimal g o) (fun s => demand_run g s /\
    forall N R, dsteps (pf_num g) (refs g) ∅ N R -> page_fault s <= N).
Proof.
  intros Hg. destruct (some_run g Hg) as (N0 & R0 & HR0).
  pose proof (optimal_whole g Hg N0 R0 o HR0) as H0.
  apply returns_Ret in H0 as (s & Hs & Hf & _). rewrite Hs. split; [by apply frames_ok_run|].
  intros N R HR. pose proof (optimal_whole g Hg N R o HR) as H. rewrite Hs in H.
  destruct H as [_ (_ & m & R' & _ & Hle)]. lia.
Qed.


(** ** LRU *)

(** The two implementations of LRU, the one that searches the reference
    string backwards ([lru]) and the one with time stamps ([lru2]), are
    equivalent: same frames at the end, same page faults and the same text
    printed. *)
Theorem lru_lru2_equivalent g o : wf_glob g -> lru g o = lru2 g o.
Proof.
  intros Hg. unfold lru, lru2. cbn [page_frame out init_frames].
  destruct (print_page_frame _ _ _ _) as [o1| | |]; cbn [mbind outcome_bind]; [|done..].
  set (f0 := mkFrames _ 0 0 o1).
  pose proof (for_sim (loop_inv g (lru2_J g)) (fun s => (tt, snd s))
    (paging_body g (lru2_policy g)) (paging_body g (lru_policy g)) 0 (ref_num g)
    (replicate (pf_num g) 0, 0, f0)) as Hsim.
  cbn [snd] in Hsim.
  change (replicate (pf_num g) 0, 0, f0)
    with (lru2_state (mkLru2 (replicate (pf_num g) 0) 0 f0)) in Hsim.
  rewrite (for_map lru2_state (lru2_body g) _ (lru2_skel g)) in Hsim.
  rewrite (for_map (pair tt) (lru_body g) _ (lru_skel g)) in Hsim.
  assert (forall (A : outcome frames) (B : outcome lru2_st), pair tt <$> A = (fun s => (tt, snd s)) <$> (lru2_state <$> B) ->
            A = l2_f <$> B) as Hinj.
  { intros [a| | |] [b| | |] H; unfold fmap, outcome_fmap in *; cbn in *; congruence. }
  apply Hinj in Hsim; [rewrite Hsim; clear; by destruct (for_ _ _ (lru2_body g) _)| |].
  - split; [by apply frames_ok_init|]. split_and!; cbn; [done|by rewrite length_replicate|lia|].
    intros j Hj. apply lookup_replicate_2. lia.
  - intros i [x f] Hi [Hf HJ]. split.
    + apply paging_body_ok; [done|by apply lru2_ok|lia|done].
    + apply lru_body_lru2; [done..|lia].
Qed.

(** LRU keeps the most recently used pages: at the end the resident pages
    are the first [pf_num] of the recency list of the string, and the faults
    are the references to a page outside of them. *)
Theorem lru_keeps_most_recent g o :
  wf_glob g ->
  returns (lru g o) (fun s =>
    page_fault s = mru_faults (pf_num g) [] (refs g) /\
    forall p, p ∈ resident s <-> p ∈ take (pf_num g) (mru (refs g))).
Proof.
  intros Hg. eapply returns_mono; [|by apply lru_whole].
  intros s [Hf (_ & _ & Hfl & Hset)].
  rewrite (take_ge (refs g)) in Hfl, Hset by (rewrite (length_refs g Hg); lia). done.
Qed.

(** LRU has no Belady anomaly: on the same reference string, more frames
    never give more page faults. *)
Theorem lru_no_anomaly g1 g2 o :
  wf_glob g1 -> wf_glob g2 -> refs g1 = refs g2 -> pf_num g1 <= pf_num g2 ->
  returns (lru g1 o) (fun s1 => returns (lru g2 o) (fun s2 => page_fault s2 <= page_fault s1)).
Proof.
  intros H1 H2 Hr Hk. eapply returns_mono; [|by apply lru_whole]. intros s1 [Hf1 (_ & _ & Hfl1 & _)].
  eapply returns_mono; [|by apply lru_whole]. intros s2 [Hf2 (_ & _ & Hfl2 & _)].
  rewrite take_ge in Hfl1 by (by rewrite length_refs).
  rewrite take_ge in Hfl2 by (by rewrite length_refs). rewrite Hfl1, Hfl2, Hr.
  by apply mru_faults_mono.
Qed.

(** ** FIFO and LIFO *)

(** FIFO refines a queue: the frames hold the queue of the abstract FIFO
    (a hit leaves it alone, a miss appends the page and, when the queue is
    full, drops the head), laid out cyclically from the frame
    [(page_fault - occupied) mod pf_num] of the oldest page. *)
Theorem fifo_refines_queue g o :
  wf_glob g ->
  returns (fifo g o) (fun s =>
    let q := foldl (fifo_q (pf_num g)) [] (refs g) in
    length q = occupied s /\ NoDup q /\
    forall j, j < occupied s ->
      page_frame s !! ((page_fault s - occupied s + j) mod pf_num g) = q !! j).
Proof.
  intros Hg. eapply returns_mono; [|by apply fifo_whole]. intros s [Hf [x HJ]].
  unfold fifo_J in HJ. rewrite (take_ge (refs g)) in HJ by (rewrite (length_refs g Hg); lia). naive_solver.
Qed.

(** LIFO refines a stack: the occupied frames are the abstract stack, in
    which a miss replaces the newest page once the frames are full. *)
Theorem lifo_refines_stack g o :
  wf_glob g ->
  returns (lifo g o) (fun s => resident s = foldl (lifo_q (pf_num g)) [] (refs g)).
Proof.
  intros Hg. eapply returns_mono; [|by apply lifo_whole]. intros s [Hf [x HJ]].
  unfold lifo_J in HJ. by rewrite (take_ge (refs g)) in HJ by (rewrite (length_refs g Hg); lia).
Qed.

(** ** Victim selection of LFU, SC and ESC *)

(** A miss of [lfu] with all frames in use replaces the page of the first
    frame with the least counter and increments that counter: the counter of
    a frame is not reset with its page, so a page starts with the count its
    frame has accumulated. *)
Theorem lfu_evicts_least g i s r :
  wf_glob g -> frames_ok g i (lf_f s) -> length (lf_counter s) = pf_num g ->
  i < ref_num g -> references g !! i = Some r -> data r ∉ resident (lf_f s) ->
  occupied (lf_f s) = pf_num g ->
  returns (lfu_body g i s) (fun s' => exists v x,
    argmin_of (pf_num g) (fun j => default 0 (lf_counter s !! j)) 0 v /\
    lf_counter s !! v = Some x /\
    lf_counter s' = <[v:=S x]> (lf_counter s) /\
    page_frame (lf_f s') = <[v:=data r]> (page_frame (lf_f s)) /\
    page_fault (lf_f s') = S (page_fault (lf_f s))).
Proof.
  intros Hg Hf Hlen Hi Hr Hin Hfull. destruct s as [c f]. cbn [lf_counter lf_f] in *.
  destruct (refs_lookup g Hg i Hi) as (r' & Hr' & Hrd & Hrf & Hpos). simplify_eq.
  pose proof (wf_pf _ Hg) as Hpf.
  unfold lfu_body. cbn [lf_counter lf_f]. rewrite Hrd. cbn [mbind outcome_bind].
  destruct (check_hit_spec g i f (data r) Hf) as [(h & _ & _ & Hc & _)|[_ ->]]; [lia|done|].
  cbn [mbind outcome_bind]. rewrite decide_False by lia. rewrite decide_True by lia.
  pose proof (min_counter_spec g c Hlen ltac:(lia)) as Hm.
  apply returns_Ret in Hm as (v & -> & Hv). cbn [mbind outcome_bind].
  rewrite wr_lt by (rewrite (fo_len _ _ _ Hf); apply Hv). cbn [mbind outcome_bind].
  destruct (incr_spec c v) as (x & Hx & ->); [rewrite Hlen; apply Hv|]. cbn [mbind outcome_bind].
  pose proof (frames_ok_evict g Hg i f (data r) v (out f) Hf Hrf Hin ltac:(lia) (proj1 Hv)) as Hf'.
  destruct (print_frames_ok g Hg _ _ "" (out f) Hf') as [o Ho]; [cbn; lia|].
  cbn [page_frame] in Ho. rewrite Ho. cbn. exists v, x. naive_solver.
Qed.

(** The scan of second chance terminates within [pf_num] clearings from
    any reference bits and stops at the first frame, in circular order from
    [head], whose bit is clear, or at [head] itself when all are set; the bits
    it has passed are cleared and the others are kept. *)
Theorem sc_scan_terminates g head rbit :
  head < pf_num g -> length rbit = pf_num g ->
  exists d, scan_dist g head rbit d /\
    sc_scan g (S (pf_num g)) head rbit = Ret ((head + d) mod pf_num g, clear_bits g head d rbit).
Proof.
  intros Hh Hlen. destruct (scan_dist_exists g head rbit) as [d Hd]; [lia|done|].
  exists d. split; [done|]. by apply sc_scan_spec.
Qed.

(** The victim of enhanced second chance has the least class among all
    the frames (00, then 01, 10, 11); it is the frame least recently used when
    no frame has a smaller class, and otherwise the first frame, from frame 0,
    of the least class. *)
Theorem esc_victim_least_class g head rbit wbit :
  head < pf_num g -> length rbit = pf_num g -> length wbit = pf_num g ->
  Forall is_bit rbit -> Forall is_bit wbit ->
  returns (get_high_priority_idx g head rbit wbit)
    (argmin_of (pf_num g) (class_at rbit wbit) head).
Proof. apply get_high_priority_idx_spec. Qed.

(** ** The dispatcher *)

Lemma run_algorithm_ok g n o : wf_glob g -> exists o', run_algorithm g n o = Ret o'.
Proof.
  intros Hg.
  assert (forall alg, In alg algorithms -> exists o', out <$> alg g o = Ret o') as H.
  { intros alg Ha. pose proof (algorithms_ok g alg o Hg Ha) as Hr.
    apply returns_Ret in Hr as (s & -> & _). eauto. }
  unfold run_algorithm.
  destruct n as [|[[[p|p|]|[p|p|]|]|[[p|p|]|[p|p|]|]|]|]; eauto; apply H; cbn; auto 10.
Qed.

(** [simulate] returns for one or two selected algorithms and for "all",
    but for three selected algorithms its loop [algorithm\[i\] != 0] reads
    [algorithm\[3\]], past the end of the array of three elements. *)
Theorem simulate_selection g o a b c :
  wf_glob g -> (1 <= a <= 7)%Z -> (1 <= b <= 7)%Z -> (1 <= c <= 7)%Z ->
  (exists o', simulate g [8; 0; 0]%Z o = Ret o') /\
  (exists o', simulate g [a; 0; 0]%Z o = Ret o') /\
  (exists o', simulate g [a; b; 0]%Z o = Ret o') /\
  simulate g [a; b; c]%Z o = Undef "array read out of bounds".
Proof.
  intros Hg Ha Hb Hc.
  assert (Hrun := fun n o => run_algorithm_ok g n o Hg).
  assert (forall n (k : io -> outcome io) (P : outcome io -> Prop),
    (forall o, P (k o)) -> forall o, P (run_algorithm g n o ≫= k)) as Hb'.
  { intros n k P HP o'. destruct (Hrun n o') as [o1 ->]. apply HP. }
  unfold simulate. cbn [rd lookup list_lookup mbind outcome_bind length simulate_loop].
  split_and!.
  - do 6 (apply (Hb' _ _ (fun m => exists o', m = Ret o')); intros ?). apply Hrun.
  - rewrite decide_False by lia. cbn. rewrite decide_False by lia.
    apply (Hb' _ _ (fun m => exists o', m = Ret o')). intros o1. cbn. eauto.
  - rewrite decide_False by lia. cbn. rewrite decide_False by lia.
    apply (Hb' _ _ (fun m => exists o', m = Ret o')). intros o1. cbn. rewrite decide_False by lia.
    apply (Hb' _ _ (fun m => exists o', m = Ret o')). intros o2. cbn. eauto.
  - rewrite decide_False by lia. cbn. rewrite decide_False by lia.
    apply (Hb' _ _ (fun m => m = Undef _)). intros o1. cbn. rewrite decide_False by lia.
    apply (Hb' _ _ (fun m => m = Undef _)). intros o2. cbn. rewrite decide_False by lia.
    by apply (Hb' _ _ (fun m => m = Undef _)).
Qed.

(** ** Concrete runs *)

(** Belady's reference string with [k] frames. *)
Definition belady (k : nat) : glob :=
  mkGlob k true 12 ((fun d => mkPsr d 0) <$> [1; 2; 3; 4; 1; 2; 5; 1; 2; 3; 4; 5]%Z).

Definition io0 : io := mkIo "" "".

Lemma belady_wf k : 3 <= k <= 10 -> wf_glob (belady k).
Proof.
  intros Hk. constructor; cbn; [done|lia|unfold MAX; lia|]. repeat (constructor; [cbn; lia|]). constructor.
Qed.

(** OPTIMAL has 7 faults on it with 3 frames, FIFO 9; FIFO with 4 frames has
    10 (Belady's anomaly), LRU goes from 10 to 8. *)
Example belady_faults :
  (page_fault <$> optimal (belady 3) io0, page_fault <$> fifo (belady 3) io0,
   page_fault <$> fifo (belady 4) io0, page_fault <$> lru (belady 3) io0,
   page_fault <$> lru (belady 4) io0)
  = (Ret 7, Ret 9, Ret 10, Ret 10, Ret 8).
Proof. vm_compute. reflexivity. Qed.

Lemma optimal_is_optimal_witness :
  wf_glob (belady 3) /\
  returns (optimal (belady 3) io0) (fun s => demand_run (belady 3) s /\
    forall N R, dsteps 3 (refs (belady 3)) ∅ N R -> page_fault s <= N).
Proof. split; [apply belady_wf; lia|]. apply (optimal_is_optimal (belady 3) io0). apply belady_wf. lia. Defined.


Lemma lru_lru2_equivalent_witness : lru (belady 4) io0 = lru2 (belady 4) io0.
Proof. apply (lru_lru2_equivalent (belady 4) io0). apply belady_wf. lia. Defined.

Lemma lru_keeps_most_recent_witness :
  returns (lru (belady 3) io0) (fun s =>
    page_fault s = mru_faults 3 [] (refs (belady 3)) /\
    forall p, p ∈ resident s <-> p ∈ take 3 (mru (refs (belady 3)))).
Proof. apply (lru_keeps_most_recent (belady 3) io0). apply belady_wf. lia. Defined.

Lemma lru_no_anomaly_witness :
  returns (lru (belady 3) io0) (fun s1 =>
    returns (lru (belady 4) io0) (fun s2 => page_fault s2 <= page_fault s1)).
Proof.
  apply (lru_no_anomaly (belady 3) (belady 4) io0);
    [apply belady_wf; lia|apply belady_wf; lia|reflexivity|cbn; lia].
Defined.

Lemma fifo_refines_queue_witness :
  returns (fifo (belady 3) io0) (fun s =>
    let q := foldl (fifo_q 3) [] (refs (belady 3)) in
    length q = occupied s /\ NoDup q /\
    forall j, j < occupied s ->
      page_frame s !! ((page_fault s - occupied s + j) mod 3) = q !! j).
Proof. apply (fifo_refines_queue (belady 3) io0). apply belady_wf. lia. Defined.

Lemma lifo_refines_stack_witness :
  returns (lifo (belady 3) io0) (fun s => resident s = foldl (lifo_q 3) [] (refs (belady 3))).
Proof. apply (lifo_refines_stack (belady 3) io0). apply belady_wf. lia. Defined.

(** The state of [lfu] after three references of [belady 3]. *)
Definition lfu_state3 : lfu_st := mkLfu [1; 1; 1] (mkFrames [1; 2; 3]%Z 3 3 io0).

Lemma lfu_state3_ok : frames_ok (belady 3) 3 (lf_f lfu_state3).
Proof.
  constructor; cbn; try done.
  - repeat (constructor; [set_solver|]). constructor.
  - change 3 with (1 + (1 + (1 + 0))).
    apply (dsteps_cons _ _ _ _ _ ({[1]} ∪ ∅)%Z); [apply dstep_cold; [set_solver|vm_compute; lia]|].
    apply (dsteps_cons _ _ _ _ _ ({[2]} ∪ ({[1]} ∪ ∅))%Z); [apply dstep_cold; [set_solver|vm_compute; lia]|].
    apply (dsteps_cons _ _ _ _ _ ({[1]} ∪ ({[2]} ∪ ({[3]} ∪ ∅)))%Z); [|apply dsteps_nil].
    replace ({[1]} ∪ ({[2]} ∪ ({[3]} ∪ ∅)) : gset Z)%Z
      with ({[3]} ∪ ({[2]} ∪ ({[1]} ∪ ∅)) : gset Z)%Z by set_solver.
    apply dstep_cold; [set_solver|vm_compute; lia].
Qed.

Lemma lfu_evicts_least_witness :
  returns (lfu_body (belady 3) 3 lfu_state3) (fun s' => exists v x,
    argmin_of 3 (fun j => default 0 ([1; 1; 1] !! j)) 0 v /\
    [1; 1; 1] !! v = Some x /\
    lf_counter s' = <[v:=S x]> [1; 1; 1] /\
    page_frame (lf_f s') = <[v:=4%Z]> [1; 2; 3]%Z /\
    page_fault (lf_f s') = 4).
Proof.
  apply (lfu_evicts_least (belady 3) 3 lfu_state3 (mkPsr 4 0));
    [apply belady_wf; lia|apply lfu_state3_ok|reflexivity|cbn; lia|reflexivity|set_solver|reflexivity].
Defined.

Lemma sc_scan_terminates_witness :
  exists d, scan_dist (belady 3) 1 [1; 1; 1]%Z d /\
    sc_scan (belady 3) 4 1 [1; 1; 1]%Z = Ret ((1 + d) mod 3, clear_bits (belady 3) 1 d [1; 1; 1]%Z).
Proof. apply (sc_scan_terminates (belady 3) 1 [1; 1; 1]%Z); [cbn; lia|reflexivity]. Defined.

Lemma esc_victim_least_class_witness :
  returns (get_high_priority_idx (belady 3) 2 [1; 0; 1]%Z [0; 1; 1]%Z)
    (argmin_of 3 (class_at [1; 0; 1]%Z [0; 1; 1]%Z) 2).
Proof.
  apply (esc_victim_least_class (belady 3) 2); [cbn; lia|reflexivity|reflexivity| |];
    repeat (constructor; [unfold is_bit; lia|]); constructor.
Defined.

Lemma simulate_selection_witness :
  simulate (belady 3) [1; 2; 3]%Z io0 = Undef "array read out of bounds".
Proof.
  apply (simulate_selection (belady 3) io0 1 2 3); [apply belady_wf; lia|lia|lia|lia].
Defined.
End PageThms.
