(* ===== verification/PageMenu.v ===== *)
(** * Page replacement simulator: options and input

    Models the rest of [src/page replacement/main.c]: the menu
    ([choose_option], [tokenize], [error]), the reading of the reference string
    ([get_data_entry]) and [main].  Standard input is the list of its
    characters; [fgets], [strtok] and the conversions of [scanf] that the
    program uses are written out.  The prompts are not modelled.  [exit] is
    [Panic] with the message printed before it. *)
From S2P Require Export PageThms.

Module PageMenu.
Import Page Algos Spec PageThms.
Local Open Scope Z_scope.

(** ** The input functions of the C library *)

Definition is_space (c : Z) : Prop := 9 <= c <= 13 \/ c = 32.
Global Instance is_space_dec c : Decision (is_space c).
Proof. unfold is_space. apply _. Defined.
Definition is_digit (c : Z) : Prop := 48 <= c <= 57.
Global Instance is_digit_dec c : Decision (is_digit c).
Proof. unfold is_digit. apply _. Defined.

(** [fgets] with room for [n] characters: up to and including a newline. *)
Fixpoint fgets (n : nat) (s : list Z) : list Z * list Z :=
  match n, s with
  | S n, c :: s => if decide (c = 10) then ([c], s) else let '(l, s) := fgets n s in (c :: l, s)
  | _, _ => ([], s)
  end.

Fixpoint skip_space (s : list Z) : list Z :=
  match s with
  | c :: s' => if decide (is_space c) then skip_space s' else s
  | [] => []
  end.
Fixpoint digits (acc : Z) (s : list Z) : Z * list Z :=
  match s with
  | c :: s' => if decide (is_digit c) then digits (10 * acc + (c - 48)) s' else (acc, s)
  | [] => (acc, [])
  end.

(** The conversion [%d]: [None] when the input does not match.  A number that
    [int] does not represent is undefined. *)
Definition scan_int (s : list Z) : outcome (option Z * list Z) :=
  let s := skip_space s in
  let '(neg, s) := match s with 45 :: s => (true, s) | 43 :: s => (false, s) | _ => (false, s) end in
  match s with
  | c :: _ =>
      if decide (is_digit c) then
        let '(n, s) := digits 0 s in
        let n := if (neg : bool) then - n else n in
        if decide (- 2 ^ 31 <= n < 2 ^ 31) then Ret (Some n, s) else Undef "scanf: number out of range"
      else Ret (None, s)
  | [] => Ret (None, [])
  end.

(** The conversion [" %c"]. *)
Definition scan_char (s : list Z) : option Z * list Z :=
  match skip_space s with
  | c :: s => (Some c, s)
  | [] => (None, [])
  end.

(** The conversion [%s]. *)
Fixpoint word (s : list Z) : list Z :=
  match s with
  | c :: s => if decide (is_space c) then [] else c :: word s
  | [] => []
  end.

Fixpoint before_nul (s : list Z) : list Z :=
  match s with
  | c :: s => if decide (c = 0) then [] else c :: before_nul s
  | [] => []
  end.

(** ** [tokenize] *)

(** The words between the delimiters of [strtok]. *)
Fixpoint strtok (word s : list Z) : list (list Z) :=
  let flush := if decide (word = []) then [] else [reverse word] in
  match s with
  | [] => flush
  | c :: s => if decide (c = 32) then flush ++ strtok [] s else strtok (c :: word) s
  end.

(** [argv] has four entries. *)
Definition tokenize (input : list Z) : outcome (list (list Z)) :=
  let argv := strtok [] input in
  if decide (4 < length argv)%nat then Undef "tokenize: argv out of bounds" else Ret argv.

(** ** [choose_option] *)

Record options := mkOptions {
  algorithm : list Z;
  o_pf_num : Z;
  o_rd : bool;
  o_ref_num : Z;
  o_save : bool
}.

Definition error {A} (s : string) : outcome A := Panic ("ERROR: " +:+ s).

Fixpoint scan_algorithms (argv : list (list Z)) : outcome (list Z) :=
  match argv with
  | [] => Ret []
  | w :: argv =>
      '(n, _) ← scan_int w;
      match n with
      | None => Panic "sscanf error"
      | Some n =>
          if decide (n < 1 \/ 8 < n) then error "algorithm number"
          else ns ← scan_algorithms argv; Ret (n :: ns)
      end
  end.

(** The first question; the characters after the ninth stay in the input. *)
Definition choose_algorithms (s : list Z) : outcome (list Z * list Z) :=
  let '(line, s) := fgets 9 s in
  let input := before_nul line in
  if decide (line = []) then Undef "fgets: end of file"
  else if decide (input = []) then Undef "input[-1]"
  else
    argv ← tokenize (take (length input - 1) input);
    if decide (length argv = 4)%nat then Undef "argv[4]"
    else if decide (argv = []) then Panic ""
    else
      a ← scan_algorithms argv;
      if decide ((2 <= length a)%nat /\ 8 ∈ a) then error "at most 3 algorithms"
      else Ret (a, s).

(** [do scanf("%d", &i) while (!(i == 1 || i == 2))]; [i] starts uninitialised.
    A [scanf] that does not match leaves [i] and the input, so that the loop
    never ends.  Every round that matches consumes a character. *)
Fixpoint ask_method (fuel : nat) (i : option Z) (s : list Z) : outcome (Z * list Z) :=
  match fuel with
  | O => Hang "fuel"
  | S fuel =>
      '(n, s) ← scan_int s;
      match n, i with
      | Some n, _ => if decide (n = 1 \/ n = 2) then Ret (n, s) else ask_method fuel (Some n) s
      | None, None => Undef "i is uninitialised"
      | None, Some _ => Hang "choose_option"
      end
  end.

(** [do scanf(" %c", &c) while (!(c is one of YyNn))]. *)
Fixpoint ask_yes_no (fuel : nat) (c : Z) (s : list Z) : outcome (Z * list Z) :=
  match fuel with
  | O => Hang "fuel"
  | S fuel =>
      let '(n, s') := scan_char s in
      let c := default c n in
      if decide (c ∈ [89; 121; 78; 110]) then Ret (c, s')
      else match n with Some _ => ask_yes_no fuel c s' | None => Hang "choose_option" end
  end.

(** [fopen_ok]: [output.txt] can be opened for writing. *)
Definition choose_option (fopen_ok : bool) (s : list Z) : outcome (options * list Z) :=
  '(a, s) ← choose_algorithms s;
  '(n, s) ← scan_int s;
  let pf := default 0 n in
  if decide (pf < 3 \/ 10 < pf) then error "page frame number"
  else
    '(i, s) ← ask_method (S (length s)) None s;
    '(n, s) ← (if decide (i = 2) then Ret (None, s) else scan_int s);
    let rd := bool_decide (i <> 2) in
    let ref_num := default 0 n in
    if decide (rd = true /\ ref_num < 500) then error "data entry number"
    else
      '(c, s) ← ask_yes_no (S (length s)) 121 s;
      let save := bool_decide (c = 89 \/ c = 121) in
      if decide (save = true /\ fopen_ok = false) then Panic "fopen error with output.txt"
      else
        '(c, s) ← ask_yes_no (S (length s)) c s;
        if decide (c = 89 \/ c = 121) then Panic ""
        else Ret (mkOptions a pf rd ref_num save, s).

(** ** [get_data_entry] *)

Section Data.
(** The results of the calls of [rand]; the complete records of the file of a
    name, [None] when it cannot be opened; what the last, incomplete read leaves
    in [p]. *)
Context (rand : nat -> Z) (file : list Z -> option (list psr)) (p : psr).

Definition random_entry (i : nat) : psr := mkPsr (rand (2 * i)%nat `rem` 29 + 1) (rand (2 * i + 1)%nat `rem` 2).
Definition entry_line (r : psr) : string := pretty (data r) +:+ tab +:+ pretty (rw r) +:+ newline.

(** Entries are stored one by one; the array has [MAX]. *)
Definition stored (l : list psr) : outcome (list psr) :=
  if decide (MAX < Z.of_nat (length l)) then Undef "references out of bounds" else Ret l.

(** [feof] is only true after a read that failed: the loop runs once more than the
    file has records. *)
Definition get_data_entry (o : options) (stdin : list Z) (out : io) : outcome (glob * io) :=
  let glob_ n refs := mkGlob (Z.to_nat (o_pf_num o)) (o_save o) n refs in
  if o_rd o then
    let refs := random_entry <$> seq 0 (Z.to_nat (o_ref_num o)) in
    refs ← stored refs;
    let g := glob_ (length refs) refs in
    let out := emit g (newline +:+ "[reference string]" +:+ newline) out in
    let out := foldl (fun out r => emit g (entry_line r) out) out refs in
    Ret (g, emit g newline out)
  else
    let fname := word (skip_space stdin) in
    if decide (fname = [] \/ 100 <= length fname)%nat then Undef "fname" else
    match file (before_nul fname) with
    | None => Panic "fopen error"
    | Some l =>
        refs ← stored (l ++ [p]);
        if decide (length refs < 500)%nat then error "data entry number"
        else Ret (glob_ (length refs - 1)%nat refs, out)
    end.

Definition main (fopen_ok : bool) (stdin : list Z) : outcome io :=
  '(o, stdin) ← choose_option fopen_ok stdin;
  '(g, out) ← get_data_entry o stdin (mkIo "" "");
  simulate g (take 3 (algorithm o ++ [0; 0; 0])) out.
End Data.

(** ** What the menu accepts *)

Record opts_ok (fopen_ok : bool) (o : options) : Prop := {
  opt_count : (1 <= length (algorithm o) <= 3)%nat;
  opt_range : Forall (fun n => 1 <= n <= 8) (algorithm o);
  opt_all : 8 ∈ algorithm o -> algorithm o = [8];
  opt_pf : 3 <= o_pf_num o <= 10;
  opt_ref : o_rd o = true -> 500 <= o_ref_num o < 2 ^ 31;
  opt_save : o_save o = true -> fopen_ok = true
}.

Lemma scan_int_range s n s' : scan_int s = Ret (Some n, s') -> - 2 ^ 31 <= n < 2 ^ 31.
Proof. unfold scan_int. intros H. repeat (case_match; simplify_eq/=; try done). Qed.

Lemma digits_length s acc n s' : digits acc s = (n, s') -> (length s' <= length s)%nat.
Proof.
  revert acc. induction s as [|c s IH]; intros acc; cbn; [naive_solver|]. case_decide; [|naive_solver].
  intros H1%IH. lia.
Qed.
Lemma skip_space_length s : (length (skip_space s) <= length s)%nat.
Proof. induction s as [|c s IH]; cbn; [lia|]. case_decide; cbn; lia. Qed.

(** A conversion that matches consumes input. *)
Lemma scan_int_consumes s n s' : scan_int s = Ret (Some n, s') -> (length s' < length s)%nat.
Proof.
  unfold scan_int. pose proof (skip_space_length s) as Hs. set (t := skip_space s) in *. clearbody t.
  set (q := match t with 45 :: s => (true, s) | 43 :: s => (false, s) | _ => (false, t) end).
  assert (Hq : (length q.2 <= length t)%nat) by (unfold q; repeat case_match; cbn; lia). clearbody q. destruct q as [neg u]. cbn in Hq.
  destruct u as [|c u]; [done|]. destruct (decide (is_digit c)) as [Hd|]; [|done]. cbn [digits]. rewrite decide_True by done.
  destruct (digits _ u) as [k v] eqn:E. apply digits_length in E. case_decide; [|done]. intros [= _ <-]. cbn in *. lia.
Qed.

Lemma scan_algorithms_ok argv a : scan_algorithms argv = Ret a -> length a = length argv /\ Forall (fun n => 1 <= n <= 8) a.
Proof.
  revert a. induction argv as [|w argv IH]; intros a; cbn; [intros [= <-]; by constructor|].
  intros ([[n|] s] & _ & H)%bind_Ret; [|done]. destruct (decide (n < 1 \/ 8 < n)); [done|].
  apply bind_Ret in H as (ns & (Hl & Hf)%IH & [= <-]). split; [cbn; congruence|constructor; [lia|done]].
Qed.

Lemma choose_algorithms_ok s a s' : choose_algorithms s = Ret (a, s') ->
  (1 <= length a <= 3)%nat /\ Forall (fun n => 1 <= n <= 8) a /\ (8 ∈ a -> a = [8]).
Proof.
  unfold choose_algorithms. destruct (fgets 9 s) as [line s1]. destruct (decide (line = [])); [done|]. destruct (decide (before_nul line = [])); [done|].
  intros (argv & Ht & H)%bind_Ret. unfold tokenize in Ht. destruct (decide (4 < _)%nat); [done|]. injection Ht as <-.
  destruct (decide (length _ = 4%nat)); [done|]. destruct (decide (strtok _ _ = [])) as [|Hne]; [done|].
  apply bind_Ret in H as (ns & [Hl Hf]%scan_algorithms_ok & H). destruct (decide _) as [|Hn8]; [done|]. injection H as -> <-.
  set (argv := strtok [] _) in *. assert (length argv <> 0)%nat by (destruct argv; done). split; [lia|]. split; [done|].
  intros H8. destruct a as [|x [|y a]]; [by apply elem_of_nil in H8|by apply list_elem_of_singleton in H8 as <-|].
  exfalso. apply Hn8. split; [cbn; lia|done].
Qed.

(** [choose_option] only lets through what the simulator is made for. *)
Lemma choose_option_ok fopen_ok s o s' : choose_option fopen_ok s = Ret (o, s') -> opts_ok fopen_ok o.
Proof.
  unfold choose_option. intros ([a s1] & (Hc & Hr & H8)%choose_algorithms_ok & H)%bind_Ret.
  apply bind_Ret in H as ([n s2] & _ & H). case_decide as Hpf; [done|].
  apply bind_Ret in H as ([i s3] & _ & H). apply bind_Ret in H as ([m s4] & Hm & H). case_decide as Href; [done|].
  apply bind_Ret in H as ([c s5] & _ & H). case_decide as Hsave; [done|].
  apply bind_Ret in H as ([c' s6] & _ & H). case_decide; [done|]. injection H as <- <-.
  constructor; cbn; [done|done|done|lia| |].
  - intros Hrd. apply bool_decide_eq_true in Hrd as Hi. rewrite decide_False in Hm by done. destruct m as [m|]; cbn in *.
    + apply scan_int_range in Hm. split; [|lia]. destruct (decide (m < 500)); [|lia]. exfalso. by apply Href.
    + exfalso. apply Href. split; [done|lia].
  - intros Hs. destruct fopen_ok; [done|]. exfalso. by apply Hsave.
Qed.

(** The loops of the menu go on only while there is input. *)
Lemma ask_method_fuel fuel i s : (length s < fuel)%nat -> ask_method fuel i s <> Hang "fuel".
Proof.
  revert i s. induction fuel as [|fuel IH]; intros i s Hf; [lia|]. cbn [ask_method].
  destruct (scan_int s) as [[n s1]| | |] eqn:E; cbn; try done; [|unfold scan_int in E; repeat (case_match; simplify_eq/=; try done)].
  destruct n as [n|]; [|by destruct i]. destruct (decide _); [done|]. apply IH. apply scan_int_consumes in E. lia.
Qed.

Lemma ask_yes_no_fuel fuel c s : (length s < fuel)%nat -> ask_yes_no fuel c s <> Hang "fuel".
Proof.
  revert c s. induction fuel as [|fuel IH]; intros c s Hf; [lia|]. cbn [ask_yes_no]. unfold scan_char.
  pose proof (skip_space_length s) as Hs. destruct (skip_space s) as [|d s1]; cbn in *; case_decide; [done|done|done|]. apply IH. lia.
Qed.

(** ** [main] *)

Definition data_ok (rand : nat -> Z) (file : list Z -> option (list psr)) (p : psr) (o : options) (stdin : list Z) : Prop :=
  if o_rd o then o_ref_num o <= MAX /\ forall k, 0 <= rand k
  else let fname := word (skip_space stdin) in
    (0 < length fname < 100)%nat /\ exists l, file (before_nul fname) = Some l /\ (499 <= length l)%nat /\ Z.of_nat (length l) < MAX /\ Forall (fun r => 0 <= data r <= 99999999) (l ++ [p]).

Lemma get_data_entry_ok rand file p fopen_ok o stdin out : opts_ok fopen_ok o -> data_ok rand file p o stdin ->
  exists g out', get_data_entry rand file p o stdin out = Ret (g, out') /\ wf_glob g.
Proof.
  intros [_ _ _ Hpf Href _] Hd. unfold data_ok in Hd. unfold get_data_entry. destruct (o_rd o) eqn:Erd.
  - destruct Hd as [Hmax Hrand]. specialize (Href eq_refl). unfold stored. rewrite length_fmap, length_seq, decide_False by lia. cbn [mbind outcome_bind]. eexists _, _. split; [done|].
    constructor; cbn; rewrite ?length_fmap, ?length_seq; [lia|lia|lia|]. apply Forall_fmap, Forall_true. intros i. cbn.
    pose proof (Hrand (i + (i + 0))%nat) as H0. pose proof (Z.rem_bound_pos (rand (i + (i + 0))%nat) 29). lia.
  - destruct Hd as (Hw & l & Hl & Hn & Hm & Hf). rewrite decide_False by (intros [He|He]; [rewrite He in Hw; cbn in Hw; lia|lia]). rewrite Hl.
    assert (Hlen : length (l ++ [p]) = S (length l)) by (rewrite length_app; cbn; lia). unfold stored. rewrite decide_False by lia. cbn [mbind outcome_bind]. rewrite decide_False by lia. eexists _, _. split; [done|].
    constructor; cbn; [lia|lia|lia|done].
Qed.

(** The program works for everything its menu accepts, up to two algorithms
    or all of them: whatever the input, when [choose_option] returns, the choice is of
    one to three algorithms from 1 to 8, or of all, with 3 to 10 frames and at
    least 500 random entries; and when no more than two are chosen and the
    reference string fits in the array, [main] runs every algorithm to its end. *)
Theorem main_runs rand file p fopen_ok stdin o rest :
  choose_option fopen_ok stdin = Ret (o, rest) ->
  opts_ok fopen_ok o /\
  ((length (algorithm o) <= 2)%nat -> data_ok rand file p o rest -> exists out, main rand file p fopen_ok stdin = Ret out).
Proof.
  intros Hc. pose proof (choose_option_ok _ _ _ _ Hc) as Hok. split; [done|]. intros H2 Hd.
  destruct (get_data_entry_ok rand file p fopen_ok o rest (mkIo "" "") Hok Hd) as (g & out & Hg & Hwf).
  unfold main. rewrite Hc. cbn [mbind outcome_bind]. rewrite Hg. cbn [mbind outcome_bind].
  destruct Hok as [H1 Hr H8 _ _ _]. destruct (algorithm o) as [|a [|b [|]]] eqn:Ea; cbn in H1, H2; try lia.
  - rewrite Forall_singleton in Hr. cbn [app take]. destruct (decide (a = 8)) as [->|Hne]; [apply (simulate_selection g out 1 1 1); [done|lia..]|].
    apply (simulate_selection g out a 1 1); [done|lia..].
  - apply Forall_cons in Hr as [Ha Hr]. rewrite Forall_singleton in Hr. cbn [app take].
    assert (a <> 8) by (intros ->; specialize (H8 ltac:(set_solver)); done).
    assert (b <> 8) by (intros ->; specialize (H8 ltac:(set_solver)); done).
    apply (simulate_selection g out a b 1); [done|lia..].
Qed.

(** FIFO and LRU with three frames and 500 random references, not saved. *)
Definition demo_stdin : list Z := [50; 32; 52; 10; 51; 10; 49; 10; 53; 48; 48; 10; 110; 10; 110; 10].
Lemma main_runs_witness :
  choose_option true demo_stdin = Ret (mkOptions [2; 4] 3 true 500 false, [10]) /\
  exists out, main (fun _ => 0) (fun _ => None) (mkPsr 0 0) true demo_stdin = Ret out.
Proof.
  assert (H : choose_option true demo_stdin = Ret (mkOptions [2; 4] 3 true 500 false, [10])) by reflexivity. split; [exact H|].
  apply (main_runs (fun _ => 0) (fun _ => None) (mkPsr 0 0) true demo_stdin _ _ H); [cbn; lia|]. cbn. unfold MAX. split; [lia|done].
Defined.

(** ** What the menu does not catch *)

(** Four words make [argv] too long. *)
Example four_algorithms : choose_option true [49; 32; 50; 32; 51; 32; 52; 10] = Undef "argv[4]".
Proof. reflexivity. Qed.

(** A word where the method is asked for: [i] is uninitialised, or the loop never
    ends. *)
Example method_letter : choose_option true [49; 10; 51; 10; 120; 10] = Undef "i is uninitialised".
Proof. reflexivity. Qed.
Example method_letter_loops : choose_option true [49; 10; 51; 10; 53; 10; 120; 10] = Hang "choose_option".
Proof. reflexivity. Qed.

(** More entries than the array has are accepted by the menu, and a file of 499
    entries by [get_data_entry], which asks for 500. *)
Example too_many_entries rand file p save rest out :
  get_data_entry rand file p (mkOptions [1] 3 true 10001 save) rest out = Undef "references out of bounds".
Proof. unfold get_data_entry, stored. cbn [o_rd o_ref_num]. rewrite length_fmap, length_seq. rewrite decide_True; [done|]. unfold MAX. lia. Qed.

Example file_of_499 : exists g out,
  get_data_entry (fun _ => 0) (fun _ => Some (replicate 499 (mkPsr 1 0))) (mkPsr 1 0) (mkOptions [1] 3 false 0 false) [97; 10] (mkIo "" "") = Ret (g, out) /\ ref_num g = 499%nat.
Proof. eexists _, _. split; reflexivity. Qed.

(** Page numbers of ten digits in ten frames overflow the buffer of the line. *)
Example print_page_frame_overflow o :
  print_page_frame (mkGlob 10 false 0 []) (replicate 10 1000000000) "" o = Undef "sprintf overflows tmp[100]".
Proof. vm_compute. reflexivity. Qed.

(** A reference to page -1 hits a free frame. *)
Example page_minus_one_hits : check_hit (mkGlob 3 false 0 []) (-1) [-1; -1; -1] 0 = Ret 0.
Proof. reflexivity. Qed.

(** ** [random.c] *)

(** A [struct psr] is two little-endian [int]s in the file. *)
Definition int_bytes (z : Z) : list Z :=
  let u := z mod 2 ^ 32 in [u mod 256; u / 256 mod 256; u / 65536 mod 256; u / 16777216 mod 256].
Definition int_of (a b c d : Z) : Z := int32 (a + 256 * b + 65536 * c + 16777216 * d).
Definition psr_bytes (r : psr) : list Z := int_bytes (data r) ++ int_bytes (rw r).

(** The complete records of a file. *)
Fixpoint records (l : list Z) : list psr :=
  match l with
  | a :: b :: c :: d :: e :: f :: g :: h :: l => mkPsr (int_of a b c d) (int_of e f g h) :: records l
  | _ => []
  end.

Definition N : nat := 500.
Definition random_entries (rand : nat -> Z) : list psr := random_entry rand <$> seq 0 N.
(** What [main] of [random.c] writes to [entry.txt]; it then prints the records
    it reads back. *)
Definition entry_file (rand : nat -> Z) : list Z := random_entries rand ≫= psr_bytes.
Definition random_main (rand : nat -> Z) : list Z * string :=
  let f := entry_file rand in
  (f, foldl (fun out r => out +:+ pretty (data r) +:+ " " +:+ pretty (rw r) +:+ newline) "" (take N (records f))).

Lemma int_bytes_of z : - 2 ^ 31 <= z < 2 ^ 31 ->
  let u := z mod 2 ^ 32 in int_of (u mod 256) (u / 256 mod 256) (u / 65536 mod 256) (u / 16777216 mod 256) = z.
Proof. intros Hz. cbn zeta. unfold int_of, int32. Z.div_mod_to_equations. lia. Qed.

Definition psr_ok (r : psr) : Prop := - 2 ^ 31 <= data r < 2 ^ 31 /\ - 2 ^ 31 <= rw r < 2 ^ 31.

Lemma records_bytes l : Forall psr_ok l -> records (l ≫= psr_bytes) = l.
Proof.
  induction 1 as [|[x y] l [Hx Hy] _ IH]; [done|]. cbn [mbind list_bind psr_bytes int_bytes app data rw records] in *.
  rewrite IH. f_equal. f_equal; by apply int_bytes_of.
Qed.

(** The file that [random.c] makes is one that the simulator accepts, with all
    its 500 entries. *)
Theorem entry_file_read rand p out : (forall k, 0 <= rand k) ->
  records (entry_file rand) = random_entries rand /\
  exists g, get_data_entry rand (fun _ => Some (records (entry_file rand))) p (mkOptions [1] 3 false 0 false) [97; 10] out = Ret (g, out) /\
    ref_num g = 500%nat /\ take 500 (references g) = random_entries rand.
Proof.
  intros Hr. assert (Hrec : records (entry_file rand) = random_entries rand).
  { apply records_bytes. unfold random_entries. apply Forall_fmap, Forall_true. intros i. cbn.
    pose proof (Z.rem_bound_pos (rand (2 * i)%nat) 29 (Hr _)). pose proof (Z.rem_bound_pos (rand (2 * i + 1)%nat) 2 (Hr _)).
    unfold psr_ok. cbn in *. lia. }
  split; [done|]. rewrite Hrec. assert (Hl : length (random_entries rand) = 500%nat) by (unfold random_entries; by rewrite length_fmap, length_seq).
  unfold get_data_entry, stored. cbn [o_rd]. change (word (skip_space [97; 10])) with [97]. rewrite (decide_False (P := [97] = [] \/ (100 <= length [97])%nat)) by (cbn; intros [?|?]; [done|lia]).
  rewrite length_app, Hl. cbn [length]. rewrite decide_False by (unfold MAX; lia). cbn [mbind outcome_bind].
  rewrite length_app, Hl. cbn [length]. rewrite decide_False by lia. eexists. split; [done|]. cbn [ref_num references]. split; [done|].
  rewrite take_app_le by lia. by rewrite <- Hl, firstn_all.
Qed.
End PageMenu.
