(* ===== verification/Spinlock.v ===== *)
(** * Spin locks and sleep locks

    Models [src/xv6-public/spinlock.c] and [src/xv6-public/sleeplock.c]: the
    matched interrupt disabling [pushcli]/[popcli], [holding], [acquire] and
    [release] as functions of one CPU and one lock, the same [acquire] and
    [release] as interleaved atomic steps of many CPUs, and the sleep locks
    built on them. *)
From S2P Require Export Prelude.

Module Spin.

(** ** State *)

(** The part of [struct cpu] the locks use, and the interrupt flag [FL_IF] of
    the CPU's [eflags]. *)
Record cpu := mkCpu { ncli : Z; intena : bool; fl_if : bool }.

(** [struct spinlock]; [lcpu] is the CPU recorded in [lk->cpu] (0 is [None]). *)
Record spinlock := mkLock { locked : bool; lcpu : option nat }.

Global Instance cpu_eq_dec : EqDecision cpu.
Proof. solve_decision. Defined.
Global Instance spinlock_eq_dec : EqDecision spinlock.
Proof. solve_decision. Defined.

Definition initlock : spinlock := mkLock false None.

(** ** Operations *)

Definition pushcli (c : cpu) : cpu :=
  mkCpu (ncli c + 1) (if decide (ncli c = 0)%Z then fl_if c else intena c) false.

Definition popcli (c : cpu) : outcome cpu :=
  if fl_if c then Panic "popcli - interruptible"
  else
    let n := (ncli c - 1)%Z in
    if decide (n < 0)%Z then Panic "popcli"
    else Ret (mkCpu n (intena c) (if decide (n = 0)%Z then intena c else false)).

(** [holding] on CPU [me]. *)
Definition holding (me : nat) (lk : spinlock) (c : cpu) : outcome (bool * cpu) :=
  let c := pushcli c in
  let r := locked lk && bool_decide (lcpu lk = Some me) in
  c ← popcli c;
  Ret (r, c).

(** [acquire]: when another CPU has the lock, the [xchg] loop spins. *)
Definition acquire (me : nat) (lk : spinlock) (c : cpu) : outcome (spinlock * cpu) :=
  let c := pushcli c in
  '(r, c) ← holding me lk c;
  if (r : bool) then Panic "acquire"
  else if locked lk then Hang "acquire: lock held by another CPU"
  else Ret (mkLock true (Some me), c).

Definition release (me : nat) (lk : spinlock) (c : cpu) : outcome (spinlock * cpu) :=
  '(r, c) ← holding me lk c;
  if (r : bool) then c ← popcli c; Ret (mkLock false None, c)
  else Panic "release".

(** ** Sleep locks *)

(** [struct sleeplock]. *)
Record sleeplock := mkSleep { slocked : bool; slk : spinlock; spid : Z }.

Definition initsleeplock : sleeplock := mkSleep false initlock 0.

(** An operation that may have to wait: it is done, or it has gone to sleep on
    a channel, to be tried again when woken up. *)
Inductive waiting (A : Type) : Type :=
  | Done (a : A)
  | Sleeps (a : A).
Arguments Done {A} a.
Arguments Sleeps {A} a.

(** One pass of [acquiresleep] for process [pid]: [sleep] releases the inner
    spin lock. *)
Definition acquiresleep (me : nat) (pid : Z) (l : sleeplock) (c : cpu)
    : outcome (waiting (sleeplock * cpu)) :=
  '(k, c) ← acquire me (slk l) c;
  if slocked l then
    '(k, c) ← release me k c;
    Ret (Sleeps (mkSleep (slocked l) k (spid l), c))
  else
    '(k, c) ← release me k c;
    Ret (Done (mkSleep true k pid, c)).

(** [releasesleep]; the [wakeup] of the waiters is in [Proc]. *)
Definition releasesleep (me : nat) (l : sleeplock) (c : cpu) : outcome (sleeplock * cpu) :=
  '(k, c) ← acquire me (slk l) c;
  '(k, c) ← release me k c;
  Ret (mkSleep false k 0, c).

Definition holdingsleep (me : nat) (pid : Z) (l : sleeplock) (c : cpu)
    : outcome (bool * (sleeplock * cpu)) :=
  '(k, c) ← acquire me (slk l) c;
  let r := slocked l && bool_decide (spid l = pid) in
  '(k, c) ← release me k c;
  Ret (r, (mkSleep (slocked l) k (spid l), c)).

(** ** Interleaved execution on many CPUs

    One lock, any number of CPUs; the program counter of a CPU tells which
    atomic step of [acquire] or [release] is next. *)
Inductive pc : Type :=
  | Idle        (* outside *)
  | ACheck (nested : bool)
                (* acquire: before holding(lk); [nested] when the caller is
                   already in its critical section *)
  | ASpin       (* acquire: before the xchg *)
  | ASetCpu     (* acquire: the xchg returned 0, before lk->cpu = mycpu() *)
  | Crit        (* acquire has returned *)
  | RCheck      (* release: before holding(lk) *)
  | RClear      (* release: before lk->cpu = 0 *)
  | RUnlock     (* release: before locked = 0 *)
  | Panicked (nested : bool).

Record machine := mkMachine { m_lock : spinlock; m_pc : nat -> pc }.

Definition set_pc (m : machine) (i : nat) (p : pc) : nat -> pc :=
  fun j => if decide (j = i) then p else m_pc m j.

Definition holds (l : spinlock) (i : nat) : bool := locked l && bool_decide (lcpu l = Some i).

Inductive mstep : machine -> machine -> Prop :=
  | st_acquire m i : m_pc m i = Idle ->
      mstep m (mkMachine (m_lock m) (set_pc m i (ACheck false)))
  | st_reacquire m i : m_pc m i = Crit ->
      mstep m (mkMachine (m_lock m) (set_pc m i (ACheck true)))
  | st_check m i b : m_pc m i = ACheck b ->
      mstep m (mkMachine (m_lock m)
                 (set_pc m i (if holds (m_lock m) i then Panicked b else ASpin)))
  | st_spin m i : m_pc m i = ASpin -> locked (m_lock m) = true -> mstep m m
  | st_xchg m i : m_pc m i = ASpin -> locked (m_lock m) = false ->
      mstep m (mkMachine (mkLock true (lcpu (m_lock m))) (set_pc m i ASetCpu))
  | st_setcpu m i : m_pc m i = ASetCpu ->
      mstep m (mkMachine (mkLock (locked (m_lock m)) (Some i)) (set_pc m i Crit))
  | st_release m i : m_pc m i = Crit ->
      mstep m (mkMachine (m_lock m) (set_pc m i RCheck))
  | st_rcheck m i : m_pc m i = RCheck ->
      mstep m (mkMachine (m_lock m)
                 (set_pc m i (if holds (m_lock m) i then RClear else Panicked false)))
  | st_clear m i : m_pc m i = RClear ->
      mstep m (mkMachine (mkLock (locked (m_lock m)) None) (set_pc m i RUnlock))
  | st_unlock m i : m_pc m i = RUnlock ->
      mstep m (mkMachine (mkLock false (lcpu (m_lock m))) (set_pc m i Idle)).

Inductive reachable : machine -> Prop :=
  | reach_init : reachable (mkMachine initlock (fun _ => Idle))
  | reach_step m m' : reachable m -> mstep m m' -> reachable m'.

(** The program counters at which a CPU owns the lock, and those at which it is
    recorded in [lk->cpu]. *)
Definition owns (p : pc) : bool :=
  match p with
  | ASetCpu | Crit | RCheck | RClear | RUnlock | ACheck true | Panicked true => true
  | _ => false
  end.
Definition recorded (p : pc) : bool :=
  match p with
  | Crit | RCheck | RClear | ACheck true | Panicked true => true
  | _ => false
  end.

(** ** Matched interrupt disabling *)

(** Interrupts are off while a lock is held. *)
Definition cpu_ok (c : cpu) : Prop :=
  (0 <= ncli c)%Z /\ ((0 < ncli c)%Z -> fl_if c = false).

Lemma pushcli_ok c : cpu_ok c -> cpu_ok (pushcli c).
Proof. intros [H1 H2]. split; cbn; [lia|done]. Qed.

(** A [popcli] undoes a [pushcli]: the nesting depth and the interrupt flag are
    what they were, and so is [intena] inside a critical section. *)
Lemma pushcli_popcli c :
  cpu_ok c -> popcli (pushcli c) =
    Ret (mkCpu (ncli c) (if decide (ncli c = 0)%Z then fl_if c else intena c) (fl_if c)).
Proof.
  intros [H1 H2]. unfold popcli, pushcli. cbn. rewrite decide_False by lia.
  replace (ncli c + 1 - 1)%Z with (ncli c) by lia. f_equal. f_equal.
  case_decide; [done|]. symmetry. apply H2. lia.
Qed.

Lemma holding_spec me lk c :
  cpu_ok c -> holding me lk c =
    Ret (holds lk me, mkCpu (ncli c) (if decide (ncli c = 0)%Z then fl_if c else intena c) (fl_if c)).
Proof. intros Hc. unfold holding. by rewrite pushcli_popcli. Qed.

Lemma acquire_free me c :
  cpu_ok c -> acquire me initlock c = Ret (mkLock true (Some me), pushcli c).
Proof.
  intros Hc. unfold acquire. rewrite holding_spec by by apply pushcli_ok. cbn.
  rewrite decide_False by (destruct Hc; lia). done.
Qed.

Lemma release_held me c :
  cpu_ok c -> release me (mkLock true (Some me)) (pushcli c) =
    Ret (initlock, mkCpu (ncli c) (if decide (ncli c = 0)%Z then fl_if c else intena c) (fl_if c)).
Proof.
  intros Hc. unfold release. rewrite holding_spec by by apply pushcli_ok.
  unfold holds. cbn [locked lcpu andb mbind outcome_bind]. rewrite bool_decide_eq_true_2 by done.
  pose proof (pushcli_popcli c Hc) as H. unfold pushcli in *. cbn [ncli intena fl_if] in *.
  rewrite decide_False by (destruct Hc; lia). rewrite H. done.
Qed.

(** ** Mutual exclusion *)

(** The invariant of the interleaved executions. *)
Record lock_inv (m : machine) : Prop := {
  li_unique i j : owns (m_pc m i) = true -> owns (m_pc m j) = true -> i = j;
  li_locked : locked (m_lock m) = true <-> exists i, owns (m_pc m i) = true;
  li_cpu i : lcpu (m_lock m) = Some i <-> recorded (m_pc m i) = true;
  li_panic i : m_pc m i <> Panicked false
}.

Lemma set_pc_same m i p : set_pc m i p i = p.
Proof. unfold set_pc. by rewrite decide_True. Qed.

Lemma set_pc_other m i j p : j <> i -> set_pc m i p j = m_pc m j.
Proof. intros. unfold set_pc. by rewrite decide_False. Qed.

Lemma recorded_owns p : recorded p = true -> owns p = true.
Proof. by destruct p as [|[]| | | | | | |[]]. Qed.

(** A step that changes neither the lock nor whether CPU [i] owns it. *)
Lemma lock_inv_move m i p :
  lock_inv m -> owns p = owns (m_pc m i) -> recorded p = recorded (m_pc m i) ->
  p <> Panicked false -> lock_inv (mkMachine (m_lock m) (set_pc m i p)).
Proof.
  intros [Hu Hl Hc Hp] Ho Hr Hne.
  assert (forall j, owns (set_pc m i p j) = owns (m_pc m j)) as Hoj.
  { intros j. destruct (decide (j = i)) as [->|]; [by rewrite set_pc_same|by rewrite set_pc_other]. }
  assert (forall j, recorded (set_pc m i p j) = recorded (m_pc m j)) as Hrj.
  { intros j. destruct (decide (j = i)) as [->|]; [by rewrite set_pc_same|by rewrite set_pc_other]. }
  constructor; cbn.
  - intros a b. rewrite !Hoj. apply Hu.
  - setoid_rewrite Hoj. done.
  - intros j. rewrite Hrj. apply Hc.
  - intros j. destruct (decide (j = i)) as [->|]; [by rewrite set_pc_same|by rewrite set_pc_other].
Qed.

(** A step of the only owner, or of a CPU that takes the free lock. *)
Lemma lock_inv_owner m i p l :
  lock_inv m -> (forall j, owns (m_pc m j) = true -> j = i) ->
  p <> Panicked false -> locked l = owns p ->
  lcpu l = (if recorded p then Some i else None) ->
  lock_inv (mkMachine l (set_pc m i p)).
Proof.
  intros [Hu Hl Hc Hp] Honly Hne Hlk Hcpu. constructor; cbn.
  - intros a b Ha Hb. destruct (decide (a = i)) as [->|], (decide (b = i)) as [->|];
      rewrite ?set_pc_other in * by done; try done; exfalso; naive_solver.
  - rewrite Hlk. split.
    + intros Ho. exists i. by rewrite set_pc_same.
    + intros [j Hj]. destruct (decide (j = i)) as [->|]; [by rewrite set_pc_same in Hj|].
      rewrite set_pc_other in Hj by done. naive_solver.
  - intros j. rewrite Hcpu. destruct (decide (j = i)) as [->|].
    + rewrite set_pc_same. by destruct (recorded p).
    + rewrite set_pc_other by done. split; [destruct (recorded p); congruence|].
      intros Hr. apply recorded_owns in Hr. naive_solver.
  - intros j. destruct (decide (j = i)) as [->|]; [by rewrite set_pc_same|by rewrite set_pc_other].
Qed.

(** [holding] is exact. *)
Lemma lock_inv_holds m i : lock_inv m -> holds (m_lock m) i = recorded (m_pc m i).
Proof.
  intros [Hu Hl Hc Hp]. unfold holds. case_bool_decide as Hd.
  - apply Hc in Hd as Hr. rewrite Hr, andb_true_r. apply Hl. exists i. by apply recorded_owns.
  - rewrite andb_false_r. destruct (recorded (m_pc m i)) eqn:Hr; [|done]. by apply Hc in Hr.
Qed.

Lemma lock_inv_step m m' : lock_inv m -> mstep m m' -> lock_inv m'.
Proof.
  intros Hinv Hs. pose proof Hinv as [Hu Hl Hc Hp].
  assert (Howner : forall i, owns (m_pc m i) = true -> forall j, owns (m_pc m j) = true -> j = i).
  { intros i Hi j Hj. by apply Hu. }
  destruct Hs as [m i H|m i H|m i b H|m i H Hlk|m i H Hlk|m i H|m i H|m i H|m i H|m i H].
  - apply lock_inv_move; rewrite ?H; done.
  - apply lock_inv_move; rewrite ?H; done.
  - rewrite (lock_inv_holds m i Hinv). rewrite H. destruct b; apply lock_inv_move; rewrite ?H; done.
  - done.
  - apply lock_inv_owner; try done.
    + intros j Hj. exfalso. assert (false = true); [|done]. rewrite <- Hlk. apply Hl. eauto.
    + cbn. destruct (lcpu (m_lock m)) as [j|] eqn:Hj; [|done]. exfalso.
      pose proof (recorded_owns _ (proj1 (Hc j) eq_refl)).
      assert (false = true); [|done]. rewrite <- Hlk. apply Hl. eauto.
  - apply lock_inv_owner; try done; [apply Howner; by rewrite H|].
    cbn. apply Hl. exists i. by rewrite H.
  - apply lock_inv_move; rewrite ?H; done.
  - rewrite (lock_inv_holds m i Hinv). rewrite H. apply lock_inv_move; rewrite ?H; done.
  - apply lock_inv_owner; try done; [apply Howner; by rewrite H|].
    cbn. apply Hl. exists i. by rewrite H.
  - apply lock_inv_owner; try done; [apply Howner; by rewrite H|].
    cbn. destruct (lcpu (m_lock m)) as [j|] eqn:Hj; [|done]. exfalso.
    pose proof (proj1 (Hc j) eq_refl) as Hr. pose proof (recorded_owns _ Hr) as Ho.
    assert (j = i) as -> by (apply Howner; [by rewrite H|done]). by rewrite H in Hr.
Qed.

Lemma reachable_inv m : reachable m -> lock_inv m.
Proof.
  induction 1 as [|m m' _ IH Hs].
  - constructor; cbn; try done. split; [done|by intros [i Hi]].
  - by eapply lock_inv_step.
Qed.

(** C10. Under every interleaving of [acquire] and [release] on any number of
    CPUs, at most one CPU is in its critical section, [locked] is set exactly
    when some CPU owns the lock, [release] by the owner never panics, and
    [acquire] panics only when the CPU already holds the lock. *)
Theorem spinlock_mutual_exclusion m :
  reachable m ->
  (forall i j, m_pc m i = Crit -> m_pc m j = Crit -> i = j) /\
  (locked (m_lock m) = true <-> exists i, owns (m_pc m i) = true) /\
  (forall i, m_pc m i <> Panicked false) /\
  (forall i, m_pc m i = RCheck -> holds (m_lock m) i = true) /\
  (forall i, m_pc m i = ACheck false -> holds (m_lock m) i = false).
Proof.
  intros Hr. apply reachable_inv in Hr. pose proof Hr as [Hu Hl Hc Hp]. split_and!; try done.
  - intros i j Hi Hj. apply Hu; [by rewrite Hi|by rewrite Hj].
  - intros i Hi. rewrite lock_inv_holds, Hi; done.
  - intros i Hi. rewrite lock_inv_holds, Hi; done.
Qed.

Lemma spinlock_mutual_exclusion_witness :
  exists m, reachable m /\ m_pc m 0 = Crit /\ forall i, m_pc m i = Crit -> i = 0.
Proof.
  set (m0 := mkMachine initlock (fun _ => Idle)).
  set (m1 := mkMachine (m_lock m0) (set_pc m0 0 (ACheck false))).
  set (m2 := mkMachine (m_lock m1) (set_pc m1 0 (if holds (m_lock m1) 0 then Panicked false else ASpin))).
  set (m3 := mkMachine (mkLock true (lcpu (m_lock m2))) (set_pc m2 0 ASetCpu)).
  set (m4 := mkMachine (mkLock (locked (m_lock m3)) (Some 0)) (set_pc m3 0 Crit)).
  assert (reachable m4) as Hr.
  { apply (reach_step m3); [|by apply st_setcpu].
    apply (reach_step m2); [|by apply st_xchg].
    apply (reach_step m1); [|by apply st_check].
    apply (reach_step m0); [constructor|by apply st_acquire]. }
  exists m4. split; [exact Hr|]. split; [reflexivity|].
  intros i Hi. destruct (spinlock_mutual_exclusion m4 Hr) as [H _]. by apply H.
Defined.

(** A critical section of a CPU leaves its interrupt state as it found it:
    [acquire] of a free lock disables interrupts and takes the lock,
    [release] frees it and restores the nesting depth and the interrupt flag;
    acquiring again inside panics, and releasing a lock that is not held
    panics. *)
Theorem acquire_release_roundtrip me c :
  cpu_ok c ->
  exists c1, acquire me initlock c = Ret (mkLock true (Some me), c1) /\
    fl_if c1 = false /\ ncli c1 = (ncli c + 1)%Z /\ cpu_ok c1 /\
    acquire me (mkLock true (Some me)) c1 = Panic "acquire" /\
    release me initlock c = Panic "release" /\
    exists c2, release me (mkLock true (Some me)) c1 = Ret (initlock, c2) /\
      ncli c2 = ncli c /\ fl_if c2 = fl_if c /\ ((0 < ncli c)%Z -> intena c2 = intena c).
Proof.
  intros Hc. exists (pushcli c). split_and!; [by apply acquire_free|done|done|by apply pushcli_ok| | |].
  - unfold acquire. rewrite holding_spec by by apply pushcli_ok, pushcli_ok.
    unfold holds. cbn. by rewrite bool_decide_eq_true_2.
  - unfold release. by rewrite holding_spec.
  - eexists. split; [by apply release_held|]. cbn. split_and!; [done|done|].
    intros. by rewrite decide_False by lia.
Qed.

Lemma acquire_release_roundtrip_witness :
  let c := mkCpu 0 false true in
  exists c1, acquire 3 initlock c = Ret (mkLock true (Some 3), c1) /\
    fl_if c1 = false /\ ncli c1 = 1%Z /\ cpu_ok c1 /\
    acquire 3 (mkLock true (Some 3)) c1 = Panic "acquire" /\
    release 3 initlock c = Panic "release" /\
    exists c2, release 3 (mkLock true (Some 3)) c1 = Ret (initlock, c2) /\
      ncli c2 = 0%Z /\ fl_if c2 = true /\ ((0 < 0)%Z -> intena c2 = false).
Proof. apply (acquire_release_roundtrip 3 (mkCpu 0 false true)). split; cbn; lia. Defined.

(** ** Sleep locks *)

(** Sleep locks: while a process holds one, another process that tries goes
    to sleep and the lock is unchanged; [holdingsleep] is true for the holder
    only; after [releasesleep] the lock can be taken.  All of them leave the
    inner spin lock free and the interrupt state as they found it. *)
Theorem sleeplock_protocol me pid pid' c :
  cpu_ok c -> ncli c = 0%Z -> intena c = fl_if c -> pid <> pid' ->
  acquiresleep me pid initsleeplock c = Ret (Done (mkSleep true initlock pid, c)) /\
  acquiresleep me pid' (mkSleep true initlock pid) c = Ret (Sleeps (mkSleep true initlock pid, c)) /\
  holdingsleep me pid (mkSleep true initlock pid) c = Ret (true, (mkSleep true initlock pid, c)) /\
  holdingsleep me pid' (mkSleep true initlock pid) c = Ret (false, (mkSleep true initlock pid, c)) /\
  releasesleep me (mkSleep true initlock pid) c = Ret (initsleeplock, c).
Proof.
  intros Hc Hn Hi Hp. unfold acquiresleep, holdingsleep, releasesleep, initsleeplock. cbn [slk slocked spid].
  rewrite acquire_free by done. cbn [mbind outcome_bind].
  rewrite release_held by done. cbn [mbind outcome_bind].
  rewrite decide_True by done. destruct c as [n i f]. cbn in *. subst.
  rewrite bool_decide_eq_true_2, bool_decide_eq_false_2 by done. done.
Qed.

Lemma sleeplock_protocol_witness :
  let c := mkCpu 0 true true in
  acquiresleep 0 7 initsleeplock c = Ret (Done (mkSleep true initlock 7, c)) /\
  acquiresleep 0 8 (mkSleep true initlock 7) c = Ret (Sleeps (mkSleep true initlock 7, c)) /\
  holdingsleep 0 7 (mkSleep true initlock 7) c = Ret (true, (mkSleep true initlock 7, c)) /\
  holdingsleep 0 8 (mkSleep true initlock 7) c = Ret (false, (mkSleep true initlock 7, c)) /\
  releasesleep 0 (mkSleep true initlock 7) c = Ret (initsleeplock, c).
Proof. apply (sleeplock_protocol 0 7 8 (mkCpu 0 true true)); [split; cbn; lia|done|done|lia]. Defined.
End Spin.

(** ** Data protected by a spin lock

    The shape of most kernel tables: a lock, the CPU that runs the code, and the
    data the lock protects. *)
Module Locked.
Import Spin.

Record guarded (D : Type) := mkL { l_lock : spinlock; l_cpu : cpu; l_data : D }.
Arguments mkL {D}.
Arguments l_lock {D}.
Arguments l_cpu {D}.
Arguments l_data {D}.

Section Ops.
Context {D : Type} (me : nat).

Definition lk_acquire : stm (guarded D) unit := fun s =>
  '(l, c) ← acquire me (l_lock s) (l_cpu s); Ret (tt, mkL l c (l_data s)).
Definition lk_release : stm (guarded D) unit := fun s =>
  '(l, c) ← release me (l_lock s) (l_cpu s); Ret (tt, mkL l c (l_data s)).
Definition getd : stm (guarded D) D := fun s => Ret (l_data s, s).
Definition setd (d : D) : stm (guarded D) unit := fun s => Ret (tt, mkL (l_lock s) (l_cpu s) d).

(** The state outside the critical section, and inside. *)
Definition free (b : bool) (d : D) : guarded D := mkL initlock (mkCpu 0 b b) d.
Definition held (b : bool) (d : D) : guarded D := mkL (mkLock true (Some me)) (mkCpu 1 b false) d.

Lemma wp_lk_acquire b d (Q : unit -> guarded D -> Prop) : Q tt (held b d) -> wp lk_acquire Q (free b d).
Proof.
  intros HQ. unfold wp, lk_acquire, free. cbn [l_lock l_cpu]. rewrite acquire_free by (split; cbn; lia). exact HQ.
Qed.

Lemma wp_lk_release b d (Q : unit -> guarded D -> Prop) : Q tt (free b d) -> wp lk_release Q (held b d).
Proof.
  intros HQ. unfold wp, lk_release, held. cbn [l_lock l_cpu].
  change (mkCpu 1 b false) with (pushcli (mkCpu 0 b b)). rewrite release_held by (split; cbn; lia). exact HQ.
Qed.

Lemma wp_getd s (Q : D -> guarded D -> Prop) : Q (l_data s) s -> wp getd Q s.
Proof. exact id. Qed.

Lemma wp_setd_held b d d' (Q : unit -> guarded D -> Prop) : Q tt (held b d') -> wp (setd d') Q (held b d).
Proof. exact id. Qed.

Lemma wp_setd_free b d d' (Q : unit -> guarded D -> Prop) : Q tt (free b d') -> wp (setd d') Q (free b d).
Proof. exact id. Qed.

End Ops.
Arguments free {D}.

(** Symbolic execution of code on locked data. *)
Ltac lk_step :=
  cbv beta iota;
  lazymatch goal with
  | |- wp (mbind _ _) _ _ => apply wp_bind
  | |- wp (mret _) _ _ => apply wp_ret
  | |- wp (lk_acquire _) _ _ => apply wp_lk_acquire
  | |- wp (lk_release _) _ _ => apply wp_lk_release
  | |- wp getd _ _ => apply wp_getd; cbn [l_data held free]
  | |- wp (setd _) _ _ => first [apply wp_setd_held | apply wp_setd_free]
  end.
Ltac lk_steps := repeat lk_step.
End Locked.
