(* ===== verification/ProcDefs.v ===== *)
(** * Processes: the process table and its operations

    Models [src/xv6-public/proc.c] and [proc.h], and the scheduler of
    [src/update scheduler/proc.c].  The process table, its lock, the counters
    and the CPU are one state; each function is a computation of the state
    monad [proc_m], the kernel services it calls in other files ([kalloc],
    [copyuvm], [filedup], ...) are the operations of the class [KernelEnv].

    A function that gives up the CPU is split where it calls [swtch]: [sched]
    and what precedes it, the part of [scheduler] after [swtch] ([..._tail]),
    the part before ([..._pick]), and what the resumed process does first
    ([resume]). *)
From S2P Require Export Spinlock.

Module Proc.
Import Spin.

(** ** Data *)

Definition NPROC : nat := 64.
Definition NOFILE : nat := 16.
Definition TIME_SLICE : Z := 10000000.
Definition PGSIZE : Z := 4096.

Inductive procstate := UNUSED | EMBRYO | SLEEPING | RUNNABLE | RUNNING | ZOMBIE.
Global Instance procstate_eq_dec : EqDecision procstate.
Proof. solve_decision. Defined.

(** What a process sleeps on: nothing, the address of a [struct proc], or
    another kernel address. *)
Inductive channel := NoChan | CProc (i : nat) | CAddr (a : Z).
Global Instance channel_eq_dec : EqDecision channel.
Proof. solve_decision. Defined.

(** Where the saved kernel context of a process continues: in [forkret], or
    after the call of [sched] in [yield], in [sleep] with a lock other than
    [ptable.lock], in [sleep] called by [wait], or in [exit]. *)
Inductive kcontext := CtxNone | CtxForkret | CtxYield | CtxSleep | CtxWait | CtxExit.
Global Instance kcontext_eq_dec : EqDecision kcontext.
Proof. solve_decision. Defined.

(** The registers of [struct trapframe] the kernel sets or reads. *)
Record trapframe := mkTf { eax : Z; esp : Z; eip : Z; eflags : Z; cs : Z; ds : Z; es : Z; ss : Z }.
Global Instance trapframe_eq_dec : EqDecision trapframe.
Proof. solve_decision. Defined.
Definition tf0 : trapframe := mkTf 0 0 0 0 0 0 0 0.

(** [np->tf->eax = 0]. *)
Definition clear_eax (t : trapframe) : trapframe :=
  mkTf 0 (esp t) (eip t) (eflags t) (cs t) (ds t) (es t) (ss t).

(** [struct proc]; a pointer to an entry of the table is its index, a null
    pointer [None] or 0.  [k_intena] is the local of [sched] kept on the
    kernel stack of the process. *)
Record proc := mkProc {
  sz : Z;
  pgdir : Z;
  kstack : Z;
  state : procstate;
  pid : Z;
  parent : option nat;
  tf : trapframe;
  context : kcontext;
  chan : channel;
  killed : bool;
  ofile : list (option nat);
  cwd : option nat;
  name : string;
  trace : Z;
  priority : Z;
  weight : Z;
  k_intena : bool
}.
Global Instance proc_eq_dec : EqDecision proc.
Proof. solve_decision. Defined.

Definition proc0 : proc :=
  mkProc 0 0 0 UNUSED 0 None tf0 CtxNone NoChan false (replicate NOFILE None) None "" 0 0 0 false.

Definition set_sz v p := mkProc v (pgdir p) (kstack p) (state p) (pid p) (parent p) (tf p) (context p) (chan p) (killed p) (ofile p) (cwd p) (name p) (trace p) (priority p) (weight p) (k_intena p).
Definition set_pgdir v p := mkProc (sz p) v (kstack p) (state p) (pid p) (parent p) (tf p) (context p) (chan p) (killed p) (ofile p) (cwd p) (name p) (trace p) (priority p) (weight p) (k_intena p).
Definition set_kstack v p := mkProc (sz p) (pgdir p) v (state p) (pid p) (parent p) (tf p) (context p) (chan p) (killed p) (ofile p) (cwd p) (name p) (trace p) (priority p) (weight p) (k_intena p).
Definition set_state v p := mkProc (sz p) (pgdir p) (kstack p) v (pid p) (parent p) (tf p) (context p) (chan p) (killed p) (ofile p) (cwd p) (name p) (trace p) (priority p) (weight p) (k_intena p).
Definition set_pid v p := mkProc (sz p) (pgdir p) (kstack p) (state p) v (parent p) (tf p) (context p) (chan p) (killed p) (ofile p) (cwd p) (name p) (trace p) (priority p) (weight p) (k_intena p).
Definition set_parent v p := mkProc (sz p) (pgdir p) (kstack p) (state p) (pid p) v (tf p) (context p) (chan p) (killed p) (ofile p) (cwd p) (name p) (trace p) (priority p) (weight p) (k_intena p).
Definition set_tf v p := mkProc (sz p) (pgdir p) (kstack p) (state p) (pid p) (parent p) v (context p) (chan p) (killed p) (ofile p) (cwd p) (name p) (trace p) (priority p) (weight p) (k_intena p).
Definition set_context v p := mkProc (sz p) (pgdir p) (kstack p) (state p) (pid p) (parent p) (tf p) v (chan p) (killed p) (ofile p) (cwd p) (name p) (trace p) (priority p) (weight p) (k_intena p).
Definition set_chan v p := mkProc (sz p) (pgdir p) (kstack p) (state p) (pid p) (parent p) (tf p) (context p) v (killed p) (ofile p) (cwd p) (name p) (trace p) (priority p) (weight p) (k_intena p).
Definition set_killed v p := mkProc (sz p) (pgdir p) (kstack p) (state p) (pid p) (parent p) (tf p) (context p) (chan p) v (ofile p) (cwd p) (name p) (trace p) (priority p) (weight p) (k_intena p).
Definition set_ofile v p := mkProc (sz p) (pgdir p) (kstack p) (state p) (pid p) (parent p) (tf p) (context p) (chan p) (killed p) v (cwd p) (name p) (trace p) (priority p) (weight p) (k_intena p).
Definition set_cwd v p := mkProc (sz p) (pgdir p) (kstack p) (state p) (pid p) (parent p) (tf p) (context p) (chan p) (killed p) (ofile p) v (name p) (trace p) (priority p) (weight p) (k_intena p).
Definition set_name v p := mkProc (sz p) (pgdir p) (kstack p) (state p) (pid p) (parent p) (tf p) (context p) (chan p) (killed p) (ofile p) (cwd p) v (trace p) (priority p) (weight p) (k_intena p).
Definition set_trace v p := mkProc (sz p) (pgdir p) (kstack p) (state p) (pid p) (parent p) (tf p) (context p) (chan p) (killed p) (ofile p) (cwd p) (name p) v (priority p) (weight p) (k_intena p).
Definition set_priority v p := mkProc (sz p) (pgdir p) (kstack p) (state p) (pid p) (parent p) (tf p) (context p) (chan p) (killed p) (ofile p) (cwd p) (name p) (trace p) v (weight p) (k_intena p).
Definition set_weight v p := mkProc (sz p) (pgdir p) (kstack p) (state p) (pid p) (parent p) (tf p) (context p) (chan p) (killed p) (ofile p) (cwd p) (name p) (trace p) (priority p) v (k_intena p).
Definition set_intena v p := mkProc (sz p) (pgdir p) (kstack p) (state p) (pid p) (parent p) (tf p) (context p) (chan p) (killed p) (ofile p) (cwd p) (name p) (trace p) (priority p) (weight p) v.

(** ** The services of the other files *)

(** What [proc.c] calls in [kalloc.c], [vm.c], [file.c], [fs.c] and [log.c],
    as state transformers of an environment. *)
Class KernelEnv (E : Type) := {
  env_kalloc : E -> option Z * E;
  env_kfree : Z -> E -> outcome E;
  env_setupkvm : E -> option Z * E;
  env_inituvm : Z -> E -> outcome E;
  env_copyuvm : Z -> Z -> E -> option Z * E;
  env_freevm : Z -> E -> outcome E;
  env_allocuvm : Z -> Z -> Z -> E -> Z * E;
  env_deallocuvm : Z -> Z -> Z -> E -> Z * E;
  env_filedup : nat -> E -> outcome E;
  env_fileclose : nat -> E -> outcome E;
  env_idup : nat -> E -> outcome E;
  env_iput : nat -> E -> outcome E;
  env_begin_op : E -> outcome E;
  env_end_op : E -> outcome E;
  env_rootdir : E -> option nat * E;
  env_fsinit : E -> outcome E
}.

(** ** State *)

(** [ptable] with its lock, the counters [weight] and [nextpid], [initproc],
    the CPU the code runs on and its [c->proc], and the static [first] of
    [forkret]. *)
Record kst (E : Type) := mkK {
  plock : spinlock;
  procs : list proc;
  min_priority : Z;
  g_weight : Z;
  nextpid : Z;
  initproc : option nat;
  kcpu : cpu;
  cproc : option nat;
  first : bool;
  env : E
}.
Arguments mkK {E}.
Arguments plock {E}.
Arguments procs {E}.
Arguments min_priority {E}.
Arguments g_weight {E}.
Arguments nextpid {E}.
Arguments initproc {E}.
Arguments kcpu {E}.
Arguments cproc {E}.
Arguments first {E}.
Arguments env {E}.

Section Ops.
Context {E : Type} `{KernelEnv E} (me : nat).

Definition proc_m (A : Type) : Type := stm (kst E) A.

(** [safestrcpy] into the 16 bytes of [p->name]: at most 15 characters. *)
Definition safestrcpy16 (t : string) : string := String.substring 0 15 t.

(** Setters of the state. *)
Definition with_lock (l : spinlock) (c : cpu) (s : kst E) : kst E :=
  mkK l (procs s) (min_priority s) (g_weight s) (nextpid s) (initproc s) c (cproc s) (first s) (env s).
Definition with_procs (l : list proc) (s : kst E) : kst E :=
  mkK (plock s) l (min_priority s) (g_weight s) (nextpid s) (initproc s) (kcpu s) (cproc s) (first s) (env s).
Definition with_min (m : Z) (s : kst E) : kst E :=
  mkK (plock s) (procs s) m (g_weight s) (nextpid s) (initproc s) (kcpu s) (cproc s) (first s) (env s).
Definition with_counters (w n : Z) (s : kst E) : kst E :=
  mkK (plock s) (procs s) (min_priority s) w n (initproc s) (kcpu s) (cproc s) (first s) (env s).
Definition with_init (i : option nat) (s : kst E) : kst E :=
  mkK (plock s) (procs s) (min_priority s) (g_weight s) (nextpid s) i (kcpu s) (cproc s) (first s) (env s).
Definition with_cproc (p : option nat) (s : kst E) : kst E :=
  mkK (plock s) (procs s) (min_priority s) (g_weight s) (nextpid s) (initproc s) (kcpu s) p (first s) (env s).
Definition with_env (e : E) (s : kst E) : kst E :=
  mkK (plock s) (procs s) (min_priority s) (g_weight s) (nextpid s) (initproc s) (kcpu s) (cproc s) (first s) e.
Definition with_first (b : bool) (s : kst E) : kst E :=
  mkK (plock s) (procs s) (min_priority s) (g_weight s) (nextpid s) (initproc s) (kcpu s) (cproc s) b (env s).

(** [acquire(&ptable.lock)] and [release(&ptable.lock)]. *)
Definition acquire_pt : proc_m unit := fun s =>
  '(l, c) ← acquire me (plock s) (kcpu s); Ret (tt, with_lock l c s).
Definition release_pt : proc_m unit := fun s =>
  '(l, c) ← release me (plock s) (kcpu s); Ret (tt, with_lock l c s).

(** [holding(&ptable.lock)], and [release(lk)] of a lock outside the table. *)
Definition holding_pt : proc_m bool := fun s =>
  '(h, c) ← holding me (plock s) (kcpu s); Ret (h, with_lock (plock s) c s).
Definition release_lk (l : spinlock) : proc_m (option spinlock) := fun s =>
  '(l, c) ← release me l (kcpu s); Ret (Some l, with_lock (plock s) c s).

(** [myproc()]. *)
Definition myproc : proc_m (option nat) := fun s =>
  c ← popcli (pushcli (kcpu s)); Ret (cproc s, with_lock (plock s) c s).

(** Reading and updating the entry a [struct proc*] points to; dereferencing a
    pointer outside the table is undefined. *)
Definition rdp (i : nat) : proc_m proc := fun s => p ← rd (procs s) i; Ret (p, s).
Definition updp (i : nat) (f : proc -> proc) : proc_m unit := fun s =>
  p ← rd (procs s) i; Ret (tt, with_procs (<[i:=f p]> (procs s)) s).

(** A service of the environment. *)
Definition call {A} (f : E -> A * E) : proc_m A := fun s =>
  let '(a, e) := f (env s) in Ret (a, with_env e s).
Definition callo (f : E -> outcome E) : proc_m unit := fun s =>
  e ← f (env s); Ret (tt, with_env e s).

(** ** allocproc, userinit, growproc, fork *)

(** The scan for an [UNUSED] entry. *)
Fixpoint find_state (st : procstate) (l : list proc) (i : nat) : option nat :=
  match l with
  | [] => None
  | p :: l => if decide (state p = st) then Some i else find_state st l (S i)
  end.

Definition allocproc : proc_m (option nat) :=
  acquire_pt ;;
  s ← get;
  match find_state UNUSED (procs s) 0 with
  | None => release_pt ;; mret None
  | Some p =>
      updp p (set_state EMBRYO) ;;
      updp p (set_pid (nextpid s)) ;;
      updp p (set_weight (g_weight s)) ;;
      modify (with_counters (int32 (g_weight s + 1)) (int32 (nextpid s + 1))) ;;
      updp p (set_priority (min_priority s)) ;;
      release_pt ;;
      k ← call env_kalloc;
      match k with
      | None => updp p (set_kstack 0) ;; updp p (set_state UNUSED) ;; mret None
      | Some k =>
          updp p (set_kstack k) ;;
          updp p (set_context CtxForkret) ;;
          updp p (set_trace 0) ;;
          mret (Some p)
      end
  end.

(** [userinit]; the environment's [env_rootdir] is [namei("/")]. *)
Definition userinit : proc_m unit :=
  modify (with_min 3) ;;
  p ← allocproc;
  modify (with_init p) ;;
  match p with
  | None => undef "userinit: null process"
  | Some p =>
      pg ← call env_setupkvm;
      match pg with
      | None => panic "userinit: out of memory?"
      | Some pg =>
          updp p (set_pgdir pg) ;;
          callo (env_inituvm pg) ;;
          updp p (set_sz PGSIZE) ;;
          updp p (set_tf (mkTf 0 PGSIZE 0 512 27 35 35 35)) ;;
          updp p (set_name (safestrcpy16 "initcode")) ;;
          d ← call env_rootdir;
          updp p (set_cwd d) ;;
          acquire_pt ;;
          updp p (set_state RUNNABLE) ;;
          release_pt
      end
  end.

(** [switchuvm]: the checks of the process it is given, and the balanced
    [pushcli] and [popcli] around loading its page table. *)
Definition switchuvm (p : nat) : proc_m unit :=
  q ← rdp p;
  if decide (kstack q = 0)%Z then panic "switchuvm: no kstack"
  else if decide (pgdir q = 0)%Z then panic "switchuvm: no pgdir"
  else fun s => c ← popcli (pushcli (kcpu s)); Ret (tt, with_lock (plock s) c s).

(** [growproc] for the current process; 0 or -1.  [sz + n] is unsigned. *)
Definition growproc (n : Z) : proc_m Z :=
  cur ← myproc;
  match cur with
  | None => undef "growproc: no process"
  | Some cur =>
      p ← rdp cur;
      let sz0 := sz p in
      r ← (if decide (0 < n)%Z then call (env_allocuvm (pgdir p) sz0 (uint32 (sz0 + n)))
           else if decide (n < 0)%Z then call (env_deallocuvm (pgdir p) sz0 (uint32 (sz0 + n)))
           else mret sz0);
      if decide (n <> 0 /\ r = 0)%Z then mret (-1)%Z
      else updp cur (set_sz r) ;; switchuvm cur ;; mret 0%Z
  end.

(** The loop of [fork] over the open files of the parent. *)
Fixpoint dup_files (fs : list (option nat)) (i : nat) (np : nat) : proc_m unit :=
  match fs with
  | [] => mret tt
  | Some f :: fs =>
      callo (env_filedup f) ;;
      q ← rdp np;
      updp np (set_ofile (<[i:=Some f]> (ofile q))) ;;
      dup_files fs (S i) np
  | None :: fs => dup_files fs (S i) np
  end.

Definition fork : proc_m Z :=
  cur ← myproc;
  match cur with
  | None => undef "fork: no process"
  | Some cur =>
      np ← allocproc;
      match np with
      | None => mret (-1)%Z
      | Some np =>
          p ← rdp cur;
          pg ← call (env_copyuvm (pgdir p) (sz p));
          match pg with
          | None =>
              updp np (set_pgdir 0) ;;
              q ← rdp np;
              callo (env_kfree (kstack q)) ;;
              updp np (set_kstack 0) ;;
              updp np (set_state UNUSED) ;;
              mret (-1)%Z
          | Some pg =>
              updp np (set_pgdir pg) ;;
              updp np (set_sz (sz p)) ;;
              updp np (set_parent (Some cur)) ;;
              updp np (set_tf (tf p)) ;;
              updp np (set_trace (trace p)) ;;
              updp np (fun q => set_tf (clear_eax (tf q)) q) ;;
              dup_files (ofile p) 0 np ;;
              match cwd p with
              | Some d => callo (env_idup d)
              | None => undef "idup of a null pointer"
              end ;;
              updp np (set_cwd (cwd p)) ;;
              updp np (set_name (safestrcpy16 (name p))) ;;
              q ← rdp np;
              acquire_pt ;;
              updp np (set_state RUNNABLE) ;;
              release_pt ;;
              mret (pid q)
          end
      end
  end.

(** ** wakeup, kill *)

(** [wakeup1]: every process sleeping on [c] becomes [RUNNABLE] with the
    least priority. *)
Definition wake (m : Z) (c : channel) (p : proc) : proc :=
  if decide (state p = SLEEPING /\ chan p = c) then set_priority m (set_state RUNNABLE p) else p.

Definition wakeup1 (c : channel) : proc_m unit := fun s =>
  Ret (tt, with_procs (wake (min_priority s) c <$> procs s) s).

Definition wakeup (c : channel) : proc_m unit :=
  acquire_pt ;; wakeup1 c ;; release_pt.

Fixpoint find_pid (n : Z) (l : list proc) (i : nat) : option nat :=
  match l with
  | [] => None
  | p :: l => if decide (pid p = n) then Some i else find_pid n l (S i)
  end.

Definition kill (n : Z) : proc_m Z :=
  acquire_pt ;;
  s ← get;
  match find_pid n (procs s) 0 with
  | Some i =>
      updp i (set_killed true) ;;
      p ← rdp i;
      (if decide (state p = SLEEPING) then updp i (set_state RUNNABLE) else mret tt) ;;
      release_pt ;;
      mret 0%Z
  | None => release_pt ;; mret (-1)%Z
  end.

(** [do_weightset]. *)
Definition do_weightset (w : Z) : proc_m unit :=
  acquire_pt ;;
  cur ← myproc;
  match cur with
  | None => undef "weightset: no process"
  | Some cur => updp cur (set_weight w) ;; release_pt
  end.

(** ** Giving up the CPU *)

(** The checks of [sched] and the save of [intena], up to [swtch]; [ctx] tells
    where the process continues.  [mycpu] panics when interrupts are on. *)
Definition sched (ctx : kcontext) : proc_m unit :=
  cur ← myproc;
  h ← holding_pt;
  s ← get;
  if negb h then panic "sched ptable.lock"
  else if fl_if (kcpu s) then panic "mycpu called with interrupts enabled"
  else if decide (ncli (kcpu s) <> 1)%Z then panic "sched locks"
  else match cur with
  | None => undef "sched: no process"
  | Some cur =>
      p ← rdp cur;
      if decide (state p = RUNNING) then panic "sched running"
      else if fl_if (kcpu s) then panic "sched interruptible"
      else
        updp cur (set_intena (intena (kcpu s))) ;;
        updp cur (set_context ctx)
  end.

(** The end of [sched], when the process runs again. *)
Definition sched_end (cur : nat) : proc_m unit :=
  p ← rdp cur;
  modify (fun s => with_lock (plock s) (mkCpu (ncli (kcpu s)) (k_intena p) (fl_if (kcpu s))) s).

Definition forkret : proc_m unit :=
  release_pt ;;
  s ← get;
  if first s then modify (with_first false) ;; callo env_fsinit else mret tt.

(** [yield], up to the switch. *)
Definition yield : proc_m unit :=
  acquire_pt ;;
  cur ← myproc;
  match cur with
  | None => undef "yield: no process"
  | Some cur => updp cur (set_state RUNNABLE) ;; sched CtxYield
  end.

(** [sleep(chan, lk)] up to the switch; [None] for [&ptable.lock], [Some l] for
    another lock, which is released and returned. *)
Definition sleep (c : channel) (lk : option spinlock) : proc_m (option spinlock) :=
  cur ← myproc;
  match cur with
  | None => panic "sleep"
  | Some cur =>
      lk ← match lk with
           | None => mret None
           | Some l =>
               acquire_pt ;;
               release_lk l
           end;
      updp cur (set_chan c) ;;
      updp cur (set_state SLEEPING) ;;
      sched (match lk with None => CtxWait | Some _ => CtxSleep end) ;;
      mret lk
  end.

(** What a process does when [scheduler] switches to it: the end of [sched] and
    what follows the call in [yield] or [sleep], or [forkret].  After [sleep]
    in [wait] the lock stays held; after any other [sleep] the caller's lock is
    acquired next. *)
Definition resume (cur : nat) : proc_m unit :=
  p ← rdp cur;
  match context p with
  | CtxForkret => forkret
  | CtxYield => sched_end cur ;; release_pt
  | CtxSleep => sched_end cur ;; updp cur (set_chan NoChan) ;; release_pt
  | CtxWait => sched_end cur ;; updp cur (set_chan NoChan)
  | CtxExit => panic "zombie exit"
  | CtxNone => undef "swtch to no context"
  end.

(** ** exit and wait *)

(** Closing the open files of the exiting process. *)
Fixpoint close_files (fs : list (option nat)) (i : nat) (cur : nat) : proc_m unit :=
  match fs with
  | [] => mret tt
  | Some f :: fs =>
      callo (env_fileclose f) ;;
      q ← rdp cur;
      updp cur (set_ofile (<[i:=None]> (ofile q))) ;;
      close_files fs (S i) cur
  | None :: fs => close_files fs (S i) cur
  end.

(** Passing the children of [cur] to init, waking init for the zombies. *)
Fixpoint reparent (cur : nat) (i n : nat) : proc_m unit :=
  match n with
  | O => mret tt
  | S n =>
      p ← rdp i;
      s ← get;
      (if decide (parent p = Some cur) then
         updp i (set_parent (initproc s)) ;;
         (if decide (state p = ZOMBIE) then
            wakeup1 (match initproc s with Some j => CProc j | None => NoChan end)
          else mret tt)
       else mret tt) ;;
      reparent cur (S i) n
  end.

Definition exit : proc_m unit :=
  cur ← myproc;
  s ← get;
  if decide (cur = initproc s) then panic "init exiting"
  else match cur with
  | None => undef "exit: no process"
  | Some cur =>
      p ← rdp cur;
      close_files (ofile p) 0 cur ;;
      callo env_begin_op ;;
      p ← rdp cur;
      match cwd p with
      | Some d => callo (env_iput d)
      | None => undef "iput of a null pointer"
      end ;;
      callo env_end_op ;;
      updp cur (set_cwd None) ;;
      acquire_pt ;;
      p ← rdp cur;
      wakeup1 (match parent p with Some j => CProc j | None => NoChan end) ;;
      reparent cur 0 NPROC ;;
      updp cur (set_state ZOMBIE) ;;
      sched CtxExit
  end.

(** One scan of [wait]: a zombie child, or whether there are children. *)
Fixpoint wait_scan (cur : nat) (l : list proc) (i : nat) (havekids : bool) : bool * option nat :=
  match l with
  | [] => (havekids, None)
  | p :: l =>
      if decide (parent p = Some cur) then
        if decide (state p = ZOMBIE) then (true, Some i)
        else wait_scan cur l (S i) true
      else wait_scan cur l (S i) havekids
  end.

(** One pass of the loop of [wait], with [ptable.lock] held: it returns a value,
    or sleeps on [curproc]; the pass is done again when the process resumes. *)
Definition wait_pass (cur : nat) : proc_m (waiting Z) :=
  s ← get;
  p ← rdp cur;
  match wait_scan cur (procs s) 0 false with
  | (_, Some c) =>
      q ← rdp c;
      callo (env_kfree (kstack q)) ;;
      updp c (set_kstack 0) ;;
      callo (env_freevm (pgdir q)) ;;
      updp c (set_pid 0) ;;
      updp c (set_parent None) ;;
      updp c (set_name "") ;;
      updp c (set_killed false) ;;
      updp c (set_state UNUSED) ;;
      release_pt ;;
      mret (Done (pid q))
  | (havekids, None) =>
      if (negb havekids || killed p)%bool then release_pt ;; mret (Done (-1)%Z)
      else sleep (CProc cur) None ;; mret (Sleeps 0%Z)
  end.

Definition wait : proc_m (waiting Z) :=
  cur ← myproc;
  match cur with
  | None => undef "wait: no process"
  | Some cur => acquire_pt ;; wait_pass cur
  end.

(** ** The scheduler *)

(** The first [RUNNABLE] entry whose priority is [min_priority]. *)
Fixpoint find_min (m : Z) (l : list proc) (i : nat) : option nat :=
  match l with
  | [] => None
  | p :: l =>
      if decide (state p = RUNNABLE) then
        if decide (priority p = m) then Some i else find_min m l (S i)
      else find_min m l (S i)
  end.

(** Interrupts are enabled at the top of the loop. *)
Definition sti : proc_m unit :=
  modify (fun s => with_lock (plock s) (mkCpu (ncli (kcpu s)) (intena (kcpu s)) true) s).

(** Switching to [p]. *)
Definition run_proc (p : nat) : proc_m unit :=
  modify (with_cproc (Some p)) ;;
  switchuvm p ;;
  updp p (set_state RUNNING).

(** [scheduler] of [xv6-public/proc.c], up to [swtch]: when no entry matches,
    [p] is [&ptable.proc\[NPROC\]], which is not null, and the code goes on
    with it. *)
Definition scheduler_pick : proc_m nat :=
  sti ;;
  acquire_pt ;;
  s ← get;
  let p := match find_min (min_priority s) (procs s) 0 with Some i => i | None => NPROC end in
  run_proc p ;;
  mret p.

(** The update of the priority after [p] has run. *)
Definition charge (p : nat) : proc_m unit :=
  q ← rdp p;
  if decide (weight q = 0)%Z then undef "division by zero"
  else updp p (set_priority (int32 (priority q + Z.quot TIME_SLICE (weight q)))).

(** The minimum over the [RUNNABLE] entries, started from [m]. *)
Definition min_runnable (m : Z) (l : list proc) : Z :=
  foldl (fun m p => if decide (state p = RUNNABLE) then
                      if decide (priority p < m)%Z then priority p else m else m) m l.

(** [scheduler] of [xv6-public/proc.c] after [swtch]: the minimum starts from
    the priority of entry 0 whatever its state. *)
Definition scheduler_tail (p : nat) : proc_m unit :=
  charge p ;;
  s ← get;
  p0 ← rdp 0;
  modify (with_min (min_runnable (priority p0) (procs s))) ;;
  modify (with_cproc None) ;;
  release_pt.

(** [scheduler] of [update scheduler/proc.c], up to [swtch]: when no entry
    matches, it releases the lock and goes around. *)
Definition us_scheduler_pick : proc_m (option nat) :=
  sti ;;
  acquire_pt ;;
  s ← get;
  match find_min (min_priority s) (procs s) 0 with
  | None => release_pt ;; mret None
  | Some p => run_proc p ;; mret (Some p)
  end.

(** The [RUNNABLE] entry of least priority, the first one among equals. *)
Definition us_min (l : list proc) : option Z :=
  foldl (fun (m : option Z) p => if decide (state p = RUNNABLE) then
                      match m with
                      | None => Some (priority p)
                      | Some v => if decide (priority p < v)%Z then Some (priority p) else m
                      end else m) None l.

Definition us_scheduler_tail (p : nat) : proc_m unit :=
  charge p ;;
  s ← get;
  match us_min (procs s) with
  | Some m => modify (with_min m)
  | None => mret tt
  end ;;
  modify (with_cproc None) ;;
  release_pt.

End Ops.
Arguments proc_m E A : clear implicits.
End Proc.
