(* ===== verification/ProcInv.v ===== *)
(** * The invariant of the process table

    Symbolic execution rules for the operations of [ProcDefs.v], the
    well-formedness of the process table ([table_ok]) and its preservation by
    the ways the operations change the table. *)
From S2P Require Export ProcDefs.

Module ProcInv.
Import Spin Proc.

(** ** The laws of the services *)

(** The services return (a [kfree] or [iput] that panics stops the kernel),
    allocators return non-null pointers, and the root directory is found. *)
Class KernelEnvOk (E : Type) `{KernelEnv E} : Prop := {
  ok_kalloc e k e' : env_kalloc e = (Some k, e') -> k <> 0%Z;
  ok_copyuvm pg n e k e' : env_copyuvm pg n e = (Some k, e') -> k <> 0%Z;
  ok_kfree k e : exists e', env_kfree k e = Ret e';
  ok_freevm k e : exists e', env_freevm k e = Ret e';
  ok_filedup f e : exists e', env_filedup f e = Ret e';
  ok_fileclose f e : exists e', env_fileclose f e = Ret e';
  ok_idup f e : exists e', env_idup f e = Ret e';
  ok_iput f e : exists e', env_iput f e = Ret e';
  ok_begin_op e : exists e', env_begin_op e = Ret e';
  ok_end_op e : exists e', env_end_op e = Ret e';
  ok_fsinit e : exists e', env_fsinit e = Ret e'
}.

(** A CPU outside every critical section, with [intena] as [pushcli] leaves
    it. *)
Definition ready (c : cpu) : Prop := ncli c = 0%Z /\ intena c = fl_if c.

Lemma ready_ok c : ready c -> cpu_ok c.
Proof. intros [Hn _]. split; lia. Qed.

Lemma ready_eq c : ready c -> c = mkCpu 0 (fl_if c) (fl_if c).
Proof. destruct c as [n i f]. unfold ready. cbn. by intros [-> ->]. Qed.

Lemma ready_mk b : ready (mkCpu 0 b b).
Proof. done. Qed.

Section Rules.
Context {E : Type} `{KernelEnv E} (me : nat).
Implicit Types (c : cpu) (ps : list proc) (e : E).

Definition held_lock : spinlock := mkLock true (Some me).

Lemma wp_acquire_pt ps m w n ip b' b cp fi e (Q : unit -> kst E -> Prop) :
  Q tt (mkK held_lock ps m w n ip (mkCpu 1 b false) cp fi e) ->
  wp (acquire_pt me) Q (mkK initlock ps m w n ip (mkCpu 0 b' b) cp fi e).
Proof.
  intros HQ. unfold wp, acquire_pt. cbn [plock kcpu]. rewrite acquire_free by (split; cbn; lia).
  exact HQ.
Qed.

Lemma wp_release_pt ps m w n ip b cp fi e (Q : unit -> kst E -> Prop) :
  Q tt (mkK initlock ps m w n ip (mkCpu 0 b b) cp fi e) ->
  wp (release_pt me) Q (mkK held_lock ps m w n ip (mkCpu 1 b false) cp fi e).
Proof.
  intros HQ. unfold wp, release_pt. cbn [plock kcpu].
  change (mkCpu 1 b false) with (pushcli (mkCpu 0 b b)).
  unfold held_lock. rewrite release_held by (split; cbn; lia). exact HQ.
Qed.

Lemma wp_myproc_ready l ps m w n ip b cp fi e (Q : option nat -> kst E -> Prop) :
  Q cp (mkK l ps m w n ip (mkCpu 0 b b) cp fi e) ->
  wp myproc Q (mkK l ps m w n ip (mkCpu 0 b b) cp fi e).
Proof. exact id. Qed.

Lemma wp_myproc_held l ps m w n ip b cp fi e (Q : option nat -> kst E -> Prop) :
  Q cp (mkK l ps m w n ip (mkCpu 1 b false) cp fi e) ->
  wp myproc Q (mkK l ps m w n ip (mkCpu 1 b false) cp fi e).
Proof. exact id. Qed.

Lemma wp_rdp l ps m w n ip c cp fi e i p (Q : proc -> kst E -> Prop) :
  ps !! i = Some p -> Q p (mkK l ps m w n ip c cp fi e) ->
  wp (rdp i) Q (mkK l ps m w n ip c cp fi e).
Proof. intros Hi HQ. unfold wp, rdp. cbn [procs]. by rewrite (rd_lookup _ _ _ Hi). Qed.

Lemma wp_updp l ps m w n ip c cp fi e i p f (Q : unit -> kst E -> Prop) :
  ps !! i = Some p -> Q tt (mkK l (<[i:=f p]> ps) m w n ip c cp fi e) ->
  wp (updp i f) Q (mkK l ps m w n ip c cp fi e).
Proof. intros Hi HQ. unfold wp, updp. cbn [procs]. by rewrite (rd_lookup _ _ _ Hi). Qed.

Lemma wp_call {A} l ps m w n ip c cp fi e (f : E -> A * E) (Q : A -> kst E -> Prop) :
  (forall a e', f e = (a, e') -> Q a (mkK l ps m w n ip c cp fi e')) ->
  wp (call f) Q (mkK l ps m w n ip c cp fi e).
Proof. intros HQ. unfold wp, call. cbn [env]. destruct (f e) as [a e'] eqn:Hf. by apply HQ. Qed.

Lemma wp_callo l ps m w n ip c cp fi e (f : E -> outcome E) (Q : unit -> kst E -> Prop) :
  (exists e', f e = Ret e') -> (forall e', Q tt (mkK l ps m w n ip c cp fi e')) ->
  wp (callo f) Q (mkK l ps m w n ip c cp fi e).
Proof. intros [e' He] HQ. unfold wp, callo. cbn [env]. rewrite He. apply HQ. Qed.

Lemma wp_call_eq {A} l ps m w n ip c cp fi e e' (f : E -> A * E) a (Q : A -> kst E -> Prop) :
  f e = (a, e') -> Q a (mkK l ps m w n ip c cp fi e') -> wp (call f) Q (mkK l ps m w n ip c cp fi e).
Proof. intros He HQ. unfold wp, call. cbn [env]. by rewrite He. Qed.

Lemma wp_callo_eq l ps m w n ip c cp fi e e' (f : E -> outcome E) (Q : unit -> kst E -> Prop) :
  f e = Ret e' -> Q tt (mkK l ps m w n ip c cp fi e') -> wp (callo f) Q (mkK l ps m w n ip c cp fi e).
Proof. intros He HQ. unfold wp, callo. cbn [env]. by rewrite He. Qed.

Lemma wp_wakeup1 l ps m w n ip c cp fi e ch (Q : unit -> kst E -> Prop) :
  Q tt (mkK l (wake m ch <$> ps) m w n ip c cp fi e) ->
  wp (wakeup1 ch) Q (mkK l ps m w n ip c cp fi e).
Proof. exact id. Qed.

(** [sched] called properly: [ptable.lock] is the only lock held and the
    process has left [RUNNING]. *)
Lemma wp_sched ps m w n ip b i fi e ctx p (Q : unit -> kst E -> Prop) :
  ps !! i = Some p -> state p <> RUNNING ->
  Q tt (mkK held_lock (<[i:=set_context ctx (set_intena b p)]> ps) m w n ip (mkCpu 1 b false) (Some i) fi e) ->
  wp (sched me ctx) Q (mkK held_lock ps m w n ip (mkCpu 1 b false) (Some i) fi e).
Proof.
  intros Hi Hst HQ. apply wp_bind, wp_myproc_held. apply wp_bind.
  unfold wp at 1, holding_pt. cbn [plock kcpu]. rewrite holding_spec by (split; cbn; done).
  unfold holds, held_lock. cbn [locked lcpu andb]. rewrite bool_decide_eq_true_2 by done.
  apply wp_bind, wp_get. cbn [negb kcpu with_lock fl_if ncli intena]. 
  rewrite decide_False by done. apply wp_bind. eapply wp_rdp; [done|].
  rewrite decide_False by done. apply wp_bind. eapply wp_updp; [done|].
  eapply wp_updp; [by rewrite list_lookup_insert_eq by by eapply lookup_lt_Some|].
  by rewrite list_insert_insert_eq.
Qed.

End Rules.

(** Symbolic execution of the next operation. *)
Ltac wp_lookup :=
  first [ eassumption
        | rewrite list_lookup_insert_eq; [reflexivity | by rewrite ?length_insert; eauto using lookup_lt_Some]
        | rewrite list_lookup_insert_ne; [eassumption | congruence] ].
Ltac wp_step :=
  cbv beta iota;
  lazymatch goal with
  | |- wp (mbind _ _) _ _ => apply wp_bind
  | |- wp (mret _) _ _ => apply wp_ret
  | |- wp get _ _ => apply wp_get; cbn [plock procs min_priority g_weight nextpid initproc kcpu cproc first env]
  | |- wp (modify _) _ _ => apply wp_modify;
         unfold with_counters, with_min, with_init, with_cproc, with_first, with_lock;
         cbn [plock procs min_priority g_weight nextpid initproc kcpu cproc first env ncli intena fl_if]
  | |- wp (acquire_pt _) _ _ => apply wp_acquire_pt
  | |- wp (release_pt _) _ _ => apply wp_release_pt
  | |- wp myproc _ _ => first [apply wp_myproc_ready | apply wp_myproc_held]; cbv beta iota
  | |- wp (rdp _) _ _ => eapply wp_rdp; [wp_lookup|]
  | |- wp (updp _ _) _ _ => eapply wp_updp; [wp_lookup|]; rewrite ?list_insert_insert_eq
  | |- wp (wakeup1 _) _ _ => apply wp_wakeup1
  end.
Ltac wp_steps := repeat wp_step.

(** ** Well-formed tables *)

(** A process that has an address space and files. *)
Definition live (p : proc) : Prop :=
  state p = SLEEPING \/ state p = RUNNABLE \/ state p = RUNNING.

(** Where a process that does not run can continue. *)
Definition resumable (p : proc) : Prop :=
  match state p with
  | SLEEPING => context p = CtxSleep \/ context p = CtxWait
  | RUNNABLE => context p = CtxForkret \/ context p = CtxYield \/ context p = CtxSleep \/ context p = CtxWait
  | ZOMBIE => context p = CtxExit
  | _ => True
  end.

(** One entry; [np] is [nextpid]. *)
Record proc_ok (np : Z) (p : proc) : Prop := {
  p_state : state p <> EMBRYO;
  p_files : length (ofile p) = NOFILE;
  p_closed : state p = UNUSED \/ state p = ZOMBIE -> ofile p = replicate NOFILE None;
  p_unused : state p = UNUSED -> kstack p = 0%Z /\ parent p = None;
  p_pid : state p <> UNUSED -> (0 < pid p < np)%Z;
  p_weight : state p <> UNUSED -> (0 < weight p)%Z;
  p_kstack : state p <> UNUSED -> kstack p <> 0%Z /\ pgdir p <> 0%Z;
  p_cwd : live p -> is_Some (cwd p);
  p_resume : resumable p
}.

(** A process asleep in [wait] is not killed, sleeps on its own address and has
    no zombie child: it has not missed the exit of a child. *)
Definition wait_ok (ps : list proc) (i : nat) (p : proc) : Prop :=
  state p = SLEEPING -> context p = CtxWait ->
  chan p = CProc i /\ killed p = false /\
  forall j q, ps !! j = Some q -> parent q = Some i -> state q <> ZOMBIE.

Record table_ok (ps : list proc) (np : Z) (ip : option nat) : Prop := {
  t_len : length ps = NPROC;
  t_proc i p : ps !! i = Some p -> proc_ok np p;
  t_pid i j p q : ps !! i = Some p -> ps !! j = Some q ->
    state p <> UNUSED -> state q <> UNUSED -> pid p = pid q -> i = j;
  t_init : exists i p, ip = Some i /\ ps !! i = Some p /\ live p /\ parent p = None;
  t_parent i p : ps !! i = Some p -> state p <> UNUSED -> Some i <> ip ->
    exists j q, parent p = Some j /\ j <> i /\ ps !! j = Some q /\ live q;
  t_wait i p : ps !! i = Some p -> wait_ok ps i p
}.

(** [c->proc] is the only [RUNNING] process. *)
Definition run_ok (ps : list proc) (cur : option nat) : Prop :=
  forall i p, ps !! i = Some p -> state p = RUNNING <-> cur = Some i.

(** *** Changes that keep the pids and the family tree *)

(** [q] may replace [p]: same pid and parent, live stays live, a zombie stays a
    zombie. *)
Record same_ok (np : Z) (p q : proc) : Prop := {
  u_ok : proc_ok np q;
  u_pid : pid q = pid p;
  u_parent : parent q = parent p;
  u_unused : state q = UNUSED <-> state p = UNUSED;
  u_live : live q <-> live p
}.

(** Moreover, no process newly falls asleep in [wait]. *)
Record upd_ok (np : Z) (p q : proc) : Prop := {
  u_same : same_ok np p q;
  u_wait : state q = SLEEPING -> context q = CtxWait ->
    state p = SLEEPING /\ context p = CtxWait /\ chan q = chan p /\ killed q = killed p
}.

Lemma zombie_iff p q :
  (state q = UNUSED <-> state p = UNUSED) -> (live q <-> live p) ->
  state p <> EMBRYO -> state q = ZOMBIE -> state p = ZOMBIE.
Proof. unfold live. destruct (state p), (state q); naive_solver. Qed.

Lemma table_ok_same ps ps' np ip :
  table_ok ps np ip -> length ps' = length ps ->
  (forall i q, ps' !! i = Some q -> exists p, ps !! i = Some p /\ same_ok np p q) ->
  (forall i q, ps' !! i = Some q -> wait_ok ps' i q) ->
  table_ok ps' np ip.
Proof.
  intros [Hl Hp Hpid Hi Hpar Hw] Hlen H Hw'.
  assert (Hfw : forall i p, ps !! i = Some p -> exists q, ps' !! i = Some q /\ same_ok np p q).
  { intros i p Hip. destruct (lookup_lt_is_Some_2 ps' i) as [q Hq].
    { rewrite Hlen. by eapply lookup_lt_Some. }
    destruct (H i q Hq) as (p' & Hp' & Hu). simplify_eq. eauto. }
  constructor; [congruence| | | | |done].
  - intros i q Hq. destruct (H i q Hq) as (p & _ & Hu). apply Hu.
  - intros i j q1 q2 H1 H2 N1 N2 Heq. destruct (H i q1 H1) as (p1 & G1 & U1), (H j q2 H2) as (p2 & G2 & U2).
    eapply (Hpid i j p1 p2); [done|done|by rewrite <- (u_unused _ _ _ U1)|by rewrite <- (u_unused _ _ _ U2)|].
    by rewrite <- (u_pid _ _ _ U1), <- (u_pid _ _ _ U2).
  - destruct Hi as (i & p & -> & Hip & Hlv & Hn). destruct (Hfw i p Hip) as (q & Hq & U).
    exists i, q. rewrite (u_parent _ _ _ U). split_and!; [done..|by apply (u_live _ _ _ U)|done].
  - intros i q Hq N Hne. destruct (H i q Hq) as (p & Hip & U).
    destruct (Hpar i p Hip) as (j & r & Hj & Hji & Hr & Hlv); [by rewrite <- (u_unused _ _ _ U)|done|].
    destruct (Hfw j r Hr) as (r' & Hr' & U'). exists j, r'.
    rewrite (u_parent _ _ _ U). split_and!; [done..|]. by apply (u_live _ _ _ U').
Qed.

Lemma table_ok_upd ps ps' np ip :
  table_ok ps np ip -> length ps' = length ps ->
  (forall i q, ps' !! i = Some q -> exists p, ps !! i = Some p /\ upd_ok np p q) ->
  table_ok ps' np ip.
Proof.
  intros Hok Hlen H. eapply table_ok_same; [done..| |].
  - intros i q Hq. destruct (H i q Hq) as (p & ? & [? ?]). eauto.
  - intros i q Hq Hs Hc. destruct (H i q Hq) as (p & Hip & U).
    destruct (u_wait _ _ _ U Hs Hc) as (Hs' & Hc' & -> & ->).
    destruct (t_wait _ _ _ Hok i p Hip Hs' Hc') as (? & ? & Hz). split_and!; [done..|].
    intros j r' Hr' Hpr Hzr. destruct (H j r' Hr') as (r & Hr & [U' _]).
    apply (Hz j r Hr); [by rewrite <- (u_parent _ _ _ U')|].
    eapply zombie_iff; [apply U'|apply U'| |done]. by eapply p_state, t_proc.
Qed.

Lemma same_ok_refl np p : proc_ok np p -> same_ok np p p.
Proof. by constructor. Qed.

Lemma upd_ok_refl np p : proc_ok np p -> upd_ok np p p.
Proof. intros. split; [by apply same_ok_refl|done]. Qed.

(** One entry is replaced. *)
Lemma table_ok_upd1 ps np ip i p q :
  table_ok ps np ip -> ps !! i = Some p -> upd_ok np p q -> table_ok (<[i:=q]> ps) np ip.
Proof.
  intros Hok Hi U. eapply table_ok_upd; [done|by rewrite length_insert|].
  intros j r Hr. apply list_lookup_insert_Some in Hr as [(-> & -> & _)|[Hne Hr]]; [eauto|].
  exists r. split; [done|]. by eapply upd_ok_refl, t_proc.
Qed.

(** The invariant does not depend on a larger [nextpid]. *)
Lemma proc_ok_mono np np' p : (np <= np')%Z -> proc_ok np p -> proc_ok np' p.
Proof. intros Hle []. constructor; try done. intros N. specialize (p_pid0 N). lia. Qed.

Lemma table_ok_mono ps np np' ip : (np <= np')%Z -> table_ok ps np ip -> table_ok ps np' ip.
Proof. intros Hle []. constructor; try done. intros. eapply proc_ok_mono; eauto. Qed.

(** *** Other changes *)

(** The process falls asleep in [wait]. *)
Lemma table_ok_sleep_wait ps np ip i p q :
  table_ok ps np ip -> ps !! i = Some p -> same_ok np p q ->
  chan q = CProc i -> killed q = false ->
  (forall j r, ps !! j = Some r -> parent r = Some i -> state r <> ZOMBIE) ->
  table_ok (<[i:=q]> ps) np ip.
Proof.
  intros Hok Hi U Hc Hk Hz.
  assert (Hlook : forall j r, <[i:=q]> ps !! j = Some r -> exists r0, ps !! j = Some r0 /\ same_ok np r0 r).
  { intros j r Hr. apply list_lookup_insert_Some in Hr as [(-> & -> & _)|[Hne Hr]]; [eauto|].
    exists r. split; [done|]. by eapply same_ok_refl, t_proc. }
  assert (Hzz : forall k, (forall j r, ps !! j = Some r -> parent r = Some k -> state r <> ZOMBIE) ->
    forall j r, <[i:=q]> ps !! j = Some r -> parent r = Some k -> state r <> ZOMBIE).
  { intros k Hk' j r Hr Hpr Hzr. destruct (Hlook j r Hr) as (r0 & Hr0 & U0).
    apply (Hk' j r0 Hr0); [by rewrite <- (u_parent _ _ _ U0)|].
    eapply zombie_iff; [apply U0|apply U0| |done]. by eapply p_state, t_proc. }
  eapply table_ok_same; [done|by rewrite length_insert|done|].
  intros j r Hr Hs Hcx. pose proof Hr as Hr'.
  apply list_lookup_insert_Some in Hr' as [(-> & -> & _)|[Hne Hr']].
  - split_and!; [done..|]. by apply Hzz.
  - destruct (t_wait _ _ _ Hok j r Hr' Hs Hcx) as (? & ? & ?). split_and!; [done..|]. by apply Hzz.
Qed.

(** An [UNUSED] entry, or a zombie that is reaped, becomes [UNUSED]. *)
Lemma table_ok_unused ps np ip i p q :
  table_ok ps np ip -> ps !! i = Some p -> ~ live p -> state q = UNUSED -> proc_ok np q ->
  table_ok (<[i:=q]> ps) np ip.
Proof.
  intros [Hl Hp Hpid Hi Hpar Hw] Hip Hnl Hq Hok. constructor.
  - by rewrite length_insert.
  - intros j r Hr. apply list_lookup_insert_Some in Hr as [(-> & -> & _)|[_ Hr]]; eauto.
  - intros j k r t Hr Ht Nr Nt. apply list_lookup_insert_Some in Hr as [(-> & -> & _)|[_ Hr]]; [done|].
    apply list_lookup_insert_Some in Ht as [(-> & -> & _)|[_ Ht]]; [done|]. eauto.
  - destruct Hi as (j & r & -> & Hj & Hlv & Hn). exists j, r.
    rewrite list_lookup_insert_ne by (intros ->; by simplify_eq). done.
  - intros j r Hr N Hne. apply list_lookup_insert_Some in Hr as [(-> & -> & _)|[_ Hr]]; [done|].
    destruct (Hpar j r Hr N Hne) as (k & t & Hk & Hkj & Ht & Hlv). exists k, t.
    rewrite list_lookup_insert_ne by (intros ->; by simplify_eq). done.
  - intros j r Hr Hs Hc. apply list_lookup_insert_Some in Hr as [(-> & -> & _)|[_ Hr]]; [congruence|].
    destruct (Hw j r Hr Hs Hc) as (? & ? & Hz). split_and!; [done..|].
    intros k t Ht. apply list_lookup_insert_Some in Ht as [(-> & <- & _)|[_ Ht]]; [congruence|eauto].
Qed.

(** A new child of the live process [cur], with the pid [np]. *)
Lemma table_ok_new ps np ip i p q cur c :
  table_ok ps np ip -> ps !! i = Some p -> state p = UNUSED ->
  ps !! cur = Some c -> live c ->
  proc_ok (np + 1) q -> pid q = np -> state q = RUNNABLE -> parent q = Some cur ->
  table_ok (<[i:=q]> ps) (np + 1) ip.
Proof.
  intros [Hl Hp Hpid Hi Hpar Hw] Hip Hun Hc Hlc Hok Hpq Hq Hpr.
  assert (Hfresh : forall j r, ps !! j = Some r -> state r <> UNUSED -> pid r <> np).
  { intros j r Hr N. pose proof (p_pid _ _ (Hp _ _ Hr) N). lia. }
  assert (Hne : forall j r, ps !! j = Some r -> live r -> i <> j).
  { intros j r Hr Hlv ->. simplify_eq. destruct Hlv as [|[|]]; congruence. }
  constructor.
  - by rewrite length_insert.
  - intros j r Hr. apply list_lookup_insert_Some in Hr as [(-> & -> & _)|[_ Hr]]; [done|].
    eapply proc_ok_mono; [|by eapply Hp]. lia.
  - intros j k r t Hr Ht Nr Nt Heq.
    apply list_lookup_insert_Some in Hr as [(-> & <- & _)|[Hr1 Hr]];
      apply list_lookup_insert_Some in Ht as [(-> & <- & _)|[Ht1 Ht]]; [done| | |by eauto].
    + exfalso. eapply Hfresh; [exact Ht|done|congruence].
    + exfalso. eapply Hfresh; [exact Hr|done|congruence].
  - destruct Hi as (j & r & -> & Hj & Hlv & Hn). exists j, r.
    rewrite list_lookup_insert_ne by eauto. done.
  - intros j r Hr N Hn. apply list_lookup_insert_Some in Hr as [(-> & <- & _)|[_ Hr]].
    + exists cur, c. rewrite list_lookup_insert_ne by eauto. split_and!; try done. intros ->. by eapply Hne.
    + destruct (Hpar j r Hr N Hn) as (k & t & Hk & Hkj & Ht & Hlv). exists k, t.
      rewrite list_lookup_insert_ne by eauto. done.
  - intros j r Hr Hs Hcx. apply list_lookup_insert_Some in Hr as [(-> & <- & _)|[_ Hr]]; [congruence|].
    destruct (Hw j r Hr Hs Hcx) as (? & ? & Hz). split_and!; [done..|].
    intros k t Ht. apply list_lookup_insert_Some in Ht as [(-> & <- & _)|[_ Ht]]; [congruence|eauto].
Qed.

(** *** Exit *)

(** How [exit] of [cur] changes another entry: the children of [cur] go to
    init, sleepers may be woken. *)
Record exit_upd (np : Z) (ip : option nat) (cur : nat) (p q : proc) : Prop := {
  e_ok : proc_ok np q;
  e_pid : pid q = pid p;
  e_parent : parent q = if decide (parent p = Some cur) then ip else parent p;
  e_unused : state q = UNUSED <-> state p = UNUSED;
  e_live : live q <-> live p;
  e_run : state q = RUNNING -> state p = RUNNING;
  e_wait : state q = SLEEPING -> state p = SLEEPING /\ context q = context p /\ chan q = chan p /\ killed q = killed p
}.

Lemma table_ok_exit ps ps' np ip cur p z :
  table_ok ps np ip -> ps !! cur = Some p -> ip <> Some cur -> live p ->
  length ps' = length ps -> ps' !! cur = Some z ->
  proc_ok np z -> pid z = pid p -> parent z = parent p -> state z = ZOMBIE ->
  (forall i q, i <> cur -> ps' !! i = Some q -> exists p, ps !! i = Some p /\ exit_upd np ip cur p q) ->
  (forall i q, ps' !! i = Some q -> parent p = Some i -> state q = SLEEPING -> chan q <> CProc i) ->
  (forall i q j r, ps' !! i = Some q -> ip = Some i -> ps !! j = Some r -> parent r = Some cur ->
    state r = ZOMBIE -> state q = SLEEPING -> chan q <> CProc i) ->
  table_ok ps' np ip.
Proof.
  intros [Hl Hp Hpid Hi Hpar Hw] Hcur Hip Hlv Hlen Hz Hokz Hpz Hprz Hsz H Hwk1 Hwk2.
  assert (Hfw : forall i p, i <> cur -> ps !! i = Some p -> exists q, ps' !! i = Some q /\ exit_upd np ip cur p q).
  { intros i r Hne Hir. destruct (lookup_lt_is_Some_2 ps' i) as [q Hq].
    { rewrite Hlen. by eapply lookup_lt_Some. }
    destruct (H i q Hne Hq) as (p' & Hp' & Hu). simplify_eq. eauto. }
  assert (Hpu : state p <> UNUSED) by (destruct Hlv as [|[|]]; congruence).
  assert (Hback : forall i q, ps' !! i = Some q -> state q <> UNUSED ->
            exists r, ps !! i = Some r /\ state r <> UNUSED /\ pid q = pid r).
  { intros i q Hq N. destruct (decide (i = cur)) as [->|Hne]; [simplify_eq; eauto|].
    destruct (H i q Hne Hq) as (r & Hr & U). exists r. rewrite <- (e_unused _ _ _ _ _ U). by destruct U. }
  destruct Hi as (ii & pi & -> & Hii & Hlvi & Hni).
  assert (ii <> cur) as Hic by congruence.
  destruct (Hfw ii pi Hic Hii) as (qi & Hqi & Ui). constructor.
  - congruence.
  - intros i q Hq. destruct (decide (i = cur)) as [->|Hne]; [congruence|].
    destruct (H i q Hne Hq) as (? & _ & U). apply U.
  - intros i j q1 q2 H1 H2 N1 N2 Heq.
    destruct (Hback i q1 H1 N1) as (r1 & G1 & M1 & E1), (Hback j q2 H2 N2) as (r2 & G2 & M2 & E2).
    eapply (Hpid i j r1 r2); [done..|congruence].
  - exists ii, qi. split_and!; [done..|by apply Ui|].
    rewrite (e_parent _ _ _ _ _ Ui), Hni. done.
  - intros i q Hq N Hne. destruct (decide (i = cur)) as [->|Hnc].
    + simplify_eq. destruct (Hpar cur p Hcur Hpu Hne) as (j & r & Hj & Hji & Hr & Hlr).
      destruct (Hfw j r Hji Hr) as (q' & Hq' & U'). exists j, q'.
      split_and!; [congruence|done|done|by apply U'].
    + destruct (H i q Hnc Hq) as (r & Hr & U). rewrite (e_parent _ _ _ _ _ U). case_decide as Hd.
      * exists ii, qi. split_and!; [done|congruence|done|by apply Ui].
      * destruct (Hpar i r Hr) as (j & t & Hj & Hji & Ht & Hlt); [by rewrite <- (e_unused _ _ _ _ _ U)|done|].
        destruct (Hfw j t) as (q' & Hq' & U'); [congruence|done|].
        exists j, q'. split_and!; [done..|by apply U'].
  - intros i q Hq Hs Hc. destruct (decide (i = cur)) as [->|Hnc]; [congruence|].
    destruct (H i q Hnc Hq) as (r & Hr & U). destruct (e_wait _ _ _ _ _ U Hs) as (Hs' & Hc' & Hch & Hk).
    destruct (Hw i r Hr Hs') as (Hch' & Hk' & Hzz); [congruence|]. split_and!; [congruence..|].
    intros j t Ht Hpt Hzt. destruct (decide (j = cur)) as [->|Hnj].
    + simplify_eq. eapply (Hwk1 i q); [done|congruence|done|congruence].
    + destruct (H j t Hnj Ht) as (t0 & Ht0 & Ut).
      assert (state t0 = ZOMBIE) as Hz0.
      { eapply zombie_iff; [apply Ut|apply Ut| |done]. by eapply p_state, Hp. }
      rewrite (e_parent _ _ _ _ _ Ut) in Hpt. case_decide as Hd.
      * eapply (Hwk2 i q j t0); [done|congruence|done..|congruence].
      * by eapply Hzz.
Qed.

(** *** Waking up *)

Lemma wake_cases m c p :
  wake m c p = p /\ ~ (state p = SLEEPING /\ chan p = c) \/
  wake m c p = set_priority m (set_state RUNNABLE p) /\ state p = SLEEPING /\ chan p = c.
Proof. unfold wake. case_decide; naive_solver. Qed.

Lemma wake_upd_ok np m c p : proc_ok np p -> upd_ok np p (wake m c p).
Proof.
  intros Hok. destruct (wake_cases m c p) as [[-> _]|(-> & Hs & _)]; [by apply upd_ok_refl|].
  destruct Hok as [? ? ? ? ? ? ? Hcwd Hres]. unfold resumable in Hres. rewrite Hs in *.
  split; [constructor|]; cbn; try done; [|by rewrite Hs|unfold live; cbn; rewrite Hs; naive_solver].
  constructor; cbn; try done; auto.
  - naive_solver.
  - intros _. apply Hcwd. by left.
Qed.

Lemma table_ok_wake ps np ip m c : table_ok ps np ip -> table_ok (wake m c <$> ps) np ip.
Proof.
  intros Hok. eapply table_ok_upd; [done|by rewrite length_fmap|].
  intros i q Hq. apply list_lookup_fmap_Some in Hq as (p & -> & Hp).
  exists p. split; [done|]. by eapply wake_upd_ok, t_proc.
Qed.

Lemma run_ok_wake ps cur m c : run_ok ps cur -> run_ok (wake m c <$> ps) cur.
Proof.
  intros H i q Hq. apply list_lookup_fmap_Some in Hq as (p & -> & Hp). rewrite <- (H i p Hp).
  destruct (wake_cases m c p) as [[-> _]|(-> & Hs & _)]; [done|]. cbn. rewrite Hs. naive_solver.
Qed.

Lemma run_ok_insert ps cur i p q :
  run_ok ps cur -> ps !! i = Some p -> (state q = RUNNING <-> state p = RUNNING) ->
  run_ok (<[i:=q]> ps) cur.
Proof.
  intros H Hi Hiff j r Hr. apply list_lookup_insert_Some in Hr as [(-> & <- & _)|[_ Hr]]; [|by apply H].
  rewrite Hiff. by apply H.
Qed.

End ProcInv.
