(* ===== verification/ProcOps.v ===== *)
(** * The operations of the process table preserve its invariant

    What each function of [proc.c] does to a well-formed table, and the
    composition of the functions with the scheduler of
    [update scheduler/proc.c] on one CPU ([kexec]). *)
From S2P Require Export ProcInv.

Module ProcOps.
Import Spin Proc ProcInv.

Lemma find_state_Some st l i j :
  find_state st l i = Some j ->
  exists p, i <= j /\ l !! (j - i) = Some p /\ state p = st.
Proof.
  revert i. induction l as [|p l IH]; intros i; cbn; [done|]. case_decide as Hs.
  - intros [= <-]. exists p. by rewrite Nat.sub_diag.
  - intros Hf. destruct (IH _ Hf) as (q & Hle & Hq & Hst). exists q.
    replace (j - i) with (S (j - S i)) by lia. split; [lia|done].
Qed.

Lemma find_state_None st l i p : find_state st l i = None -> p ∈ l -> state p <> st.
Proof.
  revert i. induction l as [|q l IH]; intros i; cbn; [by intros _ ?%elem_of_nil|].
  case_decide; [done|]. intros Hf [->|Hp]%elem_of_cons; [done|]. by eapply IH.
Qed.

Section Ops.
Context {E : Type} `{KernelEnvOk E} (me : nat).
Implicit Types (ps : list proc) (e : E).

(** ** allocproc and fork *)

(** The entry [allocproc] starts to fill. *)
Definition embryo (n w mn : Z) (p : proc) : proc :=
  set_priority mn (set_weight w (set_pid n (set_state EMBRYO p))).

Lemma wp_allocproc ps mn w n ip b cp fi e (Q : option nat -> kst E -> Prop) :
  (find_state UNUSED ps 0 = None -> Q None (mkK initlock ps mn w n ip (mkCpu 0 b b) cp fi e)) ->
  (forall i p e', find_state UNUSED ps 0 = Some i -> ps !! i = Some p -> state p = UNUSED -> env_kalloc e = (None, e') ->
    Q None (mkK initlock (<[i:=set_state UNUSED (set_kstack 0 (embryo n w mn p))]> ps) mn
              (int32 (w + 1)) (int32 (n + 1)) ip (mkCpu 0 b b) cp fi e')) ->
  (forall i p k e', find_state UNUSED ps 0 = Some i -> ps !! i = Some p -> state p = UNUSED -> k <> 0%Z -> env_kalloc e = (Some k, e') ->
    Q (Some i) (mkK initlock (<[i:=set_trace 0 (set_context CtxForkret (set_kstack k (embryo n w mn p)))]> ps) mn
              (int32 (w + 1)) (int32 (n + 1)) ip (mkCpu 0 b b) cp fi e')) ->
  wp (allocproc me) Q (mkK initlock ps mn w n ip (mkCpu 0 b b) cp fi e).
Proof.
  intros HN HF HS. unfold allocproc. do 4 wp_step.
  destruct (find_state UNUSED ps 0) as [i|] eqn:Hf; [|wp_steps; by apply HN].
  pose proof Hf as (p & _ & Hi & Hst)%find_state_Some. rewrite Nat.sub_0_r in Hi.
  wp_steps. apply wp_call. intros [k|] e' Hk; wp_steps; [|by apply HF].
  apply HS; [done..| |done]. by eapply ok_kalloc.
Qed.

(** The loop of [fork] copies the open files into a closed table. *)
Lemma wp_dup_files fs pre l ps mn w n ip c cp fi e i np q (Q : unit -> kst E -> Prop) :
  ps !! np = Some q -> ofile q = pre ++ replicate (length fs) None -> i = length pre ->
  (forall e', Q tt (mkK l (<[np:=set_ofile (pre ++ fs) q]> ps) mn w n ip c cp fi e')) ->
  wp (dup_files fs i np) Q (mkK l ps mn w n ip c cp fi e).
Proof.
  revert pre i ps q e. induction fs as [|[f|] fs IH]; intros pre i ps q e Hq Ho -> HQ; cbn [dup_files].
  - wp_step. specialize (HQ e). cbn in Ho. rewrite <- Ho in HQ.
    replace (set_ofile (ofile q) q) with q in HQ by by destruct q. by rewrite list_insert_id in HQ.
  - wp_step. apply wp_callo; [apply ok_filedup|]. intros e'. wp_steps.
    eapply (IH (pre ++ [Some f])); [by rewrite list_lookup_insert_eq by by eapply lookup_lt_Some| |by rewrite length_app; cbn; lia|].
    + cbn. rewrite Ho. cbn. rewrite insert_app_r_alt, Nat.sub_diag by lia. cbn. by rewrite <- app_assoc.
    + intros e''. rewrite list_insert_insert_eq, <- app_assoc. apply HQ.
  - eapply (IH (pre ++ [None])); [done|by rewrite Ho, <- app_assoc|by rewrite length_app; cbn; lia|].
    intros e'. rewrite <- app_assoc. apply HQ.
Qed.

(** The child [fork] makes of [p]. *)
Definition child (n w mn : Z) (cur : nat) (k pg : Z) (p q : proc) : proc :=
  mkProc (sz p) pg k RUNNABLE n (Some cur) (clear_eax (tf p)) CtxForkret (chan q) (killed q)
    (ofile p) (cwd p) (safestrcpy16 (name p)) (trace p) mn w (k_intena q).

(** The entry left by a [fork] that ran out of memory. *)
Record stale (n : Z) (q q' : proc) : Prop := {
  st_state : state q' = UNUSED;
  st_kstack : kstack q' = 0%Z;
  st_pid : pid q' = n;
  st_parent : parent q' = parent q;
  st_ofile : ofile q' = ofile q;
  st_killed : killed q' = killed q
}.

(** The kernel has no page for the stack, or not enough for the memory, of a child
    of [p]. *)
Definition no_memory (e : E) (p : proc) : Prop :=
  (env_kalloc e).1 = None \/ exists k e', env_kalloc e = (Some k, e') /\ (env_copyuvm (pgdir p) (sz p) e').1 = None.

Lemma wp_fork ps mn w n ip b cur fi e p (Q : Z -> kst E -> Prop) :
  ps !! cur = Some p -> is_Some (cwd p) -> length (ofile p) = NOFILE -> state p <> UNUSED ->
  (forall i q, ps !! i = Some q -> state q = UNUSED -> ofile q = replicate NOFILE None) ->
  (find_state UNUSED ps 0 = None -> Q (-1)%Z (mkK initlock ps mn w n ip (mkCpu 0 b b) (Some cur) fi e)) ->
  (forall i q q' e', find_state UNUSED ps 0 = Some i -> ps !! i = Some q -> state q = UNUSED -> stale n q q' -> no_memory e p ->
    Q (-1)%Z (mkK initlock (<[i:=q']> ps) mn
            (int32 (w + 1)) (int32 (n + 1)) ip (mkCpu 0 b b) (Some cur) fi e')) ->
  (forall i q k pg e', find_state UNUSED ps 0 = Some i -> ps !! i = Some q -> state q = UNUSED -> k <> 0%Z -> pg <> 0%Z ->
    Q n (mkK initlock (<[i:=child n w mn cur k pg p q]> ps) mn
            (int32 (w + 1)) (int32 (n + 1)) ip (mkCpu 0 b b) (Some cur) fi e')) ->
  wp (fork me) Q (mkK initlock ps mn w n ip (mkCpu 0 b b) (Some cur) fi e).
Proof.
  intros Hcur [d Hd] Hof Hpu Hcl HN HF HS. unfold fork. wp_steps. apply wp_allocproc; [intros Hfs; wp_steps; by apply HN| |].
  { intros i q e' Hfs Hi Hq He. wp_steps. apply (HF i q); [done|done|done|done|]. left. by rewrite He. }
  intros i q k e' Hfs Hi Hq Hk Hke. assert (i <> cur) by congruence.
  wp_steps. apply wp_call. intros [pg|] e2 Hpg; wp_steps.
  - eapply (wp_dup_files _ []); [wp_lookup|cbn; by rewrite (Hcl i q Hi Hq), Hof|done|].
    intros e3. rewrite list_insert_insert_eq, Hd. wp_steps. apply wp_callo; [apply ok_idup|]. intros e4. wp_steps.
    rewrite <- Hd. apply (HS i q k pg e4); try done. by eapply ok_copyuvm.
  - apply wp_callo; [apply ok_kfree|]. intros e3. wp_steps. apply (HF i q); [done|done|done|done|]. right. exists k, e'. by rewrite Hpg.
Qed.

(** ** exit *)

(** The loop of [exit] closes every open file. *)
Lemma wp_close_files fs l ps mn w n ip c cp fi e i cur q (Q : unit -> kst E -> Prop) :
  ps !! cur = Some q -> ofile q = replicate i None ++ fs ->
  (forall e', Q tt (mkK l (<[cur:=set_ofile (replicate (i + length fs) None) q]> ps) mn w n ip c cp fi e')) ->
  wp (close_files fs i cur) Q (mkK l ps mn w n ip c cp fi e).
Proof.
  revert i ps q e. induction fs as [|[f|] fs IH]; intros i ps q e Hq Ho HQ; cbn [close_files].
  - wp_step. specialize (HQ e). cbn in *. rewrite Nat.add_0_r in HQ. rewrite app_nil_r in Ho. rewrite <- Ho in HQ.
    replace (set_ofile (ofile q) q) with q in HQ by by destruct q. by rewrite list_insert_id in HQ.
  - wp_step. apply wp_callo; [apply ok_fileclose|]. intros e'. wp_steps.
    eapply (IH (S i)); [by rewrite list_lookup_insert_eq by by eapply lookup_lt_Some| |].
    + cbn [ofile set_ofile]. rewrite Ho, insert_app_r_alt by (rewrite length_replicate; lia).
      rewrite length_replicate, Nat.sub_diag. cbn [list_insert]. by rewrite replicate_S_end, <- app_assoc.
    + intros e''. rewrite list_insert_insert_eq. cbn in HQ. rewrite Nat.add_succ_r in HQ. apply HQ.
  - eapply (IH (S i)); [done|by rewrite Ho, replicate_S_end, <- app_assoc|].
    intros e'. cbn in HQ. rewrite Nat.add_succ_r in HQ. apply HQ.
Qed.

Definition reparented (cur : nat) (ip : option nat) (p : proc) : proc :=
  if decide (parent p = Some cur) then set_parent ip p else p.
Definition wakes (b : bool) (m : Z) (c : channel) (p : proc) : proc :=
  if b then wake m c p else p.

Lemma wakes_wakes b1 b2 m c p : wakes b1 m c (wakes b2 m c p) = wakes (b1 || b2) m c p.
Proof.
  destruct b1, b2; cbn; try done. destruct (wake_cases m c p) as [[-> Hn]|(-> & Hs & Hc)].
  - unfold wake. by rewrite decide_False.
  - unfold wake. rewrite decide_False; [done|]. by intros [? _].
Qed.

Lemma wakes_reparented b m c cur ip p :
  reparented cur ip (wakes b m c p) = wakes b m c (reparented cur ip p).
Proof.
  destruct b; cbn; [|done]. unfold reparented, wake.
  destruct (decide (state p = SLEEPING /\ chan p = c)) as [Hd|Hd];
    destruct (decide (parent p = Some cur)); cbn; repeat case_decide; done.
Qed.

Lemma wakes_false m c ps : wakes false m c <$> ps = ps.
Proof. induction ps; cbn; by f_equal. Qed.

Lemma wakes_fields b m c p :
  parent (wakes b m c p) = parent p /\ (state (wakes b m c p) = ZOMBIE <-> state p = ZOMBIE).
Proof.
  destruct b; cbn; [|done]. destruct (wake_cases m c p) as [[-> _]|(-> & Hs & _)]; [done|].
  cbn. rewrite Hs. done.
Qed.

Lemma wp_reparent cur k l ps mn w n ii c cp fi e i (Q : unit -> kst E -> Prop) :
  i + k <= length ps ->
  (forall ps' b, length ps' = length ps ->
    (forall j p, ps !! j = Some p -> ps' !! j =
        Some (wakes b mn (CProc ii) (if decide (i <= j < i + k) then reparented cur (Some ii) p else p))) ->
    (forall j p, i <= j < i + k -> ps !! j = Some p -> parent p = Some cur -> state p = ZOMBIE -> b = true) ->
    Q tt (mkK l ps' mn w n (Some ii) c cp fi e)) ->
  wp (reparent cur i k) Q (mkK l ps mn w n (Some ii) c cp fi e).
Proof.
  revert i ps. induction k as [|k IH]; intros i ps Hlen HQ; cbn [reparent].
  { wp_step. apply (HQ ps false); [done| |lia]. intros j p Hj. rewrite decide_False by lia. done. }
  destruct (lookup_lt_is_Some_2 ps i ltac:(lia)) as [p Hp]. wp_steps.
  set (z := bool_decide (parent p = Some cur /\ state p = ZOMBIE)).
  assert (Hrest : wp (reparent cur (S i) k) Q
    (mkK l (wakes z mn (CProc ii) <$> <[i:=reparented cur (Some ii) p]> ps) mn w n (Some ii) c cp fi e)).
  { apply IH; [rewrite length_fmap, length_insert; lia|]. intros ps' b Hl Hps' Hz.
    rewrite length_fmap, length_insert in Hl. apply (HQ ps' (b || z)); [done| |].
    - intros j q Hj. destruct (decide (i = j)) as [<-|Hne].
      + rewrite Hp in Hj. simplify_eq. rewrite decide_True by lia.
        rewrite (Hps' i (wakes z mn (CProc ii) (reparented cur (Some ii) q))).
        2:{ rewrite list_lookup_fmap, list_lookup_insert_eq by lia. done. }
        rewrite decide_False by lia. by rewrite wakes_wakes.
      + rewrite (Hps' j (wakes z mn (CProc ii) q)).
        2:{ rewrite list_lookup_fmap, list_lookup_insert_ne by done. by rewrite Hj. }
        destruct (decide (S i <= j < S i + k)), (decide (i <= j < i + S k)); try lia;
          by rewrite ?wakes_reparented, wakes_wakes.
    - intros j q Hr Hj Hpq Hzq. destruct (decide (i = j)) as [<-|Hne].
      + rewrite Hp in Hj. simplify_eq. unfold z. rewrite bool_decide_eq_true_2 by done. apply orb_true_r.
      + rewrite (Hz j (wakes z mn (CProc ii) q)); [done|lia| | |].
        * rewrite list_lookup_fmap, list_lookup_insert_ne by done. by rewrite Hj.
        * by rewrite (proj1 (wakes_fields _ _ _ _)).
        * by apply wakes_fields. }
  unfold reparented, z in Hrest. clear z. destruct (decide (parent p = Some cur)) as [Hpar|Hpar].
  - wp_steps. destruct (decide (state p = ZOMBIE)) as [Hst|Hst]; wp_steps.
    + rewrite bool_decide_eq_true_2 in Hrest by done. exact Hrest.
    + rewrite bool_decide_eq_false_2 in Hrest by naive_solver. by rewrite wakes_false in Hrest.
  - wp_steps. rewrite bool_decide_eq_false_2 in Hrest by naive_solver.
    by rewrite wakes_false, list_insert_id in Hrest.
Qed.

(** ** Modes of the kernel on one CPU *)

(** The CPU is in the loop of [scheduler] ([MSched]), has switched to [p] which
    has not yet returned from [sched] ([MPicked]), runs [p] in a system call or
    in user space ([MRun]), is in the loop of [wait] with [ptable.lock] held
    ([MWait]), or comes back to [scheduler] from [p] ([MSwitch]). *)
Inductive mode := MSched | MPicked (p : nat) | MRun (p : nat) | MWait (p : nat) | MSwitch (p : nat).

(** [min_priority] is the least priority of the [RUNNABLE] processes. *)
Definition min_ok (mn : Z) (ps : list proc) : Prop :=
  (forall i p, ps !! i = Some p -> state p = RUNNABLE -> (mn <= priority p)%Z) /\
  ((exists i p, ps !! i = Some p /\ state p = RUNNABLE) ->
   exists i p, ps !! i = Some p /\ state p = RUNNABLE /\ priority p = mn).

(** The invariant: in every mode the table is well formed, and the lock, the
    interrupt state, [c->proc] and the [RUNNING] process are those of the mode. *)
Inductive kinv : mode -> kst E -> Prop :=
  | KSched ps mn w n ip b fi e :
      table_ok ps n ip -> run_ok ps None -> min_ok mn ps -> (0 < w)%Z -> (0 < n)%Z ->
      kinv MSched (mkK initlock ps mn w n ip (mkCpu 0 b b) None fi e)
  | KPicked cur p ps mn w n ip b fi e :
      table_ok ps n ip -> run_ok ps (Some cur) -> ps !! cur = Some p ->
      context p <> CtxNone -> context p <> CtxExit -> (0 < w)%Z -> (0 < n)%Z ->
      kinv (MPicked cur) (mkK (held_lock me) ps mn w n ip (mkCpu 1 b false) (Some cur) fi e)
  | KRun cur p ps mn w n ip b fi e :
      table_ok ps n ip -> run_ok ps (Some cur) -> ps !! cur = Some p -> (0 < w)%Z -> (0 < n)%Z ->
      kinv (MRun cur) (mkK initlock ps mn w n ip (mkCpu 0 b b) (Some cur) fi e)
  | KWait cur p ps mn w n ip b fi e :
      table_ok ps n ip -> run_ok ps (Some cur) -> ps !! cur = Some p -> (0 < w)%Z -> (0 < n)%Z ->
      kinv (MWait cur) (mkK (held_lock me) ps mn w n ip (mkCpu 1 b false) (Some cur) fi e)
  | KSwitch cur p ps mn w n ip b fi e :
      table_ok ps n ip -> run_ok ps None -> ps !! cur = Some p -> state p <> UNUSED -> (0 < w)%Z -> (0 < n)%Z ->
      kinv (MSwitch cur) (mkK (held_lock me) ps mn w n ip (mkCpu 1 b false) (Some cur) fi e).

(** What happens next. *)
Inductive req :=
  | RPick | RResume | RTail                  (* the scheduler *)
  | RWakeup (c : channel)                    (* an interrupt, or the running process *)
  | RFork | RExit | RWait | RKill (n : Z) | RYield | RWeightset (w : Z)
  | RSleep (c : channel).                    (* [sleep] with a lock of a driver *)

Definition acquire_lk (l : spinlock) : proc_m E spinlock := fun s =>
  '(l, c) ← acquire me l (kcpu s); Ret (l, with_lock (plock s) c s).

(** One transition of the kernel with the scheduler of [update scheduler]. *)
Definition kexec (m : mode) (r : req) : proc_m E mode :=
  match m, r with
  | MSched, RPick => p ← us_scheduler_pick me; mret (match p with Some p => MPicked p | None => MSched end)
  | MPicked p, RResume =>
      q ← rdp p; resume me p ;;
      mret (match context q with CtxWait => MWait p | _ => MRun p end)
  | MSwitch p, RTail => us_scheduler_tail me p ;; mret MSched
  | MWait p, RWait =>
      r ← wait_pass me p; mret (match r with Done _ => MRun p | Sleeps _ => MSwitch p end)
  | MSched, RWakeup c => wakeup me c ;; mret MSched
  | MRun p, RWakeup c => wakeup me c ;; mret (MRun p)
  | MRun p, RFork => fork me ;; mret (MRun p)
  | MRun p, RExit => exit me ;; mret (MSwitch p)
  | MRun p, RWait =>
      r ← wait me; mret (match r with Done _ => MRun p | Sleeps _ => MSwitch p end)
  | MRun p, RKill n => kill me n ;; mret (MRun p)
  | MRun p, RYield => yield me ;; mret (MSwitch p)
  | MRun p, RWeightset w => do_weightset me w ;; mret (MRun p)
  | MRun p, RSleep c => l ← acquire_lk initlock; sleep me c (Some l) ;; mret (MSwitch p)
  | _, _ => mret m
  end.

(** Requests a correct kernel makes: init does not exit, weights are positive,
    a driver does not sleep on a null channel, and the pids and weights given
    out so far fit in an [int]. *)
Definition valid (m : mode) (r : req) (s : kst E) : Prop :=
  match m, r with
  | MRun p, RExit => initproc s <> Some p
  | MRun p, RWeightset w => (0 < w)%Z
  | MRun p, RFork => (nextpid s < 2147483647 /\ g_weight s < 2147483647)%Z
  | _, _ => True
  end.

Lemma int32_small z : (-2147483648 <= z < 2147483648)%Z -> int32 z = z.
Proof. intros Hz. unfold int32. rewrite Z.mod_small by lia. lia. Qed.

Lemma live_running p : state p = RUNNING -> live p.
Proof. unfold live. auto. Qed.

Lemma kexec_fork cur s :
  kinv (MRun cur) s -> valid (MRun cur) RFork s -> wp (kexec (MRun cur) RFork) kinv s.
Proof.
  intros Hinv [Hn Hw]. inversion Hinv as [| |? p ps mn w n ip b fi e Hok Hrun Hcur Hw0 Hn0| |]; subst. cbn in Hn, Hw.
  assert (state p = RUNNING) as Hst by by apply (Hrun cur p).
  pose proof (t_proc _ _ _ Hok _ _ Hcur) as Hp.
  assert (Hne : forall i q, ps !! i = Some q -> state q = UNUSED -> state q <> RUNNING) by (intros; congruence).
  cbn [kexec]. wp_step. eapply wp_fork; try done.
  - apply (p_cwd _ _ Hp). by apply live_running.
  - apply Hp.
  - congruence.
  - intros i q Hi Hq. apply (p_closed _ _ (t_proc _ _ _ Hok _ _ Hi)). by left.
  - intros i q q' e' _ Hi Hq St _. wp_step. rewrite !int32_small by lia.
    econstructor; [| |rewrite list_lookup_insert_ne by congruence; exact Hcur|lia..].
    + eapply table_ok_mono; [|eapply table_ok_unused; [done..| |apply St|]]; [lia|by intros [|[|]]; congruence|].
      pose proof (t_proc _ _ _ Hok _ _ Hi) as Hq0. destruct St as [S1 S2 S3 S4 S5 S6].
      destruct (p_unused _ _ Hq0 Hq). constructor; unfold live, resumable; rewrite ?S1, ?S2, ?S4, ?S5; try done.
      * apply Hq0.
      * intros _. apply Hq0. by left.
      * naive_solver.
    + eapply run_ok_insert; [done..|]. rewrite (st_state _ _ _ St), Hq. done.
  - intros i q k pg e' _ Hi Hq Hk Hpg. wp_step. rewrite !int32_small by lia.
    econstructor; [| |rewrite list_lookup_insert_ne by congruence; exact Hcur|lia..].
    + eapply table_ok_new; [done|done|done|exact Hcur|by apply live_running| |done|done|done].
      constructor; cbn; try done; try lia; [apply Hp|by intros []| |].
      * intros _. apply (p_cwd _ _ Hp). by apply live_running.
      * by left.
    + eapply run_ok_insert; [done..|]. rewrite Hq. done.
Qed.

(** *** The other requests *)

Lemma wp_wakeup c ps mn w n ip b cp fi e (Q : unit -> kst E -> Prop) :
  Q tt (mkK initlock (wake mn c <$> ps) mn w n ip (mkCpu 0 b b) cp fi e) ->
  wp (wakeup me c) Q (mkK initlock ps mn w n ip (mkCpu 0 b b) cp fi e).
Proof. intros HQ. unfold wakeup. by wp_steps. Qed.

Lemma min_ok_wake mn c ps : min_ok mn ps -> min_ok mn (wake mn c <$> ps).
Proof.
  intros [H1 H2]. split.
  - intros i q Hq Hs. apply list_lookup_fmap_Some in Hq as (p & -> & Hp).
    destruct (wake_cases mn c p) as [[Heq _]|(Heq & _)]; rewrite Heq in *; [eauto|cbn; lia].
  - intros (i & q & Hq & Hs). apply list_lookup_fmap_Some in Hq as (p & -> & Hp).
    destruct (wake_cases mn c p) as [[Heq _]|(Heq & _)]; rewrite Heq in *.
    + destruct H2 as (j & r & Hj & Hr & Hm); [eauto|]. exists j, r. rewrite list_lookup_fmap, Hj. cbn.
      unfold wake. by rewrite decide_False by (intros [? _]; congruence).
    + eexists i, _. rewrite list_lookup_fmap, Hp. cbn. rewrite Heq. done.
Qed.

Lemma kexec_wakeup_run cur c s : kinv (MRun cur) s -> wp (kexec (MRun cur) (RWakeup c)) kinv s.
Proof.
  intros Hinv. inversion Hinv as [| |? p ps mn w n ip b fi e Hok Hrun Hcur Hw0 Hn0| |]; subst.
  cbn [kexec]. wp_step. apply wp_wakeup. wp_step. eapply (KRun cur (wake mn c p)); [by apply table_ok_wake|by apply run_ok_wake| |done..].
  by rewrite list_lookup_fmap, Hcur.
Qed.

Lemma kexec_wakeup_sched c s : kinv MSched s -> wp (kexec MSched (RWakeup c)) kinv s.
Proof.
  intros Hinv. inversion Hinv as [ps mn w n ip b fi e Hok Hrun Hmin Hw0 Hn0| | | |]; subst.
  cbn [kexec]. wp_step. apply wp_wakeup. wp_step. constructor; try done; [by apply table_ok_wake|by apply run_ok_wake|by apply min_ok_wake].
Qed.

(** Fields that do not matter to the invariant. *)
Lemma upd_ok_fields np p q :
  proc_ok np p -> state p <> UNUSED -> state q = state p -> pid q = pid p -> parent q = parent p -> kstack q = kstack p ->
  pgdir q = pgdir p -> ofile q = ofile p -> cwd q = cwd p -> context q = context p ->
  (0 < weight q)%Z -> (state p = SLEEPING -> chan q = chan p /\ killed q = killed p) -> upd_ok np p q.
Proof.
  intros [] Hu Hs Hp Hpr Hk Hg Ho Hc Hx Hw Hsl. split; [constructor|].
  - constructor; unfold live, resumable in *; rewrite ?Hs, ?Ho, ?Hp, ?Hpr, ?Hk, ?Hg, ?Hc, ?Hx; auto.
  - done.
  - done.
  - by rewrite Hs.
  - unfold live. by rewrite Hs.
  - rewrite Hs, Hx. intros H1 H2. destruct (Hsl H1). done.
Qed.

Lemma kexec_weightset cur v s :
  kinv (MRun cur) s -> (0 < v)%Z -> wp (kexec (MRun cur) (RWeightset v)) kinv s.
Proof.
  intros Hinv Hv. inversion Hinv as [| |? p ps mn w n ip b fi e Hok Hrun Hcur Hw0 Hn0| |]; subst.
  assert (state p = RUNNING) as Hst by by apply (Hrun cur p).
  cbn [kexec]. unfold do_weightset. wp_steps.
  eapply (KRun cur (set_weight v p)); [|by eapply run_ok_insert| |done..].
  - eapply table_ok_upd1; [done..|]. apply upd_ok_fields; cbn; try done; [by eapply t_proc|congruence].
  - by rewrite list_lookup_insert_eq by by eapply lookup_lt_Some.
Qed.

Lemma find_pid_Some x l i j :
  find_pid x l i = Some j -> exists p, i <= j /\ l !! (j - i) = Some p /\ pid p = x.
Proof.
  revert i. induction l as [|p l IH]; intros i; cbn; [done|]. case_decide as Hs.
  - intros [= <-]. exists p. by rewrite Nat.sub_diag.
  - intros Hf. destruct (IH _ Hf) as (q & Hle & Hq & Hst). exists q.
    replace (j - i) with (S (j - S i)) by lia. split; [lia|done].
Qed.

(** The entry [kill] finds. *)
Definition kill_upd (p : proc) : proc :=
  if decide (state p = SLEEPING) then set_state RUNNABLE (set_killed true p) else set_killed true p.

Lemma wp_kill x ps mn w n ip b cp fi e (Q : Z -> kst E -> Prop) :
  (find_pid x ps 0 = None -> Q (-1)%Z (mkK initlock ps mn w n ip (mkCpu 0 b b) cp fi e)) ->
  (forall i p, find_pid x ps 0 = Some i -> ps !! i = Some p -> pid p = x ->
    Q 0%Z (mkK initlock (<[i:=kill_upd p]> ps) mn w n ip (mkCpu 0 b b) cp fi e)) ->
  wp (kill me x) Q (mkK initlock ps mn w n ip (mkCpu 0 b b) cp fi e).
Proof.
  intros HN HS. unfold kill. wp_steps. destruct (find_pid x ps 0) as [i|] eqn:Hf; wp_steps; [|by apply HN].
  pose proof Hf as (p & _ & Hi & Hp)%find_pid_Some. rewrite Nat.sub_0_r in Hi.
  wp_steps. specialize (HS i p eq_refl Hi Hp). unfold kill_upd in HS. cbn [state set_killed].
  destruct (decide (state p = SLEEPING)); by wp_steps.
Qed.

Lemma kill_upd_ok np p : proc_ok np p -> upd_ok np p (kill_upd p).
Proof.
  intros Hok. unfold kill_upd. case_decide as Hs.
  - destruct Hok as [? ? ? ? ? ? ? Hcwd Hres]. unfold resumable in Hres. rewrite Hs in *.
    split; [constructor|]; cbn; try done; [|by rewrite Hs|unfold live; cbn; rewrite Hs; naive_solver].
    constructor; cbn; try done; auto; [naive_solver|]. intros _. apply Hcwd. by left.
  - destruct Hok. split; [by constructor|]. cbn. done.
Qed.

Lemma kexec_kill cur x s : kinv (MRun cur) s -> wp (kexec (MRun cur) (RKill x)) kinv s.
Proof.
  intros Hinv. inversion Hinv as [| |? p ps mn w n ip b fi e Hok Hrun Hcur Hw0 Hn0| |]; subst.
  cbn [kexec]. wp_step. apply wp_kill; [by intros _|]. intros i q _ Hi _. wp_step.
  destruct (lookup_lt_is_Some_2 (<[i:=kill_upd q]> ps) cur) as [r Hr].
  { rewrite length_insert. by eapply lookup_lt_Some. }
  econstructor; [| |exact Hr|done..].
  - eapply table_ok_upd1; [done..|]. by eapply kill_upd_ok, t_proc.
  - eapply run_ok_insert; [done..|]. unfold kill_upd. case_decide as Hs; cbn; [rewrite Hs|]; done.
Qed.

(** *** Leaving the CPU *)

(** A live process changes state, context, channel or registers. *)
Lemma same_ok_live np p q :
  proc_ok np p -> live p -> live q -> pid q = pid p -> parent q = parent p ->
  kstack q = kstack p -> pgdir q = pgdir p -> ofile q = ofile p -> cwd q = cwd p ->
  weight q = weight p -> resumable q -> same_ok np p q.
Proof.
  intros [] Hlp Hlq Hp Hpr Hk Hg Ho Hc Hw Hr.
  assert (state p <> UNUSED) by (destruct Hlp as [|[|]]; congruence).
  constructor; [|done|done|destruct Hlq as [|[|]]; split; congruence|done].
  constructor; rewrite ?Hp, ?Hpr, ?Hk, ?Hg, ?Ho, ?Hc, ?Hw; auto.
  - destruct Hlq as [|[|]]; congruence.
  - destruct Hlq as [|[|]]; intros []; congruence.
  - destruct Hlq as [|[|]]; congruence.
Qed.

Lemma run_ok_leave ps cur p q :
  run_ok ps (Some cur) -> ps !! cur = Some p -> state q <> RUNNING -> run_ok (<[cur:=q]> ps) None.
Proof.
  intros Hrun Hc Hq i r Hr. apply list_lookup_insert_Some in Hr as [(-> & <- & _)|[Hne Hr]]; [done|].
  rewrite (Hrun i r Hr). split; congruence.
Qed.

(** [cur] has left the CPU as [q]. *)
Lemma kinv_switch cur p q ps mn w n ip b fi e :
  run_ok ps (Some cur) -> ps !! cur = Some p -> (0 < w)%Z -> (0 < n)%Z ->
  table_ok (<[cur:=q]> ps) n ip -> state q <> RUNNING -> state q <> UNUSED ->
  kinv (MSwitch cur) (mkK (held_lock me) (<[cur:=q]> ps) mn w n ip (mkCpu 1 b false) (Some cur) fi e).
Proof.
  intros Hrun Hcur Hw Hn Hok Hr Hu. apply (KSwitch cur q); try done; [by eapply run_ok_leave|].
  by rewrite list_lookup_insert_eq by by eapply lookup_lt_Some.
Qed.

Lemma kexec_yield cur s : kinv (MRun cur) s -> wp (kexec (MRun cur) RYield) kinv s.
Proof.
  intros Hinv. inversion Hinv as [| |? p ps mn w n ip b fi e Hok Hrun Hcur Hw0 Hn0| |]; subst.
  assert (state p = RUNNING) as Hst by by apply (Hrun cur p).
  cbn [kexec]. unfold yield. wp_steps. eapply wp_sched; [wp_lookup|done|]. rewrite list_insert_insert_eq. wp_steps.
  eapply kinv_switch; [done..| |done|done]. eapply table_ok_upd1; [done..|].
  split; [|done]. apply same_ok_live; try done; [by eapply t_proc|by apply live_running|unfold live; cbn; auto|].
  unfold resumable. cbn. auto.
Qed.

(** [acquire] and [release] inside another critical section. *)
Lemma wp_acquire_lk l ps mn w n ip b cp fi e (Q : spinlock -> kst E -> Prop) :
  Q (held_lock me) (mkK l ps mn w n ip (mkCpu 1 b false) cp fi e) ->
  wp (acquire_lk initlock) Q (mkK l ps mn w n ip (mkCpu 0 b b) cp fi e).
Proof.
  intros HQ. unfold wp, acquire_lk. cbn [kcpu]. rewrite acquire_free by (split; cbn; lia). exact HQ.
Qed.

Lemma wp_acquire_pt_nested ps mn w n ip b cp fi e (Q : unit -> kst E -> Prop) :
  Q tt (mkK (held_lock me) ps mn w n ip (mkCpu 2 b false) cp fi e) ->
  wp (acquire_pt me) Q (mkK initlock ps mn w n ip (mkCpu 1 b false) cp fi e).
Proof.
  intros HQ. unfold wp, acquire_pt. cbn [plock kcpu]. rewrite acquire_free by (split; cbn; [lia|done]). exact HQ.
Qed.

Lemma wp_release_lk l ps mn w n ip b cp fi e (Q : option spinlock -> kst E -> Prop) :
  Q (Some initlock) (mkK l ps mn w n ip (mkCpu 1 b false) cp fi e) ->
  wp (release_lk me (held_lock me)) Q (mkK l ps mn w n ip (mkCpu 2 b false) cp fi e).
Proof.
  intros HQ. unfold wp, release_lk. cbn [kcpu].
  change (mkCpu 2 b false) with (pushcli (mkCpu 1 b false)).
  unfold held_lock. rewrite release_held by (split; cbn; [lia|done]). exact HQ.
Qed.

Lemma kexec_sleep cur c s : kinv (MRun cur) s -> wp (kexec (MRun cur) (RSleep c)) kinv s.
Proof.
  intros Hinv. inversion Hinv as [| |? p ps mn w n ip b fi e Hok Hrun Hcur Hw0 Hn0| |]; subst.
  assert (state p = RUNNING) as Hst by by apply (Hrun cur p).
  cbn [kexec]. wp_step. apply wp_acquire_lk. unfold sleep. wp_step. wp_step. wp_step.
  wp_step. wp_step. apply wp_acquire_pt_nested. apply wp_release_lk.
  wp_steps. eapply wp_sched; [wp_lookup|done|]. rewrite list_insert_insert_eq. wp_steps.
  eapply kinv_switch; [done..| |done|done]. eapply table_ok_upd1; [done..|].
  split; [|done]. apply same_ok_live; try done; [by eapply t_proc|by apply live_running|unfold live; cbn; auto|].
  unfold resumable. cbn. auto.
Qed.

(** *** wait *)

Lemma wait_scan_spec cur l i hk hk' r :
  wait_scan cur l i hk = (hk', r) ->
  match r with
  | Some j => exists p, i <= j /\ l !! (j - i) = Some p /\ parent p = Some cur /\ state p = ZOMBIE
  | None => (forall p, p ∈ l -> parent p = Some cur -> state p <> ZOMBIE) /\
            (hk' = true <-> hk = true \/ exists p, p ∈ l /\ parent p = Some cur)
  end.
Proof.
  revert i hk. induction l as [|p l IH]; intros i hk; cbn.
  { intros [= -> <-]. split; [by intros ? ?%elem_of_nil|]. split; [auto|]. by intros [|(? & ?%elem_of_nil & _)]. }
  case_decide as Hp; [case_decide as Hz|].
  - intros [= <- <-]. exists p. by rewrite Nat.sub_diag.
  - intros Hs. apply IH in Hs. destruct r as [j|].
    + destruct Hs as (q & ? & Hq & ?). exists q. replace (j - i) with (S (j - S i)) by lia. split; [lia|done].
    + destruct Hs as [H1 H2]. split; [by intros q [->|Hq]%elem_of_cons; eauto|].
      rewrite H2. split; [|auto]. intros _. right. exists p. split; [by left|done].
  - intros Hs. apply IH in Hs. destruct r as [j|].
    + destruct Hs as (q & ? & Hq & ?). exists q. replace (j - i) with (S (j - S i)) by lia. split; [lia|done].
    + destruct Hs as [H1 H2]. split; [by intros q [->|Hq]%elem_of_cons; eauto|].
      rewrite H2. setoid_rewrite elem_of_cons. naive_solver.
Qed.

Lemma kwait_pass cur s (Q : waiting Z -> kst E -> Prop) :
  kinv (MWait cur) s ->
  (forall x s', kinv (MRun cur) s' -> Q (Done x) s') ->
  (forall x s', kinv (MSwitch cur) s' -> Q (Sleeps x) s') ->
  wp (wait_pass me cur) Q s.
Proof.
  intros Hinv HD HS. inversion Hinv as [| | |? p ps mn w n ip b fi e Hok Hrun Hcur Hw0 Hn0|]; subst.
  assert (state p = RUNNING) as Hst by by apply (Hrun cur p).
  unfold wait_pass. wp_steps. destruct (wait_scan cur ps 0 false) as [hk [c|]] eqn:Hs; apply wait_scan_spec in Hs.
  - destruct Hs as (q & _ & Hc & Hpq & Hz). rewrite Nat.sub_0_r in Hc. wp_steps.
    apply wp_callo; [apply ok_kfree|]. intros e1. wp_steps. apply wp_callo; [apply ok_freevm|]. intros e2. wp_steps.
    apply HD. pose proof (t_proc _ _ _ Hok _ _ Hc) as Hq.
    eapply (KRun cur p); [| |by rewrite list_lookup_insert_ne by congruence|done..].
    + eapply table_ok_unused; [done..| |done|]; [by intros [|[|]]; congruence|].
      constructor; cbn; try done; [apply Hq| |by intros [|[|]]].
      intros _. apply Hq. by right.
    + eapply run_ok_insert; [done..|]. cbn. rewrite Hz. done.
  - destruct (negb hk || killed p)%bool eqn:Hk.
    + wp_steps. apply HD. by econstructor.
    + apply orb_false_iff in Hk as [_ Hk]. unfold sleep. wp_steps.
      eapply wp_sched; [wp_lookup|done|]. rewrite list_insert_insert_eq. wp_steps. apply HS.
      eapply kinv_switch; [done..| |done|done]. destruct Hs as [Hnz _].
      eapply table_ok_sleep_wait; [done..| |done|done|].
      * apply same_ok_live; try done; [by eapply t_proc|by apply live_running|unfold live; cbn; auto|].
        unfold resumable. cbn. auto.
      * intros j r Hr. apply Hnz. by eapply list_elem_of_lookup_2.
Qed.

Lemma kexec_wait_pass cur s : kinv (MWait cur) s -> wp (kexec (MWait cur) RWait) kinv s.
Proof. intros Hinv. cbn [kexec]. wp_step. apply kwait_pass; [done|by intros; wp_step..]. Qed.

Lemma kexec_wait cur s : kinv (MRun cur) s -> wp (kexec (MRun cur) RWait) kinv s.
Proof.
  intros Hinv. inversion Hinv as [| |? p ps mn w n ip b fi e Hok Hrun Hcur Hw0 Hn0| |]; subst.
  cbn [kexec]. unfold wait. wp_steps. apply kwait_pass; [by econstructor|by intros; wp_step..].
Qed.

(** *** exit *)

Lemma wake_not_sleeping m c p : state (wake m c p) = SLEEPING -> chan (wake m c p) <> c.
Proof. unfold wake. case_decide as Hd; cbn; naive_solver. Qed.

Lemma wakes_sleeping b m c p :
  state (wakes b m c p) = SLEEPING -> wakes b m c p = p /\ (b = true -> chan p <> c).
Proof. destruct b; cbn; [|done]. destruct (wake_cases m c p) as [[-> Hn]|(-> & _)]; [naive_solver|done]. Qed.

Lemma wakes_running b m c p : state (wakes b m c p) = RUNNING -> state p = RUNNING.
Proof. destruct b; cbn; [|done]. destruct (wake_cases m c p) as [[-> _]|(-> & _)]; done. Qed.

Lemma reparented_fields cur ip p :
  state (reparented cur ip p) = state p /\ chan (reparented cur ip p) = chan p.
Proof. unfold reparented. by case_decide. Qed.

(** An entry other than [cur] after [exit] of [cur]. *)
Lemma exit_upd_ok np cur ii b m c1 c2 p :
  proc_ok np p -> (state p = UNUSED -> parent p <> Some cur) ->
  exit_upd np (Some ii) cur p (wakes b m c2 (reparented cur (Some ii) (wake m c1 p))).
Proof.
  intros Hok Hun. rewrite <- wakes_reparented.
  assert (upd_ok np p (wakes b m c2 (wake m c1 p))) as U.
  { destruct b; cbn; [|by apply wake_upd_ok].
    pose proof (wake_upd_ok np m c1 p Hok) as U1.
    pose proof (wake_upd_ok np m c2 (wake m c1 p) (u_ok _ _ _ (u_same _ _ _ U1))) as U2.
    destruct U1 as [[? ? ? U1u U1l] U1w], U2 as [[? ? ? U2u U2l] U2w].
    split; [constructor; [done|congruence|congruence|by rewrite U2u|by rewrite U2l]|].
    intros Hs Hc. destruct (U2w Hs Hc) as (Hs' & Hc' & -> & ->). auto. }
  assert (Hsl : state (wakes b m c2 (wake m c1 p)) = SLEEPING -> wakes b m c2 (wake m c1 p) = p).
  { intros Hx. destruct (wakes_sleeping _ _ _ _ Hx) as [Heq _]. rewrite Heq in Hx |- *.
    by destruct (wakes_sleeping true _ _ _ Hx). }
  assert (Hrn : state (wakes b m c2 (wake m c1 p)) = RUNNING -> state p = RUNNING).
  { intros Hx. apply wakes_running in Hx. by apply (wakes_running true) in Hx. }
  destruct U as [[[] Hpid Hpar Hu Hl] _]. unfold reparented. rewrite Hpar.
  destruct (decide (parent p = Some cur)) as [Hd|Hd]; constructor; cbn; rewrite ?decide_True, ?decide_False by done; try done.
  - constructor; try done. cbn. intros Hx. exfalso. apply Hun; [by apply Hu|done].
  - intros Hx. pose proof (Hsl Hx) as Heq. by rewrite Heq in Hx |- *.
  - intros Hx. pose proof (Hsl Hx) as Heq. by rewrite Heq in Hx |- *.
Qed.

(** The process [exit] leaves behind: closed, a zombie in [sched]. *)
Definition zombie_of (b : bool) (p : proc) : proc :=
  set_context CtxExit (set_intena b (set_state ZOMBIE (set_cwd None (set_ofile (replicate NOFILE None) p)))).

Definition chan_of (q : option nat) : channel :=
  match q with Some j => CProc j | None => NoChan end.

(** The table [exit] leaves: [ps1] is the table after [wakeup1] of the parent
    and the loop over the children. *)
Lemma exit_table ps ps1 cur p n ii b b1 mn :
  table_ok ps n (Some ii) -> ps !! cur = Some p -> state p = RUNNING -> ii <> cur ->
  length ps1 = length ps ->
  (forall i q, i <> cur -> ps !! i = Some q ->
    ps1 !! i = Some (wakes b1 mn (CProc ii) (reparented cur (Some ii) (wake mn (chan_of (parent p)) q)))) ->
  (forall j q, j <> cur -> ps !! j = Some q -> parent q = Some cur -> state q = ZOMBIE -> b1 = true) ->
  table_ok (<[cur:=zombie_of b p]> ps1) n (Some ii) /\
  (forall i q, i <> cur -> <[cur:=zombie_of b p]> ps1 !! i = Some q ->
    exists p0, ps !! i = Some p0 /\ exit_upd n (Some ii) cur p0 q).
Proof.
  intros Hok Hcur Hst Hii Hl1 Hlook Hz1. pose proof (t_proc _ _ _ Hok _ _ Hcur) as Hp.
  assert (Hlt : cur < length ps) by by eapply lookup_lt_Some.
  assert (Hupd : forall i q, i <> cur -> <[cur:=zombie_of b p]> ps1 !! i = Some q -> exists p0, ps !! i = Some p0 /\
    q = wakes b1 mn (CProc ii) (reparented cur (Some ii) (wake mn (chan_of (parent p)) p0))).
  { intros i q Hne Hi. rewrite list_lookup_insert_ne in Hi by done.
    destruct (lookup_lt_is_Some_2 ps i) as [p0 Hp0]; [rewrite <- Hl1; by eapply lookup_lt_Some|].
    exists p0. split; [done|]. rewrite (Hlook i p0 Hne Hp0) in Hi. by simplify_eq. }
  assert (Hother : forall i q, i <> cur -> <[cur:=zombie_of b p]> ps1 !! i = Some q ->
    exists p0, ps !! i = Some p0 /\ exit_upd n (Some ii) cur p0 q).
  { intros i q Hne Hi. destruct (Hupd i q Hne Hi) as (p0 & Hp0 & ->). exists p0. split; [done|].
    pose proof (t_proc _ _ _ Hok _ _ Hp0) as Hok0.
    apply exit_upd_ok; [done|]. intros Hu. by rewrite (proj2 (p_unused _ _ Hok0 Hu)). }
  assert (Hcz : <[cur:=zombie_of b p]> ps1 !! cur = Some (zombie_of b p)) by (apply list_lookup_insert_eq; lia).
  split; [|exact Hother].
  eapply (table_ok_exit ps _ n (Some ii) cur p (zombie_of b p)); try done; [congruence|by apply live_running|by rewrite length_insert| | |].
  - destruct Hp as [? ? ? ? Hpid Hwt Hks ? ?]. rewrite Hst in *. constructor; cbn; try done; auto. by intros [|[|]].
  - intros i q Hi Hpi Hs. destruct (decide (i = cur)) as [->|Hne]; [rewrite Hcz in Hi; by simplify_eq|].
    destruct (Hupd i q Hne Hi) as (p0 & _ & ->). destruct (wakes_sleeping _ _ _ _ Hs) as [Heq _]. rewrite Heq in *.
    destruct (reparented_fields cur (Some ii) (wake mn (chan_of (parent p)) p0)) as [F1 F2].
    rewrite F1 in Hs. rewrite F2. apply wake_not_sleeping in Hs. by rewrite Hpi in Hs |- *.
  - intros i q j r Hi [= <-] Hj Hpr Hzr Hs. destruct (decide (j = cur)) as [->|Hnj]; [congruence|].
    destruct (Hupd ii q Hii Hi) as (p0 & _ & ->). destruct (wakes_sleeping _ _ _ _ Hs) as [Heq Hb].
    rewrite Heq. apply Hb. by eapply Hz1.
Qed.

Lemma wp_exit cur p ps mn w n ii b fi e (Q : unit -> kst E -> Prop) :
  table_ok ps n (Some ii) -> ps !! cur = Some p -> state p = RUNNING -> ii <> cur ->
  (forall ps1 e', table_ok (<[cur:=zombie_of b p]> ps1) n (Some ii) -> length ps1 = length ps ->
     (forall i q, i <> cur -> <[cur:=zombie_of b p]> ps1 !! i = Some q ->
        exists p, ps !! i = Some p /\ exit_upd n (Some ii) cur p q) ->
     Q tt (mkK (held_lock me) (<[cur:=zombie_of b p]> ps1) mn w n (Some ii) (mkCpu 1 b false) (Some cur) fi e')) ->
  wp (exit me) Q (mkK initlock ps mn w n (Some ii) (mkCpu 0 b b) (Some cur) fi e).
Proof.
  intros Hok Hcur Hst Hii HQ. pose proof (t_proc _ _ _ Hok _ _ Hcur) as Hp.
  destruct (p_cwd _ _ Hp) as [d Hd]; [by apply live_running|].
  assert (Hlt : cur < length ps) by by eapply lookup_lt_Some. pose proof (t_len _ _ _ Hok) as Hlen.
  assert (Hpc : parent p <> Some cur).
  { destruct (t_parent _ _ _ Hok cur p Hcur) as (j & q & Hj & Hne & _); congruence. }
  unfold exit. do 4 wp_step. rewrite decide_False by congruence. wp_steps.
  eapply (wp_close_files _ _ _ _ _ _ _ _ _ _ _ 0); [done|done|]. intros e1. cbn [Nat.add]. rewrite (p_files _ _ Hp).
  wp_step. apply wp_callo; [apply ok_begin_op|]. intros e2. wp_steps. cbn [cwd set_ofile]. rewrite Hd.
  apply wp_callo; [apply ok_iput|]. intros e3. wp_step. apply wp_callo; [apply ok_end_op|]. intros e4. wp_steps.
  fold (chan_of (parent p)). set (p1 := set_cwd None (set_ofile (replicate NOFILE None) p)).
  change (match parent p1 with Some j => CProc j | None => NoChan end) with (chan_of (parent p)).
  apply wp_reparent; [rewrite length_fmap, length_insert, Hlen; done|].
  intros ps1 b1 Hl1 H1 Hz1. rewrite length_fmap, length_insert in Hl1.
  assert (Hw1 : forall m c, wake m c p1 = p1).
  { intros m c. unfold wake, p1. cbn. by rewrite decide_False by (intros [? _]; congruence). }
  assert (Hc1 : ps1 !! cur = Some p1).
  { rewrite (H1 cur p1); [|by rewrite list_lookup_fmap, list_lookup_insert_eq; cbn; rewrite ?Hw1].
    rewrite decide_True by lia. unfold reparented. cbn. rewrite decide_False by done. by destruct b1; cbn; rewrite ?Hw1. }
  wp_steps. eapply wp_sched; [wp_lookup|done|]. rewrite list_insert_insert_eq. fold (zombie_of b p).
  edestruct (exit_table ps ps1 cur p n ii b b1 mn) as [T1 T2]; [done..| | |].
  - intros i q Hne Hi. rewrite (H1 i (wake mn (chan_of (parent p)) q)).
    + rewrite decide_True; [done|]. apply lookup_lt_Some in Hi. lia.
    + by rewrite list_lookup_fmap, list_lookup_insert_ne, Hi by done.
  - intros j q Hne Hj Hpj Hzj. apply (Hz1 j q); [apply lookup_lt_Some in Hj; lia| |done|done].
    rewrite list_lookup_fmap, list_lookup_insert_ne, Hj by done. cbn. unfold wake.
    by rewrite decide_False by (intros [? _]; congruence).
  - by apply HQ.
Qed.

Lemma kexec_exit cur s :
  kinv (MRun cur) s -> initproc s <> Some cur -> wp (kexec (MRun cur) RExit) kinv s.
Proof.
  intros Hinv Hii. inversion Hinv as [| |? p ps mn w n ip b fi e Hok Hrun Hcur Hw0 Hn0| |]; subst. cbn in Hii.
  assert (state p = RUNNING) as Hst by by apply (Hrun cur p).
  destruct (t_init _ _ _ Hok) as (ii & pi & -> & _).
  cbn [kexec]. wp_step. eapply wp_exit; [done..|congruence|]. intros ps1 e' T1 Hl T2. wp_step.
  apply (KSwitch cur (zombie_of b p)); try done.
  - intros i q Hq. split; [|done]. intros Hr. exfalso. destruct (decide (i = cur)) as [->|Hne].
    + rewrite list_lookup_insert_eq in Hq by (rewrite Hl; by eapply lookup_lt_Some). by simplify_eq.
    + destruct (T2 i q Hne Hq) as (p0 & Hp0 & U).
      apply U, (Hrun i p0 Hp0) in Hr. congruence.
  - rewrite list_lookup_insert_eq; [done|]. rewrite Hl. by eapply lookup_lt_Some.
Qed.

(** *** The scheduler *)

Lemma find_min_Some m l i j :
  find_min m l i = Some j ->
  exists p, i <= j /\ l !! (j - i) = Some p /\ state p = RUNNABLE /\ priority p = m /\
    forall k q, i <= k < j -> l !! (k - i) = Some q -> state q = RUNNABLE -> priority q <> m.
Proof.
  revert i. induction l as [|p l IH]; intros i; cbn; [done|]. intros Hf.
  assert (Hhd : (state p = RUNNABLE /\ priority p = m /\ j = i) \/
                (find_min m l (S i) = Some j /\ (state p = RUNNABLE -> priority p <> m))).
  { case_decide; [case_decide|]; naive_solver. }
  destruct Hhd as [(Hs & Hp & ->)|[Hf' Hn]].
  - exists p. rewrite Nat.sub_diag. split_and!; try done. intros k q Hk. lia.
  - destruct (IH _ Hf') as (q & Hle & Hq & Hst & Hpr & Hbefore). exists q.
    replace (j - i) with (S (j - S i)) by lia. split_and!; try done; [lia|].
    intros k r Hk Hr Hsr. destruct (decide (k = i)) as [->|].
    + rewrite Nat.sub_diag in Hr. cbn in Hr. simplify_eq. by apply Hn.
    + apply (Hbefore k r); [lia| |done]. by replace (k - i) with (S (k - S i)) in Hr by lia.
Qed.

Lemma find_min_None m l i p :
  find_min m l i = None -> p ∈ l -> state p = RUNNABLE -> priority p <> m.
Proof.
  revert i. induction l as [|q l IH]; intros i; cbn; [by intros _ ?%elem_of_nil|].
  intros Hf [->|Hp]%elem_of_cons Hs.
  - rewrite decide_True in Hf by done. by case_decide.
  - case_decide; [case_decide; [done|]|]; by eapply IH.
Qed.

Lemma us_min_spec l :
  match us_min l with
  | Some m => (forall p, p ∈ l -> state p = RUNNABLE -> (m <= priority p)%Z) /\
              exists p, p ∈ l /\ state p = RUNNABLE /\ priority p = m
  | None => forall p, p ∈ l -> state p <> RUNNABLE
  end.
Proof.
  induction l as [|q l IH] using rev_ind; [by intros ? ?%elem_of_nil|].
  unfold us_min in *. rewrite foldl_app. cbn.
  destruct (foldl _ None l) as [m|].
  - destruct IH as [H1 (p & Hp & Hs & Hm)]. case_decide as Hq; [case_decide as Hlt|].
    + split; [|exists q; split; [apply elem_of_app; right; by apply list_elem_of_singleton|done]].
      intros r [Hr| ->%list_elem_of_singleton]%elem_of_app Hrs; [specialize (H1 r Hr Hrs)|]; lia.
    + split; [|exists p; split; [apply elem_of_app; by left|done]].
      intros r [Hr| ->%list_elem_of_singleton]%elem_of_app Hrs; [specialize (H1 r Hr Hrs)|]; lia.
    + split; [|exists p; split; [apply elem_of_app; by left|done]].
      intros r [Hr| ->%list_elem_of_singleton]%elem_of_app Hrs; [by apply H1|done].
  - case_decide as Hq.
    + split; [|exists q; split; [apply elem_of_app; right; by apply list_elem_of_singleton|done]].
      intros r [Hr| ->%list_elem_of_singleton]%elem_of_app Hrs; [by destruct (IH r Hr)|lia].
    + intros r [Hr| ->%list_elem_of_singleton]%elem_of_app; auto.
Qed.

(** What the loop over the table computes is the invariant of [min_priority]. *)
Lemma us_min_ok mn l : min_ok (default mn (us_min l)) l.
Proof.
  pose proof (us_min_spec l) as Hs. destruct (us_min l) as [m|]; cbn.
  - destruct Hs as [H1 (p & Hp & Hr & Hm)]. split.
    + intros i q Hq. by apply H1, (list_elem_of_lookup_2 _ i).
    + intros _. apply list_elem_of_lookup_1 in Hp as [i Hi]. eauto.
  - split.
    + intros i q Hq Hr. by destruct (Hs q (list_elem_of_lookup_2 _ _ _ Hq)).
    + intros (i & q & Hq & Hr). by destruct (Hs q (list_elem_of_lookup_2 _ _ _ Hq)).
Qed.

(** The entry of [p] after its time slice. *)
Definition charged (p : proc) : proc :=
  set_priority (int32 (priority p + Z.quot TIME_SLICE (weight p))) p.

Lemma wp_us_tail cur p ps mn w n ip b fi e (Q : unit -> kst E -> Prop) :
  ps !! cur = Some p -> weight p <> 0%Z ->
  (let ps' := <[cur:=charged p]> ps in
   Q tt (mkK initlock ps' (default mn (us_min ps')) w n ip (mkCpu 0 b b) None fi e)) ->
  wp (us_scheduler_tail me cur) Q (mkK (held_lock me) ps mn w n ip (mkCpu 1 b false) (Some cur) fi e).
Proof.
  intros Hcur Hwt HQ. unfold us_scheduler_tail, charge. wp_steps. rewrite decide_False by done. wp_steps.
  unfold charged in HQ. destruct (us_min _) as [m|]; by wp_steps.
Qed.

Lemma kexec_tail cur s : kinv (MSwitch cur) s -> wp (kexec (MSwitch cur) RTail) kinv s.
Proof.
  intros Hinv. inversion Hinv as [| | | |? p ps mn w n ip b fi e Hok Hrun Hcur Hu Hw0 Hn0]; subst.
  pose proof (t_proc _ _ _ Hok _ _ Hcur) as Hp. pose proof (p_weight _ _ Hp Hu).
  cbn [kexec]. wp_step. eapply wp_us_tail; [done|lia|]. cbv zeta. wp_step.
  constructor; [|by eapply run_ok_insert|apply us_min_ok|done..].
  eapply table_ok_upd1; [done..|]. by apply upd_ok_fields.
Qed.

(** What [us_scheduler_pick] does. *)
Lemma wp_us_pick ps mn w n ip b fi e (Q : option nat -> kst E -> Prop) :
  (forall i p, ps !! i = Some p -> state p = RUNNABLE -> kstack p <> 0%Z /\ pgdir p <> 0%Z) ->
  (find_min mn ps 0 = None -> Q None (mkK initlock ps mn w n ip (mkCpu 0 true true) None fi e)) ->
  (forall i p, find_min mn ps 0 = Some i -> ps !! i = Some p -> state p = RUNNABLE -> priority p = mn ->
    Q (Some i) (mkK (held_lock me) (<[i:=set_state RUNNING p]> ps) mn w n ip (mkCpu 1 true false) (Some i) fi e)) ->
  wp (us_scheduler_pick me) Q (mkK initlock ps mn w n ip (mkCpu 0 b b) None fi e).
Proof.
  intros Hks HN HS. unfold us_scheduler_pick, sti. wp_steps.
  destruct (find_min mn ps 0) as [i|] eqn:Hf; [|wp_steps; by apply HN].
  pose proof Hf as (p & _ & Hi & Hs & Hp & _)%find_min_Some. rewrite Nat.sub_0_r in Hi.
  destruct (Hks i p Hi Hs). unfold run_proc, switchuvm. wp_steps. rewrite !decide_False by done.
  unfold wp at 1. cbn [mbind stm_bind kcpu]. change (popcli (pushcli (mkCpu 1 true false))) with (Ret (mkCpu 1 true false)).
  cbn. change (with_lock _ _ _) with (mkK (held_lock me) ps mn w n ip (mkCpu 1 true false) (Some i) fi e).
  wp_steps. by apply (HS i p).
Qed.

Lemma kexec_pick s : kinv MSched s -> wp (kexec MSched RPick) kinv s.
Proof.
  intros Hinv. inversion Hinv as [ps mn w n ip b fi e Hok Hrun Hmin Hw0 Hn0| | | |]; subst.
  cbn [kexec]. wp_step. apply wp_us_pick.
  - intros i p Hi Hs. apply (p_kstack _ _ (t_proc _ _ _ Hok _ _ Hi)). congruence.
  - intros _. wp_step. by constructor.
  - intros i p _ Hi Hs _. wp_step. pose proof (t_proc _ _ _ Hok _ _ Hi) as Hp.
    pose proof (p_resume _ _ Hp) as Hres. unfold resumable in Hres. rewrite Hs in Hres.
    eapply (KPicked i (set_state RUNNING p)); [| |by rewrite list_lookup_insert_eq by by eapply lookup_lt_Some| | |done|done].
    + eapply table_ok_upd1; [done..|]. split; [|done].
      apply same_ok_live; try done; unfold live; cbn; auto.
    + intros j q Hq. apply list_lookup_insert_Some in Hq as [(-> & <- & _)|[Hne Hq]]; [done|].
      rewrite (Hrun j q Hq). split; congruence.
    + cbn. intros Hx. rewrite Hx in Hres. naive_solver.
    + cbn. intros Hx. rewrite Hx in Hres. naive_solver.
Qed.

(** *** Resuming *)

Lemma wp_sched_end l cur p ps mn w n ip b b' cp fi e (Q : unit -> kst E -> Prop) :
  ps !! cur = Some p ->
  Q tt (mkK l ps mn w n ip (mkCpu 1 (k_intena p) b') cp fi e) ->
  wp (sched_end cur) Q (mkK l ps mn w n ip (mkCpu 1 b b') cp fi e).
Proof. intros Hcur HQ. unfold sched_end. by wp_steps. Qed.

Lemma wp_forkret ps mn w n ip b cp fi e (Q : unit -> kst E -> Prop) :
  (forall e', Q tt (mkK initlock ps mn w n ip (mkCpu 0 b b) cp false e')) ->
  wp (forkret me) Q (mkK (held_lock me) ps mn w n ip (mkCpu 1 b false) cp fi e).
Proof.
  intros HQ. unfold forkret. wp_steps. destruct fi; wp_steps; [|by apply HQ].
  apply wp_callo; [apply ok_fsinit|]. done.
Qed.

Lemma kexec_resume cur s : kinv (MPicked cur) s -> wp (kexec (MPicked cur) RResume) kinv s.
Proof.
  intros Hinv. inversion Hinv as [|? p ps mn w n ip b fi e Hok Hrun Hcur Hc1 Hc2 Hw0 Hn0| | |]; subst.
  assert (state p = RUNNING) as Hst by by apply (Hrun cur p).
  pose proof (t_proc _ _ _ Hok _ _ Hcur) as Hp.
  assert (table_ok (<[cur:=set_chan NoChan p]> ps) n ip) as Hok'.
  { eapply table_ok_upd1; [done..|]. apply upd_ok_fields; try done; [congruence|apply Hp; congruence|congruence]. }
  assert (run_ok (<[cur:=set_chan NoChan p]> ps) (Some cur)) by by eapply run_ok_insert.
  assert (<[cur:=set_chan NoChan p]> ps !! cur = Some (set_chan NoChan p))
    by by rewrite list_lookup_insert_eq by by eapply lookup_lt_Some.
  cbn [kexec]. unfold resume. wp_steps. destruct (context p) eqn:Hc; try done; wp_steps.
  - apply wp_forkret. intros e'. wp_steps. by econstructor.
  - eapply wp_sched_end; [done|]. wp_steps. by econstructor.
  - eapply wp_sched_end; [done|]. wp_steps. by econstructor.
  - eapply wp_sched_end; [done|]. wp_steps. by econstructor.
Qed.

(** Every valid request returns and leads to a state of its mode. *)
Lemma kexec_inv m r s : kinv m s -> valid m r s -> wp (kexec m r) kinv s.
Proof.
  intros Hinv Hv. destruct m as [|p|p|p|p], r; try exact Hinv.
  - by apply kexec_pick.
  - by apply kexec_wakeup_sched.
  - by apply kexec_resume.
  - by apply kexec_wakeup_run.
  - by apply kexec_fork.
  - by apply kexec_exit.
  - by apply kexec_wait.
  - by apply kexec_kill.
  - by apply kexec_yield.
  - by apply kexec_weightset.
  - by apply kexec_sleep.
  - by apply kexec_wait_pass.
  - by apply kexec_tail.
Qed.

(** *** Boot *)

(** The kernel's data before [userinit]: a zeroed table. *)
Definition boot_state (e : E) : kst E :=
  mkK initlock (replicate NPROC proc0) 0 1 1 None (mkCpu 0 false false) None true e.

(** The services give [userinit] the memory and the root directory it needs. *)
Definition boot_ok (e : E) : Prop :=
  exists k e1 pg e2 e3 d e4, env_kalloc e = (Some k, e1) /\ env_setupkvm e1 = (Some pg, e2) /\ pg <> 0%Z /\
    env_inituvm pg e2 = Ret e3 /\ env_rootdir e3 = (Some d, e4).

Lemma proc0_ok np : proc_ok np proc0.
Proof. constructor; cbn; try done; auto. by intros [|[|]]. Qed.

Lemma init_table_ok p :
  proc_ok 2 p -> state p = RUNNABLE -> parent p = None -> context p <> CtxWait ->
  table_ok (<[0:=p]> (replicate NPROC proc0)) 2 (Some 0).
Proof.
  intros Hp Hs Hpar Hc.
  assert (Hlook : forall i q, <[0:=p]> (replicate NPROC proc0) !! i = Some q -> (i = 0 /\ q = p) \/ q = proc0).
  { intros i q Hq. apply list_lookup_insert_Some in Hq as [(<- & -> & _)|[Hne Hq]]; [auto|].
    apply lookup_replicate in Hq as [-> _]. auto. }
  constructor.
  - done.
  - intros i q Hq. destruct (Hlook i q Hq) as [[_ ->]| ->]; [done|apply proc0_ok].
  - intros i j q r Hq Hr Nq Nr _. destruct (Hlook i q Hq) as [[-> _]| ->]; [|done].
    destruct (Hlook j r Hr) as [[-> _]| ->]; done.
  - exists 0, p. split_and!; [done|done|unfold live; auto|done].
  - intros i q Hq Nq Hne. destruct (Hlook i q Hq) as [[-> _]| ->]; done.
  - intros i q Hq Hsl. destruct (Hlook i q Hq) as [[-> ->]| ->]; cbn in *; congruence.
Qed.

Lemma userinit_inv e : boot_ok e -> wp (userinit me) (fun _ s => kinv MSched s) (boot_state e).
Proof.
  intros (k & e1 & pg & e2 & e3 & d & e4 & Hk & Hpg & Hpg0 & Hiu & Hd).
  pose proof (ok_kalloc _ _ _ Hk) as Hk0.
  assert (Hf : find_state UNUSED (replicate NPROC proc0) 0 = Some 0) by done.
  assert (Hl : replicate NPROC proc0 !! 0 = Some proc0) by done.
  pose proof (fun p => init_table_ok p) as Hok. unfold boot_state. remember (replicate NPROC proc0) as ps eqn:Hps.
  unfold userinit, allocproc. wp_steps. rewrite Hf. wp_steps.
  eapply wp_call_eq; [exact Hk|]. wp_steps. eapply wp_call_eq; [exact Hpg|]. wp_steps.
  eapply wp_callo_eq; [exact Hiu|]. wp_steps. eapply wp_call_eq; [exact Hd|]. wp_steps.
  change (int32 (1 + 1)) with 2%Z. cbn [embryo]. subst ps. constructor; [|intros i q Hq; split; [|done]|split|lia..].
  - apply Hok; cbn; try done. constructor; cbn; try done; try lia; auto.
  - apply list_lookup_insert_Some in Hq as [(<- & <- & _)|[_ Hq]]; [done|]. by apply lookup_replicate in Hq as [-> _].
  - intros i q Hq Hs. apply list_lookup_insert_Some in Hq as [(<- & <- & _)|[_ Hq]]; [done|].
    by apply lookup_replicate in Hq as [-> _].
  - intros _. exists 0. eexists. split; [reflexivity|]. done.
Qed.

(** The states the kernel can reach from boot by valid requests. *)
Inductive kreach : mode -> kst E -> Prop :=
  | kreach_boot e s : boot_ok e -> userinit me (boot_state e) = Ret (tt, s) -> kreach MSched s
  | kreach_step m s r m' s' :
      kreach m s -> valid m r s -> kexec m r s = Ret (m', s') -> kreach m' s'.

Lemma kreach_inv m s : kreach m s -> kinv m s.
Proof.
  induction 1 as [e s Hb Hu|m s r m' s' _ IH Hv Hx].
  - exact (wp_elim _ _ _ _ _ (userinit_inv e Hb) Hu).
  - exact (wp_elim _ _ _ _ _ (kexec_inv m r s IH Hv) Hx).
Qed.

End Ops.

(** ** A concrete environment

    Services that always succeed: the memory allocator hands out addresses
    counted up from 4096, there is one root directory. *)
#[global] Instance simple_env : KernelEnv Z := {|
  env_kalloc e := (Some (4096 * (1 + Z.abs e))%Z, (e + 1)%Z);
  env_kfree _ e := Ret e;
  env_setupkvm e := (Some (4096 * (1 + Z.abs e))%Z, (e + 1)%Z);
  env_inituvm _ e := Ret e;
  env_copyuvm _ _ e := (Some (4096 * (1 + Z.abs e))%Z, (e + 1)%Z);
  env_freevm _ e := Ret e;
  env_allocuvm _ _ n e := (n, e);
  env_deallocuvm _ _ n e := (n, e);
  env_filedup _ e := Ret e;
  env_fileclose _ e := Ret e;
  env_idup _ e := Ret e;
  env_iput _ e := Ret e;
  env_begin_op e := Ret e;
  env_end_op e := Ret e;
  env_rootdir e := (Some 0, e);
  env_fsinit e := Ret e
|}.

#[global] Instance simple_env_ok : KernelEnvOk Z.
Proof. constructor; cbn; intros; simplify_eq; try lia; eauto. Qed.

Lemma simple_boot_ok (e : Z) : boot_ok e.
Proof. do 7 eexists. cbn. split_and!; try reflexivity. lia. Qed.

(** Running a list of requests, keeping the last state. *)
Fixpoint kruns {E} `{KernelEnv E} (me : nat) (rs : list req) (m : mode) : proc_m E mode :=
  match rs with
  | [] => mret m
  | r :: rs => m ← kexec me m r; kruns me rs m
  end.

Fixpoint kvalid {E} `{KernelEnv E} (me : nat) (rs : list req) (m : mode) (s : kst E) : Prop :=
  match rs with
  | [] => True
  | r :: rs => valid m r s /\ match kexec me m r s with Ret (m, s) => kvalid me rs m s | _ => False end
  end.

Lemma kruns_reach {E} `{KernelEnv E} me rs m s m' s' :
  kreach me m s -> kvalid me rs m s -> kruns me rs m s = Ret (m', s') -> kreach me m' s'.
Proof.
  revert m s. induction rs as [|r rs IH]; intros m s Hr Hv Hx.
  - injection Hx as <- <-. exact Hr.
  - destruct Hv as [Hv1 Hv2]. cbn [kruns] in Hx. unfold mbind, stm_bind in Hx.
    destruct (kexec me m r s) as [[m1 s1]| | |] eqn:Hk; try done.
    cbn in Hx. eapply IH; [by econstructor|done|done].
Qed.
End ProcOps.
