(* ===== verification/Stride.v ===== *)
(** * Fairness of the stride scheduler

    The scheduler of [src/update scheduler/proc.c] gives the CPU to a
    [RUNNABLE] process of least [priority] and adds [TIME_SLICE / weight] to
    it.  Here: a round of the kernel in which every process uses its whole time
    slice, and how the slices of two processes relate after many rounds. *)
From S2P Require Export ProcOps.

Module Stride.
Import Spin Proc ProcInv ProcOps.

(** The price of one time slice. *)
Definition stride (p : proc) : Z := Z.quot TIME_SLICE (weight p).

Lemma stride_bounds p : (0 < weight p)%Z -> (0 <= stride p <= TIME_SLICE)%Z.
Proof.
  intros Hw. unfold stride, TIME_SLICE. rewrite Z.quot_div_nonneg by lia.
  split; [apply Z.div_pos; lia|]. apply Z.div_le_upper_bound; nia.
Qed.

Section Stride.
Context {E : Type} `{KernelEnvOk E} (me : nat).

(** A round: pick, run for a time slice, preempted by the timer ([yield]). *)
Definition round : proc_m E (option nat) :=
  m ← kexec me MSched RPick;
  match m with
  | MPicked p =>
      kexec me (MPicked p) RResume ;;
      kexec me (MRun p) RYield ;;
      kexec me (MSwitch p) RTail ;;
      mret (Some p)
  | _ => mret None
  end.

(** [k] rounds; the processes that ran, in order. *)
Fixpoint rounds (k : nat) : proc_m E (list nat) :=
  match k with
  | O => mret []
  | S k => p ← round; l ← rounds k; mret (match p with Some p => p :: l | None => l end)
  end.

(** The process computes: it is not inside [sleep]. *)
Definition computing (p : proc) : Prop := context p = CtxForkret \/ context p = CtxYield.

(** The process after a round in which it ran. *)
Definition ran (p : proc) : proc :=
  set_priority (int32 (priority p + stride p)) (set_context CtxYield (set_state RUNNABLE p)).

Lemma wp_round ps mn w n ip b fi e (Q : option nat -> kst E -> Prop) :
  kinv me MSched (mkK initlock ps mn w n ip (mkCpu 0 b b) None fi e) ->
  (exists i p, ps !! i = Some p /\ state p = RUNNABLE) ->
  (forall i p, ps !! i = Some p -> state p = RUNNABLE -> computing p) ->
  (forall i p v b' fi' e', ps !! i = Some p -> state p = RUNNABLE -> priority p = mn ->
    let ps' := <[i:=set_intena v (ran p)]> ps in
    kinv me MSched (mkK initlock ps' (default mn (us_min ps')) w n ip (mkCpu 0 b' b') None fi' e') ->
    Q (Some i) (mkK initlock ps' (default mn (us_min ps')) w n ip (mkCpu 0 b' b') None fi' e')) ->
  wp round Q (mkK initlock ps mn w n ip (mkCpu 0 b b) None fi e).
Proof.
  intros Hinv (i0 & p0 & Hi0 & Hs0) Hcomp HQ.
  inversion Hinv as [? ? ? ? ? ? ? ? Hok Hrun Hmin Hw0 Hn0| | | |]; subst.
  unfold round. cbn [kexec]. wp_steps. apply wp_us_pick.
  { intros i p Hi Hs. apply (p_kstack _ _ (t_proc _ _ _ Hok _ _ Hi)). congruence. }
  { intros Hf. exfalso. destruct (proj2 Hmin) as (i & p & Hi & Hs & Hp); [eauto|].
    eapply (find_min_None mn ps 0 p); [done|by eapply list_elem_of_lookup_2|done|done]. }
  intros i p _ Hi Hs Hp. assert (i < length ps) as Hlt by by eapply lookup_lt_Some.
  pose proof (t_proc _ _ _ Hok _ _ Hi) as Hpok.
  assert (weight p <> 0%Z) as Hw by (pose proof (p_weight _ _ Hpok); intros ?; rewrite Hs in *; naive_solver lia).
  assert (Hfin : forall v b' fi' e', let ps' := <[i:=set_intena v (ran p)]> ps in
    Q (Some i) (mkK initlock ps' (default mn (us_min ps')) w n ip (mkCpu 0 b' b') None fi' e')).
  { intros v b' fi' e' ps'. apply HQ; [done..|]. constructor; [|by eapply run_ok_insert; [done..|rewrite Hs]|apply us_min_ok|done..].
    eapply table_ok_upd1; [done..|]. split; [|done].
    apply same_ok_live; try done; unfold live, resumable; cbn; auto. }
  assert (Hrest : forall b1 fi1 e1, wp (yield me) (fun _ => wp (mret (MSwitch i)) (fun _ =>
      wp ((us_scheduler_tail me i ;; mret MSched) ;; mret (Some i)) Q))
    (mkK initlock (<[i:=set_state RUNNING p]> ps) mn w n ip (mkCpu 0 b1 b1) (Some i) fi1 e1)).
  { intros b1 fi1 e1. unfold yield. wp_steps. eapply wp_sched; [wp_lookup|done|].
    rewrite list_insert_insert_eq. wp_steps. eapply wp_us_tail; [wp_lookup|done|].
    cbv zeta. rewrite list_insert_insert_eq. wp_steps. apply (Hfin b1). }
  wp_steps. cbn [kexec]. unfold resume. wp_steps. cbn [context set_state].
  destruct (Hcomp i p Hi Hs) as [Hc|Hc]; rewrite Hc; wp_steps.
  - apply wp_forkret. intros e'. wp_steps. apply Hrest.
  - eapply wp_sched_end; [wp_lookup|]. wp_steps. apply Hrest.
Qed.

(** ** Counting slices *)

Definition slices (i : nat) (l : list nat) : Z := Z.of_nat (length (filter (fun j => j = i) l)).

(** Between rounds: every [RUNNABLE] process computes, and its priority is
    within one of its strides (at most [D]) above the minimum. *)
Record fair (D : Z) (s : kst E) : Prop := {
  f_inv : kinv me MSched s;
  f_some : exists i p, procs s !! i = Some p /\ state p = RUNNABLE;
  f_proc i p : procs s !! i = Some p -> state p = RUNNABLE ->
    computing p /\ (min_priority s <= priority p <= min_priority s + stride p)%Z /\ (stride p <= D)%Z
}.

(** How the table changes over rounds in which the processes [l] ran. *)
Definition advanced (ps ps' : list proc) (l : list nat) : Prop :=
  forall i p, ps !! i = Some p -> state p = RUNNABLE ->
  exists q, ps' !! i = Some q /\ state q = RUNNABLE /\ weight q = weight p /\
    priority q = (priority p + slices i l * stride p)%Z.

Lemma slices_cons_eq i l : slices i (i :: l) = (1 + slices i l)%Z.
Proof. unfold slices. rewrite filter_cons_True by done. cbn [length]. lia. Qed.
Lemma slices_cons_ne i j l : j <> i -> slices i (j :: l) = slices i l.
Proof. intros. unfold slices. by rewrite filter_cons_False. Qed.

Lemma advanced_refl ps : advanced ps ps [].
Proof. intros i p Hi Hs. exists p. split_and!; try done. change (slices i []) with 0%Z. lia. Qed.

Lemma advanced_cons ps ps1 ps2 j l :
  advanced ps ps1 [j] -> advanced ps1 ps2 l -> advanced ps ps2 (j :: l).
Proof.
  intros H1 H2 i p Hi Hs. destruct (H1 i p Hi Hs) as (q & Hq & Hsq & Hwq & Hpq).
  destruct (H2 i q Hq Hsq) as (r & Hr & Hsr & Hwr & Hpr). exists r. split_and!; try done; [congruence|].
  unfold stride in *. rewrite Hpr, Hpq, Hwq. destruct (decide (j = i)) as [->|].
  - rewrite !slices_cons_eq. change (slices i []) with 0%Z. ring.
  - rewrite !slices_cons_ne by done. change (slices i []) with 0%Z. ring.
Qed.

Lemma min_ok_unique m1 m2 ps :
  (exists i p, ps !! i = Some p /\ state p = RUNNABLE) -> min_ok m1 ps -> min_ok m2 ps -> m1 = m2.
Proof.
  intros Hex [H1 H1'] [H2 H2']. destruct (H1' Hex) as (i & p & Hi & Hs & <-), (H2' Hex) as (j & q & Hj & Hr & <-).
  specialize (H1 _ _ Hj Hr). specialize (H2 _ _ Hi Hs). lia.
Qed.

(** One round keeps the processes together. *)
Lemma fair_round D s :
  fair D s -> (-2147483648 <= min_priority s)%Z -> (min_priority s + D < 2147483648)%Z ->
  wp round (fun r s' => exists i, r = Some i /\ fair D s' /\ advanced (procs s) (procs s') [i] /\
              (min_priority s <= min_priority s' <= min_priority s + D)%Z) s.
Proof.
  intros [Hinv Hex Hpr] Hlo Hhi.
  inversion Hinv as [ps mn w n ip b fi e Hok Hrun Hmin Hw0 Hn0| | | |]; subst. cbn in *.
  apply wp_round; [done|done|intros i p Hi Hs; by apply (Hpr i p)|].
  intros i p v b' fi' e' Hi Hs Hp ps' Hinv'. exists i. split; [done|].
  destruct (Hpr i p Hi Hs) as (Hc & Hb & HD).
  assert (Hq : priority (set_intena v (ran p)) = (mn + stride p)%Z).
  { cbn. rewrite Hp, int32_small by lia. done. }
  assert (Hlook : ps' !! i = Some (set_intena v (ran p))) by by (apply list_lookup_insert_eq; eapply lookup_lt_Some).
  assert (Hex' : exists i p, ps' !! i = Some p /\ state p = RUNNABLE) by eauto.
  assert (Hmin' : min_ok (default mn (us_min ps')) ps') by (inversion Hinv'; subst; done).
  destruct Hmin' as [Hle Hat]. assert (Hm : (mn <= default mn (us_min ps') <= mn + D)%Z).
  { split.
    - destruct (Hat Hex') as (j & q & Hj & Hsq & <-).
      apply list_lookup_insert_Some in Hj as [(-> & <- & _)|[_ Hj]]; [lia|]. by apply (Hpr j q).
    - specialize (Hle i _ Hlook eq_refl). lia. }
  split; [|split; [cbn|exact Hm]].
  - constructor; cbn; [done|done|]. intros j q Hj Hsq. pose proof (Hle j q Hj Hsq).
    apply list_lookup_insert_Some in Hj as [(-> & <- & _)|[_ Hj]].
    + split_and!; [by right|lia| |done]. unfold stride in *. cbn [weight set_intena ran set_priority set_context set_state] in *. lia.
    + destruct (Hpr j q Hj Hsq) as (? & ? & ?). split_and!; try done; lia.
  - intros j q Hj Hsq. destruct (decide (i = j)) as [<-|Hne].
    + rewrite Hi in Hj. simplify_eq. exists (set_intena v (ran q)). split_and!; try done.
      rewrite Hq, slices_cons_eq. change (slices i []) with 0%Z. lia.
    + exists q. unfold ps'. rewrite list_lookup_insert_ne, slices_cons_ne by done.
      split_and!; try done. change (slices j []) with 0%Z. lia.
Qed.

Lemma fair_rounds D k s :
  fair D s -> (0 <= D)%Z -> (-2147483648 <= min_priority s)%Z ->
  (min_priority s + Z.of_nat k * D < 2147483648)%Z ->
  wp (rounds k) (fun l s' => length l = k /\ fair D s' /\ advanced (procs s) (procs s') l) s.
Proof.
  revert s. induction k as [|k IH]; intros s Hf HD Hlo Hhi; cbn [rounds].
  { apply wp_ret. split_and!; [done..|apply advanced_refl]. }
  apply wp_bind. eapply wp_mono; [apply fair_round; [done..|nia]|].
  intros r s1 (i & -> & Hf1 & Ha1 & Hm1). apply wp_bind. eapply wp_mono; [apply IH; [done..|lia|nia]|].
  intros l s2 (Hl & Hf2 & Ha2). apply wp_ret. split_and!; [cbn; lia|done|]. by eapply advanced_cons.
Qed.

End Stride.

(** C3. Stride scheduling is fair: when the [RUNNABLE] processes compute and
    each priority is within one stride of the minimum, [k] rounds of the
    scheduler run exactly [k] slices, keep those processes [RUNNABLE], and the
    time given to any two of them, weighted by their strides
    ([TIME_SLICE / weight]), differs by at most the sum of the two strides.
    (No priority may pass the range of [int] in the [k] rounds.) *)
Theorem stride_fairness {E} `{KernelEnvOk E} me D k (s : kst E) :
  fair me D s -> (0 <= D)%Z -> (-2147483648 <= min_priority s)%Z ->
  (min_priority s + Z.of_nat k * D < 2147483648)%Z ->
  exists l s', rounds me k s = Ret (l, s') /\ length l = k /\
  forall i j p q, procs s !! i = Some p -> state p = RUNNABLE -> procs s !! j = Some q -> state q = RUNNABLE ->
    (Z.abs (slices i l * stride p - slices j l * stride q) <= stride p + stride q)%Z /\
    exists p', procs s' !! i = Some p' /\ state p' = RUNNABLE /\
      priority p' = (priority p + slices i l * stride p)%Z.
Proof.
  intros Hf HD Hlo Hhi. destruct (proj1 (wp_Ret _ _ _) (fair_rounds me D k s Hf HD Hlo Hhi)) as (l & s' & Hr & Hl & Hf' & Ha).
  exists l, s'. split_and!; [done..|]. intros i j p q Hi Hp Hj Hq.
  destruct (Ha i p Hi Hp) as (p' & Hp' & Hsp & Hwp & Hpp), (Ha j q Hj Hq) as (q' & Hq' & Hsq & Hwq & Hpq).
  destruct (f_proc _ _ _ Hf i p Hi Hp) as (_ & B1 & _), (f_proc _ _ _ Hf j q Hj Hq) as (_ & B2 & _).
  destruct (f_proc _ _ _ Hf' i p' Hp' Hsp) as (_ & B3 & _), (f_proc _ _ _ Hf' j q' Hq' Hsq) as (_ & B4 & _).
  unfold stride in *. rewrite Hwp in B3. rewrite Hwq in B4. split; [lia|eauto].
Qed.

Global Instance computing_dec p : Decision (computing p).
Proof. unfold computing. apply _. Defined.

(** Boot, and init forks twice: three processes with weights 1, 2 and 3. *)
Definition three : outcome (mode * kst Z) :=
  '(_, s) ← userinit 0 (boot_state 0%Z);
  kruns 0 [RPick; RResume; RFork; RFork; RYield; RTail] MSched s.

Lemma three_fair : exists s, three = Ret (MSched, s) /\ min_priority s = 3%Z /\ fair 0 10000000 s.
Proof.
  unfold three.
  assert (exists s0, userinit 0 (boot_state 0%Z) = Ret (tt, s0) /\
    exists s, kruns 0 [RPick; RResume; RFork; RFork; RYield; RTail] MSched s0 = Ret (MSched, s) /\
      kvalid 0 [RPick; RResume; RFork; RFork; RYield; RTail] MSched s0 /\
      min_priority s = 3%Z /\
      Forall (fun p => state p = RUNNABLE -> computing p /\
        ((3 <= priority p)%Z /\ (priority p <= 3 + stride p)%Z) /\ (stride p <= 10000000)%Z) (procs s) /\
      exists p, procs s !! 0 = Some p /\ state p = RUNNABLE) as (s0 & H0 & s & Hs & Hv & Hm & Hall & p & Hp & Hr).
  { eexists. split; [vm_compute; reflexivity|]. eexists. split; [vm_compute; reflexivity|].
    split; [vm_compute; intuition congruence|]. split; [reflexivity|]. split; [|eexists; split; reflexivity].
    apply (bool_decide_unpack _). vm_compute. exact I. }
  exists s. rewrite H0. cbn [mbind outcome_bind]. rewrite Hs. split; [done|]. split; [done|]. constructor.
  - apply kreach_inv. eapply kruns_reach; [|exact Hv|exact Hs]. econstructor; [apply simple_boot_ok|exact H0].
  - eauto.
  - intros i q Hq Hsq. rewrite Hm. apply (proj1 (Forall_lookup _ _) Hall i q Hq Hsq).
Qed.

Lemma stride_fairness_witness :
  exists s l s', three = Ret (MSched, s) /\ rounds 0 20 s = Ret (l, s') /\ length l = 20 /\
  forall i j p q, procs s !! i = Some p -> state p = RUNNABLE -> procs s !! j = Some q -> state q = RUNNABLE ->
    (Z.abs (slices i l * stride p - slices j l * stride q) <= stride p + stride q)%Z /\
    exists p', procs s' !! i = Some p' /\ state p' = RUNNABLE /\
      priority p' = (priority p + slices i l * stride p)%Z.
Proof.
  destruct three_fair as (s & Hs & Hm & Hf).
  destruct (stride_fairness 0 10000000 20 s Hf) as (l & s' & H1 & H2 & H3); [lia|rewrite Hm; lia|rewrite Hm; lia|].
  exists s, l, s'. split; [exact Hs|]. split; [exact H1|]. split; [exact H2|exact H3].
Defined.

End Stride.
