(* ===== verification/ProcThms.v ===== *)
(** * Theorems about processes and the scheduler

    Safety and the invariant of the kernel on one CPU, the choice of the
    scheduler, [fork] and [wait], and three defects: the scheduler of
    [xv6-public/proc.c] when no process is [RUNNABLE], a weight of zero, and a
    [kill] of the pid of a failed [fork]. *)
From S2P Require Export Stride.

Module ProcThms.
Import Spin Proc ProcInv ProcOps.


(** Boot, and the first process runs. *)
Definition first_run : outcome (mode * kst Z) :=
  '(_, s) ← userinit 0 (boot_state 0%Z); kruns 0 [RPick; RResume] MSched s.

Lemma first_run_reach : exists s, first_run = Ret (MRun 0, s) /\ kreach 0 (MRun 0) s /\
  nextpid s = 2%Z /\ g_weight s = 2%Z.
Proof.
  unfold first_run.
  assert (exists s0, userinit 0 (boot_state 0%Z) = Ret (tt, s0) /\
    exists s, kruns 0 [RPick; RResume] MSched s0 = Ret (MRun 0, s) /\ kvalid 0 [RPick; RResume] MSched s0 /\
      nextpid s = 2%Z /\ g_weight s = 2%Z)
    as (s0 & H0 & s & Hs & Hv & Hn & Hw).
  { eexists. split; [vm_compute; reflexivity|]. eexists. split; [vm_compute; reflexivity|].
    split; [vm_compute; tauto|]. split; reflexivity. }
  exists s. rewrite H0. cbn [mbind outcome_bind]. rewrite Hs. split_and!; [done| |done..].
  eapply kruns_reach; [|exact Hv|exact Hs]. econstructor; [apply simple_boot_ok|exact H0].
Qed.


Lemma kinv_table {E} `{KernelEnv E} me m (s : kst E) :
  kinv me m s -> table_ok (procs s) (nextpid s) (initproc s).
Proof. by inversion 1. Qed.

Lemma kinv_running {E} `{KernelEnv E} me m (s : kst E) i p :
  kinv me m s -> procs s !! i = Some p ->
  state p = RUNNING <-> m = MPicked i \/ m = MRun i \/ m = MWait i.
Proof.
  inversion 1 as [? ? ? ? ? ? ? ? ? Hr|? ? ? ? ? ? ? ? ? ? ? Hr|? ? ? ? ? ? ? ? ? ? ? Hr
                 |? ? ? ? ? ? ? ? ? ? ? Hr|? ? ? ? ? ? ? ? ? ? ? Hr]; subst; cbn; intros Hi;
    rewrite (Hr i p Hi); naive_solver.
Qed.

(** C14. The process table in every reachable state: pids are positive and
    unique, exactly the process that has the CPU is [RUNNING], every process
    but init has a live parent (children of an exited process are passed to
    init), and a process asleep in [wait] has no zombie child and is not killed,
    so it has missed no wakeup. *)
Theorem process_table_invariant {E} `{KernelEnvOk E} me m (s : kst E) :
  kreach me m s ->
  (forall i j p q, procs s !! i = Some p -> procs s !! j = Some q -> state p <> UNUSED -> state q <> UNUSED ->
     pid p = pid q -> i = j) /\
  (forall i p, procs s !! i = Some p -> state p <> UNUSED -> (0 < pid p < nextpid s)%Z) /\
  (forall i p, procs s !! i = Some p -> state p = RUNNING <-> m = MPicked i \/ m = MRun i \/ m = MWait i) /\
  (forall i p, procs s !! i = Some p -> state p <> UNUSED -> Some i <> initproc s ->
     exists j q, parent p = Some j /\ procs s !! j = Some q /\ live q) /\
  (forall i p, procs s !! i = Some p -> state p = SLEEPING -> context p = CtxWait ->
     chan p = CProc i /\ killed p = false /\
     forall j q, procs s !! j = Some q -> parent q = Some i -> state q <> ZOMBIE).
Proof.
  intros Hr%kreach_inv. pose proof (kinv_table _ _ _ Hr) as Hok. split_and!.
  - apply Hok.
  - intros i p Hi. apply (t_proc _ _ _ Hok _ _ Hi).
  - intros i p. by apply (kinv_running me).
  - intros i p Hi Hs Hne. destruct (t_parent _ _ _ Hok i p Hi Hs Hne) as (j & q & ? & _ & ? & ?). eauto.
  - intros i p Hi. by apply (t_wait _ _ _ Hok).
Qed.

Lemma process_table_invariant_witness :
  exists s, first_run = Ret (MRun 0, s) /\
  forall i p, procs s !! i = Some p -> state p <> UNUSED -> (0 < pid p < nextpid s)%Z.
Proof.
  destruct first_run_reach as (s & Hs & Hr & _). exists s. split; [exact Hs|].
  apply (process_table_invariant 0 (MRun 0) s Hr).
Defined.

(** The scheduler is work conserving and picks a process of least priority:
    between time slices, if a process is [RUNNABLE], [us_scheduler_pick]
    switches to the first one of least priority; otherwise it goes around the
    loop. *)
Theorem scheduler_picks_least {E} `{KernelEnvOk E} me (s : kst E) :
  kreach me MSched s ->
  ((exists i p, procs s !! i = Some p /\ state p = RUNNABLE) ->
   exists i p s', us_scheduler_pick me s = Ret (Some i, s') /\ procs s !! i = Some p /\ state p = RUNNABLE /\
     procs s' = <[i:=set_state RUNNING p]> (procs s) /\ cproc s' = Some i /\
     forall j q, procs s !! j = Some q -> state q = RUNNABLE ->
       (priority p <= priority q)%Z /\ (j < i -> (priority p < priority q)%Z)) /\
  ((forall i p, procs s !! i = Some p -> state p <> RUNNABLE) ->
   exists s', us_scheduler_pick me s = Ret (None, s') /\ procs s' = procs s).
Proof.
  intros Hr%kreach_inv. inversion Hr as [ps mn w n ip b fi e Hok Hrun Hmin Hw0 Hn0| | | |]; subst. cbn [procs].
  assert (Hks : forall i p, ps !! i = Some p -> state p = RUNNABLE -> kstack p <> 0%Z /\ pgdir p <> 0%Z).
  { intros i p Hi Hs. apply (p_kstack _ _ (t_proc _ _ _ Hok _ _ Hi)). congruence. }
  split.
  - intros Hex. destruct (proj1 (wp_Ret (us_scheduler_pick me) (fun r (s' : kst E) => exists i p,
      r = Some i /\ find_min mn ps 0 = Some i /\ ps !! i = Some p /\ state p = RUNNABLE /\ priority p = mn /\
      procs s' = <[i:=set_state RUNNING p]> ps /\ cproc s' = Some i)
      (mkK initlock ps mn w n ip (mkCpu 0 b b) None fi e)))
      as (a & s' & Hx & i & p & -> & Hf & Hi & Hs & Hp & Hps & Hc).
    { apply wp_us_pick; [done| |by intros i p Hf Hi Hs Hp; exists i, p].
      intros Hf. exfalso. destruct (proj2 Hmin Hex) as (i & p & Hi & Hs & Hp).
      eapply (find_min_None mn ps 0 p); [done|by eapply list_elem_of_lookup_2|done|done]. }
    exists i, p, s'. split_and!; try done. intros j q Hj Hsq. pose proof (proj1 Hmin j q Hj Hsq). split; [lia|].
    intros Hlt. apply find_min_Some in Hf as (_ & _ & _ & _ & _ & Hbefore).
    specialize (Hbefore j q). rewrite Nat.sub_0_r in Hbefore. specialize (Hbefore ltac:(lia) Hj Hsq). lia.
  - intros Hnone. destruct (proj1 (wp_Ret (us_scheduler_pick me) (fun r (s' : kst E) => r = None /\ procs s' = ps)
      (mkK initlock ps mn w n ip (mkCpu 0 b b) None fi e))) as (a & s' & Hx & -> & Hps).
    { apply wp_us_pick; [done|done|]. intros i p _ Hi Hs. by destruct (Hnone i p Hi). }
    eauto.
Qed.

Lemma scheduler_picks_least_witness :
  exists s, userinit 0 (boot_state 0%Z) = Ret (tt, s) /\
  exists i p s', us_scheduler_pick 0 s = Ret (Some i, s') /\ procs s !! i = Some p /\ state p = RUNNABLE.
Proof.
  assert (exists s, userinit 0 (boot_state 0%Z) = Ret (tt, s) /\ exists p, procs s !! 0 = Some p /\ state p = RUNNABLE)
    as (s & Hs & p & Hp & Hrun).
  { eexists. split; [vm_compute; reflexivity|]. eexists. split; reflexivity. }
  exists s. split; [exact Hs|].
  destruct (scheduler_picks_least 0 s) as [H1 _]; [econstructor; [apply simple_boot_ok|exact Hs]|].
  destruct H1 as (i & q & s' & Hx & Hi & Hq & _); [eauto|]. exists i, q, s'. exact (conj Hx (conj Hi Hq)).
Defined.

(** ** fork and wait *)

Lemma kinv_run {E} `{KernelEnv E} me cur (s : kst E) :
  kinv me (MRun cur) s -> exists ps mn w n ip b fi e p,
    s = mkK initlock ps mn w n ip (mkCpu 0 b b) (Some cur) fi e /\
    table_ok ps n ip /\ ps !! cur = Some p /\ state p = RUNNING.
Proof.
  inversion 1 as [| |? p ps mn w n ip b fi e Hok Hrun Hcur Hw0 Hn0| |]; subst.
  exists ps, mn, w, n, ip, b, fi, e, p. split_and!; try done. by apply (Hrun cur p).
Qed.

(** C38. [fork]: it returns -1 and no used entry of the table changes, which happens
    only when all entries are used or there is no memory for the child, or it
    returns the next pid and fills an unused entry with a [RUNNABLE] copy of
    the caller: same size, registers except [eax] which is 0, open files,
    working directory, name and trace mask; its parent is the caller, its
    priority the least one and its weight the next one. *)
Theorem fork_creates_child {E} `{KernelEnvOk E} me cur (s : kst E) p :
  kreach me (MRun cur) s -> procs s !! cur = Some p ->
  exists r s', fork me s = Ret (r, s') /\
    ((r = (-1)%Z /\ ((forall i q, procs s !! i = Some q -> state q <> UNUSED) \/ no_memory (env s) p) /\
      forall i q, procs s !! i = Some q -> state q <> UNUSED -> procs s' !! i = Some q) \/
     (r = nextpid s /\ exists i q c, procs s !! i = Some q /\ state q = UNUSED /\ procs s' = <[i:=c]> (procs s) /\
        state c = RUNNABLE /\ pid c = nextpid s /\ parent c = Some cur /\
        sz c = sz p /\ tf c = clear_eax (tf p) /\ ofile c = ofile p /\ cwd c = cwd p /\
        name c = safestrcpy16 (name p) /\ trace c = trace p /\
        priority c = min_priority s /\ weight c = g_weight s)).
Proof.
  intros Hr%kreach_inv Hp.
  destruct (kinv_run _ _ _ Hr) as (ps & mn & w & n & ip & b & fi & e & p' & -> & Hok & Hcur & Hst).
  cbn in Hp. rewrite Hcur in Hp. injection Hp as ->.
  pose proof (t_proc _ _ _ Hok _ _ Hcur) as Hpok. apply wp_Ret. cbn [procs nextpid min_priority g_weight].
  eapply wp_fork; [done|apply (p_cwd _ _ Hpok); by apply live_running|apply Hpok|congruence| | | |].
  - intros i q Hi Hq. apply (p_closed _ _ (t_proc _ _ _ Hok _ _ Hi)). by left.
  - intros Hfs. left. split; [done|]. split; [left; intros i q Hi; eapply find_state_None; [exact Hfs|by eapply list_elem_of_lookup_2]|by intros].
  - intros i q q' e' _ Hi Hq _ Hmem. left. split; [done|]. split; [by right|]. intros j r Hj Hjr. cbn.
    by rewrite list_lookup_insert_ne by congruence.
  - intros i q k pg e' _ Hi Hq _ _. right. split; [done|]. by exists i, q, (child n w mn cur k pg p q).
Qed.

Lemma fork_creates_child_witness :
  exists s r s', first_run = Ret (MRun 0, s) /\ fork 0 s = Ret (r, s') /\ (r = (-1)%Z \/ r = nextpid s).
Proof.
  destruct first_run_reach as (s & Hs & Hr & _).
  destruct (procs s !! 0) as [p|] eqn:Hp.
  - destruct (fork_creates_child 0 0 s p Hr Hp) as (r & s' & Hx & [(Hr1 & _)|(Hr1 & _)]); exists s, r, s'; auto.
  - exfalso. vm_compute in Hs. injection Hs as Hs. subst s. discriminate Hp.
Defined.

(** One pass of [wait]: with a zombie child it returns the child's pid and
    frees its entry; without children, or when the caller has been killed, it
    returns -1; otherwise the caller sleeps on its own address and no child is
    a zombie. *)
Theorem wait_spec {E} `{KernelEnvOk E} me cur (s : kst E) p :
  kreach me (MRun cur) s -> procs s !! cur = Some p ->
  exists r s', wait me s = Ret (r, s') /\
  ((exists c q q', r = Done (pid q) /\ procs s !! c = Some q /\ parent q = Some cur /\ state q = ZOMBIE /\
      procs s' = <[c:=q']> (procs s) /\ state q' = UNUSED /\ pid q' = 0%Z /\ kstack q' = 0%Z) \/
   ((forall i q, procs s !! i = Some q -> parent q = Some cur -> state q <> ZOMBIE) /\
    (((forall i q, procs s !! i = Some q -> parent q <> Some cur) \/ killed p = true) /\
       r = Done (-1)%Z /\ procs s' = procs s \/
     (exists i q, procs s !! i = Some q /\ parent q = Some cur) /\ killed p = false /\
       r = Sleeps 0%Z /\ exists p', procs s' = <[cur:=p']> (procs s) /\ state p' = SLEEPING /\ chan p' = CProc cur))).
Proof.
  intros Hr%kreach_inv Hp.
  destruct (kinv_run _ _ _ Hr) as (ps & mn & w & n & ip & b & fi & e & p' & -> & Hok & Hcur & Hst).
  cbn in Hp. rewrite Hcur in Hp. injection Hp as ->.
  apply wp_Ret. cbn [procs]. unfold wait, wait_pass. wp_steps.
  destruct (wait_scan cur ps 0 false) as [hk [c|]] eqn:Hs; apply wait_scan_spec in Hs.
  - destruct Hs as (q & _ & Hc & Hpq & Hz). rewrite Nat.sub_0_r in Hc. wp_steps.
    apply wp_callo; [apply ok_kfree|]. intros e1. wp_steps. apply wp_callo; [apply ok_freevm|]. intros e2. wp_steps.
    left. eexists c, q, _. split_and!; try done.
  - destruct Hs as [Hnz Hhk].
    assert (Hnz' : forall i q, ps !! i = Some q -> parent q = Some cur -> state q <> ZOMBIE)
      by (intros i q Hq; by eapply Hnz, list_elem_of_lookup_2).
    assert (Hkids : hk = true <-> exists i q, ps !! i = Some q /\ parent q = Some cur).
    { rewrite Hhk. setoid_rewrite list_elem_of_lookup. naive_solver. }
    destruct (negb hk || killed p)%bool eqn:Hk.
    + wp_steps. right. split; [done|]. left. split_and!; try done.
      destruct hk; cbn in Hk; [by right|left]. intros i q Hq Hpq. enough (false = true) by done. apply Hkids. eauto.
    + apply orb_false_iff in Hk as [Hh Hk]. apply negb_false_iff in Hh. subst hk. unfold sleep. wp_steps.
      eapply wp_sched; [wp_lookup|done|]. rewrite list_insert_insert_eq. wp_steps.
      right. split; [done|]. right. split_and!; [by apply Hkids|done|done|]. by eexists.
Qed.

Lemma wait_spec_witness :
  exists s r s', first_run = Ret (MRun 0, s) /\ wait 0 s = Ret (r, s').
Proof.
  destruct first_run_reach as (s & Hs & Hr & _).
  destruct (procs s !! 0) as [p|] eqn:Hp.
  - destruct (wait_spec 0 0 s p Hr Hp) as (r & s' & Hx & _). exists s, r, s'. auto.
  - exfalso. vm_compute in Hs. injection Hs as Hs. subst s. discriminate Hp.
Defined.

(** ** Defects *)

(** [init] goes to sleep right after boot: nothing is [RUNNABLE]. *)
Definition idle_run : outcome (mode * kst Z) :=
  '(_, s) ← userinit 0 (boot_state 0%Z); kruns 0 [RPick; RResume; RSleep (CAddr 5)] MSched s.

Lemma idle_run_reach : exists s, idle_run = Ret (MSwitch 0, s) /\ kreach 0 (MSwitch 0) s /\
  forall i p, procs s !! i = Some p -> state p <> RUNNABLE.
Proof.
  unfold idle_run.
  assert (exists s0, userinit 0 (boot_state 0%Z) = Ret (tt, s0) /\
    exists s, kruns 0 [RPick; RResume; RSleep (CAddr 5)] MSched s0 = Ret (MSwitch 0, s) /\
      kvalid 0 [RPick; RResume; RSleep (CAddr 5)] MSched s0 /\ Forall (fun p => state p <> RUNNABLE) (procs s))
    as (s0 & H0 & s & Hs & Hv & Hall).
  { eexists. split; [vm_compute; reflexivity|]. eexists. split; [vm_compute; reflexivity|].
    split; [vm_compute; tauto|]. apply (bool_decide_unpack _). vm_compute. exact I. }
  exists s. rewrite H0. cbn [mbind outcome_bind]. rewrite Hs. split_and!; [done| |by apply Forall_lookup].
  eapply kruns_reach; [|exact Hv|exact Hs]. econstructor; [apply simple_boot_ok|exact H0].
Qed.

Lemma find_min_no_runnable m l i : (forall p, p ∈ l -> state p <> RUNNABLE) -> find_min m l i = None.
Proof.
  revert i. induction l as [|p l IH]; intros i Hl; cbn; [done|].
  rewrite decide_False by (apply Hl; by left). apply IH. intros q Hq. apply Hl. by right.
Qed.

Lemma run_proc_oob {E} `{KernelEnv E} i (s : kst E) :
  procs s !! i = None -> run_proc i s = Undef "array read out of bounds".
Proof.
  intros Hi. unfold run_proc. rewrite (stm_bind_Ret _ _ _ tt (with_cproc (Some i) s)) by done.
  apply stm_bind_Undef. unfold switchuvm. apply stm_bind_Undef. unfold rdp. cbn [with_cproc procs]. unfold rd. by rewrite Hi.
Qed.

Lemma scheduler_pick_oob {E} `{KernelEnv E} me ps mn w n ip b cp fi (e : E) :
  length ps = NPROC -> find_min mn ps 0 = None ->
  scheduler_pick me (mkK initlock ps mn w n ip (mkCpu 0 b b) cp fi e) = Undef "array read out of bounds".
Proof.
  intros Hlen Hf. unfold scheduler_pick.
  rewrite (stm_bind_Ret _ _ _ tt (mkK initlock ps mn w n ip (mkCpu 0 b true) cp fi e)) by done.
  rewrite (stm_bind_Ret _ _ _ tt (mkK (held_lock me) ps mn w n ip (mkCpu 1 true false) cp fi e)).
  2:{ unfold acquire_pt. cbn [plock kcpu]. by rewrite acquire_free by (split; cbn; lia). }
  etransitivity; [apply (stm_bind_Ret get); reflexivity|]. cbn [min_priority procs]. rewrite Hf.
  apply stm_bind_Undef, run_proc_oob. cbn [procs]. apply lookup_ge_None_2. by rewrite Hlen.
Qed.

(** The scheduler of [xv6-public/proc.c] runs off the process table when
    the machine becomes idle: after the time slice of the last [RUNNABLE]
    process, its loop ends with [p == &ptable.proc\[NPROC\]], which is not null,
    and it goes on to use that entry. *)
Theorem scheduler_overrun {E} `{KernelEnv E} me cur (s : kst E) :
  kinv me (MSwitch cur) s -> (forall i p, procs s !! i = Some p -> state p <> RUNNABLE) ->
  (scheduler_tail me cur ;; scheduler_pick me) s = Undef "array read out of bounds".
Proof.
  intros Hinv Hnr. inversion Hinv as [| | | |? p ps mn w n ip b fi e Hok Hrun Hcur Hu Hw0 Hn0]; subst. cbn [procs] in Hnr.
  pose proof (p_weight _ _ (t_proc _ _ _ Hok _ _ Hcur) Hu) as Hw.
  pose proof (t_len _ _ _ Hok) as Hlen.
  destruct (lookup_lt_is_Some_2 (<[cur:=charged p]> ps) 0) as [p0 Hp0]; [rewrite length_insert, Hlen; unfold NPROC; lia|].
  assert (Htail : wp (scheduler_tail me cur) (fun _ s' => exists m,
    s' = mkK initlock (<[cur:=charged p]> ps) m w n ip (mkCpu 0 b b) None fi e)
    (mkK (held_lock me) ps mn w n ip (mkCpu 1 b false) (Some cur) fi e)).
  { unfold scheduler_tail, charge. wp_steps. rewrite decide_False by lia. wp_steps.
    eauto. }
  apply wp_Ret in Htail as ([] & s' & Hx & m & ->). rewrite (stm_bind_Ret _ _ _ _ _ Hx).
  apply scheduler_pick_oob; [by rewrite length_insert, Hlen|].
  apply find_min_no_runnable. intros q Hq. apply list_elem_of_lookup_1 in Hq as [i Hi].
  apply list_lookup_insert_Some in Hi as [(-> & <- & _)|[_ Hi]]; [by apply (Hnr i p)|by apply (Hnr i q)].
Qed.

Lemma scheduler_overrun_witness :
  exists s, idle_run = Ret (MSwitch 0, s) /\
  (scheduler_tail 0 0 ;; scheduler_pick 0) s = Undef "array read out of bounds".
Proof.
  destruct idle_run_reach as (s & Hs & Hr & Hn). exists s. split; [exact Hs|].
  apply (scheduler_overrun 0 0 s); [exact (kreach_inv 0 _ _ Hr)|exact Hn].
Defined.

(** A weight of 0 is accepted, and the next time the process leaves the CPU
    the scheduler divides by it. *)
Theorem weightset_zero_divides {E} `{KernelEnv E} me cur (s : kst E) :
  kinv me (MRun cur) s ->
  (do_weightset me 0 ;; yield me ;; us_scheduler_tail me cur) s = Undef "division by zero" /\
  (do_weightset me 0 ;; yield me ;; scheduler_tail me cur) s = Undef "division by zero".
Proof.
  intros Hr. destruct (kinv_run _ _ _ Hr) as (ps & mn & w & n & ip & b & fi & e & p & -> & Hok & Hcur & Hst).
  set (q := set_context CtxYield (set_intena b (set_state RUNNABLE (set_weight 0 p)))).
  assert (Hw : wp (do_weightset me 0) (fun _ s' =>
    s' = mkK initlock (<[cur:=set_weight 0 p]> ps) mn w n ip (mkCpu 0 b b) (Some cur) fi e)
    (mkK initlock ps mn w n ip (mkCpu 0 b b) (Some cur) fi e)).
  { unfold do_weightset. by wp_steps. }
  assert (Hy : wp (yield me) (fun _ s' =>
    s' = mkK (held_lock me) (<[cur:=q]> ps) mn w n ip (mkCpu 1 b false) (Some cur) fi e)
    (mkK initlock (<[cur:=set_weight 0 p]> ps) mn w n ip (mkCpu 0 b b) (Some cur) fi e)).
  { unfold yield. wp_steps. eapply wp_sched; [wp_lookup|done|]. by rewrite list_insert_insert_eq. }
  apply wp_Ret in Hw as ([] & s1 & Hx1 & ->). apply wp_Ret in Hy as ([] & s2 & Hx2 & ->).
  rewrite !(stm_bind_Ret _ _ _ _ _ Hx1), !(stm_bind_Ret _ _ _ _ _ Hx2).
  unfold us_scheduler_tail, scheduler_tail, charge, rdp, mbind, stm_bind. cbn [procs].
  rewrite (rd_lookup _ cur q) by (apply list_lookup_insert_eq; by eapply lookup_lt_Some). done.
Qed.

Lemma weightset_zero_divides_witness :
  exists s, first_run = Ret (MRun 0, s) /\
  (do_weightset 0 0 ;; yield 0 ;; us_scheduler_tail 0 0) s = Undef "division by zero" /\
  (do_weightset 0 0 ;; yield 0 ;; scheduler_tail 0 0) s = Undef "division by zero".
Proof.
  destruct first_run_reach as (s & Hs & Hr & _). exists s. split; [exact Hs|].
  apply (weightset_zero_divides 0 0 s). exact (kreach_inv 0 _ _ Hr).
Defined.

(** Services that behave as [simple_env] except that the first [copyuvm] after
    boot runs out of memory. *)
#[global] Instance short_env : KernelEnv nat := {|
  env_kalloc e := (Some 4096%Z, S e);
  env_kfree _ e := Ret e;
  env_setupkvm e := (Some 4096%Z, S e);
  env_inituvm _ e := Ret e;
  env_copyuvm _ _ e := (if decide (e = 3) then None else Some 4096%Z, S e);
  env_freevm _ e := Ret e;
  env_allocuvm _ _ n e := (n, e);
  env_deallocuvm _ _ n e := (n, e);
  env_filedup _ e := Ret e;
  env_fileclose _ e := Ret e;
  env_idup _ e := Ret e;
  env_iput _ e := Ret e;
  env_begin_op e := Ret e;
  env_end_op e := Ret e;
  env_rootdir e := (Some 0, e);
  env_fsinit e := Ret e
|}.

#[global] Instance short_env_ok : KernelEnvOk nat.
Proof. constructor; cbn; intros; repeat case_decide; simplify_eq; eauto; lia. Qed.

Lemma find_state_killed st l j i q :
  l !! i = Some q -> find_state st l j = Some (j + i) ->
  find_state st (<[i:=set_killed true q]> l) j = Some (j + i).
Proof.
  revert i j. induction l as [|p l IH]; intros i j; [done|]. destruct i as [|i]; cbn.
  - intros [= ->]. done.
  - intros Hq. case_decide; [done|]. rewrite Nat.add_succ_r. intros Hf. apply (IH i (S j) Hq Hf).
Qed.

(** [kill] also finds an unused entry: a [fork] that ran out of memory
    leaves its pid in the entry it gave back; a [kill] of that pid succeeds and
    marks the entry, and the next process made in it starts killed. *)
Theorem kill_unused_entry {E} `{KernelEnvOk E} me cur (s : kst E) i q :
  kreach me (MRun cur) s -> procs s !! i = Some q -> state q = UNUSED ->
  find_pid (pid q) (procs s) 0 = Some i -> find_state UNUSED (procs s) 0 = Some i ->
  exists s1, kill me (pid q) s = Ret (0%Z, s1) /\
  forall r s2, fork me s1 = Ret (r, s2) -> r <> (-1)%Z ->
    exists c, procs s2 !! i = Some c /\ state c = RUNNABLE /\ pid c = nextpid s /\ killed c = true.
Proof.
  intros Hr%kreach_inv Hi Hq Hfp Hfs.
  destruct (kinv_run _ _ _ Hr) as (ps & mn & w & n & ip & b & fi & e & p & -> & Hok & Hcur & Hst). cbn in *.
  assert (Hlt : i < length ps) by by eapply lookup_lt_Some.
  pose proof (t_proc _ _ _ Hok _ _ Hcur) as Hpok.
  assert (Hne : i <> cur) by congruence.
  set (ps1 := <[i:=set_killed true q]> ps).
  assert (Hkill : wp (kill me (pid q)) (fun r s' => r = 0%Z /\
    s' = mkK initlock ps1 mn w n ip (mkCpu 0 b b) (Some cur) fi e)
    (mkK initlock ps mn w n ip (mkCpu 0 b b) (Some cur) fi e)).
  { apply wp_kill; [congruence|]. intros j r Hj Hr' _. assert (j = i) as -> by congruence.
    rewrite Hi in Hr'. injection Hr' as <-. unfold kill_upd. by rewrite decide_False by congruence. }
  apply wp_Ret in Hkill as (? & s1 & Hx & -> & ->). eexists. split; [exact Hx|]. clear Hx.
  intros r s2 Hf Hrn. revert r s2 Hf Hrn.
  enough (Hw : wp (fork me) (fun r s2 => r <> (-1)%Z -> exists c, procs s2 !! i = Some c /\ state c = RUNNABLE /\
     pid c = n /\ killed c = true) (mkK initlock ps1 mn w n ip (mkCpu 0 b b) (Some cur) fi e))
    by (intros r s2 Hf; exact (wp_elim _ _ _ _ _ Hw Hf)).
  assert (Hfs1 : find_state UNUSED ps1 0 = Some i) by by apply find_state_killed.
  eapply wp_fork; [unfold ps1; by rewrite list_lookup_insert_ne|apply (p_cwd _ _ Hpok); by apply live_running
    |apply Hpok|congruence| |done|done|].
  - intros j r Hj Hrs. unfold ps1 in Hj. apply list_lookup_insert_Some in Hj as [(-> & <- & _)|[_ Hj]];
      [apply (p_closed _ _ (t_proc _ _ _ Hok _ _ Hi)); by left|apply (p_closed _ _ (t_proc _ _ _ Hok _ _ Hj)); by left].
  - intros j r k pg e' Hj Hlj _ _ _ _. assert (j = i) as -> by congruence.
    unfold ps1 in Hlj. rewrite list_lookup_insert_eq in Hlj by done. injection Hlj as <-.
    eexists. cbn. rewrite list_lookup_insert_eq by (unfold ps1; by rewrite length_insert). done.
Qed.

(** A [fork] that fails right after boot. *)
Definition failed_fork : outcome (mode * kst nat) :=
  '(_, s) ← userinit 0 (boot_state 0); kruns 0 [RPick; RResume; RFork] MSched s.

Lemma failed_fork_reach : exists s q, failed_fork = Ret (MRun 0, s) /\ kreach 0 (MRun 0) s /\
  procs s !! 1 = Some q /\ state q = UNUSED /\ pid q = 2%Z /\
  find_pid (pid q) (procs s) 0 = Some 1 /\ find_state UNUSED (procs s) 0 = Some 1.
Proof.
  unfold failed_fork.
  assert (exists s0, userinit 0 (boot_state 0) = Ret (tt, s0) /\
    exists s, kruns 0 [RPick; RResume; RFork] MSched s0 = Ret (MRun 0, s) /\
      kvalid 0 [RPick; RResume; RFork] MSched s0 /\
      exists q, procs s !! 1 = Some q /\ state q = UNUSED /\ pid q = 2%Z /\
        find_pid (pid q) (procs s) 0 = Some 1 /\ find_state UNUSED (procs s) 0 = Some 1)
    as (s0 & H0 & s & Hs & Hv & q & Hq).
  { eexists. split; [vm_compute; reflexivity|]. eexists. split; [vm_compute; reflexivity|].
    split; [vm_compute; intuition congruence|]. eexists. split; [reflexivity|]. split_and!; vm_compute; reflexivity. }
  exists s, q. rewrite H0. cbn [mbind outcome_bind]. rewrite Hs. split; [done|]. split; [|exact Hq].
  eapply kruns_reach; [|exact Hv|exact Hs]. econstructor; [|exact H0].
  do 7 eexists. cbn. split_and!; try reflexivity. lia.
Qed.

Lemma kill_unused_entry_witness :
  exists s s1, failed_fork = Ret (MRun 0, s) /\ kill 0 2 s = Ret (0%Z, s1).
Proof.
  destruct failed_fork_reach as (s & q & Hs & Hr & Hq & Hu & Hp & Hf1 & Hf2).
  destruct (kill_unused_entry 0 0 s 1 q Hr Hq Hu Hf1 Hf2) as (s1 & Hk & _).
  exists s, s1. split; [exact Hs|]. rewrite <- Hp. exact Hk.
Defined.

End ProcThms.
