(* ===== verification/Variants.v ===== *)
(** * Process tables of two kernels

    The repository has three copies of proc.c.  This file relates operations on
    the process table of [src/xv6-public/proc.c] to those of a kernel whose
    [struct proc] lacks some of the fields: the fields are erased from the
    state, and the operations have to agree on what is left. *)
From S2P Require Export ProcOps.

Module Variants.
Import Spin Proc ProcInv.

(** Outcomes that compute. *)
Ltac osim_done := first [exact (conj eq_refl eq_refl) | exact eq_refl | exact I].

Section Sim.
Context {E : Type} `{KernelEnv E} (me : nat).
(** What becomes of the trace mask, of priorities and of weights. *)
Context (ft fp fw : Z -> Z).

Definition er (p : proc) : proc := set_trace (ft (trace p)) (set_priority (fp (priority p)) (set_weight (fw (weight p)) p)).
Definition es (s : kst E) : kst E :=
  mkK (plock s) (er <$> procs s) (fp (min_priority s)) (fw (g_weight s)) (nextpid s) (initproc s) (kcpu s) (cproc s) (first s) (env s).

(** The outcome in the smaller state, against one in the larger that is not
    undefined. *)
Definition osim {A B} (R : A -> B -> Prop) (o1 : outcome (A * kst E)) (o2 : outcome (B * kst E)) : Prop :=
  match o2 with
  | Ret (b, s2) => match o1 with Ret (a, s1) => R a b /\ s1 = es s2 | _ => False end
  | Panic m => o1 = Panic m
  | Hang m => o1 = Hang m
  | Undef _ => True
  end.
Definition sim {A B} (R : A -> B -> Prop) (m1 : proc_m E A) (m2 : proc_m E B) : Prop := forall s, osim R (m1 (es s)) (m2 s).
(** The results are the same. *)
Definition same {A} : proc_m E A -> proc_m E A -> Prop := sim eq.

Lemma sim_bind {A B A' B'} (R : A -> B -> Prop) (R' : A' -> B' -> Prop) m1 m2 f1 f2 :
  sim R m1 m2 -> (forall a b, R a b -> sim R' (f1 a) (f2 b)) -> sim R' (m1 ≫= f1) (m2 ≫= f2).
Proof.
  intros Hm Hf s. specialize (Hm s). unfold mbind, stm_bind. unfold osim in Hm.
  destruct (m2 s) as [[b s2]| | |]; [|cbn; try rewrite Hm; done..].
  destruct (m1 (es s)) as [[a s1]| | |]; [|done..]. destruct Hm as [Hr ->]. apply (Hf a b Hr s2).
Qed.

Lemma same_bind {A B} (m1 m2 : proc_m E A) (f1 f2 : A -> proc_m E B) :
  same m1 m2 -> (forall a, same (f1 a) (f2 a)) -> same (m1 ≫= f1) (m2 ≫= f2).
Proof. intros Hm Hf. eapply sim_bind; [exact Hm|]. intros a ? <-. apply Hf. Qed.

Lemma same_ret {A} (a : A) : same (mret a) (mret a).
Proof. done. Qed.
Lemma same_panic {A} msg : same (A := A) (panic msg) (panic msg).
Proof. done. Qed.
Lemma same_undef {A} (m : proc_m E A) why : same m (undef why).
Proof. done. Qed.

(** Reading. *)
Lemma sim_get : sim (fun a b => a = es b) get get.
Proof. done. Qed.

Lemma sim_rdp i : sim (fun a b => a = er b) (rdp i) (rdp i).
Proof.
  intros s. unfold rdp, osim. cbn [procs es]. unfold rd. rewrite list_lookup_fmap. by destruct (procs s !! i).
Qed.

(** Writing: an update of a field that stays, or one that is erased. *)
Lemma updp_at i f p (s : kst E) : procs s !! i = Some p -> updp i f s = Ret (tt, with_procs (<[i:=f p]> (procs s)) s).
Proof. intros Hi. unfold updp, rd. by rewrite Hi. Qed.

Lemma updp_oob i f (s : kst E) : procs s !! i = None -> exists w, updp i f s = Undef w.
Proof. intros Hi. unfold updp, rd. rewrite Hi. cbn. eauto. Qed.

Lemma es_procs i p (s : kst E) : es (with_procs (<[i:=p]> (procs s)) s) = with_procs (<[i:=er p]> (procs (es s))) (es s).
Proof. unfold es, with_procs. cbn. by rewrite list_fmap_insert. Qed.

Lemma same_updp i f1 f2 : (forall p, f1 (er p) = er (f2 p)) -> same (updp i f1) (updp i f2).
Proof.
  intros Hf s. destruct (procs s !! i) as [p|] eqn:Hp; [|by destruct (updp_oob i f2 s Hp) as [w ->]].
  assert (procs (es s) !! i = Some (er p)) as Hp' by (cbn; by rewrite list_lookup_fmap, Hp).
  rewrite (updp_at _ _ _ _ Hp), (updp_at _ _ _ _ Hp'). split; [done|]. by rewrite es_procs, Hf.
Qed.

Lemma sim_skip {A} i f (m1 m2 : proc_m E A) : (forall p, er (f p) = er p) -> same m1 m2 -> same m1 (updp i f ;; m2).
Proof.
  intros Hf Hm s. destruct (procs s !! i) as [p|] eqn:Hp.
  - assert ((updp i f ;; m2) s = m2 (with_procs (<[i:=f p]> (procs s)) s)) as ->
      by (apply (stm_bind_Ret (updp i f) (fun _ => m2) s tt); by apply updp_at).
    assert (es s = es (with_procs (<[i:=f p]> (procs s)) s)) as E1; [|rewrite E1; apply Hm].
    rewrite es_procs, Hf. assert (procs (es s) !! i = Some (er p)) as Hp' by (cbn; by rewrite list_lookup_fmap, Hp).
    rewrite list_insert_id by done. by destruct s.
  - assert (exists w, (updp i f ;; m2) s = Undef w) as [w ->].
    { destruct (updp_oob i f s Hp) as [w Hw]. exists w. by apply stm_bind_Undef. }
    done.
Qed.

Lemma same_modify f1 f2 : (forall s, f1 (es s) = es (f2 s)) -> same (modify f1) (modify f2).
Proof. intros Hf s. split; [done|apply Hf]. Qed.

Lemma sim_skip_modify {A} f (m1 m2 : proc_m E A) : (forall s, es (f s) = es s) -> same m1 m2 -> same m1 (modify f ;; m2).
Proof. intros Hf Hm s. specialize (Hm (f s)). rewrite Hf in Hm. exact Hm. Qed.

Lemma same_acquire_pt : same (acquire_pt me) (acquire_pt me).
Proof. intros s. unfold acquire_pt, osim. cbn [plock kcpu env es]. destruct (acquire me (plock s) (kcpu s)) as [[]| | |]; osim_done. Qed.
Lemma same_release_pt : same (release_pt me) (release_pt me).
Proof. intros s. unfold release_pt, osim. cbn [plock kcpu env es]. destruct (release me (plock s) (kcpu s)) as [[]| | |]; osim_done. Qed.
Lemma same_holding_pt : same (holding_pt me) (holding_pt me).
Proof. intros s. unfold holding_pt, osim. cbn [plock kcpu env es]. destruct (holding me (plock s) (kcpu s)) as [[]| | |]; osim_done. Qed.
Lemma same_release_lk l : same (release_lk me l) (release_lk me l).
Proof. intros s. unfold release_lk, osim. cbn [plock kcpu env es]. destruct (release me l (kcpu s)) as [[]| | |]; osim_done. Qed.
Lemma same_myproc : same myproc myproc.
Proof. intros s. unfold myproc, osim. cbn [plock kcpu env es]. destruct (popcli (pushcli (kcpu s))) as [| | |]; osim_done. Qed.
Lemma same_call {A} (f : E -> A * E) : same (call f) (call f).
Proof. intros s. unfold call, osim. cbn [plock kcpu env es]. destruct (f (env s)); osim_done. Qed.
Lemma same_callo (f : E -> outcome E) : same (callo f) (callo f).
Proof. intros s. unfold callo, osim. cbn [plock kcpu env es]. destruct (f (env s)); osim_done. Qed.

End Sim.

(** Going through two programs in step. *)
Ltac er_simpl :=
  cbn [sz pgdir kstack state pid parent tf context chan killed ofile cwd name k_intena er set_trace set_priority set_weight
       plock procs min_priority g_weight nextpid initproc kcpu cproc first env es].

Ltac refold := lazymatch goal with |- sim ?t ?p ?w eq ?a ?b => change (same t p w a b) end.

Ltac sim_step :=
  lazymatch goal with
  | |- same _ _ _ (mbind _ (rdp _)) (mbind _ (rdp _)) => eapply sim_bind; [apply sim_rdp|intros ? ? ->; refold; er_simpl]
  | |- same _ _ _ (mbind _ get) (mbind _ get) => eapply sim_bind; [apply sim_get|intros ? ? ->; refold; er_simpl]
  | |- same _ _ _ (mbind _ _) (mbind _ _) => apply same_bind; [|intros ?]
  | |- same _ _ _ (mret _) (mret _) => apply same_ret
  | |- same _ _ _ (panic _) (panic _) => apply same_panic
  | |- same _ _ _ _ (undef _) => apply same_undef
  | |- same _ _ _ (acquire_pt _) _ => apply same_acquire_pt
  | |- same _ _ _ (release_pt _) _ => apply same_release_pt
  | |- same _ _ _ (holding_pt _) _ => apply same_holding_pt
  | |- same _ _ _ (release_lk _ _) _ => apply same_release_lk
  | |- same _ _ _ myproc _ => apply same_myproc
  | |- same _ _ _ (call _) _ => apply same_call
  | |- same _ _ _ (callo _) _ => apply same_callo
  | |- same _ _ _ (updp _ _) (updp _ _) => apply same_updp; by intros []
  | |- same _ _ _ (modify _) (modify _) => apply same_modify; done
  | |- same _ _ _ (if decide ?P then _ else _) _ => destruct (decide P)
  | |- same _ _ _ (if ?b then _ else _) _ => destruct b
  | |- same _ _ _ (match ?x with _ => _ end) _ => destruct x
  end.
Ltac sims := repeat sim_step.

(** ** The operations the kernels share *)

Section Shared.
Context {E : Type} `{KernelEnv E} (me : nat) (ft fp fw : Z -> Z).
Notation same := (same (E := E) ft fp fw).
Notation er := (er ft fp fw).

Lemma same_switchuvm i : same (switchuvm i) (switchuvm i).
Proof.
  unfold switchuvm. sims. intros s. unfold osim. cbn [plock kcpu es]. destruct (popcli (pushcli (kcpu s))); osim_done.
Qed.

Lemma same_growproc n : same (growproc n) (growproc n).
Proof. unfold growproc. sims; apply same_switchuvm. Qed.

Lemma same_sched ctx : same (sched me ctx) (sched me ctx).
Proof. unfold sched. sims. Qed.

Lemma same_sched_end i : same (sched_end i) (sched_end i).
Proof. unfold sched_end. sims. Qed.

Lemma same_forkret : same (forkret me) (forkret me).
Proof. unfold forkret. sims. Qed.

Lemma same_yield : same (yield me) (yield me).
Proof. unfold yield. sims; apply same_sched. Qed.

Lemma same_sleep c lk : same (sleep me c lk) (sleep me c lk).
Proof. unfold sleep. sims; apply same_sched. Qed.

Lemma same_resume i : same (resume me i) (resume me i).
Proof. unfold resume. sims; apply same_sched_end || apply same_forkret. Qed.

Lemma same_dup_files fs : forall i np, same (dup_files fs i np) (dup_files fs i np).
Proof. induction fs as [|[f|] fs IH]; intros i np; cbn [dup_files]; sims; apply IH. Qed.

Lemma same_close_files fs : forall i cur, same (close_files fs i cur) (close_files fs i cur).
Proof. induction fs as [|[f|] fs IH]; intros i cur; cbn [close_files]; sims; apply IH. Qed.

Lemma wait_scan_er cur l : forall i hk, wait_scan cur (er <$> l) i hk = wait_scan cur l i hk.
Proof. induction l as [|p l IH]; intros i hk; [done|]. rewrite fmap_cons. cbn [wait_scan]. er_simpl. by rewrite !IH. Qed.

Lemma same_wait_pass cur : same (wait_pass me cur) (wait_pass me cur).
Proof. unfold wait_pass. do 2 sim_step. rewrite wait_scan_er. sims; apply same_sleep. Qed.

Lemma same_wait : same (wait me) (wait me).
Proof. unfold wait. sims; apply same_wait_pass. Qed.

Lemma find_pid_er n l : forall i, find_pid n (er <$> l) i = find_pid n l i.
Proof. induction l as [|p l IH]; intros i; [done|]. rewrite fmap_cons. cbn [find_pid]. er_simpl. by rewrite IH. Qed.

Lemma same_kill n : same (kill me n) (kill me n).
Proof. unfold kill. do 2 sim_step. rewrite find_pid_er. sims. Qed.

Lemma find_state_er st l : forall i, find_state st (er <$> l) i = find_state st l i.
Proof. induction l as [|p l IH]; intros i; [done|]. rewrite fmap_cons. cbn [find_state]. er_simpl. by rewrite IH. Qed.
End Shared.
End Variants.
