(* ===== verification/AddSyscall.v ===== *)
(** * The kernel of the tracing system calls

    Models [src/add system call/proc.c]: the process table without priorities
    and weights, and the round-robin scheduler.  Functions whose text is that of
    [src/xv6-public/proc.c] are those definitions; the ones that differ, or call
    one that does, are written out.  The operations agree with those of
    xv6-public once priorities and weights are erased, and the scheduler is
    fair. *)
From S2P Require Export Variants.

Module AddSyscall.
Import Spin Proc ProcInv Variants.

Section Ops.
Context {E : Type} `{Proc.KernelEnv E} (me : nat).
Notation pm A := (Proc.proc_m E A).

(** ** Unchanged functions *)

Definition myproc : pm (option nat) := Proc.myproc.
Definition growproc (n : Z) : pm Z := Proc.growproc n.
Definition wait : pm (waiting Z) := Proc.wait me.
Definition sched (ctx : Proc.kcontext) : pm unit := Proc.sched me ctx.
Definition yield : pm unit := Proc.yield me.
Definition forkret : pm unit := Proc.forkret me.
Definition sleep (c : Proc.channel) (lk : option spinlock) : pm (option spinlock) := Proc.sleep me c lk.
Definition kill (n : Z) : pm Z := Proc.kill me n.

(** ** allocproc, userinit, fork *)

Definition allocproc : pm (option nat) :=
  acquire_pt me ;;
  s ← get;
  match find_state UNUSED (procs s) 0 with
  | None => release_pt me ;; mret None
  | Some p =>
      updp p (set_state EMBRYO) ;;
      updp p (set_pid (nextpid s)) ;;
      modify (with_counters (g_weight s) (int32 (nextpid s + 1))) ;;
      release_pt me ;;
      k ← call env_kalloc;
      match k with
      | None => updp p (set_kstack 0) ;; updp p (set_state UNUSED) ;; mret None
      | Some k =>
          updp p (set_kstack k) ;;
          updp p (set_context CtxForkret) ;;
          updp p (set_trace 0) ;;
          mret (Some p)
      end
  end.

Definition userinit : pm unit :=
  p ← allocproc;
  modify (with_init p) ;;
  match p with
  | None => undef "userinit: null process"
  | Some p =>
      pg ← call env_setupkvm;
      match pg with
      | None => panic "userinit: out of memory?"
      | Some pg =>
          updp p (set_pgdir pg) ;;
          callo (env_inituvm pg) ;;
          updp p (set_sz PGSIZE) ;;
          updp p (set_tf (mkTf 0 PGSIZE 0 512 27 35 35 35)) ;;
          updp p (set_name (safestrcpy16 "initcode")) ;;
          d ← call env_rootdir;
          updp p (set_cwd d) ;;
          acquire_pt me ;;
          updp p (set_state RUNNABLE) ;;
          release_pt me
      end
  end.

Definition fork : pm Z :=
  cur ← Proc.myproc;
  match cur with
  | None => undef "fork: no process"
  | Some cur =>
      np ← allocproc;
      match np with
      | None => mret (-1)%Z
      | Some np =>
          p ← rdp cur;
          pg ← call (env_copyuvm (pgdir p) (sz p));
          match pg with
          | None =>
              updp np (set_pgdir 0) ;;
              q ← rdp np;
              callo (env_kfree (kstack q)) ;;
              updp np (set_kstack 0) ;;
              updp np (set_state UNUSED) ;;
              mret (-1)%Z
          | Some pg =>
              updp np (set_pgdir pg) ;;
              updp np (set_sz (sz p)) ;;
              updp np (set_parent (Some cur)) ;;
              updp np (set_tf (tf p)) ;;
              updp np (set_trace (trace p)) ;;
              updp np (fun q => set_tf (clear_eax (tf q)) q) ;;
              dup_files (ofile p) 0 np ;;
              match cwd p with
              | Some d => callo (env_idup d)
              | None => undef "idup of a null pointer"
              end ;;
              updp np (set_cwd (cwd p)) ;;
              updp np (set_name (safestrcpy16 (name p))) ;;
              q ← rdp np;
              acquire_pt me ;;
              updp np (set_state RUNNABLE) ;;
              release_pt me ;;
              mret (pid q)
          end
      end
  end.

(** ** wakeup and exit *)

Definition wake (c : channel) (p : proc) : proc :=
  if decide (state p = SLEEPING /\ chan p = c) then set_state RUNNABLE p else p.
Definition wakeup1 (c : channel) : pm unit := fun s => Ret (tt, with_procs (wake c <$> procs s) s).
Definition wakeup (c : channel) : pm unit := acquire_pt me ;; wakeup1 c ;; release_pt me.

Fixpoint reparent (cur : nat) (i n : nat) : pm unit :=
  match n with
  | O => mret tt
  | S n =>
      p ← rdp i;
      s ← get;
      (if decide (parent p = Some cur) then
         updp i (set_parent (initproc s)) ;;
         (if decide (state p = ZOMBIE) then
            wakeup1 (match initproc s with Some j => CProc j | None => NoChan end)
          else mret tt)
       else mret tt) ;;
      reparent cur (S i) n
  end.

Definition exit : pm unit :=
  cur ← Proc.myproc;
  s ← get;
  if decide (cur = initproc s) then panic "init exiting"
  else match cur with
  | None => undef "exit: no process"
  | Some cur =>
      p ← rdp cur;
      close_files (ofile p) 0 cur ;;
      callo env_begin_op ;;
      p ← rdp cur;
      match cwd p with
      | Some d => callo (env_iput d)
      | None => undef "iput of a null pointer"
      end ;;
      callo env_end_op ;;
      updp cur (set_cwd None) ;;
      acquire_pt me ;;
      p ← rdp cur;
      wakeup1 (match parent p with Some j => CProc j | None => NoChan end) ;;
      reparent cur 0 NPROC ;;
      updp cur (set_state ZOMBIE) ;;
      Proc.sched me CtxExit
  end.

(** ** The scheduler *)

(** The rest of the pass over the table: the first [RUNNABLE] entry from the
    [i]-th on. *)
Fixpoint find_runnable (l : list proc) (i : nat) : option nat :=
  match l with
  | [] => None
  | p :: l => if decide (state p = RUNNABLE) then Some i else find_runnable l (S i)
  end.

(** The loop from entry [i] up to [swtch], with the lock held; [None] at the end
    of the pass, when the lock is released. *)
Definition scheduler_from (i : nat) : pm (option nat) :=
  s ← get;
  match find_runnable (drop i (procs s)) i with
  | None => release_pt me ;; mret None
  | Some p => run_proc p ;; mret (Some p)
  end.
(** A new pass. *)
Definition scheduler_pass : pm (option nat) := sti ;; acquire_pt me ;; scheduler_from 0.
(** After [swtch], with the process at [p]. *)
Definition scheduler_next (p : nat) : pm (option nat) := modify (with_cproc None) ;; scheduler_from (S p).
End Ops.

(** ** Agreement with xv6-public *)

Section Same.
Context {E : Type} `{Proc.KernelEnv E} (me : nat).
(** Priorities and weights are erased, trace masks are kept. *)
Definition keep (z : Z) : Z := z.
Definition drop0 (z : Z) : Z := 0%Z.
Notation same := (same (E := E) keep drop0 drop0).
Lemma asc_same_allocproc : same (allocproc me) (Proc.allocproc me).
Proof.
  unfold allocproc, Proc.allocproc. do 2 sim_step. rewrite find_state_er. destruct (find_state UNUSED (procs b) 0) as [i|]; [|sims].
  do 2 (sim_step; [sims|]). apply sim_skip; [by intros []|]. sim_step; [sims|]. apply sim_skip; [by intros []|]. sims.
Qed.

Lemma asc_same_userinit : same (userinit me) (Proc.userinit me).
Proof.
  unfold userinit, Proc.userinit. apply sim_skip_modify; [done|]. sim_step; [apply asc_same_allocproc|]. sims.
Qed.

Lemma asc_same_fork : same (fork me) (Proc.fork me).
Proof.
  unfold fork, Proc.fork. sim_step; [sims|]. destruct a as [cur|]; [|sims]. sim_step; [apply asc_same_allocproc|]. sims; apply same_dup_files.
Qed.

Lemma asc_same_wakeup1 c : same (wakeup1 c) (Proc.wakeup1 c).
Proof.
  intros s. split; [done|]. unfold with_procs, es. cbn. f_equal. rewrite <- !list_fmap_compose. apply list_fmap_ext. intros i p _.
  unfold compose, wake, Proc.wake. cbn. by destruct (decide _).
Qed.

Lemma asc_same_wakeup c : same (wakeup me c) (Proc.wakeup me c).
Proof. unfold wakeup, Proc.wakeup. sims; apply asc_same_wakeup1. Qed.

Lemma asc_same_reparent cur n : forall i, same (reparent cur i n) (Proc.reparent cur i n).
Proof. induction n as [|n IH]; intros i; cbn [reparent Proc.reparent]; sims; apply asc_same_wakeup1 || apply IH. Qed.

Lemma asc_same_exit : same (exit me) (Proc.exit me).
Proof. unfold exit, Proc.exit. sims; first [apply same_close_files|apply asc_same_wakeup1|apply asc_same_reparent|apply same_sched]. Qed.

(** C33. The kernel with the tracing system calls and the one with the stride
    scheduler do the same to the process table: every operation of proc.c but
    the scheduler, run on the state without priorities and weights, returns
    what it returns in xv6-public and leaves that state without them, wherever
    the latter is defined.  It panics and waits in the same cases. *)
Theorem tracing_kernel_agrees :
  same (allocproc me) (Proc.allocproc me) /\ same (userinit me) (Proc.userinit me ) /\ same (fork me) (Proc.fork me) /\
  same (exit me) (Proc.exit me) /\ same (wait me) (Proc.wait me) /\ same (yield me) (Proc.yield me) /\
  (forall n, same (growproc n) (Proc.growproc n)) /\ (forall n, same (kill me n) (Proc.kill me n)) /\
  (forall c, same (wakeup me c) (Proc.wakeup me c)) /\ (forall c lk, same (sleep me c lk) (Proc.sleep me c lk)) /\
  same (forkret me) (Proc.forkret me).
Proof.
  split_and!; first [apply asc_same_allocproc|apply asc_same_userinit|apply asc_same_fork|apply asc_same_exit|apply same_wait|apply same_yield|apply same_growproc|
    apply same_kill|apply asc_same_wakeup|apply same_sleep|apply same_forkret].
Qed.
End Same.

(** ** Fairness of the round-robin scheduler *)

Lemma find_runnable_spec l : forall i,
  match find_runnable l i with
  | Some j => exists p, i <= j /\ l !! (j - i) = Some p /\ state p = RUNNABLE /\
      forall k q, k < j - i -> l !! k = Some q -> state q <> RUNNABLE
  | None => forall k q, l !! k = Some q -> state q <> RUNNABLE
  end.
Proof.
  induction l as [|p l IH]; intros i; cbn [find_runnable]; [done|]. case_decide as E.
  - exists p. rewrite Nat.sub_diag. split_and!; [lia|done|done|lia].
  - specialize (IH (S i)). destruct (find_runnable l (S i)) as [j|].
    + destruct IH as (q & Hj & Hq & Hs & Hf). exists q. replace (j - i) with (S (j - S i)) by lia. split_and!; [lia|done|done|].
      intros [|k] r Hk Hr; [by injection Hr as <-|]. eapply Hf; [|exact Hr]. lia.
    + intros [|k] r Hr; [by injection Hr as <-|by eapply IH].
Qed.

Section Fair.
Context {E : Type} `{Proc.KernelEnv E} (me : nat).

(** Where the loop goes on after a decision: behind the process it switched to,
    or at the start of the table. *)
Definition next_entry (d : option nat) : nat := match d with Some p => S p | None => 0 end.

(** The decisions of the loop from entry [i], each with the state it was made in
    and the state after it; what the processes do in between is arbitrary. *)
Fixpoint decisions (i : nat) (runs : list (kst E * option nat * kst E)) : Prop :=
  match runs with
  | [] => True
  | (s, d, s') :: runs => scheduler_from me i s = Ret (d, s') /\ decisions (next_entry d) runs
  end.

Definition runnable_in (x : nat) (s : kst E) : Prop := length (procs s) = NPROC /\ exists p, procs s !! x = Some p /\ state p = RUNNABLE.

Lemma decision_eq i (s : kst E) d s' : scheduler_from me i s = Ret (d, s') -> d = find_runnable (drop i (procs s)) i.
Proof.
  intros Hd. change (scheduler_from me i s) with
    ((match find_runnable (drop i (procs s)) i with None => release_pt me ;; mret None | Some p => run_proc p ;; mret (Some p) end) s) in Hd.
  destruct (find_runnable (drop i (procs s)) i) as [p|]; apply stm_bind_inv in Hd as ([] & s1 & _ & Hd); by injection Hd as <- _.
Qed.

(** How many decisions are made before the process at [x] is chosen. *)
Definition distance (x i : nat) : nat := if decide (i <= x) then x - i else NPROC - i + 1 + x.

Lemma decision_closer x i (s : kst E) d s' :
  x < NPROC -> i <= NPROC -> runnable_in x s -> scheduler_from me i s = Ret (d, s') ->
  d = Some x \/ (distance x (next_entry d) < distance x i /\ next_entry d <= NPROC).
Proof.
  intros Hx Hi [Hl (p & Hp & Hr)] Hd. apply decision_eq in Hd. pose proof (find_runnable_spec (drop i (procs s)) i) as Hs. rewrite <- Hd in Hs.
  destruct d as [j|]; cbn [next_entry]; unfold distance.
  - destruct Hs as (q & Hj & Hq & Hsq & Hf). rewrite lookup_drop in Hq. apply lookup_lt_Some in Hq as Hlt. rewrite Hl in Hlt.
    destruct (decide (j = x)) as [->|Hne]; [by left|right]. split; [|lia]. destruct (decide (i <= x)) as [Hle|Hgt].
    + destruct (decide (j < x)) as [Hjx|Hjx]; [rewrite decide_True by lia; lia|]. exfalso. eapply (Hf (x - i) p); [lia| |done].
      rewrite lookup_drop. by replace (i + (x - i)) with x by lia.
    + rewrite decide_False by lia. lia.
  - right. split; [|lia]. rewrite (decide_True (P := 0 <= x)) by lia. destruct (decide (i <= x)) as [Hle|Hgt]; [|lia].
    exfalso. eapply (Hs (x - i) p); [|done]. rewrite lookup_drop. by replace (i + (x - i)) with x by lia.
Qed.

Lemma decisions_reach x runs : forall i,
  x < NPROC -> i <= NPROC -> decisions i runs -> (forall s d s', (s, d, s') ∈ runs -> runnable_in x s) -> distance x i < length runs ->
  exists s s', (s, Some x, s') ∈ runs.
Proof.
  induction runs as [|[[s d] s'] runs IH]; intros i Hx Hi Hd Hrun Hlen; cbn in Hlen; [lia|]. destruct Hd as [Hd Hrest].
  destruct (decision_closer x i s d s' Hx Hi (Hrun s d s' ltac:(by left)) Hd) as [->|[Hc Hn]]; [exists s, s'; by left|].
  destruct (IH (next_entry d) Hx Hn Hrest) as (s1 & s1' & Hin); [intros s1 d1 s1' Hin; eapply Hrun; by right|lia|].
  exists s1, s1'. by right.
Qed.

(** C30. The round-robin scheduler is fair: among any [NPROC + 1] consecutive
    decisions of its loop, whatever the processes it switches to do to the
    table, a process that is [RUNNABLE] at each of them is chosen. *)
Theorem round_robin_fair x i runs :
  x < NPROC -> i <= NPROC -> decisions i runs -> (forall s d s', (s, d, s') ∈ runs -> runnable_in x s) -> NPROC < length runs ->
  exists s s', (s, Some x, s') ∈ runs.
Proof.
  intros Hx Hi Hd Hrun Hlen. eapply decisions_reach; [done..|]. unfold distance. case_decide; lia.
Qed.
End Fair.

(** A table whose entry 1 is always [RUNNABLE], and 65 decisions. *)
Definition demo_table : list proc :=
  <[1:=set_kstack 1 (set_pgdir 1 (set_state RUNNABLE proc0))]> (replicate NPROC proc0).
Definition demo_kst : kst Z := mkK (mkLock true (Some 0)) demo_table 0 0 1 None (mkCpu 1 true false) None false 0%Z.
Fixpoint demo_runs (n i : nat) : list (kst Z * option nat * kst Z) :=
  match n with
  | O => []
  | S n => match scheduler_from 0 i demo_kst with
           | Ret (d, s') => (demo_kst, d, s') :: demo_runs n (next_entry d)
           | _ => []
           end
  end.

Lemma demo_decisions n : forall i, decisions 0 i (demo_runs n i).
Proof.
  induction n as [|n IH]; intros i; cbn [demo_runs]; [done|]. destruct (scheduler_from 0 i demo_kst) as [[d s']| | |] eqn:E; [|done..].
  cbn [decisions]. split; [done|apply IH].
Qed.

Lemma demo_runs_state n : forall i s d s', (s, d, s') ∈ demo_runs n i -> s = demo_kst.
Proof.
  induction n as [|n IH]; intros i s d s'; cbn [demo_runs]; [by intros ?%elem_of_nil|].
  destruct (scheduler_from 0 i demo_kst) as [[d1 s1]| | |]; [|by intros ?%elem_of_nil..]. intros [E|Hin]%elem_of_cons; [congruence|by eapply IH].
Qed.

Lemma round_robin_fair_witness : exists s s', (s, Some 1, s') ∈ demo_runs 65 0.
Proof.
  apply (round_robin_fair 0 1 0).
  - unfold NPROC. lia.
  - lia.
  - apply demo_decisions.
  - intros s d s' ->%demo_runs_state. split; [reflexivity|]. eexists. split; reflexivity.
  - assert (length (demo_runs 65 0) = 65) as -> by (vm_compute; reflexivity). unfold NPROC. lia.
Defined.
End AddSyscall.
