(* ===== verification/UpdateSched.v ===== *)
(** * The kernel of the scheduler update

    Models the rest of [src/update scheduler/proc.c], whose scheduler is in
    ProcDefs: its [struct proc] has no trace mask, so [allocproc] and [fork]
    differ from those of xv6-public; the other functions have the same text.
    The operations agree with those of xv6-public once the masks are erased, so
    what is proved of the latter holds here. *)
From S2P Require Export Variants.

Module UpdateSched.
Import Spin Proc ProcInv Variants.

Section Ops.
Context {E : Type} `{KernelEnv E} (me : nat).
Notation pm A := (proc_m E A).

(** ** allocproc, userinit, fork *)

Definition allocproc : pm (option nat) :=
  acquire_pt me ;;
  s ← get;
  match find_state UNUSED (procs s) 0 with
  | None => release_pt me ;; mret None
  | Some p =>
      updp p (set_state EMBRYO) ;;
      updp p (set_pid (nextpid s)) ;;
      updp p (set_weight (g_weight s)) ;;
      modify (with_counters (int32 (g_weight s + 1)) (int32 (nextpid s + 1))) ;;
      updp p (set_priority (min_priority s)) ;;
      release_pt me ;;
      k ← call env_kalloc;
      match k with
      | None => updp p (set_kstack 0) ;; updp p (set_state UNUSED) ;; mret None
      | Some k =>
          updp p (set_kstack k) ;;
          updp p (set_context CtxForkret) ;;
          mret (Some p)
      end
  end.

Definition userinit : pm unit :=
  modify (with_min 3) ;;
  p ← allocproc;
  modify (with_init p) ;;
  match p with
  | None => undef "userinit: null process"
  | Some p =>
      pg ← call env_setupkvm;
      match pg with
      | None => panic "userinit: out of memory?"
      | Some pg =>
          updp p (set_pgdir pg) ;;
          callo (env_inituvm pg) ;;
          updp p (set_sz PGSIZE) ;;
          updp p (set_tf (mkTf 0 PGSIZE 0 512 27 35 35 35)) ;;
          updp p (set_name (safestrcpy16 "initcode")) ;;
          d ← call env_rootdir;
          updp p (set_cwd d) ;;
          acquire_pt me ;;
          updp p (set_state RUNNABLE) ;;
          release_pt me
      end
  end.

Definition fork : pm Z :=
  cur ← myproc;
  match cur with
  | None => undef "fork: no process"
  | Some cur =>
      np ← allocproc;
      match np with
      | None => mret (-1)%Z
      | Some np =>
          p ← rdp cur;
          pg ← call (env_copyuvm (pgdir p) (sz p));
          match pg with
          | None =>
              updp np (set_pgdir 0) ;;
              q ← rdp np;
              callo (env_kfree (kstack q)) ;;
              updp np (set_kstack 0) ;;
              updp np (set_state UNUSED) ;;
              mret (-1)%Z
          | Some pg =>
              updp np (set_pgdir pg) ;;
              updp np (set_sz (sz p)) ;;
              updp np (set_parent (Some cur)) ;;
              updp np (set_tf (tf p)) ;;
              updp np (fun q => set_tf (clear_eax (tf q)) q) ;;
              dup_files (ofile p) 0 np ;;
              match cwd p with
              | Some d => callo (env_idup d)
              | None => undef "idup of a null pointer"
              end ;;
              updp np (set_cwd (cwd p)) ;;
              updp np (set_name (safestrcpy16 (name p))) ;;
              q ← rdp np;
              acquire_pt me ;;
              updp np (set_state RUNNABLE) ;;
              release_pt me ;;
              mret (pid q)
          end
      end
  end.

(** ** Unchanged functions *)

Definition myproc : pm (option nat) := Proc.myproc.
Definition growproc (n : Z) : pm Z := Proc.growproc n.
Definition exit : pm unit := Proc.exit me.
Definition wait : pm (waiting Z) := Proc.wait me.
Definition sched (ctx : kcontext) : pm unit := Proc.sched me ctx.
Definition yield : pm unit := Proc.yield me.
Definition forkret : pm unit := Proc.forkret me.
Definition sleep (c : channel) (lk : option spinlock) : pm (option spinlock) := Proc.sleep me c lk.
Definition wakeup (c : channel) : pm unit := Proc.wakeup me c.
Definition kill (n : Z) : pm Z := Proc.kill me n.
Definition do_weightset (w : Z) : pm unit := Proc.do_weightset me w.
Definition scheduler_pick : pm (option nat) := Proc.us_scheduler_pick me.
Definition scheduler_tail (p : nat) : pm unit := Proc.us_scheduler_tail me p.
End Ops.

(** ** Agreement with xv6-public *)

Section Same.
Context {E : Type} `{KernelEnv E} (me : nat).
(** Trace masks are erased. *)
Definition keep (z : Z) : Z := z.
Definition drop0 (z : Z) : Z := 0%Z.
Notation same := (same (E := E) drop0 keep keep).

Lemma us_same_allocproc : same (allocproc me) (Proc.allocproc me).
Proof.
  unfold allocproc, Proc.allocproc. do 2 sim_step. rewrite find_state_er. destruct (find_state UNUSED (procs b) 0) as [i|]; [|sims].
  do 7 (sim_step; [sims|]). lazymatch goal with k : option Z |- _ => destruct k as [k|] end; [|sims]. do 2 (sim_step; [sims|]). apply sim_skip; [by intros []|]. sims.
Qed.

Lemma us_same_userinit : same (userinit me) (Proc.userinit me).
Proof. unfold userinit, Proc.userinit. sim_step; [sims|]. sim_step; [apply us_same_allocproc|]. sims. Qed.

Lemma us_same_fork : same (fork me) (Proc.fork me).
Proof.
  unfold fork, Proc.fork. sim_step; [sims|]. destruct a as [cur|]; [|sims]. sim_step; [apply us_same_allocproc|].
  destruct a as [np|]; [|sims]. sim_step. sim_step; [sims|]. destruct a as [pg|]; [|sims]. do 4 (sim_step; [sims|]).
  apply sim_skip; [by intros []|]. sims; apply same_dup_files.
Qed.

Lemma us_same_wakeup1 c : same (Proc.wakeup1 c) (Proc.wakeup1 c).
Proof.
  intros s. split; [done|]. unfold with_procs, es. cbn. f_equal. rewrite <- !list_fmap_compose. apply list_fmap_ext. intros i p _.
  unfold compose, Proc.wake. cbn. by destruct (decide _).
Qed.

Lemma us_same_wakeup c : same (wakeup me c) (Proc.wakeup me c).
Proof. unfold wakeup, Proc.wakeup. sims; apply us_same_wakeup1. Qed.

Lemma us_same_reparent cur n : forall i, same (Proc.reparent cur i n) (Proc.reparent cur i n).
Proof. induction n as [|n IH]; intros i; cbn [Proc.reparent]; sims; apply us_same_wakeup1 || apply IH. Qed.

Lemma us_same_exit : same (exit me) (Proc.exit me).
Proof. unfold exit, Proc.exit. sims; first [apply same_close_files|apply us_same_wakeup1|apply us_same_reparent|apply same_sched]. Qed.

Lemma us_same_do_weightset w : same (do_weightset me w) (Proc.do_weightset me w).
Proof. unfold do_weightset, Proc.do_weightset. sims. Qed.

End Same.
End UpdateSched.
