(* ===== verification/Syscall.v ===== *)
(** * System calls: arguments, dispatch and process calls

    Models [src/xv6-public/syscall.c] and [sysproc.c], and the dispatcher of
    [src/add system call/syscall.c] and [sys_weightset] of
    [src/update scheduler/sysproc.c].  The memory of the current process is a
    function from user addresses to bytes; the handlers of the other system
    calls are the entries of the table [syscalls] given to the dispatcher. *)
From S2P Require Export ProcOps.

Module Syscall.
Import Spin Proc ProcInv.

(** ** Arguments *)

(** The bytes the process sees, its size and its stack pointer. *)
Record user := mkUser { u_mem : Z -> Z; u_sz : Z; u_esp : Z }.

(** The [int] at an address. *)
Definition load_int (m : Z -> Z) (a : Z) : Z :=
  int32 (m a + 256 * m (a + 1) + 65536 * m (a + 2) + 16777216 * m (a + 3))%Z.

(** [None] is the result -1. *)
Definition fetchint (u : user) (addr : Z) : option Z :=
  if decide (u_sz u <= addr \/ u_sz u < uint32 (addr + 4))%Z then None else Some (load_int (u_mem u) addr).

(** The loop of [fetchstr]: the length of the string, [n] bytes before [ep]. *)
Fixpoint fetchstr_loop (u : user) (s pp : Z) (n : nat) : option Z :=
  match n with
  | O => None
  | S n => if decide (u_mem u s = 0)%Z then Some (s - pp)%Z else fetchstr_loop u (s + 1) pp n
  end.
(** The pointer stored in [*pp], and the length. *)
Definition fetchstr (u : user) (addr : Z) : option (Z * Z) :=
  if decide (u_sz u <= addr)%Z then None
  else len ← fetchstr_loop u addr addr (Z.to_nat (u_sz u - addr)); Some (addr, len).

Definition argint (u : user) (n : Z) : option Z := fetchint u (uint32 (u_esp u + 4 + 4 * n)%Z).

Definition argptr (u : user) (n size : Z) : option Z :=
  i ← argint u n;
  if decide (size < 0 \/ u_sz u <= uint32 i \/ u_sz u < uint32 (uint32 i + size))%Z then None else Some (uint32 i).

Definition argstr (u : user) (n : Z) : option (Z * Z) :=
  addr ← argint u n; fetchstr u (uint32 addr).

(** The bytes of the string at [p]. *)
Definition string_at (u : user) (p len : Z) : list Z := (fun k => u_mem u (p + Z.of_nat k)%Z) <$> seq 0 (Z.to_nat len).

(** ** Process system calls *)

Section Sys.
Context {E : Type} `{KernelEnv E} (me : nat) (u : user).

(** The result of a handler, or [None] when the process has given up the CPU
    and continues in the handler later. *)
Definition handler : Type := proc_m E (option Z).
Definition done (m : proc_m E Z) : handler := r ← m; mret (Some r).
Definition waited (m : proc_m E (waiting Z)) : handler :=
  r ← m; mret (match r with Done r => Some r | Sleeps _ => None end).

(** The entry of the current process. *)
Definition curproc : proc_m E (nat * proc) :=
  cur ← myproc;
  match cur with
  | None => undef "no process"
  | Some cur => p ← rdp cur; mret (cur, p)
  end.

Definition sys_fork : handler := done (fork me).
Definition sys_exit : handler := exit me ;; mret None.
Definition sys_wait : handler := waited (wait me).
Definition sys_kill : handler :=
  match argint u 0 with
  | None => mret (Some (-1)%Z)
  | Some pid => done (kill me pid)
  end.
Definition sys_getpid : handler := '(_, p) ← curproc; mret (Some (pid p)).
Definition sys_sbrk : handler :=
  match argint u 0 with
  | None => mret (Some (-1)%Z)
  | Some n =>
      '(_, p) ← curproc;
      let addr := int32 (sz p) in
      r ← growproc n;
      mret (Some (if decide (r < 0)%Z then (-1)%Z else addr))
  end.

(** [tickslock] and [ticks]; the channel is the address of [ticks]. *)
Context (ticks_chan : Z).

(** The loop of [sys_sleep] with [tickslock] held, from its test to the end or
    to the call of [sleep].  [ticks - ticks0 < n] compares as [uint]. *)
Definition sys_sleep_pass (n ticks0 ticks : Z) (tickslock : spinlock) : proc_m E (option spinlock * waiting Z) :=
  if decide (uint32 (ticks - ticks0) < uint32 n)%Z then
    '(_, p) ← curproc;
    if killed p then l ← release_lk me tickslock; mret (l, Done (-1)%Z)
    else l ← sleep me (CAddr ticks_chan) (Some tickslock); mret (l, Sleeps 0%Z)
  else l ← release_lk me tickslock; mret (l, Done 0%Z).

Definition sys_sleep (ticks : Z) (tickslock : spinlock) : handler :=
  match argint u 0 with
  | None => mret (Some (-1)%Z)
  | Some n =>
      l ← (fun s => '(l, c) ← acquire me tickslock (kcpu s); Ret (l, with_lock (plock s) c s));
      '(_, r) ← sys_sleep_pass n ticks ticks l;
      mret (match r with Done r => Some r | Sleeps _ => None end)
  end.

Definition sys_uptime (ticks : Z) (tickslock : spinlock) : handler :=
  l ← (fun s => '(l, c) ← acquire me tickslock (kcpu s); Ret (l, with_lock (plock s) c s));
  release_lk me l ;;
  mret (Some (int32 ticks)).

Definition sys_memsize : handler := '(_, p) ← curproc; mret (Some (int32 (sz p))).

(** [argint] stores through its pointer only when it succeeds. *)
Definition sys_trace : handler :=
  '(cur, _) ← curproc;
  match argint u 0 with
  | None => mret (Some (-1)%Z)
  | Some n => updp cur (set_trace n) ;; mret (Some 0%Z)
  end.
Definition sys_weightset : handler :=
  '(cur, _) ← curproc;
  match argint u 0 with
  | None => mret (Some (-1)%Z)
  | Some n => updp cur (set_weight n) ;; mret (Some 0%Z)
  end.
(** [sys_weightset] of [update scheduler/sysproc.c]. *)
Definition us_sys_weightset : handler :=
  match argint u 0 with
  | None => mret (Some (-1)%Z)
  | Some weight =>
      if decide (weight = 0)%Z then mret (Some (-1)%Z)
      else do_weightset me weight ;; mret (Some weight)
  end.

(** ** The dispatcher *)

(** What the dispatcher prints. *)
Inductive message := Traced (pid : Z) (name : string) (ret : Z) | WeightZero | Unknown (pid : Z) (name : string) (num : Z).

Definition syscall_names : list string :=
  ["fork"; "exit"; "wait"; "pipe"; "read"; "kill"; "exec"; "fstat"; "chdir"; "dup"; "getpid"; "sbrk"; "sleep"; "uptime";
   "open"; "write"; "mknod"; "unlink"; "link"; "mkdir"; "close"; "memsize"; "trace"; "weightset"]%string.

Definition set_eax (r : Z) (p : proc) : proc :=
  let t := tf p in set_tf (mkTf r (esp t) (eip t) (eflags t) (cs t) (ds t) (es t) (ss t)) p.

(** [num > 0 && num < NELEM(syscalls) && syscalls\[num\]]; entry 0 is null. *)
Definition find_syscall (syscalls : list (option handler)) (num : Z) : option handler :=
  if decide (0 < num < Z.of_nat (length syscalls))%Z then default None (syscalls !! Z.to_nat num) else None.

(** [syscall] around a way to finish a call: the printing and what follows. *)
Definition dispatch (syscalls : list (option handler)) (finish : nat -> Z -> Z -> proc_m E (list message)) : proc_m E (list message) :=
  '(cur, p) ← curproc;
  let num := int32 (eax (tf p)) in
  match find_syscall syscalls num with
  | Some h =>
      r ← h;
      match r with
      | None => mret []
      | Some r => updp cur (set_eax r) ;; finish cur num r
      end
  | None =>
      updp cur (set_eax (-1)%Z) ;;
      mret [Unknown (pid p) (name p) num]
  end.

(** [xv6-public/syscall.c]: the weight of the process is set again, or the
    result is lost. *)
Definition finish_weight (cur : nat) (num r : Z) : proc_m E (list message) :=
  p ← rdp cur;
  if decide (weight p <> 0)%Z then do_weightset me (weight p) ;; mret []
  else updp cur (set_eax (-1)%Z) ;; mret [WeightZero].
Definition syscall (syscalls : list (option handler)) : proc_m E (list message) := dispatch syscalls finish_weight.

(** [add system call/syscall.c]. *)
Definition finish_trace (cur : nat) (num r : Z) : proc_m E (list message) :=
  p ← rdp cur;
  if decide (Z.shiftr (trace p) num <> 0)%Z then
    match syscall_names !! Z.to_nat (num - 1) with
    | Some n => mret [Traced (pid p) n (eax (tf p))]
    | None => undef "syscall_names"
    end
  else mret [].
Definition asc_syscall (syscalls : list (option handler)) : proc_m E (list message) := dispatch syscalls finish_trace.
End Sys.

(** ** Argument checking *)

Lemma fetchstr_loop_spec u pp n : forall s,
  match fetchstr_loop u s pp n with
  | Some len => exists k : nat, k < n /\ len = (s + Z.of_nat k - pp)%Z /\ u_mem u (s + Z.of_nat k)%Z = 0%Z /\
      forall j : nat, j < k -> u_mem u (s + Z.of_nat j)%Z <> 0%Z
  | None => forall j : nat, j < n -> u_mem u (s + Z.of_nat j)%Z <> 0%Z
  end.
Proof.
  induction n as [|n IH]; intros s; cbn [fetchstr_loop]; [lia|]. case_decide as E.
  - exists 0. rewrite Z.add_0_r. split_and!; [lia|lia|done|lia].
  - specialize (IH (s + 1)%Z). destruct (fetchstr_loop u (s + 1) pp n) as [len|].
    + destruct IH as (k & Hk & -> & Hz & Hn). exists (S k). replace (s + Z.of_nat (S k))%Z with (s + 1 + Z.of_nat k)%Z by lia.
      split_and!; [lia|lia|done|]. intros [|j] Hj; [by rewrite Z.add_0_r|].
      replace (s + Z.of_nat (S j))%Z with (s + 1 + Z.of_nat j)%Z by lia. apply Hn. lia.
    + intros [|j] Hj; [by rewrite Z.add_0_r|]. replace (s + Z.of_nat (S j))%Z with (s + 1 + Z.of_nat j)%Z by lia. apply IH. lia.
Qed.

Lemma fetchstr_spec u addr : (0 <= addr)%Z ->
  match fetchstr u addr with
  | Some (p, len) => p = addr /\ (0 <= len)%Z /\ (addr + len < u_sz u)%Z /\ u_mem u (addr + len)%Z = 0%Z /\
      forall k, (0 <= k < len)%Z -> u_mem u (addr + k)%Z <> 0%Z
  | None => forall x, (addr <= x < u_sz u)%Z -> u_mem u x <> 0%Z
  end.
Proof.
  intros Ha. unfold fetchstr. case_decide as Hs; [lia|]. pose proof (fetchstr_loop_spec u addr (Z.to_nat (u_sz u - addr)) addr) as Hl.
  destruct (fetchstr_loop u addr addr _) as [len|]; cbn.
  - destruct Hl as (k & Hk & -> & Hz & Hn). replace (addr + (addr + Z.of_nat k - addr))%Z with (addr + Z.of_nat k)%Z by lia.
    split_and!; [done|lia|lia|done|]. intros j Hj. specialize (Hn (Z.to_nat j)). rewrite Z2Nat.id in Hn by lia. apply Hn. lia.
  - intros x Hx. specialize (Hl (Z.to_nat (x - addr))). rewrite Z2Nat.id in Hl by lia.
    replace (addr + (x - addr))%Z with x in Hl by lia. apply Hl. lia.
Qed.

(** C35. What a system call takes from the user is inside the memory of the
    process, whose size is at most [KERNBASE]: the word [argint] reads, the
    [size] bytes of a pointer [argptr] accepts, and the string of [argstr] with
    its NUL.  [argptr] accepts every pointer for which that holds, and
    [argstr] fails only if the word is not readable or no NUL follows. *)
Theorem syscall_args_safe u n size :
  (0 <= u_sz u <= 2 ^ 31)%Z -> (size < 2 ^ 31)%Z ->
  let a := uint32 (u_esp u + 4 + 4 * n)%Z in
  (argint u n = if decide (a + 4 <= u_sz u)%Z then Some (load_int (u_mem u) a) else None) /\
  (forall i, argint u n = Some i ->
    let p := uint32 i in
    argptr u n size = (if decide (0 <= size /\ p < u_sz u /\ p + size <= u_sz u)%Z then Some p else None) /\
    match argstr u n with
    | Some (q, len) => q = p /\ (0 <= len)%Z /\ (p + len < u_sz u)%Z /\ u_mem u (p + len)%Z = 0%Z /\
        forall k, (0 <= k < len)%Z -> u_mem u (p + k)%Z <> 0%Z
    | None => forall x, (p <= x < u_sz u)%Z -> u_mem u x <> 0%Z
    end).
Proof.
  intros Hsz Hsize a. pose proof (uint32_bound (u_esp u + 4 + 4 * n)) as Ha. fold a in Ha. split.
  - unfold argint, fetchint. fold a. destruct (decide (a + 4 <= u_sz u)%Z) as [H|H].
    + rewrite decide_False; [done|]. rewrite uint32_id by lia. lia.
    + rewrite decide_True; [done|]. destruct (decide (u_sz u <= a)%Z); [by left|right]. rewrite uint32_id by lia. lia.
  - intros i Hi p. pose proof (uint32_bound i) as Hp. fold p in Hp. unfold argptr, argstr. rewrite Hi. cbn. fold p.
    split; [|by apply fetchstr_spec, Hp]. destruct (decide (0 <= size /\ p < u_sz u /\ p + size <= u_sz u)%Z) as [H|H].
    + rewrite decide_False; [done|]. rewrite uint32_id by lia. lia.
    + rewrite decide_True; [done|]. destruct (decide (size < 0)%Z); [by left|right]. destruct (decide (u_sz u <= p)%Z); [by left|right].
      rewrite uint32_id by lia. lia.
Qed.

Definition demo_user : user :=
  mkUser (fun x => if decide (x = 8)%Z then 16%Z else if decide (x = 16)%Z then 104%Z else 0%Z) 4096 4.
Lemma syscall_args_safe_witness : argptr demo_user 0 10 = Some 16%Z /\ argstr demo_user 0 = Some (16, 1)%Z.
Proof.
  destruct (syscall_args_safe demo_user 0 10 ltac:(cbn; lia) ltac:(lia)) as [_ H].
  destruct (H 16%Z ltac:(vm_compute; reflexivity)) as [H1 _]. split; [|vm_compute; reflexivity].
  etransitivity; [exact H1|]. vm_compute. reflexivity.
Defined.

(** ** Dispatch *)

Section Thms.
Context {E : Type} `{KernelEnv E} (me : nat).

Lemma curproc_eq ps mn w n ip b cur fi (e : E) p :
  ps !! cur = Some p ->
  let s := mkK initlock ps mn w n ip (mkCpu 0 b b) (Some cur) fi e in curproc s = Ret ((cur, p), s).
Proof.
  intros Hp s. assert (wp curproc (fun r s2 => r = (cur, p) /\ s2 = s) s) as Hw.
  { unfold curproc. apply wp_bind, wp_myproc_ready. cbv beta iota. apply wp_bind. eapply wp_rdp; [exact Hp|]. by apply wp_ret. }
  by apply wp_Ret in Hw as (? & ? & ? & -> & ->).
Qed.

(** A system call of a process: a number outside the table makes the result
    -1 and changes nothing else; otherwise the handler runs, and the
    register [eax] becomes its result if the process has a weight.  A process
    whose weight is 0 gets -1 from every system call, although the handler has
    run. *)
Theorem syscall_result (syscalls : list (option (handler (E := E)))) ps mn w n ip b cur fi e p :
  ps !! cur = Some p ->
  let s := mkK initlock ps mn w n ip (mkCpu 0 b b) (Some cur) fi e in
  let num := int32 (eax (tf p)) in
  match find_syscall syscalls num with
  | None => syscall me syscalls s = Ret ([Unknown (pid p) (name p) num], with_procs (<[cur:=set_eax (-1) p]> ps) s)
  | Some h => forall r ps' mn' w' n' ip' fi' e' p',
      let s' ps := mkK initlock ps mn' w' n' ip' (mkCpu 0 b b) (Some cur) fi' e' in
      h s = Ret (Some r, s' ps') -> ps' !! cur = Some p' ->
      syscall me syscalls s =
        if decide (weight p' <> 0)%Z then Ret ([], s' (<[cur:=set_eax r p']> ps'))
        else Ret ([WeightZero], s' (<[cur:=set_eax (-1) p']> ps'))
  end.
Proof.
  intros Hp s num. pose proof (curproc_eq ps mn w n ip b cur fi e p Hp) as Hc. fold s in Hc.
  destruct (find_syscall syscalls num) as [h|] eqn:Hf.
  - intros r ps' mn' w' n' ip' fi' e' p' s' Hh Hp'. unfold syscall, dispatch.
    etransitivity; [apply stm_bind_Ret; exact Hc|]. cbv beta iota. fold num. rewrite Hf.
    etransitivity; [apply stm_bind_Ret; exact Hh|]. cbv beta iota.
    assert (exists p1, <[cur:=set_eax r p']> ps' !! cur = Some p1 /\ p1 = set_eax r p') as (p1 & Hp1 & ->)
      by (eexists; split; [apply list_lookup_insert_eq; by eapply lookup_lt_Some|done]).
    assert (wp (updp cur (set_eax r) ;; finish_weight me cur num r) (fun m s2 =>
       if decide (weight p' <> 0)%Z then m = [] /\ s2 = s' (<[cur:=set_eax r p']> ps')
       else m = [WeightZero] /\ s2 = s' (<[cur:=set_eax (-1) p']> ps')) (s' ps')) as Hw.
    { apply wp_bind. eapply wp_updp; [exact Hp'|]. unfold finish_weight. apply wp_bind. eapply wp_rdp; [exact Hp1|].
      change (weight (set_eax r p')) with (weight p'). destruct (decide (weight p' <> 0)%Z) as [Hz|Hz].
      - unfold do_weightset. apply wp_bind, wp_bind, wp_acquire_pt, wp_bind, wp_myproc_held. cbv beta iota. apply wp_bind.
        eapply wp_updp; [exact Hp1|]. apply wp_release_pt, wp_ret. rewrite list_insert_insert_eq. split; [done|]. by destruct p'.
      - apply wp_bind. eapply wp_updp; [exact Hp1|]. apply wp_ret. rewrite list_insert_insert_eq. split; [done|]. by destruct p'. }
    apply wp_Ret in Hw as (m & s2 & Hm & Hr). rewrite Hm. case_decide; by destruct Hr as [-> ->].
  - unfold syscall, dispatch. etransitivity; [apply stm_bind_Ret; exact Hc|]. cbv beta iota. fold num. rewrite Hf.
    etransitivity; [apply (stm_bind_Ret (updp cur _)); unfold updp, s; cbn [procs]; rewrite (rd_lookup _ _ _ Hp); reflexivity|]. done.
Qed.

(** The dispatcher of the tracing kernel prints a system call when the mask,
    a non-negative [int], is at least [2 ^ num]: when any bit from that of the
    call upwards is set, not when the bit of the call is set.  The result of
    the call is not changed. *)
Theorem trace_prints (syscalls : list (option (handler (E := E)))) ps mn w n ip b cur fi e p h r ps' mn' w' n' ip' fi' e' p' :
  ps !! cur = Some p -> ps' !! cur = Some p' ->
  let s := mkK initlock ps mn w n ip (mkCpu 0 b b) (Some cur) fi e in
  let s' ps := mkK initlock ps mn' w' n' ip' (mkCpu 0 b b) (Some cur) fi' e' in
  let num := int32 (eax (tf p)) in
  find_syscall syscalls num = Some h -> length syscalls <= 25 -> h s = Ret (Some r, s' ps') -> (0 <= trace p')%Z ->
  exists nm, syscall_names !! Z.to_nat (num - 1) = Some nm /\
  asc_syscall syscalls s =
    Ret (if decide (2 ^ num <= trace p')%Z then [Traced (pid p') nm r] else [], s' (<[cur:=set_eax r p']> ps')).
Proof.
  intros Hp Hp' s s' num Hf Hlen Hh Ht. pose proof (curproc_eq ps mn w n ip b cur fi e p Hp) as Hc. fold s in Hc.
  assert (0 < num < 25)%Z as Hn by (unfold find_syscall in Hf; case_decide; [lia|done]).
  destruct (lookup_lt_is_Some_2 syscall_names (Z.to_nat (num - 1))) as [nm Hnm]; [cbn; lia|]. exists nm. split; [done|].
  unfold asc_syscall, dispatch. etransitivity; [apply stm_bind_Ret; exact Hc|]. cbv beta iota. fold num. rewrite Hf.
  etransitivity; [apply stm_bind_Ret; exact Hh|]. cbv beta iota.
  assert (<[cur:=set_eax r p']> ps' !! cur = Some (set_eax r p')) as Hp1 by (apply list_lookup_insert_eq; by eapply lookup_lt_Some).
  etransitivity; [apply (stm_bind_Ret (updp cur _)); unfold updp, s'; cbn [procs]; rewrite (rd_lookup _ _ _ Hp'); reflexivity|].
  unfold finish_trace. etransitivity; [apply (stm_bind_Ret (rdp cur)); unfold rdp; cbn [procs with_procs]; rewrite (rd_lookup _ _ _ Hp1); reflexivity|].
  change (trace (set_eax r p')) with (trace p'). rewrite Hnm.
  assert (Z.shiftr (trace p') num = 0 <-> trace p' < 2 ^ num)%Z as Hiff.
  { rewrite Z.shiftr_div_pow2 by lia. split; intros Hx; [|by apply Z.div_small].
    apply Z.div_small_iff in Hx; [lia|]. assert (0 < 2 ^ num)%Z by (apply Z.pow_pos_nonneg; lia). lia. }
  destruct (decide (2 ^ num <= trace p')%Z); [rewrite decide_True by lia|rewrite decide_False by lia]; done.
Qed.
End Thms.

(** A process of weight 0 in the table, and [getpid]. *)
Definition demo_proc (num : Z) : proc := set_trace (2 ^ 23) (set_pid 5 (set_eax num proc0)).
Definition demo_kst (num : Z) : kst Z := mkK initlock [demo_proc num] 3 1 6 None (mkCpu 0 true true) (Some 0) false 0%Z.
Definition demo_table : list (option (handler (E := Z))) := replicate 11 None ++ [Some sys_getpid].

(** [getpid] returns -1 to it, and a number without a handler is refused. *)
Lemma syscall_result_witness :
  syscall 0 demo_table (demo_kst 11) = Ret ([WeightZero], with_procs [set_eax (-1)%Z (demo_proc 11)] (demo_kst 11)) /\
  syscall 0 demo_table (demo_kst 10) = Ret ([Unknown 5 "" 10], with_procs [set_eax (-1)%Z (demo_proc 10)] (demo_kst 10)).
Proof.
  split.
  - exact (syscall_result 0 demo_table [demo_proc 11] 3%Z 1%Z 6%Z None true 0 false 0%Z (demo_proc 11) eq_refl
             5%Z [demo_proc 11] 3%Z 1%Z 6%Z None false 0%Z (demo_proc 11) eq_refl eq_refl).
  - exact (syscall_result 0 demo_table [demo_proc 10] 3%Z 1%Z 6%Z None true 0 false 0%Z (demo_proc 10) eq_refl).
Defined.

(** With only the bit of [trace] (23) in the mask, [getpid] (11) is printed. *)
Lemma trace_prints_witness :
  asc_syscall demo_table (demo_kst 11) = Ret ([Traced 5 "getpid" 5], with_procs [set_eax 5 (demo_proc 11)] (demo_kst 11)).
Proof.
  destruct (trace_prints demo_table [demo_proc 11] 3%Z 1%Z 6%Z None true 0 false 0%Z (demo_proc 11) sys_getpid
             5%Z [demo_proc 11] 3%Z 1%Z 6%Z None false 0%Z (demo_proc 11) eq_refl eq_refl) as (nm & Hnm & Heq).
  - reflexivity.
  - cbn. lia.
  - reflexivity.
  - vm_compute. discriminate.
  - vm_compute in Hnm. injection Hnm as <-. exact Heq.
Defined.
End Syscall.
