(* ===== verification/Trap.v ===== *)
(** * Traps

    Models [src/xv6-public/trap.c] with the constants of [traps.h] and the gate
    descriptors of [mmu.h], on the processes of [Proc] and the dispatcher of
    [Syscall].  The interrupt handlers of the disk, the keyboard and the serial
    port are parameters, as is whether the CPU is number 0.  [ticks] and
    [tickslock] are passed along.  A trap ends with the return to the
    interrupted code or with a switch to the scheduler; after the switch of
    [yield], [trap] continues in [trap_resumed].  What is printed is not
    modelled. *)
From S2P Require Export Syscall.

Module Trap.
Import Spin Proc ProcInv ProcOps Syscall.
Local Open Scope Z_scope.

(** ** [traps.h] *)

Definition T_SYSCALL : Z := 64.
Definition T_IRQ0 : Z := 32.
Definition IRQ_TIMER : Z := 0.
Definition IRQ_KBD : Z := 1.
Definition IRQ_COM1 : Z := 4.
Definition IRQ_IDE : Z := 14.
Definition IRQ_SPURIOUS : Z := 31.
Definition DPL_USER : Z := 3.

(** ** The interrupt descriptor table *)

(** [SETGATE]: the fields of a gate, and its two words. *)
Record gatedesc := mkGate { g_off : Z; g_cs : Z; g_trap : bool; g_dpl : Z }.
Definition STS_IG32 : Z := 14.
Definition STS_TG32 : Z := 15.
Definition gate_words (g : gatedesc) : Z * Z :=
  (Z.land (g_off g) 65535 + 65536 * g_cs g,
   256 * ((if g_trap g then STS_TG32 else STS_IG32) + 32 * g_dpl g + 128) + 65536 * Z.shiftr (g_off g) 16).
Definition SEG_KCODE : Z := 1.

Definition tvinit (vectors : list Z) : list gatedesc :=
  <[Z.to_nat T_SYSCALL := mkGate (default 0 (vectors !! Z.to_nat T_SYSCALL)) (Z.shiftl SEG_KCODE 3) true DPL_USER]>
    ((fun v => mkGate v (Z.shiftl SEG_KCODE 3) false 0) <$> vectors).

(** ** [trap] *)

Inductive trapped := Returns | Switched.

Section Trap.
Context {E : Type} `{KernelEnv E} (me : nat) (cpu0 : bool) (ticks_chan : Z).
Context (ideintr kbdintr uartintr : proc_m E unit) (syscalls : list (option (@handler E))).

(** [ticks] and [tickslock]. *)
Notation clock := (Z * spinlock)%type.

Definition tick (t : clock) : proc_m E clock :=
  l ← acquire_lk me (snd t);
  wakeup me (CAddr ticks_chan) ;;
  o ← release_lk me l;
  mret (uint32 (fst t + 1), default l o).

(** [myproc() && myproc()->killed && (tf->cs&3) == DPL_USER]. *)
Definition must_exit (t : trapframe) : proc_m E bool :=
  cur ← myproc;
  match cur with
  | None => mret false
  | Some cur => p ← rdp cur; mret (killed p && bool_decide (Z.land (cs t) 3 = DPL_USER))
  end.

(** What follows [yield], and the end of [trap]. *)
Definition trap_resumed (t : trapframe) : proc_m E trapped :=
  x ← must_exit t;
  if (x : bool) then exit me ;; mret Switched else mret Returns.

Definition trap_syscall (t : trapframe) : proc_m E trapped :=
  '(cur, p) ← curproc;
  if killed p then exit me ;; mret Switched
  else
    updp cur (set_tf t) ;;
    syscall me syscalls ;;
    p ← rdp cur;
    (* a call that waits has given up the CPU *)
    if decide (state p <> RUNNING) then mret Switched
    else if killed p then exit me ;; mret Switched
    else mret Returns.

(** The [switch]. *)
Definition trap_handle (trapno : Z) (t : trapframe) (clk : clock) : proc_m E clock :=
  if decide (trapno = T_IRQ0 + IRQ_TIMER) then (if cpu0 then tick clk else mret clk)
  else if decide (trapno = T_IRQ0 + IRQ_IDE) then ideintr ;; mret clk
  else if decide (trapno = T_IRQ0 + IRQ_IDE + 1) then mret clk
  else if decide (trapno = T_IRQ0 + IRQ_KBD) then kbdintr ;; mret clk
  else if decide (trapno = T_IRQ0 + IRQ_COM1) then uartintr ;; mret clk
  else if decide (trapno = T_IRQ0 + 7 \/ trapno = T_IRQ0 + IRQ_SPURIOUS) then mret clk
  else
    cur ← myproc;
    match cur with
    | None => panic "trap"
    | Some cur =>
        if decide (Z.land (cs t) 3 = 0) then panic "trap"
        else updp cur (set_killed true) ;; mret clk
    end.

Definition trap (trapno : Z) (t : trapframe) (clk : clock) : proc_m E (trapped * clock) :=
  if decide (trapno = T_SYSCALL) then r ← trap_syscall t; mret (r, clk)
  else
    clk ← trap_handle trapno t clk;
    x ← must_exit t;
    if (x : bool) then exit me ;; mret (Switched, clk)
    else
      cur ← myproc;
      running ← match cur with None => mret false | Some cur => p ← rdp cur; mret (bool_decide (state p = RUNNING)) end;
      if (running && bool_decide (trapno = T_IRQ0 + IRQ_TIMER))%bool then yield me ;; mret (Switched, clk)
      else r ← trap_resumed t; mret (r, clk).
End Trap.

(** ** Theorems *)

Section Thms.
Context {E : Type} `{KernelEnvOk E} (me : nat).
Notation kinv := (kinv (E := E) me).

Lemma wp_wakeup_nested c ps mn w n ip b cp fi e (Q : unit -> kst E -> Prop) :
  Q tt (mkK initlock (wake mn c <$> ps) mn w n ip (mkCpu 1 b false) cp fi e) ->
  wp (wakeup me c) Q (mkK initlock ps mn w n ip (mkCpu 1 b false) cp fi e).
Proof.
  intros HQ. unfold wakeup. wp_step. apply wp_acquire_pt_nested. wp_step. wp_step.
  unfold wp, release_pt. cbn [plock kcpu]. change (mkCpu 2 b false) with (pushcli (mkCpu 1 b false)).
  unfold held_lock. rewrite release_held by (split; cbn; [lia|done]). exact HQ.
Qed.

(** An update of fields of the running process that the invariant does not
    mention. *)
Lemma kinv_upd cur f s (Q : unit -> kst E -> Prop) :
  kinv (MRun cur) s ->
  (forall p, state (f p) = state p /\ pid (f p) = pid p /\ parent (f p) = parent p /\ kstack (f p) = kstack p /\ pgdir (f p) = pgdir p /\
     ofile (f p) = ofile p /\ cwd (f p) = cwd p /\ context (f p) = context p /\ weight (f p) = weight p) ->
  (forall p s', procs s !! cur = Some p -> kinv (MRun cur) s' -> initproc s' = initproc s -> procs s' !! cur = Some (f p) -> Q tt s') ->
  wp (updp cur f) Q s.
Proof.
  intros Hinv Hf HQ. inversion Hinv as [| |? p ps mn w n ip b fi e Hok Hrun Hcur Hw0 Hn0| |]; subst.
  assert (state p = RUNNING) as Hst by by apply (Hrun cur p). destruct (Hf p) as (F1 & F2 & F3 & F4 & F5 & F6 & F7 & F8 & F9).
  eapply wp_updp; [done|]. apply (HQ p); [done| |done|by apply list_lookup_insert_eq, (lookup_lt_Some _ _ _ Hcur)].
  eapply (KRun _ cur (f p)); [|eapply run_ok_insert; [done|done|by rewrite F1]| |done..].
  - eapply table_ok_upd1; [done..|]. apply upd_ok_fields; try done; [by eapply t_proc|congruence| |congruence].
    rewrite F9. apply (p_weight _ _ (t_proc _ _ _ Hok _ _ Hcur)). congruence.
  - by apply list_lookup_insert_eq, (lookup_lt_Some _ _ _ Hcur).
Qed.

(** The transitions of [kexec] as computations of the current process. *)
Lemma wp_seq {A} (m : proc_m E A) md s (Q : mode -> kst E -> Prop) : wp (m ;; mret md) Q s -> wp m (fun _ s' => Q md s') s.
Proof. unfold wp, mbind, stm_bind. by destruct (m s) as [[a s']| | |]. Qed.

Lemma wp_exit_run cur s : kinv (MRun cur) s -> initproc s <> Some cur -> wp (exit me) (fun _ s' => kinv (MSwitch cur) s') s.
Proof. intros Hk Hi. by apply (wp_seq (exit me)), kexec_exit. Qed.

Lemma wp_yield_run cur s : kinv (MRun cur) s -> wp (yield me) (fun _ s' => kinv (MSwitch cur) s') s.
Proof. intros Hk. by apply (wp_seq (yield me)), kexec_yield. Qed.

Lemma wp_myproc_run cur s (Q : option nat -> kst E -> Prop) : kinv (MRun cur) s -> Q (Some cur) s -> wp myproc Q s.
Proof. intros Hinv HQ. inversion Hinv; subst. by wp_step. Qed.

Lemma wp_rdp_run cur s (Q : proc -> kst E -> Prop) :
  kinv (MRun cur) s -> (forall p, procs s !! cur = Some p -> state p = RUNNING -> Q p s) -> wp (rdp cur) Q s.
Proof.
  intros Hinv HQ. inversion Hinv as [| |? p ps mn w n ip b fi e Hok Hrun Hcur Hw0 Hn0| |]; subst. wp_step. apply HQ; [done|]. by apply (Hrun cur p).
Qed.

(** The clock: every process that sleeps on [ticks] is woken. *)
Lemma wp_tick chan cur z s (Q : Z * spinlock -> kst E -> Prop) :
  kinv (MRun cur) s ->
  (forall s', kinv (MRun cur) s' -> initproc s' = initproc s -> procs s' = wake (min_priority s) (CAddr chan) <$> procs s -> Q (uint32 (z + 1), initlock) s') ->
  wp (tick me chan (z, initlock)) Q s.
Proof.
  intros Hinv HQ. pose proof (kexec_wakeup_run me cur (CAddr chan) s Hinv) as Hk. cbn [kexec] in Hk. apply wp_seq in Hk.
  inversion Hinv as [| |? p ps mn w n ip b fi e Hok Hrun Hcur Hw0 Hn0| |]; subst. unfold tick. cbn [fst snd].
  wp_step. apply wp_acquire_lk. wp_step. apply wp_wakeup_nested. wp_step.
  unfold wp, release_lk. cbn [kcpu]. change (mkCpu 1 b false) with (pushcli (mkCpu 0 b b)).
  unfold held_lock. rewrite release_held by (split; cbn; lia). cbn. apply HQ; [|done|done].
  eapply (KRun _ cur (wake mn (CAddr chan) p)); [by apply table_ok_wake|by apply run_ok_wake| |done..]. etransitivity; [apply list_lookup_fmap|by rewrite Hcur].
Qed.

(** A process other than init runs. *)
Definition user_run (cur : nat) (s : kst E) : Prop := kinv (MRun cur) s /\ initproc s <> Some cur.

Lemma wp_upd_run cur f s (Q : unit -> kst E -> Prop) :
  user_run cur s ->
  (forall p, state (f p) = state p /\ pid (f p) = pid p /\ parent (f p) = parent p /\ kstack (f p) = kstack p /\ pgdir (f p) = pgdir p /\
     ofile (f p) = ofile p /\ cwd (f p) = cwd p /\ context (f p) = context p /\ weight (f p) = weight p) ->
  (forall p s', procs s !! cur = Some p -> user_run cur s' -> procs s' !! cur = Some (f p) -> Q tt s') ->
  wp (updp cur f) Q s.
Proof.
  intros [Hk Hi] Hf HQ. eapply kinv_upd; [exact Hk|exact Hf|]. intros p s' Hp Hk' Hi' Hp'. apply (HQ p); [done| |done]. split; [done|congruence].
Qed.

(** Setting the weight to what it is. *)
Lemma wp_weightset_same cur p s (Q : unit -> kst E -> Prop) :
  kinv (MRun cur) s -> procs s !! cur = Some p -> Q tt s -> wp (do_weightset me (weight p)) Q s.
Proof.
  intros Hinv Hp HQ. inversion Hinv as [| |? p' ps mn w n ip b fi e Hok Hrun Hcur Hw0 Hn0| |]; subst. cbn [procs] in Hp. rewrite Hp in Hcur. injection Hcur as ->.
  unfold do_weightset. wp_steps. rewrite list_insert_id; [done|]. rewrite Hp. by destruct p'.
Qed.

(** What a handler of a system call promises. *)
Definition call_ok (h : @handler E) (cur : nat) (s : kst E) : Prop :=
  wp h (fun r s' => match r with Some _ => user_run cur s' | None => kinv (MSwitch cur) s' end) s.

Definition gone (cur : nat) (s : kst E) : Prop := exists p, procs s !! cur = Some p /\ state p <> RUNNING.

Lemma switch_gone cur s : kinv (MSwitch cur) s -> gone cur s.
Proof. intros Hinv. inversion Hinv as [| | | |? p ps mn w n ip b fi e Hok Hrun Hcur Hu Hw0 Hn0]; subst. exists p. split; [done|]. intros Hr. by apply (Hrun cur p) in Hr. Qed.

Lemma wp_syscall syscalls cur s (Q : list message -> kst E -> Prop) :
  user_run cur s ->
  (forall p h, procs s !! cur = Some p -> find_syscall syscalls (int32 (eax (tf p))) = Some h -> call_ok h cur s) ->
  (forall m s', user_run cur s' \/ kinv (MSwitch cur) s' -> Q m s') -> wp (syscall me syscalls) Q s.
Proof.
  intros Hu Hh HQ. pose proof Hu as [Hk _]. unfold syscall, dispatch, curproc. wp_step. wp_step. eapply wp_myproc_run; [exact Hk|]. wp_step.
  eapply wp_rdp_run; [exact Hk|]. intros p Hp Hst. wp_step. cbv beta iota zeta. destruct (find_syscall _ _) as [h|] eqn:Ef.
  - specialize (Hh p h Hp Ef). wp_step. eapply wp_mono; [exact Hh|]. intros [r|] s1 H1; cbv beta iota; [|wp_step; by apply HQ; right].
    wp_step. eapply wp_upd_run; [exact H1|done|]. intros q s2 Hq H2 Hq2. unfold finish_weight. wp_step. eapply wp_rdp_run; [apply H2|]. intros q' Hq' _.
    destruct (decide (weight q' <> 0)); wp_step.
    + eapply wp_weightset_same; [apply H2|done|]. wp_step. apply HQ. by left.
    + eapply wp_upd_run; [exact H2|done|]. intros q3 s3 _ H3 _. wp_step. apply HQ. by left.
  - wp_step. eapply wp_upd_run; [exact Hu|done|]. intros q s' _ H1 _. wp_step. apply HQ. by left.
Qed.

Section Post.
Context (cpu0 : bool) (chan : Z) (ideintr kbdintr uartintr : proc_m E unit) (syscalls : list (option (@handler E))).
Notation trap := (trap me cpu0 chan ideintr kbdintr uartintr syscalls).

(** The interrupt handlers of the devices leave the process running. *)
Definition dev_ok (m : proc_m E unit) : Prop := forall cur s, user_run cur s -> wp m (fun _ s' => user_run cur s') s.

(** The end of a trap: the process goes on, and if it returns to user space it has
    not been killed; or it has given up the CPU. *)
Definition trap_post (cur : nat) (t : trapframe) (r : trapped) (s : kst E) : Prop :=
  match r with
  | Returns => user_run cur s /\ forall p, procs s !! cur = Some p -> Z.land (cs t) 3 = DPL_USER -> killed p = false
  | Switched => kinv (MSwitch cur) s
  end.

Lemma wp_must_exit cur t s (Q : bool -> kst E -> Prop) :
  user_run cur s -> (forall p, procs s !! cur = Some p -> Q (killed p && bool_decide (Z.land (cs t) 3 = DPL_USER)) s) -> wp (must_exit t) Q s.
Proof.
  intros [Hk _] HQ. unfold must_exit. wp_step. eapply wp_myproc_run; [exact Hk|]. wp_step. eapply wp_rdp_run; [exact Hk|]. intros p Hp _. wp_step. by apply HQ.
Qed.

Lemma wp_trap_resumed cur t s : user_run cur s -> wp (trap_resumed me t) (trap_post cur t) s.
Proof.
  intros Hu. unfold trap_resumed. wp_step. eapply wp_must_exit; [exact Hu|]. intros p Hp. destruct (killed p && _)%bool eqn:Ex; wp_step.
  - eapply wp_mono; [by apply wp_exit_run; apply Hu|]. intros [] s' Hs'. by wp_step.
  - split; [done|]. intros q Hq Hcs. rewrite Hp in Hq. injection Hq as <-. rewrite bool_decide_true, andb_true_r in Ex; done.
Qed.

Lemma wp_trap_syscall cur t s : user_run cur s ->
  (forall h, find_syscall syscalls (int32 (eax t)) = Some h -> forall s1, user_run cur s1 -> call_ok h cur s1) ->
  wp (trap_syscall me syscalls t) (trap_post cur t) s.
Proof.
  intros Hu Hh. pose proof Hu as [Hk _]. unfold trap_syscall, curproc. wp_step. wp_step. eapply wp_myproc_run; [exact Hk|]. wp_step.
  eapply wp_rdp_run; [exact Hk|]. intros p Hp Hst. wp_step. cbv beta iota. destruct (killed p).
  - wp_step. eapply wp_mono; [by apply wp_exit_run; apply Hu|]. intros [] s' Hs'. by wp_step.
  - wp_step. eapply wp_upd_run; [exact Hu|done|]. intros p1 s1 _ H1 Hp1. wp_step. eapply wp_syscall; [exact H1| |].
    + intros p2 h Hp2. rewrite Hp1 in Hp2. injection Hp2 as <-. cbn [tf set_tf]. intros Hf. by apply (Hh h).
    + intros m s2 [H2|H2].
      * wp_step. eapply wp_rdp_run; [apply H2|]. intros p2 Hp2 Hst2. rewrite decide_False by auto. destruct (killed p2) eqn:Ek; wp_step.
        -- eapply wp_mono; [by apply wp_exit_run; apply H2|]. intros [] s' Hs'. by wp_step.
        -- split; [done|]. intros q Hq _. congruence.
      * destruct (switch_gone cur s2 H2) as (q & Hq & Hst2). wp_step. unfold rdp, wp. rewrite (rd_lookup _ _ _ Hq). cbn. by rewrite decide_True.
Qed.

Definition irqs : list Z := [T_IRQ0 + IRQ_TIMER; T_IRQ0 + IRQ_IDE; T_IRQ0 + IRQ_IDE + 1; T_IRQ0 + IRQ_KBD; T_IRQ0 + IRQ_COM1; T_IRQ0 + 7; T_IRQ0 + IRQ_SPURIOUS].

Lemma wp_trap_handle cur trapno t z s (Q : Z * spinlock -> kst E -> Prop) :
  user_run cur s -> dev_ok ideintr -> dev_ok kbdintr -> dev_ok uartintr -> (Z.land (cs t) 3 = 0 -> trapno ∈ irqs) ->
  (forall s', user_run cur s' -> Q (if decide (trapno = T_IRQ0 + IRQ_TIMER /\ cpu0 = true) then uint32 (z + 1) else z, initlock) s') ->
  wp (trap_handle me cpu0 chan ideintr kbdintr uartintr trapno t (z, initlock)) Q s.
Proof.
  intros Hu Hi Hb Hc Hcs HQ. unfold trap_handle. destruct (decide (trapno = T_IRQ0 + IRQ_TIMER)) as [Ht|Ht].
  - destruct cpu0.
    + eapply wp_tick; [apply Hu|]. intros s' H1 H2 _. rewrite decide_True in HQ by done. apply HQ. split; [done|]. rewrite H2. apply Hu.
    + wp_step. rewrite decide_False in HQ by naive_solver. by apply HQ.
  - rewrite decide_False in HQ by tauto. repeat (case_decide; [first [wp_step; eapply wp_mono; [by eauto|]; intros [] s' Hs'; wp_step; by apply HQ|wp_step; by apply HQ]|]).
    wp_step. eapply wp_myproc_run; [apply Hu|]. destruct (decide (Z.land (cs t) 3 = 0)) as [Hz|].
    + exfalso. specialize (Hcs Hz). unfold irqs in Hcs. set_solver.
    + wp_step. eapply wp_upd_run; [exact Hu|done|]. intros p s' _ Hs' _. wp_step. by apply HQ.
Qed.
End Post.

(** *** The process calls *)

Lemma sys_exit_ok cur s : user_run cur s -> call_ok (sys_exit me) cur s.
Proof. intros [Hk Hi]. unfold call_ok, sys_exit. wp_step. eapply wp_mono; [by apply wp_exit_run|]. intros [] s' Hs'. by wp_step. Qed.

Lemma wp_curproc_run cur s (Q : nat * proc -> kst E -> Prop) :
  user_run cur s -> (forall p, procs s !! cur = Some p -> Q (cur, p) s) -> wp curproc Q s.
Proof.
  intros [Hk _] HQ. unfold curproc. wp_step. eapply wp_myproc_run; [exact Hk|]. wp_step. eapply wp_rdp_run; [exact Hk|]. intros p Hp _. wp_step. by apply HQ.
Qed.

Lemma sys_getpid_ok cur s : user_run cur s -> call_ok sys_getpid cur s.
Proof. intros Hu. unfold call_ok, sys_getpid. wp_step. eapply wp_curproc_run; [done|]. intros p _. by wp_step. Qed.

Lemma sys_memsize_ok cur s : user_run cur s -> call_ok sys_memsize cur s.
Proof. intros Hu. unfold call_ok, sys_memsize. wp_step. eapply wp_curproc_run; [done|]. intros p _. by wp_step. Qed.

Lemma sys_trace_ok u cur s : user_run cur s -> call_ok (sys_trace u) cur s.
Proof.
  intros Hu. unfold call_ok, sys_trace. wp_step. eapply wp_curproc_run; [done|]. intros p _. cbv beta iota. destruct (argint u 0) as [n|]; [|by wp_step].
  wp_step. eapply wp_upd_run; [exact Hu|done|]. intros q s' _ Hs' _. by wp_step.
Qed.

Lemma sys_kill_ok u cur s : user_run cur s -> call_ok (sys_kill me u) cur s.
Proof.
  intros [Hk Hi]. unfold call_ok, sys_kill, done. destruct (argint u 0) as [x|]; [|by wp_step]. wp_step.
  pose proof (wp_seq _ _ _ _ (kexec_kill me cur x s Hk)) as (r & s' & Hr & Hk')%wp_Ret.
  assert (Hip : wp (kill me x) (fun _ s' => initproc s' = initproc s) s) by (inversion Hk; subst; by apply wp_kill).
  apply wp_Ret in Hip as (r2 & s2 & Hr2 & Hi2). rewrite Hr in Hr2. injection Hr2 as <- <-.
  apply wp_Ret. exists r, s'. split; [done|]. wp_step. split; [done|congruence].
Qed.
End Thms.


(** Boot; init forks, and its child runs. *)
Definition child_reqs : list req := [RPick; RResume; RFork; RYield; RTail; RPick; RResume].
Lemma child_run : exists s : kst Z, user_run 0 1 s.
Proof.
  assert (exists s0 : kst Z, userinit 0 (boot_state 0) = Ret (tt, s0) /\
    exists s, kruns 0 child_reqs MSched s0 = Ret (MRun 1, s) /\ kvalid 0 child_reqs MSched s0 /\ initproc s <> Some 1%nat) as (s0 & H0 & s & Hs & Hv & Hi).
  { eexists. split; [vm_compute; reflexivity|]. eexists. split; [vm_compute; reflexivity|].
    split; [vm_compute; repeat split; reflexivity|done]. }
  exists s. split; [|done]. eapply kreach_inv, kruns_reach; [|exact Hv|exact Hs]. econstructor; [apply simple_boot_ok|exact H0].
Qed.

Definition user_tf : trapframe := mkTf 11 0 0 512 27 35 35 35.


(** An exception in user space kills the process, one in the kernel is a panic. *)
Theorem trap_kernel_panics {E} `{KernelEnvOk E} me cpu0 chan ideintr kbdintr uartintr syscalls cur trapno t clk (s : kst E) :
  kinv me (MRun cur) s -> Z.land (cs t) 3 = 0 -> trapno <> T_SYSCALL -> trapno ∉ irqs ->
  trap me cpu0 chan ideintr kbdintr uartintr syscalls trapno t clk s = Panic "trap".
Proof.
  intros Hinv Hcs Hs Hi. unfold irqs in Hi. unfold trap. rewrite decide_False by done.
  assert (Hp : trap_handle me cpu0 chan ideintr kbdintr uartintr trapno t clk s = Panic "trap"); [|unfold mbind at 1, stm_bind at 1; by rewrite Hp].
  unfold trap_handle. rewrite !decide_False by set_solver.
  inversion Hinv as [| |? p ps mn w n ip b fi e Hok Hrun Hcur Hw0 Hn0| |]; subst.
  assert (Hm : myproc (mkK initlock ps mn w n ip (mkCpu 0 b b) (Some cur) fi e) = Ret (Some cur, mkK initlock ps mn w n ip (mkCpu 0 b b) (Some cur) fi e)).
  { assert (Hw : wp myproc (fun r s' => r = Some cur /\ s' = mkK initlock ps mn w n ip (mkCpu 0 b b) (Some cur) fi e) (mkK initlock ps mn w n ip (mkCpu 0 b b) (Some cur) fi e)) by by wp_step.
    by apply wp_Ret in Hw as (? & ? & ? & -> & ->). }
  rewrite (stm_bind_Ret _ _ _ _ _ Hm). by rewrite decide_True.
Qed.

(** ** The descriptor table *)

(** From user space only the system call gate can be entered with [int]; it
    leaves interrupts enabled, all others disable them. *)
Theorem tvinit_gates vectors i g : length vectors = 256%nat -> tvinit vectors !! i = Some g ->
  vectors !! i = Some (g_off g) /\ g_cs g = 8 /\ (g_dpl g = DPL_USER <-> Z.of_nat i = T_SYSCALL) /\ (g_trap g = true <-> Z.of_nat i = T_SYSCALL).
Proof.
  unfold tvinit. intros Hl Hg. change (Z.to_nat T_SYSCALL) with 64%nat in *. destruct (decide (i = 64%nat)) as [->|Hne].
  - rewrite list_lookup_insert_eq in Hg by (rewrite length_fmap; lia). injection Hg as <-.
    destruct (lookup_lt_is_Some_2 vectors 64) as [v Hv]; [lia|]. cbn. by rewrite Hv.
  - rewrite list_lookup_insert_ne in Hg by done. apply list_lookup_fmap_Some in Hg as (v & -> & Hv). cbn. unfold T_SYSCALL, DPL_USER. split; [done|]. split; [done|]. lia.
Qed.

(** The fields can be read back from the two words of a gate. *)
Theorem gate_words_fields g : 0 <= g_off g < 2 ^ 32 -> 0 <= g_cs g < 65536 -> 0 <= g_dpl g < 4 ->
  let '(lo, hi) := gate_words g in
  lo mod 65536 + 65536 * (hi / 65536) = g_off g /\ lo / 65536 = g_cs g /\ hi / 32768 mod 2 = 1 /\ hi / 8192 mod 4 = g_dpl g /\
  hi / 256 mod 16 = (if g_trap g then STS_TG32 else STS_IG32) /\ hi mod 256 = 0.
Proof.
  intros Ho Hc Hd. unfold gate_words. change 65535 with (Z.ones 16). rewrite Z.land_ones, Z.shiftr_div_pow2 by lia.
  unfold STS_TG32, STS_IG32. destruct (g_trap g); Z.div_mod_to_equations; lia.
Qed.
End Trap.
