(* ===== verification/Asm.v ===== *)
(** * Assembly of the kernel: context switch and trap entry

    Models [swtch.S], [trapasm.S], the entry points [vectors.pl] generates and
    [initcode.S] of [src/xv6-public], with the part of the x86 they use: the
    registers, a memory of words, the stack, and the delivery of an interrupt.
    The C functions that depend on the layouts are [allocproc], [fork] and
    [userinit] of [proc.c], which build the first stack of a process.

    A trap saves the whole state of the interrupted program in a
    [struct trapframe] and restores it; [swtch] saves and restores the registers
    a C function must preserve; the stack [allocproc] makes leads a new process
    through [forkret] and [trapret] to user space. *)
From S2P Require Export Prelude.

Module Asm.
Local Open Scope Z_scope.

(** ** The machine *)

Inductive reg := EAX | ECX | EDX | EBX | ESP | EBP | ESI | EDI.
Inductive seg := CS | DS | ES | FS | GS | SS.

Record regs := mkRegs { r_eax : Z; r_ecx : Z; r_edx : Z; r_ebx : Z; r_ebp : Z; r_esi : Z; r_edi : Z }.
Record segs := mkSegs { s_cs : Z; s_ds : Z; s_es : Z; s_fs : Z; s_gs : Z; s_ss : Z }.

(** [mem a] is the word at the address [a]. *)
Record st := mkSt { rs : regs; esp : Z; sg : segs; eip : Z; eflags : Z; mem : Z -> Z }.

Definition getr (r : reg) (s : st) : Z :=
  match r with
  | EAX => r_eax (rs s) | ECX => r_ecx (rs s) | EDX => r_edx (rs s) | EBX => r_ebx (rs s)
  | ESP => esp s | EBP => r_ebp (rs s) | ESI => r_esi (rs s) | EDI => r_edi (rs s)
  end.
Definition setr (r : reg) (v : Z) (s : st) : st :=
  let '(mkRegs a c d b bp si di) := rs s in
  let put x sp := mkSt x sp (sg s) (eip s) (eflags s) (mem s) in
  match r with
  | EAX => put (mkRegs v c d b bp si di) (esp s)
  | ECX => put (mkRegs a v d b bp si di) (esp s)
  | EDX => put (mkRegs a c v b bp si di) (esp s)
  | EBX => put (mkRegs a c d v bp si di) (esp s)
  | ESP => put (mkRegs a c d b bp si di) v
  | EBP => put (mkRegs a c d b v si di) (esp s)
  | ESI => put (mkRegs a c d b bp v di) (esp s)
  | EDI => put (mkRegs a c d b bp si v) (esp s)
  end.
Definition gets (x : seg) (s : st) : Z :=
  match x with
  | CS => s_cs (sg s) | DS => s_ds (sg s) | ES => s_es (sg s) | FS => s_fs (sg s) | GS => s_gs (sg s) | SS => s_ss (sg s)
  end.
(** Segment registers have 16 bits. *)
Definition sets (x : seg) (v : Z) (s : st) : st :=
  let '(mkSegs c d e f g ss) := sg s in
  let v := v mod 65536 in
  let put y := mkSt (rs s) (esp s) y (eip s) (eflags s) (mem s) in
  match x with
  | CS => put (mkSegs v d e f g ss) | DS => put (mkSegs c v e f g ss) | ES => put (mkSegs c d v f g ss)
  | FS => put (mkSegs c d e v g ss) | GS => put (mkSegs c d e f v ss) | SS => put (mkSegs c d e f g v)
  end.
Definition set_eip (v : Z) (s : st) : st := mkSt (rs s) (esp s) (sg s) v (eflags s) (mem s).
Definition set_eflags (v : Z) (s : st) : st := mkSt (rs s) (esp s) (sg s) (eip s) v (mem s).
Definition set_mem (m : Z -> Z) (s : st) : st := mkSt (rs s) (esp s) (sg s) (eip s) (eflags s) m.

(** Words are read and written at multiples of four. *)
Definition load (a : Z) (s : st) : outcome Z :=
  if decide (a mod 4 = 0 /\ 0 <= a < 2 ^ 32) then Ret (mem s a) else Undef "unaligned".
Definition store (a v : Z) (s : st) : outcome st :=
  if decide (a mod 4 = 0 /\ 0 <= a < 2 ^ 32) then Ret (set_mem (fun x => if decide (x = a) then v else mem s x) s) else Undef "unaligned".

Definition push (v : Z) (s : st) : outcome st :=
  let a := uint32 (esp s - 4) in
  s ← store a v s;
  Ret (setr ESP a s).
Definition pop (s : st) : outcome (Z * st) :=
  v ← load (esp s) s;
  Ret (v, setr ESP (uint32 (esp s + 4)) s).

(** ** Instructions *)

Inductive operand := OReg (r : reg) | OSeg (x : seg) | OImm (v : Z).
Definition value (o : operand) (s : st) : Z :=
  match o with OReg r => getr r s | OSeg x => gets x s | OImm v => v end.

Inductive instr :=
| Pushl (o : operand)
| Popl (r : reg)
| Pops (x : seg)
| Pushal
| Popal
| Movl (o : operand) (r : reg)
| Load (disp : Z) (b : reg) (r : reg)
| Store (r : reg) (b : reg)
| Movw (v : Z)                       (** [movw $v, %ax] *)
| Movs (x : seg)                     (** [movw %ax, x] *)
| Addl (v : Z) (r : reg)
| CallC (f : st -> outcome st) (here : Z)
| Jmp (a : Z)
| RetI
| Iret.

Fixpoint push_all (l : list Z) (s : st) : outcome st :=
  match l with [] => Ret s | v :: l => s ← push v s; push_all l s end.

(** Rings: the low bits of [%cs]. *)
Definition ring (cs : Z) : Z := cs mod 4.

Definition exec1 (i : instr) (s : st) : outcome st :=
  match i with
  | Pushl o => push (value o s) s
  | Popl r => '(v, s) ← pop s; Ret (setr r v s)
  | Pops x => '(v, s) ← pop s; Ret (sets x v s)
  | Pushal => push_all [getr EAX s; getr ECX s; getr EDX s; getr EBX s; getr ESP s; getr EBP s; getr ESI s; getr EDI s] s
  | Popal =>
      '(di, s) ← pop s; '(si, s) ← pop s; '(bp, s) ← pop s; '(_, s) ← pop s;
      '(b, s) ← pop s; '(d, s) ← pop s; '(c, s) ← pop s; '(a, s) ← pop s;
      Ret (mkSt (mkRegs a c d b bp si di) (esp s) (sg s) (eip s) (eflags s) (mem s))
  | Movl o r => Ret (setr r (value o s) s)
  | Load d b r => v ← load (uint32 (getr b s + d)) s; Ret (setr r v s)
  | Store r b => store (getr b s) (getr r s) s
  | Movw v => Ret (setr EAX (getr EAX s - getr EAX s mod 65536 + v mod 65536) s)
  | Movs x => Ret (sets x (getr EAX s) s)
  | Addl v r => Ret (setr r (uint32 (getr r s + v)) s)
  | CallC f here => s ← push here s; f s
  | Jmp a => Ret (set_eip a s)
  | RetI => '(v, s) ← pop s; Ret (set_eip v s)
  | Iret =>
      '(ip, s) ← pop s; '(c, s) ← pop s; '(fl, s) ← pop s;
      let outer := decide (ring (s_cs (sg s)) < ring (c mod 65536)) in
      let s := set_eflags fl (sets CS c (set_eip ip s)) in
      if outer then
        '(sp, s) ← pop s; '(x, s) ← pop s;
        Ret (setr ESP sp (sets SS x s))
      else Ret s
  end.

Fixpoint run (c : list instr) (s : st) : outcome st :=
  match c with [] => Ret s | i :: c => s ← exec1 i s; run c s end.

(** ** The code *)

Definition swtch : list instr :=
  [Load 4 ESP EAX; Load 8 ESP EDX;
   Pushl (OReg EBP); Pushl (OReg EBX); Pushl (OReg ESI); Pushl (OReg EDI);
   Store ESP EAX; Movl (OReg EDX) ESP;
   Popl EDI; Popl ESI; Popl EBX; Popl EBP; RetI].

Definition SEG_KDATA : Z := 2.

(** [trap] is the C function; [here] is the address after the call. *)
Definition trapret : list instr := [Popal; Pops GS; Pops FS; Pops ES; Pops DS; Addl 8 ESP; Iret].
Definition alltraps (trap : st -> outcome st) (here : Z) : list instr :=
  [Pushl (OSeg DS); Pushl (OSeg ES); Pushl (OSeg FS); Pushl (OSeg GS); Pushal;
   Movw (SEG_KDATA * 8); Movs DS; Movs ES;
   Pushl (OReg ESP); CallC trap here; Addl 4 ESP] ++ trapret.

(** The entry point of trap [i]: exceptions 8, 10 to 14 and 17 come with an
    error code. *)
Definition has_error_code (i : Z) : bool := bool_decide (i = 8 \/ 10 <= i <= 14 \/ i = 17).
Definition vector (i alltraps : Z) : list instr :=
  (if has_error_code i then [] else [Pushl (OImm 0)]) ++ [Pushl (OImm i); Jmp alltraps].

(** [exec(init, argv)] and the instruction [int $T_SYSCALL], which is the end of
    the list. *)
Definition SYS_exec : Z := 7.
Definition SYS_exit : Z := 2.
Definition initcode_start (init argv : Z) : list instr :=
  [Pushl (OImm argv); Pushl (OImm init); Pushl (OImm 0); Movl (OImm SYS_exec) EAX].
Definition initcode_exit : list instr := [Movl (OImm SYS_exit) EAX].

(** ** The frames of [x86.h] and [proc.h] *)

Record trapframe := mkTrapframe {
  f_edi : Z; f_esi : Z; f_ebp : Z; f_oesp : Z; f_ebx : Z; f_edx : Z; f_ecx : Z; f_eax : Z;
  f_gs : Z; f_fs : Z; f_es : Z; f_ds : Z; f_trapno : Z;
  f_err : Z; f_eip : Z; f_cs : Z; f_eflags : Z; f_esp : Z; f_ss : Z }.
Definition tf_words (t : trapframe) : list Z :=
  [f_edi t; f_esi t; f_ebp t; f_oesp t; f_ebx t; f_edx t; f_ecx t; f_eax t; f_gs t; f_fs t; f_es t; f_ds t; f_trapno t;
   f_err t; f_eip t; f_cs t; f_eflags t; f_esp t; f_ss t].

Record context := mkContext { c_edi : Z; c_esi : Z; c_ebx : Z; c_ebp : Z; c_eip : Z }.
Definition ctx_words (c : context) : list Z := [c_edi c; c_esi c; c_ebx c; c_ebp c; c_eip c].

(** The words from the address [a] on. *)
Definition words_at (m : Z -> Z) (a : Z) (l : list Z) : Prop := forall i v, l !! i = Some v -> m (a + 4 * Z.of_nat i) = v.
Fixpoint write_words (a : Z) (l : list Z) (m : Z -> Z) : Z -> Z :=
  match l with [] => m | v :: l => write_words (a + 4) l (fun x => if decide (x = a) then v else m x) end.

(** ** Interrupts *)

(** The processor takes interrupt [i]: when it comes from ring 3 it switches to the
    kernel's stack of the task state segment; it saves what [iret] restores, and
    pushes the error code of the exceptions that have one.  [gate] is the entry
    of the interrupt descriptor table; an interrupt gate clears [IF]. *)
Definition interrupt (esp0 ss0 : Z) (i err gate cs : Z) (int_gate : bool) (s : st) : outcome st :=
  let outer := decide (ring (s_cs (sg s)) <> 0) in
  let s' := if outer then setr ESP esp0 (sets SS ss0 s) else s in
  s' ← push_all ((if outer then [s_ss (sg s); esp s] else []) ++ [eflags s; s_cs (sg s); eip s] ++ (if has_error_code i then [err] else [])) s';
  Ret (set_eip gate (sets CS cs (if int_gate then set_eflags (Z.ldiff (eflags s) 512) s' else s'))).

(** ** The first stack of a process *)

Definition KSTACKSIZE : Z := 4096.
(** [allocproc]: the addresses of the trap frame and of the context, and the
    stack with the addresses of [trapret] and [forkret]. *)
Definition tf_addr (kstack : Z) : Z := kstack + KSTACKSIZE - 76.
Definition context_addr (kstack : Z) : Z := tf_addr kstack - 4 - 20.
Definition allocproc_stack (kstack trapret forkret : Z) (m : Z -> Z) : Z -> Z :=
  let m := write_words (tf_addr kstack - 4) [trapret] m in
  write_words (context_addr kstack) (ctx_words (mkContext 0 0 0 0 forkret)) m.
(** [*np->tf = *curproc->tf; np->tf->eax = 0] of [fork]. *)
Definition fork_frame (kstack : Z) (t : trapframe) (m : Z -> Z) : Z -> Z :=
  let '(mkTrapframe di si bp osp b d c _ gs fs es ds no err ip cs fl sp ss) := t in
  write_words (tf_addr kstack) (tf_words (mkTrapframe di si bp osp b d c 0 gs fs es ds no err ip cs fl sp ss)) m.
(** The frame of [userinit]: [SEG_UCODE] is 3, [SEG_UDATA] is 4, [DPL_USER] is 3
    and [FL_IF] is 0x200. *)
Definition userinit_frame (kstack : Z) (m : Z -> Z) : Z -> Z :=
  write_words (tf_addr kstack) (tf_words (mkTrapframe 0 0 0 0 0 0 0 0 0 0 35 35 0 0 0 27 512 4096 35)) m.

(** ** The stack *)

Definition upd (m : Z -> Z) (a v : Z) : Z -> Z := fun x => if decide (x = a) then v else m x.
Definition aligned (a : Z) : Prop := a mod 4 = 0.

Lemma aligned_add a k : aligned a -> aligned (a + 4 * k).
Proof. unfold aligned. intros H. Z.div_mod_to_equations. lia. Qed.

(** Memory agrees from [a] up. *)
Definition above (a : Z) (m m' : Z -> Z) : Prop := forall x, a <= x -> m' x = m x.

Lemma words_nil m a : words_at m a [].
Proof. intros i v H. by rewrite lookup_nil in H. Qed.
Lemma words_cons m a v l : words_at m a (v :: l) <-> m a = v /\ words_at m (a + 4) l.
Proof.
  split.
  - intros H. split; [specialize (H O v eq_refl); by rewrite Z.add_0_r in H|]. intros i w Hi. specialize (H (S i) w Hi). rewrite <- H. f_equal. lia.
  - intros [Hv H] [|i] w Hi; [injection Hi as <-; by rewrite Z.add_0_r|]. rewrite <- (H i w Hi). f_equal. lia.
Qed.
Lemma words_app m a l k : words_at m a (l ++ k) <-> words_at m a l /\ words_at m (a + 4 * Z.of_nat (length l)) k.
Proof.
  revert a. induction l as [|v l IH]; intros a; cbn [app length].
  - rewrite Z.add_0_r. pose proof (words_nil m a). tauto.
  - rewrite !words_cons, IH. replace (a + 4 + 4 * Z.of_nat (length l)) with (a + 4 * Z.of_nat (S (length l))) by lia. tauto.
Qed.
Lemma words_above m m' b a l : above b m m' -> b <= a -> words_at m a l -> words_at m' a l.
Proof. intros Hm Hb H i v Hi. rewrite Hm by lia. by apply H. Qed.
Lemma words_push m a v l : words_at m a l -> words_at (upd m (a - 4) v) (a - 4) (v :: l).
Proof.
  intros H. apply words_cons. unfold upd. split; [by rewrite decide_True|]. replace (a - 4 + 4) with a by lia.
  intros i w Hi. rewrite decide_False by lia. by apply H.
Qed.
Lemma above_upd m a b v : a < b -> above b m (upd m a v).
Proof. intros Hb x Hx. unfold upd. by rewrite decide_False by lia. Qed.
Lemma above_upd' m m' a b v : a < b -> above b m m' -> above b m (upd m' a v).
Proof. intros Hb Hm x Hx. unfold upd. rewrite decide_False by lia. by apply Hm. Qed.
Lemma above_trans a b m1 m2 m3 : above a m2 m3 -> a <= b -> above b m1 m2 -> above b m1 m3.
Proof. intros H1 Hab H2 x Hx. rewrite H1, H2 by lia. done. Qed.

Lemma upd_other m a v x : x <> a -> upd m a v x = m x.
Proof. intros H. unfold upd. by rewrite decide_False. Qed.

Section Stack.
Context (R : regs) (G : segs) (ip fl : Z) (m : Z -> Z).

Lemma push_run sp v : aligned sp -> 4 <= sp <= 2 ^ 32 -> push v (mkSt R sp G ip fl m) = Ret (mkSt R (sp - 4) G ip fl (upd m (sp - 4) v)).
Proof.
  intros Ha Hs. unfold push, store. cbn [esp]. rewrite uint32_id by lia. rewrite decide_True; [by destruct R|].
  unfold aligned in Ha. Z.div_mod_to_equations. lia.
Qed.
Lemma pop_run sp v l : aligned sp -> 0 <= sp -> sp + 4 < 2 ^ 32 -> words_at m sp (v :: l) -> pop (mkSt R sp G ip fl m) = Ret (v, mkSt R (sp + 4) G ip fl m).
Proof.
  intros Ha H0 Hs [Hv _]%words_cons. unfold pop, load. cbn [esp mem]. unfold aligned in Ha. rewrite decide_True by lia.
  cbn [mbind outcome_bind]. rewrite uint32_id by lia. rewrite Hv. by destruct R.
Qed.
End Stack.

Ltac addr := unfold aligned in *; Z.div_mod_to_equations; lia.
(** Pop the first of the words [H] says are on the stack. *)
Ltac pop1 H :=
  erewrite pop_run; [|addr|lia|lia|exact H];
  cbn [mbind outcome_bind setr sets set_eip set_eflags rs esp sg eip eflags mem gets getr]; apply words_cons in H as [_ H].

(** ** Leaving a trap *)

(** The state of the user program the frame describes. *)
Definition frame_regs (t : trapframe) : regs := mkRegs (f_eax t) (f_ecx t) (f_edx t) (f_ebx t) (f_ebp t) (f_esi t) (f_edi t).
Definition frame_segs (t : trapframe) : segs :=
  mkSegs (f_cs t mod 65536) (f_ds t mod 65536) (f_es t mod 65536) (f_fs t mod 65536) (f_gs t mod 65536) (f_ss t mod 65536).
Definition user_of (t : trapframe) (m : Z -> Z) : st := mkSt (frame_regs t) (f_esp t) (frame_segs t) (f_eip t) (f_eflags t) m.

Lemma trapret_run R sp G ip fl m t l : words_at m sp (tf_words t ++ l) -> aligned sp -> 0 <= sp -> sp + 76 < 2 ^ 32 ->
  ring (s_cs G) = 0 -> ring (f_cs t mod 65536) = 3 ->
  run trapret (mkSt R sp G ip fl m) = Ret (user_of t m).
Proof.
  intros H Ha H0 Hs Hr Hr'. unfold trapret, tf_words in *. cbn [app] in H. cbn [run exec1].
  do 8 pop1 H. destruct G as [c d e f g ss]. do 4 pop1 H. rewrite uint32_id by lia.
  apply words_cons in H as [_ H]. apply words_cons in H as [_ H].
  replace (sp + 4 + 4 + 4 + 4 + 4 + 4 + 4 + 4 + 4 + 4 + 4 + 4 + 4 + 4) with (sp + 4 + 4 + 4 + 4 + 4 + 4 + 4 + 4 + 4 + 4 + 4 + 4 + 8) in H by lia.
  do 3 pop1 H. cbn in Hr. cbn [s_cs]. rewrite decide_True by lia. unfold set_eflags. cbn [rs esp sg eip mem]. do 2 pop1 H. by destruct t.
Qed.

(** ** Entering a trap *)

(** [l] has been pushed, in this order, on the stack that had [k] on top. *)
Record pushed (sp : Z) (m : Z -> Z) (l : list Z) (m' : Z -> Z) : Prop := {
  pushed_words : forall k, words_at m sp k -> words_at m' (sp - 4 * Z.of_nat (length l)) (rev l ++ k);
  pushed_above : above sp m m';
  pushed_below : forall x, x < sp - 4 * Z.of_nat (length l) -> m' x = m x }.

Lemma pushed_nil sp m : pushed sp m [] m.
Proof. split; [|done|done]. intros k Hk. cbn. by rewrite Z.sub_0_r. Qed.
Lemma pushed_cons sp m v l m' : pushed (sp - 4) (upd m (sp - 4) v) l m' -> pushed sp m (v :: l) m'.
Proof.
  intros [Hw Ha Hb]. split.
  - intros k Hk. specialize (Hw _ (words_push _ _ v _ Hk)). cbn [length rev]. rewrite <- app_assoc. cbn [app].
    by replace (sp - 4 * Z.of_nat (S (length l))) with (sp - 4 - 4 * Z.of_nat (length l)) by lia.
  - intros x Hx. rewrite Ha by lia. unfold upd. by rewrite decide_False by lia.
  - intros x Hx. cbn [length] in Hx. rewrite Hb by lia. unfold upd. by rewrite decide_False by lia.
Qed.
Lemma pushed_app sp m l m1 k m2 : pushed sp m l m1 -> pushed (sp - 4 * Z.of_nat (length l)) m1 k m2 -> pushed sp m (l ++ k) m2.
Proof.
  intros [W1 A1 B1] [W2 A2 B2]. split.
  - intros w Hw. specialize (W2 _ (W1 _ Hw)). rewrite rev_app_distr, <- app_assoc, length_app.
    by replace (sp - 4 * Z.of_nat (length l + length k)) with (sp - 4 * Z.of_nat (length l) - 4 * Z.of_nat (length k)) by lia.
  - intros x Hx. rewrite A2, A1 by lia. done.
  - intros x Hx. rewrite length_app in Hx. rewrite B2, B1 by lia. done.
Qed.

Lemma push_all_run R G ip fl l : forall sp m, aligned sp -> 4 * Z.of_nat (length l) <= sp <= 2 ^ 32 ->
  exists m', push_all l (mkSt R sp G ip fl m) = Ret (mkSt R (sp - 4 * Z.of_nat (length l)) G ip fl m') /\ pushed sp m l m'.
Proof.
  induction l as [|v l IH]; intros sp m Ha Hs; cbn [push_all length].
  - exists m. rewrite Z.sub_0_r. split; [done|apply pushed_nil].
  - cbn [length] in Hs. rewrite push_run by (done || lia). cbn [mbind outcome_bind].
    destruct (IH (sp - 4) (upd m (sp - 4) v)) as (m' & -> & Hp); [addr|lia|]. exists m'. split; [do 2 f_equal; lia|by apply pushed_cons].
Qed.

(** The frame of a trap from user space. *)
Definition frame_of (i err : Z) (s : st) (osp : Z) : trapframe :=
  let r := rs s in let g := sg s in
  mkTrapframe (r_edi r) (r_esi r) (r_ebp r) osp (r_ebx r) (r_edx r) (r_ecx r) (r_eax r) (s_gs g) (s_fs g) (s_es g) (s_ds g) i
    (if has_error_code i then err else 0) (eip s) (s_cs g) (eflags s) (esp s) (s_ss g).

(** Registers as the hardware has them. *)
Definition seg_ok (x : Z) : Prop := 0 <= x < 65536.
Definition segs_ok (g : segs) : Prop := seg_ok (s_cs g) /\ seg_ok (s_ds g) /\ seg_ok (s_es g) /\ seg_ok (s_fs g) /\ seg_ok (s_gs g) /\ seg_ok (s_ss g).

Lemma run_app c d s : run (c ++ d) s = (s ← run c s; run d s).
Proof. revert s. induction c as [|i c IH]; intros s; cbn [run app]; [done|]. destruct (exec1 i s); cbn; [apply IH|done..]. Qed.

Lemma aligned_sub a : aligned a -> aligned (a - 4).
Proof. unfold aligned. intros H. Z.div_mod_to_equations. lia. Qed.
(** One instruction. *)
Lemma run_cons i c s s' : exec1 i s = Ret s' -> run (i :: c) s = run c s'.
Proof. intros H. cbn [run]. by rewrite H. Qed.
Lemma run_push o c R sp G ip fl m : aligned sp -> 4 <= sp <= 2 ^ 32 ->
  run (Pushl o :: c) (mkSt R sp G ip fl m) = run c (mkSt R (sp - 4) G ip fl (upd m (sp - 4) (value o (mkSt R sp G ip fl m)))).
Proof. intros Ha Hs. apply run_cons. by apply push_run. Qed.
Lemma run_pushal c R sp G ip fl m : aligned sp -> 32 <= sp <= 2 ^ 32 ->
  exists m', run (Pushal :: c) (mkSt R sp G ip fl m) = run c (mkSt R (sp - 32) G ip fl m') /\
    (forall k, words_at m sp k -> words_at m' (sp - 32) ([r_edi R; r_esi R; r_ebp R; sp; r_ebx R; r_edx R; r_ecx R; r_eax R] ++ k)) /\ above sp m m' /\ (forall x, x < sp - 32 -> m' x = m x).
Proof.
  intros Ha Hs. destruct (push_all_run R G ip fl [r_eax R; r_ecx R; r_edx R; r_ebx R; sp; r_ebp R; r_esi R; r_edi R] sp m Ha ltac:(cbn; lia)) as (m' & Hr & Hp).
  exists m'. split; [by apply run_cons|]. split; [apply (pushed_words _ _ _ _ Hp)|split; [apply (pushed_above _ _ _ _ Hp)|apply (pushed_below _ _ _ _ Hp)]].
Qed.
Ltac push1 := rewrite run_push by (repeat apply aligned_sub; assumption || lia); cbn [value getr gets rs esp sg].
Ltac words := repeat simple apply words_push; first [assumption|exact (words_nil _ _)].

(** The registers [alltraps] saves below the words of the processor. *)
Definition saved (R : regs) (G : segs) (osp : Z) : list Z :=
  [r_edi R; r_esi R; r_ebp R; osp; r_ebx R; r_edx R; r_ecx R; r_eax R; s_gs G; s_fs G; s_es G; s_ds G].
Definition save_regs : list instr := [Pushl (OSeg DS); Pushl (OSeg ES); Pushl (OSeg FS); Pushl (OSeg GS); Pushal].

(** [top] is the address above the error code. *)
Lemma save_run i a err k R G ip fl m top : aligned top -> 64 <= top < 2 ^ 32 ->
  (if has_error_code i then words_at m (top - 4) (err :: k) else words_at m top k) ->
  exists m', run (vector i a ++ save_regs) (mkSt R (if has_error_code i then top - 4 else top) G ip fl m) = Ret (mkSt R (top - 56) G a fl m') /\
    words_at m' (top - 56) (saved R G (top - 24) ++ i :: (if has_error_code i then err else 0) :: k) /\ above top m m' /\ (forall x, x < top - 56 -> m' x = m x).
Proof.
  intros Ha Ht Hw. unfold vector, save_regs, saved. destruct (has_error_code i); cbn [app].
  all: repeat push1; rewrite (run_cons (Jmp a) _ _ _ eq_refl); unfold set_eip; cbn [rs esp sg eip eflags mem]; repeat push1.
  all: edestruct run_pushal as (m' & -> & Hw' & Hab & Hbe); [repeat apply aligned_sub; assumption|lia|].
  all: replace (top - 56) with (top - 4 - 4 - 4 - 4 - 4 - 4 - 32) by lia; replace (top - 24) with (top - 4 - 4 - 4 - 4 - 4 - 4) by lia.
  all: exists m'; split; [reflexivity|]; split; [apply Hw'; words|]; split; [|intros x Hx; rewrite Hbe by lia; by rewrite !upd_other by lia].
  all: eapply above_trans; [exact Hab|lia|]; repeat (simple apply above_upd'; [lia|]); intros x Hx; reflexivity.
Qed.

(** What the C function [trap] does with the frame [w] at the address [a]: called
    with its return address and [a] on the stack it returns, with the segments as
    they were, and has left [w'] in the place of the frame. *)
Definition handles (trap : st -> outcome st) (a : Z) (w w' : list Z) : Prop := forall s,
  esp s + 8 = a -> mem s (esp s + 4) = a -> words_at (mem s) a w ->
  exists s', trap s = Ret s' /\ esp s' = esp s + 4 /\ sg s' = sg s /\ words_at (mem s') a w'.

(** [trap] does not change the word at [x]. *)
Definition spares (trap : st -> outcome st) (x : Z) : Prop := forall s s', trap s = Ret s' -> mem s' x = mem s x.

Definition call_trap (trap : st -> outcome st) (here : Z) : list instr :=
  [Movw (SEG_KDATA * 8); Movs DS; Movs ES; Pushl (OReg ESP); CallC trap here; Addl 4 ESP].
Lemma alltraps_split trap here : alltraps trap here = save_regs ++ call_trap trap here ++ trapret.
Proof. done. Qed.

Lemma call_trap_run trap here R sp G ip fl m w w' : handles trap sp w w' -> words_at m sp w -> aligned sp -> 8 <= sp < 2 ^ 32 ->
  exists R' G' ip' fl' m', run (call_trap trap here) (mkSt R sp G ip fl m) = Ret (mkSt R' sp G' ip' fl' m') /\
    words_at m' sp w' /\ s_cs G' = s_cs G /\ s_ss G' = s_ss G /\ (forall x, x < sp - 8 \/ sp <= x -> spares trap x -> m' x = m x).
Proof.
  intros Ht Hw Ha Hs. unfold call_trap. destruct R as [r1 r2 r3 r4 r5 r6 r7], G as [c d e f g ss]. do 3 erewrite run_cons by reflexivity.
  cbn [setr sets getr rs sg esp eip eflags mem r_eax]. set (ax := r1 - r1 mod 65536 + _). push1.
  destruct (Ht (mkSt (mkRegs ax r2 r3 r4 r5 r6 r7) (sp - 4 - 4) (mkSegs c (ax mod 65536) (ax mod 65536) f g ss) ip fl
    (upd (upd m (sp - 4) sp) (sp - 4 - 4) here))) as (s' & Hr & Hsp & Hsg & Hw').
  - cbn [esp]. lia.
  - cbn [esp mem]. unfold upd. rewrite decide_False by lia. by rewrite decide_True by lia.
  - cbn [mem]. apply (words_above m _ sp); [|lia|done]. repeat (simple apply above_upd'; [lia|]). intros x Hx. reflexivity.
  - erewrite run_cons; [|cbn [exec1]; rewrite push_run by (addr || lia); exact Hr].
    destruct s' as [R' sp' G' ip' fl' m']. cbn in Hsp, Hsg, Hw'. erewrite run_cons by reflexivity. cbn [getr esp]. rewrite uint32_id by lia.
    exists R', G', ip', fl', m'. subst sp' G'. replace (sp - 4 - 4 + 4 + 4) with sp by lia. split; [by destruct R'|]. split_and!; try done.
    intros x Hx Hsx. apply Hsx in Hr. cbn [mem] in Hr. rewrite Hr, !upd_other by lia. done.
Qed.

(** What the processor saves, and on which stack. *)
Definition with_err (i err : Z) : list Z := if has_error_code i then [err] else [].
Definition below (i top : Z) : Z := if has_error_code i then top - 4 else top.
Definition masked (g : bool) (fl : Z) : Z := if g then Z.ldiff fl 512 else fl.

Lemma pushed_words_top sp m m' l k i err : pushed sp m (l ++ with_err i err) m' -> words_at m sp k ->
  if has_error_code i then words_at m' (sp - 4 * Z.of_nat (length l) - 4) (err :: rev l ++ k) else words_at m' (sp - 4 * Z.of_nat (length l)) (rev l ++ k).
Proof.
  intros Hp Hk. pose proof (pushed_words _ _ _ _ Hp _ Hk) as Hw. rewrite rev_app_distr, length_app, <- app_assoc in Hw. unfold with_err in Hw.
  destruct (has_error_code i); cbn [rev app length] in Hw.
  - by replace (sp - 4 * Z.of_nat (length l + 1)) with (sp - 4 * Z.of_nat (length l) - 4) in Hw by lia.
  - by rewrite Nat.add_0_r in Hw.
Qed.
Lemma below_eq i err top n l : length l = n -> top - 4 * Z.of_nat (length (l ++ with_err i err)) = below i (top - 4 * Z.of_nat n).
Proof. intros <-. rewrite length_app. unfold with_err, below. destruct (has_error_code i); cbn [length]; lia. Qed.

Lemma interrupt_user R G sp ip fl m i err gate g esp0 : ring (s_cs G) = 3 -> aligned esp0 -> 64 <= esp0 < 2 ^ 32 ->
  exists m1, interrupt esp0 16 i err gate 8 g (mkSt R sp G ip fl m) =
      Ret (mkSt R (below i (esp0 - 20)) (mkSegs 8 (s_ds G) (s_es G) (s_fs G) (s_gs G) 16) gate (masked g fl) m1) /\
    (if has_error_code i then words_at m1 (esp0 - 20 - 4) (err :: [ip; s_cs G; fl; sp; s_ss G]) else words_at m1 (esp0 - 20) [ip; s_cs G; fl; sp; s_ss G]) /\ (forall x, x < esp0 - 24 \/ esp0 <= x -> m1 x = m x).
Proof.
  intros Hr Ha He. unfold interrupt. cbn [sg]. destruct (decide (ring (s_cs G) <> 0)); [|lia]. destruct R as [r1 r2 r3 r4 r5 r6 r7], G as [c d e f gg ss]. cbn [s_cs s_ds s_es s_fs s_gs s_ss setr sets rs sg esp eip eflags mem].
  change (16 mod 65536) with 16. rewrite app_assoc. cbn [app]. fold (with_err i err).
  destruct (push_all_run (mkRegs r1 r2 r3 r4 r5 r6 r7) (mkSegs c d e f gg 16) ip fl ([ss; sp; fl; c; ip] ++ with_err i err) esp0 m) as (m1 & Hp & Hpu); [done|unfold with_err; destruct (has_error_code i); cbn; lia|].
  cbn [app] in Hp. rewrite Hp. exists m1. cbn [mbind outcome_bind]. split; [|split; [apply (pushed_words_top esp0 m m1 [ss; sp; fl; c; ip] [] i err Hpu (words_nil _ _))|]].
  all: pose proof (below_eq i err esp0 5 [ss; sp; fl; c; ip] eq_refl) as Hb; cbn [app] in Hb.
  - rewrite Hb. by destruct g.
  - intros x [Hx|Hx]; [|by apply (pushed_above _ _ _ _ Hpu)]. pose proof (pushed_below _ _ _ _ Hpu) as Hpb. cbn [app] in Hpb. rewrite Hb in Hpb. apply Hpb. unfold below. destruct (has_error_code i); lia.
Qed.

Lemma interrupt_kernel R G sp ip fl m i err gate g esp0 k : ring (s_cs G) = 0 -> aligned sp -> 64 <= sp < 2 ^ 32 -> words_at m sp k ->
  exists m1, interrupt esp0 16 i err gate 8 g (mkSt R sp G ip fl m) =
      Ret (mkSt R (below i (sp - 12)) (mkSegs 8 (s_ds G) (s_es G) (s_fs G) (s_gs G) (s_ss G)) gate (masked g fl) m1) /\
    if has_error_code i then words_at m1 (sp - 12 - 4) (err :: [ip; s_cs G; fl] ++ k) else words_at m1 (sp - 12) ([ip; s_cs G; fl] ++ k).
Proof.
  intros Hr Ha He Hk. unfold interrupt. cbn [sg]. destruct (decide (ring (s_cs G) <> 0)); [lia|]. destruct G as [c d e f gg ss]. cbn [s_cs s_ds s_es s_fs s_gs s_ss esp eip eflags app].
  fold (with_err i err). destruct (push_all_run R (mkSegs c d e f gg ss) ip fl ([fl; c; ip] ++ with_err i err) sp m) as (m1 & Hp & Hpu); [done|unfold with_err; destruct (has_error_code i); cbn; lia|].
  cbn [app] in Hp. rewrite Hp. exists m1. cbn [mbind outcome_bind]. split; [|apply (pushed_words_top sp m m1 [fl; c; ip] k i err Hpu Hk)].
  pose proof (below_eq i err sp 3 [fl; c; ip] eq_refl) as Hb. cbn [app] in Hb. rewrite Hb. by destruct g.
Qed.

(** ** A trap from user space *)

(** The frame is in the place [allocproc] gave it, at the top of the kernel stack
    of the process, and describes the program; what [trap] makes of it is the
    state the program goes on with. *)
Lemma trap_run trap here a gate g i err s kstack t' :
  let t := frame_of i err s (kstack + KSTACKSIZE - 44) in
  aligned kstack -> 0 <= kstack -> kstack + KSTACKSIZE < 2 ^ 32 -> ring (s_cs (sg s)) = 3 -> ring (f_cs t' mod 65536) = 3 ->
  handles trap (tf_addr kstack) (tf_words t) (tf_words t') ->
  exists m', (s1 ← interrupt (kstack + KSTACKSIZE) 16 i err gate 8 g s; run (vector i a ++ alltraps trap here) s1) = Ret (user_of t' m') /\
    forall x, x < kstack \/ kstack + KSTACKSIZE <= x -> spares trap x -> m' x = mem s x.
Proof.
  intros t Ha H0 Hk Hr Hr' Ht. unfold KSTACKSIZE in *. destruct s as [R sp G ip fl m].
  destruct (interrupt_user R G sp ip fl m i err gate g (kstack + 4096)) as (m1 & -> & Hw1 & Hm1); [done|addr|lia|]. cbn [mbind outcome_bind].
  destruct (save_run i a err [ip; s_cs G; fl; sp; s_ss G] R (mkSegs 8 (s_ds G) (s_es G) (s_fs G) (s_gs G) 16) gate (masked g fl) m1 (kstack + 4096 - 20)) as (m2 & Hs & Hw & Hab & Hbe); [addr|lia|exact Hw1|].
  rewrite alltraps_split, app_assoc, run_app. unfold below. rewrite Hs. cbn [mbind outcome_bind]. rewrite run_app.
  destruct (call_trap_run trap here R (kstack + 4096 - 20 - 56) (mkSegs 8 (s_ds G) (s_es G) (s_fs G) (s_gs G) 16) a (masked g fl) m2 (tf_words t) (tf_words t'))
    as (R' & G' & ip' & fl' & m' & -> & Hw' & Hcs & _ & Hm'); [by replace (kstack + 4096 - 20 - 56) with (tf_addr kstack) by (unfold tf_addr, KSTACKSIZE; lia)| |addr|lia|].
  { subst t. unfold tf_words, frame_of. cbn. replace (kstack + 4096 - 44) with (kstack + 4096 - 20 - 24) by lia. exact Hw. }
  cbn [mbind outcome_bind]. exists m'. split; [apply (trapret_run _ _ _ _ _ _ _ []); [by rewrite app_nil_r|addr|lia|lia|by rewrite Hcs|done]|].
  intros x Hx Hsx. rewrite Hm' by (done || lia). cbn [mem]. destruct Hx as [Hx|Hx]; [rewrite Hbe by lia|rewrite Hab by lia]; apply Hm1; lia.
Qed.

Lemma user_of_frame i err s osp m : segs_ok (sg s) -> user_of (frame_of i err s osp) m = mkSt (rs s) (esp s) (sg s) (eip s) (eflags s) m.
Proof.
  intros (H1 & H2 & H3 & H4 & H5 & H6). destruct s as [[] sp [c d e f g ss] ip fl m0]. unfold seg_ok in *. cbn in *.
  unfold user_of, frame_regs, frame_segs. cbn. by rewrite !Z.mod_small by lia.
Qed.

(** ** A trap in the kernel *)

(** The frame then ends with [%eflags]: [iret] does not change the stack. *)
Definition kframe (i err : Z) (s : st) (osp : Z) : list Z := take 17 (tf_words (frame_of i err s osp)).

Lemma trapret_kernel R sp G ip fl m r osp g no err ip' c fl' l : words_at m sp (saved r g osp ++ [no; err; ip'; c; fl'] ++ l) ->
  aligned sp -> 0 <= sp -> sp + 68 < 2 ^ 32 -> ring (s_cs G) = 0 -> ring (c mod 65536) = 0 -> 
  run trapret (mkSt R sp G ip fl m) =
    Ret (mkSt r (sp + 68) (mkSegs (c mod 65536) (s_ds g mod 65536) (s_es g mod 65536) (s_fs g mod 65536) (s_gs g mod 65536) (s_ss G)) ip' fl' m).
Proof.
  intros H Ha H0 Hs Hr Hr'. unfold trapret, saved in *. cbn [app] in H. cbn [run exec1].
  do 8 pop1 H. destruct G as [cc d e f gg ss]. do 4 pop1 H. rewrite uint32_id by lia.
  apply words_cons in H as [_ H]. apply words_cons in H as [_ H].
  replace (sp + 4 + 4 + 4 + 4 + 4 + 4 + 4 + 4 + 4 + 4 + 4 + 4 + 4 + 4) with (sp + 4 + 4 + 4 + 4 + 4 + 4 + 4 + 4 + 4 + 4 + 4 + 4 + 8) in H by lia.
  do 3 pop1 H. cbn in Hr. cbn [s_cs]. rewrite decide_False by lia. unfold set_eflags. cbn [rs esp sg eip mem]. cbn [s_ss mbind outcome_bind].
  replace (sp + 4 + 4 + 4 + 4 + 4 + 4 + 4 + 4 + 4 + 4 + 4 + 4 + 8 + 4 + 4 + 4) with (sp + 68) by lia. by destruct r.
Qed.

(** ** The context switch *)

(** The registers of the context, and the stack above it. *)
Definition in_context (c : context) (r : regs) : regs := mkRegs (r_eax r) (r_ecx r) (r_edx r) (c_ebx c) (c_ebp c) (c_esi c) (c_edi c).
Definition context_of (r : regs) (ret : Z) : context := mkContext (r_edi r) (r_esi r) (r_ebx r) (r_ebp r) ret.

(** [swtch] can be called with the stack at [sp]: the variable at [old] and the
    context at [new] are apart from each other and from the part of the stack in
    use. *)
Record switchable (sp old new : Z) : Prop := {
  sw_sp : aligned sp /\ 16 <= sp /\ sp + 12 < 2 ^ 32;
  sw_old : aligned old /\ 0 <= old < 2 ^ 32 /\ ~ (sp - 16 <= old < sp + 12);
  sw_new : aligned new /\ 0 <= new /\ new + 20 < 2 ^ 32 /\ (new + 20 <= sp - 16 \/ sp <= new) /\ ~ (new <= old < new + 20) }.

Lemma run_load d b r v c s : mem s (getr b s + d) = v -> aligned (getr b s + d) -> 0 <= getr b s + d < 2 ^ 32 -> run (Load d b r :: c) s = run c (setr r v s).
Proof. intros <- H1 H2. apply run_cons. cbn [exec1]. unfold load. rewrite uint32_id by lia. unfold aligned in H1. by rewrite decide_True by lia. Qed.
Lemma run_pop r c R sp G ip fl m v l : words_at m sp (v :: l) -> aligned sp -> 0 <= sp -> sp + 4 < 2 ^ 32 ->
  run (Popl r :: c) (mkSt R sp G ip fl m) = run c (setr r v (mkSt R (sp + 4) G ip fl m)).
Proof. intros. apply run_cons. cbn [exec1]. by erewrite pop_run. Qed.
Lemma run_ret R sp G ip fl m v l : words_at m sp (v :: l) -> aligned sp -> 0 <= sp -> sp + 4 < 2 ^ 32 ->
  run [RetI] (mkSt R sp G ip fl m) = Ret (mkSt R (sp + 4) G v fl m).
Proof. intros. erewrite run_cons; [|cbn [exec1]; by erewrite pop_run]. done. Qed.

(** The second half: the context at [new] is loaded. *)
Lemma load_context R sp G ip fl m c : words_at m sp (ctx_words c) -> aligned sp -> 0 <= sp -> sp + 20 < 2 ^ 32 ->
  run [Popl EDI; Popl ESI; Popl EBX; Popl EBP; RetI] (mkSt R sp G ip fl m) = Ret (mkSt (in_context c R) (sp + 20) G (c_eip c) fl m).
Proof.
  intros H Ha H0 Hs. destruct R. unfold ctx_words in H.
  do 4 (erewrite run_pop; [|exact H|addr|lia|lia]; cbn [setr rs esp sg eip eflags mem]; apply words_cons in H as [_ H]).
  erewrite run_ret; [|exact H|addr|lia|lia]. by replace (sp + 4 + 4 + 4 + 4 + 4) with (sp + 20) by lia.
Qed.

(** [swtch(&old, new)] called with its return address and its two arguments on the
    stack: the caller's context is left below them, its address in [old], and
    the code of the context [new] goes on. *)
Lemma swtch_run R sp G ip fl m ret old new c : words_at m sp [ret; old; new] -> switchable sp old new -> words_at m new (ctx_words c) ->
  exists R' m', run swtch (mkSt R sp G ip fl m) = Ret (mkSt (in_context c R') (new + 20) G (c_eip c) fl m') /\
    m' old = sp - 16 /\ words_at m' (sp - 16) (ctx_words (context_of R ret)) /\ (forall x, ~ (sp - 16 <= x < sp) -> x <> old -> m' x = m x).
Proof.
  intros Hst [(Ha & H0 & Hs) (Hao & Hos & Ho) (Han & Hn & Hn' & Hd & Hno)] Hc. unfold swtch. destruct R as [r1 r2 r3 r4 r5 r6 r7].
  pose proof Hst as [Hret Hargs]%words_cons. apply words_cons in Hargs as [Hold Hargs]. apply words_cons in Hargs as [Hnew _].
  rewrite (run_load 4 _ _ old); [|done|cbn; addr|cbn; lia]. cbn [setr rs esp sg eip eflags mem].
  rewrite (run_load 8 _ _ new); [|cbn; rewrite <- Hnew; f_equal; lia|cbn; addr|cbn; lia]. cbn [setr rs esp sg eip eflags mem].
  do 4 push1. cbn [r_ebp r_ebx r_esi r_edi].
  erewrite run_cons by (cbn [exec1 getr rs r_eax esp]; unfold store; unfold aligned in Hao; rewrite decide_True by lia; reflexivity).
  unfold set_mem. cbn [rs esp sg eip eflags mem].
  fold (upd (upd (upd (upd (upd m (sp - 4) r5) (sp - 4 - 4) r4) (sp - 4 - 4 - 4) r6) (sp - 4 - 4 - 4 - 4) r7) old (sp - 4 - 4 - 4 - 4)).
  set (m' := upd _ old _). erewrite run_cons by reflexivity. cbn [value getr setr rs esp sg eip eflags mem r_edx].
  assert (Hsame : forall x, ~ (sp - 16 <= x < sp) -> x <> old -> m' x = m x).
  { intros x Hx Hxo. unfold m', upd. repeat rewrite decide_False by lia. reflexivity. }
  rewrite (load_context _ _ _ _ _ _ c); [|intros i v Hi; pose proof (lookup_lt_Some _ _ _ Hi) as Hl; cbn in Hl; rewrite Hsame by lia; by apply Hc|done|lia|lia].
  eexists _, m'. split; [reflexivity|]. split; [unfold m', upd; rewrite decide_True by lia; lia|]. split; [|done].
  replace (sp - 16) with (sp - 4 - 4 - 4 - 4) by lia. intros i v Hi. pose proof (lookup_lt_Some _ _ _ Hi) as Hl. cbn in Hl. unfold m' at 1, upd at 1.
  rewrite decide_False by lia. revert i v Hi Hl. intros i v Hi _. revert i v Hi.
  change (words_at (upd (upd (upd (upd m (sp - 4) r5) (sp - 4 - 4) r4) (sp - 4 - 4 - 4) r6) (sp - 4 - 4 - 4 - 4) r7) (sp - 4 - 4 - 4 - 4) (ctx_words (context_of (mkRegs r1 r2 r3 r4 r5 r6 r7) ret))).
  unfold ctx_words, context_of. cbn. repeat simple apply words_push. apply words_cons. split; [done|apply words_nil].
Qed.

(** ** The first run of a process *)

Lemma write_words_other l : forall a m x, x < a \/ a + 4 * Z.of_nat (length l) <= x -> write_words a l m x = m x.
Proof.
  induction l as [|v l IH]; intros a m x Hx; cbn [write_words]; [done|]. cbn [length] in Hx. rewrite IH by lia. by rewrite decide_False by lia.
Qed.
Lemma write_words_at l : forall a m, words_at (write_words a l m) a l.
Proof.
  induction l as [|v l IH]; intros a m; [apply words_nil|]. apply words_cons. cbn [write_words]. split; [|apply IH].
  rewrite write_words_other by lia. by rewrite decide_True.
Qed.

(** The stack of a process that has not run: the context of [forkret], the address
    of [trapret] and the frame [t]. *)
Definition fresh_stack (kstack trapret forkret : Z) (t : trapframe) (m : Z -> Z) : Prop :=
  words_at m (context_addr kstack) (ctx_words (mkContext 0 0 0 0 forkret) ++ trapret :: tf_words t).

Lemma fresh_stack_made kstack trapret forkret t m :
  fresh_stack kstack trapret forkret t (write_words (tf_addr kstack) (tf_words t) (allocproc_stack kstack trapret forkret m)).
Proof.
  unfold fresh_stack, allocproc_stack. set (m1 := write_words (tf_addr kstack - 4) [trapret] m). apply words_app. split.
  - intros i v Hi. pose proof (lookup_lt_Some _ _ _ Hi) as Hl. cbn in Hl. rewrite write_words_other by (unfold context_addr; lia). by apply write_words_at.
  - cbn [length ctx_words]. replace (context_addr kstack + 4 * Z.of_nat 5) with (tf_addr kstack - 4) by (unfold context_addr; lia).
    apply words_cons. split; [|replace (tf_addr kstack - 4 + 4) with (tf_addr kstack) by lia; apply write_words_at].
    rewrite write_words_other by lia. rewrite write_words_other by (cbn; unfold context_addr; lia).
    pose proof (write_words_at [trapret] (tf_addr kstack - 4) m) as [H _]%words_cons. exact H.
Qed.

(** A C function without arguments that returns to its caller. *)
Definition c_returns (f : st -> outcome st) : Prop := forall s r w, words_at (mem s) (esp s) (r :: w) ->
  exists s', f s = Ret s' /\ esp s' = esp s + 4 /\ eip s' = r /\ sg s' = sg s /\ words_at (mem s') (esp s + 4) w.

(** The stack in use at [sp] and the variable at [old] are not on the kernel stack
    at [kstack]. *)
Definition elsewhere (kstack sp old : Z) : Prop :=
  (sp <= kstack \/ kstack + KSTACKSIZE <= sp - 16) /\ (old < kstack \/ kstack + KSTACKSIZE <= old).

Lemma first_run forkret trapret_a forkret_a kstack t s ret old :
  fresh_stack kstack trapret_a forkret_a t (mem s) -> words_at (mem s) (esp s) [ret; old; context_addr kstack] ->
  switchable (esp s) old (context_addr kstack) -> elsewhere kstack (esp s) old ->
  0 <= kstack -> aligned kstack -> kstack + KSTACKSIZE < 2 ^ 32 -> ring (s_cs (sg s)) = 0 -> ring (f_cs t mod 65536) = 3 -> c_returns forkret ->
  exists s1 s2 m', run swtch s = Ret s1 /\ eip s1 = forkret_a /\ forkret s1 = Ret s2 /\ eip s2 = trapret_a /\ run trapret s2 = Ret (user_of t m').
Proof.
  intros Hf Hst Hsw [He1 He2] H0 Ha Hk Hr Hr' Hc. destruct s as [R sp G ip fl m]. cbn [mem esp sg] in *. unfold KSTACKSIZE in *.
  pose proof Hf as [Hctx Hrest]%words_app. destruct (swtch_run R sp G ip fl m ret old _ _ Hst Hsw Hctx) as (R1 & m1 & Hrun & _ & _ & Hsame).
  replace (context_addr kstack + 4 * _) with (context_addr kstack + 20) in Hrest by (cbn; lia).
  assert (Hw : words_at m1 (context_addr kstack + 20) (trapret_a :: tf_words t)).
  { intros i v Hi. pose proof (lookup_lt_Some _ _ _ Hi) as Hl. cbn in Hl. unfold context_addr, tf_addr, KSTACKSIZE in *. rewrite Hsame by lia. by apply Hrest. }
  destruct (Hc (mkSt (in_context (mkContext 0 0 0 0 forkret_a) R1) (context_addr kstack + 20) G forkret_a fl m1) _ _ Hw) as ([R2 sp2 G2 ip2 fl2 m2] & Hfr & Hsp & Hip & Hsg & Hw2).
  cbn [esp eip sg mem] in *. eexists _, _, m2. split; [exact Hrun|]. split; [done|]. split; [exact Hfr|]. split; [done|].
  subst. apply (trapret_run _ _ _ _ _ _ _ []); [by rewrite app_nil_r|unfold context_addr, tf_addr, KSTACKSIZE; addr|unfold context_addr, tf_addr, KSTACKSIZE; lia..|done|done].
Qed.

(** ** What the code promises *)

(** A trap is transparent.  When a program in user space is interrupted, the
    processor and [alltraps] build a complete frame of it at [p->tf], the place
    [allocproc] reserved, and [trapret] loads whatever frame [trap] leaves; if
    [trap] leaves the frame alone the program goes on with all its registers,
    flags and segments.  This holds for every vector, with or without error
    code, and for interrupt and trap gates. *)
Theorem trap_transparent trap here a gate g i err s kstack t' :
  let t := frame_of i err s (kstack + KSTACKSIZE - 44) in
  aligned kstack -> 0 <= kstack -> kstack + KSTACKSIZE < 2 ^ 32 -> segs_ok (sg s) -> ring (s_cs (sg s)) = 3 -> ring (f_cs t' mod 65536) = 3 ->
  handles trap (tf_addr kstack) (tf_words t) (tf_words t') ->
  exists s', (s1 ← interrupt (kstack + KSTACKSIZE) (SEG_KDATA * 8) i err gate 8 g s; run (vector i a ++ alltraps trap here) s1) = Ret s' /\
    s' = user_of t' (mem s') /\ (t' = t -> rs s' = rs s /\ esp s' = esp s /\ sg s' = sg s /\ eip s' = eip s /\ eflags s' = eflags s).
Proof.
  intros t Ha H0 Hk Hok Hr Hr' Ht. destruct (trap_run trap here a gate g i err s kstack t' Ha H0 Hk Hr Hr' Ht) as (m' & Hrun & _).
  eexists. split; [exact Hrun|]. split; [done|]. intros ->. subst t. by rewrite user_of_frame.
Qed.

(** C25. [swtch] gives back what it took.  A kernel thread that calls
    [swtch(&old, new)] goes on, when any other thread later switches to the
    context stored in [old], after its call: with its stack pointer and the four
    registers a C function has to preserve, whatever the other threads did as
    long as they left its stack alone. *)
Theorem swtch_resumes R sp G ip fl m ret old new c R2 sp2 G2 ip2 fl2 m2 ret2 old2 s1 :
  words_at m sp [ret; old; new] -> switchable sp old new -> words_at m new (ctx_words c) ->
  run swtch (mkSt R sp G ip fl m) = Ret s1 ->
  (forall x, sp - 16 <= x < sp + 4 -> m2 x = mem s1 x) ->
  words_at m2 sp2 [ret2; old2; mem s1 old] -> switchable sp2 old2 (mem s1 old) ->
  eip s1 = c_eip c /\
  exists s2, run swtch (mkSt R2 sp2 G2 ip2 fl2 m2) = Ret s2 /\ eip s2 = ret /\ esp s2 = sp + 4 /\
    r_ebx (rs s2) = r_ebx R /\ r_ebp (rs s2) = r_ebp R /\ r_esi (rs s2) = r_esi R /\ r_edi (rs s2) = r_edi R.
Proof.
  intros Hst Hsw Hc Hrun Hsame Hst2 Hsw2. destruct (swtch_run R sp G ip fl m ret old new c Hst Hsw Hc) as (R' & m1 & Hrun' & Hold & Hw & _).
  rewrite Hrun in Hrun'. injection Hrun' as ->. cbn [mem eip] in *. rewrite Hold in *. split; [done|].
  assert (Hw2 : words_at m2 (sp - 16) (ctx_words (context_of R ret))).
  { intros i v Hi. pose proof (lookup_lt_Some _ _ _ Hi) as Hl. cbn in Hl. rewrite Hsame by lia. by apply Hw. }
  destruct (swtch_run R2 sp2 G2 ip2 fl2 m2 ret2 old2 _ _ Hst2 Hsw2 Hw2) as (R3 & m3 & -> & _). eexists. split; [done|]. cbn. split_and!; try done. lia.
Qed.

(** C27. A forked process starts where its parent is.  The stack [allocproc] and
    [fork] prepare leads the first [swtch] to the process into [forkret], which
    returns to [trapret], which enters user space in the state of the parent at
    its system call, except that [%eax] is 0. *)
Theorem fork_child_starts forkret trapret_a forkret_a kstack t s ret old m0 :
  (forall x, kstack <= x < kstack + KSTACKSIZE -> mem s x = fork_frame kstack t (allocproc_stack kstack trapret_a forkret_a m0) x) ->
  words_at (mem s) (esp s) [ret; old; context_addr kstack] -> switchable (esp s) old (context_addr kstack) -> elsewhere kstack (esp s) old ->
  0 <= kstack -> aligned kstack -> kstack + KSTACKSIZE < 2 ^ 32 -> ring (s_cs (sg s)) = 0 -> ring (f_cs t mod 65536) = 3 -> c_returns forkret ->
  exists s1 s2 m', run swtch s = Ret s1 /\ eip s1 = forkret_a /\ forkret s1 = Ret s2 /\ eip s2 = trapret_a /\
    run trapret s2 = Ret (setr EAX 0 (user_of t m')).
Proof.
  intros Hm Hst Hsw He H0 Ha Hk Hr Hr' Hc. destruct t as [di si bp osp b d cx ax gs fs es ds no err ip cs fl sp ss]. cbn in Hr'.
  set (t := mkTrapframe di si bp osp b d cx 0 gs fs es ds no err ip cs fl sp ss).
  destruct (first_run forkret trapret_a forkret_a kstack t s ret old) as (s1 & s2 & m' & H1 & H2 & H3 & H4 & H5); try done.
  - intros i v Hi. pose proof (lookup_lt_Some _ _ _ Hi) as Hl. cbn in Hl. unfold KSTACKSIZE in *. rewrite Hm by (unfold context_addr, tf_addr, KSTACKSIZE; lia).
    by apply (fresh_stack_made kstack trapret_a forkret_a t m0).
  - by exists s1, s2, m'.
Qed.

(** The first process starts at address 0 of its page with an empty stack, in user
    mode with interrupts enabled. *)
Theorem init_starts forkret trapret_a forkret_a kstack s ret old m0 :
  (forall x, kstack <= x < kstack + KSTACKSIZE -> mem s x = userinit_frame kstack (allocproc_stack kstack trapret_a forkret_a m0) x) ->
  words_at (mem s) (esp s) [ret; old; context_addr kstack] -> switchable (esp s) old (context_addr kstack) -> elsewhere kstack (esp s) old ->
  0 <= kstack -> aligned kstack -> kstack + KSTACKSIZE < 2 ^ 32 -> ring (s_cs (sg s)) = 0 -> c_returns forkret ->
  exists s1 s2 m', run swtch s = Ret s1 /\ forkret s1 = Ret s2 /\
    run trapret s2 = Ret (mkSt (mkRegs 0 0 0 0 0 0 0) 4096 (mkSegs 27 35 35 0 0 35) 0 512 m').
Proof.
  intros Hm Hst Hsw He H0 Ha Hk Hr Hc. edestruct (first_run forkret trapret_a forkret_a kstack) as (s1 & s2 & m' & H1 & H2 & H3 & H4 & H5); try done.
  - intros i v Hi. pose proof (lookup_lt_Some _ _ _ Hi) as Hl. cbn in Hl. unfold KSTACKSIZE in *. rewrite Hm by (unfold context_addr, tf_addr, KSTACKSIZE; lia).
    revert Hi. unfold userinit_frame. apply fresh_stack_made.
  - done.
  - exists s1, s2, m'. split_and!; done.
Qed.

(** [initcode] then asks for [exec("/init", argv)]: the arguments are where
    [argint] looks for them, above the word at [%esp]. *)
Theorem initcode_asks R G ip fl m init argv :
  exists m', run (initcode_start init argv) (mkSt R 4096 G ip fl m) = Ret (setr EAX SYS_exec (mkSt R 4084 G ip fl m')) /\
    words_at m' 4084 [0; init; argv] /\ above 4096 m m'.
Proof.
  unfold initcode_start. do 3 (rewrite run_push by (lia || done); cbn [value]). erewrite run_cons by reflexivity. eexists. split; [reflexivity|]. split.
  - change 4084 with (4096 - 4 - 4 - 4). words.
  - repeat (simple apply above_upd'; [lia|]). intros x Hx. reflexivity.
Qed.

(** An interrupt in the kernel leaves the interrupted code as it was, stack
    included, when [trap] leaves its frame and what is above it alone. *)
Theorem kernel_trap_transparent trap here a gate g i err s esp0 k :
  aligned (esp s) -> 84 <= esp s < 2 ^ 32 -> ring (s_cs (sg s)) = 0 -> segs_ok (sg s) -> words_at (mem s) (esp s) k ->
  handles trap (esp s - 68) (kframe i err s (esp s - 36) ++ k) (kframe i err s (esp s - 36) ++ k) ->
  exists m', (s1 ← interrupt esp0 (SEG_KDATA * 8) i err gate 8 g s; run (vector i a ++ alltraps trap here) s1) =
    Ret (mkSt (rs s) (esp s) (sg s) (eip s) (eflags s) m') /\ words_at m' (esp s) k.
Proof.
  intros Ha Hs Hr Hok Hk Ht. change (SEG_KDATA * 8) with 16. destruct s as [R sp G ip fl m]. cbn [sg esp mem rs eip eflags] in *.
  destruct (interrupt_kernel R G sp ip fl m i err gate g esp0 k) as (m1 & -> & Hw1); [done|done|lia|done|]. cbn [mbind outcome_bind].
  destruct (save_run i a err ([ip; s_cs G; fl] ++ k) R (mkSegs 8 (s_ds G) (s_es G) (s_fs G) (s_gs G) (s_ss G)) gate (masked g fl) m1 (sp - 12)) as (m2 & Hsv & Hw & _); [addr|lia|exact Hw1|].
  rewrite alltraps_split, app_assoc, run_app. unfold below. rewrite Hsv. cbn [mbind outcome_bind]. rewrite run_app.
  replace (sp - 12 - 24) with (sp - 36) in Hw by lia. replace (sp - 12 - 56) with (sp - 68) in * by lia.
  destruct (call_trap_run trap here R (sp - 68) (mkSegs 8 (s_ds G) (s_es G) (s_fs G) (s_gs G) (s_ss G)) a (masked g fl) m2 _ _ Ht Hw)
    as (R' & G' & ip' & fl' & m' & -> & Hw' & Hcs & Hss & _); [addr|lia|]. cbn [mbind outcome_bind].
  destruct Hok as (H1 & H2 & H3 & H4 & H5 & H6). unfold seg_ok in *. exists m'. split.
  - erewrite (trapret_kernel _ _ _ _ _ _ R (sp - 36) G); [|exact Hw'|addr|lia|lia|by rewrite Hcs|by rewrite Z.mod_small].
    rewrite Hss. cbn [s_ss s_cs sg eip eflags frame_of f_cs f_eip f_eflags]. rewrite !Z.mod_small by lia. replace (sp - 68 + 68) with sp by lia. by destruct G.
  - apply words_app in Hw' as [_ Hw']. by replace (sp - 68 + _) with sp in Hw' by (cbn; lia).
Qed.

(** ** Instances *)

(** A C function that only returns. *)
Definition just_return (s : st) : outcome st := Ret (mkSt (rs s) (esp s + 4) (sg s) (mem s (esp s)) (eflags s) (mem s)).
Lemma just_return_returns : c_returns just_return.
Proof. intros s r w [Hr Hw]%words_cons. by eexists. Qed.
Lemma just_return_handles a w : handles just_return a w w.
Proof. intros s Ha Hm Hw. by eexists. Qed.

Definition demo_user : st := mkSt (mkRegs 1 2 3 4 5 6 7) 12288 (mkSegs 27 35 35 0 0 35) 4660 514 (fun _ => 0).
Ltac known := repeat (apply words_cons; split; [vm_compute; reflexivity|]); apply words_nil.

Lemma trap_transparent_witness :
  exists s', (s1 ← interrupt (65536 + KSTACKSIZE) (SEG_KDATA * 8) 14 6 1048576 8 true demo_user; run (vector 14 1048832 ++ alltraps just_return 1048900) s1) = Ret s' /\
    rs s' = rs demo_user /\ esp s' = 12288 /\ sg s' = sg demo_user /\ eip s' = 4660 /\ eflags s' = 514.
Proof.
  destruct (trap_transparent just_return 1048900 1048832 1048576 true 14 6 demo_user 65536 (frame_of 14 6 demo_user (65536 + KSTACKSIZE - 44))) as (s' & H & _ & Hs);
    [done|lia|unfold KSTACKSIZE; lia|repeat split; cbn; lia|done|done|apply just_return_handles|].
  exists s'. split; [exact H|]. by apply Hs.
Defined.

(** Two threads: the first has its stack at 4096 and the variable at 64, the second
    its context at 8192 and the variable at 68. *)
Definition demo_threads : Z -> Z := write_words 8192 [11; 12; 13; 14; 2000; 3000; 68; 4080] (write_words 4096 [1000; 64; 8192] (fun _ => 0)).
Definition demo_switched : st :=
  mkSt (mkRegs 64 2 8192 13 14 12 11) 8212 (mkSegs 8 16 16 0 0 16) 2000 2 (upd (upd (upd (upd (upd demo_threads 4092 5) 4088 4) 4084 6) 4080 7) 64 4080).
Lemma demo_switch : run swtch (mkSt (mkRegs 1 2 3 4 5 6 7) 4096 (mkSegs 8 16 16 0 0 16) 0 2 demo_threads) = Ret demo_switched.
Proof. vm_compute. reflexivity. Qed.

Lemma swtch_resumes_witness :
  exists s2, run swtch (mkSt (mkRegs 0 0 0 0 0 0 0) 8212 (mkSegs 8 16 16 0 0 16) 2000 2 (mem demo_switched)) = Ret s2 /\ eip s2 = 1000 /\ esp s2 = 4100 /\
    r_ebx (rs s2) = 4 /\ r_ebp (rs s2) = 5 /\ r_esi (rs s2) = 6 /\ r_edi (rs s2) = 7.
Proof.
  refine (proj2 (swtch_resumes (mkRegs 1 2 3 4 5 6 7) 4096 (mkSegs 8 16 16 0 0 16) 0 2 demo_threads 1000 64 8192 (mkContext 11 12 13 14 2000)
    _ 8212 _ 2000 2 (mem demo_switched) 3000 68 demo_switched _ _ _ demo_switch _ _ _)).
  - known.
  - split; unfold aligned; split_and!; try done; lia.
  - known.
  - intros x _. reflexivity.
  - known.
  - change (mem demo_switched 64) with 4080. split; unfold aligned; split_and!; try done; lia.
Defined.

Definition demo_child : Z -> Z :=
  write_words 16384 [1000; 64; context_addr 65536] (fork_frame 65536 (frame_of 64 0 demo_user 69588) (allocproc_stack 65536 1100 1200 (fun _ => 0))).

Lemma fork_child_starts_witness :
  let s := mkSt (mkRegs 0 0 0 0 0 0 0) 16384 (mkSegs 8 16 16 0 0 16) 0 2 demo_child in
  exists s1 s2 m', run swtch s = Ret s1 /\ eip s1 = 1200 /\ just_return s1 = Ret s2 /\ eip s2 = 1100 /\
    run trapret s2 = Ret (setr EAX 0 (user_of (frame_of 64 0 demo_user 69588) m')).
Proof.
  intros s. apply (fork_child_starts just_return 1100 1200 65536 (frame_of 64 0 demo_user 69588) s 1000 64 (fun _ => 0)).
  - intros x Hx. unfold s, demo_child, KSTACKSIZE in *. cbn [mem]. rewrite (write_words_other [1000; 64; context_addr 65536]) by (cbn [length]; lia). reflexivity.
  - known.
  - change (switchable 16384 64 (65536 + 4096 - 76 - 4 - 20)). split; unfold aligned; split_and!; try done; lia.
  - change (elsewhere 65536 16384 64). unfold elsewhere, KSTACKSIZE. lia.
  - lia.
  - done.
  - unfold KSTACKSIZE. lia.
  - done.
  - done.
  - exact just_return_returns.
Defined.
End Asm.
