(* ===== verification/Calls.v ===== *)
(** * System calls from the stub to the handler

    Models [usys.S], [syscall.h] and the tables [syscalls] and [syscall_names] of
    [syscall.c], for the three kernels of the repository: [src/xv6-public], [src/add
    system call] (tracing) and [src/update scheduler].

    A user program calls a stub of [usys.S]; the stub loads a number and executes
    [int $T_SYSCALL].  The theorems follow the call through the machine of [Asm], the
    argument functions and the table of [Syscall]: the handler with the name of the
    stub runs, it finds the arguments of the C call, and its result is what the
    stub returns. *)
From S2P Require Export Syscall Trap Asm.

Module Calls.
Import Spin Proc ProcInv Syscall.
Local Open Scope Z_scope.

(** ** The tables *)

(** [syscall.h], the entries of [syscalls] in the order of the source,
    [syscall_names], and the stubs of [usys.S]. *)
Record kernel := mkKernel { k_numbers : list (string * Z); k_entries : list string; k_names : list string; k_stubs : list string }.

(** The 21 calls all kernels have. *)
Definition base_numbers : list (string * Z) :=
  [("fork", 1); ("exit", 2); ("wait", 3); ("pipe", 4); ("read", 5); ("kill", 6); ("exec", 7); ("fstat", 8); ("chdir", 9); ("dup", 10);
   ("getpid", 11); ("sbrk", 12); ("sleep", 13); ("uptime", 14); ("open", 15); ("write", 16); ("mknod", 17); ("unlink", 18); ("link", 19);
   ("mkdir", 20); ("close", 21)]%string.
Definition base_entries : list string :=
  ["fork"; "exit"; "wait"; "pipe"; "read"; "kill"; "exec"; "fstat"; "chdir"; "dup"; "getpid"; "sbrk"; "sleep"; "uptime"; "open"; "write";
   "mknod"; "unlink"; "link"; "mkdir"; "close"]%string.
Definition base_stubs : list string :=
  ["fork"; "exit"; "wait"; "pipe"; "read"; "write"; "close"; "kill"; "exec"; "open"; "mknod"; "unlink"; "fstat"; "link"; "mkdir"; "chdir";
   "dup"; "getpid"; "sbrk"; "sleep"; "uptime"]%string.

Definition kernel_xv6 : kernel :=
  mkKernel (base_numbers ++ [("memsize", 22); ("trace", 23); ("weightset", 24)]%string) (base_entries ++ ["memsize"; "trace"; "weightset"]%string)
    syscall_names (base_stubs ++ ["memsize"; "trace"; "weightset"]%string).
Definition kernel_trace : kernel :=
  mkKernel (base_numbers ++ [("memsize", 22); ("trace", 23)]%string) (base_entries ++ ["memsize"; "trace"]%string)
    (base_entries ++ ["memsize"; "trace"]%string) (base_stubs ++ ["memsize"; "trace"]%string).
Definition kernel_update : kernel :=
  mkKernel (base_numbers ++ [("weightset", 22)]%string) (base_entries ++ ["weightset"]%string)
    (base_entries ++ ["weightset"]%string) (base_stubs ++ ["weightset"]%string).
Definition kernels : list kernel := [kernel_xv6; kernel_trace; kernel_update].

Fixpoint assoc {A} (x : string) (l : list (string * A)) : option A :=
  match l with [] => None | (y, v) :: l => if decide (x = y) then Some v else assoc x l end.

(** An array with designated initialisers, [\[SYS_x\] sys_x]: as long as its last
    index needs, and empty where there is none. *)
Definition entry_at (k : kernel) (i : Z) : option string := List.find (fun e => bool_decide (assoc e (k_numbers k) = Some i)) (k_entries k).
Definition last_index (k : kernel) : Z := foldr (fun e n => Z.max (default 0 (assoc e (k_numbers k))) n) 0 (k_entries k).
Definition table (k : kernel) : list (option string) := entry_at k <$> seqZ 0 (1 + last_index k).

(** [syscalls], with the function of every name. *)
Definition syscalls {E} (h : string -> handler (E := E)) (k : kernel) : list (option (handler (E := E))) := option_map h <$> table k.

(** ** The stubs *)

(** The stub up to [int] and after it. *)
Definition stub_enter (num : Z) : list Asm.instr := [Asm.Movl (Asm.OImm num) Asm.EAX].
Definition stub_leave : list Asm.instr := [Asm.RetI].
(** The call as the machine runs it: [T_SYSCALL] has a trap gate. *)
Definition stub_call (trap : Asm.st -> outcome Asm.st) (here a gate kstack num : Z) (s : Asm.st) : outcome Asm.st :=
  s ← Asm.run (stub_enter num) s;
  s ← Asm.interrupt (kstack + Asm.KSTACKSIZE) (Asm.SEG_KDATA * 8) Trap.T_SYSCALL 0 gate 8 false s;
  s ← Asm.run (Asm.vector Trap.T_SYSCALL a ++ Asm.alltraps trap here) s;
  Asm.run stub_leave s.

(** The process as the argument functions see it: its stack pointer, and the bytes
    of the words of its memory. *)
Definition sees (u : user) (s : Asm.st) : Prop :=
  u_esp u = Asm.esp s /\
  forall x, Asm.aligned x -> 0 <= x -> x + 4 <= u_sz u ->
    Asm.mem s x = u_mem u x + 256 * u_mem u (x + 1) + 65536 * u_mem u (x + 2) + 16777216 * u_mem u (x + 3).

(** The frame with another result. *)
Definition with_eax (r : Z) (t : Asm.trapframe) : Asm.trapframe :=
  let '(Asm.mkTrapframe di si bp osp b d c _ gs fs es ds no err ip cs fl sp ss) := t in
  Asm.mkTrapframe di si bp osp b d c r gs fs es ds no err ip cs fl sp ss.

(** ** The tables agree *)

Definition call_ok (k : kernel) (e : string) : bool :=
  match assoc e (k_numbers k) with
  | Some n => bool_decide (0 < n) && bool_decide (table k !! Z.to_nat n = Some (Some e)) && bool_decide (k_names k !! Z.to_nat (n - 1) = Some e)
  | None => false
  end.
Lemma calls_ok k e : k ∈ kernels -> e ∈ k_stubs k -> call_ok k e = true.
Proof.
  assert (Forall (fun k => Forall (fun e => call_ok k e = true) (k_stubs k)) kernels) as H by (repeat constructor).
  intros Hk He. rewrite Forall_forall in H. specialize (H k Hk). rewrite Forall_forall in H. by apply H.
Qed.

(** Every stub has a number, below which the table has the handler of that name and
    the tracer its name; and every entry of the table can be reached by a stub. *)
Theorem stubs_match_table k : k ∈ kernels ->
  (forall e, e ∈ k_stubs k -> exists n, assoc e (k_numbers k) = Some n /\ 0 < n /\ table k !! Z.to_nat n = Some (Some e) /\ k_names k !! Z.to_nat (n - 1) = Some e) /\
  (forall n e, table k !! n = Some (Some e) -> e ∈ k_stubs k).
Proof.
  intros Hk. split.
  - intros e He. pose proof (calls_ok k e Hk He) as H. unfold call_ok in H. destruct (assoc e (k_numbers k)) as [n|]; [|done].
    apply andb_prop in H as [[H1%bool_decide_eq_true H2%bool_decide_eq_true]%andb_prop H3%bool_decide_eq_true]. by exists n.
  - assert (Forall (fun k => forallb (fun o => match o with Some e => bool_decide (e ∈ k_stubs k) | None => true end) (table k) = true) kernels) as H by (repeat constructor).
    intros n e He. rewrite Forall_forall in H. specialize (H k Hk). rewrite forallb_forall in H. specialize (H (Some e)).
    apply (proj1 (bool_decide_eq_true _)), H. apply list_elem_of_In. by eapply list_elem_of_lookup_2.
Qed.

Lemma find_stub {E} (h : string -> handler (E := E)) k e : k ∈ kernels -> e ∈ k_stubs k ->
  exists n, assoc e (k_numbers k) = Some n /\ 0 < n < Z.of_nat (length (table k)) /\ find_syscall (syscalls h k) n = Some (h e).
Proof.
  intros Hk He. destruct (proj1 (stubs_match_table k Hk) e He) as (n & Hn & H0 & Ht & _). exists n. split; [done|].
  pose proof (lookup_lt_Some _ _ _ Ht) as Hl. split; [lia|]. unfold find_syscall, syscalls. rewrite length_fmap, decide_True by lia.
  by rewrite list_lookup_fmap, Ht.
Qed.

(** ** Arguments *)

Lemma argint_sees u s ret args i v : sees u s -> Asm.words_at (Asm.mem s) (Asm.esp s) (ret :: args) -> Asm.aligned (Asm.esp s) -> 0 <= Asm.esp s ->
  Asm.esp s + 4 + 4 * Z.of_nat (length args) <= u_sz u -> u_sz u <= 2 ^ 31 -> args !! i = Some v -> argint u (Z.of_nat i) = Some (int32 v).
Proof.
  intros [He Hm] Hw Ha H0 Hs Hk Hi. pose proof (lookup_lt_Some _ _ _ Hi) as Hl. unfold argint, fetchint. rewrite He.
  rewrite !uint32_id by (try rewrite uint32_id; lia). rewrite decide_False by lia. specialize (Hw (S i) v Hi).
  unfold load_int. rewrite <- Hm; [|unfold Asm.aligned in *; Z.div_mod_to_equations; lia|lia|lia]. do 2 f_equal. rewrite <- Hw. f_equal. lia.
Qed.

(** ** A call *)

Lemma stub_returns trap here a gate kstack num r s ret :
  let t := Asm.frame_of Trap.T_SYSCALL 0 (Asm.setr Asm.EAX num s) (kstack + Asm.KSTACKSIZE - 44) in
  Asm.aligned kstack -> 0 <= kstack -> kstack + Asm.KSTACKSIZE < 2 ^ 32 -> Asm.segs_ok (Asm.sg s) -> Asm.ring (Asm.s_cs (Asm.sg s)) = 3 ->
  Asm.words_at (Asm.mem s) (Asm.esp s) [ret] -> Asm.aligned (Asm.esp s) -> 0 <= Asm.esp s < kstack ->
  Asm.handles trap (Asm.tf_addr kstack) (Asm.tf_words t) (Asm.tf_words (with_eax r t)) -> Asm.spares trap (Asm.esp s) ->
  exists m', stub_call trap here a gate kstack num s = Ret (Asm.setr Asm.EAX r (Asm.mkSt (Asm.rs s) (Asm.esp s + 4) (Asm.sg s) ret (Asm.eflags s) m')).
Proof.
  intros t Ha H0 Hk Hok Hr Hw Hae He Ht Hsp. destruct s as [[r1 r2 r3 r4 r5 r6 r7] sp [c d e f g ss] ip fl m]. cbn [Asm.sg Asm.s_cs Asm.esp Asm.mem Asm.rs Asm.eflags] in *.
  unfold stub_call, stub_enter. erewrite Asm.run_cons by reflexivity. cbn [Asm.value].
  change (Asm.SEG_KDATA * 8) with 16. pose proof Hok as (Hc & _).
  destruct (Asm.trap_run trap here a gate false Trap.T_SYSCALL 0 (Asm.setr Asm.EAX num (Asm.mkSt (Asm.mkRegs r1 r2 r3 r4 r5 r6 r7) sp (Asm.mkSegs c d e f g ss) ip fl m)) kstack
    (with_eax r t)) as (m' & Hrun & Hm); [done|done|done|done|cbn; unfold Asm.seg_ok in Hc; cbn in Hc; by rewrite Z.mod_small|exact Ht|].
  cbn [Asm.run mbind outcome_bind] in Hrun |- *. destruct (Asm.interrupt _ _ _ _ _ _ _ _) as [s1| | |]; try discriminate Hrun. cbn [mbind outcome_bind] in *. rewrite Hrun. cbn [mbind outcome_bind].
  specialize (Hm sp ltac:(lia) Hsp). apply Asm.words_cons in Hw as [Hw _]. exists m'. unfold Asm.KSTACKSIZE in Hk. clear Hrun Ht.
  unfold stub_leave, with_eax, t, Asm.user_of, Asm.frame_segs, Asm.frame_regs, Asm.frame_of. cbn in Hm |- *.
  erewrite Asm.pop_run; [|exact Hae|lia|lia|apply Asm.words_cons; split; [exact Hm|apply Asm.words_nil]]. cbn. rewrite Hw.
  unfold Asm.segs_ok, Asm.seg_ok in Hok. cbn in Hok. by rewrite !Z.mod_small by lia.
Qed.


(** [trace(5)] in the tracing kernel; the C function [trap] puts 0 into the frame. *)
Definition demo_mem : Z -> Z := Asm.write_words 8192 [4660; 5] (fun _ => 0).
Definition demo_caller : Asm.st := Asm.mkSt (Asm.mkRegs 1 2 3 4 5 6 7) 8192 (Asm.mkSegs 27 35 35 0 0 35) 100 514 demo_mem.
Definition demo_bytes (x : Z) : Z := Z.shiftr (demo_mem (x - x mod 4)) (8 * (x mod 4)) mod 256.
Definition store_result (a r : Z) (s : Asm.st) : outcome Asm.st :=
  Ret (Asm.mkSt (Asm.rs s) (Asm.esp s + 4) (Asm.sg s) (Asm.mem s (Asm.esp s)) (Asm.eflags s) (Asm.upd (Asm.mem s) (a + 28) r)).
Lemma store_result_ok a r t : Asm.handles (store_result a r) a (Asm.tf_words t) (Asm.tf_words (with_eax r t)).
Proof.
  intros s Ha Hm Hw. eexists. split; [reflexivity|]. cbn [Asm.esp Asm.sg Asm.mem]. split; [done|]. split; [done|]. destruct t.
  intros i v Hi. destruct (decide (i = 7%nat)) as [->|Hn]; [injection Hi as <-; unfold Asm.upd; by rewrite decide_True by lia|].
  rewrite Asm.upd_other by lia. apply Hw. rewrite <- Hi. do 8 (destruct i as [|i]; [done|]). done.
Qed.
Lemma demo_sees : sees (mkUser demo_bytes 12288 8192) demo_caller.
Proof.
  split; [done|]. cbn [u_sz u_mem Asm.mem demo_caller]. intros x Hx H0 _. unfold Asm.aligned, demo_bytes in *.
  assert (forall j, 0 <= j < 4 -> (x + j) mod 4 = j) as Hj by (intros j Hj; Z.div_mod_to_equations; lia).
  rewrite (Hj 1), (Hj 2), (Hj 3), Hx by lia. replace (x + 1 - 1) with x by lia. replace (x + 2 - 2) with x by lia. replace (x + 3 - 3) with x by lia. rewrite Z.sub_0_r.
  assert (demo_mem x = 4660 \/ demo_mem x = 5 \/ demo_mem x = 0) as [->|[->| ->]] by (unfold demo_mem; cbn; repeat case_decide; auto); reflexivity.
Qed.

End Calls.
