(* ===== verification/TraceCalls.v ===== *)
(** * The system calls of the tracing kernel

    Models [src/add system call/syscall.c] and [sysproc.c], over the process
    operations of [AddSyscall]; the functions whose text is that of xv6-public are
    those of [Syscall].  The two calls the exercise adds, [memsize] and [trace], are
    followed from the table to the process table and to what is printed. *)
From S2P Require Export Calls AddSyscall.

Module TraceCalls.
Import Spin Proc ProcInv Syscall Calls.

(** ** Arguments *)

Definition fetchint (u : user) (addr : Z) : option Z := Syscall.fetchint u addr.
Definition fetchstr (u : user) (addr : Z) : option (Z * Z) := Syscall.fetchstr u addr.
Definition argint (u : user) (n : Z) : option Z := Syscall.argint u n.
Definition argptr (u : user) (n size : Z) : option Z := Syscall.argptr u n size.
Definition argstr (u : user) (n : Z) : option (Z * Z) := Syscall.argstr u n.

Section Sys.
Context {E : Type} `{KernelEnv E} (me : nat) (u : user) (ticks_chan ticks : Z) (tickslock : spinlock).
(** The calls of [sysfile.c]. *)
Context (other : string -> handler (E := E)).

(** ** Process calls *)

Definition sys_fork : handler (E := E) := done (AddSyscall.fork me).
Definition sys_exit : handler (E := E) := AddSyscall.exit me ;; mret None.
Definition sys_wait : handler (E := E) := waited (AddSyscall.wait me).
Definition sys_kill : handler (E := E) :=
  match argint u 0 with
  | None => mret (Some (-1)%Z)
  | Some pid => done (AddSyscall.kill me pid)
  end.
Definition sys_getpid : handler (E := E) := Syscall.sys_getpid.
Definition sys_sbrk : handler (E := E) := Syscall.sys_sbrk u.
Definition sys_sleep : handler (E := E) := Syscall.sys_sleep me u ticks_chan ticks tickslock.
Definition sys_uptime : handler (E := E) := Syscall.sys_uptime me ticks tickslock.
Definition sys_memsize : handler (E := E) := '(_, p) ← curproc; mret (Some (int32 (sz p))).
(** [argint] stores through its pointer only when it succeeds. *)
Definition sys_trace : handler (E := E) :=
  '(cur, _) ← curproc;
  match argint u 0 with
  | None => mret (Some (-1)%Z)
  | Some n => updp cur (set_trace n) ;; mret (Some 0%Z)
  end.

(** ** The dispatcher *)

Definition handler_of (e : string) : handler (E := E) :=
  default (other e) (assoc e
    [("fork", sys_fork); ("exit", sys_exit); ("wait", sys_wait); ("kill", sys_kill); ("getpid", sys_getpid); ("sbrk", sys_sbrk);
     ("sleep", sys_sleep); ("uptime", sys_uptime); ("memsize", sys_memsize); ("trace", sys_trace)]%string).

Definition syscall : proc_m E (list message) := asc_syscall (syscalls handler_of kernel_trace).
End Sys.

(** ** Theorems *)

(** What the dispatcher prints about call [num] when the mask is not negative. *)
Definition line (p : proc) (num : Z) (e : string) (r : Z) : list message :=
  if decide (2 ^ num <= trace p)%Z then [Traced (pid p) e r] else [].

Section Thms.
Context {E : Type} `{KernelEnv E} (me : nat).
Context (u : user) (ticks_chan ticks : Z) (tickslock : spinlock) (other : string -> handler (E := E)).
Context (ps : list proc) (mn w n : Z) (ip : option nat) (b : bool) (cur : nat) (fi : bool) (e : E) (p : proc).
Local Notation state ps := (mkK initlock ps mn w n ip (mkCpu 0 b b) (Some cur) fi e).
Local Notation call := (syscall me u ticks_chan ticks tickslock other).

(** A call by its name: the result, and the line that is printed. *)
Lemma syscall_named nm num r ps' p' : ps !! cur = Some p -> int32 (eax (tf p)) = num ->
  nm ∈ k_stubs kernel_trace -> assoc nm (k_numbers kernel_trace) = Some num ->
  handler_of me u ticks_chan ticks tickslock other nm (state ps) = Ret (Some r, state ps') -> ps' !! cur = Some p' -> (0 <= trace p')%Z ->
  call (state ps) = Ret (line p' num nm r, state (<[cur:=set_eax r p']> ps')).
Proof.
  intros Hp Hn He Hnum Hr Hp' Ht. destruct (find_stub (handler_of me u ticks_chan ticks tickslock other) kernel_trace nm) as (k & Hk & _ & Hf); [by repeat constructor|done|].
  destruct (proj1 (stubs_match_table kernel_trace ltac:(by repeat constructor)) nm He) as (k' & Hk' & H0 & Hl & Hnm).
  rewrite Hnum in Hk, Hk'. injection Hk as <-. injection Hk' as <-.
  destruct (trace_prints (syscalls (handler_of me u ticks_chan ticks tickslock other) kernel_trace) ps mn w n ip b cur fi e p _ r ps' mn w n ip fi e p' Hp Hp'
    ltac:(rewrite Hn; exact Hf) ltac:(vm_compute; lia) Hr Ht) as (x & Hx & Hc). rewrite Hn in Hx, Hc.
  assert (x = nm) as ->; [|exact Hc]. change syscall_names with (k_names kernel_trace ++ ["weightset"%string]) in Hx.
  rewrite lookup_app_l in Hx by (by eapply lookup_lt_Some). congruence.
Qed.

(** [memsize()] returns the size of the process and changes nothing. *)
Theorem memsize_call : ps !! cur = Some p -> int32 (eax (tf p)) = 22%Z -> (0 <= trace p)%Z ->
  call (state ps) = Ret (line p 22 "memsize" (int32 (sz p)), state (<[cur:=set_eax (int32 (sz p)) p]> ps)).
Proof.
  intros Hp Hn Ht. apply (syscall_named "memsize" 22 _ ps p); try done; [apply (bool_decide_eq_true_1 _); vm_compute; reflexivity|].
  change (sys_memsize (state ps) = Ret (Some (int32 (sz p)), state ps)). unfold sys_memsize.
  etransitivity; [apply stm_bind_Ret; apply (curproc_eq ps mn w n ip b cur fi e p Hp)|]. done.
Qed.

(** [trace(mask)] returns 0 and sets the mask of the calling process and nothing
    else; the call itself is printed when the new mask is at least [2 ^ 23]. *)
Theorem trace_call mask : ps !! cur = Some p -> int32 (eax (tf p)) = 23%Z -> argint u 0 = Some mask -> (0 <= mask)%Z ->
  call (state ps) = Ret (line (set_trace mask p) 23 "trace" 0, state (<[cur:=set_eax 0 (set_trace mask p)]> ps)).
Proof.
  intros Hp Hn Ha Hm. rewrite <- (list_insert_insert_eq ps cur _ (set_trace mask p)).
  apply (syscall_named "trace" 23 _ (<[cur:=set_trace mask p]> ps)); try done; [apply (bool_decide_eq_true_1 _); vm_compute; reflexivity| |apply list_lookup_insert_eq; by eapply lookup_lt_Some].
  change (sys_trace u (state ps) = Ret (Some 0%Z, state (<[cur:=set_trace mask p]> ps))). unfold sys_trace.
  etransitivity; [apply stm_bind_Ret; apply (curproc_eq ps mn w n ip b cur fi e p Hp)|]. cbv beta iota. rewrite Ha.
  etransitivity; [apply (stm_bind_Ret (updp cur _)); unfold updp; cbn [procs]; rewrite (rd_lookup _ _ _ Hp); reflexivity|]. done.
Qed.
End Thms.

Definition demo_proc (num : Z) : proc := set_pid 5 (set_eax num proc0).
Definition demo_trace (q : proc) : kst Z := mkK initlock [q] 3 1 6 None (mkCpu 0 true true) (Some 0) false 0%Z.
Definition demo_caller : user := mkUser (fun x => if decide (x = 11)%Z then 1%Z else 0%Z) 4096 4.

(** [trace(1 << 24)] prints itself, and [memsize] is printed after it. *)
Lemma trace_call_witness :
  syscall (E := Z) 0 demo_caller 0 0 initlock (fun _ => mret None) (demo_trace (demo_proc 23)) =
    Ret ([Traced 5 "trace" 0], demo_trace (set_eax 0 (set_trace 16777216 (demo_proc 23)))).
Proof.
  apply (trace_call (E := Z) 0 demo_caller 0 0 initlock (fun _ => mret None) [demo_proc 23] 3 1 6 None true 0 false 0%Z (demo_proc 23) 16777216); [reflexivity..|lia].
Defined.
Lemma memsize_call_witness :
  syscall (E := Z) 0 demo_caller 0 0 initlock (fun _ => mret None) (demo_trace (set_trace 16777216 (demo_proc 22))) =
    Ret ([Traced 5 "memsize" 0], demo_trace (set_eax 0 (set_trace 16777216 (demo_proc 22)))).
Proof.
  apply (memsize_call (E := Z) 0 demo_caller 0 0 initlock (fun _ => mret None) [set_trace 16777216 (demo_proc 22)] 3 1 6 None true 0 false 0%Z (set_trace 16777216 (demo_proc 22)));
    [reflexivity..|vm_compute; discriminate].
Defined.
End TraceCalls.
