(* ===== verification/UpdateCalls.v ===== *)
(** * The system calls of the scheduler update

    Models [src/update scheduler/syscall.c] and [sysproc.c], over the process
    operations of [UpdateSched]; the functions whose text is that of xv6-public are
    those of [Syscall].  [weightset] is followed from the table to the process
    table. *)
From S2P Require Export Calls UpdateSched.

Module UpdateCalls.
Import Spin Proc ProcInv Syscall Calls.

(** ** Arguments *)

Definition fetchint (u : user) (addr : Z) : option Z := Syscall.fetchint u addr.
Definition fetchstr (u : user) (addr : Z) : option (Z * Z) := Syscall.fetchstr u addr.
Definition argint (u : user) (n : Z) : option Z := Syscall.argint u n.
Definition argptr (u : user) (n size : Z) : option Z := Syscall.argptr u n size.
Definition argstr (u : user) (n : Z) : option (Z * Z) := Syscall.argstr u n.

Section Sys.
Context {E : Type} `{KernelEnv E} (me : nat) (u : user) (ticks_chan ticks : Z) (tickslock : spinlock).
(** The calls of [sysfile.c]. *)
Context (other : string -> handler (E := E)).

(** ** Process calls *)

Definition sys_fork : handler (E := E) := done (UpdateSched.fork me).
Definition sys_exit : handler (E := E) := UpdateSched.exit me ;; mret None.
Definition sys_wait : handler (E := E) := waited (UpdateSched.wait me).
Definition sys_kill : handler (E := E) :=
  match argint u 0 with
  | None => mret (Some (-1)%Z)
  | Some pid => done (UpdateSched.kill me pid)
  end.
Definition sys_getpid : handler (E := E) := Syscall.sys_getpid.
Definition sys_sbrk : handler (E := E) := Syscall.sys_sbrk u.
Definition sys_sleep : handler (E := E) := Syscall.sys_sleep me u ticks_chan ticks tickslock.
Definition sys_uptime : handler (E := E) := Syscall.sys_uptime me ticks tickslock.
Definition sys_weightset : handler (E := E) :=
  match argint u 0 with
  | None => mret (Some (-1)%Z)
  | Some weight =>
      if decide (weight = 0)%Z then mret (Some (-1)%Z)
      else UpdateSched.do_weightset me weight ;; mret (Some weight)
  end.

(** ** The dispatcher *)

Definition handler_of (e : string) : handler (E := E) :=
  default (other e) (assoc e
    [("fork", sys_fork); ("exit", sys_exit); ("wait", sys_wait); ("kill", sys_kill); ("getpid", sys_getpid); ("sbrk", sys_sbrk);
     ("sleep", sys_sleep); ("uptime", sys_uptime); ("weightset", sys_weightset)]%string).

Definition syscall : proc_m E (list message) := dispatch (syscalls handler_of kernel_update) (fun _ _ _ => mret []).
End Sys.

(** ** Theorems *)

Section Thms.
Context {E : Type} `{KernelEnv E} (me : nat).
Context (u : user) (ticks_chan ticks : Z) (tickslock : spinlock) (other : string -> handler (E := E)).
Context (ps : list proc) (mn w n : Z) (ip : option nat) (b : bool) (cur : nat) (fi : bool) (e : E) (p : proc).
Local Notation state ps := (mkK initlock ps mn w n ip (mkCpu 0 b b) (Some cur) fi e).

(** What the dispatcher does with the result of a handler. *)
Lemma syscall_by_name nm num h r ps' p' : ps !! cur = Some p -> int32 (eax (tf p)) = num ->
  nm ∈ k_stubs kernel_update -> assoc nm (k_numbers kernel_update) = Some num -> handler_of me u ticks_chan ticks tickslock other nm = h ->
  h (state ps) = Ret (Some r, state ps') -> ps' !! cur = Some p' ->
  syscall me u ticks_chan ticks tickslock other (state ps) = Ret ([], state (<[cur:=set_eax r p']> ps')).
Proof.
  intros Hp Hn He Hnum Hh Hr Hp'. destruct (find_stub (handler_of me u ticks_chan ticks tickslock other) kernel_update nm) as (k & Hk & _ & Hf); [by repeat constructor|done|].
  rewrite Hnum in Hk. injection Hk as <-. rewrite Hh in Hf. unfold syscall, dispatch.
  etransitivity; [apply stm_bind_Ret; apply (curproc_eq ps mn w n ip b cur fi e p Hp)|]. cbv beta iota. rewrite Hn, Hf.
  etransitivity; [apply stm_bind_Ret; exact Hr|]. cbv beta iota.
  etransitivity; [apply (stm_bind_Ret (updp cur _)); unfold updp; cbn [procs]; rewrite (rd_lookup _ _ _ Hp'); reflexivity|]. done.
Qed.

(** [weightset(wt)] in the kernel of the update: 0 is refused with -1 and the weight
    stays; any other weight becomes the weight of the calling process and is the
    result.  Nothing else of the process table changes.  (The kernel of xv6-public
    accepts 0, and then returns -1 from every call.) *)
Theorem weightset_call wt : ps !! cur = Some p -> int32 (eax (tf p)) = 22%Z -> argint u 0 = Some wt ->
  syscall me u ticks_chan ticks tickslock other (state ps) =
    Ret ([], state (<[cur := if decide (wt = 0)%Z then set_eax (-1) p else set_eax wt (set_weight wt p)]> ps)).
Proof.
  intros Hp Hn Ha. assert ("weightset"%string ∈ k_stubs kernel_update) as He by (apply (bool_decide_eq_true_1 _); vm_compute; reflexivity).
  destruct (decide (wt = 0)%Z) as [Hz|Hz].
  - apply (syscall_by_name "weightset" 22 (sys_weightset me u) (-1)%Z ps p Hp Hn He eq_refl eq_refl); [|done]. unfold sys_weightset. rewrite Ha. by rewrite decide_True.
  - rewrite <- (list_insert_insert_eq ps cur _ (set_weight wt p)).
    apply (syscall_by_name "weightset" 22 (sys_weightset me u) wt (<[cur:=set_weight wt p]> ps) (set_weight wt p) Hp Hn He eq_refl eq_refl); [|apply list_lookup_insert_eq; by eapply lookup_lt_Some].
    unfold sys_weightset. rewrite Ha, decide_False by done.
    assert (wp (UpdateSched.do_weightset me wt ;; mret (Some wt)) (fun r s' => r = Some wt /\ s' = state (<[cur:=set_weight wt p]> ps)) (state ps)) as Hw.
    { unfold UpdateSched.do_weightset, do_weightset. apply wp_bind, wp_bind, wp_acquire_pt, wp_bind, wp_myproc_held. cbv beta iota. apply wp_bind.
      eapply wp_updp; [exact Hp|]. apply wp_release_pt, wp_ret. done. }
    by apply wp_Ret in Hw as (? & ? & ? & -> & ->).
Qed.
End Thms.

Definition demo_proc : proc := set_pid 5 (set_eax 22 proc0).
Definition demo_update (q : proc) : kst Z := mkK initlock [q] 3 1 6 None (mkCpu 0 true true) (Some 0) false 0%Z.
(** [weightset(7)] and [weightset(0)]. *)
Lemma weightset_call_witness :
  syscall (E := Z) 0 (mkUser (fun x => if decide (x = 8)%Z then 7%Z else 0%Z) 4096 4) 0 0 initlock (fun _ => mret None) (demo_update demo_proc) =
    Ret ([], demo_update (set_eax 7 (set_weight 7 demo_proc))) /\
  syscall (E := Z) 0 (mkUser (fun _ => 0%Z) 4096 4) 0 0 initlock (fun _ => mret None) (demo_update demo_proc) = Ret ([], demo_update (set_eax (-1) demo_proc)).
Proof.
  split.
  - apply (weightset_call (E := Z) 0 (mkUser (fun x => if decide (x = 8)%Z then 7%Z else 0%Z) 4096 4) 0 0 initlock (fun _ => mret None) [demo_proc] 3 1 6 None true 0 false 0%Z demo_proc 7); reflexivity.
  - apply (weightset_call (E := Z) 0 (mkUser (fun _ => 0%Z) 4096 4) 0 0 initlock (fun _ => mret None) [demo_proc] 3 1 6 None true 0 false 0%Z demo_proc 0); reflexivity.
Defined.
End UpdateCalls.
