(* ===== verification/Kalloc.v ===== *)
(** * The physical page allocator

    Models [src/xv6-public/kalloc.c].  The free list is kept in the free pages
    themselves: the first word of a free page points to the next one.  Memory
    is a map from addresses to 32-bit words; [kend] is the linker's [end], the
    first address after the kernel. *)
From S2P Require Export Spinlock.

Module Kalloc.
Import Spin Locked.

Definition PGSIZE : Z := 4096.
Definition KERNBASE : Z := 2147483648.   (* 0x80000000 *)
Definition PHYSTOP : Z := 234881024.     (* 0xE000000 *)

(** [kmem] and the memory. *)
Record kmem := mkKmem { use_lock : bool; freelist : Z; mem : Z -> Z }.

(** [PGROUNDUP], [V2P]. *)
Definition PGROUNDUP (a : Z) : Z := Z.land (a + PGSIZE - 1) (Z.lnot (PGSIZE - 1)).
Definition V2P (a : Z) : Z := uint32 (a - KERNBASE).

(** [memset(v, 1, PGSIZE)], seen by words. *)
Definition fill_junk (v : Z) (m : Z -> Z) : Z -> Z :=
  fun a => if decide (v <= a < v + PGSIZE)%Z then 16843009%Z else m a.
Definition store (v x : Z) (m : Z -> Z) : Z -> Z := fun a => if decide (a = v) then x else m a.

Section Kalloc.
Context (kend : Z) (me : nat).

Definition km A := stm (guarded kmem) A.

(** [if(kmem.use_lock) ...]. *)
Definition when_locking (m : km unit) : km unit :=
  d ← getd; if use_lock d then m else mret tt.

Definition bad_page (v : Z) : bool :=
  bool_decide (v mod PGSIZE <> 0)%Z || bool_decide (v < kend)%Z || bool_decide (PHYSTOP <= V2P v)%Z.

Definition kfree (v : Z) : km unit :=
  if bad_page v then panic "kfree"
  else
    d ← getd;
    setd (mkKmem (use_lock d) (freelist d) (fill_junk v (mem d))) ;;
    when_locking (lk_acquire me) ;;
    d ← getd;
    setd (mkKmem (use_lock d) (freelist d) (store v (freelist d) (mem d))) ;;
    d ← getd;
    setd (mkKmem (use_lock d) v (mem d)) ;;
    when_locking (lk_release me).

Definition kalloc : km Z :=
  when_locking (lk_acquire me) ;;
  d ← getd;
  let r := freelist d in
  (if decide (r <> 0)%Z then setd (mkKmem (use_lock d) (mem d r) (mem d)) else mret tt) ;;
  when_locking (lk_release me) ;;
  mret r.

(** The loop of [freerange]; each round advances [p] by a page. *)
Fixpoint freerange_loop (fuel : nat) (p vend : Z) : km unit :=
  match fuel with
  | O => undef "out of fuel"
  | S fuel =>
      if decide (p + PGSIZE <= vend)%Z then kfree p ;; freerange_loop fuel (p + PGSIZE)%Z vend
      else mret tt
  end.

Definition freerange (vstart vend : Z) : km unit :=
  let p := PGROUNDUP vstart in
  freerange_loop (Z.to_nat ((vend - p) / PGSIZE) + 1) p vend.

Definition kinit1 (vstart vend : Z) : km unit := fun s =>
  let d := l_data s in
  freerange vstart vend (mkL initlock (l_cpu s) (mkKmem false (freelist d) (mem d))).

Definition kinit2 (vstart vend : Z) : km unit :=
  freerange vstart vend ;;
  d ← getd;
  setd (mkKmem true (freelist d) (mem d)).

(** ** Correctness *)

(** The pages the allocator accepts. *)
Definition page_ok (v : Z) : Prop :=
  (v mod PGSIZE = 0)%Z /\ (kend <= v < KERNBASE + PHYSTOP)%Z.

(** The free pages, in the order of the list threaded through memory. *)
Fixpoint chain (m : Z -> Z) (r : Z) (fl : list Z) : Prop :=
  match fl with
  | [] => r = 0%Z
  | p :: fl => r = p /\ chain m (m p) fl
  end.

Record kmem_inv (d : kmem) (fl : list Z) : Prop := {
  km_chain : chain (mem d) (freelist d) fl;
  km_nodup : NoDup fl;
  km_pages : Forall page_ok fl
}.

Hypothesis kend_ok : (KERNBASE < kend)%Z.

Lemma page_ok_nonzero v : page_ok v -> v <> 0%Z.
Proof. intros [_ H] ->. unfold KERNBASE in *. lia. Qed.

Lemma bad_page_false v : (0 <= v < 4294967296)%Z -> bad_page v = false <-> page_ok v.
Proof.
  intros Hv. unfold bad_page, page_ok. rewrite !orb_false_iff, !bool_decide_eq_false. unfold V2P, uint32.
  unfold KERNBASE, PHYSTOP in *. destruct (decide (kend <= v)%Z).
  - rewrite (Z.mod_small (v - 2147483648)) by lia. destruct (decide (v mod PGSIZE = 0)%Z); intuition lia.
  - intuition lia.
Qed.

Lemma page_ok_range v : page_ok v -> (0 <= v < 4294967296)%Z.
Proof. intros [_ H]. unfold KERNBASE, PHYSTOP in *. lia. Qed.

(** Distinct pages do not overlap. *)
Lemma page_disjoint v p : page_ok v -> page_ok p -> v <> p -> ~ (v <= p < v + PGSIZE)%Z.
Proof.
  intros [Hv _] [Hp _] Hne H. apply Hne. unfold PGSIZE in *.
  pose proof (Z.div_mod v 4096 ltac:(lia)). pose proof (Z.div_mod p 4096 ltac:(lia)). lia.
Qed.

Lemma chain_ext m m' r fl : (forall p, p ∈ fl -> m' p = m p) -> chain m r fl -> chain m' r fl.
Proof.
  revert r. induction fl as [|p fl IH]; intros r Hm; cbn; [done|]. intros [-> Hc]. split; [done|].
  rewrite Hm by by left. apply IH; [|done]. intros q Hq. apply Hm. by right.
Qed.

(** The memory after [kfree v] in front of the list [r]. *)
Definition freed (v r : Z) (m : Z -> Z) : Z -> Z := store v r (fill_junk v m).

Lemma wp_kfree u b v d (Q : unit -> guarded kmem -> Prop) :
  page_ok v -> use_lock d = u ->
  Q tt (free b (mkKmem u v (freed v (freelist d) (mem d)))) -> wp (kfree v) Q (free b d).
Proof.
  intros Hv Hu HQ. unfold kfree. rewrite (proj2 (bad_page_false v (page_ok_range v Hv)) Hv).
  lk_steps. unfold when_locking. lk_steps. cbn [use_lock]. rewrite Hu. destruct u; lk_steps; cbn [use_lock freelist mem]; lk_steps; exact HQ.
Qed.

Lemma kfree_inv v d fl :
  kmem_inv d fl -> page_ok v -> v ∉ fl ->
  kmem_inv (mkKmem (use_lock d) v (freed v (freelist d) (mem d))) (v :: fl).
Proof.
  intros [Hc Hn Hp] Hv Hin. constructor; cbn; [|by constructor..].
  split; [done|]. unfold freed, store at 2. rewrite decide_True by done.
  eapply chain_ext; [|exact Hc]. intros p Hq. assert (p <> v) by by intros ->.
  unfold store, fill_junk. rewrite decide_False by done. rewrite decide_False; [done|].
  apply page_disjoint; [done| |done]. rewrite Forall_forall in Hp. by apply Hp.
Qed.

Lemma wp_kalloc b d fl (Q : Z -> guarded kmem -> Prop) :
  kmem_inv d fl ->
  (fl = [] -> Q 0%Z (free b d)) ->
  (forall p fl', fl = p :: fl' -> Q p (free b (mkKmem (use_lock d) (mem d p) (mem d)))) ->
  wp kalloc Q (free b d).
Proof.
  intros [Hc Hn Hp] H0 H1. unfold kalloc, when_locking. destruct fl as [|p fl].
  - cbn in Hc. lk_steps. destruct (use_lock d) eqn:Hu; lk_steps; rewrite Hc, decide_False by (intros Hx; by apply Hx);
      lk_steps; rewrite Hu; lk_steps; by apply H0.
  - destruct Hc as [Hf Hc]. apply Forall_cons in Hp as [Hp _]. pose proof (page_ok_nonzero p Hp).
    lk_steps. destruct (use_lock d) eqn:Hu; lk_steps; rewrite Hf, decide_True by done; lk_steps; cbn [use_lock]; rewrite Hu;
      lk_steps; by apply (H1 p fl).
Qed.

Lemma kalloc_inv d p fl :
  kmem_inv d (p :: fl) -> kmem_inv (mkKmem (use_lock d) (mem d p) (mem d)) fl.
Proof. intros [[Hf Hc] Hn Hp]. apply NoDup_cons in Hn as [_ Hn]. apply Forall_cons in Hp as [_ Hp]. by constructor. Qed.

(** *** Clients of the allocator *)

(** What the rest of the kernel does with pages; the set holds the pages that
    are allocated.  A client writes only to its pages and frees only them. *)
Inductive client : guarded kmem * gset Z -> guarded kmem * gset Z -> Prop :=
  | cl_alloc s A r s' : kalloc s = Ret (r, s') ->
      client (s, A) (s', if decide (r = 0)%Z then A else {[r]} ∪ A)
  | cl_free s A v s' : v ∈ A -> kfree v s = Ret (tt, s') -> client (s, A) (s', A ∖ {[v]})
  | cl_write b d A v a x : v ∈ A -> (v <= a < v + PGSIZE)%Z ->
      client (free b d, A) (free b (mkKmem (use_lock d) (freelist d) (store a x (mem d))), A).

Inductive clients : guarded kmem * gset Z -> guarded kmem * gset Z -> Prop :=
  | cls_refl x : clients x x
  | cls_step x y z : clients x y -> client y z -> clients x z.

(** The free and the allocated pages partition the pages [P]. *)
Definition split_inv (P : gset Z) (x : guarded kmem * gset Z) : Prop :=
  exists b d fl, fst x = free b d /\ kmem_inv d fl /\ snd x ## list_to_set fl /\
    snd x ∪ list_to_set fl = P /\ forall v, v ∈ snd x -> page_ok v.

Lemma split_inv_step P x y : split_inv P x -> client x y -> split_inv P y.
Proof.
  intros (b & d & fl & Hs & Hinv & Hdis & HP & Hpg) Hc.
  destruct Hc as [s A r s' Hk|s A v s' Hv Hk|b' d' A v a x Hv Ha]; cbn in *.
  - subst s. assert (Hw : wp kalloc (fun r s' => split_inv P (s', if decide (r = 0)%Z then A else {[r]} ∪ A)) (free b d)).
    { eapply wp_kalloc; [done| |].
      - intros ->. rewrite decide_True by done. by exists b, d, [].
      - intros p fl' ->. pose proof (kalloc_inv _ _ _ Hinv) as Hinv'. destruct Hinv as [_ Hn Hp].
        apply NoDup_cons in Hn as [Hnin Hn]. apply Forall_cons in Hp as [Hp _].
        rewrite decide_False by by apply page_ok_nonzero. eexists b, _, fl'. cbn in *.
        split_and!; [done|done| | |]; [set_solver|set_solver|]. intros v [->%elem_of_singleton|]%elem_of_union; auto. }
    by pose proof (wp_elim _ _ _ _ _ Hw Hk).
  - subst s. assert (Hw : wp (kfree v) (fun _ s' => split_inv P (s', A ∖ {[v]})) (free b d)).
    { eapply wp_kfree; [by apply Hpg|reflexivity|]. eexists b, _, (v :: fl). cbn.
      split_and!; [done|apply kfree_inv; [done|by apply Hpg|set_solver]|set_solver| |set_solver].
      rewrite <- HP. apply set_eq. intros q. destruct (decide (q = v)); set_solver. }
    by pose proof (wp_elim _ _ _ _ _ Hw Hk).
  - unfold free in Hs. simplify_eq. eexists b, _, fl. cbn. split_and!; [done| |done..].
    destruct Hinv as [Hch Hn Hp]. constructor; cbn; [|done..].
    eapply chain_ext; [|exact Hch]. intros p Hpf. unfold store. rewrite decide_False; [done|]. intros <-.
    assert (page_ok p) by (rewrite Forall_forall in Hp; by apply Hp).
    eapply (page_disjoint v p); [by apply Hpg|done| |done]. intros ->. set_solver.
Qed.

Lemma split_inv_steps P x y : split_inv P x -> clients x y -> split_inv P y.
Proof. intros Hx Hc. induction Hc as [|x y z _ IH Hs]; [done|]. eapply split_inv_step; [by apply IH|done]. Qed.

(** *** freerange *)

(** The [n] pages from [p] on, last one first. *)
Fixpoint pages (p : Z) (n : nat) : list Z :=
  match n with
  | O => []
  | S n => pages (p + PGSIZE) n ++ [p]
  end.

Lemma pages_elem p n q : q ∈ pages p n <-> exists k, k < n /\ q = (p + Z.of_nat k * PGSIZE)%Z.
Proof.
  revert p. induction n as [|n IH]; intros p; cbn.
  - rewrite elem_of_nil. split; [done|]. intros (k & ? & _). lia.
  - rewrite elem_of_app, list_elem_of_singleton, IH. split.
    + intros [(k & Hk & ->)| ->]; [exists (S k); split; [lia|lia]|exists 0; split; [lia|lia]].
    + intros ([|k] & Hk & ->); [right; lia|left; exists k; split; lia].
Qed.

Lemma wp_freerange_loop n fuel p vend b d fl (Q : unit -> guarded kmem -> Prop) :
  n < fuel -> kmem_inv d fl ->
  (forall k, k < n -> page_ok (p + Z.of_nat k * PGSIZE) /\ (p + Z.of_nat k * PGSIZE)%Z ∉ fl) ->
  (0 < n -> (p + Z.of_nat n * PGSIZE <= vend)%Z) -> (vend < p + Z.of_nat n * PGSIZE + PGSIZE)%Z ->
  (forall d', use_lock d' = use_lock d -> kmem_inv d' (pages p n ++ fl) ->
     (forall a, ~ (p <= a < p + Z.of_nat n * PGSIZE)%Z -> mem d' a = mem d a) -> Q tt (free b d')) ->
  wp (freerange_loop fuel p vend) Q (free b d).
Proof.
  revert fuel p d fl. induction n as [|n IH]; intros fuel p d fl Hf Hinv Hpg Hlo Hend HQ;
    (destruct fuel as [|fuel]; [lia|]); cbn [freerange_loop].
  - rewrite decide_False by (unfold PGSIZE in *; lia). lk_step. by apply HQ.
  - rewrite decide_True by (unfold PGSIZE in *; lia). lk_step.
    destruct (Hpg 0 ltac:(lia)) as [Hp0 Hn0]. rewrite Z.add_0_r in Hp0, Hn0.
    eapply wp_kfree; [done|reflexivity|].
    apply (IH fuel (p + PGSIZE)%Z _ (p :: fl)); [lia|by apply kfree_inv| | | |].
    + intros k Hk. destruct (Hpg (S k) ltac:(lia)) as [H1 H2].
      replace (p + Z.of_nat (S k) * PGSIZE)%Z with (p + PGSIZE + Z.of_nat k * PGSIZE)%Z in * by lia.
      split; [done|]. rewrite not_elem_of_cons. split; [unfold PGSIZE; lia|done].
    + unfold PGSIZE in *. lia.
    + unfold PGSIZE in *. lia.
    + intros d' Hu Hd' Hm. apply HQ; [done|cbn; by rewrite <- app_assoc|]. intros a Ha. unfold PGSIZE in *. rewrite Hm by lia.
      cbn. unfold freed, store, fill_junk, PGSIZE. by rewrite !decide_False by lia.
Qed.

End Kalloc.

Lemma PGROUNDUP_spec a : PGROUNDUP a = ((a + 4095) / 4096 * 4096)%Z.
Proof.
  unfold PGROUNDUP, PGSIZE. rewrite <- Z.ldiff_land. change (4096 - 1)%Z with (Z.ones 12).
  rewrite Z.ldiff_ones_r, Z.shiftl_mul_pow2, Z.shiftr_div_pow2 by lia.
  change (2 ^ 12)%Z with 4096%Z. change (Z.ones 12) with 4095%Z. by replace (a + 4096 - 1)%Z with (a + 4095)%Z by lia.
Qed.

(** The pages that lie inside a range. *)
Definition inside (vstart vend q : Z) : Prop := (q mod PGSIZE = 0 /\ vstart <= q /\ q + PGSIZE <= vend)%Z.

Lemma wp_freerange kend me vstart vend b d fl (Q : unit -> guarded kmem -> Prop) :
  (KERNBASE < kend)%Z -> (kend <= vstart)%Z -> (vend <= KERNBASE + PHYSTOP)%Z -> kmem_inv kend d fl -> (forall q, inside vstart vend q -> q ∉ fl) ->
  (forall d' l, use_lock d' = use_lock d -> kmem_inv kend d' (l ++ fl) -> (forall q, q ∈ l <-> inside vstart vend q) ->
     (forall a, ~ (vstart <= a < vend)%Z -> mem d' a = mem d a) -> Q tt (free b d')) ->
  wp (freerange kend me vstart vend) Q (free b d).
Proof.
  intros Hk Hs He Hinv Hnew HQ. unfold freerange. set (p := PGROUNDUP vstart).
  assert (Hp : (p mod 4096 = 0 /\ vstart <= p < vstart + 4096)%Z).
  { unfold p. rewrite PGROUNDUP_spec. split; [by apply Z.mod_mul|].
    pose proof (Z.div_mod (vstart + 4095) 4096 ltac:(lia)). pose proof (Z.mod_pos_bound (vstart + 4095) 4096 ltac:(lia)). lia. }
  destruct Hp as [Hp0 Hp1]. set (n := Z.to_nat ((vend - p) / PGSIZE)).
  assert (Hn : (Z.of_nat n = Z.max 0 ((vend - p) / 4096))%Z) by (unfold n, PGSIZE; lia).
  pose proof (Z.div_mod (vend - p) 4096 ltac:(lia)). pose proof (Z.mod_pos_bound (vend - p) 4096 ltac:(lia)).
  assert (Hin : forall k, k < n -> inside vstart vend (p + Z.of_nat k * PGSIZE)).
  { intros k Hkn. unfold inside, PGSIZE. split; [rewrite Z.mod_add by lia; done|lia]. }
  eapply (wp_freerange_loop kend me Hk n _ p vend b d fl); [lia|done| |unfold PGSIZE; lia|unfold PGSIZE; lia|].
  - intros k Hkn. destruct (Hin k Hkn) as (Hm & H1 & H2). split; [split; [done|unfold PGSIZE in *; lia]|by apply Hnew, Hin].
  - intros d' Hu Hd' Hm. apply (HQ d' (pages p n)); [done|done| |intros a Ha; apply Hm; unfold PGSIZE; lia].
    intros q. rewrite pages_elem. split; [intros (k & Hkn & ->); by apply Hin|]. intros (Hq & H1 & H2). unfold PGSIZE in *.
    pose proof (Z.div_mod q 4096 ltac:(lia)). pose proof (Z.div_mod p 4096 ltac:(lia)).
    exists (Z.to_nat ((q - p) / 4096)). assert (q - p = (q / 4096 - p / 4096) * 4096)%Z as Hqp by lia.
    rewrite Hqp, Z.div_mul by lia. lia.
Qed.

(** [kinit1] puts exactly the page frames that lie inside the given range on
    the free list, each once, and returns; the allocator's invariant holds. *)
Theorem kinit1_frees_range kend me vstart vend b s :
  (KERNBASE < kend)%Z -> (kend <= vstart)%Z -> (vend <= KERNBASE + PHYSTOP)%Z ->
  l_cpu s = mkCpu 0 b b -> freelist (l_data s) = 0%Z ->
  exists d fl, kinit1 kend me vstart vend s = Ret (tt, free b d) /\ kmem_inv kend d fl /\
    forall q, q ∈ fl <-> (q mod PGSIZE = 0 /\ vstart <= q /\ q + PGSIZE <= vend)%Z.
Proof.
  intros Hk Hs He Hc Hf. unfold kinit1. rewrite Hc, Hf. fold (free b (mkKmem false 0 (mem (l_data s)))).
  destruct (proj1 (wp_Ret (freerange kend me vstart vend) (fun _ s' => exists d l, s' = free b d /\ kmem_inv kend d l /\
    forall q, q ∈ l <-> inside vstart vend q) (free b (mkKmem false 0 (mem (l_data s)))))) as ([] & s' & Hx & d & l & -> & Hd & Hl); [|eauto].
  eapply (wp_freerange _ _ _ _ _ _ []); [done..|constructor; [done|apply NoDup_nil_2|by constructor]|intros; apply not_elem_of_nil|].
  intros d' l _ Hd' Hl _. rewrite app_nil_r in Hd'. eauto.
Qed.

Lemma kinit1_frees_range_witness :
  exists d fl, kinit1 2148532224 0 2148532225 2148544512 (free true (mkKmem true 0 (fun _ => 0%Z))) = Ret (tt, free true d) /\
    kmem_inv 2148532224 d fl /\
    forall q, q ∈ fl <-> (q mod PGSIZE = 0 /\ 2148532225 <= q /\ q + PGSIZE <= 2148544512)%Z.
Proof. apply (kinit1_frees_range 2148532224 0 2148532225 2148544512 true); [unfold KERNBASE, PHYSTOP; cbn; lia..|reflexivity|reflexivity]. Defined.

(** C18. The allocator never hands out a page twice: whatever sequence of
    allocations, frees of allocated pages and writes into allocated pages the
    clients perform, [kalloc] returns a page that is not allocated, or 0 exactly
    when every page is; a [kfree] of an allocated page returns. *)
Theorem kalloc_exclusive kend me b d fl s A :
  (KERNBASE < kend)%Z -> kmem_inv kend d fl ->
  clients kend me (free b d, ∅) (s, A) ->
  (exists r s', kalloc me s = Ret (r, s') /\ (r = 0%Z <-> A = list_to_set fl) /\
     (r <> 0%Z -> r ∈ fl /\ r ∉ A)) /\
  (forall v, v ∈ A -> exists s', kfree kend me v s = Ret (tt, s')).
Proof.
  intros Hk Hinv Hc. set (P := list_to_set fl : gset Z).
  destruct (split_inv_steps kend me Hk P (free b d, ∅) (s, A)) as (b' & d' & fl' & Hs & Hinv' & Hdis & HP & Hpg); [|done|].
  { exists b, d, fl. cbn. split_and!; set_solver. }
  cbn in *. subst s. split.
  - apply wp_Ret. eapply wp_kalloc; [done..| |].
    + intros ->. split; [|done]. split; [|done]. intros _. rewrite <- HP. set_solver.
    + intros p fl'' ->. destruct Hinv' as [_ _ Hp]. apply Forall_cons in Hp as [Hp _].
      pose proof (page_ok_nonzero kend Hk p Hp). split.
      * split; [done|]. intros HA. exfalso. assert (p ∈ A) by (rewrite HA; fold P; rewrite <- HP; set_solver). set_solver.
      * intros _. split; [|set_solver]. assert (p ∈ P) by (rewrite <- HP; set_solver). by apply elem_of_list_to_set in H0.
  - intros v Hv. destruct (proj1 (wp_Ret (kfree kend me v) (fun _ _ => True) (free b' d'))) as ([] & s' & Hx & _).
    { eapply wp_kfree; [done|by apply Hpg|reflexivity|done]. }
    eauto.
Qed.

Lemma kalloc_exclusive_witness :
  let d := mkKmem true 2148532224 (fun _ => 0%Z) in
  (exists r s', kalloc 0 (free true d) = Ret (r, s') /\ (r = 0%Z <-> (∅ : gset Z) = list_to_set [2148532224%Z]) /\
     (r <> 0%Z -> r ∈ [2148532224%Z] /\ r ∉ (∅ : gset Z))) /\
  (forall v, v ∈ (∅ : gset Z) -> exists s', kfree 2148532224 0 v (free true d) = Ret (tt, s')).
Proof.
  apply (kalloc_exclusive 2148532224 0 true (mkKmem true 2148532224 (fun _ => 0%Z)) [2148532224%Z]); [done| |constructor].
  constructor; [done|apply NoDup_singleton|]. apply Forall_singleton. split; [done|]. cbv. by split.
Defined.

End Kalloc.
