(* ===== verification/Pipe.v ===== *)
(** * Pipes

    Models [src/xv6-public/pipe.c]: the ring buffer with its free-running 32-bit
    counters, the loops of [pipewrite] and [piperead] up to the point where they
    sleep (they are entered again when the process is woken up), and
    [pipeclose].  The processes asleep on [&p->nread] and [&p->nwrite] are part
    of the state. *)
From S2P Require Export Spinlock.

Module Pipe.
Import Spin Locked.

Definition PIPESIZE : Z := 512.

(** [struct pipe], the sleepers on its two channels, and whether its page has
    been freed. *)
Record pipe := mkPipe {
  data : list Z;
  nread : Z;
  nwrite : Z;
  readopen : bool;
  writeopen : bool;
  rsleep : gset nat;
  wsleep : gset nat;
  freed : bool
}.

(** [pipealloc]'s initialisation of a page with contents [page]. *)
Definition pipe_init (page : list Z) : pipe := mkPipe page 0 0 true true ∅ ∅ false.

(** How a pass of [pipewrite] ends: all bytes written (it returns [n]), -1 with
    these bytes not written, or asleep with these bytes to go. *)
Inductive wres := WDone | WFail (rest : list Z) | WSleep (rest : list Z).
(** [piperead]: the bytes read, -1, or asleep. *)
Inductive rres := RDone (bytes : list Z) | RFail | RSleep.

Section Pipe.
Context (me : nat).
Definition pm A := stm (guarded pipe) A.

(** [wakeup(&p->nread)] and [wakeup(&p->nwrite)]. *)
Definition wake_readers : pm unit :=
  d ← getd; setd (mkPipe (data d) (nread d) (nwrite d) (readopen d) (writeopen d) ∅ (wsleep d) (freed d)).
Definition wake_writers : pm unit :=
  d ← getd; setd (mkPipe (data d) (nread d) (nwrite d) (readopen d) (writeopen d) (rsleep d) ∅ (freed d)).
(** [sleep(&p->nread, &p->lock)] and [sleep(&p->nwrite, &p->lock)] by [pid]:
    the lock is released. *)
Definition sleep_read (pid : nat) : pm unit :=
  d ← getd;
  setd (mkPipe (data d) (nread d) (nwrite d) (readopen d) (writeopen d) ({[pid]} ∪ rsleep d) (wsleep d) (freed d)) ;;
  lk_release me.
Definition sleep_write (pid : nat) : pm unit :=
  d ← getd;
  setd (mkPipe (data d) (nread d) (nwrite d) (readopen d) (writeopen d) (rsleep d) ({[pid]} ∪ wsleep d) (freed d)) ;;
  lk_release me.

Definition pipe_full (d : pipe) : bool := bool_decide (nwrite d = uint32 (nread d + PIPESIZE)).
Definition pipe_empty (d : pipe) : bool := bool_decide (nread d = nwrite d).

(** [p->data\[p->nwrite++ % PIPESIZE\] = c]. *)
Definition push (c : Z) (d : pipe) : outcome pipe :=
  a ← wr (data d) (Z.to_nat (nwrite d mod PIPESIZE)) c;
  Ret (mkPipe a (nread d) (uint32 (nwrite d + 1)) (readopen d) (writeopen d) (rsleep d) (wsleep d) (freed d)).
(** [addr\[i\] = p->data\[p->nread++ % PIPESIZE\]]. *)
Definition pop (d : pipe) : outcome (Z * pipe) :=
  c ← rd (data d) (Z.to_nat (nread d mod PIPESIZE));
  Ret (c, mkPipe (data d) (uint32 (nread d + 1)) (nwrite d) (readopen d) (writeopen d) (rsleep d) (wsleep d) (freed d)).

Definition pushm (c : Z) : pm unit := fun s => d ← push c (l_data s); Ret (tt, mkL (l_lock s) (l_cpu s) d).
Definition popm : pm Z := fun s => '(c, d) ← pop (l_data s); Ret (c, mkL (l_lock s) (l_cpu s) d).

(** The loop of [pipewrite] over the bytes still to be written. *)
Fixpoint pipewrite_loop (pid : nat) (killed : bool) (rest : list Z) : pm wres :=
  match rest with
  | [] => wake_readers ;; lk_release me ;; mret WDone
  | c :: rest' =>
      d ← getd;
      if pipe_full d then
        if (negb (readopen d) || killed)%bool then lk_release me ;; mret (WFail rest)
        else wake_readers ;; sleep_write pid ;; mret (WSleep rest)
      else pushm c ;; pipewrite_loop pid killed rest'
  end.

(** [pipewrite], from its start or from its return from [sleep]. *)
Definition pipewrite (pid : nat) (killed : bool) (rest : list Z) : pm wres :=
  lk_acquire me ;; pipewrite_loop pid killed rest.

(** The copying loop of [piperead]. *)
Fixpoint piperead_loop (n : nat) : pm (list Z) :=
  match n with
  | O => mret []
  | S n =>
      d ← getd;
      if pipe_empty d then mret []
      else c ← popm; l ← piperead_loop n; mret (c :: l)
  end.

Definition piperead (pid : nat) (killed : bool) (n : nat) : pm rres :=
  lk_acquire me ;;
  d ← getd;
  if (pipe_empty d && writeopen d)%bool then
    if killed then lk_release me ;; mret RFail
    else sleep_read pid ;; mret RSleep
  else
    l ← piperead_loop n;
    wake_writers ;;
    lk_release me ;;
    mret (RDone l).

Definition pipeclose (writable : bool) : pm unit :=
  lk_acquire me ;;
  d ← getd;
  (if writable then
     setd (mkPipe (data d) (nread d) (nwrite d) (readopen d) false (rsleep d) (wsleep d) (freed d)) ;; wake_readers
   else
     setd (mkPipe (data d) (nread d) (nwrite d) false (writeopen d) (rsleep d) (wsleep d) (freed d)) ;; wake_writers) ;;
  d ← getd;
  if (negb (readopen d) && negb (writeopen d))%bool then
    lk_release me ;;
    d ← getd;
    setd (mkPipe (data d) (nread d) (nwrite d) (readopen d) (writeopen d) (rsleep d) (wsleep d) true)
  else lk_release me.

(** ** The queue in the ring *)

Definition qlen (d : pipe) : Z := uint32 (nwrite d - nread d).

(** The bytes in the pipe, oldest first. *)
Definition queue (d : pipe) : list Z :=
  (fun k => nth (Z.to_nat ((nread d + Z.of_nat k) mod PIPESIZE)) (data d) 0%Z) <$> seq 0 (Z.to_nat (qlen d)).

(** The counters and the capacity. *)
Record pipe_ok (d : pipe) : Prop := {
  k_len : length (data d) = Z.to_nat PIPESIZE;
  k_rd : (0 <= nread d < 4294967296)%Z;
  k_wr : (0 <= nwrite d < 4294967296)%Z;
  k_cap : (qlen d <= PIPESIZE)%Z
}.

(** No lost wakeup: a reader sleeps only on an empty pipe, a writer only on a
    full one, and both ends are open then. *)
Definition readers_ok (d : pipe) : Prop :=
  rsleep d <> ∅ -> qlen d = 0%Z /\ readopen d = true /\ writeopen d = true.
Definition writers_ok (d : pipe) : Prop :=
  wsleep d <> ∅ -> qlen d = PIPESIZE /\ readopen d = true /\ writeopen d = true.

Lemma qlen_bounds d : (0 <= qlen d)%Z.
Proof. unfold qlen, uint32. apply Z.mod_pos_bound. lia. Qed.

Lemma length_queue d : length (queue d) = Z.to_nat (qlen d).
Proof. unfold queue. by rewrite length_fmap, length_seq. Qed.

(** [nwrite] in terms of [nread]. *)
Lemma nwrite_qlen d : pipe_ok d -> nwrite d = uint32 (nread d + qlen d).
Proof.
  intros []. unfold qlen, uint32. rewrite Zplus_mod_idemp_r.
  replace (nread d + (nwrite d - nread d))%Z with (nwrite d) by lia. by rewrite Z.mod_small.
Qed.

Lemma pipe_empty_spec d : pipe_ok d -> pipe_empty d = bool_decide (qlen d = 0)%Z.
Proof.
  intros []. unfold pipe_empty, qlen, uint32. apply bool_decide_ext. split.
  - intros ->. by rewrite Z.sub_diag.
  - intros Hq. apply Z.mod_divide in Hq as [z Hz]; lia.
Qed.

Lemma pipe_full_spec d : pipe_ok d -> pipe_full d = bool_decide (qlen d = PIPESIZE)%Z.
Proof.
  intros Hok. pose proof (nwrite_qlen d Hok) as Hw. pose proof (qlen_bounds d). destruct Hok as [_ Hr _ Hc].
  unfold pipe_full. apply bool_decide_ext. split; [|by intros <-].
  intros He. rewrite He in Hw. unfold uint32, PIPESIZE in *.
  assert ((nread d + 512 - (nread d + qlen d)) mod 4294967296 = 0)%Z as Hd.
  { rewrite Zminus_mod, Hw, Z.sub_diag. done. }
  apply Z.mod_divide in Hd as [z Hz]; lia.
Qed.

Lemma uint32_mod_size z : (uint32 z mod PIPESIZE = z mod PIPESIZE)%Z.
Proof. unfold uint32, PIPESIZE. symmetry. apply Znumtheory.Zmod_div_mod; [lia|lia|]. by exists 8388608%Z. Qed.

Lemma uint32_succ_qlen a b : uint32 (uint32 (a + 1) - b) = uint32 (a - b + 1).
Proof. unfold uint32. rewrite Zminus_mod_idemp_l. f_equal. lia. Qed.

(** Two slots of the ring less than [PIPESIZE] apart are different. *)
Lemma slot_ne a j k :
  (0 <= j < k)%Z -> (k < PIPESIZE)%Z ->
  Z.to_nat ((a + j) mod PIPESIZE) <> Z.to_nat ((a + k) mod PIPESIZE).
Proof.
  unfold PIPESIZE. intros Hj Hk He. pose proof (Z.mod_pos_bound (a + j) 512 ltac:(lia)).
  pose proof (Z.mod_pos_bound (a + k) 512 ltac:(lia)).
  assert (((a + k) - (a + j)) mod 512 = 0)%Z as Hd.
  { rewrite Zminus_mod. replace ((a + k) mod 512)%Z with ((a + j) mod 512)%Z by lia. by rewrite Z.sub_diag. }
  apply Z.mod_divide in Hd as [z Hz]; lia.
Qed.

Lemma push_spec c d :
  pipe_ok d -> (qlen d < PIPESIZE)%Z ->
  exists d', push c d = Ret d' /\ pipe_ok d' /\ queue d' = queue d ++ [c] /\ qlen d' = (qlen d + 1)%Z /\
    readopen d' = readopen d /\ writeopen d' = writeopen d /\ rsleep d' = rsleep d /\ wsleep d' = wsleep d.
Proof.
  intros Hok Hq. pose proof (nwrite_qlen d Hok) as Hw. pose proof (qlen_bounds d) as Hq0. destruct Hok as [Hl Hr Hwb Hc].
  set (i := Z.to_nat (nwrite d mod PIPESIZE)).
  assert (Hi : i = Z.to_nat ((nread d + qlen d) mod PIPESIZE)).
  { unfold i. rewrite Hw. by rewrite uint32_mod_size. }
  assert (Hlt : i < length (data d)).
  { rewrite Hl. unfold i, PIPESIZE. pose proof (Z.mod_pos_bound (nwrite d) 512 ltac:(lia)). lia. }
  assert (Hql : qlen (mkPipe (<[i:=c]> (data d)) (nread d) (uint32 (nwrite d + 1)) (readopen d) (writeopen d)
                   (rsleep d) (wsleep d) (freed d)) = (qlen d + 1)%Z).
  { unfold qlen at 1. cbn. rewrite uint32_succ_qlen. unfold qlen, uint32, PIPESIZE in *.
    rewrite <- Zplus_mod_idemp_l. apply Z.mod_small. lia. }
  eexists. split_and!; [unfold push; fold i; rewrite wr_lt by done; reflexivity|..]; try done.
  - constructor; cbn [data nread nwrite]; [by rewrite length_insert|done| |rewrite Hql; lia].
    unfold uint32. apply Z.mod_pos_bound. lia.
  - unfold queue at 1. rewrite Hql. cbn [data nread].
    replace (Z.to_nat (qlen d + 1)) with (Z.to_nat (qlen d) + 1) by lia.
    rewrite seq_app, fmap_app. f_equal.
    + apply list_fmap_ext. intros j k Hk. apply lookup_seq in Hk as [-> Hk].
      rewrite !nth_lookup, list_lookup_insert_ne; [done|]. rewrite Hi. symmetry. apply slot_ne; lia.
    + cbn. rewrite Z2Nat.id by lia. rewrite <- Hi. by rewrite nth_lookup, list_lookup_insert_eq.
Qed.

Lemma pop_spec d :
  pipe_ok d -> (0 < qlen d)%Z ->
  exists c d', pop d = Ret (c, d') /\ pipe_ok d' /\ queue d = c :: queue d' /\ qlen d' = (qlen d - 1)%Z /\
    readopen d' = readopen d /\ writeopen d' = writeopen d /\ rsleep d' = rsleep d /\ wsleep d' = wsleep d.
Proof.
  intros [Hl Hr Hwb Hc] Hq.
  assert (Hlt : Z.to_nat (nread d mod PIPESIZE) < length (data d)).
  { rewrite Hl. unfold PIPESIZE. pose proof (Z.mod_pos_bound (nread d) 512 ltac:(lia)). lia. }
  destruct (rd_lt _ _ Hlt) as (c & Hc' & Hrd).
  set (d' := mkPipe (data d) (uint32 (nread d + 1)) (nwrite d) (readopen d) (writeopen d) (rsleep d) (wsleep d) (freed d)).
  assert (Hql : qlen d' = (qlen d - 1)%Z).
  { unfold d', qlen in *. cbn. unfold uint32, PIPESIZE in *. rewrite Zminus_mod_idemp_r.
    replace (nwrite d - (nread d + 1))%Z with (nwrite d - nread d - 1)%Z by lia.
    rewrite <- Zminus_mod_idemp_l. apply Z.mod_small. lia. }
  exists c, d'. split_and!; try done.
  - unfold pop. by rewrite Hrd.
  - constructor; [done| |done|rewrite Hql; lia]. cbn. unfold uint32. apply Z.mod_pos_bound. lia.
  - unfold queue. rewrite Hql. replace (Z.to_nat (qlen d)) with (S (Z.to_nat (qlen d - 1))) by lia.
    cbn [seq fmap list_fmap]. rewrite Z.add_0_r. f_equal; [by rewrite nth_lookup, Hc'|].
    rewrite <- fmap_S_seq, <- list_fmap_compose. apply list_fmap_ext. intros j k _. cbn [nread data d' compose].
    do 2 f_equal. rewrite <- (Zplus_mod_idemp_l (uint32 _)), uint32_mod_size, Zplus_mod_idemp_l. f_equal. lia.
Qed.

Lemma queue_empty d : qlen d = 0%Z -> queue d = [].
Proof. intros Hq. unfold queue. by rewrite Hq. Qed.

(** ** What the operations do *)

(** The fields the operations on the ring leave alone. *)
Definition same_ends (d d' : pipe) : Prop :=
  readopen d' = readopen d /\ writeopen d' = writeopen d.

Lemma wp_pushm c b d (Q : unit -> guarded pipe -> Prop) :
  pipe_ok d -> (qlen d < PIPESIZE)%Z ->
  (forall d', pipe_ok d' -> queue d' = queue d ++ [c] -> qlen d' = (qlen d + 1)%Z -> same_ends d d' ->
     rsleep d' = rsleep d -> wsleep d' = wsleep d -> Q tt (held me b d')) ->
  wp (pushm c) Q (held me b d).
Proof.
  intros Hok Hq HQ. destruct (push_spec c d Hok Hq) as (d' & Hp & ? & ? & ? & ? & ? & ? & ?).
  unfold wp, pushm. cbn [l_data held]. rewrite Hp. apply (HQ d'); [done..|by split|done|done].
Qed.

Lemma wp_popm b d (Q : Z -> guarded pipe -> Prop) :
  pipe_ok d -> (0 < qlen d)%Z ->
  (forall c d', pipe_ok d' -> queue d = c :: queue d' -> qlen d' = (qlen d - 1)%Z -> same_ends d d' ->
     rsleep d' = rsleep d -> wsleep d' = wsleep d -> Q c (held me b d')) ->
  wp popm Q (held me b d).
Proof.
  intros Hok Hq HQ. destruct (pop_spec d Hok Hq) as (c & d' & Hp & ? & ? & ? & ? & ? & ? & ?).
  unfold wp, popm. cbn [l_data held]. rewrite Hp. apply (HQ c d'); [done..|by split|done|done].
Qed.

(** Changing the sleepers only. *)
Definition with_sleepers (r w : gset nat) (d : pipe) : pipe :=
  mkPipe (data d) (nread d) (nwrite d) (readopen d) (writeopen d) r w (freed d).

Lemma with_sleepers_ok r w d : pipe_ok d -> pipe_ok (with_sleepers r w d).
Proof. intros []. by constructor. Qed.

(** The result of a pass of [pipewrite]. *)
Definition write_post (pid : nat) (killed : bool) (rest : list Z) (d : pipe) (r : wres) (d' : pipe) : Prop :=
  exists stored rest', rest = stored ++ rest' /\ queue d' = queue d ++ stored /\ same_ends d d' /\
  match r with
  | WDone => rest' = [] /\ rsleep d' = ∅ /\ wsleep d' = wsleep d
  | WFail l => l = rest' /\ rest' <> [] /\ qlen d' = PIPESIZE /\ (readopen d = false \/ killed = true) /\
      rsleep d' = rsleep d /\ wsleep d' = wsleep d
  | WSleep l => l = rest' /\ rest' <> [] /\ qlen d' = PIPESIZE /\ readopen d = true /\ killed = false /\
      rsleep d' = ∅ /\ wsleep d' = {[pid]} ∪ wsleep d
  end.

Lemma wp_pipewrite_loop pid killed rest b d (Q : wres -> guarded pipe -> Prop) :
  pipe_ok d -> writers_ok d ->
  (forall r d', pipe_ok d' -> write_post pid killed rest d r d' ->
     (qlen d' <> PIPESIZE -> wsleep d' = ∅) -> Q r (free b d')) ->
  wp (pipewrite_loop pid killed rest) Q (held me b d).
Proof.
  revert d Q. induction rest as [|c rest IH]; intros d Q Hok Hw HQ; cbn [pipewrite_loop].
  - unfold wake_readers. lk_steps. apply (HQ WDone (with_sleepers ∅ (wsleep d) d)); [by apply with_sleepers_ok| |].
    + exists [], []. rewrite !app_nil_r. done.
    + cbn. intros Hq. destruct (decide (wsleep d = ∅)); [done|]. by destruct (Hw n).
  - lk_steps. rewrite pipe_full_spec by done. case_bool_decide as Hf.
    + destruct (negb (readopen d) || killed)%bool eqn:Hk.
      * lk_steps. apply (HQ (WFail (c :: rest)) d); [done| |done]. exists [], (c :: rest). rewrite app_nil_r.
        split_and!; try done. apply orb_true_iff in Hk as [Hk%negb_true_iff|Hk]; auto.
      * apply orb_false_iff in Hk as [Hk%negb_false_iff ->]. unfold wake_readers, sleep_write. lk_steps.
        apply (HQ (WSleep (c :: rest)) (with_sleepers ∅ ({[pid]} ∪ wsleep d) d)); [by apply with_sleepers_ok| |done].
        exists [], (c :: rest). rewrite app_nil_r. done.
    + assert (qlen d < PIPESIZE)%Z as Hlt by (destruct Hok; lia). lk_step.
      apply wp_pushm; [done..|]. intros d1 Hok1 Hq1 Hl1 [Hr1 Hw1] Hrs Hws.
      assert (wsleep d1 = ∅) as Hws0.
      { rewrite Hws. destruct (decide (wsleep d = ∅)); [done|]. by destruct (Hw n). }
      apply IH; [done|by intros ?|]. intros r d2 Hok2 (st & rest' & -> & Hq2 & [Hr2 Hw2] & Hp) Hws2.
      apply HQ; [done| |done]. exists (c :: st), rest'. split_and!; [done| |by split; congruence|].
      * rewrite Hq2, Hq1, <- app_assoc. done.
      * rewrite Hr1, Hrs, Hws in Hp. done.
Qed.

Lemma wp_piperead_loop n b d (Q : list Z -> guarded pipe -> Prop) :
  pipe_ok d ->
  (forall d', pipe_ok d' -> queue d' = drop n (queue d) -> same_ends d d' -> rsleep d' = rsleep d ->
     Q (take n (queue d)) (held me b d')) ->
  wp (piperead_loop n) Q (held me b d).
Proof.
  revert d Q. induction n as [|n IH]; intros d Q Hok HQ; cbn [piperead_loop].
  - lk_steps. by apply HQ.
  - lk_steps. rewrite pipe_empty_spec by done. case_bool_decide as He.
    + lk_steps. specialize (HQ d Hok). rewrite queue_empty in HQ by done. by apply HQ.
    + assert (0 < qlen d)%Z by (pose proof (qlen_bounds d); lia). lk_step.
      apply wp_popm; [done..|]. intros c d1 Hok1 Hq1 _ [Hr1 Hw1] Hrs Hws. lk_step.
      apply IH; [done|]. intros d2 Hok2 Hq2 [Hr2 Hw2] Hrs2. lk_steps. rewrite Hq1 in HQ.
      apply HQ; [done|done|by split; congruence|congruence].
Qed.

Lemma wp_pipewrite pid killed rest b d (Q : wres -> guarded pipe -> Prop) :
  pipe_ok d -> writers_ok d ->
  (forall r d', pipe_ok d' -> write_post pid killed rest d r d' ->
     (qlen d' <> PIPESIZE -> wsleep d' = ∅) -> Q r (free b d')) ->
  wp (pipewrite pid killed rest) Q (free b d).
Proof. intros. unfold pipewrite. lk_steps. by apply wp_pipewrite_loop. Qed.

(** The result of [piperead]. *)
Definition read_post (pid : nat) (killed : bool) (n : nat) (d : pipe) (r : rres) (d' : pipe) : Prop :=
  same_ends d d' /\
  match r with
  | RDone l => (qlen d <> 0%Z \/ writeopen d = false) /\ l = take n (queue d) /\ queue d' = drop n (queue d) /\
      rsleep d' = rsleep d /\ wsleep d' = ∅
  | RFail => qlen d = 0%Z /\ writeopen d = true /\ killed = true /\ d' = d
  | RSleep => qlen d = 0%Z /\ writeopen d = true /\ d' = with_sleepers ({[pid]} ∪ rsleep d) (wsleep d) d
  end.

Lemma wp_piperead pid killed n b d (Q : rres -> guarded pipe -> Prop) :
  pipe_ok d -> (forall r d', pipe_ok d' -> read_post pid killed n d r d' -> Q r (free b d')) ->
  wp (piperead pid killed n) Q (free b d).
Proof.
  intros Hok HQ. unfold piperead. lk_steps. rewrite pipe_empty_spec by done.
  destruct (bool_decide (qlen d = 0)%Z && writeopen d)%bool eqn:He.
  - apply andb_true_iff in He as [He%bool_decide_eq_true Hw]. destruct killed.
    + lk_steps. by apply (HQ RFail d).
    + unfold sleep_read. lk_steps. by apply (HQ RSleep (with_sleepers ({[pid]} ∪ rsleep d) (wsleep d) d)); [apply with_sleepers_ok|].
  - lk_step. apply wp_piperead_loop; [done|]. intros d1 Hok1 Hq1 [Hr1 Hw1] Hrs1. unfold wake_writers. lk_steps.
    apply (HQ (RDone _) (with_sleepers (rsleep d1) ∅ d1)); [by apply with_sleepers_ok|].
    split; [done|]. split_and!; try done.
    apply andb_false_iff in He as [He%bool_decide_eq_false|He]; auto.
Qed.

Lemma wp_pipeclose (w b : bool) d (Q : unit -> guarded pipe -> Prop) :
  Q tt (free b (let d1 := if w then mkPipe (data d) (nread d) (nwrite d) (readopen d) false ∅ (wsleep d) (freed d)
                          else mkPipe (data d) (nread d) (nwrite d) false (writeopen d) (rsleep d) ∅ (freed d) in
                if (negb (readopen d1) && negb (writeopen d1))%bool
                then mkPipe (data d1) (nread d1) (nwrite d1) (readopen d1) (writeopen d1) (rsleep d1) (wsleep d1) true
                else d1)) ->
  wp (pipeclose w) Q (free b d).
Proof.
  intros HQ. unfold pipeclose. lk_steps. destruct w; unfold wake_readers, wake_writers; lk_steps;
    cbn [readopen writeopen] in *; [destruct (readopen d)|destruct (writeopen d)]; cbn [negb andb] in *; lk_steps; exact HQ.
Qed.

(** *** Processes using the pipe *)

Definition unwritten (r : wres) : list Z :=
  match r with WDone => [] | WFail l => l | WSleep l => l end.
Definition bytes_read (r : rres) : list Z := match r with RDone l => l | _ => [] end.

(** Passes of writers and readers and closes of the ends, in any order, with
    the bytes that went in and came out.  A process inside [piperead] or
    [pipewrite] keeps its end open and does not run while it sleeps; [kl] tells
    whether callers may have been killed. *)
Inductive pstep (kl : bool) : guarded pipe * list Z * list Z -> guarded pipe * list Z * list Z -> Prop :=
  | ps_write s sent got pid k rest r s' stored :
      writeopen (l_data s) = true -> pid ∉ wsleep (l_data s) -> (k = true -> kl = true) ->
      pipewrite pid k rest s = Ret (r, s') -> rest = stored ++ unwritten r ->
      pstep kl (s, sent, got) (s', sent ++ stored, got)
  | ps_read s sent got pid k n r s' :
      readopen (l_data s) = true -> pid ∉ rsleep (l_data s) -> (k = true -> kl = true) ->
      piperead pid k n s = Ret (r, s') ->
      pstep kl (s, sent, got) (s', sent, got ++ bytes_read r)
  | ps_close_write s sent got s' :
      wsleep (l_data s) = ∅ -> pipeclose true s = Ret (tt, s') -> pstep kl (s, sent, got) (s', sent, got)
  | ps_close_read s sent got s' :
      rsleep (l_data s) = ∅ -> pipeclose false s = Ret (tt, s') -> pstep kl (s, sent, got) (s', sent, got).

Inductive psteps (kl : bool) : guarded pipe * list Z * list Z -> guarded pipe * list Z * list Z -> Prop :=
  | pss_refl x : psteps kl x x
  | pss_step x y z : psteps kl x y -> pstep kl y z -> psteps kl x z.

(** The invariant: FIFO order, and no lost wakeup of writers (of readers, when
    nobody is killed). *)
Definition stream_inv (kl : bool) (x : guarded pipe * list Z * list Z) : Prop :=
  let '(s, sent, got) := x in
  exists b d, s = free b d /\ pipe_ok d /\ sent = got ++ queue d /\ writers_ok d /\ (kl = false -> readers_ok d).

Lemma queue_fields d d' :
  data d' = data d -> nread d' = nread d -> nwrite d' = nwrite d -> queue d' = queue d /\ qlen d' = qlen d.
Proof. intros H1 H2 H3. unfold queue, qlen. by rewrite H1, H2, H3. Qed.

Lemma stream_inv_close kl (w : bool) s s' sent got :
  (if w then wsleep (l_data s) else rsleep (l_data s)) = ∅ ->
  stream_inv kl (s, sent, got) -> pipeclose w s = Ret (tt, s') -> stream_inv kl (s', sent, got).
Proof.
  intros Hsl (b & d & -> & Hok & Hq & Hw & Hr) Hc. cbn [l_data free] in Hsl.
  eapply (wp_elim _ (fun _ s' => stream_inv kl (s', sent, got))); [|exact Hc].
  apply wp_pipeclose. cbv zeta. eexists b, _. split; [reflexivity|].
  match goal with |- pipe_ok ?x /\ _ => set (d1 := x) end.
  assert (data d1 = data d /\ nread d1 = nread d /\ nwrite d1 = nwrite d /\
    (w = true -> rsleep d1 = ∅ /\ wsleep d1 = wsleep d) /\ (w = false -> wsleep d1 = ∅ /\ rsleep d1 = rsleep d))
    as (F1 & F2 & F3 & F4 & F5).
  { unfold d1. destruct w; cbn; [destruct (readopen d)|destruct (writeopen d)]; cbn; done. }
  destruct (queue_fields d d1 F1 F2 F3) as [Hq1 Hl1].
  destruct Hok as [K1 K2 K3 K4]. split_and!.
  - constructor; [by rewrite F1|by rewrite F2|by rewrite F3|by rewrite Hl1].
  - by rewrite Hq1.
  - intros Hne. destruct w; [destruct (F4 eq_refl) as [_ Hx]|destruct (F5 eq_refl) as [Hx _]]; congruence.
  - intros Hkl Hne. destruct w; [destruct (F4 eq_refl) as [Hx _]|destruct (F5 eq_refl) as [_ Hx]]; congruence.
Qed.

Lemma stream_inv_write kl s sent got pid k rest r s' stored :
  stream_inv kl (s, sent, got) -> writeopen (l_data s) = true -> (k = true -> kl = true) ->
  pipewrite pid k rest s = Ret (r, s') -> rest = stored ++ unwritten r ->
  stream_inv kl (s', sent ++ stored, got).
Proof.
  intros (b & d & -> & Hok & Hq & Hw & Hr) Hwo Hk Hx. cbn [l_data free] in Hwo. revert stored.
  eapply (wp_elim _ (fun r s' => forall stored, rest = stored ++ unwritten r -> stream_inv kl (s', sent ++ stored, got)));
    [|exact Hx].
  apply wp_pipewrite; [done..|]. intros r' d' Hok' (st & rest' & -> & Hq' & [Hr1 Hw1] & Hp) Hfull stored Hst.
  assert (stored = st) as ->.
  { destruct r'; cbn in Hst; destruct Hp as (-> & _); by apply app_inv_tail in Hst. }
  exists b, d'. split_and!; [done|done|by rewrite Hq, Hq', app_assoc| |].
  - intros Hne. assert (qlen d' = PIPESIZE) as Hf by (destruct (decide (qlen d' = PIPESIZE)); [done|by destruct Hne; apply Hfull]).
    rewrite Hr1, Hw1. split_and!; [done| |done]. destruct r'.
    + destruct Hp as (_ & _ & Hws). rewrite Hws in Hne. by apply Hw.
    + destruct Hp as (_ & _ & _ & _ & _ & Hws). rewrite Hws in Hne. by apply Hw.
    + by destruct Hp as (_ & _ & _ & ? & _).
  - intros Hkl Hne. destruct r'; [by destruct Hp as (_ & ? & _)| |by destruct Hp as (_ & _ & _ & _ & _ & ? & _)].
    destruct Hp as (_ & _ & _ & [Hro|Hkd] & Hrs & _); [|naive_solver].
    rewrite Hrs in Hne. destruct (Hr Hkl Hne) as (_ & ? & _). congruence.
Qed.

Lemma stream_inv_read kl s sent got pid k n r s' :
  stream_inv kl (s, sent, got) -> readopen (l_data s) = true ->
  piperead pid k n s = Ret (r, s') -> stream_inv kl (s', sent, got ++ bytes_read r).
Proof.
  intros (b & d & -> & Hok & Hq & Hw & Hr) Hro Hx. cbn [l_data free] in Hro.
  eapply (wp_elim _ (fun r s' => stream_inv kl (s', sent, got ++ bytes_read r))); [|exact Hx].
  apply wp_piperead; [done|]. intros r' d' Hok' [[Hr1 Hw1] Hp]. destruct r' as [l| |].
  - destruct Hp as (Hcond & -> & Hq' & Hrs & Hws). exists b, d'. cbn [bytes_read].
    split_and!; [done..| |by intros ?|].
    + by rewrite Hq', <- app_assoc, take_drop.
    + intros Hkl Hne. rewrite Hrs in Hne. destruct (Hr Hkl Hne) as (? & _ & ?). destruct Hcond; congruence.
  - destruct Hp as (_ & _ & _ & ->). exists b, d. rewrite app_nil_r. done.
  - destruct Hp as (He & Hwo & ->). eexists b, _. rewrite app_nil_r. split; [reflexivity|]. split_and!; try done.
Qed.

Lemma stream_inv_step kl x y : stream_inv kl x -> pstep kl x y -> stream_inv kl y.
Proof.
  intros Hi Hs. destruct Hs.
  - by eapply stream_inv_write.
  - by eapply stream_inv_read.
  - by eapply (stream_inv_close kl true).
  - by eapply (stream_inv_close kl false).
Qed.

Lemma stream_inv_steps kl x y : stream_inv kl x -> psteps kl x y -> stream_inv kl y.
Proof. intros Hx Hc. induction Hc as [|x y z _ IH Hs]; [done|]. eapply stream_inv_step; [by apply IH|done]. Qed.

Lemma stream_inv_init kl b page : length page = Z.to_nat PIPESIZE -> stream_inv kl (free b (pipe_init page), [], []).
Proof.
  intros Hl. exists b, (pipe_init page). split_and!; try done.
Qed.
End Pipe.

(** C17. A pipe is a FIFO byte stream: after any interleaving of the passes of
    writers and readers and closes, the bytes read are the bytes written, in
    order, except for the at most 512 still in the pipe; and a further pass of
    [pipewrite] or [piperead] returns. *)
Theorem pipe_stream me kl b page s sent got :
  length page = Z.to_nat PIPESIZE ->
  psteps me kl (free b (pipe_init page), [], []) (s, sent, got) ->
  (exists q, sent = got ++ q /\ length q <= 512) /\
  (forall pid k rest, exists r s', pipewrite me pid k rest s = Ret (r, s')) /\
  (forall pid k n, exists r s', piperead me pid k n s = Ret (r, s')).
Proof.
  intros Hl Hs. destruct (stream_inv_steps me kl _ _ (stream_inv_init kl b page Hl) Hs) as (b' & d & -> & Hok & Hq & Hw & _).
  split_and!.
  - exists (queue d). split; [done|]. rewrite length_queue. destruct Hok as [_ _ _ Hc]. unfold PIPESIZE in Hc. lia.
  - intros pid k rest. destruct (proj1 (wp_Ret (pipewrite me pid k rest) (fun _ _ => True) (free b' d))) as (r & s' & Hx & _); [|eauto].
    by apply wp_pipewrite.
  - intros pid k n. destruct (proj1 (wp_Ret (piperead me pid k n) (fun _ _ => True) (free b' d))) as (r & s' & Hx & _); [|eauto].
    by apply wp_piperead.
Qed.

Lemma pipe_stream_witness :
  exists s, psteps 0 false (free true (pipe_init (replicate 512 0%Z)), [], []) (s, [1; 2; 3]%Z, [1; 2]%Z) /\
  (exists q, [1; 2; 3]%Z = [1; 2]%Z ++ q /\ length q <= 512).
Proof.
  assert (exists s, psteps 0 false (free true (pipe_init (replicate 512 0%Z)), [], []) (s, [1; 2; 3]%Z, [1; 2]%Z)) as [s Hs].
  { eexists. eapply pss_step; [eapply pss_step; [apply pss_refl|]|].
    - eapply (ps_write 0 false _ [] [] 1 false [1;2;3]%Z WDone _ [1;2;3]%Z);
        [reflexivity|apply (bool_decide_unpack _); vm_compute; exact I|done|vm_compute; reflexivity|reflexivity].
    - eapply (ps_read 0 false _ _ [] 2 false 2 (RDone [1;2]%Z)); [reflexivity|apply (bool_decide_unpack _); vm_compute; exact I|done|vm_compute; reflexivity]. }
  exists s. split; [exact Hs|].
  apply (pipe_stream 0 false true (replicate 512 0%Z) s [1;2;3]%Z [1;2]%Z); [reflexivity|exact Hs].
Defined.

(** C37. No lost wakeup: as long as no process is killed while it uses the pipe, a
    reader asleep on the pipe means that the pipe is empty, a writer asleep
    means that it is full, and both ends are open. *)
Theorem pipe_no_lost_wakeup me b page s sent got :
  length page = Z.to_nat PIPESIZE ->
  psteps me false (free b (pipe_init page), [], []) (s, sent, got) ->
  (rsleep (l_data s) <> ∅ -> sent = got /\ writeopen (l_data s) = true) /\
  (wsleep (l_data s) <> ∅ -> length sent = length got + 512 /\ readopen (l_data s) = true).
Proof.
  intros Hl Hs. destruct (stream_inv_steps me false _ _ (stream_inv_init false b page Hl) Hs) as (b' & d & -> & Hok & Hq & Hw & Hr).
  cbn [l_data free]. split; intros Hne.
  - destruct (Hr eq_refl Hne) as (He & _ & ?). split; [|done]. by rewrite Hq, queue_empty, app_nil_r.
  - destruct (Hw Hne) as (Hf & ? & _). split; [|done]. rewrite Hq, length_app, length_queue, Hf. done.
Qed.

Lemma pipe_no_lost_wakeup_witness :
  exists s, psteps 0 false (free true (pipe_init (replicate 512 0%Z)), [], []) (s, [], []) /\
  rsleep (l_data s) = {[2]} /\ (rsleep (l_data s) <> ∅ -> ([] : list Z) = [] /\ writeopen (l_data s) = true).
Proof.
  assert (exists s, psteps 0 false (free true (pipe_init (replicate 512 0%Z)), [], []) (s, [], []) /\ rsleep (l_data s) = {[2]}) as (s & Hs & Hr).
  { eexists. split; [eapply pss_step; [apply pss_refl|]; eapply (ps_read 0 false _ _ [] 2 false 2 RSleep); [reflexivity|apply (bool_decide_unpack _); vm_compute; exact I|done|vm_compute; reflexivity]|].
    vm_compute. reflexivity. }
  exists s. split; [exact Hs|]. split; [exact Hr|].
  apply (pipe_no_lost_wakeup 0 true (replicate 512 0%Z) s [] []); [reflexivity|exact Hs].
Defined.

(** A killed writer that has filled the pipe returns -1 without waking the
    readers: a reader stays asleep on a pipe with 512 bytes in it. *)
Example pipe_killed_writer :
  let d := with_sleepers {[2]} ∅ (pipe_init (replicate 512 0%Z)) in
  exists d', pipewrite 0 1 true (replicate 513 7%Z) (free true d) = Ret (WFail [7%Z], free true d') /\
    rsleep d' = {[2]} /\ qlen d' = 512%Z.
Proof. eexists. split; [vm_compute; reflexivity|]. split; reflexivity. Qed.

End Pipe.
