(* ===== verification/Log.v ===== *)
(** * The write-ahead log

    Models [src/xv6-public/log.c].  The buffer cache appears as what it shows to
    the log: the disk, and the modified ([B_DIRTY]) blocks that only the cache
    has.  Every [bwrite] is recorded, so that a crash between any two disk
    writes can be considered: the disk a crash leaves is the initial disk with
    a prefix of the writes. *)
From S2P Require Export Spinlock.

Module Log.
Import Spin.

Definition BSIZE : Z := 512.
Definition MAXOPBLOCKS : Z := 10.
Definition LOGSIZE : nat := 30.

(** A block is its bytes. *)
Notation block := (list Z).

(** ** Integers in blocks *)

(** A 32-bit integer as four bytes, least significant first, and back. *)
Definition le32 (z : Z) : list Z :=
  [z mod 256; (z / 256) mod 256; (z / 65536) mod 256; (z / 16777216) mod 256]%Z.
Definition le_int (l : list Z) : Z :=
  match l with
  | [a; b; c; d] => int32 (a + 256 * b + 65536 * c + 16777216 * d)
  | _ => 0
  end.

(** The [k]-th [int] of a block, and writing [int]s at its start. *)
Definition get_int (b : block) (k : nat) : Z := le_int (take 4 (drop (4 * k) b)).
Definition put_ints (l : list Z) (b : block) : block := (l ≫= le32) ++ drop (4 * length l) b.

(** ** State *)

(** [struct log]; [lh_n] and [lh_block] are its [lh]; [lsleep] are the
    processes asleep on [&log]. *)
Record lstate := mkLog {
  disk : Z -> block;
  dirty : gmap Z block;
  writes : list (Z * block);
  start : Z;
  lsize : Z;
  outstanding : Z;
  committing : bool;
  lh_n : Z;
  lh_block : list Z;
  lsleep : gset nat
}.

Definition upd_disk (b : Z) (v : block) (d : Z -> block) : Z -> block :=
  fun x => if decide (x = b) then v else d x.

(** The disk after the writes [w], oldest first. *)
Definition apply_writes (w : list (Z * block)) (d : Z -> block) : Z -> block :=
  foldl (fun d '(b, v) => upd_disk b v d) d w.

Definition lm A := stm lstate A.

(** The data [bread] returns, and [bwrite]. *)
Definition bread (b : Z) : lm block := fun s =>
  Ret (default (disk s b) (dirty s !! b), s).
Definition bwrite (b : Z) (v : block) : lm unit := fun s =>
  Ret (tt, mkLog (upd_disk b v (disk s)) (delete b (dirty s)) (writes s ++ [(b, v)]) (start s) (lsize s)
             (outstanding s) (committing s) (lh_n s) (lh_block s) (lsleep s)).
Definition set_head (n : Z) (bl : list Z) : lm unit := fun s =>
  Ret (tt, mkLog (disk s) (dirty s) (writes s) (start s) (lsize s) (outstanding s) (committing s) n bl (lsleep s)).
Definition set_ops (o : Z) (c : bool) : lm unit := fun s =>
  Ret (tt, mkLog (disk s) (dirty s) (writes s) (start s) (lsize s) o c (lh_n s) (lh_block s) (lsleep s)).
Definition set_sleep (l : gset nat) : lm unit := fun s =>
  Ret (tt, mkLog (disk s) (dirty s) (writes s) (start s) (lsize s) (outstanding s) (committing s) (lh_n s) (lh_block s) l).
Definition rdm (l : list Z) (i : nat) : lm Z := fun s => x ← rd l i; Ret (x, s).

Definition wrm (l : list Z) (i : nat) (x : Z) : lm (list Z) := fun s => l ← wr l i x; Ret (l, s).
(** The buffer of [b] holds [v] and is marked [B_DIRTY]. *)
Definition set_dirty (b : Z) (v : block) : lm unit := fun s =>
  Ret (tt, mkLog (disk s) (<[b:=v]> (dirty s)) (writes s) (start s) (lsize s) (outstanding s)
             (committing s) (lh_n s) (lh_block s) (lsleep s)).

(** ** Operations *)

(** [for(tail = t; tail < t + n; tail++)]. *)
Fixpoint install_loop (t n : nat) : lm unit :=
  match n with
  | O => mret tt
  | S n =>
      s ← get;
      l ← bread (start s + Z.of_nat t + 1);
      h ← rdm (lh_block s) t;
      bwrite h l ;;
      install_loop (S t) n
  end.

Definition install_trans : lm unit :=
  s ← get; install_loop 0 (Z.to_nat (lh_n s)).

Fixpoint write_log_loop (t n : nat) : lm unit :=
  match n with
  | O => mret tt
  | S n =>
      s ← get;
      h ← rdm (lh_block s) t;
      v ← bread h;
      bwrite (start s + Z.of_nat t + 1) v ;;
      write_log_loop (S t) n
  end.

Definition write_log : lm unit :=
  s ← get; write_log_loop 0 (Z.to_nat (lh_n s)).

(** Copying the block numbers of the header on disk into [log.lh.block]. *)
Fixpoint read_head_loop (b : block) (i n : nat) : lm unit :=
  match n with
  | O => mret tt
  | S n =>
      s ← get;
      l ← wrm (lh_block s) i (get_int b (S i));
      set_head (lh_n s) l ;;
      read_head_loop b (S i) n
  end.

Definition read_head : lm unit :=
  s ← get;
  b ← bread (start s);
  set_head (get_int b 0) (lh_block s) ;;
  read_head_loop b 0 (Z.to_nat (get_int b 0)).

(** The header block after the loop of [write_head]. *)
Definition write_head : lm unit :=
  s ← get;
  b ← bread (start s);
  bwrite (start s) (put_ints (lh_n s :: take (Z.to_nat (lh_n s)) (lh_block s)) b).

Definition recover_from_log : lm unit :=
  read_head ;;
  install_trans ;;
  s ← get;
  set_head 0 (lh_block s) ;;
  write_head.

Definition commit : lm unit :=
  s ← get;
  if decide (0 < lh_n s)%Z then
    write_log ;;
    write_head ;;
    install_trans ;;
    s ← get;
    set_head 0 (lh_block s) ;;
    write_head
  else mret tt.

(** One pass of the loop of [begin_op] by process [pid]: it begins, or sleeps. *)
Definition begin_op (pid : nat) : lm (waiting unit) :=
  s ← get;
  if committing s then set_sleep ({[pid]} ∪ lsleep s) ;; mret (Sleeps tt)
  else if decide (lh_n s + (outstanding s + 1) * MAXOPBLOCKS > Z.of_nat LOGSIZE)%Z
  then set_sleep ({[pid]} ∪ lsleep s) ;; mret (Sleeps tt)
  else set_ops (outstanding s + 1) false ;; mret (Done tt).

(** [end_op]; the commit runs without the lock, while [committing] keeps other
    operations out. *)
Definition end_op : lm unit :=
  s ← get;
  if committing s then panic "log.committing"
  else if decide (outstanding s - 1 = 0)%Z then
    set_ops (outstanding s - 1) true ;;
    commit ;;
    s ← get;
    set_ops (outstanding s) false ;;
    set_sleep ∅
  else
    set_ops (outstanding s - 1) (committing s) ;;
    set_sleep ∅.

(** The index of [b] among the first [n] entries, or [n]. *)
Fixpoint find_block (b : Z) (l : list Z) (n : nat) : nat :=
  match n, l with
  | S n, x :: l => if decide (x = b) then 0 else S (find_block b l n)
  | _, _ => 0
  end.

(** [log_write] of the buffer of block [b] whose data is now [v]. *)
Definition log_write (b : Z) (v : block) : lm unit :=
  s ← get;
  if decide (Z.of_nat LOGSIZE <= lh_n s \/ lsize s - 1 <= lh_n s)%Z then panic "too big a transaction"
  else if decide (outstanding s < 1)%Z then panic "log_write outside of trans"
  else
    let i := find_block b (lh_block s) (Z.to_nat (lh_n s)) in
    l ← wrm (lh_block s) i b;
    set_head (if decide (Z.of_nat i = lh_n s) then lh_n s + 1 else lh_n s) l ;;
    set_dirty b v.

(** [initlog] at boot: an empty cache, the log area from the super block. *)
Definition initlog (d : Z -> block) (logstart nlog : Z) : outcome (unit * lstate) :=
  recover_from_log (mkLog d ∅ [] logstart nlog 0 false 0 (replicate LOGSIZE 0%Z) ∅).

(** ** Encoding *)

Lemma le_int_le32 z : le_int (le32 z) = int32 z.
Proof.
  unfold le_int, le32, int32. f_equal.
  assert (z mod 256 + 256 * ((z / 256) mod 256) + 65536 * ((z / 65536) mod 256) + 16777216 * ((z / 16777216) mod 256)
          = z mod 4294967296)%Z as ->.
  { Z.to_euclidean_division_equations. lia. }
  by rewrite Zplus_mod_idemp_l.
Qed.

Lemma le32_length z : length (le32 z) = 4.
Proof. done. Qed.

Lemma length_le32s l : length (l ≫= le32) = 4 * length l.
Proof. induction l as [|z l IH]; [done|]. cbn [mbind list_bind]. rewrite length_app, IH, le32_length. cbn. lia. Qed.

(** Reading back an [int] written to a block. *)
Lemma get_put_ints l b k z : l !! k = Some z -> get_int (put_ints l b) k = int32 z.
Proof.
  unfold get_int, put_ints. generalize (drop (4 * length l) b) as r. revert k.
  induction l as [|x l IH]; intros k r Hk; [done|]. cbn [mbind list_bind].
  rewrite <- app_assoc. destruct k as [|k].
  - injection Hk as ->. rewrite Nat.mul_0_r, drop_0, take_app_length' by done. apply le_int_le32.
  - replace (4 * S k) with (length (le32 x) + 4 * k) by (rewrite le32_length; lia).
    rewrite drop_app_add. by apply IH.
Qed.

(** The tail of the block is kept. *)
Lemma length_put_ints l b : 4 * length l <= length b -> length (put_ints l b) = length b.
Proof. intros. unfold put_ints. rewrite length_app, length_le32s, length_drop. lia. Qed.

(** ** Disks and writes *)

Lemma upd_disk_eq b v d : upd_disk b v d b = v.
Proof. unfold upd_disk. by rewrite decide_True. Qed.
Lemma upd_disk_ne b v d x : x <> b -> upd_disk b v d x = d x.
Proof. intros. unfold upd_disk. by rewrite decide_False. Qed.

Lemma apply_writes_app w1 w2 d : apply_writes (w1 ++ w2) d = apply_writes w2 (apply_writes w1 d).
Proof. unfold apply_writes. apply foldl_app. Qed.

(** A block that is not written keeps its contents. *)
Lemma apply_writes_notin w d b : b ∉ w.*1 -> apply_writes w d b = d b.
Proof.
  revert d. induction w as [|[x v] w IH]; intros d Hb; [done|]. cbn in Hb.
  rewrite not_elem_of_cons in Hb. destruct Hb. change (apply_writes w (upd_disk x v d) b = d b).
  rewrite IH by done. by apply upd_disk_ne.
Qed.

(** The dirty blocks that are not written by [w]. *)
Definition undirty (w : list (Z * block)) (m : gmap Z block) : gmap Z block :=
  foldl (fun m x => delete (fst x) m) m w.

Lemma undirty_app w1 w2 m : undirty (w1 ++ w2) m = undirty w2 (undirty w1 m).
Proof. apply foldl_app. Qed.

(** The state after the writes [w]. *)
Definition after_writes (w : list (Z * block)) (s : lstate) : lstate :=
  mkLog (apply_writes w (disk s)) (undirty w (dirty s)) (writes s ++ w) (start s) (lsize s)
    (outstanding s) (committing s) (lh_n s) (lh_block s) (lsleep s).

Lemma after_writes_nil s : after_writes [] s = s.
Proof. destruct s. unfold after_writes. cbn. by rewrite app_nil_r. Qed.

Lemma after_writes_cons b v w s :
  after_writes ((b, v) :: w) s = after_writes w (after_writes [(b, v)] s).
Proof. unfold after_writes. cbn. by rewrite <- app_assoc. Qed.

Lemma after_writes_app w1 w2 s : after_writes (w1 ++ w2) s = after_writes w2 (after_writes w1 s).
Proof. unfold after_writes. cbn. by rewrite apply_writes_app, undirty_app, app_assoc. Qed.

Lemma undirty_notin w m b : b ∉ w.*1 -> undirty w m !! b = m !! b.
Proof.
  revert m. induction w as [|[x v] w IH]; intros m Hb; [done|]. cbn in Hb.
  rewrite not_elem_of_cons in Hb. destruct Hb. change (undirty w (delete x m) !! b = m !! b).
  rewrite IH by done. by rewrite lookup_delete_ne by done.
Qed.

Lemma undirty_none w m b : m !! b = None -> undirty w m !! b = None.
Proof.
  revert m. induction w as [|[x v] w IH]; intros m Hb; [done|]. change (undirty w (delete x m) !! b = None). apply IH.
  destruct (decide (b = x)) as [->|]; [by rewrite lookup_delete_eq|by rewrite lookup_delete_ne].
Qed.

(** *** The loops *)

(** The log area of a state. *)
Definition in_area (st sz b : Z) : Prop := (st <= b < st + sz)%Z.

(** The writes of [install_trans] from the log blocks of disk [d]. *)
Definition install_writes (st : Z) (bl : list Z) (d : Z -> block) (t n : nat) : list (Z * block) :=
  (fun k => (nth k bl 0%Z, d (st + Z.of_nat k + 1)%Z)) <$> seq t n.

Lemma install_loop_spec t n s :
  t + n <= length (lh_block s) -> (Z.of_nat (t + n) < lsize s)%Z ->
  (forall b, in_area (start s) (lsize s) b -> dirty s !! b = None) ->
  (forall k, t <= k < t + n -> ~ in_area (start s) (lsize s) (nth k (lh_block s) 0%Z)) ->
  install_loop t n s = Ret (tt, after_writes (install_writes (start s) (lh_block s) (disk s) t n) s).
Proof.
  revert t s. induction n as [|n IH]; intros t s Hl Hsz Hd Hh; cbn [install_loop].
  { unfold install_writes. cbn. by rewrite after_writes_nil. }
  destruct (rd_lt (lh_block s) t ltac:(lia)) as (h & Hh1 & Hrd).
  assert (nth t (lh_block s) 0%Z = h) as Hnth by by rewrite nth_lookup, Hh1.
  set (v := disk s (start s + Z.of_nat t + 1)%Z).
  assert (Hstep : (get ≫= fun s0 => l ← bread (start s0 + Z.of_nat t + 1); h0 ← rdm (lh_block s0) t; bwrite h0 l ;; install_loop (S t) n) s
    = install_loop (S t) n (after_writes [(h, v)] s)).
  { unfold mbind, stm_bind, get, bread, rdm, bwrite. cbn [mbind outcome_bind]. rewrite Hrd. cbn [mbind outcome_bind].
    rewrite Hd by (unfold in_area; lia). done. }
  etransitivity; [exact Hstep|]. rewrite IH; cbn [lh_block lsize start after_writes dirty disk]; try lia.
  - f_equal. f_equal. unfold install_writes. cbn [seq fmap list_fmap]. rewrite Hnth. fold v.
    etransitivity; [|symmetry; apply after_writes_cons]. f_equal. apply list_fmap_ext. intros i k Hk. f_equal. apply upd_disk_ne.
    intros He. apply (Hh t ltac:(lia)). rewrite Hnth, <- He. apply lookup_seq in Hk as [-> ?]. unfold in_area. lia.
  - intros b Hb. by apply undirty_none, Hd.
  - intros k Hk. apply Hh. lia.
Qed.

(** What the cache has for block [b]. *)
Definition cached (s : lstate) (b : Z) : block := default (disk s b) (dirty s !! b).

Definition log_writes (s : lstate) (t n : nat) : list (Z * block) :=
  (fun k => ((start s + Z.of_nat k + 1)%Z, cached s (nth k (lh_block s) 0%Z))) <$> seq t n.

Lemma write_log_loop_spec t n s :
  t + n <= length (lh_block s) -> (Z.of_nat (t + n) < lsize s)%Z ->
  (forall k, t <= k < t + n -> ~ in_area (start s) (lsize s) (nth k (lh_block s) 0%Z)) ->
  write_log_loop t n s = Ret (tt, after_writes (log_writes s t n) s).
Proof.
  revert t s. induction n as [|n IH]; intros t s Hl Hsz Hh; cbn [write_log_loop].
  { unfold log_writes. cbn. by rewrite after_writes_nil. }
  destruct (rd_lt (lh_block s) t ltac:(lia)) as (h & Hh1 & Hrd).
  assert (nth t (lh_block s) 0%Z = h) as Hnth by by rewrite nth_lookup, Hh1.
  set (x := (start s + Z.of_nat t + 1)%Z). set (v := cached s h).
  assert (Hstep : (get ≫= fun s0 => h0 ← rdm (lh_block s0) t; v0 ← bread h0; bwrite (start s0 + Z.of_nat t + 1) v0 ;; write_log_loop (S t) n) s
    = write_log_loop (S t) n (after_writes [(x, v)] s)).
  { unfold mbind, stm_bind, get, bread, rdm, bwrite. cbn [mbind outcome_bind]. rewrite Hrd. done. }
  etransitivity; [exact Hstep|]. rewrite IH; cbn [lh_block lsize start after_writes]; try lia.
  - f_equal. f_equal. unfold log_writes. cbn [seq fmap list_fmap]. rewrite Hnth. fold x v.
    etransitivity; [|symmetry; apply after_writes_cons]. f_equal. apply list_fmap_ext. intros i k Hk.
    cbn [start lh_block after_writes]. f_equal. apply lookup_seq in Hk as [-> ?].
    assert (nth (S t + i) (lh_block s) 0%Z ∉ ([(x, v)] : list (Z * block)).*1) as Hne.
    { cbn. intros He%list_elem_of_singleton. eapply (Hh (S t + i)); [lia|]. cbn in He |- *. rewrite He. unfold in_area, x. lia. }
    unfold cached. cbn [disk dirty after_writes]. by rewrite apply_writes_notin, undirty_notin by done.
  - intros k Hk. apply Hh. lia.
Qed.

(** *** The header on disk *)

Definition hdr_n (st : Z) (d : Z -> block) : Z := get_int (d st) 0.
Definition hdr_blocks (st : Z) (d : Z -> block) (n : nat) : list Z :=
  (fun t => get_int (d st) (S t)) <$> seq 0 n.

Lemma read_head_loop_spec b i n s :
  i + n <= length (lh_block s) ->
  read_head_loop b i n s = Ret (tt, mkLog (disk s) (dirty s) (writes s) (start s) (lsize s) (outstanding s) (committing s)
    (lh_n s) (take i (lh_block s) ++ ((fun t => get_int b (S t)) <$> seq i n) ++ drop (i + n) (lh_block s)) (lsleep s)).
Proof.
  revert i s. induction n as [|n IH]; intros i s Hl; cbn [read_head_loop].
  { cbn. rewrite Nat.add_0_r, take_drop. by destruct s. }
  assert (Hstep : (get ≫= fun s0 => l ← wrm (lh_block s0) i (get_int b (S i)); set_head (lh_n s0) l ;; read_head_loop b (S i) n) s
    = read_head_loop b (S i) n (mkLog (disk s) (dirty s) (writes s) (start s) (lsize s) (outstanding s) (committing s)
        (lh_n s) (<[i:=get_int b (S i)]> (lh_block s)) (lsleep s))).
  { unfold mbind, stm_bind, get, wrm, set_head. cbn [mbind outcome_bind]. by rewrite wr_lt by lia. }
  etransitivity; [exact Hstep|]. rewrite IH; cbn [lh_block disk dirty writes start lsize outstanding committing lh_n lsleep].
  2:{ rewrite length_insert. lia. }
  do 3 f_equal. rewrite drop_insert_lt by lia. replace (S i + n) with (i + S n) by lia.
  rewrite (take_S_r _ _ (get_int b (S i))) by (apply list_lookup_insert_eq; lia).
  rewrite take_insert_ge by lia. cbn [seq fmap list_fmap]. by rewrite <- app_assoc.
Qed.

Lemma read_head_spec s :
  dirty s !! start s = None -> (0 <= hdr_n (start s) (disk s) <= Z.of_nat (length (lh_block s)))%Z ->
  let n := Z.to_nat (hdr_n (start s) (disk s)) in
  read_head s = Ret (tt, mkLog (disk s) (dirty s) (writes s) (start s) (lsize s) (outstanding s) (committing s)
    (hdr_n (start s) (disk s)) (hdr_blocks (start s) (disk s) n ++ drop n (lh_block s)) (lsleep s)).
Proof.
  intros Hd Hn n. unfold read_head.
  unfold mbind, stm_bind, get, bread, set_head. cbn [mbind outcome_bind]. rewrite Hd. cbn [default].
  fold (hdr_n (start s) (disk s)). fold n. rewrite read_head_loop_spec by (cbn; lia). done.
Qed.

Lemma write_head_spec s :
  write_head s = Ret (tt, after_writes [(start s, put_ints (lh_n s :: take (Z.to_nat (lh_n s)) (lh_block s)) (cached s (start s)))] s).
Proof. done. Qed.

(** ** What a disk means after a crash *)

Lemma find_block_le b l n : find_block b l n <= n.
Proof. revert l. induction n as [|n IH]; intros [|x l]; cbn; try lia. case_decide; [lia|]. specialize (IH l). lia. Qed.

Lemma find_block_lt b l n : find_block b l n < n -> n <= length l -> l !! find_block b l n = Some b.
Proof.
  revert l. induction n as [|n IH]; intros [|x l]; cbn; try lia. case_decide as Hx; [by subst|]. intros. apply IH; lia.
Qed.

Lemma find_block_notin b l n : n <= length l -> find_block b l n = n -> b ∉ take n l.
Proof.
  revert l. induction n as [|n IH]; intros [|x l]; cbn; try (intros; lia); [intros _ _; apply not_elem_of_nil..|].
  case_decide as Hx; [done|]. intros Hl [= Hf]. rewrite not_elem_of_cons. split; [congruence|]. apply IH; [lia|done].
Qed.

Lemma find_block_nodup b l n t : NoDup l -> l !! t = Some b -> t < n -> find_block b l n = t.
Proof.
  revert l t. induction n as [|n IH]; intros [|x l] t Hnd Ht Hlt; cbn; try lia; [done|].
  apply NoDup_cons in Hnd as [Hx Hnd]. case_decide as He; destruct t as [|t]; [done| |by injection Ht|].
  - subst. destruct Hx. by eapply list_elem_of_lookup_2.
  - f_equal. apply IH; [done|done|lia].
Qed.

Section Crash.
Context (st sz : Z).
Implicit Types d : Z -> block.

(** The header of [d] describes a log that fits, with distinct home blocks
    outside the log area. *)
Record wf_disk d : Prop := {
  w_n : (0 <= hdr_n st d <= Z.of_nat LOGSIZE)%Z;
  w_sz : (hdr_n st d < sz)%Z;
  w_nodup : NoDup (hdr_blocks st d (Z.to_nat (hdr_n st d)));
  w_home b : b ∈ hdr_blocks st d (Z.to_nat (hdr_n st d)) -> ~ in_area st sz b
}.

(** The contents of block [b] that recovery establishes. *)
Definition replay d (b : Z) : block :=
  let n := Z.to_nat (hdr_n st d) in
  let i := find_block b (hdr_blocks st d n) n in
  if decide (i < n) then d (st + Z.of_nat i + 1)%Z else d b.

Lemma length_hdr_blocks d n : length (hdr_blocks st d n) = n.
Proof. unfold hdr_blocks. by rewrite length_fmap, length_seq. Qed.

Lemma hdr_blocks_ext d d' n : d' st = d st -> hdr_blocks st d' n = hdr_blocks st d n.
Proof. intros He. unfold hdr_blocks. apply list_fmap_ext. intros. by rewrite He. Qed.

Lemma replay_home d t h :
  wf_disk d -> hdr_blocks st d (Z.to_nat (hdr_n st d)) !! t = Some h -> replay d h = d (st + Z.of_nat t + 1)%Z.
Proof.
  intros Hwf Ht. assert (t < Z.to_nat (hdr_n st d)) by (apply lookup_lt_Some in Ht; by rewrite length_hdr_blocks in Ht).
  unfold replay. rewrite (find_block_nodup _ _ _ t) by (done || apply Hwf). by rewrite decide_True.
Qed.

Lemma replay_other d b : b ∉ hdr_blocks st d (Z.to_nat (hdr_n st d)) -> replay d b = d b.
Proof.
  intros Hb. unfold replay. case_decide as Hi; [|done]. exfalso. apply Hb.
  eapply list_elem_of_lookup_2, find_block_lt; [done|]. by rewrite length_hdr_blocks.
Qed.

Lemma replay_empty d b : hdr_n st d = 0%Z -> replay d b = d b.
Proof. intros Hn. apply replay_other. rewrite Hn. apply not_elem_of_nil. Qed.

(** [d'] is [d] with some blocks installed. *)
Definition partly d d' : Prop :=
  (forall b, in_area st sz b -> d' b = d b) /\ (forall b, d' b = d b \/ d' b = replay d b).

Lemma partly_replay d d' :
  wf_disk d -> partly d d' -> wf_disk d' /\ forall b, replay d' b = replay d b.
Proof.
  intros Hwf [H1 H2]. pose proof (w_sz _ Hwf). pose proof (w_n _ Hwf).
  assert (d' st = d st) as Hst by (apply H1; unfold in_area; lia).
  assert (hdr_n st d' = hdr_n st d) as Hn by (unfold hdr_n; by rewrite Hst).
  split.
  - destruct Hwf. constructor; rewrite ?Hn, ?(hdr_blocks_ext d d') by done; done.
  - intros b. unfold replay. rewrite Hn, (hdr_blocks_ext d d') by done. case_decide as Hi.
    + apply H1. unfold in_area. lia.
    + destruct (H2 b) as [->| ->]; [done|]. unfold replay. by rewrite decide_False.
Qed.

Lemma partly_writes d d' w :
  wf_disk d -> partly d d' ->
  (forall b v, (b, v) ∈ w -> b ∈ hdr_blocks st d (Z.to_nat (hdr_n st d)) /\ v = replay d b) ->
  partly d (apply_writes w d').
Proof.
  intros Hwf. revert d'. induction w as [|[b v] w IH]; intros d' Hp Hw; [done|].
  change (partly d (apply_writes w (upd_disk b v d'))). apply IH; [|intros; apply Hw; by right].
  destruct (Hw b v ltac:(by left)) as [Hb ->]. destruct Hp as [H1 H2]. split.
  - intros x Hx. rewrite upd_disk_ne; [by apply H1|]. intros ->. by apply (w_home _ Hwf b).
  - intros x. destruct (decide (x = b)) as [->|]; [rewrite upd_disk_eq; auto|by rewrite upd_disk_ne].
Qed.

(** The writes of [install_trans] for the log on [d]. *)
Definition recovery_writes d : list (Z * block) :=
  let n := Z.to_nat (hdr_n st d) in install_writes st (hdr_blocks st d n) d 0 n.

Lemma recovery_writes_elem d b v :
  wf_disk d -> (b, v) ∈ recovery_writes d ->
  b ∈ hdr_blocks st d (Z.to_nat (hdr_n st d)) /\ v = replay d b.
Proof.
  intros Hwf Hin. unfold recovery_writes, install_writes in Hin.
  apply list_elem_of_fmap in Hin as (t & [= -> ->] & Ht). apply elem_of_seq in Ht as [_ Ht].
  destruct (lookup_lt_is_Some_2 (hdr_blocks st d (Z.to_nat (hdr_n st d))) t) as [h Hh]; [rewrite length_hdr_blocks; lia|].
  rewrite nth_lookup, Hh. cbn [default]. split; [by eapply list_elem_of_lookup_2|]. symmetry. by apply replay_home.
Qed.

Lemma recovery_writes_fst d : (recovery_writes d).*1 = hdr_blocks st d (Z.to_nat (hdr_n st d)).
Proof.
  unfold recovery_writes, install_writes. set (n := Z.to_nat _). rewrite <- list_fmap_compose. unfold compose. cbn.
  apply list_eq. intros i. rewrite list_lookup_fmap. destruct (decide (i < n)).
  - rewrite lookup_seq_lt by done. cbn. destruct (lookup_lt_is_Some_2 (hdr_blocks st d n) i) as [h Hh]; [by rewrite length_hdr_blocks|].
    by rewrite nth_lookup, Hh.
  - rewrite lookup_seq_ge by lia. symmetry. apply lookup_ge_None_2. rewrite length_hdr_blocks. lia.
Qed.

(** A block written once has the value written. *)
Lemma apply_writes_in w d b v : NoDup w.*1 -> (b, v) ∈ w -> apply_writes w d b = v.
Proof.
  revert d. induction w as [|[x y] w IH]; intros d Hnd Hin; [by apply elem_of_nil in Hin|].
  apply NoDup_cons in Hnd as [Hx Hnd]. change (apply_writes w (upd_disk x y d) b = v).
  apply elem_of_cons in Hin as [[= <- <-]|Hin]; [|by apply IH].
  rewrite apply_writes_notin by done. apply upd_disk_eq.
Qed.

(** All blocks installed: the disk has what recovery establishes. *)
Lemma recovery_installed d b : wf_disk d -> apply_writes (recovery_writes d) d b = replay d b.
Proof.
  intros Hwf. destruct (decide (b ∈ hdr_blocks st d (Z.to_nat (hdr_n st d)))) as [Hb|Hb].
  - rewrite <- recovery_writes_fst in Hb. apply list_elem_of_fmap in Hb as ([b' v] & -> & Hin).
    rewrite (apply_writes_in _ _ _ v) by (rewrite ?recovery_writes_fst; done || apply Hwf).
    by apply recovery_writes_elem.
  - rewrite apply_writes_notin by by rewrite recovery_writes_fst. by rewrite replay_other.
Qed.

(** The header write that clears the log. *)
Definition clear_write d : Z * block := (st, put_ints [0%Z] (d st)).

Lemma clear_header d : hdr_n st (apply_writes [clear_write d] d) = 0%Z.
Proof.
  unfold hdr_n. change (apply_writes [clear_write d] d) with (upd_disk st (put_ints [0%Z] (d st)) d).
  rewrite upd_disk_eq. by rewrite (get_put_ints _ _ 0 0%Z).
Qed.

Lemma cleared_wf d : (0 < sz)%Z -> hdr_n st d = 0%Z -> wf_disk d.
Proof.
  intros Hsz Hn. constructor; rewrite Hn; cbn; [lia|done|apply NoDup_nil_2|by intros ? ?%elem_of_nil].
Qed.

(** All the writes of recovery. *)
Definition recover_writes d : list (Z * block) :=
  recovery_writes d ++ [clear_write (apply_writes (recovery_writes d) d)].

(** A crash anywhere during recovery changes nothing: the disk it leaves means
    the same. *)
Lemma recover_prefix d k :
  wf_disk d -> let d' := apply_writes (take k (recover_writes d)) d in
  wf_disk d' /\ forall b, ~ in_area st sz b -> replay d' b = replay d b.
Proof.
  intros Hwf d'. pose proof (w_n _ Hwf). pose proof (w_sz _ Hwf).
  assert (Hsub : forall j b v, (b, v) ∈ take j (recovery_writes d) ->
    b ∈ hdr_blocks st d (Z.to_nat (hdr_n st d)) /\ v = replay d b).
  { intros j b v Hin. apply recovery_writes_elem; [done|]. by eapply subseteq_take. }
  destruct (decide (k <= length (recovery_writes d))) as [Hk|Hk].
  - assert (d' = apply_writes (take k (recovery_writes d)) d) as -> by (unfold d', recover_writes; by rewrite take_app_le).
    destruct (partly_replay d (apply_writes (take k (recovery_writes d)) d) Hwf) as [H1 H2]; [|by split].
    apply partly_writes; [done|split; auto|by apply Hsub].
  - set (d1 := apply_writes (recovery_writes d) d) in *.
    assert (d' = apply_writes [clear_write d1] d1) as ->.
    { unfold d', recover_writes. rewrite take_ge by (rewrite length_app; cbn; lia). by rewrite apply_writes_app. }
    pose proof (clear_header d1) as Hn. split; [apply cleared_wf; [lia|done]|].
    intros b Hb. rewrite replay_empty by done.
    change (upd_disk st (put_ints [0%Z] (d1 st)) d1 b = replay d b).
    rewrite upd_disk_ne; [by apply recovery_installed|]. intros ->. apply Hb. unfold in_area. lia.
Qed.

(** [initlog] performs these writes. *)
Lemma initlog_spec d :
  wf_disk d -> exists s, initlog d st sz = Ret (tt, s) /\ writes s = recover_writes d /\
    disk s = apply_writes (recover_writes d) d /\ dirty s = ∅ /\ lh_n s = 0%Z /\ outstanding s = 0%Z /\
    committing s = false /\ start s = st /\ lsize s = sz /\ length (lh_block s) = LOGSIZE /\ lsleep s = ∅.
Proof.
  intros Hwf. pose proof (w_n _ Hwf). pose proof (w_sz _ Hwf). set (n := Z.to_nat (hdr_n st d)).
  set (bl := hdr_blocks st d n ++ drop n (replicate LOGSIZE 0%Z)).
  assert (Hlen : length bl = LOGSIZE).
  { unfold bl. rewrite length_app, length_hdr_blocks, length_drop, length_replicate. lia. }
  assert (Hnth : forall k, k < n -> nth k bl 0%Z = nth k (hdr_blocks st d n) 0%Z).
  { intros k Hk. unfold bl. rewrite app_nth1 by by rewrite length_hdr_blocks. done. }
  assert (install_writes st bl d 0 n = recovery_writes d) as Hiw.
  { unfold recovery_writes, install_writes. fold n. apply list_fmap_ext. intros i k Hk. apply lookup_seq in Hk as [-> Hk].
    by rewrite Hnth. }
  assert (forall w, undirty w ∅ = ∅) as Hu.
  { intros w. induction w as [|x w IH] using rev_ind; [done|]. rewrite undirty_app, IH. cbn. apply delete_empty. }
  eexists. split.
  { unfold initlog, recover_from_log. etransitivity.
    { eapply stm_bind_Ret. apply read_head_spec; [done|]. cbn [lh_block start disk]. by rewrite length_replicate. }
    cbn [start disk dirty writes lsize outstanding committing lsleep lh_block]. fold n. fold bl. etransitivity.
    { eapply stm_bind_Ret. unfold install_trans. etransitivity; [apply (stm_bind_Ret get); reflexivity|]. cbn [lh_n]. fold n.
      apply install_loop_spec; cbn [lh_block lsize dirty start]; [lia|lia|done|].
      intros k Hk. rewrite Hnth by lia. apply (w_home _ Hwf).
      destruct (lookup_lt_is_Some_2 (hdr_blocks st d n) k) as [h Hh]; [rewrite length_hdr_blocks; lia|].
      rewrite nth_lookup, Hh. by eapply list_elem_of_lookup_2. }
    cbn [lh_block start disk]. rewrite Hiw.
    etransitivity; [apply (stm_bind_Ret get); reflexivity|]. etransitivity; [eapply stm_bind_Ret; reflexivity|].
    apply write_head_spec. }
  unfold cached. cbn [after_writes writes disk dirty lh_n outstanding committing start lsize lh_block lsleep].
  rewrite !Hu, lookup_empty. cbn [default take Z.to_nat]. unfold recover_writes, clear_write.
  split_and!; try done. by rewrite apply_writes_app.
Qed.
End Crash.
(** ** Commit *)

(** The state of a transaction in memory: the header lists the dirty blocks,
    which are outside the log area; the log on disk is empty. *)
Record tx_ok (s : lstate) : Prop := {
  x_len : length (lh_block s) = LOGSIZE;
  x_n : (0 <= lh_n s <= Z.of_nat LOGSIZE)%Z;
  x_sz : (lh_n s < lsize s)%Z;
  x_nodup : NoDup (take (Z.to_nat (lh_n s)) (lh_block s));
  x_home b : b ∈ take (Z.to_nat (lh_n s)) (lh_block s) ->
    ~ in_area (start s) (lsize s) b /\ (-2147483648 <= b < 2147483648)%Z;
  x_dirty b : is_Some (dirty s !! b) <-> b ∈ take (Z.to_nat (lh_n s)) (lh_block s);
  x_hdr : hdr_n (start s) (disk s) = 0%Z
}.

Section Commit.
Context (s : lstate) (Hok : tx_ok s).
Let n := Z.to_nat (lh_n s).
Let homes := take n (lh_block s).
Let st := start s.
Let sz := lsize s.

Lemma homes_length : length homes = n.
Proof. unfold homes, n. rewrite length_take, (x_len _ Hok). pose proof (x_n _ Hok). lia. Qed.

Lemma homes_nth k h : homes !! k = Some h -> nth k (lh_block s) 0%Z = h /\ k < n.
Proof.
  intros Hk. pose proof (lookup_lt_Some _ _ _ Hk) as Hlt. rewrite homes_length in Hlt. split; [|done].
  unfold homes in Hk. rewrite lookup_take_lt in Hk by done. by rewrite nth_lookup, Hk.
Qed.

Lemma home_not_area k : k < n -> ~ in_area st sz (nth k (lh_block s) 0%Z).
Proof.
  intros Hk. destruct (lookup_lt_is_Some_2 homes k) as [h Hh]; [by rewrite homes_length|].
  destruct (homes_nth k h Hh) as [-> _]. apply (x_home _ Hok). by eapply list_elem_of_lookup_2.
Qed.

Lemma area_not_dirty b : in_area st sz b -> dirty s !! b = None.
Proof.
  intros Hb. destruct (dirty s !! b) eqn:Hd; [|done]. exfalso.
  destruct (x_home _ Hok b) as [Hx _]; [apply (x_dirty _ Hok); eauto|]. by apply Hx.
Qed.

(** The disk after the log and its header have been written. *)
Definition logged : Z -> block := apply_writes (log_writes s 0 n) (disk s).
Definition head_write : Z * block := (st, put_ints (lh_n s :: homes) (disk s st)).
Definition committed : Z -> block := upd_disk st (put_ints (lh_n s :: homes) (disk s st)) logged.

Lemma log_writes_fst j b v : (b, v) ∈ take j (log_writes s 0 n) -> (st < b <= st + Z.of_nat n)%Z.
Proof.
  intros Hin. eapply subseteq_take in Hin. unfold log_writes in Hin.
  apply list_elem_of_fmap in Hin as (t & [= -> ->] & Ht). apply elem_of_seq in Ht. unfold st. lia.
Qed.

Lemma logged_other j b : ~ (st < b <= st + Z.of_nat n)%Z -> apply_writes (take j (log_writes s 0 n)) (disk s) b = disk s b.
Proof.
  intros Hb. apply apply_writes_notin. intros Hin. apply list_elem_of_fmap in Hin as ([b' v] & -> & Hin).
  by apply Hb, (log_writes_fst j b' v).
Qed.

Lemma logged_slot t h : homes !! t = Some h -> logged (st + Z.of_nat t + 1)%Z = cached s h.
Proof.
  intros Ht. destruct (homes_nth t h Ht) as [Hnth Hlt]. apply apply_writes_in.
  - unfold log_writes. rewrite <- list_fmap_compose. apply (NoDup_fmap_2_strong); [|apply NoDup_seq].
    intros x y _ _. cbn. lia.
  - unfold log_writes. apply list_elem_of_fmap. exists t. rewrite Hnth. split; [done|]. apply elem_of_seq. lia.
Qed.

Lemma committed_hdr : hdr_n st committed = lh_n s /\ hdr_blocks st committed n = homes.
Proof.
  unfold hdr_n, hdr_blocks, committed. rewrite upd_disk_eq. pose proof (x_n _ Hok). split.
  - rewrite (get_put_ints _ _ 0 (lh_n s)) by done. unfold int32, LOGSIZE in *. rewrite Z.mod_small by lia. lia.
  - apply list_eq. intros i. rewrite list_lookup_fmap. destruct (decide (i < n)) as [Hi|Hi].
    + destruct (lookup_lt_is_Some_2 homes i) as [h Hh]; [by rewrite homes_length|].
      rewrite lookup_seq_lt by done. cbn [fmap option_fmap option_map Nat.add].
      rewrite (get_put_ints _ _ (S i) h) by done. rewrite Hh. f_equal.
      destruct (x_home _ Hok h) as [_ Hr]; [by eapply list_elem_of_lookup_2|]. unfold int32. rewrite Z.mod_small by lia. lia.
    + rewrite lookup_seq_ge by lia. symmetry. apply lookup_ge_None_2. rewrite homes_length. lia.
Qed.

Lemma committed_wf : wf_disk st sz committed.
Proof.
  destruct committed_hdr as [H1 H2]. pose proof (x_n _ Hok). constructor; rewrite H1; fold n; rewrite ?H2.
  - done.
  - apply Hok.
  - apply Hok.
  - intros b Hb. by apply (x_home _ Hok).
Qed.

(** Once the header is written, recovery establishes the cached blocks. *)
Lemma committed_replay b : ~ in_area st sz b -> replay st committed b = cached s b.
Proof.
  intros Hb. destruct committed_hdr as [H1 H2]. pose proof (x_n _ Hok). pose proof (x_sz _ Hok).
  destruct (decide (b ∈ homes)) as [Hh|Hh].
  - apply list_elem_of_lookup_1 in Hh as [t Ht]. destruct (homes_nth t b Ht) as [_ Hlt].
    rewrite (replay_home st sz committed t b committed_wf) by (rewrite H1; fold n; by rewrite H2).
    unfold committed. rewrite upd_disk_ne by lia. by apply logged_slot.
  - rewrite replay_other by (rewrite H1; fold n; by rewrite H2).
    unfold committed. rewrite upd_disk_ne by (intros ->; apply Hb; unfold in_area, sz; lia).
    unfold logged. rewrite <- (take_ge (log_writes s 0 n) n) by (unfold log_writes; by rewrite length_fmap, length_seq).
    rewrite logged_other by (intros Hx; apply Hb; unfold in_area, sz; lia).
    unfold cached. destruct (dirty s !! b) eqn:Hd; [|done]. destruct Hh. by apply (x_dirty _ Hok).
Qed.

(** All the writes of [commit]. *)
Definition commit_writes : list (Z * block) := log_writes s 0 n ++ head_write :: recover_writes st committed.

(** A crash anywhere during [commit] leaves a disk that means the state before
    the transaction, or the state after it. *)
Lemma commit_prefix k :
  let d := apply_writes (take k commit_writes) (disk s) in
  wf_disk st sz d /\
  if decide (k <= n) then forall b, ~ in_area st sz b -> replay st d b = disk s b
  else forall b, ~ in_area st sz b -> replay st d b = cached s b.
Proof.
  pose proof (x_n _ Hok). pose proof (x_sz _ Hok).
  assert (length (log_writes s 0 n) = n) as Hll by (unfold log_writes; by rewrite length_fmap, length_seq).
  case_decide as Hk.
  - unfold commit_writes. rewrite take_app_le by lia. set (d := apply_writes _ _).
    assert (hdr_n st d = 0%Z) as Hh by (unfold hdr_n, d; rewrite logged_other by lia; apply (x_hdr _ Hok)).
    split; [apply cleared_wf; [unfold sz; lia|done]|]. intros b Hb. rewrite replay_empty by done.
    apply logged_other. intros Hx. apply Hb. unfold in_area, sz. lia.
  - assert (apply_writes (take k commit_writes) (disk s) = apply_writes (take (k - n - 1) (recover_writes st committed)) committed) as ->.
    { unfold commit_writes. rewrite take_app_ge by lia. rewrite Hll, apply_writes_app.
      destruct (k - n) as [|j] eqn:Hj; [lia|]. cbn [take]. replace (S j - 1) with j by lia. reflexivity. }
    destruct (recover_prefix st sz committed (k - n - 1) committed_wf) as [Hw Hr]. split; [done|].
    intros b Hb. rewrite Hr by done. by apply committed_replay.
Qed.

Lemma recovery_writes_committed : install_writes st (lh_block s) committed 0 n = recovery_writes st committed.
Proof.
  destruct committed_hdr as [H1 H2]. unfold recovery_writes, install_writes. rewrite H1. fold n. rewrite H2.
  apply list_fmap_ext. intros i k Hk. apply lookup_seq in Hk as [-> Hk]. f_equal.
  destruct (lookup_lt_is_Some_2 homes i) as [h Hh]; [by rewrite homes_length|].
  destruct (homes_nth i h Hh) as [Hn _]. cbn [Nat.add]. by rewrite Hn, nth_lookup, Hh.
Qed.

Lemma undirty_area w b : in_area st sz b -> undirty w (dirty s) !! b = None.
Proof. intros Hb. by apply undirty_none, area_not_dirty. Qed.

Lemma undirty_all w b : homes ⊆ w.*1 -> undirty w (dirty s) !! b = None.
Proof.
  intros Hsub. destruct (decide (b ∈ w.*1)) as [Hb|Hb].
  - clear Hsub. revert Hb. generalize (dirty s). induction w as [|[x v] w IH]; intros m Hb; [by apply elem_of_nil in Hb|].
    change (undirty w (delete x m) !! b = None). cbn in Hb. destruct (decide (b ∈ w.*1)) as [Hw|Hw]; [by apply IH|].
    apply elem_of_cons in Hb as [->|]; [|done]. apply undirty_none, lookup_delete_eq.
  - rewrite undirty_notin by done. destruct (dirty s !! b) eqn:Hd; [|done]. destruct Hb. apply Hsub.
    apply (x_dirty _ Hok). eauto.
Qed.

(** [commit] performs these writes and ends with an empty transaction. *)
Lemma commit_spec :
  (0 < lh_n s)%Z ->
  commit s = Ret (tt, mkLog (apply_writes commit_writes (disk s)) (undirty commit_writes (dirty s)) (writes s ++ commit_writes)
    (start s) (lsize s) (outstanding s) (committing s) 0 (lh_block s) (lsleep s)).
Proof.
  intros Hpos. pose proof (x_n _ Hok). pose proof (x_sz _ Hok). pose proof (x_len _ Hok).
  assert (in_area st sz st) as Harea by (unfold in_area, sz; lia).
  unfold commit. etransitivity; [apply (stm_bind_Ret get); reflexivity|]. rewrite decide_True by done.
  set (s1 := after_writes (log_writes s 0 n) s). set (s2 := after_writes [head_write] s1).
  set (s3 := after_writes (recovery_writes st committed) s2).
  etransitivity.
  { eapply (stm_bind_Ret _ _ _ tt s1). unfold write_log. etransitivity; [apply (stm_bind_Ret get); reflexivity|].
    apply write_log_loop_spec; [fold n; lia|lia|]. intros k Hk. apply home_not_area. fold n in Hk. lia. }
  etransitivity.
  { eapply (stm_bind_Ret _ _ _ tt s2). rewrite write_head_spec. unfold s2, head_write. do 4 f_equal. f_equal. f_equal.
    unfold cached, s1. cbn [after_writes disk dirty start]. fold st. rewrite undirty_area by done. cbn [default].
    rewrite <- (take_ge (log_writes s 0 n) n) by (unfold log_writes; by rewrite length_fmap, length_seq).
    apply logged_other. lia. }
  etransitivity.
  { eapply (stm_bind_Ret _ _ _ tt s3). unfold install_trans. etransitivity; [apply (stm_bind_Ret get); reflexivity|].
    unfold s3. rewrite <- recovery_writes_committed. apply install_loop_spec; cbn [s2 s1 after_writes lh_block lh_n lsize start dirty].
    - fold n. lia.
    - lia.
    - intros b Hb. rewrite <- undirty_app. by apply undirty_area.
    - intros k Hk. apply home_not_area. fold n in Hk. lia. }
  etransitivity; [apply (stm_bind_Ret get); reflexivity|]. etransitivity; [eapply stm_bind_Ret; reflexivity|].
  etransitivity; [apply write_head_spec|]. do 2 f_equal.
  unfold after_writes at 1. cbn [disk dirty writes start lsize outstanding committing lh_n lh_block lsleep s3 s2 s1 after_writes take Z.to_nat].
  unfold cached. cbn [disk dirty s3 s2 s1 after_writes].
  rewrite <- !undirty_app, <- !app_assoc. fold st. rewrite undirty_area by done. cbn [default].
  unfold commit_writes, recover_writes, clear_write. f_equal; try done.
  rewrite !apply_writes_app. etransitivity; [|symmetry; apply (apply_writes_app [head_write])].
  change (apply_writes [head_write] (apply_writes (log_writes s 0 n) (disk s))) with committed.
  by rewrite apply_writes_app.
Qed.

Lemma commit_writes_homes : homes ⊆ commit_writes.*1.
Proof.
  destruct committed_hdr as [H1 H2]. intros b Hb. unfold commit_writes, recover_writes.
  rewrite fmap_app, fmap_cons, fmap_app, recovery_writes_fst, H1. fold n. rewrite H2. set_solver.
Qed.
End Commit.
End Log.
