(* ===== verification/LogThms.v ===== *)
(** * Transactions of the log

    File-system operations run between [begin_op] and [end_op], in any
    interleaving: the log never overflows, a transaction is atomic with respect
    to crashes, and recovery can itself be interrupted. *)
From S2P Require Export Log.

Module LogThms.
Import Spin Log.

(** Sum of the blocks the active operations may still write. *)
Definition reserved (ops : gmap nat nat) : nat := map_fold (fun _ u r => (10 - u) + r) 0 ops.

Lemma reserved_insert i u ops : ops !! i = None -> reserved (<[i:=u]> ops) = (10 - u) + reserved ops.
Proof. intros Hi. unfold reserved. rewrite map_fold_insert_L; [done| |done]. intros. lia. Qed.

Lemma reserved_delete i u ops : ops !! i = Some u -> reserved ops = (10 - u) + reserved (delete i ops).
Proof. intros Hi. rewrite <- (reserved_insert i u (delete i ops)) by apply lookup_delete_eq. by rewrite insert_delete_id. Qed.

Lemma reserved_update i u v ops : ops !! i = Some u -> reserved (<[i:=v]> ops) + (10 - u) = reserved ops + (10 - v).
Proof.
  intros Hi. rewrite (reserved_delete i u ops Hi). rewrite <- insert_delete_eq, reserved_insert by apply lookup_delete_eq. lia.
Qed.

Lemma reserved_le ops : reserved ops <= 10 * size ops.
Proof.
  induction ops as [|i u m Hi IH] using map_ind; [unfold reserved; by rewrite map_fold_empty|].
  rewrite reserved_insert, map_size_insert_None by done. lia.
Qed.

(** ** Operations in any order *)

(** The state of the log, the active operations with the number of [log_write]s
    they have done, and the durable contents: what a crash would leave. *)
Record sys := mkSys { y_log : lstate; y_ops : gmap nat nat; y_durable : Z -> block }.

Inductive lstep : sys -> sys -> Prop :=
  | ls_begin s ops dur pid s' :
      ops !! pid = None -> begin_op pid s = Ret (Done tt, s') ->
      lstep (mkSys s ops dur) (mkSys s' (<[pid:=0]> ops) dur)
  | ls_sleep s ops dur pid s' :
      ops !! pid = None -> begin_op pid s = Ret (Sleeps tt, s') ->
      lstep (mkSys s ops dur) (mkSys s' ops dur)
  | ls_write s ops dur pid u b v s' :
      ops !! pid = Some u -> u < 10 ->
      ~ in_area (start s) (lsize s) b -> (-2147483648 <= b < 2147483648)%Z ->
      log_write b v s = Ret (tt, s') ->
      lstep (mkSys s ops dur) (mkSys s' (<[pid:=S u]> ops) dur)
  | ls_end s ops dur pid u s' :
      ops !! pid = Some u -> end_op s = Ret (tt, s') ->
      lstep (mkSys s ops dur)
            (mkSys s' (delete pid ops) (if decide (delete pid ops = ∅) then cached s else dur)).

(** From the recovery of a well-formed disk. *)
Inductive lreach (st sz : Z) (d0 : Z -> block) : sys -> Prop :=
  | lr_init s : initlog d0 st sz = Ret (tt, s) -> lreach st sz d0 (mkSys s ∅ (replay st d0))
  | lr_step x y : lreach st sz d0 x -> lstep x y -> lreach st sz d0 y.

(** The invariant of the transaction layer. *)
Record sys_inv (st sz : Z) (x : sys) : Prop := {
  i_tx : tx_ok (y_log x);
  i_st : start (y_log x) = st;
  i_sz : lsize (y_log x) = sz;
  i_out : outstanding (y_log x) = Z.of_nat (size (y_ops x));
  i_com : committing (y_log x) = false;
  i_space : (lh_n (y_log x) + Z.of_nat (reserved (y_ops x)) <= Z.of_nat LOGSIZE)%Z;
  i_idle : y_ops x = ∅ -> lh_n (y_log x) = 0%Z;
  i_dur b : ~ in_area st sz b -> disk (y_log x) b = y_durable x b;
  i_sleep : lsleep (y_log x) <> ∅ ->
    (lh_n (y_log x) + (outstanding (y_log x) + 1) * MAXOPBLOCKS > Z.of_nat LOGSIZE)%Z
}.

(** *** log_write *)

Lemma take_insert_new {A} (l : list A) i x : i < length l -> take (S i) (<[i:=x]> l) = take i l ++ [x].
Proof.
  intros Hi. rewrite (take_S_r _ _ x) by by apply list_lookup_insert_eq. by rewrite take_insert_ge.
Qed.

(** The state after [log_write b v]. *)
Definition logged_state (b : Z) (v : list Z) (s : lstate) : lstate :=
  let i := find_block b (lh_block s) (Z.to_nat (lh_n s)) in
  mkLog (disk s) (<[b:=v]> (dirty s)) (writes s) (start s) (lsize s) (outstanding s) (committing s)
    (if decide (Z.of_nat i = lh_n s) then lh_n s + 1 else lh_n s) (<[i:=b]> (lh_block s)) (lsleep s).

Lemma log_write_spec b v s :
  length (lh_block s) = LOGSIZE -> (0 <= lh_n s)%Z ->
  log_write b v s =
    if decide (Z.of_nat LOGSIZE <= lh_n s \/ lsize s - 1 <= lh_n s)%Z then Panic "too big a transaction"
    else if decide (outstanding s < 1)%Z then Panic "log_write outside of trans"
    else Ret (tt, logged_state b v s).
Proof.
  intros Hl Hn. unfold log_write. etransitivity; [apply (stm_bind_Ret get); reflexivity|].
  destruct (decide (Z.of_nat LOGSIZE <= lh_n s \/ lsize s - 1 <= lh_n s)%Z) as [|Hn']; [done|].
  destruct (decide (outstanding s < 1)%Z); [done|].
  pose proof (find_block_le b (lh_block s) (Z.to_nat (lh_n s))).
  unfold mbind, stm_bind, wrm. rewrite wr_lt by (rewrite Hl; unfold LOGSIZE in *; lia). done.
Qed.

Lemma logged_state_tx b v s :
  tx_ok s -> ~ in_area (start s) (lsize s) b -> (-2147483648 <= b < 2147483648)%Z ->
  (lh_n s < Z.of_nat LOGSIZE)%Z -> (lh_n s + 1 < lsize s)%Z ->
  tx_ok (logged_state b v s) /\ (lh_n s <= lh_n (logged_state b v s) <= lh_n s + 1)%Z.
Proof.
  intros Hok Hb Hr Hn Hsz. pose proof (x_n _ Hok). pose proof (x_len _ Hok) as Hl.
  set (n := Z.to_nat (lh_n s)). set (i := find_block b (lh_block s) n).
  assert (i <= n) as Hin by apply find_block_le. assert (n < length (lh_block s)) as Hnl by (rewrite Hl; unfold n; lia).
  unfold logged_state. fold n. fold i. cbn [lh_n].
  destruct (decide (Z.of_nat i = lh_n s)) as [Hi|Hi].
  - assert (i = n) as Hi' by (unfold n; lia). rewrite Hi'.
    assert (Hnot : b ∉ take n (lh_block s)) by (apply find_block_notin; [lia|exact Hi']).
    assert (Htake : take (Z.to_nat (lh_n s + 1)) (<[n:=b]> (lh_block s)) = take n (lh_block s) ++ [b]).
    { replace (Z.to_nat (lh_n s + 1)) with (S n) by (unfold n; lia). by apply take_insert_new. }
    destruct Hok as [? ? ? Hnd Hh Hd Hhdr]. fold n in Hnd, Hh, Hd.
    split; [|lia]. constructor; cbn [lh_block lh_n lsize start dirty disk]; rewrite ?Htake; try done.
    + by rewrite length_insert.
    + lia.
    + apply NoDup_app. split; [done|]. split; [|apply NoDup_singleton]. intros x Hx ->%list_elem_of_singleton. done.
    + intros x [Hx| ->%list_elem_of_singleton]%elem_of_app; [by apply Hh|done].
    + intros x. rewrite elem_of_app, list_elem_of_singleton, <- Hd. destruct (decide (x = b)) as [->|].
      * rewrite lookup_insert_eq. naive_solver.
      * rewrite lookup_insert_ne by done. naive_solver.
  - assert (i < n) as Hi' by (unfold n in *; lia).
    assert (lh_block s !! i = Some b) as Hlook by (apply find_block_lt; [exact Hi'|lia]).
    rewrite (list_insert_id _ _ _ Hlook). destruct Hok as [? ? ? Hnd Hh Hd Hhdr].
    split; [|lia]. constructor; cbn [lh_block lh_n lsize start dirty disk]; try done.
    intros x. rewrite <- Hd. destruct (decide (x = b)) as [->|]; [|by rewrite lookup_insert_ne].
    rewrite lookup_insert_eq. split; [|by intros; eauto]. intros _. apply Hd.
    apply (list_elem_of_lookup_2 _ i). by rewrite lookup_take_lt.
Qed.

(** *** end_op *)

(** The disk writes of the [end_op] of the last operation. *)
Definition end_writes (s : lstate) : list (Z * list Z) :=
  if decide (0 < lh_n s)%Z then commit_writes s else [].

Definition committed_state (s : lstate) : lstate :=
  mkLog (apply_writes (end_writes s) (disk s)) (undirty (end_writes s) (dirty s)) (writes s ++ end_writes s)
    (start s) (lsize s) 0 false 0 (lh_block s) ∅.

Lemma end_op_last s :
  tx_ok s -> committing s = false -> outstanding s = 1%Z -> end_op s = Ret (tt, committed_state s).
Proof.
  intros Hok Hc Ho. unfold end_op. etransitivity; [apply (stm_bind_Ret get); reflexivity|].
  rewrite Hc, decide_True by lia. rewrite Ho.
  set (s1 := mkLog (disk s) (dirty s) (writes s) (start s) (lsize s) (1 - 1) true (lh_n s) (lh_block s) (lsleep s)).
  etransitivity; [eapply (stm_bind_Ret _ _ _ tt s1); reflexivity|].
  assert (tx_ok s1) as Hok1 by (destruct Hok; by constructor).
  assert (commit s1 = Ret (tt, mkLog (apply_writes (end_writes s) (disk s)) (undirty (end_writes s) (dirty s))
    (writes s ++ end_writes s) (start s) (lsize s) (1 - 1) true 0 (lh_block s) (lsleep s))) as Hcm.
  { unfold end_writes. destruct (decide (0 < lh_n s)%Z) as [Hp|Hp].
    - rewrite (commit_spec s1 Hok1) by done. done.
    - pose proof (x_n _ Hok). unfold commit. etransitivity; [apply (stm_bind_Ret get); reflexivity|].
      rewrite decide_False by done. assert (lh_n s = 0%Z) as Hz by lia. unfold s1. rewrite Hz, app_nil_r. done. }
  etransitivity; [eapply stm_bind_Ret, Hcm|]. done.
Qed.

Lemma end_op_more s :
  committing s = false -> outstanding s <> 1%Z ->
  end_op s = Ret (tt, mkLog (disk s) (dirty s) (writes s) (start s) (lsize s) (outstanding s - 1) false (lh_n s) (lh_block s) ∅).
Proof.
  intros Hc Ho. unfold end_op. etransitivity; [apply (stm_bind_Ret get); reflexivity|].
  rewrite Hc, decide_False by lia. done.
Qed.

(** A crash during the commit, then recovery. *)
Lemma end_writes_prefix s k :
  tx_ok s -> let d := apply_writes (take k (end_writes s)) (disk s) in
  wf_disk (start s) (lsize s) d /\
  ((forall b, ~ in_area (start s) (lsize s) b -> replay (start s) d b = disk s b) \/
   (forall b, ~ in_area (start s) (lsize s) b -> replay (start s) d b = cached s b)).
Proof.
  intros Hok. unfold end_writes. destruct (decide (0 < lh_n s)%Z) as [Hp|Hp]; cbv zeta.
  - pose proof (commit_prefix s Hok k) as [Hw Hr]. split; [done|]. case_decide; [by left|by right].
  - rewrite take_nil. pose proof (x_n _ Hok). pose proof (x_sz _ Hok). cbn. split.
    + apply cleared_wf; [lia|apply Hok].
    + left. intros b _. apply replay_empty, Hok.
Qed.

Lemma committed_state_ok s :
  tx_ok s -> tx_ok (committed_state s) /\
  forall b, ~ in_area (start s) (lsize s) b -> disk (committed_state s) b = cached s b.
Proof.
  intros Hok. pose proof (x_n _ Hok). pose proof (x_sz _ Hok). unfold committed_state, end_writes.
  destruct (decide (0 < lh_n s)%Z) as [Hp|Hp].
  - set (d := apply_writes (commit_writes s) (disk s)).
    assert (Hhdr : hdr_n (start s) d = 0%Z).
    { unfold d, commit_writes. rewrite apply_writes_app. unfold recover_writes.
      change (head_write s :: ?l ++ ?m) with ((head_write s :: l) ++ m). rewrite apply_writes_app. apply clear_header. }
    assert (Hlen : take (length (commit_writes s)) (commit_writes s) = commit_writes s) by by apply take_ge.
    pose proof (commit_prefix s Hok (length (commit_writes s))) as [_ Hr]. rewrite Hlen in Hr. fold d in Hr.
    rewrite decide_False in Hr.
    2:{ unfold commit_writes, log_writes. rewrite length_app, length_fmap, length_seq. cbn. lia. }
    split.
    + destruct Hok as [? ? ? ? ? ? ?]. constructor; cbn [lh_block lh_n lsize start dirty disk take Z.to_nat]; [done|unfold LOGSIZE; lia|lia|apply NoDup_nil_2|by intros ? ?%elem_of_nil| |done].
      intros b. rewrite undirty_all by (try done; try (by constructor); apply commit_writes_homes; by constructor).
      split; [by intros [? ?]|by intros ?%elem_of_nil].
    + intros b Hb. cbn [disk]. rewrite <- Hr by done. symmetry. by apply replay_empty.
  - assert (lh_n s = 0%Z) as Hz by lia. split.
    + destruct Hok as [? ? ? ? ? Hd ?]. rewrite Hz in *. constructor; cbn [lh_block lh_n lsize start dirty disk apply_writes undirty foldl]; done.
    + intros b Hb. cbn. unfold cached. destruct (dirty s !! b) eqn:Hd; [|done].
      exfalso. assert (b ∈ take (Z.to_nat (lh_n s)) (lh_block s)) as Hin by (apply (x_dirty _ Hok); eauto).
      rewrite Hz in Hin. by apply elem_of_nil in Hin.
Qed.

(** ** The invariant holds *)

Lemma begin_op_spec pid s :
  committing s = false ->
  begin_op pid s =
    if decide (lh_n s + (outstanding s + 1) * MAXOPBLOCKS > Z.of_nat LOGSIZE)%Z then
      Ret (Sleeps tt, mkLog (disk s) (dirty s) (writes s) (start s) (lsize s) (outstanding s) (committing s) (lh_n s)
                       (lh_block s) ({[pid]} ∪ lsleep s))
    else Ret (Done tt, mkLog (disk s) (dirty s) (writes s) (start s) (lsize s) (outstanding s + 1) false (lh_n s)
                       (lh_block s) (lsleep s)).
Proof.
  intros Hc. destruct s. cbn in Hc. subst. unfold begin_op. etransitivity; [apply (stm_bind_Ret get); reflexivity|].
  cbn [committing lh_n outstanding]. case_decide; reflexivity.
Qed.

Lemma tx_ok_same s s' :
  tx_ok s -> disk s' = disk s -> dirty s' = dirty s -> start s' = start s -> lsize s' = lsize s -> lh_n s' = lh_n s ->
  lh_block s' = lh_block s -> tx_ok s'.
Proof. intros [] H1 H2 H3 H4 H5 H6. constructor; rewrite ?H1, ?H2, ?H3, ?H4, ?H5, ?H6; done. Qed.

Section Inv.
Context (st sz : Z) (Hsz : (Z.of_nat LOGSIZE < sz)%Z).

Lemma sys_inv_begin s ops dur pid s' :
  sys_inv st sz (mkSys s ops dur) -> ops !! pid = None -> begin_op pid s = Ret (Done tt, s') ->
  sys_inv st sz (mkSys s' (<[pid:=0]> ops) dur).
Proof.
  intros [Htx Hst Hs Ho Hc Hsp Hid Hd Hsl] Hp Hb. cbn in *. rewrite begin_op_spec in Hb by done.
  case_decide as Hg; [done|]. injection Hb as <-. constructor; cbn; try done.
  - by eapply tx_ok_same.
  - rewrite map_size_insert_None by done. lia.
  - rewrite reserved_insert by done. pose proof (reserved_le ops). unfold MAXOPBLOCKS in Hg. lia.
  - intros He. exfalso. apply (f_equal (lookup pid)) in He. by rewrite lookup_insert_eq, lookup_empty in He.
  - intros Hne. specialize (Hsl Hne). unfold MAXOPBLOCKS in *. lia.
Qed.

Lemma sys_inv_sleep s ops dur pid s' :
  sys_inv st sz (mkSys s ops dur) -> begin_op pid s = Ret (Sleeps tt, s') -> sys_inv st sz (mkSys s' ops dur).
Proof.
  intros [Htx Hst Hs Ho Hc Hsp Hid Hd Hsl] Hb. cbn in *. rewrite begin_op_spec in Hb by done.
  case_decide as Hg; [|done]. injection Hb as <-. constructor; cbn; try done. by eapply tx_ok_same.
Qed.

(** A valid [log_write] does not panic. *)
Lemma sys_inv_log_write s ops dur pid u b v :
  sys_inv st sz (mkSys s ops dur) -> ops !! pid = Some u -> u < 10 ->
  log_write b v s = Ret (tt, logged_state b v s).
Proof.
  intros [Htx Hst Hs Ho Hc Hsp Hid Hd Hsl] Hp Hu. cbn in *. pose proof (x_n _ Htx).
  assert (reserved ops >= 1) by (rewrite (reserved_delete pid u ops Hp); lia).
  rewrite log_write_spec by (apply Htx || lia). rewrite decide_False by lia. rewrite decide_False; [done|].
  rewrite Ho. assert (size ops <> 0); [|lia]. rewrite map_size_non_empty_iff. intros ->. by rewrite lookup_empty in Hp.
Qed.

Lemma sys_inv_write s ops dur pid u b v :
  sys_inv st sz (mkSys s ops dur) -> ops !! pid = Some u -> u < 10 ->
  ~ in_area (start s) (lsize s) b -> (-2147483648 <= b < 2147483648)%Z ->
  sys_inv st sz (mkSys (logged_state b v s) (<[pid:=S u]> ops) dur).
Proof.
  intros [Htx Hst Hs Ho Hc Hsp Hid Hd Hsl] Hp Hu Hb Hr. cbn in *. pose proof (x_n _ Htx).
  pose proof (reserved_update pid u (S u) ops Hp).
  assert (reserved ops >= 1) by (rewrite (reserved_delete pid u ops Hp); lia).
  destruct (logged_state_tx b v s Htx Hb Hr ltac:(lia) ltac:(lia)) as [Htx' Hn'].
  constructor; cbn [y_log y_ops y_durable]; try done.
  - cbn [logged_state outstanding]. rewrite Ho. by rewrite map_size_insert_Some by eauto.
  - lia.
  - intros He. exfalso. apply (f_equal (lookup pid)) in He. by rewrite lookup_insert_eq, lookup_empty in He.
  - intros Hne. specialize (Hsl Hne). change (outstanding (logged_state b v s)) with (outstanding s).
    unfold MAXOPBLOCKS in *. lia.
Qed.

Lemma sys_inv_end s ops dur pid u s' :
  sys_inv st sz (mkSys s ops dur) -> ops !! pid = Some u -> end_op s = Ret (tt, s') ->
  sys_inv st sz (mkSys s' (delete pid ops) (if decide (delete pid ops = ∅) then cached s else dur)).
Proof.
  intros [Htx Hst Hs Ho Hc Hsp Hid Hd Hsl] Hp He. cbn in *.
  pose proof (reserved_delete pid u ops Hp) as Hrd.
  assert (Hsize : size ops = S (size (delete pid ops))).
  { rewrite <- (map_size_insert_None pid u (delete pid ops)) by apply lookup_delete_eq. by rewrite insert_delete_id. }
  destruct (decide (delete pid ops = ∅)) as [Hemp|Hne].
  - rewrite Hemp, map_size_empty in Hsize. rewrite end_op_last in He by (done || lia). injection He as <-.
    destruct (committed_state_ok s Htx) as [Htx' Hd']. rewrite Hemp. constructor; cbn; try done.
    intros b Hb. apply Hd'. by rewrite Hst, Hs.
  - rewrite end_op_more in He; [|done|].
    2:{ rewrite Ho, Hsize. apply map_size_non_empty_iff in Hne. lia. }
    injection He as <-. constructor; cbn; try done.
    + by eapply tx_ok_same.
    + lia.
    + lia.
Qed.

Lemma sys_inv_step x y : sys_inv st sz x -> lstep x y -> sys_inv st sz y.
Proof.
  intros Hi Hs. destruct Hs as [s ops dur pid s' Hp Hb|s ops dur pid s' _ Hb|s ops dur pid u b v s' Hp Hu Ha Hr Hw|s ops dur pid u s' Hp He].
  - by eapply sys_inv_begin.
  - by eapply sys_inv_sleep.
  - rewrite (sys_inv_log_write s ops dur pid u b v Hi Hp Hu) in Hw. injection Hw as <-. by eapply sys_inv_write.
  - by eapply sys_inv_end.
Qed.

Lemma sys_inv_init d0 s :
  wf_disk st sz d0 -> initlog d0 st sz = Ret (tt, s) -> sys_inv st sz (mkSys s ∅ (replay st d0)).
Proof.
  intros Hwf Hi. destruct (initlog_spec st sz d0 Hwf) as (s' & Hs & Hw & Hd & Hdi & Hn & Ho & Hc & Hst & Hz & Hl & Hsl).
  rewrite Hs in Hi. injection Hi as <-.
  assert (Hhdr : hdr_n st (disk s') = 0%Z).
  { rewrite Hd. unfold recover_writes. rewrite apply_writes_app. apply clear_header. }
  constructor; cbn; rewrite ?Hn, ?Hc, ?Ho; try done.
  - constructor; rewrite ?Hn, ?Hdi, ?Hst, ?Hz; cbn [take Z.to_nat]; [done|unfold LOGSIZE; lia|lia|apply NoDup_nil_2|by intros ? ?%elem_of_nil| |done].
    intros b. rewrite lookup_empty. split; [by intros [? ?]|by intros ?%elem_of_nil].
  - intros b Hb. pose proof (recover_prefix st sz d0 (length (recover_writes st d0)) Hwf) as [_ Hr].
    rewrite take_ge in Hr by done. rewrite <- Hr, Hd by done. symmetry. apply replay_empty. by rewrite <- Hd.
Qed.

Lemma lreach_inv d0 x : wf_disk st sz d0 -> lreach st sz d0 x -> sys_inv st sz x.
Proof. intros Hwf. induction 1 as [s Hi|x y _ IH Hs]; [by apply sys_inv_init|by eapply sys_inv_step]. Qed.
End Inv.

(** ** Theorems *)

(** Recovery returns with the replayed contents. *)
Lemma initlog_recovers st sz d :
  wf_disk st sz d -> exists s, initlog d st sz = Ret (tt, s) /\ writes s = recover_writes st d /\
    forall b, ~ in_area st sz b -> disk s b = replay st d b.
Proof.
  intros Hwf. destruct (initlog_spec st sz d Hwf) as (s & Hs & Hw & Hd & _). exists s. split_and!; [done..|].
  intros b Hb. pose proof (recover_prefix st sz d (length (recover_writes st d)) Hwf) as [_ Hr].
  rewrite take_ge in Hr by done. rewrite <- Hr, Hd by done. symmetry. apply replay_empty.
  unfold recover_writes. rewrite apply_writes_app. apply clear_header.
Qed.


(** C28. Recovery may be interrupted by another crash: after any prefix of its
    disk writes, the next recovery establishes the same contents. *)
Theorem recovery_idempotent st sz d s k :
  wf_disk st sz d -> initlog d st sz = Ret (tt, s) ->
  exists s2, initlog (apply_writes (take k (writes s)) d) st sz = Ret (tt, s2) /\
    forall b, ~ in_area st sz b -> disk s2 b = disk s b.
Proof.
  intros Hwf Hi. destruct (initlog_recovers st sz d Hwf) as (s1 & Hs1 & Hw & Hd1). rewrite Hs1 in Hi. injection Hi as <-.
  destruct (recover_prefix st sz d k Hwf) as [Hwf' Hr]. rewrite <- Hw in *.
  destruct (initlog_recovers st sz _ Hwf') as (s2 & Hs2 & _ & Hd2). exists s2. split; [done|].
  intros b Hb. by rewrite Hd2, Hr, Hd1.
Qed.


(** A blank disk of zero blocks. *)
Definition blank : Z -> list Z := fun _ => replicate 512 0%Z.

Lemma blank_wf sz : (0 < sz)%Z -> wf_disk 2 sz blank.
Proof. intros. apply cleared_wf; [done|]. reflexivity. Qed.

(** One operation begins and writes a block. *)
Lemma one_op_reach : exists s, lreach 2 31 blank (mkSys s {[7 := 1]} (replay 2 blank)) /\ dirty s !! 100%Z = Some [1%Z].
Proof.
  destruct (initlog_recovers 2 31 blank (blank_wf 31 ltac:(lia))) as (s0 & H0 & _).
  pose proof (lr_init 2 31 blank s0 H0) as R0.
  pose proof (lreach_inv 2 31 ltac:(unfold LOGSIZE; lia) blank _ (blank_wf 31 ltac:(lia)) R0) as I0.
  destruct (initlog_spec 2 31 blank (blank_wf 31 ltac:(lia))) as (s0' & H0' & _ & _ & _ & Hn & Ho & Hc & Hst & Hz & _).
  rewrite H0 in H0'. injection H0' as <-.
  pose proof (begin_op_spec 7 s0 Hc) as Hb. rewrite decide_False in Hb by (rewrite Hn, Ho; unfold MAXOPBLOCKS, LOGSIZE; lia).
  match type of Hb with _ = Ret (_, ?x) => set (s1 := x) in * end.
  pose proof (lr_step _ _ _ _ _ R0 (ls_begin s0 ∅ _ 7 s1 eq_refl Hb)) as R1.
  pose proof (lreach_inv 2 31 ltac:(unfold LOGSIZE; lia) blank _ (blank_wf 31 ltac:(lia)) R1) as I1.
  pose proof (sys_inv_log_write 2 31 ltac:(unfold LOGSIZE; lia) s1 _ _ 7 0 100 [1%Z] I1 eq_refl ltac:(lia)) as Hw.
  exists (logged_state 100 [1%Z] s1). split; [|apply lookup_insert_eq].
  assert ({[7 := 1]} = <[7:=1]> (<[7:=0]> (∅ : gmap nat nat))) as -> by by rewrite insert_insert_eq.
  eapply lr_step; [exact R1|]. eapply (ls_write s1 _ _ 7 0 100 [1%Z]); [done|lia| |lia|exact Hw].
  cbn. rewrite Hst, Hz. unfold in_area. lia.
Qed.


Lemma recovery_idempotent_witness :
  exists s s2, initlog blank 2 30 = Ret (tt, s) /\ initlog (apply_writes (take 1 (writes s)) blank) 2 30 = Ret (tt, s2) /\
    forall b, ~ in_area 2 30 b -> disk s2 b = disk s b.
Proof.
  destruct (initlog_recovers 2 30 blank (blank_wf 30 ltac:(lia))) as (s & Hs & _).
  destruct (recovery_idempotent 2 30 blank s 1 (blank_wf 30 ltac:(lia)) Hs) as (s2 & H1 & H2).
  exists s, s2. split; [exact Hs|]. split; [exact H1|exact H2].
Defined.


(** ** A log area of [LOGSIZE] blocks *)

Inductive event := EBegin (pid : nat) | EWrite (pid : nat) (b : Z).

(** Running events that succeed. *)
Definition run_event (e : event) (x : sys) : option sys :=
  let '(mkSys s ops dur) := x in
  match e with
  | EBegin pid =>
      match ops !! pid, begin_op pid s with
      | None, Ret (Done tt, s') => Some (mkSys s' (<[pid:=0]> ops) dur)
      | _, _ => None
      end
  | EWrite pid b =>
      match ops !! pid with
      | Some u =>
          if decide (u < 10 /\ ~ in_area (start s) (lsize s) b /\ (-2147483648 <= b < 2147483648)%Z) then
            match log_write b [] s with
            | Ret (tt, s') => Some (mkSys s' (<[pid:=S u]> ops) dur)
            | _ => None
            end
          else None
      | None => None
      end
  end.

Fixpoint run_events (es : list event) (x : sys) : option sys :=
  match es with
  | [] => Some x
  | e :: es => match run_event e x with Some x => run_events es x | None => None end
  end.

Lemma run_events_reach st sz d0 es x y :
  lreach st sz d0 x -> run_events es x = Some y -> lreach st sz d0 y.
Proof.
  revert x. induction es as [|e es IH]; intros x Hr Hx; cbn in Hx; [by simplify_eq|].
  destruct (run_event e x) as [x'|] eqn:He; [|done]. apply (IH x'); [|done].
  eapply lr_step; [exact Hr|]. destruct x as [s ops dur], e as [pid|pid b]; cbn in He.
  - destruct (ops !! pid) eqn:Ho; [done|]. destruct (begin_op pid s) as [[[[]|] s']| | |] eqn:Hb; simplify_eq.
    by constructor.
  - destruct (ops !! pid) as [u|] eqn:Ho; [|done]. case_decide as Hg; [|done]. destruct Hg as (? & ? & ?).
    destruct (log_write b [] s) as [[[] s']| | |] eqn:Hw; simplify_eq. by econstructor.
Qed.

(** Three operations write ten blocks each, but for the last one. *)
Definition three_ops : list event :=
  [EBegin 0; EBegin 1; EBegin 2] ++
  ((fun k => EWrite (k / 10) (100 + Z.of_nat k)) <$> seq 0 29).

(** [mkfs] makes a log area of [nlog = LOGSIZE] blocks, header included, but
    [begin_op] gives out reservations for [LOGSIZE] data blocks: three
    operations that keep within their [MAXOPBLOCKS] reach a [log_write] that
    panics. *)
Theorem log_reservation_overflow :
  exists s ops dur, lreach 2 30 blank (mkSys s ops dur) /\ ops !! 2 = Some 9 /\
    log_write 129 [] s = Panic "too big a transaction".
Proof.
  destruct (initlog blank 2 30) as [[[] s0]| | |] eqn:H0; [|by vm_compute in H0..].
  assert (match initlog blank 2 30 with
          | Ret (_, s0) => match run_events three_ops (mkSys s0 ∅ (replay 2 blank)) with
                           | Some (mkSys s ops _) => bool_decide (ops !! 2 = Some 9) &&
                               (match log_write 129 [] s with Panic m => bool_decide (m = "too big a transaction"%string) | _ => false end)
                           | None => false
                           end
          | _ => false
          end = true) as Hc by (vm_compute; reflexivity).
  rewrite H0 in Hc. destruct (run_events three_ops _) as [[s ops dur]|] eqn:He; [|done].
  apply andb_true_iff in Hc as [Hc1%bool_decide_eq_true Hc2]. exists s, ops, dur. split_and!; [|done|].
  - eapply run_events_reach; [by apply lr_init|exact He].
  - destruct (log_write 129 [] s); try done. by apply bool_decide_eq_true in Hc2 as ->.
Qed.

End LogThms.
