(* ===== verification/Bio.v ===== *)
(** * The buffer cache

    Models [src/xv6-public/bio.c] and the queue of [src/xv6-public/ide.c]: the
    buffers with their doubly linked list (entry [NBUF] of the table is
    [bcache.head]), [bget], [bread], [bwrite] and [brelse], and the disk driver
    [idestart], [ideintr] and [iderw] with the command registers of the disk and
    its lock.  A sleep lock is represented by the pid that holds
    it, the flags [B_VALID] and [B_DIRTY] by two booleans. *)
From S2P Require Export Spinlock.

Module Bio.
Import Spin Locked.

Definition NBUF : nat := 30.
Definition HEAD : nat := NBUF.
Definition FSSIZE : Z := 1000.
Definition BSIZE : Z := 512.
Definition SECTOR_SIZE : Z := 512.
Definition ROOTDEV : Z := 1.
Notation block := (list Z).

(** [struct buf]. *)
Record buf := mkBuf {
  b_valid : bool;
  b_dirty : bool;
  b_dev : Z;
  b_blockno : Z;
  b_lock : option Z;
  b_refcnt : Z;
  b_prev : nat;
  b_next : nat;
  b_data : block
}.

Definition buf0 : buf := mkBuf false false 0 0 None 0 0 0 [].

Definition set_flags v d b := mkBuf v d (b_dev b) (b_blockno b) (b_lock b) (b_refcnt b) (b_prev b) (b_next b) (b_data b).
Definition set_id dv bn b := mkBuf (b_valid b) (b_dirty b) dv bn (b_lock b) (b_refcnt b) (b_prev b) (b_next b) (b_data b).
Definition set_lock l b := mkBuf (b_valid b) (b_dirty b) (b_dev b) (b_blockno b) l (b_refcnt b) (b_prev b) (b_next b) (b_data b).
Definition set_refcnt r b := mkBuf (b_valid b) (b_dirty b) (b_dev b) (b_blockno b) (b_lock b) r (b_prev b) (b_next b) (b_data b).
Definition set_prev p b := mkBuf (b_valid b) (b_dirty b) (b_dev b) (b_blockno b) (b_lock b) (b_refcnt b) p (b_next b) (b_data b).
Definition set_next n b := mkBuf (b_valid b) (b_dirty b) (b_dev b) (b_blockno b) (b_lock b) (b_refcnt b) (b_prev b) n (b_data b).
Definition set_data v b := mkBuf (b_valid b) (b_dirty b) (b_dev b) (b_blockno b) (b_lock b) (b_refcnt b) (b_prev b) (b_next b) v.

(** The registers of a started disk command: the number of sectors, the sector
    number in three bytes, the drive and the last bits of the sector number in
    one, and for a write the data. *)
Record cmd := mkCmd {
  c_count : Z;
  c_lba0 : Z;
  c_lba1 : Z;
  c_lba2 : Z;
  c_head : Z;
  c_data : option block
}.

(** [bcache]; the driver's lock and queue ([idequeue] and the [qnext] links, in
    order); the disk: the command it works on, the sectors it has an error on,
    and the contents of its drives. *)
Record bcache := mkCache {
  bufs : list buf;
  idelock : spinlock;
  idequeue : list nat;
  havedisk1 : bool;
  ide_cmd : option cmd;
  dskerr : Z -> Z -> bool;
  dsk : Z -> Z -> block
}.

Definition with_bufs (l : list buf) (d : bcache) : bcache :=
  mkCache l (idelock d) (idequeue d) (havedisk1 d) (ide_cmd d) (dskerr d) (dsk d).
Definition with_idelock (l : spinlock) (d : bcache) : bcache :=
  mkCache (bufs d) l (idequeue d) (havedisk1 d) (ide_cmd d) (dskerr d) (dsk d).
Definition with_queue (q : list nat) (d : bcache) : bcache :=
  mkCache (bufs d) (idelock d) q (havedisk1 d) (ide_cmd d) (dskerr d) (dsk d).
Definition with_cmd (c : option cmd) (d : bcache) : bcache :=
  mkCache (bufs d) (idelock d) (idequeue d) (havedisk1 d) c (dskerr d) (dsk d).
Definition with_dsk (k : Z -> Z -> block) (d : bcache) : bcache :=
  mkCache (bufs d) (idelock d) (idequeue d) (havedisk1 d) (ide_cmd d) (dskerr d) k.

Section Ops.
Context (me : nat).
Definition bm A := stm (guarded bcache) A.

Definition rdb (i : nat) : bm buf := fun s => b ← rd (bufs (l_data s)) i; Ret (b, s).
Definition updb (i : nat) (f : buf -> buf) : bm unit := fun s =>
  let d := l_data s in
  b ← rd (bufs d) i;
  Ret (tt, mkL (l_lock s) (l_cpu s) (with_bufs (<[i:=f b]> (bufs d)) d)).

(** Linking buffer [i] in after the head. *)
Definition link_front (i : nat) : bm unit :=
  h ← rdb HEAD;
  updb i (set_next (b_next h)) ;;
  updb i (set_prev HEAD) ;;
  h ← rdb HEAD;
  updb (b_next h) (set_prev i) ;;
  updb HEAD (set_next i).

Fixpoint binit_loop (i n : nat) : bm unit :=
  match n with
  | O => mret tt
  | S n => link_front i ;; updb i (set_lock None) ;; binit_loop (S i) n
  end.

Definition binit : bm unit :=
  updb HEAD (set_prev HEAD) ;;
  updb HEAD (set_next HEAD) ;;
  binit_loop 0 NBUF.

(** The first loop of [bget], along [next] from [b]; the list has at most
    [NBUF] buffers. *)
Fixpoint find_cached (fuel b : nat) (dev blockno : Z) : bm (option nat) :=
  if decide (b = HEAD) then mret None
  else match fuel with
  | O => undef "bget: list longer than NBUF"
  | S fuel =>
      p ← rdb b;
      if decide (b_dev p = dev /\ b_blockno p = blockno) then mret (Some b)
      else find_cached fuel (b_next p) dev blockno
  end.

(** The second loop, along [prev]. *)
Fixpoint find_unused (fuel b : nat) : bm (option nat) :=
  if decide (b = HEAD) then mret None
  else match fuel with
  | O => undef "bget: list longer than NBUF"
  | S fuel =>
      p ← rdb b;
      if decide (b_refcnt p = 0%Z /\ b_dirty p = false) then mret (Some b)
      else find_unused fuel (b_prev p)
  end.

(** [acquiresleep(&b->lock)] by [pid], one pass. *)
Definition lock_buf (pid : Z) (b : nat) : bm (waiting nat) :=
  p ← rdb b;
  match b_lock p with
  | None => updb b (set_lock (Some pid)) ;; mret (Done b)
  | Some _ => mret (Sleeps b)
  end.

Definition bget (pid dev blockno : Z) : bm (waiting nat) :=
  lk_acquire me ;;
  h ← rdb HEAD;
  f ← find_cached NBUF (b_next h) dev blockno;
  match f with
  | Some b =>
      p ← rdb b;
      updb b (set_refcnt (uint32 (b_refcnt p + 1))) ;;
      lk_release me ;;
      lock_buf pid b
  | None =>
      h ← rdb HEAD;
      u ← find_unused NBUF (b_prev h);
      match u with
      | Some b =>
          updb b (set_id dev blockno) ;;
          updb b (set_flags false false) ;;
          updb b (set_refcnt 1) ;;
          lk_release me ;;
          lock_buf pid b
      | None => panic "bget: no buffers"
      end
  end.

(** ** The disk driver *)

Definition ide_acquire : bm unit := fun s =>
  '(l, c) ← acquire me (idelock (l_data s)) (l_cpu s); Ret (tt, mkL (l_lock s) c (with_idelock l (l_data s))).
Definition ide_release : bm unit := fun s =>
  '(l, c) ← release me (idelock (l_data s)) (l_cpu s); Ret (tt, mkL (l_lock s) c (with_idelock l (l_data s))).
Definition updd (f : bcache -> bcache) : bm unit := d ← getd; setd (f d).

Definition sector_per_block : Z := BSIZE / SECTOR_SIZE.

Definition idestart (b : nat) : bm unit :=
  p ← rdb b;
  if decide (FSSIZE <= b_blockno p)%Z then panic "incorrect blockno"
  else if decide (7 < sector_per_block)%Z then panic "idestart"
  else
    let sector := int32 (b_blockno p * sector_per_block) in
    updd (with_cmd (Some (mkCmd sector_per_block (Z.land sector 255) (Z.land (Z.shiftr sector 8) 255)
      (Z.land (Z.shiftr sector 16) 255)
      (Z.lor (Z.lor 224 (Z.shiftl (Z.land (b_dev p) 1) 4)) (Z.land (Z.shiftr sector 24) 15))
      (if b_dirty p then Some (b_data p) else None)))).

(** The disk does the command of its registers; the data it has for a read. *)
Definition cmd_drive (c : cmd) : Z := Z.land (Z.shiftr (c_head c) 4) 1.
Definition cmd_sector (c : cmd) : Z :=
  (c_lba0 c + Z.shiftl (c_lba1 c) 8 + Z.shiftl (c_lba2 c) 16 + Z.shiftl (Z.land (c_head c) 15) 24)%Z.
Definition disk_done : bm (option block) :=
  d ← getd;
  match ide_cmd d with
  | None => mret None
  | Some c =>
      let dv := cmd_drive c in
      let sn := cmd_sector c in
      setd (with_cmd None d) ;;
      if dskerr d dv sn then mret None
      else match c_data c with
      | Some v =>
          updd (with_dsk (fun dv' sn' => if decide (dv' = dv /\ sn' = sn) then v else dsk d dv' sn')) ;; mret None
      | None => mret (Some (dsk d dv sn))
      end
  end.

(** [ideintr], once the disk is done with the command; [idewait(1)] tells
    whether it has data. *)
Definition ideintr : bm unit :=
  v ← disk_done;
  ide_acquire ;;
  d ← getd;
  match idequeue d with
  | [] => ide_release
  | b :: q =>
      setd (with_queue q d) ;;
      p ← rdb b;
      match v with
      | Some v => if b_dirty p then mret tt else updb b (set_data v)
      | None => mret tt
      end ;;
      updb b (set_flags true false) ;;
      match q with [] => mret tt | b' :: _ => idestart b' end ;;
      ide_release
  end.

(** The loop of [iderw]: while the caller sleeps, with [idelock] released, the
    disk completes the queued requests. *)
Fixpoint ide_wait (fuel b : nat) : bm unit :=
  p ← rdb b;
  if (b_valid p && negb (b_dirty p))%bool then mret tt
  else match fuel with
  | O => hang "iderw: no request for the buffer"
  | S fuel => ide_release ;; ideintr ;; ide_acquire ;; ide_wait fuel b
  end.

Definition iderw (pid : Z) (b : nat) : bm unit :=
  p ← rdb b;
  if decide (b_lock p <> Some pid) then panic "iderw: buf not locked"
  else if (b_valid p && negb (b_dirty p))%bool then panic "iderw: nothing to do"
  else
    d ← getd;
    if (bool_decide (b_dev p <> 0%Z) && negb (havedisk1 d))%bool then panic "iderw: ide disk 1 not present"
    else
      ide_acquire ;;
      d ← getd;
      setd (with_queue (idequeue d ++ [b]) d) ;;
      (if decide (idequeue d = []) then idestart b else mret tt) ;;
      ide_wait (S (length (idequeue d))) b ;;
      ide_release.

Definition bread (pid dev blockno : Z) : bm (waiting nat) :=
  r ← bget pid dev blockno;
  match r with
  | Sleeps b => mret (Sleeps b)
  | Done b =>
      p ← rdb b;
      (if b_valid p then mret tt else iderw pid b) ;;
      mret (Done b)
  end.

Definition bwrite (pid : Z) (b : nat) : bm unit :=
  p ← rdb b;
  if decide (b_lock p <> Some pid) then panic "bwrite"
  else updb b (set_flags (b_valid p) true) ;; iderw pid b.

(** [b->next->prev = b->prev; b->prev->next = b->next]. *)
Definition unlink (b : nat) : bm unit :=
  p ← rdb b;
  updb (b_next p) (set_prev (b_prev p)) ;;
  p ← rdb b;
  updb (b_prev p) (set_next (b_next p)).

Definition brelse (pid : Z) (b : nat) : bm unit :=
  p ← rdb b;
  if decide (b_lock p <> Some pid) then panic "brelse"
  else
    updb b (set_lock None) ;;
    lk_acquire me ;;
    p ← rdb b;
    updb b (set_refcnt (uint32 (b_refcnt p - 1))) ;;
    p ← rdb b;
    (if decide (b_refcnt p = 0%Z) then
       unlink b ;; link_front b
     else mret tt) ;;
    lk_release me.
End Ops.
End Bio.
