(* ===== verification/BioThms.v ===== *)
(** * The buffer cache: its linked list

    The [next] and [prev] links of [bio.c] as a list of buffers ([linked]), the
    rules for linking a buffer in and out, and for the two loops of [bget]. *)
From S2P Require Export Bio.

Module BioThms.
Import Spin Locked Bio.

(** ** Doubly linked lists *)

(** [fupd z v f] is the link function [f] with the link of [z] set to [v]. *)
Definition fupd (z v : nat) (f : nat -> nat) : nat -> nat := fun x => if decide (x = z) then v else f x.

Lemma fupd_eq z v f : fupd z v f z = v.
Proof. unfold fupd. by rewrite decide_True. Qed.
Lemma fupd_ne z v f x : x <> z -> fupd z v f x = f x.
Proof. intros. unfold fupd. by rewrite decide_False. Qed.

(** The links [f] lead from [b] through the nodes [l] to [y]. *)
Fixpoint path (f : nat -> nat) (b : nat) (l : list nat) (y : nat) : Prop :=
  match l with
  | [] => b = y
  | a :: l => b = a /\ path f (f a) l y
  end.

Lemma path_ext f g b l y : (forall a, a ∈ l -> g a = f a) -> path f b l y -> path g b l y.
Proof.
  revert b. induction l as [|a l IH]; intros b He; cbn; [done|]. intros [-> Hp]. split; [done|].
  rewrite He by by left. apply IH; [|done]. intros c Hc. apply He. by right.
Qed.

Lemma path_app f b l1 a l2 y : path f b (l1 ++ a :: l2) y <-> path f b l1 a /\ path f (f a) l2 y.
Proof. revert b. induction l1 as [|c l1 IH]; intros b; cbn; [done|]. rewrite IH. tauto. Qed.

(** The last node of [x :: l], and redirecting it. *)
Fixpoint last_of (x : nat) (l : list nat) : nat :=
  match l with
  | [] => x
  | a :: l => last_of a l
  end.

Lemma last_of_elem x l : last_of x l ∈ x :: l.
Proof. revert x. induction l as [|a l IH]; intros x; cbn; [by left|]. right. apply IH. Qed.

Lemma last_of_snoc x l a : last_of x (l ++ [a]) = a.
Proof. revert x. induction l as [|b l IH]; intros x; cbn; [done|]. apply IH. Qed.

Lemma path_redirect f x l y c :
  NoDup (x :: l) -> path f (f x) l y ->
  let g := fupd (last_of x l) c f in path g (g x) l c.
Proof.
  revert x. induction l as [|a l IH]; intros x Hnd Hp; cbn in *.
  - by rewrite fupd_eq.
  - destruct Hp as [Ha Hp]. apply NoDup_cons in Hnd as [Hx Hnd].
    rewrite fupd_ne by (intros ->; apply Hx, last_of_elem). split; [done|]. by apply IH.
Qed.

(** Leaving out the node [b]. *)
Lemma path_unlink f l1 b l2 :
  NoDup (HEAD :: l1 ++ b :: l2) -> path f (f HEAD) (l1 ++ b :: l2) HEAD ->
  let u := last_of HEAD l1 in
  let g := fupd u (f b) f in path g (g HEAD) (l1 ++ l2) HEAD.
Proof.
  intros Hnd Hp u g. apply path_app in Hp as [H1 H2].
  assert (Hu : u ∈ HEAD :: l1) by apply last_of_elem.
  rewrite app_comm_cons in Hnd. apply NoDup_app in Hnd as (Hnd1 & Hdis & Hnd2).
  assert (path g (g HEAD) l1 (f b)) as H1' by (by eapply path_redirect).
  destruct l2 as [|w l2].
  - rewrite app_nil_r. cbn in H2. by rewrite H2 in H1'.
  - cbn in H2. destruct H2 as [Hw H2]. apply path_app. rewrite <- Hw. split; [done|].
    assert (forall a, a ∈ w :: l2 -> g a = f a) as Hg.
    { intros a Ha. apply fupd_ne. intros ->. eapply Hdis; [exact Hu|]. by right. }
    rewrite Hw, Hg by by left. eapply path_ext; [|exact H2]. intros a Ha. apply Hg. by right.
Qed.

(** Linking [b] in front. *)
Lemma path_front f b l :
  b ∉ HEAD :: l -> HEAD ∉ l -> path f (f HEAD) l HEAD ->
  let g := fupd HEAD b (fupd b (f HEAD) f) in path g (g HEAD) (b :: l) HEAD.
Proof.
  intros Hb Hh Hp g. rewrite not_elem_of_cons in Hb. destruct Hb as [Hb Hbl]. cbn. unfold g. rewrite fupd_eq. split; [done|].
  rewrite fupd_ne by done. rewrite fupd_eq. eapply path_ext; [|exact Hp]. intros a Ha.
  rewrite !fupd_ne; [done|set_solver..].
Qed.

(** Linking [b] in at the back. *)
Lemma path_back f b l :
  b ∉ HEAD :: l -> NoDup (HEAD :: l) -> path f (f HEAD) l HEAD ->
  let u := last_of HEAD l in
  let g := fupd u b (fupd b HEAD f) in path g (g HEAD) (l ++ [b]) HEAD.
Proof.
  intros Hb Hnd Hp u g.
  assert (Hu : u ∈ HEAD :: l) by apply last_of_elem.
  assert (path (fupd b HEAD f) (fupd b HEAD f HEAD) l HEAD) as Hp'.
  { rewrite fupd_ne by set_solver. eapply path_ext; [|exact Hp]. intros a Ha. apply fupd_ne. set_solver. }
  apply path_app. split; [by apply (path_redirect _ _ _ HEAD)|].
  unfold g. rewrite fupd_ne by (intros <-; done). by rewrite fupd_eq.
Qed.

(** ** Links of the buffers *)

Definition nx (l : list buf) (i : nat) : nat := default HEAD (b_next <$> l !! i).
Definition pv (l : list buf) (i : nat) : nat := default HEAD (b_prev <$> l !! i).

(** [l] as a list of the table, in both directions; the buffers are [o]. *)
Record linked (l : list buf) (o : list nat) : Prop := {
  k_len : length l = S NBUF;
  k_perm : NoDup o /\ forall i, i ∈ o -> i < NBUF;
  k_next : path (nx l) (nx l HEAD) o HEAD;
  k_prev : path (pv l) (pv l HEAD) (reverse o) HEAD
}.

Lemma nx_insert l i b x : i < length l -> nx (<[i:=b]> l) x = fupd i (b_next b) (nx l) x.
Proof.
  intros Hi. unfold nx, fupd. destruct (decide (x = i)) as [->|].
  - by rewrite list_lookup_insert_eq.
  - by rewrite list_lookup_insert_ne by done.
Qed.
Lemma pv_insert l i b x : i < length l -> pv (<[i:=b]> l) x = fupd i (b_prev b) (pv l) x.
Proof.
  intros Hi. unfold pv, fupd. destruct (decide (x = i)) as [->|].
  - by rewrite list_lookup_insert_eq.
  - by rewrite list_lookup_insert_ne by done.
Qed.

(** Changing a buffer but not its links. *)
Lemma nx_same l i b c x : l !! i = Some b -> b_next c = b_next b -> nx (<[i:=c]> l) x = nx l x.
Proof.
  intros Hi Hn. rewrite nx_insert by by eapply lookup_lt_Some. unfold fupd. case_decide as Hx; [|done].
  subst. unfold nx. by rewrite Hi, Hn.
Qed.
Lemma pv_same l i b c x : l !! i = Some b -> b_prev c = b_prev b -> pv (<[i:=c]> l) x = pv l x.
Proof.
  intros Hi Hn. rewrite pv_insert by by eapply lookup_lt_Some. unfold fupd. case_decide as Hx; [|done].
  subst. unfold pv. by rewrite Hi, Hn.
Qed.

Lemma linked_ext l l' o :
  linked l o -> length l' = length l -> (forall i, nx l' i = nx l i) -> (forall i, pv l' i = pv l i) -> linked l' o.
Proof.
  intros [H1 H2 H3 H4] Hl Hn Hp. constructor; [congruence|done| |].
  - rewrite Hn. eapply path_ext; [|exact H3]. auto.
  - rewrite Hp. eapply path_ext; [|exact H4]. auto.
Qed.

Lemma linked_same l o i b c :
  linked l o -> l !! i = Some b -> b_next c = b_next b -> b_prev c = b_prev b -> linked (<[i:=c]> l) o.
Proof.
  intros Hl Hi Hn Hp. eapply linked_ext; [done|by rewrite length_insert| |].
  - intros. by eapply nx_same.
  - intros. by eapply pv_same.
Qed.

(** ** Symbolic execution *)
Section Rules.
Context (me : nat).

Lemma wp_rdb lk c d i b (Q : buf -> guarded bcache -> Prop) :
  bufs d !! i = Some b -> Q b (mkL lk c d) -> wp (rdb i) Q (mkL lk c d).
Proof. intros Hi HQ. unfold wp, rdb. cbn [l_data]. by rewrite (rd_lookup _ _ _ Hi). Qed.

Lemma wp_updb lk c d i b f (Q : unit -> guarded bcache -> Prop) :
  bufs d !! i = Some b -> Q tt (mkL lk c (with_bufs (<[i:=f b]> (bufs d)) d)) -> wp (updb i f) Q (mkL lk c d).
Proof. intros Hi HQ. unfold wp, updb. cbn [l_data]. by rewrite (rd_lookup _ _ _ Hi). Qed.

(** Everything but the links. *)
Definition erase (b : buf) : buf := set_prev 0 (set_next 0 b).

Lemma erase_insert (l : list buf) i b c : l !! i = Some b -> erase c = erase b -> erase <$> <[i:=c]> l = erase <$> l.
Proof. intros Hi He. rewrite list_fmap_insert, He. apply list_insert_id. by rewrite list_lookup_fmap, Hi. Qed.

Lemma lookup_next (l : list buf) i b : l !! i = Some b -> b_next b = nx l i.
Proof. intros Hi. unfold nx. by rewrite Hi. Qed.
Lemma lookup_prev (l : list buf) i b : l !! i = Some b -> b_prev b = pv l i.
Proof. intros Hi. unfold pv. by rewrite Hi. Qed.

Lemma path_first f b l y : path f b l y -> b ∈ l ++ [y].
Proof. destruct l as [|a l]; cbn; [by intros ->; left|]. intros [-> _]. by left. Qed.

(** The last node on the way along [next] is the first along [prev]. *)
Lemma prev_last l o : linked l o -> pv l HEAD = last_of HEAD o.
Proof.
  intros [_ _ _ Hp]. destruct o as [|a o _] using rev_ind; [done|].
  rewrite reverse_snoc in Hp. cbn in Hp. destruct Hp as [-> _]. by rewrite last_of_snoc.
Qed.

Lemma next_last l o : linked l o -> nx l HEAD = last_of HEAD (reverse o).
Proof.
  intros [_ _ Hn _]. destruct o as [|a o]; [done|]. cbn in Hn. destruct Hn as [-> _].
  by rewrite reverse_cons, last_of_snoc.
Qed.

Lemma linked_bound l o i : linked l o -> i ∈ HEAD :: o -> i < length l.
Proof.
  intros [Hl [_ Hb] _ _] [->|Hi]%elem_of_cons; [rewrite Hl; unfold HEAD; lia|]. specialize (Hb i Hi). lia.
Qed.

Lemma wp_link_front lk c d o i (Q : unit -> guarded bcache -> Prop) :
  linked (bufs d) o -> i < NBUF -> i ∉ o ->
  (forall l', linked l' (i :: o) -> erase <$> l' = erase <$> bufs d -> Q tt (mkL lk c (with_bufs l' d))) ->
  wp (link_front i) Q (mkL lk c d).
Proof.
  intros Hlk Hi Hio HQ. set (l := bufs d) in *. pose proof (k_len _ _ Hlk) as Hlen.
  assert (i <> HEAD) as Hih by (unfold HEAD; lia).
  pose proof (next_last l o Hlk) as Hnl. set (w := nx l HEAD) in *.
  assert (Hw : w ∈ HEAD :: o) by (rewrite Hnl; pose proof (last_of_elem HEAD (reverse o)) as He; set_solver).
  assert (w <> i) as Hwi by set_solver. assert (w < length l) as Hwl by by eapply linked_bound.
  destruct (lookup_lt_is_Some_2 l HEAD) as [h Hh]; [rewrite Hlen; unfold HEAD; lia|].
  destruct (lookup_lt_is_Some_2 l i) as [b Hb]; [lia|].
  assert (b_next h = w) as Hhw by (by apply lookup_next in Hh).
  set (l1 := <[i:=set_prev HEAD (set_next w b)]> l).
  assert (erase <$> l1 = erase <$> l) as He1 by by eapply erase_insert.
  assert (l1 !! HEAD = Some h) as Hh1 by (unfold l1; by rewrite list_lookup_insert_ne).
  destruct (lookup_lt_is_Some_2 l1 w) as [x Hx]; [unfold l1; by rewrite length_insert|].
  set (l2 := <[w:=set_prev i x]> l1).
  assert (erase <$> l2 = erase <$> l) as He2 by (rewrite <- He1; by eapply erase_insert).
  destruct (lookup_lt_is_Some_2 l2 HEAD) as [h2 Hh2]; [unfold l2, l1; rewrite !length_insert, Hlen; unfold HEAD; lia|].
  assert (b_next h2 = w) as Hhw2.
  { rewrite (lookup_next _ _ _ Hh2). unfold l2. erewrite nx_same by done. unfold l1. rewrite nx_insert by (rewrite Hlen; lia).
    rewrite fupd_ne by done. done. }
  set (l3 := <[HEAD:=set_next i h2]> l2).
  assert (erase <$> l3 = erase <$> l) as He3 by (rewrite <- He2; by eapply erase_insert).
  unfold link_front. apply wp_bind. eapply wp_rdb; [exact Hh|]. rewrite Hhw.
  apply wp_bind. eapply wp_updb; [exact Hb|]. apply wp_bind. eapply wp_updb.
  { cbn [bufs with_bufs]. rewrite list_lookup_insert_eq by (fold l; lia). reflexivity. }
  cbn [bufs with_bufs]. rewrite list_insert_insert_eq. fold l. fold l1.
  apply wp_bind. eapply wp_rdb; [exact Hh1|]. rewrite Hhw. apply wp_bind. eapply wp_updb; [exact Hx|].
  eapply wp_updb; [exact Hh2|]. cbn [bufs with_bufs]. fold l2. fold l3. apply HQ; [|exact He3].
  destruct (k_perm _ _ Hlk) as [Hnd Hbd].
  assert (HEAD ∉ o) as Hho by (intros Hx'; specialize (Hbd _ Hx'); unfold HEAD in Hbd; lia).
  constructor.
  - unfold l3, l2, l1. by rewrite !length_insert.
  - split; [by constructor|]. intros j [->|Hj]%elem_of_cons; auto.
  - pose proof (path_front (nx l) i o ltac:(set_solver) Hho (k_next _ _ Hlk)) as Hp. cbv zeta in Hp. fold w in Hp.
    assert (forall j, nx l3 j = fupd HEAD i (fupd i w (nx l)) j) as Hf.
    { intros j. unfold l3. rewrite nx_insert by (unfold l2, l1; rewrite !length_insert, Hlen; unfold HEAD; lia).
      unfold fupd at 1 2. case_decide; [done|]. unfold l2. erewrite nx_same by done. unfold l1. by rewrite nx_insert by lia. }
    rewrite Hf. eapply path_ext; [|exact Hp]. auto.
  - rewrite reverse_cons.
    pose proof (path_back (pv l) i (reverse o) ltac:(set_solver)) as Hp. cbv zeta in Hp.
    assert (forall j, pv l3 j = fupd w i (fupd i HEAD (pv l)) j) as Hf.
    { intros j. unfold l3. erewrite pv_same by done. unfold l2. rewrite pv_insert by (unfold l1; by rewrite length_insert).
      unfold fupd at 1 2. case_decide; [done|]. unfold l1. by rewrite pv_insert by lia. }
    rewrite Hf. eapply path_ext; [by intros; rewrite Hf|]. rewrite Hnl. apply Hp; [|apply Hlk].
    constructor; [set_solver|by rewrite reverse_Permutation].
Qed.

(** Where a node of the list stands. *)
Lemma linked_around l o1 i o2 b :
  linked l (o1 ++ i :: o2) -> l !! i = Some b ->
  b_prev b = last_of HEAD o1 /\ b_next b = last_of HEAD (reverse o2).
Proof.
  intros [_ _ Hn Hp] Hi. rewrite (lookup_prev _ _ _ Hi), (lookup_next _ _ _ Hi). split.
  - rewrite reverse_app, reverse_cons, <- app_assoc in Hp. apply path_app in Hp as [_ Hp].
    destruct o1 as [|a o1 _] using rev_ind; [done|]. rewrite reverse_snoc in Hp. cbn in Hp. destruct Hp as [-> _].
    by rewrite last_of_snoc.
  - apply path_app in Hn as [_ Hn]. destruct o2 as [|a o2]; [done|]. cbn in Hn. destruct Hn as [-> _].
    by rewrite reverse_cons, last_of_snoc.
Qed.

(** Taking a buffer out of the list. *)
Lemma wp_unlink lk c d o1 i o2 (Q : unit -> guarded bcache -> Prop) :
  linked (bufs d) (o1 ++ i :: o2) ->
  (forall l', linked l' (o1 ++ o2) -> erase <$> l' = erase <$> bufs d -> Q tt (mkL lk c (with_bufs l' d))) ->
  wp (unlink i) Q (mkL lk c d).
Proof.
  intros Hlk HQ. set (l := bufs d) in *. pose proof (k_len _ _ Hlk) as Hlen. destruct (k_perm _ _ Hlk) as [Hnd Hbd].
  destruct (lookup_lt_is_Some_2 l i) as [b Hb]; [eapply linked_bound; [done|]; set_solver|].
  destruct (linked_around l o1 i o2 b Hlk Hb) as [Hpb Hnb]. set (u := last_of HEAD o1) in *. set (w := last_of HEAD (reverse o2)) in *.
  assert (Hu : u ∈ HEAD :: o1) by apply last_of_elem.
  assert (Hw : w ∈ HEAD :: o2) by (pose proof (last_of_elem HEAD (reverse o2)); set_solver).
  assert (HEAD ∉ o1 ++ i :: o2) as Hho by (intros Hx'; specialize (Hbd _ Hx'); unfold HEAD in Hbd; lia).
  assert (i ∉ HEAD :: o1 ++ o2) as Hi.
  { apply NoDup_app in Hnd as (_ & Hd & Hnd). apply NoDup_cons in Hnd as [Hn _]. specialize (Hd i). set_solver. }
  assert (Hul : u < length l) by (eapply linked_bound; [done|]; set_solver).
  assert (Hwl : w < length l) by (eapply linked_bound; [done|]; set_solver).
  destruct (lookup_lt_is_Some_2 l w Hwl) as [x Hx].
  set (l1 := <[w:=set_prev u x]> l).
  assert (erase <$> l1 = erase <$> l) as He1 by by eapply erase_insert.
  assert (l1 !! i = Some b) as Hb1 by (unfold l1; rewrite list_lookup_insert_ne by set_solver; done).
  destruct (lookup_lt_is_Some_2 l1 u) as [y Hy]; [unfold l1; by rewrite length_insert|].
  set (l2 := <[u:=set_next w y]> l1).
  assert (erase <$> l2 = erase <$> l) as He2 by (rewrite <- He1; by eapply erase_insert).
  unfold unlink. apply wp_bind. eapply wp_rdb; [exact Hb|]. rewrite Hpb, Hnb. apply wp_bind. eapply wp_updb; [exact Hx|].
  apply wp_bind. eapply wp_rdb; [exact Hb1|]. rewrite Hpb, Hnb. eapply wp_updb; [exact Hy|]. cbn [bufs with_bufs].
  fold l. fold l1. fold l2. apply HQ; [|exact He2].
  assert (nx l i = w) as Hnw by (by rewrite <- (lookup_next _ _ _ Hb)).
  assert (pv l i = u) as Hpu by (by rewrite <- (lookup_prev _ _ _ Hb)).
  constructor.
  - unfold l2, l1. by rewrite !length_insert.
  - split; [|intros j Hj; apply Hbd; set_solver].
    apply NoDup_app in Hnd as (H1 & Hd & H2). apply NoDup_cons in H2 as [_ H2]. apply NoDup_app. split_and!; [done| |done].
    intros j Hj Hj2. apply (Hd j Hj). by right.
  - pose proof (path_unlink (nx l) o1 i o2 ltac:(by constructor) (k_next _ _ Hlk)) as Hp. cbv zeta in Hp. fold u in Hp. rewrite Hnw in Hp.
    assert (forall j, nx l2 j = fupd u w (nx l) j) as Hf.
    { intros j. unfold l2. rewrite nx_insert by (unfold l1; by rewrite length_insert).
      unfold fupd. case_decide; [done|]. unfold l1. by erewrite nx_same. }
    rewrite Hf. eapply path_ext; [|exact Hp]. auto.
  - pose proof (k_prev _ _ Hlk) as Hpv. rewrite reverse_app, reverse_cons, <- app_assoc in Hpv.
    pose proof (path_unlink (pv l) (reverse o2) i (reverse o1)) as Hp. cbv zeta in Hp. fold w in Hp. rewrite Hpu in Hp.
    assert (forall j, pv l2 j = fupd w u (pv l) j) as Hf.
    { intros j. unfold l2. erewrite pv_same by done. unfold l1. by rewrite pv_insert. }
    rewrite Hf, reverse_app. eapply path_ext; [by intros; rewrite Hf|]. apply Hp; [|exact Hpv].
    assert (reverse o2 ++ i :: reverse o1 ≡ₚ o1 ++ i :: o2) as Hperm.
    { rewrite !reverse_Permutation. rewrite Permutation_app_comm. cbn. by rewrite Permutation_middle. }
    constructor; [by rewrite Hperm|by rewrite Hperm].
Qed.

(** The loops of [bget]. *)
Definition is_block (dev bn : Z) (p : buf) : Prop := b_dev p = dev /\ b_blockno p = bn.
Definition recyclable (p : buf) : Prop := b_refcnt p = 0%Z /\ b_dirty p = false.

Lemma wp_find_cached lk c d dev bn l fuel b (Q : option nat -> guarded bcache -> Prop) :
  path (nx (bufs d)) b l HEAD -> length l <= fuel -> (forall i, i ∈ l -> i < NBUF) -> length (bufs d) = S NBUF ->
  (forall i p, i ∈ l -> bufs d !! i = Some p -> is_block dev bn p -> Q (Some i) (mkL lk c d)) ->
  ((forall i p, i ∈ l -> bufs d !! i = Some p -> ~ is_block dev bn p) -> Q None (mkL lk c d)) ->
  wp (find_cached fuel b dev bn) Q (mkL lk c d).
Proof.
  revert fuel b. induction l as [|a l IH]; intros fuel b Hp Hf Hb Hlen HS HN; cbn in Hp.
  - subst b. destruct fuel; cbn [find_cached]; rewrite decide_True by done; apply wp_ret, HN; by intros ? ? ?%elem_of_nil.
  - destruct Hp as [-> Hp]. destruct fuel as [|fuel]; cbn in Hf; [lia|]. pose proof (Hb a ltac:(by left)) as Ha.
    cbn [find_cached]. rewrite decide_False by (unfold HEAD; lia).
    destruct (lookup_lt_is_Some_2 (bufs d) a) as [p Hpa]; [lia|]. apply wp_bind. eapply wp_rdb; [exact Hpa|].
    destruct (decide (b_dev p = dev /\ b_blockno p = bn)) as [Hm|Hm].
    + apply wp_ret. eapply HS; [by left|done|done].
    + rewrite (lookup_next _ _ _ Hpa). apply IH; [done|lia|intros; apply Hb; by right|done| |].
      * intros i q Hi. apply HS. by right.
      * intros Hn. apply HN. intros i q [->|Hi]%elem_of_cons Hq; [by simplify_eq|by eapply Hn].
Qed.

Lemma wp_find_unused lk c d l fuel b (Q : option nat -> guarded bcache -> Prop) :
  path (pv (bufs d)) b l HEAD -> length l <= fuel -> (forall i, i ∈ l -> i < NBUF) -> length (bufs d) = S NBUF ->
  (forall l1 i l2 p, l = l1 ++ i :: l2 -> bufs d !! i = Some p -> recyclable p ->
     (forall j q, j ∈ l1 -> bufs d !! j = Some q -> ~ recyclable q) -> Q (Some i) (mkL lk c d)) ->
  ((forall i p, i ∈ l -> bufs d !! i = Some p -> ~ recyclable p) -> Q None (mkL lk c d)) ->
  wp (find_unused fuel b) Q (mkL lk c d).
Proof.
  revert fuel b. induction l as [|a l IH]; intros fuel b Hp Hf Hb Hlen HS HN; cbn in Hp.
  - subst b. destruct fuel; cbn [find_unused]; rewrite decide_True by done; apply wp_ret, HN; by intros ? ? ?%elem_of_nil.
  - destruct Hp as [-> Hp]. destruct fuel as [|fuel]; cbn in Hf; [lia|]. pose proof (Hb a ltac:(by left)) as Ha.
    cbn [find_unused]. rewrite decide_False by (unfold HEAD; lia).
    destruct (lookup_lt_is_Some_2 (bufs d) a) as [p Hpa]; [lia|]. apply wp_bind. eapply wp_rdb; [exact Hpa|].
    destruct (decide (b_refcnt p = 0%Z /\ b_dirty p = false)) as [Hm|Hm].
    + apply wp_ret. eapply (HS []); [done|done|done|]. by intros ? ? ?%elem_of_nil.
    + rewrite (lookup_prev _ _ _ Hpa). apply IH; [done|lia|intros; apply Hb; by right|done| |].
      * intros l1 i l2 q -> Hq Hr Hn. apply (HS (a :: l1) i l2 q); [done..|].
        intros j r [->|Hj]%elem_of_cons Hr'; [by simplify_eq|by eapply Hn].
      * intros Hn. apply HN. intros i q [->|Hi]%elem_of_cons Hq; [by simplify_eq|by eapply Hn].
Qed.
End Rules.
End BioThms.
