(* ===== verification/BioCache.v ===== *)
(** * The buffer cache: order, uniqueness and coherence

    The invariant of the whole cache ([cache_ok]) and the theorems: [bread]
    gives a locked buffer with the contents the cache shows for its block,
    recycling the least recently used buffer, [bwrite] makes the contents
    durable, and [brelse] keeps the list in order of use. *)
From S2P Require Export BioThms.

Module BioCache.
Import Spin Locked Bio BioThms.

(** [o] lists all the buffers, most recently used first; a block is cached at
    most once (device 0 aside, which zeroed buffers claim); an unlocked clean
    valid buffer agrees with the disk; the driver is idle. *)
Record cache_ok (d : bcache) (o : list nat) : Prop := {
  c_linked : linked (bufs d) o;
  c_all i : i < NBUF -> i ∈ o;
  c_uniq i j p q : i < NBUF -> j < NBUF -> bufs d !! i = Some p -> bufs d !! j = Some q ->
    b_dev p <> 0%Z -> is_block (b_dev p) (b_blockno p) q -> i = j;
  c_ref i p : i < NBUF -> bufs d !! i = Some p ->
    (0 <= b_refcnt p)%Z /\ (b_refcnt p = 0%Z -> b_lock p = None) /\ (b_dirty p = true -> b_valid p = true);
  c_coh i p : i < NBUF -> bufs d !! i = Some p -> b_valid p = true -> b_dirty p = false -> b_lock p = None ->
    b_data p = dsk d (b_dev p) (b_blockno p);
  c_idle : idequeue d = [] /\ ide_cmd d = None /\ idelock d = initlock
}.

(** The contents the cache shows for a block. *)
Definition shows (d : bcache) (dev bn : Z) (v : block) : Prop :=
  (exists i p, i < NBUF /\ bufs d !! i = Some p /\ is_block dev bn p /\ b_valid p = true /\ b_data p = v) \/
  ((forall i p, i < NBUF -> bufs d !! i = Some p -> is_block dev bn p -> b_valid p = false) /\ v = dsk d dev bn).

Lemma shows_functional d o dev bn v w :
  cache_ok d o -> dev <> 0%Z -> shows d dev bn v -> shows d dev bn w -> v = w.
Proof.
  intros Hok Hdv [(i & p & Hi & Hp & Hb & Hv & <-)|[Hv ->]] [(j & q & Hj & Hq & Hc & Hw & <-)|[Hw ->]]; [| | |done].
  - destruct Hb as [<- <-]. assert (i = j) as <- by (by eapply c_uniq). by simplify_eq.
  - specialize (Hw _ _ Hi Hp Hb). congruence.
  - specialize (Hv _ _ Hj Hq Hc). congruence.
Qed.

(** ** Changing one buffer *)

(** The cache with buffer [i] replaced by [q], and the disks by [dk]. *)
Definition put1 (d : bcache) (i : nat) (q : buf) (dk : Z -> Z -> block) : bcache :=
  with_dsk dk (with_bufs (<[i:=q]> (bufs d)) d).

Lemma put1_lookup d i q dk j r : bufs (put1 d i q dk) !! j = Some r -> (j = i /\ r = q) \/ (j <> i /\ bufs d !! j = Some r).
Proof. cbn. intros [(-> & -> & _)|[Hne ?]]%list_lookup_insert_Some; [by left|right]. by split. Qed.

Lemma put1_lookup_i d i p q dk : bufs d !! i = Some p -> bufs (put1 d i q dk) !! i = Some q.
Proof. intros Hp. cbn. apply list_lookup_insert_eq. by eapply lookup_lt_Some. Qed.

Lemma put1_lookup_ne d i q dk j r : j <> i -> bufs d !! j = Some r -> bufs (put1 d i q dk) !! j = Some r.
Proof. intros Hne Hj. cbn. by rewrite list_lookup_insert_ne. Qed.

Section Change.
Context (d : bcache) (o : list nat) (i : nat) (p q : buf) (dk : Z -> Z -> block).
Context (Hok : cache_ok d o) (Hi : i < NBUF) (Hp : bufs d !! i = Some p).
Context (Hnext : b_next q = b_next p) (Hprev : b_prev q = b_prev p).

(** No other buffer has the block of [q]. *)
Definition fresh_id : Prop :=
  forall j r, j < NBUF -> j <> i -> bufs d !! j = Some r -> ~ is_block (b_dev q) (b_blockno q) r.
Context (Hfresh : fresh_id).
(** Only the block of [q] changes on the disk. *)
Context (Hdk : forall dv bn, ~ (dv = b_dev q /\ bn = b_blockno q) -> dk dv bn = dsk d dv bn).

Lemma put1_ok :
  (0 <= b_refcnt q)%Z -> (b_refcnt q = 0%Z -> b_lock q = None) -> (b_dirty q = true -> b_valid q = true) ->
  (b_valid q = true -> b_dirty q = false -> b_lock q = None -> b_data q = dk (b_dev q) (b_blockno q)) ->
  cache_ok (put1 d i q dk) o.
Proof.
  intros Hr Hl Hd Hc. constructor.
  - cbn. eapply linked_same; [apply Hok|done..].
  - apply Hok.
  - intros j k r s Hj Hk Hr' Hs Hn Hb.
    destruct (put1_lookup _ _ _ _ _ _ Hr') as [[-> ->]|[Hji Hjr]], (put1_lookup _ _ _ _ _ _ Hs) as [[-> ->]|[Hki Hkr]].
    + done.
    + by destruct (Hfresh k s Hk Hki Hkr).
    + destruct Hb as [Hb1 Hb2]. by destruct (Hfresh j r Hj Hji Hjr).
    + exact (c_uniq _ _ Hok j k r s Hj Hk Hjr Hkr Hn Hb).
  - intros j r Hj Hjr. destruct (put1_lookup _ _ _ _ _ _ Hjr) as [[-> ->]|[Hji Hjr']]; [done|]. by eapply c_ref.
  - intros j r Hj Hjr Hv Hdt Hlk. destruct (put1_lookup _ _ _ _ _ _ Hjr) as [[-> ->]|[Hji Hjr']]; [by apply Hc|].
    cbn. rewrite Hdk; [by eapply c_coh|]. intros [H1 H2]. by destruct (Hfresh j r Hj Hji Hjr').
  - apply Hok.
Qed.

(** Blocks other than those of [p] and [q] show what they did. *)
Lemma put1_shows_other dv bn v :
  ~ is_block dv bn p -> ~ is_block dv bn q -> shows d dv bn v -> shows (put1 d i q dk) dv bn v.
Proof using Hp Hdk.
  clear Hok Hi Hnext Hprev Hfresh.
  intros Hnp Hnq [(j & r & Hj & Hjr & Hb & Hv & He)|[Hv ->]].
  - left. exists j, r. assert (j <> i) by (intros ->; by simplify_eq). eauto 10 using put1_lookup_ne.
  - right. split; [|cbn; rewrite Hdk; [reflexivity|intros [Ha Hb]; apply Hnq; split; symmetry; assumption]].
    intros j r Hj Hjr Hb. destruct (put1_lookup _ _ _ _ _ _ Hjr) as [[-> ->]|[Hji Hjr']]; [done|eauto].
Qed.
End Change.

Lemma put1_id d i p : bufs d !! i = Some p -> d = put1 d i p (dsk d).
Proof. intros Hp. unfold put1. rewrite list_insert_id by done. by destruct d. Qed.

(** ** Symbolic execution with one buffer changed *)
Section Rules.
Context (me : nat) (d : bcache) (i : nat) (Hlen : i < length (bufs d)).

Lemma wp_rdb1 lk c q dk (Q : buf -> guarded bcache -> Prop) :
  Q q (mkL lk c (put1 d i q dk)) -> wp (rdb i) Q (mkL lk c (put1 d i q dk)).
Proof. intros HQ. eapply wp_rdb; [|exact HQ]. by apply list_lookup_insert_eq. Qed.

Lemma wp_updb1 lk c q dk f (Q : unit -> guarded bcache -> Prop) :
  Q tt (mkL lk c (put1 d i (f q) dk)) -> wp (updb i f) Q (mkL lk c (put1 d i q dk)).
Proof.
  intros HQ. eapply wp_updb; [by apply list_lookup_insert_eq|]. unfold with_bufs. cbn. by rewrite list_insert_insert_eq.
Qed.

Lemma wp_setd' lk c d0 d1 (Q : unit -> guarded bcache -> Prop) : Q tt (mkL lk c d1) -> wp (setd d1) Q (mkL lk c d0).
Proof. exact id. Qed.

Lemma wp_lock_buf lk c q dk pid (Q : waiting nat -> guarded bcache -> Prop) :
  b_lock q = None -> Q (Done i) (mkL lk c (put1 d i (set_lock (Some pid) q) dk)) ->
  wp (lock_buf pid i) Q (mkL lk c (put1 d i q dk)).
Proof.
  intros Hl HQ. unfold lock_buf. apply wp_bind, wp_rdb1. rewrite Hl. apply wp_bind, wp_updb1, wp_ret, HQ.
Qed.

(** What the driver does with the request of buffer [q]. *)
Definition served (q : buf) (dk : Z -> Z -> block) : buf :=
  set_flags true false (if b_dirty q then q else set_data (dk (b_dev q) (b_blockno q)) q).
Definition served_disk (q : buf) (dk : Z -> Z -> block) : Z -> Z -> block :=
  if b_dirty q then fun dv bn => if decide (dv = b_dev q /\ bn = b_blockno q) then b_data q else dk dv bn else dk.

Lemma wp_ide_acquire lk b d0 (Q : unit -> guarded bcache -> Prop) :
  idelock d0 = initlock -> Q tt (mkL lk (mkCpu 1 b false) (with_idelock (mkLock true (Some me)) d0)) ->
  wp (ide_acquire me) Q (mkL lk (mkCpu 0 b b) d0).
Proof.
  intros Hl HQ. unfold wp, ide_acquire. cbn [l_data l_cpu]. rewrite Hl, acquire_free by (split; cbn; lia). exact HQ.
Qed.

Lemma wp_ide_release lk b d0 (Q : unit -> guarded bcache -> Prop) :
  idelock d0 = mkLock true (Some me) -> Q tt (mkL lk (mkCpu 0 b b) (with_idelock initlock d0)) ->
  wp (ide_release me) Q (mkL lk (mkCpu 1 b false) d0).
Proof.
  intros Hl HQ. unfold wp, ide_release. cbn [l_data l_cpu]. rewrite Hl.
  change (mkCpu 1 b false) with (pushcli (mkCpu 0 b b)). rewrite release_held by (split; cbn; lia). exact HQ.
Qed.

Lemma wp_cache_updd lk c d0 f (Q : unit -> guarded bcache -> Prop) : Q tt (mkL lk c (f d0)) -> wp (updd f) Q (mkL lk c d0).
Proof. exact id. Qed.

(** The sector number survives the registers. *)
Definition command (q : buf) : cmd :=
  let sector := int32 (b_blockno q * sector_per_block) in
  mkCmd sector_per_block (Z.land sector 255) (Z.land (Z.shiftr sector 8) 255) (Z.land (Z.shiftr sector 16) 255)
    (Z.lor (Z.lor 224 (Z.shiftl (Z.land (b_dev q) 1) 4)) (Z.land (Z.shiftr sector 24) 15))
    (if b_dirty q then Some (b_data q) else None).

Lemma command_address q :
  (0 <= b_blockno q < FSSIZE)%Z -> b_dev q = ROOTDEV ->
  cmd_drive (command q) = b_dev q /\ cmd_sector (command q) = b_blockno q.
Proof.
  intros Hb Hd. unfold command, cmd_drive, cmd_sector. rewrite Hd. cbn [c_head c_lba0 c_lba1 c_lba2].
  change sector_per_block with 1%Z. rewrite Z.mul_1_r.
  assert (int32 (b_blockno q) = b_blockno q) as -> by (apply int32_id; unfold FSSIZE in *; lia).
  assert (Z.shiftr (b_blockno q) 16 = 0 /\ Z.shiftr (b_blockno q) 24 = 0)%Z as [-> ->].
  { unfold FSSIZE in *. rewrite !Z.shiftr_div_pow2 by lia. split; apply Z.div_small; lia. }
  split; [reflexivity|]. change 255%Z with (Z.ones 8). rewrite !Z.land_ones, Z.shiftr_div_pow2, !Z.shiftl_mul_pow2 by lia.
  change (2 ^ 8)%Z with 256%Z. change (Z.land (Z.lor _ _) 15) with 0%Z. change (0 mod 256)%Z with 0%Z.
  unfold FSSIZE in *. rewrite (Z.mod_small (b_blockno q / 256)) by (split; [apply Z.div_pos|apply Z.div_lt_upper_bound]; lia).
  pose proof (Z.div_mod (b_blockno q) 256). lia.
Qed.

Lemma wp_idestart lk c d0 q (Q : unit -> guarded bcache -> Prop) :
  bufs d0 !! i = Some q -> (b_blockno q < FSSIZE)%Z -> Q tt (mkL lk c (with_cmd (Some (command q)) d0)) ->
  wp (idestart i) Q (mkL lk c d0).
Proof.
  intros Hq Hb HQ. unfold idestart. apply wp_bind. eapply wp_rdb; [exact Hq|]. rewrite decide_False by lia.
  rewrite decide_False by done. apply wp_cache_updd, HQ.
Qed.

Lemma bcache_ext d1 d2 :
  bufs d1 = bufs d2 -> idelock d1 = idelock d2 -> idequeue d1 = idequeue d2 -> havedisk1 d1 = havedisk1 d2 ->
  ide_cmd d1 = ide_cmd d2 -> dskerr d1 = dskerr d2 -> dsk d1 = dsk d2 -> d1 = d2.
Proof. destruct d1, d2. cbn. by intros -> -> -> -> -> -> ->. Qed.

(** A request the disk can serve. *)
Record servable (q : buf) : Prop := {
  sv_dev : b_dev q = ROOTDEV;
  sv_block : (0 <= b_blockno q < FSSIZE)%Z;
  sv_noerr : dskerr d (b_dev q) (b_blockno q) = false
}.

Lemma wp_disk_done lk c d0 q (Q : option block -> guarded bcache -> Prop) :
  ide_cmd d0 = Some (command q) -> dskerr d0 = dskerr d -> servable q ->
  Q (if b_dirty q then None else Some (dsk d0 (b_dev q) (b_blockno q)))
    (mkL lk c (with_dsk (served_disk q (dsk d0)) (with_cmd None d0))) ->
  wp disk_done Q (mkL lk c d0).
Proof.
  intros Hc He [Hd Hb Hn] HQ. destruct (command_address q Hb Hd) as [Ha1 Ha2]. unfold disk_done.
  apply wp_bind, wp_getd. cbn [l_data]. rewrite Hc, Ha1, Ha2. apply wp_bind, wp_setd'. rewrite He, Hn.
  unfold served_disk in HQ. cbn [command c_data]. destruct (b_dirty q).
  - apply wp_bind, wp_cache_updd, wp_ret, HQ.
  - apply wp_ret. exact HQ.
Qed.

Lemma wp_ideintr b lk d0 q (Q : unit -> guarded bcache -> Prop) :
  bufs d0 !! i = Some q -> idequeue d0 = [i] -> ide_cmd d0 = Some (command q) -> dskerr d0 = dskerr d ->
  idelock d0 = initlock -> servable q ->
  Q tt (mkL lk (mkCpu 0 b b) (with_dsk (served_disk q (dsk d0)) (with_cmd None (with_queue []
    (with_bufs (<[i:=served q (dsk d0)]> (bufs d0)) d0))))) ->
  wp (ideintr me) Q (mkL lk (mkCpu 0 b b) d0).
Proof.
  intros Hq Hqu Hc He Hl Hs HQ. unfold ideintr. apply wp_bind. eapply wp_disk_done; [done|done|done|].
  apply wp_bind, wp_ide_acquire; [done|]. apply wp_bind, wp_getd. cbn [l_data with_idelock with_dsk with_cmd idequeue].
  rewrite Hqu. apply wp_bind, wp_setd', wp_bind. eapply wp_rdb; [exact Hq|]. unfold served in HQ.
  destruct (b_dirty q) eqn:Hdt.
  - apply wp_bind, wp_ret, wp_bind. eapply wp_updb; [exact Hq|]. apply wp_bind, wp_ret, wp_ide_release; [done|].
    destruct d0. cbn in Hl. subst. exact HQ.
  - apply wp_bind. eapply wp_updb; [exact Hq|]. apply wp_bind.
    eapply wp_updb; [apply list_lookup_insert_eq; by eapply lookup_lt_Some|].
    apply wp_bind, wp_ret, wp_ide_release; [done|]. destruct d0. cbn in Hl. subst. cbn in *.
    rewrite list_insert_insert_eq. exact HQ.
Qed.

Lemma wp_iderw b lk q dk pid (Q : unit -> guarded bcache -> Prop) :
  idequeue d = [] /\ ide_cmd d = None /\ idelock d = initlock -> havedisk1 d = true ->
  b_lock q = Some pid -> (b_valid q && negb (b_dirty q))%bool = false -> servable q ->
  Q tt (mkL lk (mkCpu 0 b b) (put1 d i (served q dk) (served_disk q dk))) ->
  wp (iderw me pid i) Q (mkL lk (mkCpu 0 b b) (put1 d i q dk)).
Proof.
  intros (Hid & Hcm & Hlk) Hh Hl Hw Hs HQ.
  assert (forall r : buf, <[i:=r]> (bufs d) !! i = Some r) as Hlo by (intros; by apply list_lookup_insert_eq).
  unfold iderw. apply wp_bind, wp_rdb1. rewrite decide_False by (rewrite Hl; tauto).
  rewrite Hw. apply wp_bind, wp_getd. cbn [l_data put1 with_bufs with_dsk havedisk1]. rewrite Hh, andb_false_r.
  apply wp_bind, wp_ide_acquire; [done|]. apply wp_bind, wp_getd. cbn [l_data with_idelock with_dsk with_bufs put1 idequeue].
  rewrite Hid. apply wp_bind, wp_setd'. rewrite decide_True by done. cbn [app length].
  apply wp_bind. eapply wp_idestart; [apply Hlo|apply Hs|]. cbn [ide_wait].
  apply wp_bind, wp_bind. eapply wp_rdb; [apply Hlo|]. rewrite Hw.
  apply wp_bind, wp_ide_release; [done|]. apply wp_bind. eapply wp_ideintr; [apply Hlo|done..|].
  apply wp_bind, wp_ide_acquire; [done|]. apply wp_bind. eapply wp_rdb; [cbn; rewrite list_insert_insert_eq; apply Hlo|].
  apply wp_ret, wp_ide_release; [done|].
  match goal with |- Q tt (mkL _ _ ?x) => replace x with (put1 d i (served q dk) (served_disk q dk)) end; [exact HQ|].
  apply bcache_ext; [symmetry; apply list_insert_insert_eq|exact Hlk|exact Hid|reflexivity|exact Hcm|reflexivity..].
Qed.
End Rules.

(** ** [bget] *)
Section Get.
Context (me : nat) (b : bool) (pid dev bn : Z) (d : bcache) (o : list nat).
Context (Hok : cache_ok d o).

Definition cached (i : nat) (p : buf) : Prop := i < NBUF /\ bufs d !! i = Some p /\ is_block dev bn p.
(** [i] is the least recently used recyclable buffer. *)
Definition lru_victim (i : nat) (p : buf) : Prop :=
  bufs d !! i = Some p /\ recyclable p /\
  exists o1 o2, o = o1 ++ i :: o2 /\ forall j q, j ∈ o2 -> bufs d !! j = Some q -> ~ recyclable q.

(** The buffer as [bget] hands it out, found or recycled. *)
Definition found (p : buf) : buf := set_lock (Some pid) (set_refcnt (b_refcnt p + 1) p).
Definition recycled (p : buf) : buf :=
  set_lock (Some pid) (set_refcnt 1 (set_flags false false (set_id dev bn p))).

Lemma ok_bound i : i ∈ o -> i < NBUF.
Proof. apply (k_perm _ _ (c_linked _ _ Hok)). Qed.
Lemma ok_lookup i : i <= NBUF -> exists p, bufs d !! i = Some p.
Proof. intros Hi. apply lookup_lt_is_Some_2. rewrite (k_len _ _ (c_linked _ _ Hok)). lia. Qed.
Lemma ok_length_o : length o <= NBUF.
Proof.
  destruct (k_perm _ _ (c_linked _ _ Hok)) as [Hnd Hb].
  transitivity (length (seq 0 NBUF)); [|by rewrite length_seq].
  apply submseteq_length, NoDup_submseteq; [done|]. intros i Hi. apply elem_of_seq. specialize (Hb i Hi). lia.
Qed.

Lemma wp_bget (Q : waiting nat -> guarded bcache -> Prop) :
  (forall i p, cached i p -> b_lock p = None /\ (b_refcnt p + 1 < 2 ^ 32)%Z) ->
  ((exists i p, cached i p) \/ (exists i p, i < NBUF /\ bufs d !! i = Some p /\ recyclable p)) ->
  (forall i p, cached i p -> Q (Done i) (free b (put1 d i (found p) (dsk d)))) ->
  (forall i p, (forall j q, ~ cached j q) -> lru_victim i p -> Q (Done i) (free b (put1 d i (recycled p) (dsk d)))) ->
  wp (bget me pid dev bn) Q (free b d).
Proof.
  intros Hfree Hsome HC HR. pose proof (c_linked _ _ Hok) as Hlk. pose proof (k_len _ _ Hlk) as Hl.
  destruct (ok_lookup HEAD) as [h Hh]; [unfold HEAD; lia|].
  unfold bget. lk_steps. eapply wp_rdb; [exact Hh|]. lk_steps. rewrite (lookup_next _ _ _ Hh).
  eapply wp_find_cached; [apply Hlk|apply ok_length_o|apply ok_bound|done| |].
  - intros i p Hi Hp Hb. pose proof (ok_bound i Hi) as Hin. assert (cached i p) as Hc by done.
    destruct (Hfree _ _ Hc) as [Hnl Hr]. pose proof (c_ref _ _ Hok _ _ Hin Hp) as [Hr0 _].
    lk_steps. eapply wp_rdb; [exact Hp|]. lk_steps. eapply wp_updb; [exact Hp|].
    change (with_bufs ?l d) with (put1 d i (set_refcnt (uint32 (b_refcnt p + 1)) p) (dsk d)).
    rewrite uint32_id by lia. lk_steps. apply wp_lock_buf; [lia|done|]. by apply HC.
  - intros Hno. assert (forall j q, ~ cached j q) as Hnc.
    { intros j q (Hj & Hq & Hb). eapply Hno; [by apply (c_all _ _ Hok)|done..]. }
    lk_steps. eapply wp_rdb; [exact Hh|]. lk_steps. rewrite (lookup_prev _ _ _ Hh).
    eapply wp_find_unused; [apply Hlk|rewrite length_reverse; apply ok_length_o
      |intros i Hi; apply ok_bound; by apply elem_of_reverse|done| |].
    + intros l1 i l2 p He Hp Hrc Hn.
      assert (o = reverse l2 ++ i :: reverse l1) as Ho.
      { rewrite <- (reverse_involutive o), He, reverse_app, reverse_cons, <- app_assoc. done. }
      assert (i < NBUF) as Hin by (apply ok_bound; rewrite Ho; set_solver).
      rewrite (put1_id d i p Hp) at 1.
      assert (b_lock p = None) as Hnl by (eapply (c_ref _ _ Hok); [done..|apply Hrc]).
      do 3 (apply wp_bind, wp_updb1; [lia|]). lk_step. apply wp_lk_release. apply wp_lock_buf; [lia|done|].
      apply HR; [done|]. split; [done|]. split; [done|]. exists (reverse l2), (reverse l1). split; [done|].
      intros j q Hj. apply Hn. by apply elem_of_reverse.
    + intros Hn. destruct Hsome as [(i & p & Hc)|(i & p & Hi & Hp & Hr)]; [by destruct (Hnc i p)|].
      destruct (Hn i p); [|done..]. by apply elem_of_reverse, (c_all _ _ Hok).
Qed.

(** A buffer filled with what the cache shows for its block changes nothing. *)
Lemma put1_shows i p q v :
  i < NBUF -> bufs d !! i = Some p -> dev <> 0%Z -> is_block dev bn q -> b_valid q = true -> b_data q = v ->
  shows d dev bn v -> (is_block dev bn p \/ recyclable p) ->
  forall dv n w, dv <> 0%Z -> shows d dv n w -> shows (put1 d i q (dsk d)) dv n w.
Proof.
  intros Hi Hp Hdev Hq Hv Hd Hsh Hor dv n w Hdv Hw.
  destruct (decide (dv = dev /\ n = bn)) as [[-> ->]|Hne].
  { left. exists i, q. rewrite (put1_lookup_i d i p) by done.
    assert (v = w) as <- by by eapply shows_functional. done. }
  assert (~ is_block dv n q) as Hnq by (destruct Hq as [<- <-]; intros [<- <-]; by apply Hne).
  destruct (decide (b_dev p = dv /\ b_blockno p = n)) as [Hb|Hb]; [|by eapply (put1_shows_other d i p)].
  destruct Hor as [[<- <-]|[Hr0 Hcl]]; [destruct Hb as [<- <-]; by destruct Hne|].
  destruct (c_ref _ _ Hok _ _ Hi Hp) as (_ & Hnl & _). specialize (Hnl Hr0).
  right. split.
  - intros j r Hj Hjr Hbr. destruct (put1_lookup _ _ _ _ _ _ Hjr) as [[-> ->]|[Hji Hjr']]; [done|].
    destruct Hb as [<- <-]. by destruct (c_uniq _ _ Hok i j p r).
  - destruct Hw as [(j & r & Hj & Hr & Hbr & Hvr & <-)|[_ ->]]; [|done].
    destruct Hb as [<- <-]. assert (i = j) as <- by by eapply (c_uniq _ _ Hok i j p r). simplify_eq.
    by eapply (c_coh _ _ Hok).
Qed.

(** What [bread] promises of the state it leaves. *)
Record bread_post (i : nat) (d' : bcache) : Prop := {
  br_ok : cache_ok d' o;
  br_buf : exists p, i < NBUF /\ bufs d' !! i = Some p /\ is_block dev bn p /\ b_valid p = true /\
    b_lock p = Some pid /\ shows d dev bn (b_data p);
  br_view dv n w : dv <> 0%Z -> shows d dv n w -> shows d' dv n w;
  br_disk : dsk d' = dsk d;
  br_victim : (exists p, cached i p) \/ ((forall j q, ~ cached j q) /\ exists p, lru_victim i p)
}.

Lemma bread_post_intro i p q :
  i < NBUF -> bufs d !! i = Some p -> dev <> 0%Z -> is_block dev bn q -> b_valid q = true ->
  b_lock q = Some pid -> (0 < b_refcnt q)%Z -> b_next q = b_next p -> b_prev q = b_prev p ->
  fresh_id d i q -> shows d dev bn (b_data q) ->
  (cached i p \/ ((forall j q, ~ cached j q) /\ lru_victim i p)) ->
  bread_post i (put1 d i q (dsk d)).
Proof.
  intros Hi Hp Hdev Hq Hv Hl Hr Hn Hpr Hfr Hsh Hor. constructor.
  - eapply put1_ok; try done; [lia|lia|congruence].
  - exists q. rewrite (put1_lookup_i d i p) by done. done.
  - eapply put1_shows; [done..|]. destruct Hor as [Hc|[_ Hc]]; [left; apply Hc|right; apply Hc].
  - done.
  - destruct Hor as [Hc|[Hnc Hc]]; eauto.
Qed.

Lemma cached_unique i j p q : dev <> 0%Z -> cached i p -> cached j q -> j = i /\ q = p.
Proof.
  intros Hdev (Hi & Hp & Hbp) (Hj & Hq & Hbq). assert (i = j) as <-; [|by simplify_eq].
  destruct Hbp as [H1 H2]. eapply (c_uniq _ _ Hok i j p q); rewrite ?H1, ?H2; done.
Qed.

Lemma cached_fresh i p : dev <> 0%Z -> cached i p -> fresh_id d i p.
Proof.
  intros Hdev Hc j r Hj Hji Hr Hb. destruct Hc as (Hi & Hp & Hip). apply Hji.
  eapply (cached_unique i j p r); [done..|]. destruct Hip as [H1 H2]. rewrite H1, H2 in Hb. done.
Qed.

Lemma shows_disk : (forall i p, cached i p -> b_valid p = false) -> shows d dev bn (dsk d dev bn).
Proof. intros Hn. right. split; [|done]. intros i p Hi Hp Hb. by apply (Hn i p). Qed.

Lemma wp_cache_bread :
  dev = ROOTDEV -> havedisk1 d = true -> (0 <= bn < FSSIZE)%Z -> dskerr d dev bn = false ->
  (forall i p, cached i p -> b_lock p = None /\ (b_refcnt p + 1 < 2 ^ 32)%Z) ->
  ((exists i p, cached i p) \/ (exists i p, i < NBUF /\ bufs d !! i = Some p /\ recyclable p)) ->
  wp (bread me pid dev bn) (fun r s => exists i d', r = Done i /\ s = free b d' /\ bread_post i d') (free b d).
Proof.
  intros Hroot Hh Hbn Herr Hfree Hsome. assert (dev <> 0%Z) as Hdev by (rewrite Hroot; done). unfold bread. pose proof (k_len _ _ (c_linked _ _ Hok)) as Hlen.
  lk_step. apply wp_bget; [done|done| |].
  - intros i p Hc. pose proof Hc as (Hi & Hp & Hb). lk_step. apply wp_rdb1; [lia|].
    assert (fresh_id d i p) as Hfr by (eapply cached_fresh; done).
    destruct (c_ref _ _ Hok _ _ Hi Hp) as (Hr0 & _ & Hdv). lk_step. cbn [found b_valid set_lock set_refcnt].
    destruct (b_valid p) eqn:Hv; lk_steps.
    + eexists i, _. split_and!; [done|reflexivity|]. eapply bread_post_intro; try done; [cbn; lia| |by left].
      left. by exists i, p.
    + destruct (b_dirty p) eqn:Hdt; [by specialize (Hdv eq_refl)|].
      eapply wp_iderw; [lia|apply Hok|done|done|cbn; by rewrite Hv|by destruct Hb as [Hb1 Hb2]; constructor; cbn; rewrite ?Hb1, ?Hb2|]. lk_steps.
      eexists i, _. split_and!; [done|reflexivity|]. unfold served, served_disk. cbn [found set_lock set_refcnt b_dirty].
      rewrite Hdt. eapply bread_post_intro; try done; [cbn; lia| |by left].
      cbn. destruct Hb as [-> ->]. apply shows_disk. intros j q Hq. by destruct (cached_unique i j p q Hdev Hc Hq) as [-> ->].
  - intros i p Hnc Hvic. pose proof Hvic as (Hp & Hrc & o1 & o2 & Ho & _).
    assert (i < NBUF) as Hi by (apply ok_bound; rewrite Ho; set_solver).
    lk_step. apply wp_rdb1; [lia|]. lk_step. cbn [recycled b_valid set_lock set_refcnt set_flags]. 
    eapply wp_iderw; [lia|apply Hok|done..|]. lk_steps.
    eexists i, _. split_and!; [done|reflexivity|].
    eapply bread_post_intro; try done; [| |by right].
    + intros j r Hj _ Hr Hb. by apply (Hnc j r).
    + apply shows_disk. intros j q Hq. by destruct (Hnc j q).
Qed.
End Get.

(** ** Reordering the list *)

(** Only the links of the buffers change. *)
Lemma erase_lookup (l l' : list buf) i p :
  erase <$> l' = erase <$> l -> l' !! i = Some p -> exists q n m, l !! i = Some q /\ p = set_next n (set_prev m q).
Proof.
  intros He Hp. assert ((erase <$> l) !! i = Some (erase p)) as Hq by (by rewrite <- He, list_lookup_fmap, Hp).
  rewrite list_lookup_fmap in Hq. destruct (l !! i) as [q|]; [|done]. exists q, (b_next p), (b_prev p). split; [done|].
  destruct p, q. unfold erase in Hq. cbn in Hq. simplify_eq. done.
Qed.

Lemma cache_ok_relink d o l' o' :
  cache_ok d o -> linked l' o' -> erase <$> l' = erase <$> bufs d -> (forall i, i < NBUF -> i ∈ o') ->
  cache_ok (with_bufs l' d) o'.
Proof.
  intros Hok Hl He Hall. constructor; [done|done| | | |apply Hok]; cbn [bufs with_bufs dsk].
  - intros i j p q Hi Hj Hp Hq Hd Hb.
    destruct (erase_lookup _ _ _ _ He Hp) as (p' & ? & ? & Hp' & ->), (erase_lookup _ _ _ _ He Hq) as (q' & ? & ? & Hq' & ->).
    exact (c_uniq _ _ Hok i j p' q' Hi Hj Hp' Hq' Hd Hb).
  - intros i p Hi Hp. destruct (erase_lookup _ _ _ _ He Hp) as (p' & ? & ? & Hp' & ->). exact (c_ref _ _ Hok _ _ Hi Hp').
  - intros i p Hi Hp Hv Hd Hlk. destruct (erase_lookup _ _ _ _ He Hp) as (p' & ? & ? & Hp' & ->).
    exact (c_coh _ _ Hok _ _ Hi Hp' Hv Hd Hlk).
Qed.

Lemma shows_relink d l' dv n w : erase <$> l' = erase <$> bufs d -> shows d dv n w -> shows (with_bufs l' d) dv n w.
Proof.
  intros He [(i & p & Hi & Hp & Hb & Hv & Hw)|[Hv Hw]]; [left|right].
  - symmetry in He. destruct (erase_lookup _ _ _ _ He Hp) as (q & ? & ? & Hq & ->). by exists i, q.
  - split; [|done]. intros i p Hi Hp Hb. destruct (erase_lookup _ _ _ _ He Hp) as (q & ? & ? & Hq & ->).
    exact (Hv i q Hi Hq Hb).
Qed.

(** The contents of the locked buffer stay what the cache shows. *)
Lemma shows_same d o i p q :
  cache_ok d o -> i < NBUF -> bufs d !! i = Some p -> b_dev p <> 0%Z -> b_valid p = true -> b_valid q = true ->
  b_data q = b_data p -> is_block (b_dev p) (b_blockno p) q ->
  forall dv n w, dv <> 0%Z -> shows d dv n w -> shows (put1 d i q (dsk d)) dv n w.
Proof.
  intros Hok Hi Hp Hd Hv Hv' He Hb. eapply (put1_shows (b_dev p) (b_blockno p)); try done; [|by left].
  left. by exists i, p.
Qed.

Lemma filter_notin (i : nat) (l : list nat) : i ∉ l -> filter (.≠ i) l = l.
Proof.
  induction l as [|a l IH]; intros Hn; [done|]. apply not_elem_of_cons in Hn as [Ha Hl].
  rewrite filter_cons_True by done. by rewrite IH.
Qed.

Lemma filter_split (i : nat) (o1 o2 : list nat) : NoDup (o1 ++ i :: o2) -> filter (.≠ i) (o1 ++ i :: o2) = o1 ++ o2.
Proof.
  intros Hnd. apply NoDup_app in Hnd as (_ & Hd1 & Hnd2). apply NoDup_cons in Hnd2 as [Hn _].
  rewrite filter_app, filter_cons_False by tauto. rewrite !filter_notin; [done|done|].
  intros Hx. eapply Hd1; [exact Hx|by left].
Qed.

Section Release.
Context (me : nat) (b : bool) (pid : Z) (d : bcache) (o : list nat) (i : nat) (p : buf).
Context (Hok : cache_ok d o) (Hi : i < NBUF) (Hp : bufs d !! i = Some p).
Context (Hdev : b_dev p <> 0%Z) (Hv : b_valid p = true) (Hlock : b_lock p = Some pid).

Lemma self_fresh : fresh_id d i p.
Proof. intros j r Hj Hji Hr Hb. apply Hji. symmetry. by eapply (c_uniq _ _ Hok i j p r). Qed.

(** The place of [i] in the order after [brelse]. *)
Definition release_order : list nat :=
  if decide (b_refcnt p = 1%Z) then i :: filter (.≠ i) o else o.

Record brelse_post (d' : bcache) : Prop := {
  rl_ok : cache_ok d' release_order;
  rl_buf : exists q, bufs d' !! i = Some q /\ b_lock q = None /\ b_refcnt q = (b_refcnt p - 1)%Z /\
    is_block (b_dev p) (b_blockno p) q /\ b_data q = b_data p /\ b_valid q = true /\ b_dirty q = b_dirty p;
  rl_view dv n w : dv <> 0%Z -> shows d dv n w -> shows d' dv n w;
  rl_disk : dsk d' = dsk d
}.

(** The buffer after [b->refcnt--], before the list is changed. *)
Let q := set_refcnt (b_refcnt p - 1) (set_lock None p).
Let d1 := put1 d i q (dsk d).

Lemma release_put1 :
  (b_dirty p = false -> b_data p = dsk d (b_dev p) (b_blockno p)) ->
  cache_ok d1 o /\ forall dv n w, dv <> 0%Z -> shows d dv n w -> shows d1 dv n w.
Proof.
  intros Hc. destruct (c_ref _ _ Hok _ _ Hi Hp) as (Hr & Hr' & Hdv). split.
  - eapply put1_ok; try done; [apply self_fresh| |by intros; apply Hc].
    cbn. destruct (decide (b_refcnt p = 0%Z)) as [H0|]; [by rewrite Hr' in Hlock|lia].
  - eapply shows_same; try done.
Qed.

Lemma release_relink l' o' :
  erase <$> l' = erase <$> bufs d1 -> cache_ok (with_bufs l' d1) o' -> o' = release_order ->
  (forall dv n w, dv <> 0%Z -> shows d dv n w -> shows d1 dv n w) -> brelse_post (with_bufs l' d1).
Proof.
  intros He Hok' -> Hsh. constructor; [done| |intros; by apply shows_relink, Hsh|done].
  assert (bufs d1 !! i = Some q) as Hq by by eapply put1_lookup_i.
  symmetry in He. destruct (erase_lookup _ _ _ _ He Hq) as (r & n & m & Hr & Hqr). exists r. split; [exact Hr|].
  assert (r = set_next (b_next r) (set_prev (b_prev r) q)) as -> by (rewrite Hqr; by destruct r).
  done.
Qed.

Lemma wp_cache_brelse :
  (b_dirty p = false -> b_data p = dsk d (b_dev p) (b_blockno p)) -> (b_refcnt p < 2 ^ 32)%Z ->
  wp (brelse me pid i) (fun _ s => exists d', s = free b d' /\ brelse_post d') (free b d).
Proof.
  intros Hc Hrb. destruct (release_put1 Hc) as [Hok1 Hsh]. pose proof (k_len _ _ (c_linked _ _ Hok)) as Hlen.
  destruct (c_ref _ _ Hok _ _ Hi Hp) as (Hr & Hr' & Hdv).
  assert (0 < b_refcnt p)%Z as Hr1 by (destruct (decide (b_refcnt p = 0%Z)) as [H0|]; [by rewrite Hr' in Hlock|lia]).
  unfold brelse. rewrite (put1_id d i p Hp). lk_step. apply wp_rdb1; [lia|]. rewrite decide_False by (rewrite Hlock; tauto).
  lk_step. apply wp_updb1; [lia|]. lk_steps. apply wp_rdb1; [lia|]. lk_step. apply wp_updb1; [lia|]. lk_step.
  apply wp_rdb1; [lia|]. cbn [b_refcnt set_lock]. rewrite uint32_id by lia. cbn [b_refcnt set_refcnt].
  change (put1 d i _ (dsk d)) with d1. lk_step.
  destruct (decide (b_refcnt p - 1 = 0)%Z) as [H0|H0].
  - destruct (list_elem_of_split o i) as (o1 & o2 & Ho); [by apply Hok|].
    pose proof (c_linked _ _ Hok1) as Hl1. destruct (k_perm _ _ Hl1) as [Hnd _]. rewrite Ho in Hl1, Hnd.
    lk_step. eapply wp_unlink; [exact Hl1|]. intros l' Hl' He'.
    assert (i ∉ o1 ++ o2) as Hni by (apply NoDup_app in Hnd as (? & Hx & Hy); apply NoDup_cons in Hy; set_solver).
    eapply wp_link_front; [exact Hl'|done|done|]. intros l'' Hl'' He''. lk_step.
    eexists. split; [reflexivity|]. eapply (release_relink l''); [by rewrite He''| |reflexivity|done].
    assert (release_order = i :: o1 ++ o2) as ->.
    { unfold release_order. rewrite decide_True by lia. by rewrite Ho, filter_split. }
    eapply cache_ok_relink; [exact Hok1|exact Hl''|by rewrite He''|].
    intros j Hj. pose proof (c_all _ _ Hok j Hj) as Hjo. rewrite Ho in Hjo. set_solver.
  - lk_steps. exists d1. split; [done|].
    assert (d1 = with_bufs (bufs d1) d1) as -> by done. apply (release_relink _ o); [done|done| |done].
    unfold release_order. by rewrite decide_False by lia.
Qed.

(** The disks after the buffer is written. *)
Definition written : Z -> Z -> block :=
  fun dv n => if decide (dv = b_dev p /\ n = b_blockno p) then b_data p else dsk d dv n.

Record bwrite_post (d' : bcache) : Prop := {
  wr_ok : cache_ok d' o;
  wr_buf : bufs d' !! i = Some (set_flags true false p);
  wr_view dv n w : dv <> 0%Z -> shows d dv n w -> shows d' dv n w;
  wr_disk : dsk d' = written
}.

Lemma wp_bwrite :
  havedisk1 d = true -> servable d p ->
  wp (bwrite me pid i) (fun _ s => exists d', s = free b d' /\ bwrite_post d') (free b d).
Proof.
  intros Hh Hsv. pose proof (k_len _ _ (c_linked _ _ Hok)) as Hlen.
  destruct (c_ref _ _ Hok _ _ Hi Hp) as (Hr & Hr' & Hdv).
  unfold bwrite. rewrite (put1_id d i p Hp). lk_step. apply wp_rdb1; [lia|]. rewrite decide_False by (rewrite Hlock; tauto).
  lk_step. apply wp_updb1; [lia|]. eapply wp_iderw; [lia|apply Hok|done|done|cbn; by rewrite andb_false_r|by destruct Hsv|].
  eexists. split; [reflexivity|]. unfold served, served_disk. cbn [b_dirty set_flags].
  change (put1 d i _ _) with (put1 d i (set_flags true false p) written).
  assert (forall dv n, ~ (dv = b_dev p /\ n = b_blockno p) -> written dv n = dsk d dv n) as Hw
    by (intros; unfold written; by rewrite decide_False).
  constructor; [| |intros dv n w Hd Hs|done].
  - eapply put1_ok; try done; [apply self_fresh|]. intros. cbn. unfold written. by rewrite decide_True.
  - by eapply put1_lookup_i.
  - destruct (decide (b_dev p = dv /\ b_blockno p = n)) as [Hb|Hb]; [|by eapply (put1_shows_other d i p)].
    left. exists i, (set_flags true false p). split; [done|]. split; [by eapply put1_lookup_i|]. split; [done|].
    split; [done|]. destruct Hb as [<- <-]. eapply shows_functional; [exact Hok|done| |done]. left. by exists i, p.
Qed.
End Release.

(** ** Initialisation *)

Lemma wp_binit_loop lk c n : forall i d o (Q : unit -> guarded bcache -> Prop),
  linked (bufs d) o -> i + n = NBUF -> (forall j, j ∈ o <-> j < i) -> erase <$> bufs d = replicate (S NBUF) (erase buf0) ->
  (forall l' o', linked l' o' -> (forall j, j ∈ o' <-> j < NBUF) -> erase <$> l' = replicate (S NBUF) (erase buf0) ->
     Q tt (mkL lk c (with_bufs l' d))) ->
  wp (binit_loop i n) Q (mkL lk c d).
Proof.
  induction n as [|n IH]; intros i d o Q Hl Hn Ho He HQ; cbn [binit_loop].
  - apply wp_ret. replace d with (with_bufs (bufs d) d) by by destruct d. eapply HQ; [done| |done].
    replace NBUF with i by lia. exact Ho.
  - apply wp_bind. eapply wp_link_front; [exact Hl|lia|rewrite Ho; lia|]. intros l' Hl' He'. apply wp_bind.
    destruct (lookup_lt_is_Some_2 l' i) as [p Hp]; [rewrite (k_len _ _ Hl'); lia|].
    eapply wp_updb; [exact Hp|]. cbn [with_bufs bufs].
    assert (erase <$> <[i:=set_lock None p]> l' = replicate (S NBUF) (erase buf0)) as He2.
    { rewrite (erase_insert l' i p); [by rewrite He'|done|].
      assert (erase p = erase buf0) as Hz.
      { rewrite He in He'. pose proof (list_lookup_fmap erase l' i) as Hf. rewrite He', Hp in Hf.
        apply lookup_replicate in Hf as [-> _]. done. }
      by destruct p; unfold erase in *; cbn in *; simplify_eq. }
    eapply (IH (S i) _ (i :: o)); [|lia| |exact He2|].
    + by eapply linked_same.
    + intros j. rewrite elem_of_cons, Ho. lia.
    + intros l2 o2 Hl2 Ho2 He3. exact (HQ l2 o2 Hl2 Ho2 He3).
Qed.

(** From a zeroed cache, [binit] links all the buffers. *)
Definition zeroed (h : bool) (dk : Z -> Z -> block) : bcache := mkCache (replicate (S NBUF) buf0) initlock [] h None (fun _ _ => false) dk.
Record binit_post (h : bool) (dk : Z -> Z -> block) (d' : bcache) (o : list nat) : Prop := {
  bi_ok : cache_ok d' o;
  bi_disk : havedisk1 d' = h /\ dsk d' = dk;
  bi_free i p : i < NBUF -> bufs d' !! i = Some p -> recyclable p /\ b_dev p = 0%Z
}.

Lemma binit_ok b h dk :
  wp binit (fun _ s => exists d' o, s = free b d' /\ binit_post h dk d' o) (free b (zeroed h dk)).
Proof.
  unfold binit. apply wp_bind. eapply wp_updb; [done|]. apply wp_bind. eapply wp_updb; [done|].
  eapply (wp_binit_loop _ _ _ _ _ []); [|done|intros j; rewrite elem_of_nil; lia|done|].
  { constructor; [done|split; [constructor|by intros ? ?%elem_of_nil]|done|done]. }
  intros l' o' Hl Ho He. eexists _, o'. split; [reflexivity|].
  assert (forall i p, l' !! i = Some p -> b_dev p = 0%Z /\ b_refcnt p = 0%Z /\ b_dirty p = false /\ b_valid p = false /\
    b_lock p = None) as Hz.
  { intros i p Hp. change (erase <$> l' = erase <$> replicate (S NBUF) buf0) in He.
    destruct (erase_lookup _ _ _ _ He Hp) as (q & n & m & Hq & ->). by apply lookup_replicate in Hq as [-> _]. }
  constructor; [|done|].
  - constructor; [done|intros; by apply Ho| | | |done]; cbn [bufs with_bufs].
    + intros i j p q _ _ Hp _ Hd. by destruct (Hz _ _ Hp).
    + intros i p _ Hp. destruct (Hz _ _ Hp) as (_ & -> & -> & _ & ->). done.
    + intros i p _ Hp Hv. destruct (Hz _ _ Hp) as (_ & _ & _ & Hv' & _). congruence.
  - intros i p _ Hp. destruct (Hz _ _ Hp) as (Hd & Hr & Ht & _). done.
Qed.

(** ** The theorems *)

(** C6. On a cache that satisfies the invariant, [bread] of a block that is not
    locked and that is cached or for which some buffer can be recycled returns
    a buffer locked by the caller and filled with the contents the cache shows
    for that block; no other block shows other contents, the disk is not
    written, and a recycled buffer is the least recently used of the clean
    unreferenced ones, taken only when the block is not cached. *)
Theorem bread_coherent me b pid bn d o :
  cache_ok d o -> havedisk1 d = true -> (0 <= bn < FSSIZE)%Z -> dskerr d ROOTDEV bn = false ->
  (forall i p, cached ROOTDEV bn d i p -> b_lock p = None /\ (b_refcnt p + 1 < 2 ^ 32)%Z) ->
  ((exists i p, cached ROOTDEV bn d i p) \/ (exists i p, i < NBUF /\ bufs d !! i = Some p /\ recyclable p)) ->
  exists i d', bread me pid ROOTDEV bn (free b d) = Ret (Done i, free b d') /\ bread_post pid ROOTDEV bn d o i d'.
Proof.
  intros Hok Hh Hbn Herr Hfree Hsome.
  destruct (proj1 (wp_Ret _ _ _) (wp_cache_bread me b pid ROOTDEV bn d o Hok eq_refl Hh Hbn Herr Hfree Hsome))
    as (r & s' & Hr & i & d' & -> & -> & Hpost). eauto.
Qed.

(** [brelse] of a valid buffer whose contents are on the disk or marked
    dirty unlocks it and drops one reference; the last one to release it puts
    it at the front of the list, the rest of the order unchanged, and no block
    shows other contents. *)
Theorem brelse_moves_to_front me b pid d o i p :
  cache_ok d o -> i < NBUF -> bufs d !! i = Some p -> b_dev p <> 0%Z -> b_valid p = true -> b_lock p = Some pid ->
  (b_dirty p = false -> b_data p = dsk d (b_dev p) (b_blockno p)) -> (b_refcnt p < 2 ^ 32)%Z ->
  exists d', brelse me pid i (free b d) = Ret (tt, free b d') /\ brelse_post d o i p d'.
Proof.
  intros Hok Hi Hp Hdev Hv Hl Hc Hr.
  destruct (proj1 (wp_Ret _ _ _) (wp_cache_brelse me b pid d o i p Hok Hi Hp Hdev Hv Hl Hc Hr))
    as ([] & s' & Hs & d' & -> & Hpost). eauto.
Qed.

(** [bwrite] of a valid buffer the caller has locked puts its contents on
    the disk, changes no other block of it, and leaves the buffer clean; no
    block shows other contents. *)
Theorem bwrite_durable me b pid d o i p :
  cache_ok d o -> i < NBUF -> bufs d !! i = Some p -> b_valid p = true -> b_lock p = Some pid ->
  havedisk1 d = true -> servable d p ->
  exists d', bwrite me pid i (free b d) = Ret (tt, free b d') /\ bwrite_post d o i p d'.
Proof.
  intros Hok Hi Hp Hv Hl Hh Hsv. assert (b_dev p <> 0%Z) as Hdev by (rewrite (sv_dev _ _ Hsv); done).
  destruct (proj1 (wp_Ret _ _ _) (wp_bwrite me b pid d o i p Hok Hi Hp Hdev Hv Hl Hh Hsv))
    as ([] & s' & Hs & d' & -> & Hpost). eauto.
Qed.

(** ** Concrete runs *)

(** Block [n] of every disk holds the number [n]; the cache after [binit], and
    after reading block 2 of device 1. *)
Definition disk0 : Z -> Z -> block := fun _ n => [n].
Definition run_cache {A} (m : bm A) (d : bcache) : bcache :=
  match m (free true d) with Ret (_, s) => l_data s | _ => d end.
Definition boot : bcache := run_cache binit (zeroed true disk0).
Definition boot2 : bcache := run_cache (bread 0 7 1 2) boot.
(** The buffer [bread] recycles first. *)
Definition buf2 : buf := default buf0 (bufs boot2 !! 0).

Lemma free_inj (b : bool) (d d' : bcache) : free b d = free b d' -> d = d'.
Proof. by injection 1. Qed.

Lemma boot_ok : exists o, binit_post true disk0 boot o.
Proof.
  assert (binit (free true (zeroed true disk0)) = Ret (tt, free true boot)) as Hr by (vm_compute; reflexivity).
  destruct (wp_elim _ _ _ _ _ (binit_ok true true disk0) Hr) as (d' & o & He & Hpost).
  exists o. rewrite (free_inj _ _ _ He). exact Hpost.
Qed.

Lemma boot_free i p : cached ROOTDEV 2 boot i p -> b_lock p = None /\ (b_refcnt p + 1 < 2 ^ 32)%Z.
Proof.
  intros (Hi & Hp & Hb & _). destruct boot_ok as [o Ho]. destruct (bi_free _ _ _ _ Ho i p Hi Hp) as [_ Hd].
  rewrite Hd in Hb. discriminate Hb.
Qed.

Lemma boot_noerr : dskerr boot ROOTDEV 2 = false.
Proof. vm_compute. reflexivity. Qed.

Lemma boot_recyclable : exists i p, i < NBUF /\ bufs boot !! i = Some p /\ recyclable p.
Proof. exists 0. eexists. split; [unfold NBUF; lia|]. split; [vm_compute; reflexivity|split; reflexivity]. Qed.

Lemma boot2_ok : exists o, cache_ok boot2 o.
Proof.
  destruct boot_ok as [o Ho]. exists o.
  assert (bread 0 7 1 2 (free true boot) = Ret (Done 0, free true boot2)) as Hr by (vm_compute; reflexivity).
  destruct (wp_elim _ _ _ _ _ (wp_cache_bread 0 true 7 1 2 boot o (bi_ok _ _ _ _ Ho) eq_refl (proj1 (bi_disk _ _ _ _ Ho))
    ltac:(unfold FSSIZE; lia) boot_noerr boot_free (or_intror boot_recyclable)) Hr) as (i & d' & _ & He & Hpost).
  rewrite (free_inj _ _ _ He). exact (br_ok _ _ _ _ _ _ _ Hpost).
Qed.

Lemma boot2_buf : bufs boot2 !! 0 = Some buf2.
Proof. vm_compute. reflexivity. Qed.

Lemma bread_coherent_witness :
  exists o, cache_ok boot o /\
  exists i d', bread 0 7 ROOTDEV 2 (free true boot) = Ret (Done i, free true d') /\ bread_post 7 ROOTDEV 2 boot o i d'.
Proof.
  destruct boot_ok as [o Ho]. exists o. split; [exact (bi_ok _ _ _ _ Ho)|].
  exact (bread_coherent 0 true 7 2 boot o (bi_ok _ _ _ _ Ho) (proj1 (bi_disk _ _ _ _ Ho))
    ltac:(unfold FSSIZE; lia) boot_noerr boot_free (or_intror boot_recyclable)).
Defined.

Lemma brelse_moves_to_front_witness :
  exists o, cache_ok boot2 o /\
  exists d', brelse 0 7 0 (free true boot2) = Ret (tt, free true d') /\ brelse_post boot2 o 0 buf2 d'.
Proof.
  destruct boot2_ok as [o Ho]. exists o. split; [exact Ho|].
  apply (brelse_moves_to_front 0 true 7 boot2 o 0 buf2);
    [exact Ho|unfold NBUF; lia|exact boot2_buf|vm_compute; congruence|vm_compute; reflexivity|vm_compute; reflexivity
    |vm_compute; reflexivity|vm_compute; reflexivity].
Defined.

Lemma bwrite_durable_witness :
  exists o, cache_ok boot2 o /\
  exists d', bwrite 0 7 0 (free true boot2) = Ret (tt, free true d') /\ bwrite_post boot2 o 0 buf2 d'.
Proof.
  destruct boot2_ok as [o Ho]. exists o. split; [exact Ho|].
  apply (bwrite_durable 0 true 7 boot2 o 0 buf2);
    [exact Ho|unfold NBUF; lia|exact boot2_buf|vm_compute; reflexivity..|].
  split; [vm_compute; reflexivity|vm_compute; split; congruence|vm_compute; reflexivity].
Defined.

(** When the disk reports an error for a read, [ideintr] marks the buffer valid
    all the same: [bread] returns whatever the buffer held before. *)
Definition failing (d : bcache) : bcache :=
  mkCache (bufs d) (idelock d) (idequeue d) (havedisk1 d) (ide_cmd d) (fun _ _ => true) (dsk d).

Example read_error_ignored :
  bread 0 7 ROOTDEV 2 (free true (failing boot)) = Ret (Done 0, free true (run_cache (bread 0 7 ROOTDEV 2) (failing boot))) /\
  exists p, bufs (run_cache (bread 0 7 ROOTDEV 2) (failing boot)) !! 0 = Some p /\ b_valid p = true /\ b_data p = [] /\
    disk0 ROOTDEV 2 = [2%Z].
Proof. split; [vm_compute; reflexivity|]. eexists. vm_compute. split_and!; reflexivity. Qed.
End BioCache.
