(* ===== verification/MemIde.v ===== *)
(** * The memory disk

    Models [src/xv6-public/memide.c], a driver with the interface of [ide.c] that
    keeps the blocks of disk 1 in memory.  The theorem says that it can take the
    place of [ide.c] below the buffer cache. *)
From S2P Require Export BioCache.

Module MemIde.
Import Spin Locked Bio BioCache.

(** [disksize]. *)
Definition ideinit (fs_img_size : Z) : Z := (fs_img_size / BSIZE)%Z.
Definition ideintr : bm unit := mret tt.

Section Ops.
Context (disksize : Z).

Definition iderw (pid : Z) (b : nat) : bm unit :=
  p ← rdb b;
  if decide (b_lock p <> Some pid) then panic "iderw: buf not locked"
  else if (b_valid p && negb (b_dirty p))%bool then panic "iderw: nothing to do"
  else if decide (b_dev p <> 1%Z) then panic "iderw: request not for disk 1"
  else if decide (disksize <= b_blockno p)%Z then panic "iderw: block out of range"
  else
    d ← getd;
    (if b_dirty p then
       updb b (set_flags (b_valid p) false) ;;
       updd (with_dsk (fun dv bn => if decide (dv = 1 /\ bn = b_blockno p)%Z then b_data p else dsk d dv bn))
     else updb b (set_data (dsk d 1 (b_blockno p)))) ;;
    p ← rdb b;
    updb b (set_flags true (b_dirty p)).
End Ops.

(** Where the disk of [ide.c] is idle and can serve the request, the two drivers
    leave the same buffer and the same blocks. *)
Theorem memide_agrees me pid i q d lk b :
  bufs d !! i = Some q -> idequeue d = [] -> ide_cmd d = None -> idelock d = initlock -> havedisk1 d = true ->
  servable d q ->
  b_lock q = Some pid -> (b_valid q && negb (b_dirty q))%bool = false ->
  iderw (ideinit (FSSIZE * BSIZE)) pid i (mkL lk (mkCpu 0 b b) d) = Bio.iderw me pid i (mkL lk (mkCpu 0 b b) d).
Proof.
  intros Hi Hq Hc Hl Hh Hs Hp Hv. pose proof (lookup_lt_Some _ _ _ Hi) as Hlt.
  assert (mkL lk (mkCpu 0 b b) d = mkL lk (mkCpu 0 b b) (put1 d i q (dsk d))) as -> by (f_equal; by apply put1_id).
  set (post := fun (_ : unit) s => s = mkL lk (mkCpu 0 b b) (put1 d i (served q (dsk d)) (served_disk q (dsk d)))).
  assert (wp (Bio.iderw me pid i) post (mkL lk (mkCpu 0 b b) (put1 d i q (dsk d)))) as Hide by (by eapply (wp_iderw me d i Hlt)).
  assert (wp (iderw (ideinit (FSSIZE * BSIZE)) pid i) post (mkL lk (mkCpu 0 b b) (put1 d i q (dsk d)))) as Hmem.
  { destruct Hs as [Hd Hb _]. unfold iderw. apply wp_bind, (wp_rdb1 d i Hlt). rewrite decide_False by (rewrite Hp; tauto). rewrite Hv.
    rewrite decide_False by (rewrite Hd; tauto). change (ideinit (FSSIZE * BSIZE)) with FSSIZE. rewrite decide_False by lia.
    apply wp_bind, wp_getd. cbn [l_data]. change (dsk (put1 d i q (dsk d))) with (dsk d).
    unfold post, served, served_disk. rewrite Hd. change ROOTDEV with 1%Z. destruct (b_dirty q) eqn:Hdirty; apply wp_bind.
    - apply wp_bind, (wp_updb1 d i Hlt), wp_cache_updd, wp_bind. change (with_dsk ?k (put1 d i ?r (dsk d))) with (put1 d i r k).
      apply (wp_rdb1 d i Hlt), (wp_updb1 d i Hlt). reflexivity.
    - apply (wp_updb1 d i Hlt), wp_bind, (wp_rdb1 d i Hlt), (wp_updb1 d i Hlt). cbn [set_data b_dirty]. by rewrite Hdirty. }
  apply wp_Ret in Hide as ([] & s1 & -> & ->). by apply wp_Ret in Hmem as ([] & s2 & -> & ->).
Qed.
End MemIde.
