(* ===== verification/Strings.v ===== *)
(** * Memory and string routines

    Models [src/xv6-public/string.c] (the kernel's) and the string part of
    [src/xv6-public/ulib.c] (the user library's).  Memory is a function from
    addresses to bytes; loops that end at a NUL byte have fuel. *)
From S2P Require Export Prelude.

Module Strings.

Definition mem : Type := Z -> Z.
Definition st8 (a v : Z) (m : mem) : mem := fun x => if decide (x = a) then (v mod 256)%Z else m x.

(** [rep stosb] and [rep stosl]. *)
Fixpoint stosb (n : nat) (a c : Z) (m : mem) : mem :=
  match n with
  | O => m
  | S n => stosb n (a + 1) c (st8 a c m)
  end.
Fixpoint stosl (n : nat) (a c : Z) (m : mem) : mem :=
  match n with
  | O => m
  | S n =>
      stosl n (a + 4) c
        (st8 (a + 3) (Z.shiftr c 24) (st8 (a + 2) (Z.shiftr c 16) (st8 (a + 1) (Z.shiftr c 8) (st8 a c m))))
  end.

(** ** [string.c] *)

Definition memset (dst c : Z) (n : nat) (m : mem) : mem :=
  if decide (Z.rem (int32 dst) 4 = 0%Z /\ n mod 4 = 0) then
    let c := Z.land c 255 in
    stosl (n / 4) dst (Z.lor (Z.lor (Z.lor (Z.shiftl c 24) (Z.shiftl c 16)) (Z.shiftl c 8)) c) m
  else stosb n dst c m.

Fixpoint memcmp (n : nat) (s1 s2 : Z) (m : mem) : Z :=
  match n with
  | O => 0
  | S n => if decide (m s1 <> m s2) then m s1 - m s2 else memcmp n (s1 + 1) (s2 + 1) m
  end.

(** [while(n-- > 0) *--d = *--s] and [while(n-- > 0) *d++ = *s++]. *)
Fixpoint copy_back (n : nat) (d s : Z) (m : mem) : mem :=
  match n with
  | O => m
  | S n => copy_back n (d - 1) (s - 1) (st8 (d - 1) (m (s - 1)%Z) m)
  end.
Fixpoint copy_fwd (n : nat) (d s : Z) (m : mem) : mem :=
  match n with
  | O => m
  | S n => copy_fwd n (d + 1) (s + 1) (st8 d (m s) m)
  end.

Definition memmove (dst src : Z) (n : nat) (m : mem) : mem :=
  let z := Z.of_nat n in
  if decide (src < dst /\ dst < src + z)%Z then copy_back n (dst + z) (src + z) m
  else copy_fwd n dst src m.

Definition memcpy (dst src : Z) (n : nat) (m : mem) : mem := memmove dst src n m.

Fixpoint strncmp (n : nat) (p q : Z) (m : mem) : Z :=
  match n with
  | O => 0
  | S n =>
      if decide (m p <> 0 /\ m p = m q)%Z then strncmp n (p + 1) (q + 1) m
      else m p - m q
  end.

(** [while(n-- > 0) *s++ = 0]. *)
Fixpoint zero_fill (n : nat) (s : Z) (m : mem) : mem :=
  match n with
  | O => m
  | S n => zero_fill n (s + 1) (st8 s 0 m)
  end.
Fixpoint strncpy (n : nat) (s t : Z) (m : mem) : mem :=
  match n with
  | O => m
  | S n =>
      let c := m t in
      let m := st8 s c m in
      if decide (c <> 0%Z) then strncpy n (s + 1) (t + 1) m else zero_fill n (s + 1) m
  end.

(** The loop of [safestrcpy], [n] rounds of [--n > 0] left. *)
Fixpoint safestrcpy_loop (n : nat) (s t : Z) (m : mem) : mem :=
  match n with
  | O => st8 s 0 m
  | S n =>
      let c := m t in
      let m := st8 s c m in
      if decide (c <> 0%Z) then safestrcpy_loop n (s + 1) (t + 1) m else st8 (s + 1) 0 m
  end.
Definition safestrcpy (s t n : Z) (m : mem) : mem :=
  if decide (n <= 0)%Z then m else safestrcpy_loop (Z.to_nat (n - 1)) s t m.

Fixpoint strlen (fuel : nat) (s n : Z) (m : mem) : outcome Z :=
  match fuel with
  | O => Hang "strlen"
  | S fuel => if decide (m (s + n) = 0)%Z then Ret n else strlen fuel s (n + 1) m
  end.

(** ** [ulib.c] *)

Definition u_memset (dst c : Z) (n : nat) (m : mem) : mem := stosb n dst c m.
Definition u_memmove (dst src n : Z) (m : mem) : mem := copy_fwd (Z.to_nat n) dst src m.

Fixpoint strcpy (fuel : nat) (s t : Z) (m : mem) : outcome mem :=
  match fuel with
  | O => Hang "strcpy"
  | S fuel =>
      let c := m t in
      let m := st8 s c m in
      if decide (c <> 0%Z) then strcpy fuel (s + 1) (t + 1) m else Ret m
  end.

Fixpoint strcmp (fuel : nat) (p q : Z) (m : mem) : outcome Z :=
  match fuel with
  | O => Hang "strcmp"
  | S fuel =>
      if decide (m p <> 0 /\ m p = m q)%Z then strcmp fuel (p + 1) (q + 1) m
      else Ret (m p - m q)%Z
  end.

Fixpoint strchr (fuel : nat) (s c : Z) (m : mem) : outcome Z :=
  match fuel with
  | O => Hang "strchr"
  | S fuel =>
      if decide (m s = 0)%Z then Ret 0%Z
      else if decide (m s = c) then Ret s
      else strchr fuel (s + 1) c m
  end.

Fixpoint atoi_loop (fuel : nat) (s n : Z) (m : mem) : outcome Z :=
  match fuel with
  | O => Hang "atoi"
  | S fuel =>
      if decide (48 <= m s <= 57)%Z then
        if decide (n * 10 + m s < 2 ^ 31)%Z then atoi_loop fuel (s + 1) (n * 10 + m s - 48)%Z m
        else Undef "atoi: signed overflow"
      else Ret n
  end.
Definition atoi (fuel : nat) (s : Z) (m : mem) : outcome Z := atoi_loop fuel s 0 m.

(** ** Specifications *)

Lemma st8_eq a v m : st8 a v m a = (v mod 256)%Z.
Proof. unfold st8. by rewrite decide_True. Qed.
Lemma st8_ne a v m x : x <> a -> st8 a v m x = m x.
Proof. intros. unfold st8. by rewrite decide_False. Qed.

(** All bytes are bytes. *)
Definition bytes_ok (m : mem) : Prop := forall a, (0 <= m a < 256)%Z.

Lemma st8_ok a v m : bytes_ok m -> bytes_ok (st8 a v m).
Proof. intros Hm x. unfold st8. case_decide; [apply Z.mod_pos_bound; lia|apply Hm]. Qed.

Lemma stosb_spec n a c m x :
  stosb n a c m x = if decide (a <= x < a + Z.of_nat n)%Z then (c mod 256)%Z else m x.
Proof.
  revert a m. induction n as [|n IH]; intros a m; cbn [stosb].
  - by rewrite decide_False by lia.
  - rewrite IH. destruct (decide (x = a)) as [->|Hx].
    + rewrite decide_False by lia. rewrite decide_True by lia. apply st8_eq.
    + rewrite st8_ne by done. repeat case_decide; lia || done.
Qed.

Lemma stosl_spec n a c m x :
  (forall k : nat, k < 4 -> (Z.shiftr c (8 * Z.of_nat k) mod 256 = c mod 256)%Z) ->
  stosl n a c m x = if decide (a <= x < a + 4 * Z.of_nat n)%Z then (c mod 256)%Z else m x.
Proof.
  intros Hc. pose proof (Hc 1 ltac:(lia)) as H1. pose proof (Hc 2 ltac:(lia)) as H2. pose proof (Hc 3 ltac:(lia)) as H3.
  change (8 * Z.of_nat 1)%Z with 8%Z in H1. change (8 * Z.of_nat 2)%Z with 16%Z in H2.
  change (8 * Z.of_nat 3)%Z with 24%Z in H3. revert a m. induction n as [|n IH]; intros a m; cbn [stosl].
  - by rewrite decide_False by lia.
  - rewrite IH. unfold st8. rewrite H1, H2, H3. repeat case_decide; lia || done.
Qed.

(** The word [stosl] stores for the byte [c]. *)
Lemma memset_word c k :
  k < 4 -> let b := Z.land c 255 in
  let w := Z.lor (Z.lor (Z.lor (Z.shiftl b 24) (Z.shiftl b 16)) (Z.shiftl b 8)) b in
  (Z.shiftr w (8 * Z.of_nat k) mod 256 = c mod 256)%Z.
Proof.
  intros Hk b w. change 256%Z with (2 ^ 8)%Z. rewrite <- !Z.land_ones by lia. apply Z.bits_inj'. intros i Hi.
  rewrite !Z.land_spec, Z.shiftr_spec by lia. destruct (decide (i < 8)%Z) as [Hlt|Hge].
  2:{ rewrite !(Z.ones_spec_high 8) by lia. by rewrite !andb_false_r. }
  rewrite !(Z.ones_spec_low 8) by lia. rewrite !andb_true_r. unfold w, b.
  change 255%Z with (Z.ones 8). rewrite !Z.lor_spec, !Z.shiftl_spec, !Z.land_spec by lia.
  assert (k = 0 \/ k = 1 \/ k = 2 \/ k = 3) as Hk' by lia.
  assert (forall j, (8 <= j)%Z -> Z.testbit (Z.ones 8) j = false) as Hhi by (intros; apply Z.ones_spec_high; lia).
  assert (forall j, (j < 0)%Z -> Z.testbit c j = false) as Hneg by (intros; by apply Z.testbit_neg_r).
  assert (Z.testbit (Z.ones 8) i = true) as Hlo by (apply Z.ones_spec_low; lia).
  destruct Hk' as [->|[->|[->| ->]]].
  - change (8 * Z.of_nat 0)%Z with 0%Z. rewrite (Hneg (i + 0 - 24)%Z), (Hneg (i + 0 - 16)%Z), (Hneg (i + 0 - 8)%Z) by lia.
    replace (i + 0)%Z with i by lia. by rewrite Hlo, andb_true_r.
  - change (8 * Z.of_nat 1)%Z with 8%Z. rewrite (Hneg (i + 8 - 24)%Z), (Hneg (i + 8 - 16)%Z), (Hhi (i + 8)%Z) by lia.
    replace (i + 8 - 8)%Z with i by lia. by rewrite Hlo, andb_true_r, andb_false_r, orb_false_r.
  - change (8 * Z.of_nat 2)%Z with 16%Z. rewrite (Hneg (i + 16 - 24)%Z), (Hhi (i + 16 - 8)%Z), (Hhi (i + 16)%Z) by lia.
    replace (i + 16 - 16)%Z with i by lia. by rewrite Hlo, andb_true_r, !andb_false_r, !orb_false_r.
  - change (8 * Z.of_nat 3)%Z with 24%Z. rewrite (Hhi (i + 24 - 16)%Z), (Hhi (i + 24 - 8)%Z), (Hhi (i + 24)%Z) by lia.
    replace (i + 24 - 24)%Z with i by lia. by rewrite Hlo, andb_true_r, !andb_false_r, !orb_false_r.
Qed.

Lemma memset_spec dst c n m x :
  memset dst c n m x = if decide (dst <= x < dst + Z.of_nat n)%Z then (c mod 256)%Z else m x.
Proof.
  unfold memset. case_decide as Hd; [|apply stosb_spec]. destruct Hd as [_ Hn].
  rewrite stosl_spec by (intros k Hk; rewrite memset_word by done; by rewrite <- (memset_word c 0) by lia).
  rewrite <- (memset_word c 0) by lia. cbn [Z.of_nat Z.mul]. rewrite Z.shiftr_0_r.
  pose proof (Nat.div_mod_eq n 4) as Hdm. repeat case_decide; lia || done.
Qed.

Lemma copy_fwd_spec n d s m x :
  bytes_ok m -> (d <= s \/ s + Z.of_nat n <= d)%Z ->
  copy_fwd n d s m x = if decide (d <= x < d + Z.of_nat n)%Z then m (s + (x - d))%Z else m x.
Proof.
  revert d s m. induction n as [|n IH]; intros d s m Hm Hds; cbn [copy_fwd].
  - by rewrite decide_False by lia.
  - rewrite IH; [|by apply st8_ok|lia]. destruct (decide (x = d)) as [->|Hx].
    + rewrite decide_False by lia. rewrite decide_True by lia. rewrite st8_eq, Z.mod_small by apply Hm. f_equal. lia.
    + destruct (decide (d <= x < d + Z.of_nat (S n))%Z).
      * rewrite decide_True by lia. rewrite st8_ne by lia. f_equal. lia.
      * rewrite decide_False by lia. by apply st8_ne.
Qed.

Lemma copy_back_spec n d s m x :
  bytes_ok m -> (s <= d)%Z ->
  copy_back n d s m x = if decide (d - Z.of_nat n <= x < d)%Z then m (s + (x - d))%Z else m x.
Proof.
  revert d s m. induction n as [|n IH]; intros d s m Hm Hds; cbn [copy_back].
  - by rewrite decide_False by lia.
  - rewrite IH; [|by apply st8_ok|lia]. destruct (decide (x = d - 1)%Z) as [->|Hx].
    + rewrite decide_False by lia. rewrite decide_True by lia. rewrite st8_eq, Z.mod_small by apply Hm. f_equal. lia.
    + destruct (decide (d - Z.of_nat (S n) <= x < d)%Z).
      * rewrite decide_True by lia. rewrite st8_ne by lia. f_equal. lia.
      * rewrite decide_False by lia. by apply st8_ne.
Qed.

(** [memmove] copies: whatever the overlap of the two ranges, the [n] bytes
    at [dst] become the bytes that were at [src], and no other byte changes. *)
Theorem memmove_copies dst src n m :
  bytes_ok m ->
  (forall k, (0 <= k < Z.of_nat n)%Z -> memmove dst src n m (dst + k)%Z = m (src + k)%Z) /\
  (forall x, ~ (dst <= x < dst + Z.of_nat n)%Z -> memmove dst src n m x = m x).
Proof.
  intros Hm.
  assert (forall x, memmove dst src n m x = if decide (dst <= x < dst + Z.of_nat n)%Z then m (src + (x - dst))%Z else m x) as Hs.
  { intros x. unfold memmove. case_decide as Hc.
    - rewrite copy_back_spec by (done || lia). repeat case_decide; try lia; f_equal; lia.
    - apply copy_fwd_spec; [done|lia]. }
  split.
  - intros k Hk. rewrite Hs, decide_True by lia. f_equal. lia.
  - intros x Hx. by rewrite Hs, decide_False.
Qed.

Lemma memmove_copies_witness :
  let m := fun a => (a mod 256)%Z in
  (forall k, (0 <= k < 4)%Z -> memmove 12 10 4 m (12 + k)%Z = m (10 + k)%Z) /\
  (forall x, ~ (12 <= x < 16)%Z -> memmove 12 10 4 m x = m x).
Proof. apply (memmove_copies 12 10 4). intros a. apply Z.mod_pos_bound. lia. Defined.

(** [memmove] of the user library only copies upwards: moving bytes up by less
    than their number repeats the first ones. *)
Example u_memmove_overlap :
  let m := u_memmove 12 10 4 (fun a => (a mod 256)%Z) in
  (m 12%Z, m 13%Z, m 14%Z, m 15%Z) = (10, 11, 10, 11)%Z.
Proof. reflexivity. Qed.

(** ** Bounded strings *)

(** The bytes of the string at [p], at most [n]. *)
Fixpoint cstr (n : nat) (p : Z) (m : mem) : list Z :=
  match n with
  | O => []
  | S n => if decide (m p = 0%Z) then [] else m p :: cstr n (p + 1) m
  end.

Lemma cstr_length n p m : length (cstr n p m) <= n.
Proof. revert p. induction n as [|n IH]; intros p; cbn; [lia|]. case_decide; cbn; [lia|]. specialize (IH (p + 1)%Z). lia. Qed.

Lemma cstr_ext n p q m m' :
  (forall k, k < n -> m' (q + Z.of_nat k)%Z = m (p + Z.of_nat k)%Z) -> cstr n q m' = cstr n p m.
Proof.
  revert p q. induction n as [|n IH]; intros p q He; cbn; [done|].
  pose proof (He 0 ltac:(lia)) as H0. rewrite !Z.add_0_r in H0. rewrite H0. case_decide; [done|]. f_equal.
  apply IH. intros k Hk. specialize (He (S k) ltac:(lia)).
  replace (p + 1 + Z.of_nat k)%Z with (p + Z.of_nat (S k))%Z by lia. rewrite <- He. f_equal. lia.
Qed.

(** [strncmp] decides equality of bounded strings. *)
Lemma strncmp_spec n p q m : strncmp n p q m = 0%Z <-> cstr n p m = cstr n q m.
Proof.
  revert p q. induction n as [|n IH]; intros p q; cbn; [done|].
  destruct (decide (m p <> 0 /\ m p = m q)%Z) as [[H0 He]|Hn].
  - rewrite IH. rewrite <- He. rewrite !decide_False by done. split; [by intros ->|by intros [= ->]].
  - split.
    + intros Heq. assert (m p = m q) as He by lia. assert (m p = 0%Z) as H0 by (destruct (decide (m p = 0%Z)); tauto).
      rewrite <- He, H0. by rewrite !decide_True.
    + repeat case_decide; [lia|done|done|]. intros [= He _]. tauto.
Qed.

(** The ranges of [n] bytes at [s] and [t] do not overlap. *)
Definition apart (n s t : Z) : Prop := (s + n <= t \/ t + n <= s)%Z.

Lemma zero_fill_spec n s m x :
  zero_fill n s m x = if decide (s <= x < s + Z.of_nat n)%Z then 0%Z else m x.
Proof.
  revert s m. induction n as [|n IH]; intros s m; cbn [zero_fill].
  - by rewrite decide_False by lia.
  - rewrite IH. unfold st8. repeat case_decide; lia || done.
Qed.

(** The [k]-th byte [strncpy] writes: of the string, or padding. *)
Definition padded (l : list Z) (k : nat) : Z := default 0%Z (l !! k).

Lemma strncpy_spec n s t m x :
  bytes_ok m -> apart (Z.of_nat n) s t ->
  strncpy n s t m x =
    if decide (s <= x < s + Z.of_nat n)%Z then padded (cstr n t m) (Z.to_nat (x - s)) else m x.
Proof.
  unfold apart. revert s t m. induction n as [|n IH]; intros s t m Hm Hap; cbn [strncpy].
  - by rewrite decide_False by lia.
  - assert (cstr n (t + 1) (st8 s (m t) m) = cstr n (t + 1) m) as Hc
      by (apply cstr_ext; intros k Hk; apply st8_ne; lia).
    cbn [cstr]. destruct (decide (m t = 0%Z)) as [H0|H0].
    + rewrite decide_False by tauto. rewrite zero_fill_spec. unfold st8, padded. rewrite H0, lookup_nil.
      repeat case_decide; lia || done.
    + rewrite decide_True by done. rewrite IH by first [by apply st8_ok|lia]. rewrite Hc.
      destruct (decide (x = s)) as [->|Hx].
      * rewrite decide_False by lia. rewrite decide_True by lia. rewrite Z.sub_diag, st8_eq, Z.mod_small by apply Hm. done.
      * rewrite st8_ne by done. repeat case_decide; try lia; try done.
        replace (Z.to_nat (x - s)) with (S (Z.to_nat (x - (s + 1)))) by lia. done.
Qed.

Lemma cstr_nonzero n p m : Forall (fun c => c <> 0%Z) (cstr n p m).
Proof. revert p. induction n as [|n IH]; intros p; cbn; [constructor|]. case_decide; constructor; auto. Qed.

(** Reading back a padded string. *)
Lemma cstr_padded n s m l :
  length l <= n -> Forall (fun c => c <> 0%Z) l -> (forall k, k < n -> m (s + Z.of_nat k)%Z = padded l k) -> cstr n s m = l.
Proof.
  revert s l. induction n as [|n IH]; intros s l Hl Hnz Hk.
  - destruct l; [done|cbn in Hl; lia].
  - pose proof (Hk 0 ltac:(lia)) as H0. rewrite Z.add_0_r in H0. cbn. rewrite H0. unfold padded in *.
    destruct l as [|c l]; cbn; [by rewrite decide_True|].
    apply Forall_cons in Hnz as [Hc Hnz]. rewrite decide_False by done. f_equal. apply IH; [cbn in Hl; lia|done|].
    intros k Hkn. specialize (Hk (S k) ltac:(lia)). etransitivity; [|exact Hk]. f_equal. lia.
Qed.

(** Reading back a terminated string. *)
Lemma cstr_prefix n s m l :
  Forall (fun c => c <> 0%Z) l -> (forall k, k < length l -> m (s + Z.of_nat k)%Z = padded l k) ->
  m (s + Z.of_nat (length l))%Z = 0%Z -> cstr (length l + S n) s m = l.
Proof.
  revert s. induction l as [|c l IH]; intros s Hnz Hk Hz; cbn [length Nat.add cstr].
  - cbn in Hz. rewrite Z.add_0_r in Hz. by rewrite decide_True.
  - pose proof (Hk 0 ltac:(cbn; lia)) as H0. rewrite Z.add_0_r in H0. cbn in H0.
    apply Forall_cons in Hnz as [Hc Hnz]. rewrite H0, decide_False by done. f_equal. apply IH; [done| |].
    + intros k Hkl. specialize (Hk (S k) ltac:(cbn; lia)). etransitivity; [|exact Hk]. f_equal. lia.
    + rewrite <- Hz. f_equal. cbn. lia.
Qed.

(** After [strncpy], [s] holds the string of [t], and [strncmp] says so. *)
Lemma strncpy_strncmp n s t m :
  bytes_ok m -> apart (Z.of_nat n) s t -> strncmp n s t (strncpy n s t m) = 0%Z.
Proof.
  intros Hm Hap. apply strncmp_spec. transitivity (cstr n t m).
  - apply cstr_padded; [apply cstr_length|apply cstr_nonzero|]. intros k Hk.
    rewrite strncpy_spec, decide_True by (done || lia). f_equal. lia.
  - symmetry. apply cstr_ext. intros k Hk. unfold apart in Hap. rewrite strncpy_spec, decide_False by (done || lia). done.
Qed.

Lemma safestrcpy_loop_spec n s t m x :
  bytes_ok m -> apart (Z.of_nat (S n)) s t ->
  (~ (s <= x < s + Z.of_nat (S n))%Z -> safestrcpy_loop n s t m x = m x) /\
  ((s <= x <= s + Z.of_nat (length (cstr n t m)))%Z ->
     safestrcpy_loop n s t m x = padded (cstr n t m) (Z.to_nat (x - s))).
Proof.
  unfold apart. revert s t m. induction n as [|n IH]; intros s t m Hm Hap; cbn [safestrcpy_loop].
  - split; [intros Hx; apply st8_ne; lia|]. cbn. intros Hx. replace x with s by lia. by rewrite st8_eq.
  - assert (cstr n (t + 1) (st8 s (m t) m) = cstr n (t + 1) m) as Hc
      by (apply cstr_ext; intros k Hk; apply st8_ne; lia).
    cbn [cstr]. destruct (decide (m t = 0%Z)) as [H0|H0].
    + rewrite decide_False by tauto. split; [intros Hx; rewrite !st8_ne by lia; done|].
      cbn. intros Hx. replace x with s by lia. rewrite st8_ne by lia. rewrite st8_eq, H0. done.
    + rewrite decide_True by done. destruct (IH (s + 1)%Z (t + 1)%Z (st8 s (m t) m)) as [IH1 IH2]; [by apply st8_ok|lia|].
      rewrite Hc in IH2. split; [intros Hx; rewrite IH1 by lia; apply st8_ne; lia|]. cbn [length]. intros Hx.
      destruct (decide (x = s)) as [->|Hne].
      * rewrite IH1 by lia. rewrite st8_eq, Z.mod_small by apply Hm. by rewrite Z.sub_diag.
      * rewrite IH2 by lia. replace (Z.to_nat (x - s)) with (S (Z.to_nat (x - (s + 1)))) by lia. done.
Qed.

(** [safestrcpy] of [n] > 0 bytes writes only the [n] bytes at [s], and
    leaves there the string of [t] cut to [n - 1] bytes, NUL-terminated. *)
Theorem safestrcpy_terminates s t n m :
  bytes_ok m -> (0 < n)%Z -> apart n s t ->
  let m' := safestrcpy s t n m in
  let l := cstr (Z.to_nat (n - 1)) t m in
  cstr (Z.to_nat n) s m' = l /\ m' (s + Z.of_nat (length l))%Z = 0%Z /\
  (forall x, ~ (s <= x < s + n)%Z -> m' x = m x).
Proof.
  intros Hm Hn Hap m' l. assert (length l <= Z.to_nat (n - 1)) as Hl by apply cstr_length.
  assert (Forall (fun c => c <> 0%Z) l) as Hnz by apply cstr_nonzero.
  assert (forall x, (~ (s <= x < s + n)%Z -> m' x = m x) /\
     ((s <= x <= s + Z.of_nat (length l))%Z -> m' x = padded l (Z.to_nat (x - s)))) as Hs.
  { intros x. unfold m', safestrcpy. rewrite decide_False by lia.
    replace (s + n)%Z with (s + Z.of_nat (S (Z.to_nat (n - 1))))%Z by lia.
    apply safestrcpy_loop_spec; [done|]. by replace (Z.of_nat (S (Z.to_nat (n - 1)))) with n by lia. }
  assert (m' (s + Z.of_nat (length l))%Z = 0%Z) as Hz.
  { rewrite (proj2 (Hs _)) by lia. unfold padded. by rewrite lookup_ge_None_2 by lia. }
  split; [|split; [done|intros x; apply Hs]].
  replace (Z.to_nat n) with (length l + S (Z.to_nat n - length l - 1)) by lia.
  apply cstr_prefix; [done| |done]. intros k Hk. rewrite (proj2 (Hs _)) by lia. f_equal. lia.
Qed.

(** "sh" at 100, copied to 10 with room for 2 bytes. *)
Definition demo : mem := fun a => if decide (a = 100)%Z then 115%Z else if decide (a = 101)%Z then 104%Z else 0%Z.

Lemma safestrcpy_terminates_witness :
  cstr 2 10 (safestrcpy 10 100 2 demo) = [115%Z] /\ safestrcpy 10 100 2 demo 11%Z = 0%Z /\
  (forall x, ~ (10 <= x < 10 + 2)%Z -> safestrcpy 10 100 2 demo x = demo x).
Proof.
  apply (safestrcpy_terminates 10 100 2 demo); [|lia|unfold apart; lia].
  intros a. unfold demo. repeat case_decide; lia.
Defined.

(** ** Strings that end *)

(** [l] and a NUL are at [p]. *)
Definition string_at (m : mem) (p : Z) (l : list Z) : Prop :=
  Forall (fun c => c <> 0%Z) l /\ (forall k, k < length l -> m (p + Z.of_nat k)%Z = padded l k) /\
  m (p + Z.of_nat (length l))%Z = 0%Z.

Lemma string_at_cons m p c l : string_at m p (c :: l) -> m p = c /\ c <> 0%Z /\ string_at m (p + 1) l.
Proof.
  intros (Hnz & Hk & Hz). apply Forall_cons in Hnz as [Hc Hnz].
  pose proof (Hk 0 ltac:(cbn; lia)) as H0. rewrite Z.add_0_r in H0. split; [exact H0|]. split; [done|].
  split_and!; [done| |].
  - intros k Hkl. specialize (Hk (S k) ltac:(cbn; lia)). etransitivity; [|exact Hk]. f_equal. lia.
  - rewrite <- Hz. f_equal. cbn. lia.
Qed.

Lemma string_at_nil m p : string_at m p [] -> m p = 0%Z.
Proof. intros (_ & _ & Hz). cbn in Hz. by rewrite Z.add_0_r in Hz. Qed.

Lemma strlen_spec m p l fuel n :
  string_at m (p + n) l -> length l < fuel -> strlen fuel p n m = Ret (n + Z.of_nat (length l))%Z.
Proof.
  revert n fuel. induction l as [|c l IH]; intros n fuel Hs Hf; destruct fuel as [|fuel]; cbn in Hf; try lia; cbn [strlen].
  - apply string_at_nil in Hs. rewrite decide_True by done. f_equal. cbn. lia.
  - apply string_at_cons in Hs as (Hc & Hnz & Hs). rewrite decide_False by congruence.
    rewrite (IH (n + 1)%Z fuel); [f_equal; cbn; lia| |lia]. by replace (p + (n + 1))%Z with (p + n + 1)%Z by lia.
Qed.

(** [strcmp] of the user library decides equality of strings. *)
Lemma strcmp_spec m p q l l' fuel :
  string_at m p l -> string_at m q l' -> length l < fuel ->
  exists r, strcmp fuel p q m = Ret r /\ (r = 0%Z <-> l = l').
Proof.
  revert p q l' fuel. induction l as [|c l IH]; intros p q l' fuel Hp Hq Hf; destruct fuel as [|fuel]; cbn in Hf; try lia; cbn [strcmp].
  - apply string_at_nil in Hp. rewrite decide_False by tauto. eexists. split; [done|]. rewrite Hp.
    destruct l' as [|c' l'].
    + by apply string_at_nil in Hq as ->.
    + apply string_at_cons in Hq as (-> & Hc & _). split; [lia|done].
  - apply string_at_cons in Hp as (Hpc & Hc & Hp). destruct l' as [|c' l'].
    + apply string_at_nil in Hq. rewrite decide_False by (intros []; congruence). eexists. split; [done|]. split; [lia|done].
    + apply string_at_cons in Hq as (Hqc & Hc' & Hq). destruct (decide (c = c')) as [->|Hne].
      * rewrite decide_True by (split; congruence). destruct (IH (p + 1)%Z (q + 1)%Z l' fuel Hp Hq) as (r & Hr & Hiff); [lia|].
        exists r. split; [done|]. rewrite Hiff. split; [by intros ->|by intros [= ->]].
      * rewrite decide_False by (intros []; congruence). eexists. split; [done|]. split; [lia|]. intros [= -> _]. lia.
Qed.

(** The number a string of decimal digits denotes. *)
Definition decimal (l : list Z) : Z := foldl (fun n c => n * 10 + (c - 48))%Z 0%Z l.

Lemma atoi_loop_spec m p l fuel n :
  string_at m p l -> Forall (fun c => 48 <= c <= 57)%Z l -> length l < fuel -> (0 <= n)%Z ->
  (foldl (fun n c => n * 10 + (c - 48))%Z n l < 2 ^ 31 - 48)%Z ->
  atoi_loop fuel p n m = Ret (foldl (fun n c => n * 10 + (c - 48))%Z n l).
Proof.
  revert p n fuel. induction l as [|c l IH]; intros p n fuel Hs Hd Hf Hn Hb; destruct fuel as [|fuel]; cbn in Hf; try lia; cbn [atoi_loop].
  - apply string_at_nil in Hs. by rewrite Hs.
  - apply string_at_cons in Hs as (Hc & _ & Hs). apply Forall_cons in Hd as [Hc9 Hd]. rewrite Hc, decide_True by done.
    assert (n * 10 + (c - 48) <= foldl (fun n c => n * 10 + (c - 48))%Z (n * 10 + (c - 48)) l)%Z as Hmono.
    { assert (0 <= n * 10 + (c - 48))%Z as H0 by lia. revert H0. clear -Hd.
      generalize (n * 10 + (c - 48))%Z. induction l as [|a l IHl]; intros z Hz; cbn; [lia|].
      apply Forall_cons in Hd as [Ha Hd]. specialize (IHl Hd (z * 10 + (a - 48))%Z). lia. }
    cbn in Hb. rewrite decide_True by lia. replace (n * 10 + c - 48)%Z with (n * 10 + (c - 48))%Z by lia.
    apply IH; [done|done|lia|lia|done].
Qed.

Lemma atoi_spec m p l fuel :
  string_at m p l -> Forall (fun c => 48 <= c <= 57)%Z l -> length l < fuel -> (decimal l < 2 ^ 31 - 48)%Z ->
  atoi fuel p m = Ret (decimal l).
Proof. intros. by apply atoi_loop_spec. Qed.
End Strings.
