(* ===== verification/FsDefs.v ===== *)
(** * The file system: definitions

    Models [src/xv6-public/fs.c] with the layouts of [fs.h] and [file.h]: the
    block allocator, the inode cache, the contents of inodes, directories and
    path names.  The buffer cache and the log appear as what they promise to
    this layer: the contents of every block as the cache shows it, the buffers
    the caller has locked (locking one twice does not return), and the blocks
    the current transaction has logged.  A sleep lock is the pid that holds
    it; an operation that would wait for one does not return. *)
From S2P Require Export Log Bio Strings.

Module Fs.
Import Spin Locked.

Notation block := (list Z).

Definition ROOTINO : Z := 1.
Definition BSIZE : Z := 512.
Definition NDIRECT : Z := 12.
Definition NINDIRECT : Z := 128.
Definition MAXFILE : Z := NDIRECT + NINDIRECT.
Definition IPB : Z := 8.
Definition BPB : Z := BSIZE * 8.
Definition DIRSIZ : nat := 14.
Definition NINODE : nat := 50.
Definition NDEV : Z := 10.
Definition T_DIR : Z := 1.
Definition T_FILE : Z := 2.
Definition T_DEV : Z := 3.

(** ** Layouts *)

(** [new] in place of the bytes of [l] from [off] on. *)
Definition splice (off : nat) (new l : list Z) : list Z :=
  take off l ++ new ++ drop (off + length new) l.

Definition le16 (z : Z) : list Z := [z mod 256; (z / 256) mod 256]%Z.
Definition byte_at (l : list Z) (k : nat) : Z := default 0%Z (l !! k).
Definition get_u16 (l : list Z) (o : nat) : Z := (byte_at l o + 256 * byte_at l (o + 1))%Z.
(** A [short]. *)
Definition get_i16 (l : list Z) (o : nat) : Z := ((get_u16 l o + 32768) mod 65536 - 32768)%Z.
Definition get_u32 (l : list Z) (o : nat) : Z :=
  (get_u16 l o + 65536 * get_u16 l (o + 2))%Z.

(** [struct superblock]. *)
Record superblock := mkSb {
  sb_size : Z;
  sb_nblocks : Z;
  sb_ninodes : Z;
  sb_nlog : Z;
  sb_logstart : Z;
  sb_inodestart : Z;
  sb_bmapstart : Z
}.

Definition decode_sb (b : block) : superblock :=
  mkSb (get_u32 b 0) (get_u32 b 4) (get_u32 b 8) (get_u32 b 12) (get_u32 b 16) (get_u32 b 20) (get_u32 b 24).

(** [struct dinode], 64 bytes on disk. *)
Record dinode := mkDinode {
  d_type : Z;
  d_major : Z;
  d_minor : Z;
  d_nlink : Z;
  d_size : Z;
  d_addrs : list Z
}.

Definition encode_dinode (d : dinode) : list Z :=
  le16 (d_type d) ++ le16 (d_major d) ++ le16 (d_minor d) ++ le16 (d_nlink d) ++ Log.le32 (d_size d) ++
  (d_addrs d ≫= Log.le32).
Definition decode_dinode (l : list Z) : dinode :=
  mkDinode (get_i16 l 0) (get_i16 l 2) (get_i16 l 4) (get_i16 l 6) (get_u32 l 8)
    ((fun k => get_u32 l (12 + 4 * k)) <$> seq 0 13).

(** Entry [k] of an inode block. *)
Definition get_dinode (k : nat) (b : block) : dinode := decode_dinode (take 64 (drop (64 * k) b)).
Definition put_dinode (k : nat) (d : dinode) (b : block) : block := splice (64 * k) (encode_dinode d) b.

Definition IBLOCK (i : Z) (s : superblock) : Z := i / IPB + sb_inodestart s.
Definition BBLOCK (b : Z) (s : superblock) : Z := b / BPB + sb_bmapstart s.

(** [struct dirent], 16 bytes. *)
Definition encode_dirent (inum : Z) (name : list Z) : list Z := le16 inum ++ name.

(** ** State *)

(** [struct inode]. *)
Record inode := mkInode {
  i_dev : Z;
  i_inum : Z;
  i_ref : Z;
  i_lock : option Z;
  i_valid : bool;
  i_type : Z;
  i_major : Z;
  i_minor : Z;
  i_nlink : Z;
  i_size : Z;
  i_addrs : list Z
}.

Definition set_ref r i := mkInode (i_dev i) (i_inum i) r (i_lock i) (i_valid i) (i_type i) (i_major i) (i_minor i) (i_nlink i) (i_size i) (i_addrs i).
Definition set_ilock l i := mkInode (i_dev i) (i_inum i) (i_ref i) l (i_valid i) (i_type i) (i_major i) (i_minor i) (i_nlink i) (i_size i) (i_addrs i).
Definition set_valid v i := mkInode (i_dev i) (i_inum i) (i_ref i) (i_lock i) v (i_type i) (i_major i) (i_minor i) (i_nlink i) (i_size i) (i_addrs i).
Definition set_type t i := mkInode (i_dev i) (i_inum i) (i_ref i) (i_lock i) (i_valid i) t (i_major i) (i_minor i) (i_nlink i) (i_size i) (i_addrs i).
Definition set_majmin a b i := mkInode (i_dev i) (i_inum i) (i_ref i) (i_lock i) (i_valid i) (i_type i) a b (i_nlink i) (i_size i) (i_addrs i).
Definition set_nlink n i := mkInode (i_dev i) (i_inum i) (i_ref i) (i_lock i) (i_valid i) (i_type i) (i_major i) (i_minor i) n (i_size i) (i_addrs i).
Definition set_size z i := mkInode (i_dev i) (i_inum i) (i_ref i) (i_lock i) (i_valid i) (i_type i) (i_major i) (i_minor i) (i_nlink i) z (i_addrs i).
Definition set_addrs a i := mkInode (i_dev i) (i_inum i) (i_ref i) (i_lock i) (i_valid i) (i_type i) (i_major i) (i_minor i) (i_nlink i) (i_size i) a.
Definition set_id dev inum i := mkInode dev inum (i_ref i) (i_lock i) (i_valid i) (i_type i) (i_major i) (i_minor i) (i_nlink i) (i_size i) (i_addrs i).
(** The fields that are copied from and to the disk. *)
Definition of_dinode (d : dinode) i :=
  mkInode (i_dev i) (i_inum i) (i_ref i) (i_lock i) (i_valid i) (d_type d) (d_major d) (d_minor d) (d_nlink d) (d_size d) (d_addrs d).
Definition to_dinode i : dinode := mkDinode (i_type i) (i_major i) (i_minor i) (i_nlink i) (i_size i) (i_addrs i).

(** The blocks as the cache shows them, by device and number; the buffers the
    caller has locked; the blocks logged in the transaction; [sb]; [icache].
    The lock of the [guarded] state is [icache.lock]. *)
Record fsst := mkFs {
  dk : Z * Z -> block;
  held_bufs : gset (Z * Z);
  logged : gset (Z * Z);
  sb : superblock;
  inodes : list inode
}.

Definition set_dk f (s : fsst) := mkFs f (held_bufs s) (logged s) (sb s) (inodes s).
Definition set_held h (s : fsst) := mkFs (dk s) h (logged s) (sb s) (inodes s).
Definition set_logged l (s : fsst) := mkFs (dk s) (held_bufs s) l (sb s) (inodes s).
Definition set_sb b (s : fsst) := mkFs (dk s) (held_bufs s) (logged s) b (inodes s).
Definition set_inodes l (s : fsst) := mkFs (dk s) (held_bufs s) (logged s) (sb s) l.
Definition upd_blk (a : Z * Z) (v : block) (f : Z * Z -> block) : Z * Z -> block :=
  fun x => if decide (x = a) then v else f x.

Definition fm A := stm (guarded fsst) A.
Definition lift {A} (o : outcome A) : fm A := fun s => a ← o; Ret (a, s).
Definition updd (f : fsst -> fsst) : fm unit := d ← getd; setd (f d).

(** ** Buffers *)

Definition bread (a : Z * Z) : fm block :=
  d ← getd;
  if decide (a ∈ held_bufs d) then hang "bread: the caller has the buffer locked"
  else if decide (Bio.FSSIZE <= snd a)%Z then panic "incorrect blockno"
  else setd (set_held ({[a]} ∪ held_bufs d) d) ;; mret (dk d a).
(** Assignments to [bp->data]. *)
Definition bmod (a : Z * Z) (f : block -> block) : fm unit :=
  updd (fun d => set_dk (upd_blk a (f (dk d a)) (dk d)) d).
Definition log_write (a : Z * Z) : fm unit := updd (fun d => set_logged ({[a]} ∪ logged d) d).
Definition brelse (a : Z * Z) : fm unit :=
  d ← getd;
  if decide (a ∈ held_bufs d) then setd (set_held (held_bufs d ∖ {[a]}) d) else panic "brelse".

(** ** Blocks *)

Definition readsb (dev : Z) : fm superblock :=
  b ← bread (dev, 1%Z); brelse (dev, 1%Z) ;; mret (decode_sb b).

Definition bzero (dev bno : Z) : fm unit :=
  bread (dev, bno) ;;
  bmod (dev, bno) (fun _ => replicate (Z.to_nat BSIZE) 0%Z) ;;
  log_write (dev, bno) ;;
  brelse (dev, bno).

(** The inner loop of [balloc], [n] bits left from [bi] on. *)
Fixpoint balloc_bits (n : nat) (bi b size : Z) (data : block) : outcome (option Z) :=
  match n with
  | O => Ret None
  | S n =>
      if decide (b + bi < size)%Z then
        x ← rd data (Z.to_nat (bi / 8));
        if decide (Z.land x (Z.shiftl 1 (bi mod 8)) = 0)%Z then Ret (Some bi)
        else balloc_bits n (bi + 1) b size data
      else Ret None
  end.

(** [data\[bi/8\] |= m] and [data\[bi/8\] &= ~m]. *)
Definition set_bit (bi : Z) (data : block) : block :=
  alter (fun x => Z.lor x (Z.shiftl 1 (bi mod 8))) (Z.to_nat (bi / 8)) data.
Definition clear_bit (bi : Z) (data : block) : block :=
  alter (fun x => Z.ldiff x (Z.shiftl 1 (bi mod 8))) (Z.to_nat (bi / 8)) data.

Fixpoint balloc_loop (fuel : nat) (dev b : Z) : fm Z :=
  match fuel with
  | O => hang "balloc"
  | S fuel =>
      d ← getd;
      if decide (b < sb_size (sb d))%Z then
        let a := (dev, BBLOCK b (sb d)) in
        data ← bread a;
        r ← lift (balloc_bits (Z.to_nat BPB) 0 b (sb_size (sb d)) data);
        match r with
        | Some bi => bmod a (set_bit bi) ;; log_write a ;; brelse a ;; bzero dev (b + bi) ;; mret (b + bi)%Z
        | None => brelse a ;; balloc_loop fuel dev (b + BPB)
        end
      else panic "balloc: out of blocks"
  end.

(** One round per bitmap block, and the last test. *)
Definition balloc (dev : Z) : fm Z :=
  d ← getd; balloc_loop (S (S (Z.to_nat (sb_size (sb d) / BPB)))) dev 0.

Definition bfree (dev b : Z) : fm unit :=
  d ← getd;
  let a := (dev, BBLOCK b (sb d)) in
  let bi := (b mod BPB)%Z in
  data ← bread a;
  x ← lift (rd data (Z.to_nat (bi / 8)));
  if decide (Z.land x (Z.shiftl 1 (bi mod 8)) = 0)%Z then panic "freeing free block"
  else bmod a (clear_bit bi) ;; log_write a ;; brelse a.

(** ** The inode cache *)

Section Ops.
(** The CPU, and the process that runs on it. *)
Context (me : nat) (pid : Z).

Definition rdi (i : nat) : fm inode := d ← getd; lift (rd (inodes d) i).
Definition updi (i : nat) (f : inode -> inode) : fm unit :=
  d ← getd; ip ← lift (rd (inodes d) i); setd (set_inodes (<[i:=f ip]> (inodes d)) d).

(** [initsleeplock] of every inode, and the super block. *)
Definition iinit (dev : Z) : fm unit :=
  updd (fun d => set_inodes (set_ilock None <$> inodes d) d) ;;
  s ← readsb dev;
  updd (set_sb s).

(** The scan of [iget]: the entry of the inode, or the first free entry. *)
Fixpoint iget_scan (l : list inode) (i : nat) (dev inum : Z) (empty : option nat) : nat + option nat :=
  match l with
  | [] => inr empty
  | ip :: l =>
      if decide (0 < i_ref ip /\ i_dev ip = dev /\ i_inum ip = inum)%Z then inl i
      else iget_scan l (S i) dev inum
             (match empty with Some e => Some e | None => if decide (i_ref ip = 0)%Z then Some i else None end)
  end.

Definition iget (dev inum : Z) : fm nat :=
  lk_acquire me ;;
  d ← getd;
  match iget_scan (inodes d) 0 dev inum None with
  | inl i => updi i (fun ip => set_ref (i_ref ip + 1) ip) ;; lk_release me ;; mret i
  | inr None => panic "iget: no inodes"
  | inr (Some i) =>
      updi i (fun ip => set_valid false (set_ref 1 (set_id dev inum ip))) ;;
      lk_release me ;;
      mret i
  end.

Fixpoint ialloc_loop (n : nat) (dev inum type : Z) : fm nat :=
  match n with
  | O => panic "ialloc: no inodes"
  | S n =>
      d ← getd;
      let a := (dev, IBLOCK inum (sb d)) in
      let k := Z.to_nat (inum mod IPB) in
      b ← bread a;
      if decide (d_type (get_dinode k b) = 0)%Z then
        bmod a (put_dinode k (mkDinode type 0 0 0 0 (replicate 13 0%Z))) ;;
        log_write a ;;
        brelse a ;;
        iget dev inum
      else brelse a ;; ialloc_loop n dev (inum + 1) type
  end.

(** [for(inum = 1; inum < sb.ninodes; inum++)]. *)
Definition ialloc (dev type : Z) : fm nat :=
  d ← getd; ialloc_loop (Z.to_nat (sb_ninodes (sb d) - 1)) dev 1 type.

Definition iupdate (i : nat) : fm unit :=
  ip ← rdi i;
  d ← getd;
  let a := (i_dev ip, IBLOCK (i_inum ip) (sb d)) in
  bread a ;;
  bmod a (put_dinode (Z.to_nat (i_inum ip mod IPB)) (to_dinode ip)) ;;
  log_write a ;;
  brelse a.

Definition idup (i : nat) : fm nat :=
  lk_acquire me ;; updi i (fun ip => set_ref (i_ref ip + 1) ip) ;; lk_release me ;; mret i.

(** [acquiresleep(&ip->lock)] and [releasesleep(&ip->lock)]. *)
Definition lock_inode (i : nat) : fm unit :=
  ip ← rdi i;
  match i_lock ip with
  | None => updi i (set_ilock (Some pid))
  | Some _ => hang "acquiresleep: the inode is locked"
  end.
Definition unlock_inode (i : nat) : fm unit := updi i (set_ilock None).

(** The inode block read by [ilock] when the entry is not valid. *)
Definition load_inode (i : nat) : fm unit :=
  ip ← rdi i;
  d ← getd;
  let a := (i_dev ip, IBLOCK (i_inum ip) (sb d)) in
  b ← bread a;
  updi i (of_dinode (get_dinode (Z.to_nat (i_inum ip mod IPB)) b)) ;;
  brelse a ;;
  updi i (set_valid true) ;;
  ip ← rdi i;
  if decide (i_type ip = 0)%Z then panic "ilock: no type" else mret tt.

Definition ilock (i : nat) : fm unit :=
  ip ← rdi i;
  if decide (i_ref ip < 1)%Z then panic "ilock"
  else
    lock_inode i ;;
    ip ← rdi i;
    if i_valid ip then mret tt else load_inode i.

Definition iunlock (i : nat) : fm unit :=
  ip ← rdi i;
  if decide (i_lock ip <> Some pid \/ i_ref ip < 1)%Z then panic "iunlock"
  else unlock_inode i.

(** ** The contents of inodes *)

(** The block number at [a\[bn\]] of an indirect block, and setting it. *)
Definition get_addr (bn : Z) (b : block) : Z := get_u32 b (4 * Z.to_nat bn).
Definition put_addr (bn addr : Z) (b : block) : block := splice (4 * Z.to_nat bn) (Log.le32 addr) b.

(** [addr = ip->addrs\[k\]], allocated when it is 0. *)
Definition addr_or_alloc (i : nat) (k : Z) : fm Z :=
  ip ← rdi i;
  addr ← lift (rd (i_addrs ip) (Z.to_nat k));
  if decide (addr = 0)%Z then
    addr ← balloc (i_dev ip);
    updi i (fun ip => set_addrs (<[Z.to_nat k:=addr]> (i_addrs ip)) ip) ;;
    mret addr
  else mret addr.

Definition bmap (i : nat) (bn : Z) : fm Z :=
  if decide (bn < NDIRECT)%Z then addr_or_alloc i bn
  else
    let bn := (bn - NDIRECT)%Z in
    if decide (bn < NINDIRECT)%Z then
      ind ← addr_or_alloc i NDIRECT;
      ip ← rdi i;
      let a := (i_dev ip, ind) in
      b ← bread a;
      let addr := get_addr bn b in
      addr ←
        (if decide (addr = 0)%Z then
           addr ← balloc (i_dev ip); bmod a (put_addr bn addr) ;; log_write a ;; mret addr
         else mret addr);
      brelse a ;;
      mret addr
    else panic "bmap: out of range".

(** The loops of [itrunc] over the direct and the indirect addresses. *)
Fixpoint itrunc_direct (n k i : nat) : fm unit :=
  match n with
  | O => mret tt
  | S n =>
      ip ← rdi i;
      addr ← lift (rd (i_addrs ip) k);
      (if decide (addr = 0)%Z then mret tt
       else bfree (i_dev ip) addr ;; updi i (fun ip => set_addrs (<[k:=0%Z]> (i_addrs ip)) ip)) ;;
      itrunc_direct n (S k) i
  end.
Fixpoint itrunc_indirect (n : nat) (j dev : Z) (b : block) : fm unit :=
  match n with
  | O => mret tt
  | S n =>
      (if decide (get_addr j b = 0)%Z then mret tt else bfree dev (get_addr j b)) ;;
      itrunc_indirect n (j + 1) dev b
  end.

Definition itrunc (i : nat) : fm unit :=
  itrunc_direct (Z.to_nat NDIRECT) 0 i ;;
  ip ← rdi i;
  ind ← lift (rd (i_addrs ip) (Z.to_nat NDIRECT));
  (if decide (ind = 0)%Z then mret tt
   else
     b ← bread (i_dev ip, ind);
     itrunc_indirect (Z.to_nat NINDIRECT) 0 (i_dev ip) b ;;
     brelse (i_dev ip, ind) ;;
     bfree (i_dev ip) ind ;;
     updi i (fun ip => set_addrs (<[Z.to_nat NDIRECT:=0%Z]> (i_addrs ip)) ip)) ;;
  updi i (set_size 0) ;;
  iupdate i.

Definition iput (i : nat) : fm unit :=
  lock_inode i ;;
  ip ← rdi i;
  (if decide (i_valid ip = true /\ i_nlink ip = 0%Z) then
     lk_acquire me ;;
     ip ← rdi i;
     lk_release me ;;
     if decide (i_ref ip = 1)%Z then
       itrunc i ;; updi i (set_type 0) ;; iupdate i ;; updi i (set_valid false)
     else mret tt
   else mret tt) ;;
  unlock_inode i ;;
  lk_acquire me ;;
  updi i (fun ip => set_ref (i_ref ip - 1) ip) ;;
  lk_release me.

Definition iunlockput (i : nat) : fm unit := iunlock i ;; iput i.

(** [struct stat]. *)
Record stat := mkStat { st_type : Z; st_dev : Z; st_ino : Z; st_nlink : Z; st_size : Z }.
Definition stati (ip : inode) : stat := mkStat (i_type ip) (i_dev ip) (i_inum ip) (i_nlink ip) (i_size ip).

(** [devsw]: the read and write functions of the devices. *)
Context (devread : Z -> option (nat -> Z -> fm (Z * list Z))).
Context (devwrite : Z -> option (nat -> list Z -> Z -> fm Z)).

(** The loop of [readi], with the bytes copied to [dst] so far; after the tests
    [off] and [tot] do not overflow.  Every round copies at least one byte. *)
Fixpoint readi_loop (fuel : nat) (i : nat) (off tot n : Z) (dst : list Z) : fm (list Z) :=
  if decide (tot < n)%Z then
    match fuel with
    | O => hang "readi"
    | S fuel =>
        ip ← rdi i;
        addr ← bmap i (off / BSIZE);
        b ← bread (i_dev ip, addr);
        let m := Z.min (n - tot) (BSIZE - off mod BSIZE) in
        let bytes := take (Z.to_nat m) (drop (Z.to_nat (off mod BSIZE)) b) in
        brelse (i_dev ip, addr) ;;
        readi_loop fuel i (off + m) (tot + m) n (dst ++ bytes)
    end
  else mret dst.

(** The result, and the bytes stored at [dst]. *)
Definition readi (i : nat) (off n : Z) : fm (Z * list Z) :=
  ip ← rdi i;
  if decide (i_type ip = T_DEV) then
    if decide (i_major ip < 0 \/ NDEV <= i_major ip)%Z then mret (-1, [])%Z
    else match devread (i_major ip) with
    | None => mret (-1, [])%Z
    | Some f => f i n
    end
  else if decide (i_size ip < off \/ uint32 (off + n) < off)%Z then mret (-1, [])%Z
  else
    let n := if decide (i_size ip < uint32 (off + n))%Z then uint32 (i_size ip - off) else n in
    dst ← readi_loop (Z.to_nat n) i off 0 n [];
    mret (n, dst).

(** The loop of [writei]; it returns the final [off]. *)
Fixpoint writei_loop (fuel : nat) (i : nat) (src : list Z) (off tot n : Z) : fm Z :=
  if decide (tot < n)%Z then
    match fuel with
    | O => hang "writei"
    | S fuel =>
        ip ← rdi i;
        addr ← bmap i (off / BSIZE);
        let a := (i_dev ip, addr) in
        bread a ;;
        let m := Z.min (n - tot) (BSIZE - off mod BSIZE) in
        bmod a (splice (Z.to_nat (off mod BSIZE)) (take (Z.to_nat m) src)) ;;
        log_write a ;;
        brelse a ;;
        writei_loop fuel i (drop (Z.to_nat m) src) (off + m) (tot + m) n
    end
  else mret off.

(** [src] are the [n] bytes at the source address. *)
Definition writei (i : nat) (src : list Z) (off n : Z) : fm Z :=
  ip ← rdi i;
  if decide (i_type ip = T_DEV) then
    if decide (i_major ip < 0 \/ NDEV <= i_major ip)%Z then mret (-1)%Z
    else match devwrite (i_major ip) with
    | None => mret (-1)%Z
    | Some f => f i src n
    end
  else if decide (i_size ip < off \/ uint32 (off + n) < off)%Z then mret (-1)%Z
  else if decide (MAXFILE * BSIZE < uint32 (off + n))%Z then mret (-1)%Z
  else
    off ← writei_loop (Z.to_nat n) i src off 0 n;
    ip ← rdi i;
    (if decide (0 < n /\ i_size ip < off)%Z then updi i (set_size off) ;; iupdate i else mret tt) ;;
    mret n.

(** ** Directories *)

(** A byte list as memory from address 0, and [n] bytes of memory. *)
Definition mem_of (l : list Z) : Strings.mem := fun x => if decide (x < 0)%Z then 0%Z else byte_at l (Z.to_nat x).
Definition bytes_of (n : nat) (a : Z) (m : Strings.mem) : list Z := (fun k => m (a + Z.of_nat k)%Z) <$> seq 0 n.

(** [strncmp(s, t, DIRSIZ)]; [s] is padded to a buffer of [DIRSIZ] bytes. *)
Definition pad (l : list Z) : list Z := take DIRSIZ (l ++ replicate DIRSIZ 0%Z).
Definition namecmp (s t : list Z) : Z := Strings.strncmp DIRSIZ 0 (Z.of_nat DIRSIZ) (mem_of (pad s ++ t)).
(** [strncpy(de.name, name, DIRSIZ)]. *)
Definition namecpy (name : list Z) : list Z :=
  bytes_of DIRSIZ 0 (Strings.strncpy DIRSIZ 0 (Z.of_nat DIRSIZ) (mem_of (replicate DIRSIZ 0%Z ++ name))).

Definition DIRENT : Z := 16.

(** The entry at [off]; [None] is a short read. *)
Definition read_dirent (i : nat) (off : Z) : fm (option (Z * list Z)) :=
  '(r, de) ← readi i off DIRENT;
  mret (if decide (r = DIRENT) then Some (get_u16 de 0, drop 2 de) else None).

(** The loop of [dirlookup]; the entry and its offset. *)
Fixpoint dirlookup_loop (fuel : nat) (i : nat) (name : list Z) (off : Z) : fm (option (nat * Z)) :=
  ip ← rdi i;
  if decide (off < i_size ip)%Z then
    match fuel with
    | O => hang "dirlookup"
    | S fuel =>
        e ← read_dirent i off;
        match e with
        | None => panic "dirlookup read"
        | Some (inum, nm) =>
            if decide (inum <> 0%Z /\ namecmp name nm = 0%Z) then
              j ← iget (i_dev ip) inum; mret (Some (j, off))
            else dirlookup_loop fuel i name (uint32 (off + DIRENT))
        end
    end
  else mret None.

Definition dirlookup (i : nat) (name : list Z) : fm (option (nat * Z)) :=
  ip ← rdi i;
  if decide (i_type ip <> T_DIR) then panic "dirlookup not DIR"
  else dirlookup_loop (S (Z.to_nat (i_size ip))) i name 0.

(** The loop of [dirlink]: the offset of the first empty entry, or of the end. *)
Fixpoint dirlink_loop (fuel : nat) (i : nat) (off : Z) : fm Z :=
  ip ← rdi i;
  if decide (off < i_size ip)%Z then
    match fuel with
    | O => hang "dirlink"
    | S fuel =>
        e ← read_dirent i off;
        match e with
        | None => panic "dirlink read"
        | Some (inum, _) => if decide (inum = 0)%Z then mret off else dirlink_loop fuel i (uint32 (off + DIRENT))
        end
    end
  else mret off.

Definition dirlink (i : nat) (name : list Z) (inum : Z) : fm Z :=
  r ← dirlookup i name;
  match r with
  | Some (j, _) => iput j ;; mret (-1)%Z
  | None =>
      ip ← rdi i;
      off ← dirlink_loop (S (Z.to_nat (i_size ip))) i 0;
      r ← writei i (encode_dirent inum (namecpy name)) off DIRENT;
      if decide (r <> DIRENT) then panic "dirlink" else mret 0%Z
  end.

(** ** Paths

    A path is its characters, without the NUL; [name] is a buffer of [DIRSIZ]
    bytes. *)

Fixpoint skip_slashes (path : list Z) : list Z :=
  match path with
  | c :: p => if decide (c = 47)%Z then skip_slashes p else path
  | [] => []
  end.
(** The characters up to the next slash, and the rest. *)
Fixpoint element (path : list Z) : list Z * list Z :=
  match path with
  | c :: p => if decide (c = 47)%Z then ([], path) else let '(e, r) := element p in (c :: e, r)
  | [] => ([], [])
  end.

Definition skipelem (path name : list Z) : option (list Z * list Z) :=
  match skip_slashes path with
  | [] => None
  | path =>
      let '(s, path) := element path in
      let len := length s in
      let name :=
        if decide (DIRSIZ <= len) then splice 0 (take DIRSIZ s) name
        else splice len [0%Z] (splice 0 s name) in
      Some (skip_slashes path, name)
  end.

Fixpoint namex_loop (fuel : nat) (i : nat) (path : list Z) (parent : bool) (name : list Z) : fm (option nat * list Z) :=
  match skipelem path name with
  | None => if parent then iput i ;; mret (None, name) else mret (Some i, name)
  | Some (path, name) =>
      match fuel with
      | O => hang "namex"
      | S fuel =>
          ilock i ;;
          ip ← rdi i;
          if decide (i_type ip <> T_DIR) then iunlockput i ;; mret (None, name)
          else if decide (parent = true /\ path = []) then iunlock i ;; mret (Some i, name)
          else
            r ← dirlookup i name;
            match r with
            | None => iunlockput i ;; mret (None, name)
            | Some (next, _) => iunlockput i ;; namex_loop fuel next path parent name
            end
      end
  end.

(** [cwd] is the working directory of the process. *)
Definition namex (cwd : nat) (path : list Z) (parent : bool) (name : list Z) : fm (option nat * list Z) :=
  i ← (if decide (head path = Some 47%Z) then iget Bio.ROOTDEV ROOTINO else idup cwd);
  namex_loop (length path) i path parent name.

(** [name] is an uninitialised local. *)
Definition namei (cwd : nat) (path name : list Z) : fm (option nat) :=
  '(r, _) ← namex cwd path false name; mret r.
Definition nameiparent (cwd : nat) (path name : list Z) : fm (option nat * list Z) := namex cwd path true name.
End Ops.
End Fs.
