(* ===== verification/FsBase.v ===== *)
(** * The file system: layouts and blocks

    Round trips of the on-disk layouts, the rules for the buffer operations,
    and the block allocator: the bitmap as a set of allocated blocks. *)
From S2P Require Export FsDefs.

Module FsBase.
Import Spin Locked Fs.

(** ** Bytes *)

Lemma length_splice off new l : off + length new <= length l -> length (splice off new l) = length l.
Proof. intros H. unfold splice. rewrite !length_app, length_take, length_drop. lia. Qed.

Lemma byte_at_splice off new l k :
  off + length new <= length l ->
  byte_at (splice off new l) k = if decide (off <= k < off + length new) then byte_at new (k - off) else byte_at l k.
Proof.
  intros H. unfold splice, byte_at. case_decide as Hk.
  - rewrite lookup_app_r by (rewrite length_take; lia). rewrite length_take, Nat.min_l by lia.
    rewrite lookup_app_l by lia. done.
  - destruct (decide (k < off)).
    + rewrite lookup_app_l by (rewrite length_take; lia). by rewrite lookup_take_lt by lia.
    + rewrite lookup_app_r by (rewrite length_take; lia). rewrite length_take, Nat.min_l by lia.
      rewrite lookup_app_r by lia. rewrite lookup_drop. do 2 f_equal. lia.
Qed.

Lemma byte_at_sub o n l j : j < n -> byte_at (take n (drop o l)) j = byte_at l (o + j).
Proof. intros H. unfold byte_at. rewrite lookup_take_lt by done. by rewrite lookup_drop. Qed.

Lemma get_u16_sub o n l j : j + 2 <= n -> get_u16 (take n (drop o l)) j = get_u16 l (o + j).
Proof. intros H. unfold get_u16. rewrite !byte_at_sub by lia. do 3 f_equal. lia. Qed.
Lemma get_u32_sub o n l j : j + 4 <= n -> get_u32 (take n (drop o l)) j = get_u32 l (o + j).
Proof. intros H. unfold get_u32. rewrite !get_u16_sub by lia. do 3 f_equal. lia. Qed.

(** Bytes that are not replaced. *)
Lemma get_u16_splice_ne off new l o :
  off + length new <= length l -> o + 2 <= off \/ off + length new <= o -> get_u16 (splice off new l) o = get_u16 l o.
Proof. intros H Ho. unfold get_u16. rewrite !byte_at_splice by done. by rewrite !decide_False by lia. Qed.
Lemma get_u32_splice_ne off new l o :
  off + length new <= length l -> o + 4 <= off \/ off + length new <= o -> get_u32 (splice off new l) o = get_u32 l o.
Proof. intros H Ho. unfold get_u32. by rewrite !get_u16_splice_ne by lia. Qed.

Lemma get_u16_splice off new l o :
  off + length new <= length l -> off <= o -> o + 2 <= off + length new ->
  get_u16 (splice off new l) o = get_u16 new (o - off).
Proof.
  intros H Ho Ho'. unfold get_u16. rewrite !byte_at_splice by done. rewrite !decide_True by lia. do 3 f_equal. lia.
Qed.
Lemma get_u32_splice off new l o :
  off + length new <= length l -> off <= o -> o + 4 <= off + length new ->
  get_u32 (splice off new l) o = get_u32 new (o - off).
Proof. intros H Ho Ho'. unfold get_u32. rewrite !get_u16_splice by lia. do 3 f_equal. lia. Qed.

(** The integers of the encodings. *)
Lemma le16_value z : (z mod 256 + 256 * ((z / 256) mod 256) = z mod 65536)%Z.
Proof. Z.div_mod_to_equations. lia. Qed.
Lemma le32_value z :
  (z mod 256 + 256 * ((z / 256) mod 256) + 65536 * ((z / 65536) mod 256 + 256 * ((z / 16777216) mod 256)) = z mod 2 ^ 32)%Z.
Proof. change (2 ^ 32)%Z with 4294967296%Z. Z.div_mod_to_equations. lia. Qed.

Lemma get_u32_le32 z : (0 <= z < 2 ^ 32)%Z -> get_u32 (Log.le32 z) 0 = z.
Proof. intros Hz. rewrite <- (Z.mod_small z (2 ^ 32)) at 2 by done. rewrite <- le32_value. reflexivity. Qed.

(** A [short] of a value. *)
Definition is_short (z : Z) : Prop := (-32768 <= z < 32768)%Z.
Definition is_uint (z : Z) : Prop := (0 <= z < 2 ^ 32)%Z.

Lemma short_le16 z : is_short z -> ((z mod 256 + 256 * ((z / 256) mod 256) + 32768) mod 65536 - 32768 = z)%Z.
Proof.
  intros Hz. rewrite le16_value. rewrite Z.add_mod_idemp_l by lia. unfold is_short in Hz. rewrite Z.mod_small; lia.
Qed.

Lemma uint_le32 z : is_uint z ->
  (z mod 256 + 256 * ((z / 256) mod 256) + 65536 * ((z / 65536) mod 256 + 256 * ((z / 16777216) mod 256)) = z)%Z.
Proof. intros Hz. rewrite le32_value. by apply Z.mod_small. Qed.

Record dinode_ok (d : dinode) : Prop := {
  dn_shorts : is_short (d_type d) /\ is_short (d_major d) /\ is_short (d_minor d) /\ is_short (d_nlink d);
  dn_size : is_uint (d_size d);
  dn_len : length (d_addrs d) = 13;
  dn_addrs : Forall is_uint (d_addrs d)
}.

Lemma length_encode_dinode d : length (d_addrs d) = 13 -> length (encode_dinode d) = 64.
Proof. intros H. unfold encode_dinode. rewrite !length_app, Log.length_le32s, H. done. Qed.

(** Reading back an encoded inode. *)
Lemma decode_encode_dinode d : dinode_ok d -> decode_dinode (encode_dinode d) = d.
Proof.
  intros [(Ht & Hma & Hmi & Hn) Hs Hl Ha]. destruct d as [t ma mi n sz addrs]. cbn in *.
  do 13 (destruct addrs as [|? addrs]; [discriminate Hl|]). destruct addrs; [|discriminate Hl].
  repeat (apply Forall_cons in Ha as [? Ha]). unfold decode_dinode, encode_dinode. cbn [d_type d_major d_minor d_nlink d_size d_addrs].
  f_equal; [by apply short_le16|by apply short_le16|by apply short_le16|by apply short_le16|by apply uint_le32|].
  cbn [seq fmap list_fmap mbind list_bind Log.le32 app].
  do 13 (apply (f_equal2 cons); [by apply uint_le32|]). reflexivity.
Qed.

Lemma get_put_dinode k d b : dinode_ok d -> length b = 512 -> k < 8 -> get_dinode k (put_dinode k d b) = d.
Proof.
  intros Hd Hb Hk. unfold get_dinode, put_dinode, splice. pose proof (length_encode_dinode d (dn_len _ Hd)) as Hl.
  rewrite drop_app_length' by (rewrite length_take; lia). rewrite take_app_length' by done. by apply decode_encode_dinode.
Qed.

Lemma get_put_dinode_ne j k d b :
  length (d_addrs d) = 13 -> length b = 512 -> j <> k -> k < 8 -> get_dinode j (put_dinode k d b) = get_dinode j b.
Proof.
  intros Hd Hb Hjk Hk. unfold get_dinode, put_dinode. pose proof (length_encode_dinode d Hd) as Hl. f_equal.
  apply list_eq. intros x. destruct (decide (x < 64)); [|by rewrite !lookup_take_ge by lia].
  rewrite !lookup_take_lt, !lookup_drop by done. unfold splice.
  destruct (decide (64 * j + x < 64 * k)).
  - rewrite lookup_app_l by (rewrite length_take; lia). by rewrite lookup_take_lt.
  - rewrite lookup_app_r by (rewrite length_take; lia). rewrite length_take, Nat.min_l by lia.
    rewrite lookup_app_r by lia. rewrite lookup_drop. f_equal. lia.
Qed.

Lemma length_put_dinode k d b : length (d_addrs d) = 13 -> length b = 512 -> k < 8 -> length (put_dinode k d b) = 512.
Proof.
  intros Hd Hb Hk. unfold put_dinode. rewrite length_splice; [done|]. rewrite length_encode_dinode by done. lia.
Qed.

(** Addresses of an indirect block. *)
Lemma get_put_addr bn a b : is_uint a -> length b = 512 -> (0 <= bn < NINDIRECT)%Z -> get_addr bn (put_addr bn a b) = a.
Proof.
  unfold NINDIRECT. intros Ha Hb Hbn. unfold get_addr, put_addr. rewrite get_u32_splice by (cbn [length Log.le32]; lia).
  rewrite Nat.sub_diag. by apply get_u32_le32.
Qed.
Lemma get_put_addr_ne bn bn' a b :
  length b = 512 -> (0 <= bn < NINDIRECT)%Z -> (0 <= bn')%Z -> bn <> bn' -> get_addr bn' (put_addr bn a b) = get_addr bn' b.
Proof.
  unfold NINDIRECT. intros Hb Hbn Hbn' Hne. unfold get_addr, put_addr.
  apply get_u32_splice_ne; cbn [length Log.le32]; lia.
Qed.
Lemma length_put_addr bn a b : length b = 512 -> (0 <= bn < NINDIRECT)%Z -> length (put_addr bn a b) = 512.
Proof. unfold NINDIRECT. intros Hb Hbn. unfold put_addr. rewrite length_splice; [done|]. cbn [length Log.le32]. lia. Qed.

(** ** Rules for the primitive operations *)

Definition store (a : Z * Z) (v : block) (d : fsst) : fsst := set_dk (upd_blk a v (dk d)) d.
Definition log_add (a : Z * Z) (d : fsst) : fsst := set_logged ({[a]} ∪ logged d) d.
Definition lock_buf (a : Z * Z) (d : fsst) : fsst := set_held ({[a]} ∪ held_bufs d) d.

Lemma fsst_ext d d' :
  dk d = dk d' -> held_bufs d = held_bufs d' -> logged d = logged d' -> sb d = sb d' -> inodes d = inodes d' -> d = d'.
Proof. destruct d, d'. cbn. by intros -> -> -> -> ->. Qed.

Lemma upd_blk_eq a v f : upd_blk a v f a = v.
Proof. unfold upd_blk. by rewrite decide_True. Qed.
Lemma upd_blk_ne a v f x : x <> a -> upd_blk a v f x = f x.
Proof. intros. unfold upd_blk. by rewrite decide_False. Qed.

Section Rules.
Context (b : bool).
Implicit Types (d : fsst) (a : Z * Z).

Lemma wp_getd_free d (Q : fsst -> guarded fsst -> Prop) : Q d (free b d) -> wp getd Q (free b d).
Proof. exact id. Qed.

Lemma wp_updd f d (Q : unit -> guarded fsst -> Prop) : Q tt (free b (f d)) -> wp (updd f) Q (free b d).
Proof. exact id. Qed.

Lemma wp_lift {A} (o : outcome A) x s (Q : A -> guarded fsst -> Prop) : o = Ret x -> Q x s -> wp (lift o) Q s.
Proof. intros -> HQ. exact HQ. Qed.

Lemma wp_bread a d (Q : block -> guarded fsst -> Prop) :
  a ∉ held_bufs d -> (snd a < Bio.FSSIZE)%Z -> Q (dk d a) (free b (lock_buf a d)) -> wp (bread a) Q (free b d).
Proof.
  intros Ha Hb HQ. unfold bread. apply wp_bind, wp_getd_free. rewrite decide_False by done. rewrite decide_False by lia. exact HQ.
Qed.

Lemma wp_bmod a f d (Q : unit -> guarded fsst -> Prop) :
  Q tt (free b (store a (f (dk d a)) d)) -> wp (bmod a f) Q (free b d).
Proof. exact id. Qed.

Lemma wp_log_write a d (Q : unit -> guarded fsst -> Prop) : Q tt (free b (log_add a d)) -> wp (log_write a) Q (free b d).
Proof. exact id. Qed.

Lemma wp_brelse a d (Q : unit -> guarded fsst -> Prop) :
  a ∈ held_bufs d -> Q tt (free b (set_held (held_bufs d ∖ {[a]}) d)) -> wp (brelse a) Q (free b d).
Proof. intros Ha HQ. unfold brelse. apply wp_bind, wp_getd_free. rewrite decide_True by done. exact HQ. Qed.

Lemma wp_rdi i ip d (Q : inode -> guarded fsst -> Prop) :
  inodes d !! i = Some ip -> Q ip (free b d) -> wp (rdi i) Q (free b d).
Proof. intros Hi HQ. unfold rdi. apply wp_bind, wp_getd_free. eapply wp_lift; [by apply rd_lookup|exact HQ]. Qed.

Lemma wp_updi i ip f d (Q : unit -> guarded fsst -> Prop) :
  inodes d !! i = Some ip -> Q tt (free b (set_inodes (<[i:=f ip]> (inodes d)) d)) -> wp (updi i f) Q (free b d).
Proof.
  intros Hi HQ. unfold updi. apply wp_bind, wp_getd_free, wp_bind. eapply wp_lift; [by apply rd_lookup|exact HQ].
Qed.

(** A buffer locked, changed and logged, and released. *)
Lemma held_release a d : a ∉ held_bufs d -> ({[a]} ∪ held_bufs d) ∖ {[a]} = held_bufs d.
Proof. set_solver. Qed.

Lemma lock_buf_in a d : a ∈ held_bufs (lock_buf a d).
Proof. cbn. set_solver. Qed.

Definition logged_write (a : Z * Z) (v : block) (d : fsst) : fsst := log_add a (store a v d).

Lemma logged_write_eq a v d : dk (logged_write a v d) a = v.
Proof. apply upd_blk_eq. Qed.
Lemma logged_write_ne a v d x : x <> a -> dk (logged_write a v d) x = dk d x.
Proof. apply upd_blk_ne. Qed.

Lemma wp_write_block a f d (Q : unit -> guarded fsst -> Prop) :
  a ∉ held_bufs d -> (snd a < Bio.FSSIZE)%Z -> Q tt (free b (logged_write a (f (dk d a)) d)) ->
  wp (bmod a f ;; log_write a ;; brelse a) Q (free b (lock_buf a d)).
Proof.
  intros Ha Hs HQ. apply wp_bind, wp_bmod, wp_bind, wp_log_write, wp_brelse; [cbn; set_solver|].
  cbn [held_bufs log_add store lock_buf set_logged set_dk set_held]. rewrite held_release by done. destruct d. exact HQ.
Qed.

Lemma wp_release_block a d (Q : unit -> guarded fsst -> Prop) :
  a ∉ held_bufs d -> Q tt (free b d) -> wp (brelse a) Q (free b (lock_buf a d)).
Proof.
  intros Ha HQ. apply wp_brelse; [cbn; set_solver|]. cbn [held_bufs lock_buf set_held]. rewrite held_release by done.
  by destruct d.
Qed.

Lemma wp_bzero dev bno d (Q : unit -> guarded fsst -> Prop) :
  (dev, bno) ∉ held_bufs d -> (bno < Bio.FSSIZE)%Z ->
  Q tt (free b (logged_write (dev, bno) (replicate 512 0%Z) d)) -> wp (bzero dev bno) Q (free b d).
Proof. intros Ha Hb HQ. unfold bzero. apply wp_bind, wp_bread; [done|done|]. by apply wp_write_block. Qed.
End Rules.

(** ** The bitmap *)

(** Bit [bi] of a bitmap block. *)
Definition is_set (data : block) (bi : Z) : bool := Z.testbit (byte_at data (Z.to_nat (bi / 8))) (bi mod 8).

Lemma land_bit x k : (0 <= k)%Z -> Z.land x (Z.shiftl 1 k) = 0%Z <-> Z.testbit x k = false.
Proof.
  intros Hk. rewrite Z.shiftl_1_l. split.
  - intros H. pose proof (f_equal (fun z => Z.testbit z k) H) as H'. cbn beta in H'.
    rewrite Z.land_spec, Z.pow2_bits_true, andb_true_r, Z.bits_0 in H' by done. done.
  - intros H. apply Z.bits_inj'. intros j Hj. rewrite Z.land_spec, Z.bits_0.
    destruct (decide (j = k)) as [->|Hne]; [by rewrite H|]. rewrite Z.pow2_bits_false by done. apply andb_false_r.
Qed.

Lemma byte_at_alter f k l j :
  k < length l -> byte_at (alter f k l) j = if decide (j = k) then f (byte_at l j) else byte_at l j.
Proof.
  intros Hk. unfold byte_at. destruct (decide (j = k)) as [->|Hne].
  - rewrite list_lookup_alter_eq. destruct (lookup_lt_is_Some_2 l k Hk) as [x ->]. done.
  - by rewrite list_lookup_alter_ne.
Qed.

Lemma bit_index_inj bi bj : (0 <= bi)%Z -> (0 <= bj)%Z -> Z.to_nat (bj / 8) = Z.to_nat (bi / 8) -> (bj mod 8 = bi mod 8)%Z -> bj = bi.
Proof. intros Hi Hj H1 H2. Z.div_mod_to_equations. lia. Qed.

Lemma is_set_update f bi bj l v :
  (forall x k, (0 <= k < 8)%Z -> Z.testbit (f x) k = if decide (k = bi mod 8)%Z then v else Z.testbit x k) ->
  length l = 512 -> (0 <= bi < 4096)%Z -> (0 <= bj)%Z ->
  is_set (alter f (Z.to_nat (bi / 8)) l) bj = if decide (bj = bi) then v else is_set l bj.
Proof.
  intros Hf Hl Hbi Hbj. unfold is_set.
  assert (Z.to_nat (bi / 8) < 512) as Hlt by (Z.div_mod_to_equations; lia).
  rewrite byte_at_alter by lia. pose proof (Z.mod_pos_bound bj 8 ltac:(lia)) as Hm.
  destruct (decide (Z.to_nat (bj / 8) = Z.to_nat (bi / 8))) as [He|Hne].
  - rewrite Hf by lia. destruct (decide (bj = bi)) as [->|Hn]; [by rewrite decide_True|].
    rewrite decide_False; [done|]. intros Hmod. apply Hn. by apply bit_index_inj; [lia..|].
  - rewrite decide_False; [done|]. intros ->. done.
Qed.

Lemma is_set_set bi bj l : length l = 512 -> (0 <= bi < 4096)%Z -> (0 <= bj)%Z ->
  is_set (set_bit bi l) bj = if decide (bj = bi) then true else is_set l bj.
Proof.
  apply is_set_update. intros x k Hk. rewrite Z.lor_spec, Z.shiftl_1_l.
  case_decide as He.
  - subst k. rewrite Z.pow2_bits_true by lia. apply orb_true_r.
  - rewrite Z.pow2_bits_false by lia. apply orb_false_r.
Qed.
Lemma is_set_clear bi bj l : length l = 512 -> (0 <= bi < 4096)%Z -> (0 <= bj)%Z ->
  is_set (clear_bit bi l) bj = if decide (bj = bi) then false else is_set l bj.
Proof.
  apply is_set_update. intros x k Hk. rewrite Z.ldiff_spec, Z.shiftl_1_l.
  case_decide as He.
  - subst k. rewrite Z.pow2_bits_true by lia. apply andb_false_r.
  - rewrite Z.pow2_bits_false by lia. apply andb_true_r.
Qed.
End FsBase.
