(* ===== verification/FsBlocks.v ===== *)
(** * The file system: the block allocator

    What the bitmap of a device means ([allocated], [fs_wf]), and the
    specifications of [balloc] and [bfree] against it. *)
From S2P Require Export FsBase.

Module FsBlocks.
Import Spin Locked Fs FsBase.

Section Dev.
Context (dev : Z) (b : bool).
Implicit Types (d : fsst) (x y : Z).

Definition bmap_blk d : Z * Z := (dev, sb_bmapstart (sb d)).
Definition allocated d x : bool := is_set (dk d (bmap_blk d)) x.
Definition is_free d x : Prop := (0 <= x < sb_size (sb d))%Z /\ allocated d x = false.

(** A file system whose bitmap is one block (the disk has [FSSIZE] < [BPB]
    blocks), with the blocks before the data marked as allocated. *)
Record fs_wf d : Prop := {
  w_size : (0 < sb_size (sb d) <= Bio.FSSIZE)%Z;
  w_bmap : (0 <= sb_bmapstart (sb d) < sb_size (sb d))%Z;
  w_len x : (0 <= x < sb_size (sb d))%Z -> length (dk d (dev, x)) = 512;
  w_meta x : (0 <= x <= sb_bmapstart (sb d))%Z -> allocated d x = true;
  w_iblock inum : (0 <= inum < sb_ninodes (sb d))%Z -> (0 < IBLOCK inum (sb d) < sb_bmapstart (sb d))%Z
}.

Lemma wf_bitmap_len d : fs_wf d -> length (dk d (bmap_blk d)) = 512.
Proof. intros Hw. apply Hw, Hw. Qed.

Lemma wf_bblock d x : fs_wf d -> (0 <= x < sb_size (sb d))%Z -> BBLOCK x (sb d) = sb_bmapstart (sb d) /\ (x mod BPB = x)%Z.
Proof.
  intros Hw Hx. pose proof (w_size _ Hw) as Hs. unfold Bio.FSSIZE in Hs. unfold BBLOCK, BPB, BSIZE.
  rewrite Z.div_small, Z.mod_small by lia. lia.
Qed.

Lemma free_data d x : fs_wf d -> is_free d x -> (sb_bmapstart (sb d) < x < sb_size (sb d))%Z.
Proof.
  intros Hw [Hx Ha]. split; [|lia]. destruct (decide (x <= sb_bmapstart (sb d))%Z) as [Hle|]; [|lia].
  rewrite (w_meta _ Hw) in Ha; [done|lia].
Qed.

Lemma wf_ext d d' : dk d' = dk d -> sb d' = sb d -> fs_wf d -> fs_wf d'.
Proof.
  intros H1 H2 [? ? ? Hm ?]. unfold allocated, bmap_blk in Hm.
  constructor; unfold allocated, bmap_blk; rewrite ?H1, ?H2; done.
Qed.

(** ** Allocation *)

Lemma balloc_bits_spec d n bi :
  fs_wf d -> (0 <= bi)%Z ->
  exists r, balloc_bits n bi 0 (sb_size (sb d)) (dk d (bmap_blk d)) = Ret r /\
  match r with
  | Some x => (bi <= x)%Z /\ is_free d x /\ forall y, (bi <= y < x)%Z -> allocated d y = true
  | None => forall y, (bi <= y < bi + Z.of_nat n)%Z -> (y < sb_size (sb d))%Z -> allocated d y = true
  end.
Proof.
  intros Hw. pose proof (w_size _ Hw) as Hs. pose proof (wf_bitmap_len _ Hw) as Hl. unfold Bio.FSSIZE in Hs.
  revert bi. induction n as [|n IH]; intros bi Hbi; cbn [balloc_bits].
  - exists None. split; [done|]. intros. lia.
  - rewrite Z.add_0_l. case_decide as Hlt; [|exists None; split; [done|intros; lia]].
    destruct (rd_lt (dk d (bmap_blk d)) (Z.to_nat (bi / 8))) as (v & Hv & ->); [rewrite Hl; Z.div_mod_to_equations; lia|].
    cbn. assert (allocated d bi = Z.testbit v (bi mod 8)) as Hbit by (unfold allocated, is_set, byte_at; by rewrite Hv).
    pose proof (Z.mod_pos_bound bi 8 ltac:(lia)) as Hm.
    destruct (decide (Z.land v (Z.shiftl 1 (bi mod 8)) = 0)%Z) as [H0|H0].
    + apply land_bit in H0; [|lia]. exists (Some bi). split; [done|]. split; [lia|].
      split; [split; [lia|congruence]|]. intros. lia.
    + assert (allocated d bi = true) as Ha.
      { rewrite Hbit. apply not_false_iff_true. intros Hf. apply H0. by apply land_bit; [lia|]. }
      destruct (IH (bi + 1)%Z) as (r & Hr & Hspec); [lia|]. exists r. split; [done|]. destruct r as [x|].
      * destruct Hspec as (H1 & H2 & H3). split; [lia|]. split; [done|]. intros y Hy.
        destruct (decide (y = bi)) as [->|]; [done|apply H3; lia].
      * intros y Hy Hys. destruct (decide (y = bi)) as [->|]; [done|apply Hspec; lia].
Qed.

(** The state after block [x] is allocated, and after it is freed. *)
Definition alloc (x : Z) d : fsst :=
  logged_write (dev, x) (replicate 512 0%Z) (logged_write (bmap_blk d) (set_bit x (dk d (bmap_blk d))) d).
Definition dealloc (x : Z) d : fsst := logged_write (bmap_blk d) (clear_bit x (dk d (bmap_blk d))) d.

Lemma wp_balloc d (Q : Z -> guarded fsst -> Prop) :
  fs_wf d -> bmap_blk d ∉ held_bufs d -> (forall x, is_free d x -> (dev, x) ∉ held_bufs d) ->
  (exists x, is_free d x) ->
  (forall x, is_free d x -> (forall y, (0 <= y < x)%Z -> allocated d y = true) -> Q x (free b (alloc x d))) ->
  wp (balloc dev) Q (free b d).
Proof.
  intros Hw Hbm Hh Hex HQ. pose proof (w_size _ Hw) as Hs. pose proof (w_bmap _ Hw) as Hb0.
  unfold balloc. apply wp_bind, wp_getd_free. cbn [balloc_loop]. apply wp_bind, wp_getd_free.
  rewrite decide_True by lia. destruct (wf_bblock d 0 Hw ltac:(lia)) as [-> _].
  change (dev, sb_bmapstart (sb d)) with (bmap_blk d).
  apply wp_bind, wp_bread; [done|cbn; lia|].
  destruct (balloc_bits_spec d (Z.to_nat BPB) 0 Hw ltac:(lia)) as (r & Hr & Hspec).
  apply wp_bind. eapply wp_lift; [exact Hr|]. destruct r as [x|].
  - destruct Hspec as (_ & Hx & Hfirst). rewrite Z.add_0_l.
    apply wp_bind, wp_bmod, wp_bind, wp_log_write, wp_bind, wp_brelse; [exact (lock_buf_in _ d)|].
    cbn [held_bufs log_add store lock_buf set_logged set_dk set_held]. rewrite held_release by done.
    apply wp_bind. pose proof (free_data d x Hw Hx) as Hd. apply wp_bzero; [by apply Hh|lia|].
    apply wp_ret. specialize (HQ x Hx Hfirst). destruct d. exact HQ.
  - exfalso. destruct Hex as [x [Hx Ha]]. rewrite Hspec in Ha; [done| |lia].
    unfold BPB, BSIZE, Bio.FSSIZE in *. lia.
Qed.

(** With every block in use, [balloc] panics. *)
Lemma balloc_full d :
  fs_wf d -> bmap_blk d ∉ held_bufs d -> (forall x, ~ is_free d x) ->
  balloc dev (free b d) = Panic "balloc: out of blocks".
Proof.
  intros Hw Hbm Hno. pose proof (w_size _ Hw) as Hs. pose proof (w_bmap _ Hw) as Hb0.
  destruct (balloc_bits_spec d (Z.to_nat BPB) 0 Hw ltac:(lia)) as (r & Hr & Hspec).
  destruct r as [x|]; [by destruct (Hno x); apply Hspec|].
  unfold balloc. etransitivity; [apply (stm_bind_Ret getd); reflexivity|]; cbn [l_data free]. cbn [balloc_loop].
  etransitivity; [apply (stm_bind_Ret getd); reflexivity|]; cbn [l_data free].
  rewrite decide_True by lia. destruct (wf_bblock d 0 Hw ltac:(lia)) as [-> _].
  change (dev, sb_bmapstart (sb d)) with (bmap_blk d).
  assert (wp (bread (bmap_blk d)) (fun v s => v = dk d (bmap_blk d) /\ s = free b (lock_buf (bmap_blk d) d)) (free b d)) as Hb
    by (apply wp_bread; [done|cbn; lia|done]).
  apply wp_Ret in Hb as (v & s & Hb & -> & ->).
  etransitivity; [apply (stm_bind_Ret (bread (bmap_blk d))); exact Hb|].
  etransitivity; [eapply stm_bind_Ret; unfold lift; rewrite Hr; reflexivity|].
  assert (wp (brelse (bmap_blk d)) (fun _ s => s = free b d) (free b (lock_buf (bmap_blk d) d))) as Hre
    by (by apply wp_release_block).
  apply wp_Ret in Hre as ([] & s & Hre & ->).
  etransitivity; [apply (stm_bind_Ret (brelse (bmap_blk d))); exact Hre|].
  etransitivity; [apply (stm_bind_Ret getd); reflexivity|]; cbn [l_data free].
  cbn [l_data]. rewrite decide_False; [done|]. unfold BPB, BSIZE, Bio.FSSIZE in *. cbn. lia.
Qed.

Lemma wp_bfree d x (Q : unit -> guarded fsst -> Prop) :
  fs_wf d -> bmap_blk d ∉ held_bufs d -> (0 <= x < sb_size (sb d))%Z -> allocated d x = true ->
  Q tt (free b (dealloc x d)) -> wp (bfree dev x) Q (free b d).
Proof.
  intros Hw Hbm Hx Ha HQ. pose proof (w_size _ Hw) as Hs. pose proof (w_bmap _ Hw) as Hb0.
  unfold bfree. apply wp_bind, wp_getd_free. destruct (wf_bblock d x Hw Hx) as [-> ->].
  change (dev, sb_bmapstart (sb d)) with (bmap_blk d).
  apply wp_bind, wp_bread; [done|cbn; lia|].
  destruct (rd_lt (dk d (bmap_blk d)) (Z.to_nat (x / 8))) as (v & Hv & Hrd);
    [rewrite (wf_bitmap_len _ Hw); unfold Bio.FSSIZE in *; Z.div_mod_to_equations; lia|].
  apply wp_bind. eapply wp_lift; [exact Hrd|]. rewrite decide_False.
  2:{ pose proof (Z.mod_pos_bound x 8 ltac:(lia)) as Hm. rewrite land_bit by lia. unfold allocated, is_set, byte_at in Ha.
      rewrite Hv in Ha. cbn in Ha. by rewrite Ha. }
  apply wp_write_block; [done|cbn; lia|exact HQ].
Qed.

(** ** The effect of allocation *)

Lemma alloc_dk_new x d : dk (alloc x d) (dev, x) = replicate 512 0%Z.
Proof. apply upd_blk_eq. Qed.
Lemma alloc_dk_other x d a : a <> (dev, x) -> a <> bmap_blk d -> dk (alloc x d) a = dk d a.
Proof. intros H1 H2. cbn. by rewrite !upd_blk_ne. Qed.
Lemma alloc_dk_bmap x d : fs_wf d -> is_free d x -> dk (alloc x d) (bmap_blk d) = set_bit x (dk d (bmap_blk d)).
Proof.
  intros Hw Hx. pose proof (free_data d x Hw Hx). cbn. rewrite upd_blk_ne by (unfold bmap_blk; intros [= ?]; lia).
  apply upd_blk_eq.
Qed.

Lemma free_bit d x : fs_wf d -> (0 <= x < sb_size (sb d))%Z -> (0 <= x < 4096)%Z.
Proof. intros Hw Hx. pose proof (w_size _ Hw) as Hs. unfold Bio.FSSIZE in Hs. lia. Qed.

Lemma alloc_allocated x y d :
  fs_wf d -> is_free d x -> (0 <= y)%Z -> allocated (alloc x d) y = if decide (y = x) then true else allocated d y.
Proof.
  intros Hw Hx Hy. unfold allocated at 1. change (bmap_blk (alloc x d)) with (bmap_blk d). rewrite alloc_dk_bmap by done.
  apply is_set_set; [by apply wf_bitmap_len|by apply (free_bit d), Hx|done].
Qed.

Lemma alloc_len x d y : fs_wf d -> is_free d x -> (0 <= y < sb_size (sb d))%Z -> length (dk (alloc x d) (dev, y)) = 512.
Proof.
  intros Hw Hx Hy. destruct (decide (y = x)) as [->|H1]; [by rewrite alloc_dk_new, length_replicate|].
  destruct (decide (y = sb_bmapstart (sb d))) as [->|H2].
  - change (dev, sb_bmapstart (sb d)) with (bmap_blk d). rewrite alloc_dk_bmap by done. unfold set_bit.
    rewrite length_alter. by apply wf_bitmap_len.
  - rewrite alloc_dk_other; [by apply Hw|by intros [= ->]|by intros [= ->]].
Qed.

Lemma alloc_wf x d : fs_wf d -> is_free d x -> fs_wf (alloc x d).
Proof.
  intros Hw Hx. constructor; [apply Hw|apply Hw|intros; by apply alloc_len| |apply Hw].
  intros y Hy. rewrite alloc_allocated by (done || lia). case_decide; [done|]. by apply Hw.
Qed.

Lemma dealloc_dk_other x d a : a <> bmap_blk d -> dk (dealloc x d) a = dk d a.
Proof. intros H. cbn. by rewrite upd_blk_ne. Qed.

Lemma dealloc_allocated x y d :
  fs_wf d -> (0 <= x < sb_size (sb d))%Z -> (0 <= y)%Z ->
  allocated (dealloc x d) y = if decide (y = x) then false else allocated d y.
Proof.
  intros Hw Hx Hy. unfold allocated at 1. change (bmap_blk (dealloc x d)) with (bmap_blk d). cbn. rewrite upd_blk_eq.
  apply is_set_clear; [by apply wf_bitmap_len|by apply (free_bit d)|done].
Qed.

Lemma dealloc_wf x d : fs_wf d -> (sb_bmapstart (sb d) < x < sb_size (sb d))%Z -> fs_wf (dealloc x d).
Proof.
  intros Hw Hx. pose proof (w_bmap _ Hw) as Hb. constructor; [apply Hw|apply Hw| | |apply Hw].
  - intros y Hy. destruct (decide (y = sb_bmapstart (sb d))) as [->|H2].
    + cbn. change (dev, sb_bmapstart (sb d)) with (bmap_blk d). rewrite upd_blk_eq. unfold clear_bit. rewrite length_alter.
      by apply wf_bitmap_len.
    + rewrite dealloc_dk_other; [by apply Hw|by intros [= ->]].
  - intros y Hy. cbn in Hy. rewrite dealloc_allocated by (done || lia). rewrite decide_False by lia. by apply Hw.
Qed.

(** The number of free blocks. *)
Definition free_list d : list Z := filter (fun x => allocated d x = false) (seqZ 0 (sb_size (sb d))).
Definition nfree d : nat := length (free_list d).

Lemma free_list_elem d x : x ∈ free_list d <-> is_free d x.
Proof. unfold free_list, is_free. rewrite list_elem_of_filter, elem_of_seqZ. split; [intros [H1 H2]|intros [H1 H2]]; split; done || lia. Qed.

Lemma nfree_alloc x d : fs_wf d -> is_free d x -> S (nfree (alloc x d)) = nfree d.
Proof.
  intros Hw Hx. unfold nfree, free_list. change (sb (alloc x d)) with (sb d). apply (filter_remove _ _ _ x); [apply NoDup_seqZ| |apply Hx|].
  - apply elem_of_seqZ. destruct Hx. lia.
  - intros y Hy%elem_of_seqZ. rewrite alloc_allocated by (done || lia). case_decide; naive_solver.
Qed.

Lemma nfree_pos d : 0 < nfree d -> exists x, is_free d x.
Proof.
  unfold nfree. intros H. destruct (free_list d) as [|x l] eqn:He; [cbn in H; lia|]. exists x. apply free_list_elem.
  rewrite He. by left.
Qed.

Lemma nfree_ext d d' :
  sb d' = sb d -> (forall x, (0 <= x < sb_size (sb d))%Z -> allocated d' x = allocated d x) -> nfree d' = nfree d.
Proof.
  intros Hs Ha. unfold nfree, free_list. rewrite Hs. f_equal. apply filter_iff_on.
  intros x Hx%elem_of_seqZ. rewrite Ha by lia. done.
Qed.
End Dev.
End FsBlocks.
