(* ===== verification/FsInode.v ===== *)
(** * The file system: the blocks of an inode

    The address map of an inode ([addr_of]), its well-formedness ([ino_wf]: its
    blocks are distinct, allocated data blocks), and the way operations on the
    inode change the disk ([step]); [bmap] is such a step. *)
From S2P Require Export FsBlocks.

Module FsInode.
Import Spin Locked Fs FsBase FsBlocks.

Section Ino.
Context (dev : Z) (i : nat).
Implicit Types (d : fsst) (ip : inode) (j k x y : Z).

Definition ind_of ip : Z := default 0%Z (i_addrs ip !! Z.to_nat NDIRECT).
(** The number of the [k]-th block of the inode, 0 if it has none. *)
Definition addr_of d ip k : Z :=
  if decide (k < NDIRECT)%Z then default 0%Z (i_addrs ip !! Z.to_nat k)
  else if decide (ind_of ip = 0)%Z then 0%Z
  else get_addr (k - NDIRECT) (dk d (dev, ind_of ip)).

Definition in_file k : Prop := (0 <= k < MAXFILE)%Z.
Definition owned d ip x : Prop := x <> 0%Z /\ (x = ind_of ip \/ exists k, in_file k /\ addr_of d ip k = x).

Record ino_wf d ip : Prop := {
  n_dev : i_dev ip = dev;
  n_len : length (i_addrs ip) = 13;
  n_own x : owned d ip x -> (sb_bmapstart (sb d) < x < sb_size (sb d))%Z /\ allocated dev d x = true;
  n_inj j k : in_file j -> in_file k -> addr_of d ip j <> 0%Z -> addr_of d ip j = addr_of d ip k -> j = k;
  n_ind k : in_file k -> ind_of ip <> 0%Z -> addr_of d ip k <> ind_of ip
}.

Lemma owned_ind d ip : ind_of ip <> 0%Z -> owned d ip (ind_of ip).
Proof. intros H. split; [done|by left]. Qed.
Lemma owned_addr d ip k : in_file k -> addr_of d ip k <> 0%Z -> owned d ip (addr_of d ip k).
Proof. intros Hk H. split; [done|right]. by exists k. Qed.

(** ** Changes to an inode *)

(** From [d] and [ip] to [d'] and [ip'], where only blocks [k] of the file with
    [K k] are added or written. *)
Record step (K : Z -> Prop) d ip d' ip' : Prop := {
  s_wf : fs_wf dev d';
  s_ino : ino_wf d' ip';
  s_sb : sb d' = sb d;
  s_held : held_bufs d' = held_bufs d;
  s_ip : ip' = set_addrs (i_addrs ip') ip;
  s_nodes : inodes d' = <[i:=ip']> (inodes d);
  s_keep j : in_file j -> addr_of d ip j <> 0%Z -> addr_of d' ip' j = addr_of d ip j;
  s_new j : in_file j -> addr_of d ip j = 0%Z -> addr_of d' ip' j <> 0%Z -> K j /\ is_free dev d (addr_of d' ip' j);
  s_ind : ind_of ip' = ind_of ip \/ (ind_of ip = 0%Z /\ is_free dev d (ind_of ip'));
  s_frame x : (0 <= x < sb_size (sb d))%Z -> allocated dev d x = true -> x <> sb_bmapstart (sb d) -> x <> ind_of ip ->
    (forall k, in_file k -> K k -> addr_of d ip k <> x) -> dk d' (dev, x) = dk d (dev, x);
  s_dev a : fst a <> dev -> dk d' a = dk d a;
  s_alloc x : (0 <= x)%Z -> allocated dev d x = true -> allocated dev d' x = true;
  s_logged a : a ∈ logged d' -> a ∈ logged d \/ a = bmap_blk dev d \/ (a = (dev, ind_of ip') /\ ind_of ip' <> 0%Z) \/
    exists k, in_file k /\ K k /\ addr_of d' ip' k <> 0%Z /\ a = (dev, addr_of d' ip' k)
}.

Lemma step_refl K d ip : fs_wf dev d -> ino_wf d ip -> inodes d !! i = Some ip -> step K d ip d ip.
Proof.
  intros Hw Hi Hn. constructor; try done; [by destruct ip|by rewrite list_insert_id|by left|by left].
Qed.

Lemma free_mono d d' x :
  sb d' = sb d -> (forall x, (0 <= x)%Z -> allocated dev d x = true -> allocated dev d' x = true) ->
  is_free dev d' x -> is_free dev d x.
Proof.
  intros Hs Ha [Hx Hf]. rewrite Hs in Hx. split; [done|]. destruct (allocated dev d x) eqn:E; [|done].
  rewrite Ha in Hf by (done || lia). done.
Qed.

Lemma free_not_allocated d x y : is_free dev d x -> allocated dev d y = true -> y <> x.
Proof. intros [_ Hf] Ha ->. congruence. Qed.

(** The block of [x] is not that of the new indirect block. *)
Lemma step_ind_frame K d ip d' ip' x :
  step K d ip d' ip' -> allocated dev d x = true -> x <> ind_of ip -> x <> ind_of ip'.
Proof.
  intros Hs Ha Hx. destruct (s_ind _ _ _ _ _ Hs) as [->|[_ Hf]]; [done|]. by eapply free_not_allocated.
Qed.

Lemma set_addrs_trans ip ip' ip'' a c : ip' = set_addrs a ip -> ip'' = set_addrs c ip' -> ip'' = set_addrs c ip.
Proof. by intros -> ->. Qed.

Lemma step_trans K1 K2 d ip d' ip' d'' ip'' :
  step K1 d ip d' ip' -> step K2 d' ip' d'' ip'' -> step (fun k => K1 k \/ K2 k) d ip d'' ip''.
Proof.
  intros H1 H2. pose proof (s_sb _ _ _ _ _ H1) as Hsb.
  assert (forall x, is_free dev d' x -> is_free dev d x) as Hfree by (intros x; eapply free_mono; apply H1).
  constructor.
  - apply H2.
  - apply H2.
  - rewrite (s_sb _ _ _ _ _ H2). apply H1.
  - rewrite (s_held _ _ _ _ _ H2). apply H1.
  - exact (set_addrs_trans _ _ _ _ _ (s_ip _ _ _ _ _ H1) (s_ip _ _ _ _ _ H2)).
  - rewrite (s_nodes _ _ _ _ _ H2), (s_nodes _ _ _ _ _ H1). apply list_insert_insert_eq.
  - intros j Hj Hn. pose proof (s_keep _ _ _ _ _ H1 j Hj Hn) as E. rewrite (s_keep _ _ _ _ _ H2 j Hj); congruence.
  - intros j Hj H0 Hn. destruct (decide (addr_of d' ip' j = 0%Z)) as [Hz|Hz].
    + destruct (s_new _ _ _ _ _ H2 j Hj Hz Hn) as [HK Hf]. split; [by right|by apply Hfree].
    + destruct (s_new _ _ _ _ _ H1 j Hj H0 Hz) as [HK Hf]. rewrite (s_keep _ _ _ _ _ H2 j Hj Hz). split; [by left|done].
  - destruct (s_ind _ _ _ _ _ H1) as [E1|[Z1 F1]], (s_ind _ _ _ _ _ H2) as [E2|[Z2 F2]].
    + left. congruence.
    + right. split; [congruence|by apply Hfree].
    + right. split; [done|]. by rewrite E2.
    + right. split; [done|by apply Hfree].
  - intros x Hx Ha Hb Hi HK. rewrite (s_frame _ _ _ _ _ H2).
    + apply (s_frame _ _ _ _ _ H1); [done|done|done|done|]. intros k Hk HKk. apply HK; [done|by left].
    + by rewrite Hsb.
    + apply (s_alloc _ _ _ _ _ H1); [lia|done].
    + by rewrite Hsb.
    + by eapply step_ind_frame.
    + intros k Hk HKk He. destruct (decide (addr_of d ip k = 0%Z)) as [Hz|Hz].
      * destruct (decide (x = 0%Z)) as [->|Hx0]; [by apply (HK k); [|right|]|].
        destruct (s_new _ _ _ _ _ H1 k Hk Hz) as [_ Hf]; [congruence|]. rewrite He in Hf. destruct Hf. congruence.
      * rewrite (s_keep _ _ _ _ _ H1 k Hk Hz) in He. by apply (HK k); [|right|].
  - intros a Ha. rewrite (s_dev _ _ _ _ _ H2) by done. by apply (s_dev _ _ _ _ _ H1).
  - intros x Hx Ha. apply (s_alloc _ _ _ _ _ H2); [done|]. by apply (s_alloc _ _ _ _ _ H1).
  - intros a Ha. destruct (s_logged _ _ _ _ _ H2 a Ha) as [Ha1|[->|[Hi|(k & Hk & HK & Hn & ->)]]].
    + destruct (s_logged _ _ _ _ _ H1 a Ha1) as [?|[?|[[-> Hi]|(k & Hk & HK & Hn & ->)]]]; [by left|by right; left| |].
      * right. right. left. destruct (s_ind _ _ _ _ _ H2) as [->|[? _]]; done.
      * right. right. right. exists k. rewrite (s_keep _ _ _ _ _ H2 k Hk Hn). split_and!; [done|by left|done|done].
    + right. left. unfold bmap_blk. by rewrite Hsb.
    + by right; right; left.
    + right. right. right. exists k. split_and!; [done|by right|done|done].
Qed.

(** A step does not depend on how its blocks are described. *)
Lemma step_weaken (K K' : Z -> Prop) d ip d' ip' : (forall k, K k -> K' k) -> step K d ip d' ip' -> step K' d ip d' ip'.
Proof.
  intros HK Hs. destruct Hs. constructor; try done.
  - intros j Hj H0 Hn. destruct (s_new0 j Hj H0 Hn). auto.
  - intros x Hx Ha Hb Hi Hk. apply s_frame0; auto.
  - intros a Ha. destruct (s_logged0 a Ha) as [?|[?|[?|(k & ? & ? & ? & ?)]]]; eauto 10.
Qed.

(** ** Adding a block *)

(** The free block [x] becomes the indirect block ([c = None]) or block [k] of
    the file ([c = Some k]). *)
Section Grow.
Context (c : option Z) (x : Z) (d : fsst) (ip : inode) (d' : fsst) (ip' : inode).
Context (Hw : fs_wf dev d) (Hino : ino_wf d ip) (Hx : is_free dev d x).
Context (Hw' : fs_wf dev d') (Hsb : sb d' = sb d).
Context (Hip : ip' = set_addrs (i_addrs ip') ip) (Hlen : length (i_addrs ip') = 13).
Context (Halloc : forall y, (0 <= y)%Z -> allocated dev d' y = if decide (y = x) then true else allocated dev d y).
Context (Haddr : forall j, in_file j -> addr_of d' ip' j = if decide (c = Some j) then x else addr_of d ip j).
Context (Hind : ind_of ip' = if decide (c = None) then x else ind_of ip).
Context (Hc : match c with None => ind_of ip = 0%Z | Some k => in_file k /\ addr_of d ip k = 0%Z end).

Lemma grow_x : (0 < x)%Z /\ (sb_bmapstart (sb d) < x < sb_size (sb d))%Z.
Proof. pose proof (free_data dev d x Hw Hx). pose proof (w_bmap _ _ Hw). lia. Qed.

Lemma grow_fresh y : owned d ip y -> y <> x.
Proof. intros Hy. destruct (n_own _ _ Hino y Hy) as [_ Ha]. destruct Hx as [_ Hf]. intros ->. congruence. Qed.

Lemma grow_owned y : owned d' ip' y -> y = x \/ owned d ip y.
Proof.
  intros [H0 [->|(k & Hk & <-)]].
  - rewrite Hind in *. case_decide; [by left|right; by split; [|left]].
  - rewrite Haddr in * by done. case_decide; [by left|right; by apply owned_addr].
Qed.

Lemma grow_ino : ino_wf d' ip'.
Proof.
  destruct grow_x as [Hx0 Hxr]. constructor.
  - rewrite Hip. apply Hino.
  - done.
  - intros y Hy. rewrite Hsb. destruct (grow_owned y Hy) as [->|Ho].
    + split; [done|]. rewrite Halloc by lia. by rewrite decide_True.
    + destruct (n_own _ _ Hino y Ho) as [Hr Ha]. split; [done|]. pose proof (w_bmap _ _ Hw). rewrite Halloc by lia.
      by destruct (decide (y = x)).
  - intros j k Hj Hk. rewrite !Haddr by done. destruct (decide (c = Some j)) as [Ej|Ej], (decide (c = Some k)) as [Ek|Ek].
    + congruence.
    + intros _ He. exfalso. eapply (grow_fresh x); [|done]. rewrite He. apply owned_addr; [done|lia].
    + intros Hn He. exfalso. eapply (grow_fresh x); [|done]. rewrite <- He. by apply owned_addr.
    + by apply (n_inj _ _ Hino).
  - intros k Hk. rewrite Hind, Haddr by done. destruct (decide (c = None)) as [En|En], (decide (c = Some k)) as [Ek|Ek].
    + congruence.
    + intros _ He. eapply (grow_fresh x); [|done]. rewrite <- He. apply owned_addr; [done|lia].
    + intros Hn He. eapply (grow_fresh x); [|done]. rewrite He. by apply owned_ind.
    + by apply (n_ind _ _ Hino).
Qed.

Lemma step_grow :
  held_bufs d' = held_bufs d -> inodes d' = <[i:=ip']> (inodes d) ->
  (forall a, a <> (dev, x) -> a <> bmap_blk dev d -> a <> (dev, ind_of ip) -> dk d' a = dk d a) ->
  (forall a, a ∈ logged d' -> a ∈ logged d \/ a = bmap_blk dev d \/ a = (dev, x) \/ (a = (dev, ind_of ip) /\ ind_of ip <> 0%Z)) ->
  step (fun k => c = Some k) d ip d' ip'.
Proof.
  intros Hheld Hnodes Hframe Hlog. destruct grow_x as [Hx0 Hxr]. constructor; try done.
  - apply grow_ino.
  - intros j Hj Hn. rewrite Haddr by done. destruct (decide (c = Some j)) as [Hcj|Hcj]; [|done]. rewrite Hcj in Hc. destruct Hc. congruence.
  - intros j Hj H0. rewrite Haddr by done. destruct (decide (c = Some j)) as [Hcj|Hcj]; [done|]. by rewrite H0.
  - rewrite Hind. destruct (decide (c = None)) as [Hcn|Hcn]; [right|by left]. rewrite Hcn in Hc. done.
  - intros y Hy Ha Hb Hi _. apply Hframe; [|by intros [= ->]|by intros [= ->]]. intros [= ->]. destruct Hx. congruence.
  - intros a Ha. apply Hframe; intros ->; done.
  - intros y Hy Ha. rewrite Halloc by done. by destruct (decide (y = x)).
  - intros a Ha. destruct (Hlog a Ha) as [?|[?|[->|[-> Hn]]]]; [by left|by right; left| |].
    + right. right. destruct c as [k|].
      * right. exists k. destruct Hc as [Hk _]. rewrite Haddr, decide_True by done. split_and!; [done|done|lia|done].
      * left. rewrite Hind, decide_True by done. split; [done|lia].
    + right. right. left. rewrite Hind. destruct (decide (c = None)) as [Hcn|Hcn]; [|done]. by rewrite Hcn in Hc.
Qed.
End Grow.

(** ** [bmap] *)

Definition setnode ip d : fsst := set_inodes (<[i:=ip]> (inodes d)) d.

Section Bmap.
Context (b : bool) (d : fsst) (ip : inode).
Context (Hw : fs_wf dev d) (Hino : ino_wf d ip) (Hnode : inodes d !! i = Some ip).

(** The state after [ip->addrs\[k\] = addr = balloc(dev)] gives [x]. *)
Definition slot_ip k x : inode := set_addrs (<[Z.to_nat k:=x]> (i_addrs ip)) ip.
Definition slot_st k x : fsst := setnode (slot_ip k x) (alloc dev x d).

Lemma slot_lookup k : (0 <= k <= NDIRECT)%Z -> exists a, i_addrs ip !! Z.to_nat k = Some a.
Proof. intros Hk. apply lookup_lt_is_Some_2. rewrite (n_len _ _ Hino). unfold NDIRECT in Hk. lia. Qed.

Lemma wp_addr_or_alloc k a (Q : Z -> guarded fsst -> Prop) :
  held_bufs d = ∅ -> i_addrs ip !! Z.to_nat k = Some a ->
  (a <> 0%Z -> Q a (free b d)) ->
  (a = 0%Z -> 0 < nfree dev d /\ forall x, is_free dev d x -> Q x (free b (slot_st k x))) ->
  wp (addr_or_alloc i k) Q (free b d).
Proof.
  intros Hh Hk HQ1 HQ2. unfold addr_or_alloc. apply wp_bind. eapply wp_rdi; [done|]. apply wp_bind.
  eapply wp_lift; [by apply rd_lookup|]. destruct (decide (a = 0%Z)) as [Ha|Ha]; [|by apply wp_ret, HQ1].
  destruct (HQ2 Ha) as [Hn HQ]. rewrite (n_dev _ _ Hino). apply wp_bind, wp_balloc; [done|rewrite Hh; set_solver..| |].
  - by apply nfree_pos.
  - intros x Hx _. apply wp_bind. eapply wp_updi; [exact Hnode|]. apply wp_ret, HQ, Hx.
Qed.

Lemma ind_owned : ind_of ip <> 0%Z -> (sb_bmapstart (sb d) < ind_of ip < sb_size (sb d))%Z /\ allocated dev d (ind_of ip) = true.
Proof. intros Hn. by apply Hino, owned_ind. Qed.

Lemma ind_kept x : is_free dev d x -> ind_of ip <> 0%Z -> dk (alloc dev x d) (dev, ind_of ip) = dk d (dev, ind_of ip).
Proof.
  intros Hx Hn. destruct (ind_owned Hn) as [Hr Ha]. destruct Hx as [_ Hf].
  apply alloc_dk_other; [intros [= He]; congruence|]. unfold bmap_blk. intros [= He]. lia.
Qed.

Lemma step_direct k x :
  (0 <= k < NDIRECT)%Z -> is_free dev d x -> addr_of d ip k = 0%Z ->
  step (fun j => Some k = Some j) d ip (slot_st k x) (slot_ip k x).
Proof.
  intros Hk Hx H0. assert (ind_of (slot_ip k x) = ind_of ip) as Hi.
  { unfold ind_of, slot_ip. cbn. unfold NDIRECT in *. by rewrite list_lookup_insert_ne by lia. }
  apply (step_grow (Some k) x); try done.
  - by apply (wf_ext _ (alloc dev x d)), alloc_wf.
  - cbn. rewrite length_insert. apply Hino.
  - intros y Hy. by apply alloc_allocated.
  - intros j Hj. unfold addr_of at 1. rewrite Hi. destruct (decide (Some k = Some j)) as [[= <-]|Hne].
    + rewrite decide_True by lia. cbn. by rewrite list_lookup_insert_eq by (rewrite (n_len _ _ Hino); unfold NDIRECT in *; lia).
    + unfold addr_of. case_decide as Hlt.
      * cbn. rewrite list_lookup_insert_ne; [done|]. unfold in_file in Hj. intros He. apply Hne. f_equal. lia.
      * case_decide as Hz; [done|]. by rewrite <- (ind_kept x Hx Hz).
  - split; [unfold in_file, MAXFILE, NINDIRECT, NDIRECT in *; lia|done].
  - intros a H1 H2 _. by apply alloc_dk_other.
  - intros a. cbn. set_solver.
Qed.

Lemma get_addr_zeros n : get_addr n (replicate 512 0%Z) = 0%Z.
Proof.
  unfold get_addr, get_u32, get_u16.
  assert (forall k : nat, byte_at (replicate 512 0%Z) k = 0%Z) as Hz.
  { intros k. unfold byte_at. destruct (replicate 512 0%Z !! k) as [v|] eqn:E; [|done].
    apply lookup_replicate in E as [-> _]. done. }
  by rewrite !Hz.
Qed.

Lemma step_indptr x :
  is_free dev d x -> ind_of ip = 0%Z ->
  step (fun j => None = Some j) d ip (slot_st NDIRECT x) (slot_ip NDIRECT x) /\
  ind_of (slot_ip NDIRECT x) = x /\ dk (slot_st NDIRECT x) (dev, x) = replicate 512 0%Z.
Proof.
  intros Hx H0. assert (ind_of (slot_ip NDIRECT x) = x) as Hi.
  { unfold ind_of, slot_ip. cbn. by rewrite list_lookup_insert_eq by (rewrite (n_len _ _ Hino); unfold NDIRECT; lia). }
  split; [|split; [done|apply alloc_dk_new]]. apply (step_grow None x); try done.
  - by apply (wf_ext _ (alloc dev x d)), alloc_wf.
  - cbn. rewrite length_insert. apply Hino.
  - intros y Hy. by apply alloc_allocated.
  - intros j Hj. unfold addr_of. rewrite Hi. case_decide as Hlt.
    + cbn. unfold in_file, NDIRECT in *. by rewrite list_lookup_insert_ne by lia.
    + rewrite (decide_True (P := ind_of ip = 0%Z)) by done. case_decide; [done|].
      change (dk (slot_st NDIRECT x)) with (dk (alloc dev x d)). rewrite alloc_dk_new. apply get_addr_zeros.
  - intros a H1 H2 _. by apply alloc_dk_other.
  - intros a. cbn. set_solver.
Qed.

(** The state after entry [k] of the indirect block is filled. *)
Definition indirect_st k x : fsst :=
  logged_write (dev, ind_of ip) (put_addr (k - NDIRECT) x (dk (alloc dev x d) (dev, ind_of ip))) (alloc dev x d).

Lemma step_indirect k x :
  (NDIRECT <= k < MAXFILE)%Z -> is_free dev d x -> ind_of ip <> 0%Z -> addr_of d ip k = 0%Z ->
  step (fun j => Some k = Some j) d ip (indirect_st k x) ip /\ dk (indirect_st k x) (dev, x) = replicate 512 0%Z /\
  addr_of (indirect_st k x) ip k = x.
Proof.
  intros Hk Hx Hn H0. destruct (ind_owned Hn) as [Hr Ha]. pose proof (free_data dev d x Hw Hx) as Hxr.
  assert (ind_of ip <> x) as Hne by (destruct Hx; intros <-; congruence).
  pose proof (alloc_wf dev x d Hw Hx) as Hwa. pose proof (w_bmap _ _ Hw) as Hbm.
  assert (dk (indirect_st k x) (dev, ind_of ip) = put_addr (k - NDIRECT) x (dk d (dev, ind_of ip))) as Hdk
    by (unfold indirect_st; rewrite logged_write_eq, ind_kept by done; reflexivity).
  assert (forall a, a <> (dev, ind_of ip) -> dk (indirect_st k x) a = dk (alloc dev x d) a) as Hoth
    by (intros a Ha'; by apply logged_write_ne).
  assert (length (dk d (dev, ind_of ip)) = 512) as Hl by (apply Hw; lia).
  assert (forall y, allocated dev (indirect_st k x) y = allocated dev (alloc dev x d) y) as Hal.
  { intros y. unfold allocated. change (bmap_blk dev (indirect_st k x)) with (bmap_blk dev (alloc dev x d)).
    rewrite Hoth; [done|]. unfold bmap_blk. intros [= He]. cbn in He. lia. }
  assert (is_uint x) as Hu by (pose proof (w_size _ _ Hw); unfold is_uint, Bio.FSSIZE in *; lia).
  assert (forall j, in_file j -> addr_of (indirect_st k x) ip j = if decide (Some k = Some j) then x else addr_of d ip j) as Haddr.
  { intros j Hj. unfold addr_of at 1. rewrite Hdk. unfold in_file, MAXFILE in *. destruct (decide (Some k = Some j)) as [[= <-]|Hkj].
    - rewrite !decide_False by (done || lia). apply get_put_addr; [done|done|lia].
    - unfold addr_of. destruct (decide (j < NDIRECT)%Z); [done|]. rewrite !(decide_False (P := ind_of ip = 0%Z)) by done.
      apply get_put_addr_ne; [done|lia|lia|]. intros He. apply Hkj. f_equal. lia. }
  assert (in_file k) as Hkf by (unfold in_file, NDIRECT in *; lia).
  split; [|split; [rewrite Hoth by (intros [= He]; done); apply alloc_dk_new|by rewrite Haddr, decide_True]].
  apply (step_grow (Some k) x); try done.
  - constructor; [apply Hwa|apply Hwa| | |apply Hwa].
    + intros y Hy. destruct (decide (y = ind_of ip)) as [->|Hyi].
      * rewrite Hdk. apply length_put_addr; [done|]. unfold MAXFILE in Hk. lia.
      * rewrite Hoth by (intros [= ?]; done). by apply Hwa.
    + intros y Hy. rewrite Hal. by apply Hwa.
  - by destruct ip.
  - apply Hino.
  - intros y Hy. rewrite Hal. by apply alloc_allocated.
  - cbn. by rewrite list_insert_id.
  - intros a H1 H2 H3. rewrite Hoth by done. by apply alloc_dk_other.
  - intros a Ha'. change (a ∈ {[(dev, ind_of ip)]} ∪ ({[(dev, x)]} ∪ ({[bmap_blk dev d]} ∪ logged d))) in Ha'.
    clear -Ha' Hn. set_solver.
Qed.

Record bmap_post k (addr : Z) (d' : fsst) (ip' : inode) : Prop := {
  m_step : step (fun j => j = k) d ip d' ip';
  m_addr : addr_of d' ip' k = addr /\ addr <> 0%Z;
  m_free : nfree dev d <= nfree dev d' + 2;
  m_old : addr_of d ip k <> 0%Z -> d' = d /\ ip' = ip;
  m_new : addr_of d ip k = 0%Z -> dk d' (dev, addr) = replicate 512 0%Z
}.

(** An address that is there. *)
Lemma bmap_post_old k : addr_of d ip k <> 0%Z -> bmap_post k (addr_of d ip k) d ip.
Proof. intros Hn. constructor; [by apply step_refl|done|lia|done|done]. Qed.

Lemma addr_direct k a : (k < NDIRECT)%Z -> i_addrs ip !! Z.to_nat k = Some a -> addr_of d ip k = a.
Proof. intros Hk Ha. unfold addr_of. rewrite decide_True by done. by rewrite Ha. Qed.

(** A direct block. *)
Lemma wp_bmap_direct k (Q : Z -> guarded fsst -> Prop) :
  (0 <= k < NDIRECT)%Z -> held_bufs d = ∅ -> (addr_of d ip k = 0%Z -> 0 < nfree dev d) ->
  (forall addr d' ip', bmap_post k addr d' ip' -> Q addr (free b d')) ->
  wp (addr_or_alloc i k) Q (free b d).
Proof.
  intros Hk Hh Hn HQ. destruct (slot_lookup k) as [a Ha]; [lia|]. pose proof (addr_direct k a ltac:(lia) Ha) as Hak.
  assert (in_file k) as Hf by (unfold in_file, MAXFILE, NDIRECT, NINDIRECT in *; lia).
  eapply wp_addr_or_alloc; [done|exact Ha| |].
  - intros Hz. apply (HQ a d ip). rewrite <- Hak. apply bmap_post_old. congruence.
  - intros ->. split; [by apply Hn|]. intros x Hx.
    pose proof (step_direct k x Hk Hx Hak) as Hs. eapply (HQ x (slot_st k x) (slot_ip k x)). constructor.
    + eapply step_weaken; [|exact Hs]. by intros j [= ->].
    + assert (addr_of (slot_st k x) (slot_ip k x) k = x) as ->.
      { unfold addr_of. rewrite decide_True by lia. cbn.
        by rewrite list_lookup_insert_eq by (rewrite (n_len _ _ Hino); unfold NDIRECT in *; lia). }
      pose proof (free_data dev d x Hw Hx). pose proof (w_bmap _ _ Hw). split; [done|lia].
    + pose proof (nfree_alloc dev x d Hw Hx) as Hnf.
      assert (nfree dev (slot_st k x) = nfree dev (alloc dev x d)) as -> by (by apply nfree_ext). lia.
    + congruence.
    + intros _. apply alloc_dk_new.
Qed.

(** A block of the indirect block [ind], which is there. *)
Lemma wp_bmap_indirect k ind (Q : Z -> guarded fsst -> Prop) :
  (NDIRECT <= k < MAXFILE)%Z -> held_bufs d = ∅ -> ind = ind_of ip -> ind_of ip <> 0%Z -> (addr_of d ip k = 0%Z -> 0 < nfree dev d) ->
  (forall addr d' ip', bmap_post k addr d' ip' -> nfree dev d <= nfree dev d' + 1 -> Q addr (free b d')) ->
  wp (ip ← rdi i;
      let a := (i_dev ip, ind) in
      v ← bread a;
      let addr := get_addr (k - NDIRECT) v in
      addr ←
        (if decide (addr = 0)%Z then
           addr ← balloc (i_dev ip); bmod a (put_addr (k - NDIRECT) addr) ;; log_write a ;; mret addr
         else mret addr);
      brelse a ;;
      mret addr) Q (free b d).
Proof.
  intros Hk Hh -> Hi Hn HQ. destruct (ind_owned Hi) as [Hr Ha]. pose proof (w_size _ _ Hw) as Hsz. pose proof (w_bmap _ _ Hw) as Hbm.
  assert (in_file k) as Hf by (unfold in_file, MAXFILE, NDIRECT, NINDIRECT in *; lia).
  assert (addr_of d ip k = get_addr (k - NDIRECT) (dk d (dev, ind_of ip))) as Hak.
  { unfold addr_of. rewrite !decide_False by (done || lia). done. }
  apply wp_bind. eapply wp_rdi; [exact Hnode|]. cbv zeta. rewrite (n_dev _ _ Hino).
  set (a := (dev, ind_of ip)) in *. apply wp_bind, wp_bread; [rewrite Hh; set_solver|cbn; lia|]. rewrite <- Hak. apply wp_bind.
  assert (a ∉ held_bufs d) as Hah by (rewrite Hh; set_solver).
  destruct (decide (addr_of d ip k = 0%Z)) as [Hz|Hz].
  2:{ apply wp_ret, wp_bind, wp_release_block; [done|]. apply wp_ret. eapply HQ; [by apply bmap_post_old|lia]. }
  set (dl := lock_buf a d).
  assert (fs_wf dev dl) as Hwl by (by apply (wf_ext dev d)).
  apply wp_bind, (wp_balloc dev b dl); [done| | |by apply nfree_pos, Hn|].
  - cbn. rewrite Hh. unfold bmap_blk. intros He. apply elem_of_union in He as [He|He]; [|set_solver].
    apply elem_of_singleton in He. injection He as He. cbn in He. lia.
  - intros x Hx He. apply elem_of_union in He as [He|He]; [|cbn in He; rewrite Hh in He; set_solver].
    apply elem_of_singleton in He. injection He as ->. destruct Hx as [_ Hx]. change (allocated dev dl (ind_of ip)) with (allocated dev d (ind_of ip)) in Hx. congruence.
  - intros x Hx _. change (is_free dev d x) in Hx. apply wp_bind, wp_bmod, wp_bind, wp_log_write, wp_ret, wp_bind.
    apply wp_brelse; [exact (lock_buf_in a d)|]. apply wp_ret.
    destruct (step_indirect k x Hk Hx Hi Hz) as (Hs & Hnew & Haddr).
    match goal with |- Q x (free b ?s) => replace s with (indirect_st k x) end.
    2:{ apply fsst_ext; [reflexivity|symmetry; exact (held_release a d Hah)|reflexivity..]. }
    pose proof (nfree_alloc dev x d Hw Hx) as Hnf.
    assert (nfree dev (indirect_st k x) = nfree dev (alloc dev x d)) as Hnf2.
    { apply nfree_ext; [done|]. intros y Hy. unfold allocated, indirect_st.
      rewrite logged_write_ne; [done|]. unfold bmap_blk. intros [= He]. cbn in He. lia. }
    eapply HQ; [|lia]. constructor; [|split|lia|congruence|done].
    + eapply step_weaken; [|exact Hs]. by intros j [= ->].
    + exact Haddr.
    + pose proof (free_data dev d x Hw Hx). lia.
Qed.
End Bmap.

(** [bmap] gives the address of block [k], adding the block and the indirect
    block when they are missing. *)
Lemma wp_bmap b d ip k (Q : Z -> guarded fsst -> Prop) :
  fs_wf dev d -> ino_wf d ip -> inodes d !! i = Some ip -> in_file k -> held_bufs d = ∅ ->
  (addr_of d ip k = 0%Z -> 2 <= nfree dev d) ->
  (forall addr d' ip', bmap_post d ip k addr d' ip' -> Q addr (free b d')) ->
  wp (bmap i k) Q (free b d).
Proof.
  intros Hw Hino Hnode Hk Hh Hn HQ. unfold bmap. destruct (decide (k < NDIRECT)%Z) as [Hlt|Hge].
  { eapply wp_bmap_direct; eauto; [unfold in_file in Hk; lia|]. intros H0. specialize (Hn H0). lia. }
  assert (NDIRECT <= k < MAXFILE)%Z as Hkr by (unfold in_file in Hk; lia).
  rewrite decide_True by (unfold MAXFILE in Hkr; lia). cbv zeta. apply wp_bind.
  destruct (slot_lookup d ip Hino NDIRECT) as [a Ha]; [unfold NDIRECT; lia|].
  assert (ind_of ip = a) as Hia by (unfold ind_of; by rewrite Ha).
  eapply wp_addr_or_alloc; [done..|exact Ha| |].
  - intros Hz. eapply wp_bmap_indirect; [done..|congruence| |].
    + intros H0. specialize (Hn H0). lia.
    + intros addr d' ip' Hp _. by eapply HQ.
  - intros ->. assert (addr_of d ip k = 0%Z) as H0.
    { unfold addr_of. rewrite decide_False by lia. by rewrite decide_True. }
    specialize (Hn H0). split; [lia|]. intros x Hx.
    destruct (step_indptr d ip Hw Hino Hnode x Hx Hia) as (Hs & Hi & Hz).
    pose proof (nfree_alloc dev x d Hw Hx) as Hnf.
    assert (nfree dev (slot_st d ip NDIRECT x) = nfree dev (alloc dev x d)) as Hnf2 by (by apply nfree_ext).
    pose proof (free_data dev d x Hw Hx). pose proof (w_bmap _ _ Hw).
    eapply (wp_bmap_indirect b (slot_st d ip NDIRECT x) (slot_ip ip NDIRECT x));
      [apply Hs|apply Hs| |done|by rewrite (s_held _ _ _ _ _ Hs)|done|rewrite Hi; lia|lia|].
    + cbn. apply list_lookup_insert_eq. by eapply lookup_lt_Some.
    + intros addr d' ip' [Hs' [Haddr Hne] Hf' Hold Hnew] Hf1. eapply (HQ addr d' ip').
      assert (addr_of (slot_st d ip NDIRECT x) (slot_ip ip NDIRECT x) k = 0%Z) as H0'.
      { unfold addr_of. rewrite decide_False by lia. rewrite Hi, decide_False by lia. rewrite Hz. apply get_addr_zeros. }
      constructor.
      * eapply step_weaken; [|eapply step_trans; [exact Hs|exact Hs']]. by intros j [[=]| ->].
      * done.
      * lia.
      * congruence.
      * intros _. by apply Hnew.
Qed.
End Ino.
End FsInode.
