(* ===== verification/FsFile.v ===== *)
(** * The file system: the contents of a file

    The bytes of an inode ([fbyte]), and the specifications of [readi] and
    [writei] against them. *)
From S2P Require Export FsInode.

Module FsFile.
Import Spin Locked Fs FsBase FsBlocks FsInode.

Section File.
Context (dev : Z) (i : nat).
Implicit Types (d : fsst) (ip : inode) (j k x : Z).

(** Byte [x] of the file. *)
Definition fbyte d ip x : Z := byte_at (dk d (dev, addr_of dev d ip (x / BSIZE))) (Z.to_nat (x mod BSIZE)).
(** The [n] bytes from [off] on. *)
Definition fbytes d ip (off n : Z) : list Z := (fun k => fbyte d ip (off + k)) <$> seqZ 0 n.
(** The file has all the blocks of its first [n] bytes. *)
Definition no_holes d ip (n : Z) : Prop := forall k, (0 <= k)%Z -> (k * BSIZE < n)%Z -> addr_of dev d ip k <> 0%Z.

Lemma fbytes_app d ip off n m :
  (0 <= n)%Z -> (0 <= m)%Z -> fbytes d ip off (n + m) = fbytes d ip off n ++ fbytes d ip (off + n) m.
Proof.
  intros Hn Hm. unfold fbytes. rewrite seqZ_app, fmap_app by done. f_equal.
  rewrite <- (Z.add_0_r (0 + n)), <- fmap_add_seqZ, <- list_fmap_compose. apply list_fmap_ext. intros _ k _. cbn. f_equal. lia.
Qed.

Lemma length_fbytes d ip off n : length (fbytes d ip off n) = Z.to_nat n.
Proof. unfold fbytes. by rewrite length_fmap, length_seqZ. Qed.

(** [off] and [off + k] are in the same block. *)
Lemma same_block off k :
  (0 <= off)%Z -> (0 <= k < BSIZE - off mod BSIZE)%Z ->
  ((off + k) / BSIZE = off / BSIZE /\ (off + k) mod BSIZE = off mod BSIZE + k)%Z.
Proof. unfold BSIZE. intros Ho Hk. Z.div_mod_to_equations. lia. Qed.

Lemma sublist_bytes (l : list Z) o m :
  o + m <= length l -> take m (drop o l) = (fun k => byte_at l (o + Z.to_nat k)) <$> seqZ 0 (Z.of_nat m).
Proof.
  intros Hl. apply list_eq. intros k. rewrite list_lookup_fmap. destruct (decide (k < m)) as [Hk|Hk].
  - rewrite lookup_take_lt, lookup_drop by done. rewrite lookup_seqZ_lt by lia.
    destruct (lookup_lt_is_Some_2 l (o + k)) as [v Hv]; [lia|]. rewrite Hv. cbn [fmap option_fmap option_map]. unfold byte_at.
    replace (o + Z.to_nat (0 + Z.of_nat k)) with (o + k) by lia. by rewrite Hv.
  - rewrite lookup_take_ge by lia. rewrite lookup_seqZ_ge by lia. done.
Qed.

(** Part of a block, as bytes of the file. *)
Lemma chunk_bytes d ip off m :
  (0 <= off)%Z -> (0 <= m <= BSIZE - off mod BSIZE)%Z -> length (dk d (dev, addr_of dev d ip (off / BSIZE))) = 512 ->
  take (Z.to_nat m) (drop (Z.to_nat (off mod BSIZE)) (dk d (dev, addr_of dev d ip (off / BSIZE)))) = fbytes d ip off m.
Proof.
  intros Ho Hm Hl. pose proof (Z.mod_pos_bound off BSIZE ltac:(unfold BSIZE; lia)) as Hb. unfold BSIZE in Hm, Hb.
  rewrite sublist_bytes by (rewrite Hl; unfold BSIZE; lia). unfold fbytes. rewrite Z2Nat.id by lia.
  apply list_fmap_ext. intros _ k Hk%list_elem_of_lookup_2%elem_of_seqZ.
  unfold fbyte. destruct (same_block off k Ho) as [-> ->]; [unfold BSIZE; lia|]. f_equal. unfold BSIZE. lia.
Qed.

(** ** [readi] *)

Section Read.
Context (b : bool) (d : fsst) (ip : inode).
Context (Hw : fs_wf dev d) (Hino : ino_wf dev d ip) (Hnode : inodes d !! i = Some ip) (Hheld : held_bufs d = ∅).

Lemma addr_block k : in_file k -> addr_of dev d ip k <> 0%Z ->
  (sb_bmapstart (sb d) < addr_of dev d ip k < sb_size (sb d))%Z /\ length (dk d (dev, addr_of dev d ip k)) = 512.
Proof.
  intros Hk Hn. destruct (n_own _ _ _ Hino _ (owned_addr _ _ _ _ Hk Hn)) as [Hr _]. pose proof (w_bmap _ _ Hw).
  split; [done|]. apply Hw. lia.
Qed.

Lemma wp_readi_loop fuel : forall off tot n dst (Q : list Z -> guarded fsst -> Prop),
  (0 <= off)%Z -> (off + (n - tot) <= MAXFILE * BSIZE)%Z -> no_holes d ip (off + (n - tot)) -> (n - tot <= Z.of_nat fuel)%Z ->
  Q (dst ++ fbytes d ip off (n - tot)) (free b d) ->
  wp (readi_loop fuel i off tot n dst) Q (free b d).
Proof.
  induction fuel as [|fuel IH]; intros off tot n dst Q Ho Hmax Hnh Hf HQ; cbn [readi_loop].
  - rewrite decide_False by lia. apply wp_ret. unfold fbytes in HQ. by rewrite seqZ_nil, app_nil_r in HQ by lia.
  - case_decide as Hlt.
    2:{ apply wp_ret. unfold fbytes in HQ. by rewrite seqZ_nil, app_nil_r in HQ by lia. }
    assert (0 <= off mod BSIZE < BSIZE)%Z as Hb by (apply Z.mod_pos_bound; unfold BSIZE; lia).
    assert (in_file (off / BSIZE)) as Hk.
    { unfold in_file. split; [apply Z.div_pos; unfold BSIZE; lia|]. apply Z.div_lt_upper_bound; unfold BSIZE in *; lia. }
    assert (addr_of dev d ip (off / BSIZE) <> 0%Z) as Hn.
    { apply Hnh; [apply Hk|]. pose proof (Z.div_mod off BSIZE). unfold BSIZE in *. lia. }
    destruct (addr_block _ Hk Hn) as [Hr Hl]. pose proof (w_size _ _ Hw) as Hsz.
    apply wp_bind. eapply wp_rdi; [done|]. apply wp_bind. eapply (wp_bmap dev i); [done..| |].
    { intros H0. congruence. }
    intros addr d' ip' [_ [Ha _] _ Hold _]. destruct (Hold Hn) as [-> ->]. subst addr.
    apply wp_bind. rewrite (n_dev _ _ _ Hino). apply wp_bread; [rewrite Hheld; set_solver|cbn; lia|].
    apply wp_bind, wp_release_block; [rewrite Hheld; set_solver|].
    set (m := Z.min (n - tot) (BSIZE - off mod BSIZE)).
    rewrite chunk_bytes; [|done|unfold m; lia|done].
    apply IH; [unfold m; lia|unfold m; lia| |unfold m, BSIZE in *; lia|].
    + replace (off + m + (n - (tot + m)))%Z with (off + (n - tot))%Z by lia. done.
    + rewrite <- app_assoc, <- fbytes_app by (unfold m; lia).
      by replace (m + (n - (tot + m)))%Z with (n - tot)%Z by lia.
Qed.
End Read.

(** An inode in memory with the blocks of its contents. *)
Record file_ok d ip : Prop := {
  f_wf : fs_wf dev d;
  f_ino : ino_wf dev d ip;
  f_node : inodes d !! i = Some ip;
  f_held : held_bufs d = ∅;
  f_size : (0 <= i_size ip <= MAXFILE * BSIZE)%Z;
  f_nh : no_holes d ip (i_size ip);
  f_type : i_type ip <> T_DEV
}.

Lemma wp_readi devread b d ip off n (Q : Z * list Z -> guarded fsst -> Prop) :
  file_ok d ip -> (0 <= off <= i_size ip)%Z -> (0 <= n)%Z -> (off + n < 2 ^ 32)%Z ->
  (let m := Z.min n (i_size ip - off) in Q (m, fbytes d ip off m) (free b d)) ->
  wp (readi devread i off n) Q (free b d).
Proof.
  intros [Hw Hino Hnode Hh Hs Hnh Ht] Ho Hn Hov HQ. unfold readi. apply wp_bind. eapply wp_rdi; [done|].
  rewrite decide_False by done. rewrite !uint32_id by (unfold MAXFILE, NDIRECT, NINDIRECT, BSIZE in *; lia).
  rewrite decide_False by lia.
  set (m := if decide (i_size ip < off + n)%Z then _ else _).
  assert (m = Z.min n (i_size ip - off)) as Hm by (unfold m; case_decide; lia). rewrite Hm. cbv zeta in HQ.
  apply wp_bind. eapply wp_readi_loop; [done..|lia|lia| |lia|].
  - intros k Hk Hkn. apply Hnh; lia.
  - rewrite Z.sub_0_r. by apply wp_ret.
Qed.

(** ** [writei] *)

(** Bytes outside of the changed blocks. *)
Lemma fbyte_frame K d ip d' ip' x :
  fs_wf dev d -> ino_wf dev d ip -> step dev i K d ip d' ip' -> in_file (x / BSIZE) ->
  addr_of dev d ip (x / BSIZE) <> 0%Z -> ~ K (x / BSIZE)%Z -> fbyte d' ip' x = fbyte d ip x.
Proof.
  intros Hw Hino Hs Hj Hn HK. unfold fbyte. rewrite (s_keep _ _ _ _ _ _ _ Hs _ Hj Hn). f_equal.
  destruct (n_own _ _ _ Hino _ (owned_addr _ _ _ _ Hj Hn)) as [Hr Ha]. pose proof (w_bmap _ _ Hw).
  apply (s_frame _ _ _ _ _ _ _ Hs); [lia|done|lia| |].
  - destruct (decide (ind_of ip = 0%Z)) as [->|Hi]; [done|]. by apply (n_ind _ _ _ Hino).
  - intros k Hk HKk He. assert (x / BSIZE = k)%Z as E by (apply (n_inj _ _ _ Hino); congruence). subst k. done.
Qed.

(** Writing a block that is there. *)
Lemma step_store d ip k v :
  fs_wf dev d -> ino_wf dev d ip -> inodes d !! i = Some ip -> in_file k -> addr_of dev d ip k <> 0%Z -> length v = 512 ->
  let d' := logged_write (dev, addr_of dev d ip k) v d in
  step dev i (fun j => j = k) d ip d' ip /\ (forall j, in_file j -> addr_of dev d' ip j = addr_of dev d ip j) /\
  nfree dev d' = nfree dev d.
Proof.
  intros Hw Hino Hnode Hk Hn Hv d'. set (a := addr_of dev d ip k) in *.
  destruct (n_own _ _ _ Hino _ (owned_addr _ _ _ _ Hk Hn)) as [Hr Ha]. fold a in Hr, Ha. pose proof (w_bmap _ _ Hw) as Hbm.
  assert (bmap_blk dev d <> (dev, a)) as Hb by (unfold bmap_blk; intros [= ?]; lia).
  assert (forall y, allocated dev d' y = allocated dev d y) as Hal.
  { intros y. unfold allocated. change (bmap_blk dev d') with (bmap_blk dev d). unfold d'. by rewrite logged_write_ne. }
  assert (forall j, in_file j -> addr_of dev d' ip j = addr_of dev d ip j) as Haddr.
  { intros j Hj. unfold addr_of. case_decide; [done|]. case_decide as Hi; [done|]. unfold d'. rewrite logged_write_ne; [done|].
    intros [= He]. by apply (n_ind _ _ _ Hino k Hk Hi). }
  assert (fs_wf dev d') as Hw'.
  { constructor; [apply Hw|apply Hw| | |apply Hw].
    - intros y Hy. unfold d'. destruct (decide (y = a)) as [->|]; [by rewrite logged_write_eq|].
      rewrite logged_write_ne by (intros [= ?]; done). by apply Hw.
    - intros y Hy. rewrite Hal. by apply Hw. }
  split; [|split; [done|by apply nfree_ext]]. constructor; try done.
  - constructor; [apply Hino|apply Hino| | |].
    + intros y Hy. rewrite Hal. apply Hino. destruct Hy as [H0 [->|(j & Hj & <-)]]; [by split; [|left]|].
      rewrite Haddr in * by done. by apply owned_addr.
    + intros j l Hj Hl. rewrite !Haddr by done. by apply Hino.
    + intros j Hj. rewrite Haddr by done. by apply Hino.
  - by destruct ip.
  - cbn. by rewrite list_insert_id.
  - intros j Hj _. by apply Haddr.
  - intros j Hj H0 Hn'. by rewrite Haddr in Hn'.
  - by left.
  - intros y Hy Hay Hyb Hyi HK. unfold d'. rewrite logged_write_ne; [done|]. intros [= ->]. by apply (HK k).
  - intros a' Ha'. unfold d'. rewrite logged_write_ne; [done|]. by intros ->.
  - intros y Hy Hay. by rewrite Hal.
  - intros a' Ha'. change (a' ∈ {[(dev, a)]} ∪ logged d) in Ha'. apply elem_of_union in Ha' as [Ha'|Ha']; [|by left].
    apply elem_of_singleton in Ha' as ->. right. right. right. exists k. rewrite Haddr by done. done.
Qed.

(** The blocks of the [r] bytes from [off] on, and their number. *)
Definition touched (off r : Z) : Z -> Prop := fun k => (off / BSIZE <= k)%Z /\ (k * BSIZE < off + r)%Z.
Definition nblocks (off r : Z) : Z := ((off + r + (BSIZE - 1)) / BSIZE - off / BSIZE)%Z.

(** The bytes of [src] have been written at [off]. *)
Record written (off r : Z) (src : list Z) d ip d' ip' : Prop := {
  wr_step : step dev i (touched off r) d ip d' ip';
  wr_new x : (off <= x < off + r)%Z -> fbyte d' ip' x = byte_at src (Z.to_nat (x - off));
  wr_old x : (0 <= x < MAXFILE * BSIZE)%Z -> addr_of dev d ip (x / BSIZE) <> 0%Z -> ~ (off <= x < off + r)%Z ->
    fbyte d' ip' x = fbyte d ip x;
  wr_has k : (off / BSIZE <= k)%Z -> (k * BSIZE < off + r)%Z -> addr_of dev d' ip' k <> 0%Z;
  wr_free : (Z.of_nat (nfree dev d) <= Z.of_nat (nfree dev d') + 2 * nblocks off r)%Z;
  wr_same : (forall k, touched off r k -> addr_of dev d ip k <> 0%Z) -> ip' = ip
}.

Lemma block_in_file x : (0 <= x < MAXFILE * BSIZE)%Z -> in_file (x / BSIZE).
Proof.
  intros Hx. unfold in_file. split; [apply Z.div_pos; unfold BSIZE; lia|]. apply Z.div_lt_upper_bound; unfold BSIZE in *; lia.
Qed.

Lemma byte_at_take (l : list Z) (n k : nat) : k < n -> byte_at (take n l) k = byte_at l k.
Proof. intros Hk. unfold byte_at. by rewrite lookup_take_lt. Qed.
Lemma byte_at_drop (l : list Z) (n k : nat) : byte_at (drop n l) k = byte_at l (n + k).
Proof. unfold byte_at. by rewrite lookup_drop. Qed.

(** One round of the loop. *)
Lemma written_chunk off m src d ip d1 ip1 a :
  fs_wf dev d -> ino_wf dev d ip -> inodes d !! i = Some ip ->
  (0 <= off)%Z -> (0 < m <= BSIZE - off mod BSIZE)%Z -> (off + m <= MAXFILE * BSIZE)%Z -> (m <= Z.of_nat (length src))%Z ->
  bmap_post dev i d ip (off / BSIZE) a d1 ip1 ->
  written off m src d ip
    (logged_write (dev, a) (splice (Z.to_nat (off mod BSIZE)) (take (Z.to_nat m) src) (dk d1 (dev, a))) d1) ip1.
Proof.
  intros Hw Hino Hnode Ho Hm Hmax Hlen [Hs [Ha Hne] Hf Hold Hnew].
  assert (0 <= off mod BSIZE < BSIZE)%Z as Hb by (apply Z.mod_pos_bound; unfold BSIZE; lia).
  assert (in_file (off / BSIZE)) as Hk by (apply block_in_file; lia).
  set (o := Z.to_nat (off mod BSIZE)). set (v := splice o (take (Z.to_nat m) src) (dk d1 (dev, a))).
  pose proof (s_wf _ _ _ _ _ _ _ Hs) as Hw1. pose proof (s_ino _ _ _ _ _ _ _ Hs) as Hino1.
  rewrite <- Ha in Hne.
  destruct (addr_block d1 ip1 Hw1 Hino1 _ Hk Hne) as [Hr Hl]. rewrite Ha in Hl.
  assert (o + length (take (Z.to_nat m) src) <= length (dk d1 (dev, a))) as Hol
    by (rewrite length_take, Hl; unfold o, BSIZE in *; lia).
  assert (length v = 512) as Hv by (unfold v; rewrite length_splice; done).
  assert (inodes d1 !! i = Some ip1) as Hnode1
    by (rewrite (s_nodes _ _ _ _ _ _ _ Hs); apply list_lookup_insert_eq; by eapply lookup_lt_Some).
  destruct (step_store d1 ip1 (off / BSIZE) v Hw1 Hino1 Hnode1 Hk Hne Hv) as (Hs2 & Haddr2 & Hnf). rewrite Ha in Hs2, Haddr2, Hnf.
  set (d2 := logged_write (dev, a) v d1) in *.
  pose proof (step_trans _ _ _ _ _ _ _ _ _ _ Hs Hs2) as Hs12.
  assert (forall x, (x / BSIZE = off / BSIZE)%Z -> fbyte d2 ip1 x = byte_at v (Z.to_nat (x mod BSIZE))) as Hin.
  { intros x Hx. unfold fbyte. rewrite Hx, Haddr2, Ha by done. unfold d2. by rewrite logged_write_eq. }
  constructor.
  - eapply step_weaken; [|exact Hs12]. intros k [-> | ->]; (split; [lia|]);
      pose proof (Z.div_mod off BSIZE); unfold BSIZE in *; lia.
  - intros x Hx. destruct (same_block off (x - off) Ho) as [E1 E2]; [lia|]. replace (off + (x - off))%Z with x in E1, E2 by lia.
    rewrite Hin by done. unfold v. rewrite byte_at_splice by done. rewrite decide_True by (rewrite length_take; unfold o; lia).
    rewrite byte_at_take by (unfold o; lia). f_equal. unfold o. lia.
  - intros x Hx Hx0 Hnx. destruct (decide (x / BSIZE = off / BSIZE)%Z) as [E|E].
    + rewrite E in Hx0. destruct (Hold Hx0) as [-> ->]. rewrite Hin by done. unfold v. rewrite byte_at_splice by done.
      assert (x mod BSIZE = x - off + off mod BSIZE)%Z as Em by (pose proof (Z.div_mod off BSIZE); pose proof (Z.div_mod x BSIZE); unfold BSIZE in *; lia).
      pose proof (Z.mod_pos_bound x BSIZE ltac:(unfold BSIZE; lia)) as Hxb.
      rewrite decide_False by (rewrite length_take; unfold o; lia). unfold fbyte. rewrite E. by rewrite Ha.
    + eapply fbyte_frame; [exact Hw|exact Hino|exact Hs12|by apply block_in_file|done|]. intros [?|?]; done.
  - intros k Hk1 Hk2. assert (k = off / BSIZE)%Z as -> by (pose proof (Z.div_mod off BSIZE); unfold BSIZE in *; lia).
    by rewrite Haddr2.
  - rewrite Hnf. assert (1 <= nblocks off m)%Z; [|lia]. unfold nblocks.
    assert (off / BSIZE + 1 <= (off + m + (BSIZE - 1)) / BSIZE)%Z; [|lia].
    apply Z.div_le_lower_bound; [unfold BSIZE; lia|]. pose proof (Z.div_mod off BSIZE). unfold BSIZE in *. lia.
  - intros HK. apply Hold, HK. split; [lia|]. pose proof (Z.div_mod off BSIZE). unfold BSIZE in *. lia.
Qed.

Lemma nblocks_split off m r :
  ((off + m) mod BSIZE = 0)%Z -> (nblocks off (m + r) = nblocks off m + nblocks (off + m) r)%Z.
Proof.
  intros Hal. assert ((off + m) / BSIZE * BSIZE = off + m)%Z as Hdiv by (pose proof (Z.div_mod (off + m) BSIZE); unfold BSIZE in *; lia).
  unfold nblocks. assert ((off + m + (BSIZE - 1)) / BSIZE = (off + m) / BSIZE)%Z as ->.
  { symmetry. apply (Z.div_unique_pos _ _ _ (BSIZE - 1)); unfold BSIZE in *; lia. }
  replace (off + (m + r) + (BSIZE - 1))%Z with (off + m + r + (BSIZE - 1))%Z by lia. lia.
Qed.

(** Rounds compose: the first ends at the end of a block. *)
Lemma written_trans off m r src d ip d1 ip1 d2 ip2 :
  (0 <= off)%Z -> (0 < m)%Z -> (0 <= r)%Z -> (off + m + r <= MAXFILE * BSIZE)%Z -> ((off + m) mod BSIZE = 0)%Z ->
  written off m src d ip d1 ip1 -> written (off + m) r (drop (Z.to_nat m) src) d1 ip1 d2 ip2 ->
  written off (m + r) src d ip d2 ip2.
Proof.
  intros Ho Hm Hr Hmax Hal [S1 N1 O1 H1 F1 E1] [S2 N2 O2 H2 F2 E2].
  assert ((off + m) / BSIZE * BSIZE = off + m)%Z as Hdiv by (pose proof (Z.div_mod (off + m) BSIZE); unfold BSIZE in *; lia).
  assert (off / BSIZE <= (off + m) / BSIZE)%Z as Hle by (apply Z.div_le_mono; unfold BSIZE; lia).
  constructor.
  - eapply step_weaken; [|eapply step_trans; [exact S1|exact S2]]. intros k [[? ?]|[? ?]]; split; lia.
  - intros x Hx. destruct (decide (x < off + m)%Z) as [Hlt|Hge].
    + rewrite O2; [by apply N1; lia|lia| |lia]. apply H1; [apply Z.div_le_mono; unfold BSIZE; lia|].
      pose proof (Z.div_mod x BSIZE). pose proof (Z.mod_pos_bound x BSIZE). unfold BSIZE in *. lia.
    + rewrite N2 by lia. rewrite byte_at_drop. f_equal. lia.
  - intros x Hx Hx0 Hnx. rewrite O2; [by apply O1; lia|done| |lia].
    rewrite (s_keep _ _ _ _ _ _ _ S1); [done|by apply block_in_file|done].
  - intros k Hk1 Hk2. destruct (decide (k * BSIZE < off + m)%Z) as [Hlt|Hge].
    + assert (in_file k) as Hkf by (unfold in_file; pose proof (Z.div_pos off BSIZE); unfold BSIZE in *; lia).
      rewrite (s_keep _ _ _ _ _ _ _ S2); [by apply H1|done|by apply H1].
    + apply H2; [|lia]. unfold BSIZE in *. lia.
  - rewrite nblocks_split by done. lia.
  - intros HK. assert (ip1 = ip) as -> by (apply E1; intros k [? ?]; apply HK; split; lia).
    apply E2. intros k [Hk1 Hk2]. assert (in_file k) as Hkf by (unfold in_file; pose proof (Z.div_pos off BSIZE); unfold BSIZE in *; lia).
    assert (addr_of dev d ip k <> 0%Z) as Hk0 by (apply HK; split; lia). by rewrite (s_keep _ _ _ _ _ _ _ S1).
Qed.

(** The inode of a state that has been written. *)
Lemma written_node off r src d ip d' ip' : inodes d !! i = Some ip -> written off r src d ip d' ip' -> inodes d' !! i = Some ip'.
Proof. intros Hn [S _ _ _ _ _]. rewrite (s_nodes _ _ _ _ _ _ _ S). apply list_lookup_insert_eq. by eapply lookup_lt_Some. Qed.

Lemma wp_writei_loop b fuel : forall off tot n src d ip (Q : Z -> guarded fsst -> Prop),
  fs_wf dev d -> ino_wf dev d ip -> inodes d !! i = Some ip -> held_bufs d = ∅ ->
  (0 <= off)%Z -> (tot < n)%Z -> (off + (n - tot) <= MAXFILE * BSIZE)%Z -> (n - tot <= Z.of_nat fuel)%Z ->
  Z.of_nat (length src) = (n - tot)%Z -> (2 * nblocks off (n - tot) <= Z.of_nat (nfree dev d))%Z ->
  (forall d' ip', written off (n - tot) src d ip d' ip' -> Q (off + (n - tot))%Z (free b d')) ->
  wp (writei_loop fuel i src off tot n) Q (free b d).
Proof.
  induction fuel as [|fuel IH]; intros off tot n src d ip Q Hw Hino Hnode Hh Ho Hlt Hmax Hf Hlen Hfree HQ; [lia|].
  cbn [writei_loop]. rewrite decide_True by done.
  assert (0 <= off mod BSIZE < BSIZE)%Z as Hb by (apply Z.mod_pos_bound; unfold BSIZE; lia).
  assert (in_file (off / BSIZE)) as Hk by (apply block_in_file; lia).
  set (m := Z.min (n - tot) (BSIZE - off mod BSIZE)).
  assert (0 < m <= BSIZE - off mod BSIZE)%Z as Hm by (unfold m; lia).
  assert (1 <= nblocks off (n - tot))%Z as Hnb.
  { unfold nblocks. assert (off / BSIZE + 1 <= (off + (n - tot) + (BSIZE - 1)) / BSIZE)%Z; [|lia].
    apply Z.div_le_lower_bound; [unfold BSIZE; lia|]. pose proof (Z.div_mod off BSIZE). unfold BSIZE in *. lia. }
  apply wp_bind. eapply wp_rdi; [done|]. apply wp_bind. eapply (wp_bmap dev i); [done..|intros _; lia|].
  intros a d1 ip1 Hpost. pose proof (m_step _ _ _ _ _ _ _ _ Hpost) as Hs. cbv zeta.
  rewrite (n_dev _ _ _ Hino).
  assert (held_bufs d1 = ∅) as Hh1 by (by rewrite (s_held _ _ _ _ _ _ _ Hs)).
  destruct (m_addr _ _ _ _ _ _ _ _ Hpost) as [Ha Hne]. pose proof (s_wf _ _ _ _ _ _ _ Hs) as Hw1.
  assert (sb_bmapstart (sb d1) < a < sb_size (sb d1))%Z as Hr.
  { rewrite <- Ha. apply addr_block; [done|apply Hs|done|congruence]. }
  pose proof (w_size _ _ Hw1) as Hsz.
  assert ((dev, a) ∉ held_bufs d1) as Hah by (rewrite Hh1; set_solver).
  apply wp_bind, wp_bread; [done|cbn; lia|].
  apply wp_bind, wp_bmod, wp_bind, wp_log_write, wp_bind, wp_brelse; [exact (lock_buf_in _ d1)|].
  match goal with |- wp _ _ (free b ?s) =>
    replace s with (logged_write (dev, a) (splice (Z.to_nat (off mod BSIZE)) (take (Z.to_nat m) src) (dk d1 (dev, a))) d1) end.
  2:{ apply fsst_ext; [reflexivity|symmetry; exact (held_release (dev, a) d1 Hah)|reflexivity..]. }
  set (d2 := logged_write (dev, a) _ d1).
  assert (written off m src d ip d2 ip1) as Hwr by (apply written_chunk; try done; unfold m; lia).
  pose proof (wr_step _ _ _ _ _ _ _ Hwr) as Hs2.
  destruct (decide (n - tot = m)%Z) as [Em|Em].
  - destruct fuel as [|fuel]; cbn [writei_loop]; rewrite decide_False by lia; apply wp_ret;
      replace (off + m)%Z with (off + (n - tot))%Z by lia; eapply HQ; by rewrite Em.
  - assert (m = BSIZE - off mod BSIZE)%Z as Em' by (unfold m in *; lia).
    assert ((off + m) mod BSIZE = 0)%Z as Hal.
    { rewrite Em'. replace (off + (BSIZE - off mod BSIZE))%Z with ((off / BSIZE + 1) * BSIZE)%Z
        by (pose proof (Z.div_mod off BSIZE); unfold BSIZE in *; lia). apply Z.mod_mul. unfold BSIZE. lia. }
    assert (nblocks off (n - tot) = nblocks off m + nblocks (off + m) (n - (tot + m)))%Z as Hnbs.
    { rewrite <- nblocks_split by done. f_equal. lia. }
    pose proof (wr_free _ _ _ _ _ _ _ Hwr) as Hnf.
    eapply (IH (off + m)%Z (tot + m)%Z n (drop (Z.to_nat m) src) d2 ip1);
      [apply Hs2|apply Hs2|by eapply written_node|by rewrite (s_held _ _ _ _ _ _ _ Hs2)|lia|lia|lia|unfold BSIZE in *; lia
      |rewrite length_drop; lia|lia|].
    intros d' ip' Hrest. replace (off + m + (n - (tot + m)))%Z with (off + (n - tot))%Z by lia. eapply HQ.
    replace (n - tot)%Z with (m + (n - (tot + m)))%Z by lia. eapply written_trans; try done; lia.
Qed.
End File.
End FsFile.
