(* ===== verification/FsWrite.v ===== *)
(** * The file system: updating inodes

    [iupdate], and [writei] as a whole: the contents it leaves, the inode on
    the disk, what it does not touch, and the blocks it logs. *)
From S2P Require Export FsFile.

Module FsWrite.
Import Spin Locked Fs FsBase FsBlocks FsInode FsFile.

Section Write.
Context (dev : Z) (i : nat).
Implicit Types (d : fsst) (ip : inode) (j k x : Z).

Definition iblk d ip : Z * Z := (dev, IBLOCK (i_inum ip) (sb d)).
Definition islot ip : nat := Z.to_nat (i_inum ip mod IPB).
Definition inum_ok d ip : Prop := (0 <= i_inum ip < sb_ninodes (sb d))%Z.
(** The inode on the disk is the one in memory. *)
Definition on_disk d ip : Prop := get_dinode (islot ip) (dk d (iblk d ip)) = to_dinode ip.

Lemma islot_lt ip : islot ip < 8.
Proof. unfold islot, IPB. pose proof (Z.mod_pos_bound (i_inum ip) 8). lia. Qed.

(** The inode blocks are before the bitmap. *)
Lemma iblk_meta d ip : fs_wf dev d -> inum_ok d ip -> (0 < snd (iblk d ip) < sb_bmapstart (sb d))%Z.
Proof. intros Hw Hn. by apply (w_iblock _ _ Hw). Qed.

(** ** Writing a block before the bitmap *)

Section Meta.
Context (d : fsst) (x : Z) (v : block).
Context (Hw : fs_wf dev d) (Hx : (0 <= x < sb_bmapstart (sb d))%Z) (Hv : length v = 512).
Let d' := logged_write (dev, x) v d.

Lemma meta_dk y : (sb_bmapstart (sb d) <= y)%Z -> dk d' (dev, y) = dk d (dev, y).
Proof using Hx. clear Hw Hv. intros Hy. apply logged_write_ne. intros [= ?]. lia. Qed.

Lemma meta_allocated y : allocated dev d' y = allocated dev d y.
Proof using Hx. clear Hw Hv. unfold allocated. change (bmap_blk dev d') with (bmap_blk dev d). unfold bmap_blk. by rewrite meta_dk by lia. Qed.

Lemma meta_wf : fs_wf dev d'.
Proof.
  constructor; [apply Hw|apply Hw| | |apply Hw].
  - intros y Hy. destruct (decide (y = x)) as [->|]; unfold d'; [by rewrite logged_write_eq|].
    rewrite logged_write_ne by (intros [= ?]; done). by apply Hw.
  - intros y Hy. rewrite meta_allocated. by apply Hw.
Qed.

Lemma meta_addr ip k : ino_wf dev d ip -> addr_of dev d' ip k = addr_of dev d ip k.
Proof using Hx. clear Hw Hv.
  intros Hino. unfold addr_of. case_decide; [done|]. case_decide as Hi; [done|]. rewrite meta_dk; [done|].
  destruct (n_own _ _ _ Hino _ (owned_ind dev d ip Hi)) as [? _]. lia.
Qed.

Lemma meta_ino ip : ino_wf dev d ip -> ino_wf dev d' ip.
Proof using Hx. clear Hw Hv.
  intros Hino. constructor; [apply Hino|apply Hino| | |].
  - intros y [H0 Hy]. rewrite meta_allocated. apply (n_own _ _ _ Hino). split; [done|].
    destruct Hy as [->|(k & Hk & <-)]; [by left|right]. exists k. by rewrite meta_addr.
  - intros j k Hj Hk. rewrite !meta_addr by done. by apply Hino.
  - intros k Hk. rewrite meta_addr by done. by apply Hino.
Qed.

Lemma meta_fbyte ip z :
  ino_wf dev d ip -> in_file (z / BSIZE) -> addr_of dev d ip (z / BSIZE) <> 0%Z -> fbyte dev d' ip z = fbyte dev d ip z.
Proof using Hx. clear Hw Hv.
  intros Hino Hz Hn. unfold fbyte. rewrite meta_addr by done. rewrite meta_dk; [done|].
  destruct (n_own _ _ _ Hino _ (owned_addr _ _ _ _ Hz Hn)) as [? _]. lia.
Qed.

Lemma meta_nfree : nfree dev d' = nfree dev d.
Proof using Hx. clear Hw Hv. apply nfree_ext; [done|]. intros. apply meta_allocated. Qed.
End Meta.

(** ** [iupdate] *)

Definition iupdated ip d : fsst := logged_write (iblk d ip) (put_dinode (islot ip) (to_dinode ip) (dk d (iblk d ip))) d.

Lemma wp_iupdate b d ip (Q : unit -> guarded fsst -> Prop) :
  fs_wf dev d -> inodes d !! i = Some ip -> i_dev ip = dev -> inum_ok d ip -> iblk d ip ∉ held_bufs d ->
  Q tt (free b (iupdated ip d)) -> wp (iupdate i) Q (free b d).
Proof.
  intros Hw Hnode Hdev Hinum Hh HQ. pose proof (iblk_meta d ip Hw Hinum) as Hm. pose proof (w_size _ _ Hw). pose proof (w_bmap _ _ Hw).
  unfold iupdate. apply wp_bind. eapply wp_rdi; [exact Hnode|]. apply wp_bind, wp_getd_free. rewrite Hdev.
  fold (iblk d ip). apply wp_bind, wp_bread; [done|lia|]. apply wp_write_block; [done|lia|exact HQ].
Qed.

Lemma iupdated_block ip d : length (i_addrs ip) = 13 -> fs_wf dev d -> inum_ok d ip ->
  length (put_dinode (islot ip) (to_dinode ip) (dk d (iblk d ip))) = 512.
Proof.
  intros Hl Hw Hn. pose proof (iblk_meta d ip Hw Hn). pose proof (w_bmap _ _ Hw). apply length_put_dinode; [done| |apply islot_lt].
  apply Hw. cbn in *. lia.
Qed.

(** Reading back what [iupdate] wrote, and the other inodes. *)
Lemma iupdated_on_disk ip d : dinode_ok (to_dinode ip) -> fs_wf dev d -> inum_ok d ip -> on_disk (iupdated ip d) ip.
Proof.
  intros Hd Hw Hn. pose proof (iblk_meta d ip Hw Hn). pose proof (w_bmap _ _ Hw). unfold on_disk, iupdated.
  change (iblk (logged_write _ _ d) ip) with (iblk d ip). rewrite logged_write_eq.
  apply get_put_dinode; [done| |apply islot_lt]. apply Hw. cbn in *. lia.
Qed.

(** Inode [inum] of the disk. *)
Definition disk_inode d (inum : Z) : dinode := get_dinode (Z.to_nat (inum mod IPB)) (dk d (dev, IBLOCK inum (sb d))).

Lemma iupdated_other ip d inum :
  length (i_addrs ip) = 13 -> fs_wf dev d -> inum_ok d ip -> (0 <= inum)%Z -> inum <> i_inum ip ->
  disk_inode (iupdated ip d) inum = disk_inode d inum.
Proof.
  intros Hl Hw Hn Hi Hne. pose proof (iblk_meta d ip Hw Hn). pose proof (w_bmap _ _ Hw). unfold disk_inode, iupdated.
  change (sb (logged_write _ _ d)) with (sb d). unfold iblk at 1. unfold inum_ok in Hn.
  destruct (decide (IBLOCK inum (sb d) = IBLOCK (i_inum ip) (sb d))) as [E|E].
  - rewrite E. fold (iblk d ip). rewrite logged_write_eq. apply get_put_dinode_ne; [done|apply Hw; cbn in *; lia| |apply islot_lt].
    unfold islot, IBLOCK, IPB in *. intros E2. apply Hne. Z.div_mod_to_equations. lia.
  - rewrite logged_write_ne; [done|]. by intros [= ?].
Qed.

(** ** [writei] *)

(** An inode with its contents that is written through. *)
Record inode_ok d ip : Prop := {
  o_file : file_ok dev i d ip;
  o_inum : inum_ok d ip;
  o_enc : dinode_ok (to_dinode ip);
  o_disk : on_disk d ip
}.

Record writei_post (off n : Z) (src : list Z) d ip d' ip' : Prop := {
  p_ok : inode_ok d' ip';
  p_size : i_size ip' = Z.max (i_size ip) (off + n);
  p_ip : ip' = set_size (i_size ip') (set_addrs (i_addrs ip') ip);
  p_bytes x : (0 <= x < i_size ip')%Z ->
    fbyte dev d' ip' x = if decide (off <= x < off + n)%Z then byte_at src (Z.to_nat (x - off)) else fbyte dev d ip x;
  p_frame x : (sb_bmapstart (sb d) < x < sb_size (sb d))%Z -> allocated dev d x = true -> ~ owned dev d ip x ->
    dk d' (dev, x) = dk d (dev, x);
  p_alloc x : (0 <= x)%Z -> allocated dev d x = true -> allocated dev d' x = true;
  p_inodes inum : (0 <= inum < sb_ninodes (sb d))%Z -> inum <> i_inum ip -> disk_inode d' inum = disk_inode d inum;
  p_nodes : inodes d' = <[i:=ip']> (inodes d);
  p_logged a : a ∈ logged d' -> a ∈ logged d \/ a = bmap_blk dev d \/ a = (dev, ind_of ip') \/ a = iblk d ip \/
    exists k, touched off n k /\ a = (dev, addr_of dev d' ip' k);
  p_free : (Z.of_nat (nfree dev d) <= Z.of_nat (nfree dev d') + 2 * nblocks off n)%Z;
  p_sb : sb d' = sb d
}.

(** A step leaves the blocks alone that are not the inode's. *)
Lemma step_frame K d ip d' ip' x :
  fs_wf dev d -> step dev i K d ip d' ip' -> (0 < x < sb_size (sb d))%Z -> x <> sb_bmapstart (sb d) ->
  allocated dev d x = true -> ~ owned dev d ip x -> dk d' (dev, x) = dk d (dev, x).
Proof.
  intros Hw Hs Hx Hb Ha Ho. apply (s_frame _ _ _ _ _ _ _ Hs); [lia|done|done| |].
  - intros ->. apply Ho. by apply owned_ind; lia.
  - intros k Hk _ E. apply Ho. rewrite <- E. apply owned_addr; [done|lia].
Qed.

Lemma meta_not_owned d ip x : ino_wf dev d ip -> (x <= sb_bmapstart (sb d))%Z -> ~ owned dev d ip x.
Proof. intros Hino Hx Ho. destruct (n_own _ _ _ Hino x Ho) as [? _]. lia. Qed.

Lemma step_meta K d ip d' ip' x :
  fs_wf dev d -> ino_wf dev d ip -> step dev i K d ip d' ip' -> (0 < x < sb_bmapstart (sb d))%Z -> dk d' (dev, x) = dk d (dev, x).
Proof.
  intros Hw Hino Hs Hx. pose proof (w_bmap _ _ Hw).
  eapply step_frame; [done|done|lia|lia|apply Hw; lia|]. apply meta_not_owned; [done|lia].
Qed.

(** The size of an inode does not matter to its blocks. *)
Lemma ino_wf_size d ip z : ino_wf dev d ip -> ino_wf dev d (set_size z ip).
Proof. intros [? ? ? ? ?]. constructor; done. Qed.

Lemma node_wf d ip : fs_wf dev d -> fs_wf dev (setnode i ip d).
Proof. by apply wf_ext. Qed.
Lemma node_ino d ip ip' : ino_wf dev d ip -> ino_wf dev (setnode i ip' d) ip.
Proof. intros [? ? ? ? ?]. constructor; done. Qed.

Section Cases.
Context (off n : Z) (src : list Z) (d : fsst) (ip : inode).
Context (Hok : inode_ok d ip) (Hoff : (0 <= off <= i_size ip)%Z) (Hn : (0 < n)%Z) (Hmax : (off + n <= MAXFILE * BSIZE)%Z).
Context (d' : fsst) (ip' : inode) (Hwr : written dev i off n src d ip d' ip').

Let Hf := o_file _ _ Hok.
Let Hs := wr_step _ _ _ _ _ _ _ _ _ Hwr.

Lemma write_inum inum : (0 <= inum < sb_ninodes (sb d))%Z -> disk_inode d' inum = disk_inode d inum.
Proof.
  intros Hi. unfold disk_inode. rewrite (s_sb _ _ _ _ _ _ _ Hs). f_equal.
  eapply step_meta; [apply Hf|apply Hf|exact Hs|]. by apply (w_iblock _ _ (f_wf _ _ _ _ Hf)).
Qed.

Lemma write_frame x :
  (sb_bmapstart (sb d) < x < sb_size (sb d))%Z -> allocated dev d x = true -> ~ owned dev d ip x -> dk d' (dev, x) = dk d (dev, x).
Proof.
  intros Hx Ha Ho. pose proof (w_bmap _ _ (f_wf _ _ _ _ Hf)). eapply step_frame; [apply Hf|exact Hs|lia|lia|done|done].
Qed.

Lemma write_bytes x :
  (0 <= x < Z.max (i_size ip) (off + n))%Z ->
  fbyte dev d' ip' x = if decide (off <= x < off + n)%Z then byte_at src (Z.to_nat (x - off)) else fbyte dev d ip x.
Proof.
  intros Hx. pose proof (f_size _ _ _ _ Hf) as Hsz. case_decide as Hin; [by apply (wr_new _ _ _ _ _ _ _ _ _ Hwr)|].
  apply (wr_old _ _ _ _ _ _ _ _ _ Hwr); [lia| |done].
  apply (f_nh _ _ _ _ Hf); [apply Z.div_pos; unfold BSIZE; lia|].
  pose proof (Z.div_mod x BSIZE). pose proof (Z.mod_pos_bound x BSIZE). unfold BSIZE in *. lia.
Qed.

Lemma write_no_holes : no_holes dev d' ip' (Z.max (i_size ip) (off + n)).
Proof.
  intros k Hk Hkn. pose proof (f_size _ _ _ _ Hf) as Hsz. destruct (decide (k * BSIZE < i_size ip)%Z) as [Hlt|Hge].
  - assert (addr_of dev d ip k <> 0%Z) as Hk0 by (apply (f_nh _ _ _ _ Hf); done).
    rewrite (s_keep _ _ _ _ _ _ _ Hs); [done|unfold in_file, MAXFILE, BSIZE in *; lia|done].
  - apply (wr_has _ _ _ _ _ _ _ _ _ Hwr); [|lia]. pose proof (Z.div_mod off BSIZE). pose proof (Z.mod_pos_bound off BSIZE).
    unfold BSIZE in *. lia.
Qed.

Lemma write_node : inodes d' !! i = Some ip'.
Proof. eapply written_node; [apply Hf|exact Hwr]. Qed.

Lemma write_logged a :
  a ∈ logged d' -> a ∈ logged d \/ a = bmap_blk dev d \/ a = (dev, ind_of ip') \/ exists k, touched off n k /\ a = (dev, addr_of dev d' ip' k).
Proof.
  intros Ha. destruct (s_logged _ _ _ _ _ _ _ Hs a Ha) as [?|[?|[[? _]|(k & _ & HK & _ & ?)]]]; eauto 6.
Qed.

(** The file does not grow: the inode stays as it is. *)
Lemma writei_post_same : (off + n <= i_size ip)%Z -> writei_post off n src d ip d' ip'.
Proof.
  intros Hle. assert (ip' = ip) as E.
  { apply (wr_same _ _ _ _ _ _ _ _ _ Hwr). intros k [Hk1 Hk2]. apply (f_nh _ _ _ _ Hf); [|lia].
    pose proof (Z.div_pos off BSIZE). unfold BSIZE in *. lia. }
  pose proof write_bytes as Hb. pose proof write_no_holes as Hnh. pose proof write_node as Hnd. pose proof write_logged as Hlg.
  rewrite (Z.max_l (i_size ip)) in Hb, Hnh by lia.
  pose proof Hs as Hs1. rewrite E in Hb, Hnh, Hnd, Hlg, Hs1 |- *.
  constructor.
  - constructor.
    + constructor; [apply Hs1|apply Hs1|done|rewrite (s_held _ _ _ _ _ _ _ Hs1); apply Hf|apply Hf|done|apply Hf].
    + unfold inum_ok. rewrite (s_sb _ _ _ _ _ _ _ Hs1). apply Hok.
    + apply Hok.
    + unfold on_disk. change (disk_inode d' (i_inum ip) = to_dinode ip).
      rewrite write_inum by apply Hok. apply Hok.
  - lia.
  - by destruct ip.
  - exact Hb.
  - apply write_frame.
  - apply (s_alloc _ _ _ _ _ _ _ Hs1).
  - intros inum Hi _. by apply write_inum.
  - apply (s_nodes _ _ _ _ _ _ _ Hs1).
  - intros a Ha. destruct (Hlg a Ha) as [?|[?|[?|?]]]; eauto 6.
  - apply (wr_free _ _ _ _ _ _ _ _ _ Hwr).
  - apply (s_sb _ _ _ _ _ _ _ Hs1).
Qed.

(** The file grows: the size is set and the inode written. *)
Let ip2 := set_size (off + n) ip'.
Let d1 := setnode i ip2 d'.
Let d2 := iupdated ip2 d1.

Lemma grow_wf : fs_wf dev d1 /\ ino_wf dev d1 ip2.
Proof.
  split; [apply node_wf, Hs|]. apply node_ino, ino_wf_size, Hs.
Qed.

Lemma grow_inum : i_inum ip2 = i_inum ip /\ inum_ok d1 ip2.
Proof.
  assert (i_inum ip2 = i_inum ip) as E by (cbn; by rewrite (s_ip _ _ _ _ _ _ _ Hs)). split; [done|].
  unfold inum_ok. rewrite E. change (sb d1) with (sb d'). rewrite (s_sb _ _ _ _ _ _ _ Hs). apply Hok.
Qed.

Lemma addrs_uint d0 ip0 : fs_wf dev d0 -> ino_wf dev d0 ip0 -> Forall is_uint (i_addrs ip0).
Proof.
  intros Hw Hino. pose proof (w_size _ _ Hw) as Hsz. pose proof (w_bmap _ _ Hw) as Hbm. unfold Bio.FSSIZE in Hsz.
  apply Forall_forall. intros a [k Hk]%list_elem_of_lookup_1. unfold is_uint.
  destruct (decide (a = 0%Z)) as [->|Ha]; [lia|].
  assert (k < 13) as Hk13 by (rewrite <- (n_len _ _ _ Hino); by eapply lookup_lt_Some).
  assert (owned dev d0 ip0 a) as Ho; [|destruct (n_own _ _ _ Hino a Ho); lia].
  split; [done|]. destruct (decide (k = 12)) as [->|Hne].
  - left. unfold ind_of. change (Z.to_nat NDIRECT) with 12. by rewrite Hk.
  - right. exists (Z.of_nat k). split; [unfold in_file, MAXFILE, NDIRECT, NINDIRECT; lia|].
    unfold addr_of. rewrite decide_True by (unfold NDIRECT; lia). by rewrite Nat2Z.id, Hk.
Qed.

Lemma grow_enc : dinode_ok (to_dinode ip2).
Proof.
  destruct (o_enc _ _ Hok) as [Hsh _ _ _]. unfold ip2. rewrite (s_ip _ _ _ _ _ _ _ Hs). constructor.
  - exact Hsh.
  - unfold is_uint, MAXFILE, NDIRECT, NINDIRECT, BSIZE in *. cbn. lia.
  - apply (n_len _ _ _ (s_ino _ _ _ _ _ _ _ Hs)).
  - apply (addrs_uint d' ip'); apply Hs.
Qed.

Lemma writei_post_grow : (i_size ip < off + n)%Z -> writei_post off n src d ip d2 ip2.
Proof.
  intros Hgt. destruct grow_wf as [Hw1 Hi1]. destruct grow_inum as [Ei Hin1]. pose proof grow_enc as He2.
  assert (length (i_addrs ip2) = 13) as Hl2 by apply Hi1.
  pose proof (iblk_meta d1 ip2 Hw1 Hin1) as Hm. pose proof (iupdated_block ip2 d1 Hl2 Hw1 Hin1) as Hlen.
  assert (0 <= IBLOCK (i_inum ip2) (sb d1) < sb_bmapstart (sb d1))%Z as Hm' by (cbn in *; lia).
  assert (sb d1 = sb d) as Hsb by apply (s_sb _ _ _ _ _ _ _ Hs).
  pose proof (meta_wf d1 _ _ Hw1 Hm' Hlen) as Hw2. assert (ino_wf dev d2 ip2) as Hi2 by (by apply (meta_ino d1 _ _ Hm')).
  assert (forall k, addr_of dev d2 ip2 k = addr_of dev d' ip' k) as Haddr by (intros k; by apply (meta_addr d1 _ _ Hm' ip2)).
  pose proof write_bytes as Hb. pose proof write_no_holes as Hnh.
  assert (i_size ip2 = Z.max (i_size ip) (off + n)) as Hsize by (cbn; lia).
  constructor.
  - constructor.
    + constructor; [exact Hw2|exact Hi2|..].
      * cbn. apply list_lookup_insert_eq. eapply lookup_lt_Some, write_node.
      * change (held_bufs d2) with (held_bufs d'). rewrite (s_held _ _ _ _ _ _ _ Hs). apply Hf.
      * rewrite Hsize. pose proof (f_size _ _ _ _ Hf). lia.
      * rewrite Hsize. intros k Hk Hkn. rewrite Haddr. by apply Hnh.
      * cbn. rewrite (s_ip _ _ _ _ _ _ _ Hs). apply Hf.
    + exact Hin1.
    + done.
    + by apply iupdated_on_disk.
  - done.
  - cbn. unfold ip2. by rewrite (s_ip _ _ _ _ _ _ _ Hs) at 1.
  - intros x Hx. rewrite Hsize in Hx. rewrite <- Hb by lia. unfold d2, iupdated, iblk.
    rewrite meta_fbyte; [done|done|done|apply block_in_file; pose proof (f_size _ _ _ _ Hf); lia|].
    apply Hnh; [apply Z.div_pos; unfold BSIZE; lia|].
    pose proof (Z.div_mod x BSIZE). pose proof (Z.mod_pos_bound x BSIZE). unfold BSIZE in *. lia.
  - intros x Hx Ha Ho. rewrite <- (write_frame x Hx Ha Ho). unfold d2, iupdated, iblk.
    rewrite meta_dk; [done|exact Hm'|rewrite Hsb; lia].
  - intros x Hx Ha. unfold d2, iupdated, iblk. rewrite meta_allocated by exact Hm'. by apply (s_alloc _ _ _ _ _ _ _ Hs).
  - intros inum Hi Hne. unfold d2. rewrite iupdated_other; [|done..|lia|congruence]. by rewrite <- write_inum.
  - cbn. rewrite (s_nodes _ _ _ _ _ _ _ Hs). apply list_insert_insert_eq.
  - intros a Ha. change (a ∈ {[iblk d1 ip2]} ∪ logged d') in Ha. apply elem_of_union in Ha as [Ha|Ha].
    + apply elem_of_singleton in Ha as ->. right. right. right. left. unfold iblk. by rewrite Hsb, Ei.
    + destruct (write_logged a Ha) as [?|[?|[?|(k & Hk & ->)]]]; [by left|by right; left|by right; right; left|].
      right. right. right. right. exists k. by rewrite Haddr.
  - unfold d2, iupdated, iblk. rewrite meta_nfree by exact Hm'. apply (wr_free _ _ _ _ _ _ _ _ _ Hwr).
  - exact Hsb.
Qed.
End Cases.

Lemma writei_post_none off src d ip : inode_ok d ip -> (0 <= off <= i_size ip)%Z -> writei_post off 0 src d ip d ip.
Proof.
  intros Hok Hoff. constructor; try done.
  - lia.
  - by destruct ip.
  - intros x Hx. by rewrite decide_False by lia.
  - by rewrite list_insert_id by apply Hok.
  - by left.
  - assert (0 <= nblocks off 0)%Z; [|lia]. unfold nblocks.
    assert (off / BSIZE <= (off + 0 + (BSIZE - 1)) / BSIZE)%Z; [|lia]. apply Z.div_le_mono; unfold BSIZE; lia.
Qed.

Lemma wp_writei devwrite b d ip off n src (Q : Z -> guarded fsst -> Prop) :
  inode_ok d ip -> (0 <= off <= i_size ip)%Z -> (0 <= n)%Z -> (off + n <= MAXFILE * BSIZE)%Z ->
  Z.of_nat (length src) = n -> (2 * nblocks off n <= Z.of_nat (nfree dev d))%Z ->
  (forall d' ip', writei_post off n src d ip d' ip' -> Q n (free b d')) ->
  wp (writei devwrite i src off n) Q (free b d).
Proof.
  intros Hok Hoff Hn Hmax Hlen Hfree HQ. pose proof (o_file _ _ Hok) as Hf.
  unfold writei. apply wp_bind. eapply wp_rdi; [apply Hf|]. rewrite decide_False by apply Hf.
  rewrite !uint32_id by (unfold MAXFILE, NDIRECT, NINDIRECT, BSIZE in *; lia). rewrite !decide_False by lia.
  destruct (decide (n = 0)%Z) as [->|Hn0].
  - apply wp_bind. apply wp_ret. apply wp_bind. eapply wp_rdi; [apply Hf|].
    rewrite decide_False by lia. apply wp_bind, wp_ret, wp_ret, (HQ d ip). by apply writei_post_none.
  - apply wp_bind. eapply (wp_writei_loop dev i b); [apply Hf|apply Hf|apply Hf|apply Hf|lia|lia| | | |by rewrite Z.sub_0_r|].
    1-3: lia.
    rewrite Z.sub_0_r. intros d' ip' Hwr. apply wp_bind. eapply wp_rdi; [eapply write_node; [exact Hok|exact Hwr]|].
    assert (i_size ip' = i_size ip) as Es by (by rewrite (s_ip _ _ _ _ _ _ _ (wr_step _ _ _ _ _ _ _ _ _ Hwr))).
    rewrite Es. apply wp_bind. destruct (decide (0 < n /\ i_size ip < off + n)%Z) as [[_ Hgt]|Hle].
    + assert (fs_wf dev d') as Hw' by apply Hwr. pose proof (grow_wf off n src d ip d' ip' Hwr) as [Hw1 Hi1].
      pose proof (grow_inum off n src d ip Hok d' ip' Hwr) as [Ei Hin1].
      apply wp_bind. eapply wp_updi; [eapply write_node; [exact Hok|exact Hwr]|].
      eapply (wp_iupdate b (setnode i (set_size (off + n) ip') d') (set_size (off + n) ip'));
        [done|cbn; apply list_lookup_insert_eq; eapply lookup_lt_Some, write_node; [exact Hok|exact Hwr]|apply Hi1|done| |].
      * change (held_bufs (setnode i (set_size (off + n) ip') d')) with (held_bufs d').
        rewrite (s_held _ _ _ _ _ _ _ (wr_step _ _ _ _ _ _ _ _ _ Hwr)), (f_held _ _ _ _ Hf). set_solver.
      * apply wp_ret. eapply HQ. apply writei_post_grow; done || lia.
    + apply wp_ret, wp_ret. eapply HQ. eapply writei_post_same; try done; lia.
Qed.

(** The bytes of the file after the write. *)
Lemma written_bytes off n src d ip d' ip' :
  (0 <= off)%Z -> (0 <= n)%Z -> Z.of_nat (length src) = n -> writei_post off n src d ip d' ip' -> fbytes dev d' ip' off n = src.
Proof.
  intros Ho Hn Hlen Hp. apply list_eq. intros k. unfold fbytes. rewrite list_lookup_fmap.
  destruct (decide (k < length src)) as [Hk|Hk].
  - rewrite lookup_seqZ_lt by lia. cbn [fmap option_fmap option_map].
    rewrite (p_bytes _ _ _ _ _ _ _ Hp) by (rewrite (p_size _ _ _ _ _ _ _ Hp); lia). rewrite decide_True by lia.
    replace (Z.to_nat (off + (0 + Z.of_nat k) - off)) with k by lia. unfold byte_at.
    by destruct (lookup_lt_is_Some_2 src k Hk) as [v ->].
  - rewrite lookup_seqZ_ge by lia. cbn. by rewrite lookup_ge_None_2 by lia.
Qed.

(** The contents of an inode that shares no block with the one written. *)
Lemma write_other off n src d ip d' ip' ipo x :
  fs_wf dev d -> writei_post off n src d ip d' ip' -> ino_wf dev d ipo -> (forall y, owned dev d ip y -> ~ owned dev d ipo y) ->
  in_file (x / BSIZE) -> addr_of dev d ipo (x / BSIZE) <> 0%Z -> fbyte dev d' ipo x = fbyte dev d ipo x.
Proof.
  intros Hw Hp Hino Hdis Hx Hn.
  assert (forall y, owned dev d ipo y -> dk d' (dev, y) = dk d (dev, y)) as Hsame.
  { intros y Hy. destruct (n_own _ _ _ Hino y Hy) as [Hr Ha]. apply (p_frame _ _ _ _ _ _ _ Hp); [done|done|].
    intros Ho. by apply (Hdis y). }
  assert (addr_of dev d' ipo (x / BSIZE) = addr_of dev d ipo (x / BSIZE)) as Ea.
  { unfold addr_of. case_decide; [done|]. case_decide as Hi; [done|]. rewrite Hsame; [done|by apply owned_ind]. }
  unfold fbyte. rewrite Ea, Hsame; [done|by apply owned_addr].
Qed.
End Write.
End FsWrite.
