(* ===== verification/FsTrunc.v ===== *)
(** * The file system: freeing the blocks of an inode

    The specification of [itrunc]: the bitmap loses exactly the blocks of the
    inode, and nothing else on the device changes but the inode. *)
From S2P Require Export FsWrite.

Module FsTrunc.
Import Spin Locked Fs FsBase FsBlocks FsInode FsFile FsWrite.

Lemma addr_of_empty dev d ip k : i_addrs ip = replicate 13 0%Z -> addr_of dev d ip k = 0%Z.
Proof.
  intros E. unfold addr_of, ind_of. rewrite E. case_decide as Hk; [|done].
  destruct (replicate 13 0%Z !! Z.to_nat k) as [v|] eqn:Hv; [|done]. by apply lookup_replicate in Hv as [-> _].
Qed.

(** An inode without blocks. *)
Lemma ino_wf_empty dev d ip : i_dev ip = dev -> i_addrs ip = replicate 13 0%Z -> ino_wf dev d ip.
Proof.
  intros Hd E. constructor; [done|by rewrite E|..].
  - intros x [Hx [Hi|(k & _ & Hk)]]; [unfold ind_of in Hi; by rewrite E in Hi|]. rewrite addr_of_empty in Hk by done. done.
  - intros j k _ _ Hj. by rewrite addr_of_empty in Hj.
  - intros k _ Hi. unfold ind_of in Hi. by rewrite E in Hi.
Qed.

Section Trunc.
Context (dev : Z) (i : nat) (b : bool).
Implicit Types (d : fsst) (ip : inode) (x : Z).

(** [d'] is [d] with the blocks of [P] freed; the inode cache is left open. *)
Record freed (P : Z -> Prop) d d' : Prop := {
  fr_wf : fs_wf dev d';
  fr_sb : sb d' = sb d;
  fr_held : held_bufs d' = held_bufs d;
  fr_dk a : a <> bmap_blk dev d -> dk d' a = dk d a;
  fr_bit x : (0 <= x)%Z -> allocated dev d' x = true <-> allocated dev d x = true /\ ~ P x;
  fr_logged a : a ∈ logged d' -> a ∈ logged d \/ a = bmap_blk dev d
}.

Lemma freed_none (P : Z -> Prop) d d' :
  fs_wf dev d -> (forall x, ~ P x) -> dk d' = dk d -> sb d' = sb d -> held_bufs d' = held_bufs d -> logged d' = logged d -> freed P d d'.
Proof.
  intros Hw HP Hd Hs Hh Hl. constructor; [by eapply wf_ext|done|done|by rewrite Hd| |rewrite Hl; by left].
  intros x Hx. unfold allocated, bmap_blk. rewrite Hd, Hs. naive_solver.
Qed.

Lemma freed_one (P : Z -> Prop) d x :
  fs_wf dev d -> (sb_bmapstart (sb d) < x < sb_size (sb d))%Z -> (forall y, P y <-> y = x) -> freed P d (dealloc dev x d).
Proof.
  intros Hw Hx HP. pose proof (w_bmap _ _ Hw). constructor; [by apply dealloc_wf|done|done|intros a Ha; by apply dealloc_dk_other| |].
  - intros y Hy. rewrite HP, dealloc_allocated by (done || lia). case_decide; naive_solver.
  - intros a Ha. change (a ∈ {[bmap_blk dev d]} ∪ logged d) in Ha. clear -Ha. set_solver.
Qed.

Lemma freed_trans (P1 P2 P : Z -> Prop) d d1 d2 :
  (forall x, P x <-> P1 x \/ P2 x) -> freed P1 d d1 -> freed P2 d1 d2 -> freed P d d2.
Proof.
  intros HP H1 H2. pose proof (fr_sb _ _ _ H1) as E1. assert (bmap_blk dev d1 = bmap_blk dev d) as Eb by (unfold bmap_blk; by rewrite E1).
  constructor; [apply H2|by rewrite (fr_sb _ _ _ H2)|by rewrite (fr_held _ _ _ H2), (fr_held _ _ _ H1)|..].
  - intros a Ha. rewrite (fr_dk _ _ _ H2) by (by rewrite Eb). by apply (fr_dk _ _ _ H1).
  - intros x Hx. rewrite HP, (fr_bit _ _ _ H2), (fr_bit _ _ _ H1) by done. tauto.
  - intros a Ha. destruct (fr_logged _ _ _ H2 a Ha) as [Ha1| ->]; [by apply (fr_logged _ _ _ H1)|by right].
Qed.

(** Changing the cache does not matter. *)
Lemma freed_nodes P d d' l : freed P d d' -> freed P d (set_inodes l d').
Proof. intros H. destruct H as [? ? ? ? ? ?]. constructor; try done. by apply (wf_ext dev d'). Qed.

(** An address of [l] that is not 0 is an allocated data block, and occurs once. *)
Definition blocks_ok d (J : Z -> Prop) (f : Z -> Z) : Prop :=
  (forall j, J j -> f j <> 0%Z -> (sb_bmapstart (sb d) < f j < sb_size (sb d))%Z /\ allocated dev d (f j) = true) /\
  (forall j k, J j -> J k -> f j <> 0%Z -> f j = f k -> j = k).
Definition blocks_in (J : Z -> Prop) (f : Z -> Z) x : Prop := x <> 0%Z /\ exists j, J j /\ f j = x.

Lemma blocks_ok_freed d d' (P : Z -> Prop) (J J' : Z -> Prop) f :
  fs_wf dev d -> blocks_ok d J f -> (forall j, J' j -> J j) -> (forall j, J' j -> f j <> 0%Z -> ~ P (f j)) -> freed P d d' -> blocks_ok d' J' f.
Proof.
  intros Hw [H1 H2] HJ HP Hf. pose proof (w_bmap _ _ Hw). split; [|eauto].
  intros j Hj Hz. destruct (H1 j (HJ j Hj) Hz) as [Hr Ha]. rewrite (fr_sb _ _ _ Hf). split; [done|]. apply (fr_bit _ _ _ Hf); [lia|].
  split; [done|by apply HP].
Qed.

Lemma blocks_split (J J' : Z -> Prop) f j0 x :
  (forall j, J j <-> j = j0 \/ J' j) -> blocks_in J f x <-> (x <> 0%Z /\ x = f j0) \/ blocks_in J' f x.
Proof. intros HJ. unfold blocks_in. setoid_rewrite HJ. naive_solver. Qed.

Lemma blocks_ok_ext d (J : Z -> Prop) f g : (forall j, J j -> g j = f j) -> blocks_ok d J f -> blocks_ok d J g.
Proof.
  intros He [H1 H2]. split.
  - intros j Hj. rewrite He by done. by apply H1.
  - intros j k Hj Hk. rewrite !He by done. by apply H2.
Qed.
Lemma blocks_in_ext (J : Z -> Prop) f g x : (forall j, J j -> g j = f j) -> blocks_in J g x <-> blocks_in J f x.
Proof. intros He. unfold blocks_in. split; intros [Hx (j & Hj & E)]; (split; [done|]); exists j; (split; [done|]); by rewrite <- E, He. Qed.

(** [if(a) bfree(dev, a)] *)
Lemma wp_bfree_opt d x (Q : unit -> guarded fsst -> Prop) :
  fs_wf dev d -> bmap_blk dev d ∉ held_bufs d ->
  (x <> 0%Z -> (sb_bmapstart (sb d) < x < sb_size (sb d))%Z /\ allocated dev d x = true) ->
  (forall d', freed (fun y => y <> 0%Z /\ y = x) d d' -> inodes d' = inodes d -> Q tt (free b d')) ->
  wp (if decide (x = 0)%Z then mret tt else bfree dev x) Q (free b d).
Proof.
  intros Hw Hh Hx HQ. pose proof (w_bmap _ _ Hw). case_decide as E.
  - apply wp_ret, HQ; [|done]. apply freed_none; try done. intros y [H1 H2]. congruence.
  - destruct (Hx E) as [Hr Ha]. apply wp_bfree; [done|done|lia|done|]. apply HQ; [|done].
    apply freed_one; [done|done|]. naive_solver.
Qed.

(** The range [j, j + n). *)
Definition rng (j : Z) (n : nat) : Z -> Prop := fun k => (j <= k < j + Z.of_nat n)%Z.
Lemma rng_S j n k : rng j (S n) k <-> k = j \/ rng (j + 1) n k.
Proof. unfold rng. lia. Qed.

Lemma wp_itrunc_indirect n : forall j d data (Q : unit -> guarded fsst -> Prop),
  fs_wf dev d -> bmap_blk dev d ∉ held_bufs d -> blocks_ok d (rng j n) (fun k => get_addr k data) ->
  (forall d', freed (blocks_in (rng j n) (fun k => get_addr k data)) d d' -> inodes d' = inodes d -> Q tt (free b d')) ->
  wp (itrunc_indirect n j dev data) Q (free b d).
Proof.
  induction n as [|n IH]; intros j d data Q Hw Hh Hok HQ; cbn [itrunc_indirect].
  - apply wp_ret, HQ; [|done]. apply freed_none; try done. intros x [_ (k & Hk & _)]. unfold rng in Hk. lia.
  - assert (rng j (S n) j) as Hj by (unfold rng; lia).
    apply wp_bind, wp_bfree_opt; [done|done|by apply Hok|]. intros d1 H1 E1.
    pose proof (fr_sb _ _ _ H1) as Es. apply IH; [apply H1|unfold bmap_blk; by rewrite Es, (fr_held _ _ _ H1)|..].
    + eapply blocks_ok_freed; [done|exact Hok| | |exact H1]; [intros k Hk; rewrite rng_S; by right|].
      intros k Hk Hz [_ Heq]. destruct Hok as [_ Hinj]. assert (k = j) as ->; [|unfold rng in Hk; lia].
      by apply Hinj; [rewrite rng_S; right|..].
    + intros d2 H2 E2. apply HQ; [|congruence]. eapply freed_trans; [|exact H1|exact H2].
      intros x. apply (blocks_split _ _ (fun k => get_addr k data) j), rng_S.
Qed.

(** The direct addresses, by index. *)
Definition dir ip (k : Z) : Z := default 0%Z (i_addrs ip !! Z.to_nat k).

(** [ip'] is [ip] with the addresses of [J] set to 0. *)
Record cleared (J : Z -> Prop) ip ip' : Prop := {
  c_ip : ip' = set_addrs (i_addrs ip') ip;
  c_len : length (i_addrs ip') = length (i_addrs ip);
  c_in k : J k -> dir ip' k = 0%Z;
  c_out k : (0 <= k)%Z -> ~ J k -> dir ip' k = dir ip k
}.

Lemma dir_insert ip k a j : (0 <= k)%Z -> (Z.to_nat k < length (i_addrs ip)) -> (0 <= j)%Z ->
  dir (set_addrs (<[Z.to_nat k:=a]> (i_addrs ip)) ip) j = if decide (j = k) then a else dir ip j.
Proof.
  intros Hk Hl Hj. unfold dir. cbn. case_decide as E; [subst; by rewrite list_lookup_insert_eq|].
  rewrite list_lookup_insert_ne; [done|]. lia.
Qed.

Lemma cleared_one ip k : (0 <= k)%Z -> Z.to_nat k < length (i_addrs ip) ->
  cleared (fun j => j = k) ip (set_addrs (<[Z.to_nat k:=0%Z]> (i_addrs ip)) ip).
Proof.
  intros Hk Hl. constructor; [done|by cbn; rewrite length_insert|..].
  - intros j ->. rewrite dir_insert by done. by rewrite decide_True.
  - intros j Hj Hne. rewrite dir_insert by done. by rewrite decide_False.
Qed.

Lemma cleared_already (J : Z -> Prop) ip : (forall k, J k -> dir ip k = 0%Z) -> cleared J ip ip.
Proof. intros H. constructor; try done. by destruct ip. Qed.

Lemma cleared_trans (J1 J2 J : Z -> Prop) ip ip1 ip2 :
  (forall k, J k <-> J1 k \/ J2 k) -> (forall k, J k -> 0 <= k)%Z -> cleared J1 ip ip1 -> (forall k, Decision (J2 k)) -> cleared J2 ip1 ip2 -> cleared J ip ip2.
Proof.
  intros HJ H0 H1 Hdec H2. constructor.
  - eapply set_addrs_trans; [apply H1|apply H2].
  - by rewrite (c_len _ _ _ H2), (c_len _ _ _ H1).
  - intros k Hk. destruct (decide (J2 k)) as [Hk2|Hk2]; [by apply (c_in _ _ _ H2)|].
    rewrite (c_out _ _ _ H2); [|by apply H0|done]. apply (c_in _ _ _ H1). apply HJ in Hk. tauto.
  - intros k Hk Hn. rewrite (c_out _ _ _ H2), (c_out _ _ _ H1); [done|done|..|done|]; rewrite HJ in Hn; tauto.
Qed.

Lemma dir_lookup ip k : Z.to_nat k < length (i_addrs ip) -> i_addrs ip !! Z.to_nat k = Some (dir ip k).
Proof. intros H. unfold dir. by destruct (lookup_lt_is_Some_2 _ _ H) as [a ->]. Qed.

(** [if(ip->addrs\[k\]){ bfree(..); ip->addrs\[k\] = 0; }] *)
Lemma wp_itrunc_slot d ip (k : nat) (Q : unit -> guarded fsst -> Prop) :
  let x := dir ip (Z.of_nat k) in
  fs_wf dev d -> bmap_blk dev d ∉ held_bufs d -> inodes d !! i = Some ip -> k < length (i_addrs ip) ->
  (x <> 0%Z -> (sb_bmapstart (sb d) < x < sb_size (sb d))%Z /\ allocated dev d x = true) ->
  (forall d' ip', freed (fun y => y <> 0%Z /\ y = x) d d' -> cleared (fun j => j = Z.of_nat k) ip ip' ->
    inodes d' = <[i:=ip']> (inodes d) -> Q tt (free b d')) ->
  wp (if decide (x = 0)%Z then mret tt
      else bfree dev x ;; updi i (fun ip => set_addrs (<[k:=0%Z]> (i_addrs ip)) ip)) Q (free b d).
Proof.
  intros x Hw Hh Hnode Hl Hx HQ. pose proof (w_bmap _ _ Hw). case_decide as E.
  - apply wp_ret. apply (HQ d ip); [apply freed_none; try done; intros y [H1 H2]; congruence| |by rewrite list_insert_id].
    apply cleared_already. by intros j ->.
  - destruct (Hx E) as [Hr Ha]. apply wp_bind, wp_bfree; [done|done|lia|done|]. eapply wp_updi; [exact Hnode|].
    pose proof (cleared_one ip (Z.of_nat k) ltac:(lia)) as Hc. rewrite Nat2Z.id in Hc.
    eapply HQ; [|by apply Hc|reflexivity]. apply freed_nodes, freed_one; [done|done|]. naive_solver.
Qed.

Lemma wp_itrunc_direct n : forall k d ip (Q : unit -> guarded fsst -> Prop),
  fs_wf dev d -> bmap_blk dev d ∉ held_bufs d -> inodes d !! i = Some ip -> i_dev ip = dev -> k + n <= length (i_addrs ip) ->
  blocks_ok d (rng (Z.of_nat k) n) (dir ip) ->
  (forall d' ip', freed (blocks_in (rng (Z.of_nat k) n) (dir ip)) d d' -> cleared (rng (Z.of_nat k) n) ip ip' ->
    inodes d' = <[i:=ip']> (inodes d) -> Q tt (free b d')) ->
  wp (itrunc_direct n k i) Q (free b d).
Proof.
  induction n as [|n IH]; intros k d ip Q Hw Hh Hnode Hdev Hl Hok HQ; cbn [itrunc_direct].
  - apply wp_ret. apply (HQ d ip); [|apply cleared_already; unfold rng; lia|by rewrite list_insert_id].
    apply freed_none; try done. intros x [_ (j & Hj & _)]. unfold rng in Hj. lia.
  - assert (rng (Z.of_nat k) (S n) (Z.of_nat k)) as Hj by (unfold rng; lia).
    assert (i_addrs ip !! k = Some (dir ip (Z.of_nat k))) as Hk by (rewrite <- dir_lookup by lia; by rewrite Nat2Z.id).
    apply wp_bind. eapply wp_rdi; [exact Hnode|]. apply wp_bind. eapply wp_lift; [by apply rd_lookup|]. rewrite Hdev.
    apply wp_bind. eapply wp_itrunc_slot; [done|done|exact Hnode|lia|by apply Hok|].
    intros d1 ip1 H1 C1 E1. pose proof (fr_sb _ _ _ H1) as Es.
    assert (forall j, rng (Z.of_nat k + 1) n j -> dir ip1 j = dir ip j) as Hsame.
    { intros j Hr. apply (c_out _ _ _ C1); unfold rng in Hr; lia. }
    assert (inodes d1 !! i = Some ip1) as Hn1 by (rewrite E1; apply list_lookup_insert_eq; by eapply lookup_lt_Some).
    replace (Z.of_nat k + 1)%Z with (Z.of_nat (S k)) in Hsame by lia.
    assert (forall j, rng (Z.of_nat k) (S n) j <-> j = Z.of_nat k \/ rng (Z.of_nat (S k)) n j) as Hr by (unfold rng; lia).
    eapply (IH (S k) d1 ip1); [apply H1|unfold bmap_blk; by rewrite Es, (fr_held _ _ _ H1)|exact Hn1| | | |].
    + by rewrite (c_ip _ _ _ C1).
    + rewrite (c_len _ _ _ C1). lia.
    + eapply blocks_ok_ext; [exact Hsame|]. eapply blocks_ok_freed; [done|exact Hok|intros j ?; apply Hr; by right| |exact H1].
      intros j Hjr Hz [_ Heq]. assert (j = Z.of_nat k) as ->; [|unfold rng in Hjr; lia]. by apply Hok; [apply Hr; right|..].
    + intros d2 ip2 H2 C2 E2. eapply (HQ d2 ip2); [| |by rewrite E2, E1, list_insert_insert_eq].
      * eapply freed_trans; [|exact H1|exact H2]. intros x. rewrite (blocks_in_ext _ _ _ x Hsame). by apply blocks_split.
      * eapply cleared_trans; [exact Hr|unfold rng; lia|exact C1|unfold rng; solve_decision|exact C2].
Qed.

(** ** The whole of [itrunc] *)

Lemma freed_unlock P d d' a : a ∉ held_bufs d -> freed P (lock_buf a d) d' -> freed P d (set_held (held_bufs d' ∖ {[a]}) d').
Proof.
  intros Ha H. constructor; [by apply (wf_ext dev d'); [..|apply H]|apply H| |apply H|apply H|apply H].
  change (held_bufs d' ∖ {[a]} = held_bufs d). rewrite (fr_held _ _ _ H). by apply held_release.
Qed.

Lemma addr_dir d ip k : (0 <= k < NDIRECT)%Z -> addr_of dev d ip k = dir ip k.
Proof. intros Hk. unfold addr_of. by rewrite decide_True by lia. Qed.
Lemma addr_ind d ip k : (0 <= k < NINDIRECT)%Z -> ind_of ip <> 0%Z -> addr_of dev d ip (NDIRECT + k) = get_addr k (dk d (dev, ind_of ip)).
Proof. intros Hk Hi. unfold addr_of. rewrite decide_False by lia. rewrite decide_False by done. do 2 f_equal. lia. Qed.

(** The blocks of an inode: the direct ones, those of the indirect block, and
    the indirect block itself. *)
Lemma owned_parts d ip x :
  owned dev d ip x <-> blocks_in (rng 0 12) (dir ip) x \/
    (ind_of ip <> 0%Z /\ (blocks_in (rng 0 128) (fun k => get_addr k (dk d (dev, ind_of ip))) x \/ x = ind_of ip)).
Proof.
  unfold owned, blocks_in, rng, in_file, MAXFILE. split.
  - intros [Hx [->|(k & Hk & E)]]; [by right; split; [|right]|]. destruct (decide (k < NDIRECT)%Z) as [Hl|Hl].
    + left. split; [done|]. exists k. rewrite addr_dir in E by lia. unfold NDIRECT in *. split; [lia|done].
    + right. destruct (decide (ind_of ip = 0%Z)) as [Hi|Hi].
      * unfold addr_of in E. rewrite decide_False, decide_True in E by done. congruence.
      * split; [done|]. left. split; [done|]. exists (k - NDIRECT)%Z. unfold NDIRECT, NINDIRECT in *. split; [lia|].
        rewrite <- E. rewrite <- addr_ind; [f_equal; unfold NDIRECT; lia|unfold NINDIRECT; lia|done].
  - intros [[Hx (k & Hk & E)]|[Hi [[Hx (k & Hk & E)]| ->]]]; [..|by split; [|left]]; (split; [done|right]).
    + exists k. rewrite addr_dir by (unfold NDIRECT; lia). unfold NDIRECT, NINDIRECT. split; [lia|done].
    + exists (NDIRECT + k)%Z. rewrite addr_ind by (unfold NINDIRECT; done || lia). unfold NDIRECT, NINDIRECT. split; [lia|done].
Qed.

Lemma direct_ok d ip : ino_wf dev d ip -> blocks_ok d (rng 0 12) (dir ip).
Proof.
  intros Hi. assert (forall j, rng 0 12 j -> in_file j /\ (0 <= j < NDIRECT)%Z) as Hr
    by (unfold rng, in_file, MAXFILE, NDIRECT, NINDIRECT; lia).
  split.
  - intros j [Hf Hd]%Hr. rewrite <- (addr_dir d) by done. intros Hz. apply Hi. by apply owned_addr.
  - intros j k [Hf Hd]%Hr [Hf' Hd']%Hr. rewrite <- !(addr_dir d) by done. by apply (n_inj _ _ _ Hi).
Qed.

Lemma indirect_ok d ip : ino_wf dev d ip -> ind_of ip <> 0%Z ->
  blocks_ok d (rng 0 128) (fun k => get_addr k (dk d (dev, ind_of ip))).
Proof.
  intros Hi Hn. assert (forall j, rng 0 128 j -> in_file (NDIRECT + j) /\ (0 <= j < NINDIRECT)%Z) as Hr
    by (unfold rng, in_file, MAXFILE, NDIRECT, NINDIRECT; lia).
  split.
  - intros j [Hf Hd]%Hr. rewrite <- addr_ind by done. intros Hz. apply Hi. by apply owned_addr.
  - intros j k [Hf Hd]%Hr [Hf' Hd']%Hr. rewrite <- !addr_ind by done. intros Hz E.
    assert (NDIRECT + j = NDIRECT + k)%Z; [|lia]. by apply (n_inj _ _ _ Hi).
Qed.

Section Whole.
Context d ip (Hw : fs_wf dev d) (Hi : ino_wf dev d ip) (Hh : held_bufs d = ∅) (Hnode : inodes d !! i = Some ip).
Let ind := ind_of ip.
Let data := dk d (dev, ind).

(** The state after the loop over the direct addresses. *)
Context d1 ip1 (H1 : freed (blocks_in (rng 0 12) (dir ip)) d d1) (C1 : cleared (rng 0 12) ip ip1) (E1 : inodes d1 = <[i:=ip1]> (inodes d)).

Lemma ind_range : ind <> 0%Z -> (sb_bmapstart (sb d) < ind < sb_size (sb d))%Z /\ allocated dev d ind = true.
Proof using Hi. intros H. by apply (n_own _ _ _ Hi), owned_ind. Qed.

Lemma ind_data : ind <> 0%Z -> dk d1 (dev, ind) = data.
Proof using Hi H1. intros H. apply (fr_dk _ _ _ H1). destruct (ind_range H). unfold bmap_blk. intros [= ?]. lia. Qed.

Lemma ind_not_direct : ind <> 0%Z -> ~ blocks_in (rng 0 12) (dir ip) ind.
Proof using Hi.
  intros H [_ (k & Hk & E)]. unfold rng in Hk. apply (n_ind _ _ _ Hi k); [unfold in_file, MAXFILE, NDIRECT, NINDIRECT; lia|done|].
  rewrite addr_dir by (unfold NDIRECT; lia). done.
Qed.

(** No block is both direct and indirect, and the indirect block is neither. *)
Lemma indirect_not_direct j : ind <> 0%Z -> rng 0 128 j -> get_addr j data <> 0%Z -> ~ blocks_in (rng 0 12) (dir ip) (get_addr j data).
Proof using Hi.
  intros H Hj Hz [_ (k & Hk & E)]. unfold rng in *. unfold data, ind in *. rewrite <- (addr_ind d) in E, Hz by (unfold NINDIRECT; done || lia).
  rewrite <- (addr_dir d) in E by (unfold NDIRECT; lia).
  assert (NDIRECT + j = k)%Z; [|unfold NDIRECT in *; lia]. unfold in_file, MAXFILE, NDIRECT, NINDIRECT in *.
  apply (n_inj _ _ _ Hi); unfold in_file, MAXFILE, NDIRECT, NINDIRECT in *; done || lia.
Qed.

Lemma ind_not_indirect : ind <> 0%Z -> ~ blocks_in (rng 0 128) (fun k => get_addr k data) ind.
Proof using Hi.
  intros H [_ (k & Hk & E)]. unfold rng in Hk. apply (n_ind _ _ _ Hi (NDIRECT + k)); [unfold in_file, MAXFILE, NDIRECT, NINDIRECT; lia|done|].
  rewrite addr_ind by (unfold NINDIRECT; done || lia). done.
Qed.

Lemma wp_itrunc_ind (Q : unit -> guarded fsst -> Prop) :
  (forall d' ip', freed (owned dev d ip) d d' -> cleared (rng 0 13) ip ip' -> inodes d' = <[i:=ip']> (inodes d) -> Q tt (free b d')) ->
  wp (if decide (ind = 0)%Z then mret tt
      else
        v ← bread (dev, ind);
        itrunc_indirect (Z.to_nat NINDIRECT) 0 dev v ;;
        brelse (dev, ind) ;;
        bfree dev ind ;;
        updi i (fun ip => set_addrs (<[Z.to_nat NDIRECT:=0%Z]> (i_addrs ip)) ip)) Q (free b d1).
Proof using All.
  intros HQ. pose proof (w_size _ _ Hw). pose proof (w_bmap _ _ Hw). pose proof (fr_sb _ _ _ H1) as Es.
  assert (forall k, rng 0 13 k <-> rng 0 12 k \/ k = NDIRECT) as Hr by (unfold rng, NDIRECT; lia).
  assert (inodes d1 !! i = Some ip1) as Hn1 by (rewrite E1; apply list_lookup_insert_eq; by eapply lookup_lt_Some).
  assert (held_bufs d1 = ∅) as Hh1 by (by rewrite (fr_held _ _ _ H1)).
  case_decide as Hz.
  - apply wp_ret. apply (HQ d1 ip1); [| |done].
    + eapply freed_trans; [|exact H1|apply (freed_none (fun _ => False)); [apply (fr_wf _ _ _ H1)|tauto|done..]].
      intros x. rewrite owned_parts. unfold ind in Hz. tauto.
    + eapply cleared_trans; [exact Hr|unfold rng; lia|exact C1|solve_decision|]. apply cleared_already. intros k ->.
      rewrite (c_out _ _ _ C1); [exact Hz|unfold NDIRECT; lia|unfold rng, NDIRECT; lia].
  - destruct (ind_range Hz) as [Hri Hai]. pose proof (ind_data Hz) as Hd.
    apply wp_bind, wp_bread; [rewrite Hh1; set_solver|cbn; lia|]. rewrite Hd.
    apply wp_bind, wp_itrunc_indirect.
    + by apply (wf_ext dev d1); [..|apply H1].
    + change (held_bufs _) with ({[(dev, ind)]} ∪ held_bufs d1). rewrite Hh1. unfold bmap_blk. cbn. rewrite Es.
      rewrite union_empty_r_L, elem_of_singleton. intros [= ?]. lia.
    + eapply (blocks_ok_freed d d1); [done|by apply (indirect_ok d ip)|done| |exact H1].
      intros j Hj Hz2. by apply indirect_not_direct.
    + intros d2 H2 E2. apply wp_bind, wp_brelse; [rewrite (fr_held _ _ _ H2); apply lock_buf_in|].
      apply freed_unlock in H2; [|rewrite Hh1; set_solver]. set (d3 := set_held _ d2) in H2 |- *.
      pose proof (fr_sb _ _ _ H2) as Es2. assert (held_bufs d3 = ∅) as Hh3 by (by rewrite (fr_held _ _ _ H2)).
      assert (inodes d3 !! i = Some ip1) as Hn3 by (change (inodes d3) with (inodes d2); rewrite E2; exact Hn1).
      apply wp_bind, wp_bfree; [apply (fr_wf _ _ _ H2)|rewrite Hh3; set_solver|rewrite Es2, Es; lia| |].
      { apply (fr_bit _ _ _ H2); [lia|]. split; [|by apply ind_not_indirect]. apply (fr_bit _ _ _ H1); [lia|].
        split; [done|by apply ind_not_direct]. }
      eapply wp_updi; [exact Hn3|]. assert (length (i_addrs ip1) = 13) as Hl by (rewrite (c_len _ _ _ C1); apply Hi).
      eapply HQ; [| |cbn; rewrite E2; cbn; rewrite E1; apply list_insert_insert_eq].
      * eapply (freed_trans _ (fun x => blocks_in (rng 0 128) (fun k => get_addr k data) x \/ x = ind)); [|exact H1|].
        { intros x. rewrite owned_parts. fold ind data. tauto. }
        apply freed_nodes. eapply freed_trans; [|exact H2|apply (freed_one (fun x => x = ind)); [apply (fr_wf _ _ _ H2)|rewrite Es2, Es; lia|done]].
        done.
      * eapply cleared_trans; [exact Hr|unfold rng; lia|exact C1|solve_decision|].
        apply cleared_one; [unfold NDIRECT; lia|rewrite Hl; unfold NDIRECT; lia].
Qed.
End Whole.

Lemma cleared_all ip ip' : length (i_addrs ip) = 13 -> cleared (rng 0 13) ip ip' -> ip' = set_addrs (replicate 13 0%Z) ip.
Proof.
  intros Hl H. rewrite (c_ip _ _ _ H). f_equal. apply list_eq_same_length with 13; [done|by rewrite (c_len _ _ _ H)|].
  intros k x y Hk Hx Hy. apply lookup_replicate in Hy as [-> _]. pose proof (c_in _ _ _ H (Z.of_nat k)) as Hc. unfold dir in Hc.
  rewrite Nat2Z.id, Hx in Hc. apply Hc. unfold rng. lia.
Qed.

Lemma wp_itrunc_blocks d ip (Q : unit -> guarded fsst -> Prop) :
  fs_wf dev d -> ino_wf dev d ip -> held_bufs d = ∅ -> inodes d !! i = Some ip ->
  (forall d', freed (owned dev d ip) d d' -> inodes d' = <[i:=set_addrs (replicate 13 0%Z) ip]> (inodes d) -> 
     wp (updi i (set_size 0) ;; iupdate i) Q (free b d')) ->
  wp (itrunc i) Q (free b d).
Proof.
  intros Hw Hi Hh Hnode HQ. unfold itrunc. apply wp_bind.
  eapply (wp_itrunc_direct (Z.to_nat NDIRECT) 0 d ip); [done|rewrite Hh; set_solver|done|apply Hi|rewrite (n_len _ _ _ Hi); unfold NDIRECT; lia|by apply direct_ok|].
  intros d1 ip1 H1 C1 E1. change (rng (Z.of_nat 0) (Z.to_nat NDIRECT)) with (rng 0 12) in H1, C1.
  assert (inodes d1 !! i = Some ip1) as Hn1 by (rewrite E1; apply list_lookup_insert_eq; by eapply lookup_lt_Some).
  apply wp_bind. eapply wp_rdi; [exact Hn1|].
  assert (i_addrs ip1 !! Z.to_nat NDIRECT = Some (ind_of ip)) as Ha.
  { rewrite dir_lookup by (rewrite (c_len _ _ _ C1), (n_len _ _ _ Hi); unfold NDIRECT; lia). f_equal.
    apply (c_out _ _ _ C1); [unfold NDIRECT; lia|unfold rng, NDIRECT; lia]. }
  apply wp_bind. eapply wp_lift; [by apply rd_lookup|].
  assert (i_dev ip1 = dev) as -> by (rewrite (c_ip _ _ _ C1); apply Hi).
  apply wp_bind. eapply wp_itrunc_ind; [done..|]. intros d2 ip2 H2 C2 E2. apply HQ; [done|].
  rewrite E2. f_equal. apply cleared_all; [apply Hi|done].
Qed.

(** The state that [itrunc] leaves. *)
Record trunc_post d ip d' : Prop := {
  t_ok : inode_ok dev i d' (set_size 0 (set_addrs (replicate 13 0%Z) ip));
  t_sb : sb d' = sb d;
  t_nodes : inodes d' = <[i:=set_size 0 (set_addrs (replicate 13 0%Z) ip)]> (inodes d);
  t_bit x : (0 <= x)%Z -> allocated dev d' x = true <-> allocated dev d x = true /\ ~ owned dev d ip x;
  t_dk a : a <> bmap_blk dev d -> a <> iblk dev d ip -> dk d' a = dk d a;
  t_inodes inum : (0 <= inum < sb_ninodes (sb d))%Z -> inum <> i_inum ip -> disk_inode dev d' inum = disk_inode dev d inum;
  t_logged a : a ∈ logged d' -> a ∈ logged d \/ a = bmap_blk dev d \/ a = iblk dev d ip
}.

Lemma freed_inum P d d' inum : fs_wf dev d -> freed P d d' -> (0 <= inum < sb_ninodes (sb d))%Z -> disk_inode dev d' inum = disk_inode dev d inum.
Proof.
  intros Hw Hf Hi. unfold disk_inode. rewrite (fr_sb _ _ _ Hf). f_equal. apply (fr_dk _ _ _ Hf).
  pose proof (w_iblock _ _ Hw inum Hi). unfold bmap_blk. intros [= ?]. lia.
Qed.

(** Freeing the blocks, setting the size and writing the inode add up to it. *)
Lemma trunc_done d ip d1 :
  inode_ok dev i d ip -> freed (owned dev d ip) d d1 ->
  let ip2 := set_size 0 (set_addrs (replicate 13 0%Z) ip) in
  inodes d1 = <[i:=ip2]> (inodes d) -> trunc_post d ip (iupdated dev ip2 d1).
Proof.
  intros Hok Hf ip2 E1. pose proof (o_file _ _ _ _ Hok) as Hfile. pose proof (f_wf _ _ _ _ Hfile) as Hw. pose proof (fr_wf _ _ _ Hf) as Hw1.
  pose proof (fr_sb _ _ _ Hf) as Es. assert (inum_ok d1 ip2) as Hin by (unfold inum_ok; rewrite Es; apply Hok).
  assert (dinode_ok (to_dinode ip2)) as He.
  { destruct (o_enc _ _ _ _ Hok) as [Hsh _ _ _]. constructor; [exact Hsh|cbn; unfold is_uint; lia|done|].
    apply (Forall_replicate is_uint 13 0%Z). unfold is_uint. lia. }
  assert (ino_wf dev d1 ip2) as Hi2 by (apply ino_wf_empty; [apply Hfile|done]).
  pose proof (iblk_meta dev d1 ip2 Hw1 Hin) as Hm. pose proof (iupdated_block dev ip2 d1 eq_refl Hw1 Hin) as Hl.
  assert (0 <= IBLOCK (i_inum ip2) (sb d1) < sb_bmapstart (sb d1))%Z as Hm' by (cbn in *; lia).
  assert (forall x, allocated dev (iupdated dev ip2 d1) x = allocated dev d1 x) as Ha by (intros x; by apply meta_allocated).
  constructor.
  - constructor; [|exact Hin|exact He|by apply iupdated_on_disk]. constructor.
    + by apply meta_wf.
    + by apply ino_wf_empty; [apply Hfile|].
    + cbn. rewrite E1. apply list_lookup_insert_eq. eapply lookup_lt_Some, Hfile.
    + change (held_bufs d1 = ∅). rewrite (fr_held _ _ _ Hf). apply Hfile.
    + cbn. unfold MAXFILE, NDIRECT, NINDIRECT, BSIZE. lia.
    + intros k Hk Hn. cbn in Hn. unfold BSIZE in Hn. lia.
    + apply Hfile.
  - exact Es.
  - exact E1.
  - intros x Hx. rewrite Ha. by apply (fr_bit _ _ _ Hf).
  - intros a Hb Hi. rewrite <- (fr_dk _ _ _ Hf a Hb). apply logged_write_ne. unfold iblk in *. by rewrite Es.
  - intros inum Hi Hne. rewrite iupdated_other; [by eapply freed_inum|done|done|done|lia|done].
  - intros a Hlg. change (a ∈ {[iblk dev d1 ip2]} ∪ logged d1) in Hlg. apply elem_of_union in Hlg as [Hlg|Hlg].
    + apply elem_of_singleton in Hlg as ->. right. right. unfold iblk. by rewrite Es.
    + destruct (fr_logged _ _ _ Hf a Hlg); tauto.
Qed.

Lemma wp_itrunc d ip (Q : unit -> guarded fsst -> Prop) :
  inode_ok dev i d ip -> (forall d', trunc_post d ip d' -> Q tt (free b d')) -> wp (itrunc i) Q (free b d).
Proof.
  intros Hok HQ. pose proof (o_file _ _ _ _ Hok) as Hfile.
  apply (wp_itrunc_blocks d ip); [apply Hfile..|]. intros d1 Hf E1.
  assert (inodes d1 !! i = Some (set_addrs (replicate 13 0%Z) ip)) as Hn1
    by (rewrite E1; apply list_lookup_insert_eq; eapply lookup_lt_Some, Hfile).
  apply wp_bind. eapply wp_updi; [exact Hn1|]. set (ip2 := set_size 0 _). set (d2 := set_inodes _ d1).
  assert (freed (owned dev d ip) d d2) as Hf2 by (by apply freed_nodes).
  assert (inodes d2 = <[i:=ip2]> (inodes d)) as E2 by (cbn; rewrite E1; apply list_insert_insert_eq).
  eapply (wp_iupdate dev i b d2 ip2); [apply (fr_wf _ _ _ Hf2)| |apply Hfile| | |].
  - rewrite E2. apply list_lookup_insert_eq. eapply lookup_lt_Some, Hfile.
  - unfold inum_ok. rewrite (fr_sb _ _ _ Hf2). apply Hok.
  - rewrite (fr_held _ _ _ Hf2), (f_held _ _ _ _ Hfile). set_solver.
  - apply HQ. by apply trunc_done.
Qed.
End Trunc.
End FsTrunc.
