(* ===== verification/FsDir.v ===== *)
(** * The file system: directories

    A directory is a list of entries, and [dirlookup] and [dirlink] are lookup
    and insertion on it. *)
From S2P Require Export FsWrite.

Module FsDir.
Import Spin Locked Fs FsBase FsBlocks FsInode FsFile FsWrite.

(** ** Names *)

(** The string in a buffer of [DIRSIZ] bytes. *)
Definition nm (l : list Z) : list Z := Strings.cstr DIRSIZ 0 (mem_of l).

Lemma mem_of_at l (k : nat) : mem_of l (Z.of_nat k) = byte_at l k.
Proof. unfold mem_of. rewrite decide_False by lia. by rewrite Nat2Z.id. Qed.

Lemma byte_at_app_l l l' k : k < length l -> byte_at (l ++ l') k = byte_at l k.
Proof. intros H. unfold byte_at. by rewrite lookup_app_l. Qed.
Lemma byte_at_app_r l l' k : byte_at (l ++ l') (length l + k) = byte_at l' k.
Proof. unfold byte_at. rewrite lookup_app_r by lia. by rewrite Nat.add_sub_swap, Nat.sub_diag by lia. Qed.

Lemma byte_at_pad l k : k < DIRSIZ -> byte_at (pad l) k = byte_at l k.
Proof.
  intros Hk. unfold pad, byte_at. rewrite lookup_take_lt by done. destruct (decide (k < length l)) as [Hl|Hl].
  - by rewrite lookup_app_l.
  - rewrite lookup_app_r by lia. rewrite (lookup_ge_None_2 l) by lia.
    destruct (replicate _ _ !! _) as [v|] eqn:E; [|done]. by apply lookup_replicate in E as [-> _].
Qed.

Lemma length_pad l : length (pad l) = DIRSIZ.
Proof. unfold pad. rewrite length_take, length_app, length_replicate. lia. Qed.

(** [namecmp] decides equality of names. *)
Lemma namecmp_spec s t : namecmp s t = 0%Z <-> nm s = nm t.
Proof.
  unfold namecmp, nm. rewrite Strings.strncmp_spec.
  rewrite (Strings.cstr_ext DIRSIZ 0 0 (mem_of s) (mem_of (pad s ++ t))).
  2:{ intros k Hk. rewrite !Z.add_0_l, !mem_of_at. rewrite byte_at_app_l by (by rewrite length_pad). by apply byte_at_pad. }
  rewrite (Strings.cstr_ext DIRSIZ 0 (Z.of_nat DIRSIZ) (mem_of t) (mem_of (pad s ++ t))); [done|].
  intros k Hk. rewrite Z.add_0_l, <- Nat2Z.inj_add, !mem_of_at. rewrite <- (length_pad s) at 1. apply byte_at_app_r.
Qed.

Definition is_bytes (l : list Z) : Prop := Forall (fun c => 0 <= c < 256)%Z l.

Lemma mem_of_ok l : is_bytes l -> Strings.bytes_ok (mem_of l).
Proof.
  intros H x. unfold mem_of. case_decide; [lia|]. unfold byte_at. destruct (l !! Z.to_nat x) eqn:E; cbn; [|lia].
  eapply Forall_lookup_1 in H; [|exact E]. done.
Qed.

(** [namecpy] keeps the name. *)
Lemma nm_namecpy s : is_bytes s -> nm (namecpy s) = nm s.
Proof.
  intros Hs. set (m := mem_of (replicate DIRSIZ 0%Z ++ s)).
  assert (Strings.bytes_ok m) as Hm.
  { apply mem_of_ok, Forall_app. split; [|done]. apply Forall_replicate. lia. }
  assert (Strings.cstr DIRSIZ (Z.of_nat DIRSIZ) m = nm s) as Hc.
  { apply Strings.cstr_ext. intros k Hk. rewrite Z.add_0_l, <- Nat2Z.inj_add. unfold m. rewrite !mem_of_at.
    rewrite <- (length_replicate DIRSIZ 0%Z) at 1. apply byte_at_app_r. }
  unfold nm at 1. rewrite <- Hc. apply Strings.cstr_padded; [apply Strings.cstr_length|apply Strings.cstr_nonzero|].
  intros k Hk. rewrite Z.add_0_l, mem_of_at. unfold namecpy, bytes_of, byte_at. rewrite list_lookup_fmap, lookup_seq_lt by done.
  cbn [fmap option_fmap option_map default]. fold m. rewrite Strings.strncpy_spec; [|done|left; lia].
  rewrite decide_True by lia. rewrite Hc. unfold id. f_equal. lia.
Qed.

Lemma length_namecpy s : length (namecpy s) = DIRSIZ.
Proof. unfold namecpy, bytes_of. by rewrite length_fmap, length_seq. Qed.

(** ** Entries *)

Definition entry : Type := Z * list Z.
Implicit Types (l : list entry) (e : entry).

(** The first used entry with the name, and its index. *)
Fixpoint lookup_name l (k : nat) (name : list Z) : option (Z * nat) :=
  match l with
  | [] => None
  | e :: l => if decide (e.1 <> 0%Z /\ nm name = nm e.2) then Some (e.1, k) else lookup_name l (S k) name
  end.
(** The index of the first unused entry, or of the end. *)
Fixpoint find_slot l : nat :=
  match l with
  | [] => 0
  | e :: l => if decide (e.1 = 0%Z) then 0 else S (find_slot l)
  end.
(** [e] at index [k], which is in the list or at its end. *)
Definition put_entry (k : nat) e l : list entry := take k l ++ e :: drop (S k) l.

Lemma put_entry_S k e e' l : put_entry (S k) e (e' :: l) = e' :: put_entry k e l.
Proof. done. Qed.

Lemma lookup_put_same l k0 inum stored name :
  inum <> 0%Z -> nm name = nm stored -> lookup_name l k0 name = None ->
  lookup_name (put_entry (find_slot l) (inum, stored) l) k0 name = Some (inum, k0 + find_slot l).
Proof.
  intros Hi Hst. revert k0. induction l as [|e l IH]; intros k0 Hno; cbn [find_slot].
  - unfold put_entry. cbn [take drop app lookup_name]. rewrite decide_True by done. by rewrite Nat.add_0_r.
  - cbn [lookup_name] in Hno. destruct (decide (e.1 = 0%Z)) as [E|E].
    + unfold put_entry. cbn [take drop app lookup_name]. rewrite decide_True by done. by rewrite Nat.add_0_r.
    + rewrite put_entry_S. cbn [lookup_name]. case_decide; [done|]. rewrite IH by done. do 2 f_equal. lia.
Qed.

Lemma lookup_put_other l k0 inum stored name :
  nm name <> nm stored -> lookup_name (put_entry (find_slot l) (inum, stored) l) k0 name = lookup_name l k0 name.
Proof.
  intros Hne. revert k0. induction l as [|e l IH]; intros k0; cbn [find_slot].
  - unfold put_entry. cbn [take drop app lookup_name]. by rewrite decide_False by naive_solver.
  - destruct (decide (e.1 = 0%Z)) as [E|E].
    + unfold put_entry. cbn [take drop app lookup_name]. by rewrite !decide_False by naive_solver.
    + rewrite put_entry_S. cbn [lookup_name]. by rewrite IH.
Qed.

Lemma put_entry_lookup k e l (j : nat) : k <= length l -> put_entry k e l !! j = if decide (j = k) then Some e else l !! j.
Proof.
  intros Hk. unfold put_entry. assert (length (take k l) = k) as Ht by (rewrite length_take; lia).
  destruct (decide (j = k)) as [->|Hne]; [rewrite lookup_app_r by lia; by rewrite Ht, Nat.sub_diag|].
  destruct (decide (j < k)).
  - rewrite lookup_app_l by lia. by apply lookup_take_lt.
  - rewrite lookup_app_r by lia. rewrite Ht, lookup_cons_ne_0 by lia. rewrite lookup_drop. f_equal. lia.
Qed.

Lemma lookup_name_nm l k name name' : nm name' = nm name -> lookup_name l k name' = lookup_name l k name.
Proof. intros E. revert k. induction l as [|e l IH]; intros k; cbn [lookup_name]; [done|]. by rewrite E, IH. Qed.

Lemma find_slot_le l : find_slot l <= length l.
Proof. induction l as [|e l IH]; cbn; [lia|]. case_decide; lia. Qed.

(** ** The entries of a directory *)

Section Dir.
Context (dev : Z) (i : nat).
Implicit Types (d : fsst) (ip : inode).

Definition dent d ip (k : Z) : entry := let e := fbytes dev d ip (DIRENT * k) DIRENT in (get_u16 e 0, drop 2 e).
Definition nents ip : Z := (i_size ip / DIRENT)%Z.
Definition entries d ip : list entry := dent d ip <$> seqZ 0 (nents ip).

Record dir_ok d ip : Prop := {
  r_file : file_ok dev i d ip;
  r_type : i_type ip = T_DIR;
  r_size : (i_size ip mod DIRENT = 0)%Z
}.

Lemma dir_size d ip : dir_ok d ip -> (i_size ip = DIRENT * nents ip)%Z /\ (0 <= nents ip)%Z /\ (i_size ip < 2 ^ 31)%Z.
Proof.
  intros Hd. destruct (f_size _ _ _ _ (r_file _ _ Hd)) as [H1 H2]. pose proof (r_size _ _ Hd) as Hm. unfold nents, DIRENT in *.
  unfold MAXFILE, NDIRECT, NINDIRECT, BSIZE in H2. Z.div_mod_to_equations. lia.
Qed.

Lemma length_entries d ip : length (entries d ip) = Z.to_nat (nents ip).
Proof. unfold entries. by rewrite length_fmap, length_seqZ. Qed.

Lemma entries_lookup d ip (k : nat) : (Z.of_nat k < nents ip)%Z -> entries d ip !! k = Some (dent d ip (Z.of_nat k)).
Proof. intros Hk. unfold entries. by rewrite list_lookup_fmap, lookup_seqZ_lt by lia. Qed.

Lemma entries_drop d ip (k : nat) : (Z.of_nat k < nents ip)%Z -> drop k (entries d ip) = dent d ip (Z.of_nat k) :: drop (S k) (entries d ip).
Proof. intros Hk. by apply drop_S, entries_lookup. Qed.

Lemma read_dirent_eq devread b d ip k : dir_ok d ip -> (0 <= k < nents ip)%Z ->
  read_dirent devread i (DIRENT * k) (free b d) = Ret (Some (dent d ip k), free b d).
Proof.
  intros Hd Hk. destruct (dir_size d ip Hd) as (Hs & _ & Hs2).
  assert (wp (readi devread i (DIRENT * k) DIRENT) (fun r s => r = (DIRENT, fbytes dev d ip (DIRENT * k) DIRENT) /\ s = free b d) (free b d)) as Hr.
  { eapply wp_readi; [apply Hd|unfold DIRENT in *; lia..|]. cbv zeta. unfold DIRENT in *.
    replace (Z.min 16 (i_size ip - 16 * k)) with 16%Z by lia. done. }
  apply wp_Ret in Hr as (? & ? & Hr & -> & ->). unfold read_dirent.
  etransitivity; [by eapply stm_bind_Ret|]. cbv beta iota. by rewrite decide_True.
Qed.

Lemma rdi_eq b d ip : inodes d !! i = Some ip -> rdi i (free b d) = Ret (ip, free b d).
Proof.
  intros Hi. assert (wp (rdi i) (fun v s => v = ip /\ s = free b d) (free b d)) as H by (by eapply wp_rdi).
  by apply wp_Ret in H as (? & ? & ? & -> & ->).
Qed.

(** [dirlookup] in terms of the entries: a match gets its inode. *)
Definition found me (r : option (Z * nat)) : fm (option (nat * Z)) :=
  match r with
  | Some (inum, k) => j ← iget me dev inum; mret (Some (j, DIRENT * Z.of_nat k)%Z)
  | None => mret None
  end.

Lemma next_off d ip (k : nat) : dir_ok d ip -> (Z.of_nat k < nents ip)%Z -> uint32 (DIRENT * Z.of_nat k + DIRENT) = (DIRENT * Z.of_nat (S k))%Z.
Proof. intros Hd Hk. destruct (dir_size d ip Hd) as (Hs & _ & Hs2). rewrite uint32_id; unfold DIRENT in *; lia. Qed.

Lemma dirlookup_loop_eq me devread b d ip name fuel : forall k : nat,
  dir_ok d ip -> (Z.of_nat k <= nents ip)%Z -> (nents ip < Z.of_nat k + Z.of_nat fuel)%Z ->
  dirlookup_loop me devread fuel i name (DIRENT * Z.of_nat k) (free b d) = found me (lookup_name (drop k (entries d ip)) k name) (free b d).
Proof.
  induction fuel as [|fuel IH]; intros k Hd Hk Hf; [lia|]. destruct (dir_size d ip Hd) as (Hs & _ & Hs2).
  cbn [dirlookup_loop]. etransitivity; [apply stm_bind_Ret, rdi_eq, Hd|]. cbv beta.
  destruct (decide (Z.of_nat k = nents ip)) as [E|E].
  - rewrite decide_False by lia. rewrite drop_ge by (rewrite length_entries; lia). done.
  - rewrite decide_True by (unfold DIRENT in *; lia). rewrite entries_drop by lia.
    etransitivity; [apply stm_bind_Ret, read_dirent_eq; done || lia|]. cbv beta iota. destruct (dent d ip (Z.of_nat k)) as [inum nm'] eqn:He.
    cbn [lookup_name fst snd]. rewrite (next_off d ip k) by (done || lia).
    destruct (decide (inum <> 0%Z /\ nm name = nm nm')) as [H|H].
    + rewrite decide_True by (by rewrite namecmp_spec). by rewrite (n_dev _ _ _ (f_ino _ _ _ _ (r_file _ _ Hd))).
    + rewrite decide_False by (by rewrite namecmp_spec). apply IH; [done|lia|lia].
Qed.

Lemma dirlookup_eq me devread b d ip name :
  dir_ok d ip -> dirlookup me devread i name (free b d) = found me (lookup_name (entries d ip) 0 name) (free b d).
Proof.
  intros Hd. destruct (dir_size d ip Hd) as (Hs & H0 & Hs2). unfold dirlookup.
  etransitivity; [apply stm_bind_Ret, rdi_eq, Hd|]. cbv beta. rewrite decide_False by (rewrite (r_type _ _ Hd); tauto).
  apply (dirlookup_loop_eq me devread b d ip name _ 0); [done|lia|unfold DIRENT in *; lia].
Qed.

(** The loop of [dirlink] finds the slot. *)
Lemma wp_dirlink_loop devread b d ip (Q : Z -> guarded fsst -> Prop) fuel : forall k : nat,
  dir_ok d ip -> (Z.of_nat k <= nents ip)%Z -> (nents ip < Z.of_nat k + Z.of_nat fuel)%Z ->
  Q (DIRENT * Z.of_nat (k + find_slot (drop k (entries d ip))))%Z (free b d) ->
  wp (dirlink_loop devread fuel i (DIRENT * Z.of_nat k)) Q (free b d).
Proof.
  induction fuel as [|fuel IH]; intros k Hd Hk Hf HQ; [lia|]. destruct (dir_size d ip Hd) as (Hs & _ & Hs2).
  cbn [dirlink_loop]. apply wp_bind. eapply wp_rdi; [apply Hd|]. destruct (decide (Z.of_nat k = nents ip)) as [E|E].
  - rewrite decide_False by lia. rewrite drop_ge in HQ by (rewrite length_entries; lia). cbn [find_slot] in HQ.
    rewrite Nat.add_0_r in HQ. exact HQ.
  - rewrite decide_True by (unfold DIRENT in *; lia). rewrite entries_drop in HQ by lia. cbn [find_slot] in HQ.
    apply wp_bind, wp_Ret. exists (Some (dent d ip (Z.of_nat k))), (free b d). split; [apply read_dirent_eq; done || lia|].
    destruct (dent d ip (Z.of_nat k)) as [inum nm']. cbn [fst] in HQ. case_decide.
    + apply wp_ret. by rewrite Nat.add_0_r in HQ.
    + rewrite (next_off d ip k) by (done || lia). apply IH; [done|lia|lia|]. by rewrite <- Nat.add_succ_comm in HQ.
Qed.

(** ** Adding an entry *)

Section Link.
Context d ip d' ip' (inum : Z) (name : list Z).
Let k := find_slot (entries d ip).
Let off := (DIRENT * Z.of_nat k)%Z.
Context (Hd : dir_ok d ip) (Hinum : (0 < inum < 65536)%Z).
Context (Hp : writei_post dev i off DIRENT (encode_dirent inum (namecpy name)) d ip d' ip').

Lemma slot_range : (0 <= off <= i_size ip)%Z /\ (Z.of_nat k <= nents ip)%Z.
Proof using Hd.
  destruct (dir_size d ip Hd) as (Hs & H0 & _). pose proof (find_slot_le (entries d ip)) as H. rewrite length_entries in H.
  fold k in H. unfold off, DIRENT in *. lia.
Qed.

Lemma link_nents : nents ip' = Z.max (nents ip) (Z.of_nat k + 1).
Proof using Hd Hp.
  destruct (dir_size d ip Hd) as (Hs & H0 & _). unfold nents at 1. rewrite (p_size _ _ _ _ _ _ _ _ _ Hp), Hs. unfold off, DIRENT.
  Z.div_mod_to_equations. lia.
Qed.

Lemma length_link : length (encode_dirent inum (namecpy name)) = 16.
Proof. unfold encode_dirent. by rewrite length_app, length_namecpy. Qed.

Lemma dent_new : dent d' ip' (Z.of_nat k) = (inum, namecpy name).
Proof using Hd Hp Hinum.
  destruct slot_range as [Ho _]. unfold dent. fold off. rewrite (written_bytes dev i off DIRENT (encode_dirent inum (namecpy name)) d ip) by
    first [done|lia|unfold DIRENT; lia|by rewrite length_link].
  f_equal. unfold encode_dirent, get_u16, byte_at. cbn. Z.div_mod_to_equations. lia.
Qed.

Lemma dent_old j : (0 <= j < nents ip)%Z -> j <> Z.of_nat k -> dent d' ip' j = dent d ip j.
Proof using Hd Hp.
  intros Hj Hne. destruct (dir_size d ip Hd) as (Hs & H0 & _). unfold dent.
  assert (fbytes dev d' ip' (DIRENT * j) DIRENT = fbytes dev d ip (DIRENT * j) DIRENT) as ->; [|done].
  unfold fbytes. apply list_fmap_ext. intros n x Hx. apply lookup_seqZ in Hx as [-> Hx]. 
  rewrite (p_bytes _ _ _ _ _ _ _ _ _ Hp).
  - rewrite decide_False; [done|]. unfold off, DIRENT in *. lia.
  - rewrite (p_size _ _ _ _ _ _ _ _ _ Hp). unfold off, DIRENT in *. lia.
Qed.

Lemma link_entries : entries d' ip' = put_entry k (inum, namecpy name) (entries d ip).
Proof using Hd Hp Hinum.
  pose proof link_nents as Hn. destruct slot_range as [_ Hk]. destruct (dir_size d ip Hd) as (Hs & H0 & _).
  apply list_eq. intros j. rewrite put_entry_lookup by apply find_slot_le.
  destruct (decide (Z.of_nat j < nents ip')%Z) as [Hj|Hj].
  - rewrite entries_lookup by done. case_decide as E; [subst j; by rewrite dent_new|].
    rewrite entries_lookup by lia. f_equal. apply dent_old; lia.
  - rewrite decide_False by lia. rewrite !lookup_ge_None_2; [done|rewrite length_entries; lia..].
Qed.

Lemma link_dir : dir_ok d' ip'.
Proof using Hd Hp.
  destruct (dir_size d ip Hd) as (Hs & H0 & _). constructor; [apply Hp| |].
  - rewrite (p_ip _ _ _ _ _ _ _ _ _ Hp). apply (r_type _ _ Hd).
  - rewrite (p_size _ _ _ _ _ _ _ _ _ Hp), Hs. unfold off, DIRENT. Z.div_mod_to_equations. lia.
Qed.
End Link.

Lemma wp_dirlink me pid devread devwrite b d ip name inum (Q : Z -> guarded fsst -> Prop) :
  let k := find_slot (entries d ip) in
  inode_ok dev i d ip -> dir_ok d ip -> lookup_name (entries d ip) 0 name = None ->
  (i_size ip + DIRENT <= MAXFILE * BSIZE)%Z -> 2 <= nfree dev d ->
  (forall d' ip', writei_post dev i (DIRENT * Z.of_nat k) DIRENT (encode_dirent inum (namecpy name)) d ip d' ip' -> Q 0%Z (free b d')) ->
  wp (dirlink me pid devread devwrite i name inum) Q (free b d).
Proof.
  intros k Hok Hd Hno Hmax Hfree HQ. destruct (dir_size d ip Hd) as (Hs & H0 & _). unfold dirlink.
  apply wp_bind, wp_Ret. exists None, (free b d). split; [rewrite (dirlookup_eq _ _ _ d ip) by done; by rewrite Hno|].
  apply wp_bind. eapply wp_rdi; [apply Hd|]. apply wp_bind.
  apply (wp_dirlink_loop devread b d ip _ _ 0); [done|lia|unfold DIRENT in *; lia|]. rewrite drop_0. cbn [Nat.add]. fold k.
  destruct (slot_range d ip Hd) as [Ho Hk]. fold k in Ho, Hk.
  apply wp_bind. eapply wp_writei; [exact Hok|exact Ho|unfold DIRENT; lia|lia|by rewrite length_link| |].
  - assert (nblocks (DIRENT * Z.of_nat k) DIRENT <= 1)%Z; [|lia]. unfold nblocks, DIRENT, BSIZE. Z.div_mod_to_equations. lia.
  - intros d' ip' Hp. rewrite decide_False by tauto. apply wp_ret. by eapply HQ.
Qed.

End Dir.

End FsDir.
