(* ===== verification/FsCache.v ===== *)
(** * The file system: the inode cache

    [iget] gives one entry per inode; [ilock] reads what [iupdate] wrote; the
    last [iput] of an inode without links frees it. *)
From S2P Require Export FsWrite FsTrunc.

Module FsCache.
Import Spin Locked Fs FsBase FsBlocks FsInode FsFile FsWrite FsTrunc.

Section Cache.
Context (me : nat) (pid : Z) (dev : Z).
Implicit Types (d : fsst) (ip : inode) (l : list inode).

(** The entry is in use for inode [inum] of [dev]. *)
Definition names (inum : Z) ip : Prop := (0 < i_ref ip)%Z /\ i_dev ip = dev /\ i_inum ip = inum.
Global Instance names_dec inum ip : Decision (names inum ip).
Proof. unfold names. apply _. Defined.

(** The scan finds the entry in use, or the first free one. *)
Lemma iget_scan_spec l : forall k inum empty,
  match iget_scan l k dev inum empty with
  | inl i => exists ip, k <= i /\ l !! (i - k) = Some ip /\ names inum ip
  | inr r => (forall j ip, l !! j = Some ip -> ~ names inum ip) /\
      match r with
      | Some i => empty = Some i \/ (empty = None /\ exists ip, k <= i /\ l !! (i - k) = Some ip /\ i_ref ip = 0%Z)
      | None => empty = None /\ forall j ip, l !! j = Some ip -> i_ref ip <> 0%Z
      end
  end.
Proof.
  induction l as [|ip l IH]; intros k inum empty; cbn [iget_scan].
  { split; [done|]. destruct empty; [by left|done]. }
  destruct (decide (0 < i_ref ip /\ i_dev ip = dev /\ i_inum ip = inum)%Z) as [H|H].
  { exists ip. rewrite Nat.sub_diag. done. }
  specialize (IH (S k) inum (match empty with Some e => Some e | None => if decide (i_ref ip = 0%Z) then Some k else None end)).
  destruct (iget_scan l (S k) dev inum _) as [i|r].
  - destruct IH as (jp & Hk & Hl & Hn). exists jp. split; [lia|]. split; [|done].
    replace (i - k) with (S (i - S k)) by lia. done.
  - destruct IH as [Hno Hr]. split; [intros [|j] jp Hj; [by injection Hj as <-|by eapply Hno]|]. destruct r as [i|].
    + destruct Hr as [Hr|(Hr & jp & Hk & Hl & Hz)].
      * destruct empty; [by left|]. case_decide as Hz; [|done]. injection Hr as <-. right. split; [done|]. exists ip. by rewrite Nat.sub_diag.
      * destruct empty; [done|]. right. split; [done|]. exists jp. split; [lia|]. replace (i - k) with (S (i - S k)) by lia. done.
    + destruct Hr as [Hr Hall]. destruct empty; [done|]. split; [done|]. case_decide; [done|].
      intros [|j] jp Hj; [by injection Hj as <-|by eapply Hall].
Qed.

(** The invariant of the cache: no inode has two entries. *)
Record icache_ok l : Prop := {
  u_ref ip : ip ∈ l -> (0 <= i_ref ip)%Z;
  u_uniq i j ip jp : l !! i = Some ip -> l !! j = Some jp -> (0 < i_ref ip)%Z -> (0 < i_ref jp)%Z ->
    i_dev ip = i_dev jp -> i_inum ip = i_inum jp -> i = j
}.

Lemma icache_insert l i ip :
  icache_ok l -> (0 <= i_ref ip)%Z ->
  (forall j jp, j <> i -> l !! j = Some jp -> (0 < i_ref jp)%Z -> (0 < i_ref ip)%Z -> i_dev jp = i_dev ip -> i_inum jp = i_inum ip -> False) ->
  icache_ok (<[i:=ip]> l).
Proof.
  intros [Hr Hu] H0 Hno. constructor.
  - intros jp [j Hj]%list_elem_of_lookup_1. apply list_lookup_insert_Some in Hj as [(-> & <- & _)|[_ Hj]]; [done|].
    apply Hr. by eapply list_elem_of_lookup_2.
  - intros j k jp kp Hj Hk Hrj Hrk Hd Hi.
    apply list_lookup_insert_Some in Hj as [(<- & <- & _)|[Hji Hj]]; apply list_lookup_insert_Some in Hk as [(<- & <- & _)|[Hki Hk]].
    + done.
    + destruct (Hno k kp); congruence || done.
    + destruct (Hno j jp); congruence || done.
    + by eapply Hu.
Qed.

(** A change that keeps the identity of an entry in use. *)
Lemma icache_update l i ip ip' :
  icache_ok l -> l !! i = Some ip -> i_dev ip' = i_dev ip -> i_inum ip' = i_inum ip -> (0 < i_ref ip)%Z -> (0 <= i_ref ip')%Z -> icache_ok (<[i:=ip']> l).
Proof.
  intros Hok Hi Hd Hn Hr Hr'. apply icache_insert; [done|done|]. intros j jp Hne Hj Hrj _ Ed En. apply Hne.
  eapply (u_uniq _ Hok); [exact Hj|exact Hi|done..|congruence|congruence].
Qed.

(** The entry [iget] returns: the one in use with another reference, or a free
    one for the inode, to be read by [ilock]. *)
Definition got d inum (i : nat) ip' : Prop :=
  exists ip, inodes d !! i = Some ip /\
    ((names inum ip /\ ip' = set_ref (i_ref ip + 1) ip) \/
     ((forall j jp, inodes d !! j = Some jp -> ~ names inum jp) /\ i_ref ip = 0%Z /\ ip' = set_valid false (set_ref 1 (set_id dev inum ip)))).

Lemma got_cache d inum i ip' : icache_ok (inodes d) -> got d inum i ip' -> icache_ok (<[i:=ip']> (inodes d)) /\ names inum ip'.
Proof.
  intros Hok (ip & Hi & [[(Hr & Hd & Hn) ->]|(Hno & Hr & ->)]).
  - split; [eapply icache_update; [done|exact Hi|done|done|done|cbn; lia]|]. unfold names. cbn. split; [lia|done].
  - split; [|done]. apply icache_insert; [done|done|]. cbn. intros j jp _ Hj Hrj _ Hd Hn. by apply (Hno j jp).
Qed.

(** ** [iget] and [idup] *)

Lemma wp_updi_held b i ip f d (Q : unit -> guarded fsst -> Prop) :
  inodes d !! i = Some ip -> Q tt (held me b (setnode i (f ip) d)) -> wp (updi i f) Q (held me b d).
Proof.
  intros Hi HQ. unfold updi. apply wp_bind. apply wp_getd. cbn [l_data held]. apply wp_bind. eapply wp_lift; [by apply rd_lookup|exact HQ].
Qed.

Lemma wp_iget b d inum (Q : nat -> guarded fsst -> Prop) :
  (exists j jp, inodes d !! j = Some jp /\ (names inum jp \/ i_ref jp = 0%Z)) ->
  (forall i ip', got d inum i ip' -> Q i (free b (setnode i ip' d))) ->
  wp (iget me dev inum) Q (free b d).
Proof.
  intros (j & jp & Hj & Hor) HQ. unfold iget. do 3 lk_step. pose proof (iget_scan_spec (inodes d) 0 inum None) as Hs.
  lk_step. destruct (iget_scan (inodes d) 0 dev inum None) as [i|[i|]].
  - destruct Hs as (ip & _ & Hi & Hn). rewrite Nat.sub_0_r in Hi. apply wp_bind. eapply wp_updi_held; [exact Hi|]. lk_steps.
    apply HQ. exists ip. split; [done|by left].
  - destruct Hs as (Hno & [?|(_ & ip & _ & Hi & Hz)]); [done|]. rewrite Nat.sub_0_r in Hi. apply wp_bind. eapply wp_updi_held; [exact Hi|]. lk_steps.
    apply HQ. exists ip. split; [done|by right].
  - destruct Hs as (Hno & _ & Hall). destruct Hor as [H|H]; [by destruct (Hno j jp)|by destruct (Hall j jp)].
Qed.

(** With every entry in use for another inode, [iget] panics. *)
Lemma iget_full b d inum :
  (forall j jp, inodes d !! j = Some jp -> ~ names inum jp /\ i_ref jp <> 0%Z) ->
  iget me dev inum (free b d) = Panic "iget: no inodes".
Proof.
  intros Hall. assert (wp (lk_acquire me) (fun _ s => s = held me b d) (free b d)) as Ha by (lk_steps; done).
  apply wp_Ret in Ha as ([] & s & Ha & ->). unfold iget. etransitivity; [apply stm_bind_Ret; exact Ha|]. cbv beta.
  etransitivity; [apply (stm_bind_Ret getd); reflexivity|]. cbn [l_data held].
  pose proof (iget_scan_spec (inodes d) 0 inum None) as Hs. destruct (iget_scan (inodes d) 0 dev inum None) as [i|[i|]]; [..|done].
  - destruct Hs as (ip & _ & Hi & Hn). by destruct (Hall _ _ Hi).
  - destruct Hs as (_ & [?|(_ & ip & _ & Hi & Hz)]); [done|]. by destruct (Hall _ _ Hi).
Qed.

Lemma wp_idup b d i ip (Q : nat -> guarded fsst -> Prop) :
  inodes d !! i = Some ip -> Q i (free b (setnode i (set_ref (i_ref ip + 1) ip) d)) -> wp (idup me i) Q (free b d).
Proof. intros Hi HQ. unfold idup. do 2 lk_step. lk_step. eapply wp_updi_held; [exact Hi|]. lk_steps. exact HQ. Qed.

(** ** [ilock] and [iunlock] *)

Lemma setnode_lookup i ip ip' d : inodes d !! i = Some ip -> inodes (setnode i ip' d) !! i = Some ip'.
Proof. intros H. cbn. apply list_lookup_insert_eq. by eapply lookup_lt_Some. Qed.
Lemma setnode_setnode i ip ip' d : setnode i ip' (setnode i ip d) = setnode i ip' d.
Proof. unfold setnode. cbn. by rewrite list_insert_insert_eq. Qed.

Lemma wp_lock_inode b d i ip (Q : unit -> guarded fsst -> Prop) :
  inodes d !! i = Some ip -> i_lock ip = None -> Q tt (free b (setnode i (set_ilock (Some pid) ip) d)) -> wp (lock_inode pid i) Q (free b d).
Proof. intros Hi Hl HQ. unfold lock_inode. apply wp_bind. eapply wp_rdi; [exact Hi|]. rewrite Hl. eapply wp_updi; [exact Hi|exact HQ]. Qed.

(** The entry as [ilock] leaves it. *)
Definition locked d ip : inode :=
  let ip := set_ilock (Some pid) ip in
  if i_valid ip then ip else set_valid true (of_dinode (disk_inode dev d (i_inum ip)) ip).

Lemma wp_ilock b d i ip (Q : unit -> guarded fsst -> Prop) :
  fs_wf dev d -> held_bufs d = ∅ -> inodes d !! i = Some ip -> i_dev ip = dev -> inum_ok d ip -> (1 <= i_ref ip)%Z -> i_lock ip = None ->
  (i_valid ip = false -> d_type (disk_inode dev d (i_inum ip)) <> 0%Z) ->
  Q tt (free b (setnode i (locked d ip) d)) -> wp (ilock pid i) Q (free b d).
Proof.
  intros Hw Hh Hi Hd Hin Hr Hl Ht HQ. pose proof (iblk_meta dev d ip Hw Hin) as Hm. pose proof (w_size _ _ Hw). pose proof (w_bmap _ _ Hw).
  unfold ilock. apply wp_bind. eapply wp_rdi; [exact Hi|]. rewrite decide_False by lia. apply wp_bind. eapply wp_lock_inode; [done..|].
  set (ip1 := set_ilock (Some pid) ip). assert (inodes (setnode i ip1 d) !! i = Some ip1) as Hi1 by (by eapply setnode_lookup).
  apply wp_bind. eapply wp_rdi; [exact Hi1|]. unfold locked in HQ. fold ip1 in HQ. change (i_valid ip1) with (i_valid ip) in *.
  destruct (i_valid ip); [by apply wp_ret|]. unfold load_inode. apply wp_bind. eapply wp_rdi; [exact Hi1|].
  apply wp_bind, wp_getd_free. change (i_dev ip1) with (i_dev ip). rewrite Hd. change (i_inum ip1) with (i_inum ip) in *.
  change (sb (setnode i ip1 d)) with (sb d). fold (iblk dev d ip). set (a := iblk dev d ip).
  apply wp_bind, wp_bread; [change (held_bufs _) with (held_bufs d); rewrite Hh; set_solver|unfold a; lia|].
  change (dk (setnode i ip1 d) a) with (dk d a). set (di := get_dinode _ (dk d a)). assert (di = disk_inode dev d (i_inum ip)) as Edi by done.
  apply wp_bind. eapply wp_updi; [exact Hi1|]. apply wp_bind, wp_brelse; [exact (lock_buf_in a d)|].
  set (s1 := set_held _ _). assert (s1 = setnode i (of_dinode di ip1) d) as ->.
  { unfold s1. apply fsst_ext; [done| |done|done|cbn; by rewrite list_insert_insert_eq].
    change (({[a]} ∪ held_bufs d) ∖ {[a]} = held_bufs d). apply held_release. rewrite Hh. set_solver. }
  apply wp_bind. eapply wp_updi; [by eapply setnode_lookup|]. apply wp_bind. eapply wp_rdi; [eapply setnode_lookup; by eapply setnode_lookup|].
  rewrite decide_False by (change (d_type di <> 0%Z); rewrite Edi; by apply Ht). apply wp_ret.
  match goal with |- Q tt (free b ?x) => change x with (setnode i (set_valid true (of_dinode di ip1)) (setnode i (of_dinode di ip1) d)) end.
  by rewrite setnode_setnode.
Qed.

Lemma wp_iunlock b d i ip (Q : unit -> guarded fsst -> Prop) :
  inodes d !! i = Some ip -> i_lock ip = Some pid -> (1 <= i_ref ip)%Z -> Q tt (free b (setnode i (set_ilock None ip) d)) -> wp (iunlock pid i) Q (free b d).
Proof.
  intros Hi Hl Hr HQ. unfold iunlock. apply wp_bind. eapply wp_rdi; [exact Hi|]. rewrite decide_False by (rewrite Hl; intros [?|?]; [done|lia]).
  eapply wp_updi; [exact Hi|exact HQ].
Qed.

(** ** [iput] *)

Lemma wp_updn b i ip f d (Q : unit -> guarded fsst -> Prop) :
  inodes d !! i = Some ip -> Q tt (free b (setnode i (f ip) d)) -> wp (updi i f) Q (free b d).
Proof. apply wp_updi. Qed.

(** What holds of an inode does not depend on its sleep lock. *)
Lemma inode_ok_lock d i ip lk : inode_ok dev i d ip -> inode_ok dev i (setnode i (set_ilock lk ip) d) (set_ilock lk ip).
Proof.
  intros [[Hw Hino Hn Hh Hs Hnh Ht] Hin He Hd]. constructor; [|done|done|done].
  constructor; [by apply node_wf|apply node_ino; by destruct Hino|by eapply setnode_lookup|done|done|done|done].
Qed.

(** Dropping a reference. *)
Lemma wp_unref b d i ip (Q : unit -> guarded fsst -> Prop) :
  inodes d !! i = Some ip -> Q tt (free b (setnode i (set_ref (i_ref ip - 1) (set_ilock None ip)) d)) ->
  wp (unlock_inode i ;; lk_acquire me ;; updi i (fun ip => set_ref (i_ref ip - 1) ip) ;; lk_release me) Q (free b d).
Proof.
  intros Hi HQ. apply wp_bind. eapply wp_updn; [exact Hi|]. do 2 lk_step. lk_step. eapply wp_updi_held; [by eapply setnode_lookup|].
  lk_step. rewrite setnode_setnode. exact HQ.
Qed.

(** Not the last reference to an inode without links: only the count changes. *)
Lemma wp_iput_keep b d i ip (Q : unit -> guarded fsst -> Prop) :
  inodes d !! i = Some ip -> i_lock ip = None -> (i_valid ip = false \/ i_nlink ip <> 0%Z \/ i_ref ip <> 1%Z) ->
  Q tt (free b (setnode i (set_ref (i_ref ip - 1) ip) d)) -> wp (iput me pid i) Q (free b d).
Proof.
  intros Hi Hl Hk HQ. unfold iput. apply wp_bind. eapply wp_lock_inode; [done..|]. set (ip1 := set_ilock (Some pid) ip).
  assert (inodes (setnode i ip1 d) !! i = Some ip1) as Hi1 by (by eapply setnode_lookup).
  assert (wp (unlock_inode i ;; lk_acquire me ;; updi i (fun ip => set_ref (i_ref ip - 1) ip) ;; lk_release me) Q (free b (setnode i ip1 d))) as Hend.
  { eapply wp_unref; [exact Hi1|]. rewrite setnode_setnode. unfold ip1. destruct ip; cbn in *; subst. exact HQ. }
  apply wp_bind. eapply wp_rdi; [exact Hi1|]. apply wp_bind.
  destruct (decide (i_valid ip1 = true /\ i_nlink ip1 = 0%Z)) as [[Hv Hn]|]; [|by apply wp_ret].
  lk_step. lk_step. lk_step. unfold rdi. apply wp_bind, wp_getd. cbn [l_data held]. eapply wp_lift; [apply rd_lookup; exact Hi1|].
  do 2 lk_step. rewrite decide_False; [by apply wp_ret|]. cbn in *. destruct Hk as [?|[?|?]]; congruence.
Qed.

(** The entry after the last reference is gone. *)
Definition dropped ip : inode :=
  set_ref 0 (set_ilock None (set_valid false (set_type 0 (set_size 0 (set_addrs (replicate 13 0%Z) ip))))).

(** The last reference to an inode without links frees its blocks and the inode. *)
Record iput_post (i : nat) d ip d' : Prop := {
  q_wf : fs_wf dev d';
  q_nodes : inodes d' = <[i:=dropped ip]> (inodes d);
  q_free : d_type (disk_inode dev d' (i_inum ip)) = 0%Z;
  q_bit x : (0 <= x)%Z -> allocated dev d' x = true <-> allocated dev d x = true /\ ~ owned dev d ip x;
  q_inodes inum : (0 <= inum < sb_ninodes (sb d))%Z -> inum <> i_inum ip -> disk_inode dev d' inum = disk_inode dev d inum;
  q_dk a : a <> bmap_blk dev d -> a <> iblk dev d ip -> dk d' a = dk d a
}.

Lemma iput_done i d ip d2 :
  let ip1 := set_ilock (Some pid) ip in
  let ip3 := set_type 0 (set_size 0 (set_addrs (replicate 13 0%Z) ip1)) in
  i_ref ip = 1%Z -> inode_ok dev i d ip -> trunc_post dev i (setnode i ip1 d) ip1 d2 ->
  iput_post i d ip (setnode i (set_ref (i_ref ip3 - 1) (set_ilock None (set_valid false ip3))) (iupdated dev ip3 (setnode i ip3 d2))).
Proof.
  intros ip1 ip3 Hr Hok Ht. pose proof (o_file _ _ _ _ Hok) as Hfile. pose proof (t_ok _ _ _ _ _ Ht) as Ho2.
  set (d3 := setnode i ip3 d2). assert (fs_wf dev d3) as Hw3 by (apply node_wf, Ho2).
  assert (inum_ok d3 ip3) as Hin by (unfold inum_ok; change (sb d3) with (sb d2); rewrite (t_sb _ _ _ _ _ Ht); apply Hok).
  assert (dinode_ok (to_dinode ip3)) as He.
  { destruct (o_enc _ _ _ _ Ho2) as [[_ Hsh] ? ? ?]. constructor; [|done..]. split; [unfold is_short; cbn; lia|exact Hsh]. }
  pose proof (iblk_meta dev d3 ip3 Hw3 Hin) as Hm. pose proof (iupdated_block dev ip3 d3 eq_refl Hw3 Hin) as Hl.
  assert (0 <= IBLOCK (i_inum ip3) (sb d3) < sb_bmapstart (sb d3))%Z as Hm' by (cbn in *; lia).
  assert (sb d3 = sb d) as Hsb by apply (t_sb _ _ _ _ _ Ht).
  constructor.
  - apply node_wf, meta_wf; done.
  - cbn. rewrite (t_nodes _ _ _ _ _ Ht). rewrite !list_insert_insert_eq. cbn. rewrite list_insert_insert_eq. unfold dropped. by rewrite Hr.
  - assert (on_disk dev (iupdated dev ip3 d3) ip3) as Hd by (by apply iupdated_on_disk).
    change (d_type (get_dinode (islot ip3) (dk (iupdated dev ip3 d3) (iblk dev (iupdated dev ip3 d3) ip3))) = 0%Z). by rewrite Hd.
  - intros x Hx. change (allocated dev (iupdated dev ip3 d3) x = true <-> allocated dev d x = true /\ ~ owned dev d ip x).
    unfold iupdated, iblk at 1. rewrite meta_allocated by done. by apply (t_bit _ _ _ _ _ Ht).
  - intros inum Hi Hne. change (disk_inode dev (iupdated dev ip3 d3) inum = disk_inode dev d inum).
    rewrite iupdated_other; [by apply (t_inodes _ _ _ _ _ Ht)|done|done|done|lia|done].
  - intros a Hb Hi. change (dk (iupdated dev ip3 d3) a = dk d a). unfold iupdated. rewrite logged_write_ne by (unfold iblk; by rewrite Hsb).
    by apply (t_dk _ _ _ _ _ Ht).
Qed.

Lemma wp_iput_last b d i ip (Q : unit -> guarded fsst -> Prop) :
  inode_ok dev i d ip -> i_lock ip = None -> i_valid ip = true -> i_nlink ip = 0%Z -> i_ref ip = 1%Z ->
  (forall d', iput_post i d ip d' -> Q tt (free b d')) -> wp (iput me pid i) Q (free b d).
Proof.
  intros Hok Hl Hv Hn Hr HQ. pose proof (f_node _ _ _ _ (o_file _ _ _ _ Hok)) as Hi. unfold iput.
  apply wp_bind. eapply wp_lock_inode; [done..|]. set (ip1 := set_ilock (Some pid) ip).
  assert (inodes (setnode i ip1 d) !! i = Some ip1) as Hi1 by (by eapply setnode_lookup).
  apply wp_bind. eapply wp_rdi; [exact Hi1|]. apply wp_bind. rewrite decide_True by done.
  lk_step. lk_step. lk_step. unfold rdi. apply wp_bind, wp_getd. cbn [l_data held]. eapply wp_lift; [apply rd_lookup; exact Hi1|].
  do 2 lk_step. rewrite decide_True by done. apply wp_bind. eapply (wp_itrunc dev i b _ ip1); [by apply inode_ok_lock|]. intros d2 Ht.
  pose proof (t_ok _ _ _ _ _ Ht) as Ho2. set (ip2 := set_size 0 _) in Ho2. set (ip3 := set_type 0 ip2).
  assert (inodes d2 !! i = Some ip2) as Hi2 by apply Ho2.
  apply wp_bind. eapply wp_updn; [exact Hi2|]. apply wp_bind.
  eapply (wp_iupdate dev i b (setnode i ip3 d2) ip3); [apply node_wf, Ho2|by eapply setnode_lookup|apply Ho2|apply Ho2| |].
  { change (held_bufs _) with (held_bufs d2). rewrite (f_held _ _ _ _ (o_file _ _ _ _ Ho2)). set_solver. }
  eapply wp_updn; [change (inodes (iupdated dev ip3 (setnode i ip3 d2))) with (inodes (setnode i ip3 d2)); by eapply setnode_lookup|].
  eapply wp_unref; [eapply setnode_lookup; change (inodes (iupdated dev ip3 (setnode i ip3 d2))) with (inodes (setnode i ip3 d2)); by eapply setnode_lookup|].
  rewrite setnode_setnode. apply HQ. by apply iput_done.
Qed.
End Cache.
End FsCache.
