(* ===== verification/FsPath.v ===== *)
(** * The file system: path names

    [skipelem] takes the elements of a path one by one; the reference is
    splitting the path at the slashes. *)
From S2P Require Export FsDir.

Module FsPath.
Import Fs FsBase FsFile FsDir.

(** The parts of a path between slashes, and those that are not empty. *)
Fixpoint split (p : list Z) : list (list Z) :=
  match p with
  | [] => [[]]
  | c :: p =>
      if decide (c = 47)%Z then [] :: split p
      else match split p with
           | w :: ws => (c :: w) :: ws
           | [] => [[c]]
           end
  end.
Definition elements (p : list Z) : list (list Z) := filter (fun w => w <> []) (split p).

Lemma elements_slash p : elements (47%Z :: p) = elements p.
Proof. unfold elements. cbn [split]. rewrite decide_True by done. by rewrite filter_cons_False by tauto. Qed.

Lemma elements_skip p : elements (skip_slashes p) = elements p.
Proof.
  induction p as [|c p IH]; [done|]. cbn [skip_slashes]. case_decide as E; [subst|done]. by rewrite IH, elements_slash.
Qed.

Lemma skip_head p : match skip_slashes p with [] => True | c :: _ => c <> 47%Z end.
Proof. induction p as [|c p IH]; [done|]. cbn [skip_slashes]. case_decide; done. Qed.

(** The characters of the elements are those of the path. *)
Lemma split_chars (Q : Z -> Prop) p : Forall Q p -> Forall (Forall Q) (split p).
Proof.
  induction 1 as [|c p Hc Hp IH]; cbn [split]; [by repeat constructor|]. case_decide; [by constructor|].
  destruct (split p); inversion IH; subst; repeat constructor; done.
Qed.
Lemma elements_chars (Q : Z -> Prop) p : Forall Q p -> Forall (Forall Q) (elements p).
Proof. intros H. apply Forall_forall. intros w Hw. apply list_elem_of_filter in Hw as [_ Hw]. revert w Hw. apply Forall_forall. by apply split_chars. Qed.

(** [element] is the first part. *)
Lemma element_split p : let '(e, r) := element p in Forall (fun c => c <> 47%Z) e /\ p = e ++ r /\
  match r with [] => split p = [e] | c :: r' => c = 47%Z /\ split p = e :: split r' end.
Proof.
  induction p as [|c p IH]; [done|]. cbn [element split]. case_decide as E.
  - subst. split; [done|]. done.
  - destruct (element p) as [e r]. destruct IH as (Hf & -> & Hr). split; [by constructor|]. split; [done|].
    destruct r as [|c' r']; [by rewrite Hr|]. destruct Hr as [-> ->]. done.
Qed.

Lemma elements_element p c q : skip_slashes p = c :: q ->
  let '(e, r) := element (c :: q) in e <> [] /\ Forall (fun c => c <> 47%Z) e /\ elements p = e :: elements (skip_slashes r).
Proof.
  intros Hp. pose proof (skip_head p) as Hh. rewrite Hp in Hh. pose proof (element_split (c :: q)) as Hs.
  destruct (element (c :: q)) as [e r] eqn:He. destruct Hs as (Hf & Ha & Hr).
  assert (e <> []) as Hne. { intros ->. cbn in He. case_decide; [done|]. by destruct (element q). }
  split; [done|]. split; [done|]. rewrite <- (elements_skip p), Hp. rewrite elements_skip. unfold elements at 1. destruct r as [|c' r'].
  - rewrite Hr. by rewrite filter_cons_True by done.
  - destruct Hr as [-> Hr]. rewrite Hr, filter_cons_True by done. by rewrite elements_slash.
Qed.

(** A path is used up when it has no more elements. *)
Lemma skip_nil p : skip_slashes p = [] <-> elements p = [].
Proof.
  split; [intros H; by rewrite <- elements_skip, H|]. intros H. destruct (skip_slashes p) as [|c q] eqn:E; [done|].
  pose proof (elements_element p c q E) as He. destruct (element (c :: q)). destruct He as (_ & _ & He). congruence.
Qed.

(** ** The name of an element *)

Lemma nm_prefix (l : list Z) (w : list Z) :
  length w <= DIRSIZ -> Forall (fun c => c <> 0%Z) w -> (forall k, k < length w -> byte_at l k = byte_at w k) ->
  (length w < DIRSIZ -> byte_at l (length w) = 0%Z) -> nm l = w.
Proof.
  intros Hl Hnz Hk Hz. unfold nm. destruct (decide (length w < DIRSIZ)) as [Hlt|Hge].
  - replace DIRSIZ with (length w + S (DIRSIZ - S (length w))) by lia.
    apply Strings.cstr_prefix; [done| |rewrite Z.add_0_l, mem_of_at; by apply Hz].
    intros k Hlk. rewrite Z.add_0_l, mem_of_at. by apply Hk.
  - apply Strings.cstr_padded; [lia|done|]. intros k Hlk. rewrite Z.add_0_l, mem_of_at. apply Hk. lia.
Qed.

Definition elem_name (e name : list Z) : list Z :=
  if decide (DIRSIZ <= length e) then splice 0 (take DIRSIZ e) name else splice (length e) [0%Z] (splice 0 e name).

Lemma length_elem_name e name : length name = DIRSIZ -> length (elem_name e name) = DIRSIZ.
Proof.
  intros Hl. unfold elem_name. case_decide; [rewrite length_splice; rewrite ?length_take; lia|].
  rewrite length_splice; rewrite length_splice; cbn [length]; lia.
Qed.

Lemma nm_elem e name : length name = DIRSIZ -> Forall (fun c => c <> 0%Z) e -> nm (elem_name e name) = take DIRSIZ e.
Proof.
  intros Hl Hnz. unfold elem_name. apply nm_prefix; [rewrite length_take; lia|by apply Forall_take|..]; rewrite length_take; case_decide as Hd.
  - intros k Hk. rewrite byte_at_splice by (rewrite length_take; lia). rewrite length_take, decide_True by lia. by rewrite Nat.sub_0_r.
  - intros k Hk. rewrite byte_at_take by lia. rewrite byte_at_splice by (rewrite length_splice; cbn; lia). cbn [length].
    rewrite decide_False by lia. rewrite byte_at_splice by lia. rewrite decide_True by lia. by rewrite Nat.sub_0_r.
  - lia.
  - intros Hk. rewrite byte_at_splice by (rewrite length_splice; cbn; lia). cbn [length]. rewrite decide_True by lia.
    by replace (_ - _) with 0%nat by lia.
Qed.

(** One step of the path. *)
Lemma skipelem_eq p name :
  skipelem p name =
    match elements p with
    | [] => None
    | e :: es => Some (skip_slashes (snd (element (skip_slashes p))), elem_name e name)
    end /\
  match elements p with
  | [] => True
  | e :: es => elements (snd (element (skip_slashes p))) = es /\ e <> [] /\ Forall (fun c => c <> 47%Z) e
  end.
Proof.
  unfold skipelem. destruct (skip_slashes p) as [|c q] eqn:E.
  - apply skip_nil in E as ->. done.
  - pose proof (elements_element p c q E) as He. destruct (element (c :: q)) as [e r]. destruct He as (Hne & Hf & ->). cbn [snd].
    by rewrite elements_skip.
Qed.
End FsPath.
