(* ===== verification/FsThms.v ===== *)
(** * The file system: theorems

    What a caller of fs.c sees of its operations, and a small concrete file
    system on which the theorems are instantiated. *)
From S2P Require Export FsWrite FsTrunc FsDir FsCache FsPath.

Module FsThms.
Import Spin Locked Fs FsBase FsBlocks FsInode FsFile FsWrite FsTrunc FsDir FsCache FsPath.

(** ** Writing and reading a file *)

(** C2. On an open file of a well-formed file system with enough free blocks,
    [writei] of [n] bytes at an offset within the file returns [n] and leaves a
    well-formed file system with the inode written to the disk.  [readi] of the
    same range then returns exactly these bytes, the rest of the file is as it
    was, the size is the larger of the old one and [off + n], the contents of an
    inode that shares no block with this one do not change, and neither does any
    other inode on the disk. *)
Theorem writei_readi dev i devread devwrite b d ip off n src :
  inode_ok dev i d ip -> (0 <= off <= i_size ip)%Z -> (0 <= n)%Z -> (off + n <= MAXFILE * BSIZE)%Z ->
  Z.of_nat (length src) = n -> (2 * nblocks off n <= Z.of_nat (nfree dev d))%Z ->
  exists d' ip',
    writei devwrite i src off n (free b d) = Ret (n, free b d') /\
    readi devread i off n (free b d') = Ret ((n, src), free b d') /\
    inode_ok dev i d' ip' /\
    i_size ip' = Z.max (i_size ip) (off + n) /\
    (forall x, (0 <= x < i_size ip)%Z -> ~ (off <= x < off + n)%Z -> fbyte dev d' ip' x = fbyte dev d ip x) /\
    (forall ipo x, ino_wf dev d ipo -> (forall y, owned dev d ip y -> ~ owned dev d ipo y) ->
      in_file (x / BSIZE) -> addr_of dev d ipo (x / BSIZE) <> 0%Z -> fbyte dev d' ipo x = fbyte dev d ipo x) /\
    (forall inum, (0 <= inum < sb_ninodes (sb d))%Z -> inum <> i_inum ip -> disk_inode dev d' inum = disk_inode dev d inum).
Proof.
  intros Hok Hoff Hn Hmax Hlen Hfree.
  assert (wp (writei devwrite i src off n) (fun r s => exists d' ip', r = n /\ s = free b d' /\ writei_post dev i off n src d ip d' ip') (free b d)) as Hw.
  { eapply wp_writei; [done..|]. eauto. }
  apply wp_Ret in Hw as (r & s & Hr & d' & ip' & -> & -> & Hp). exists d', ip'.
  pose proof (p_size _ _ _ _ _ _ _ _ _ Hp) as Hs. split_and!; [done| |apply Hp|done| |..].
  - assert (wp (readi devread i off n) (fun r s => r = (n, src) /\ s = free b d') (free b d')) as Hrd.
    { eapply wp_readi; [apply Hp|lia|lia|unfold MAXFILE, NDIRECT, NINDIRECT, BSIZE in *; lia|]. cbv zeta.
      replace (Z.min n (i_size ip' - off)) with n by lia. split; [|done]. f_equal. eapply written_bytes; [lia|lia|done|done]. }
    by apply wp_Ret in Hrd as (? & ? & ? & -> & ->).
  - intros x Hx Hnx. rewrite (p_bytes _ _ _ _ _ _ _ _ _ Hp) by lia. by rewrite decide_False.
  - intros ipo x Hi Hd Hk Ha. eapply write_other; [apply Hok|done..].
  - intros inum Hi Hne. by apply (p_inodes _ _ _ _ _ _ _ _ _ Hp).
Qed.

(** ** A concrete file system *)

(** 40 blocks: the boot and super blocks, inode blocks 2 and 3, the bitmap in 4,
    and no inode has a block yet.  Inode 2 is empty, of type [t] with [l] links;
    it is entry 0 of the cache, and entry 1 is free. *)
Definition demo_sb : superblock := mkSb 40 35 16 0 2 2 4.
Definition demo_node (t l : Z) : inode := mkInode 1 2 1 None true t 0 0 l 0 (replicate 13 0%Z).
Definition demo_free : inode := mkInode 0 0 0 None false 0 0 0 0 0 (replicate 13 0%Z).
Definition demo_dk (t l : Z) (a : Z * Z) : block :=
  if decide (a = (1, 4)%Z) then 31%Z :: replicate 511 0%Z
  else if decide (a = (1, 2)%Z) then put_dinode 2 (to_dinode (demo_node t l)) (replicate 512 0%Z)
  else replicate 512 0%Z.
Definition demo_of (t l : Z) : fsst := mkFs (demo_dk t l) ∅ ∅ demo_sb [demo_node t l; demo_free].

Lemma demo_wf t l : fs_wf 1 (demo_of t l).
Proof.
  constructor; cbn.
  - unfold Bio.FSSIZE; lia.
  - lia.
  - intros x Hx. unfold demo_dk. repeat case_decide; [done| |done]. by apply length_put_dinode; [|rewrite length_replicate|lia].
  - intros x Hx. assert (x = 0 \/ x = 1 \/ x = 2 \/ x = 3 \/ x = 4)%Z as H by lia.
    destruct_or! H; subst; vm_compute; reflexivity.
  - intros inum Hi. unfold IBLOCK, IPB, BSIZE. cbn. Z.div_mod_to_equations; lia.
Qed.

Lemma demo_ok t l : is_short t -> is_short l -> t <> T_DEV -> inode_ok 1 0 (demo_of t l) (demo_node t l).
Proof.
  intros Ht Hl Hd. assert (dinode_ok (to_dinode (demo_node t l))) as He.
  { constructor; cbn; [unfold is_short in *; lia|unfold is_uint; lia|done|].
    apply (Forall_replicate is_uint 13 0%Z). unfold is_uint. lia. }
  constructor; [|unfold inum_ok; cbn; lia|done|].
  - constructor; [apply demo_wf|by apply ino_wf_empty|done|done|cbn; unfold MAXFILE, NDIRECT, NINDIRECT, BSIZE; lia| |done].
    intros k Hk Hn. cbn in Hn. unfold BSIZE in Hn. lia.
  - unfold on_disk. change (dk (demo_of t l) (iblk 1 (demo_of t l) (demo_node t l))) with (put_dinode 2 (to_dinode (demo_node t l)) (replicate 512 0%Z)).
    apply get_put_dinode; [done|by rewrite length_replicate|lia].
Qed.

Lemma demo_nfree t l : nfree 1 (demo_of t l) = 35.
Proof. vm_compute. reflexivity. Qed.

(** An empty file. *)
Notation demo := (demo_of T_FILE 1).
Notation demo_ip := (demo_node T_FILE 1).
Lemma demo_file_ok : inode_ok 1 0 demo demo_ip.
Proof. apply demo_ok; unfold is_short, T_FILE, T_DEV; lia. Qed.

(** Three bytes written to the empty file. *)
Lemma writei_readi_witness : exists d',
  writei (fun _ => None) 0 [104; 105; 10]%Z 0 3 (free true demo) = Ret (3%Z, free true d') /\
  readi (fun _ => None) 0 0 3 (free true d') = Ret ((3%Z, [104; 105; 10]%Z), free true d').
Proof.
  destruct (writei_readi 1 0 (fun _ => None) (fun _ => None) true demo demo_ip 0 3 [104; 105; 10]%Z) as (d' & ip' & H1 & H2 & _).
  - apply demo_file_ok.
  - cbn. lia.
  - lia.
  - unfold MAXFILE, NDIRECT, NINDIRECT, BSIZE. lia.
  - done.
  - rewrite demo_nfree. vm_compute. discriminate.
  - exists d'. exact (conj H1 H2).
Defined.


(** ** Freeing an inode *)

(** C15. Dropping the last reference to an inode without links frees it:
    [iput] makes the inode free on the disk, frees exactly the blocks the inode
    had, direct, indirect and the indirect block, and leaves its cache entry
    unused.  No other block but the bitmap and the inode's, and no other inode,
    changes. *)
Theorem iput_frees_inode me pid dev i b d ip :
  inode_ok dev i d ip -> i_lock ip = None -> i_valid ip = true -> i_nlink ip = 0%Z -> i_ref ip = 1%Z ->
  exists d',
    iput me pid i (free b d) = Ret (tt, free b d') /\
    fs_wf dev d' /\ inodes d' = <[i:=dropped ip]> (inodes d) /\
    d_type (disk_inode dev d' (i_inum ip)) = 0%Z /\
    (forall x, (0 <= x)%Z -> allocated dev d' x = true <-> allocated dev d x = true /\ ~ owned dev d ip x) /\
    (forall inum, (0 <= inum < sb_ninodes (sb d))%Z -> inum <> i_inum ip -> disk_inode dev d' inum = disk_inode dev d inum) /\
    (forall a, a <> bmap_blk dev d -> a <> iblk dev d ip -> dk d' a = dk d a).
Proof.
  intros Hok Hl Hv Hn Hr.
  assert (wp (iput me pid i) (fun _ s => exists d', s = free b d' /\ iput_post dev i d ip d') (free b d)) as Hw.
  { eapply wp_iput_last; [done..|]. eauto. }
  apply wp_Ret in Hw as ([] & s & Hs & d' & -> & Hp). exists d'. split; [done|]. destruct Hp. done.
Qed.

(** The last reference to the empty inode, without links. *)
Lemma iput_frees_inode_witness : exists d',
  iput 0 1 0 (free true (demo_of T_FILE 0)) = Ret (tt, free true d') /\ d_type (disk_inode 1 d' 2) = 0%Z.
Proof.
  destruct (iput_frees_inode 0 1 1 0 true (demo_of T_FILE 0) (demo_node T_FILE 0)) as (d' & H1 & _ & _ & H2 & _).
  - apply demo_ok; unfold is_short, T_FILE, T_DEV; lia.
  - reflexivity.
  - reflexivity.
  - reflexivity.
  - reflexivity.
  - exists d'. exact (conj H1 H2).
Defined.

(** ** Directories *)

(** C13. A directory behaves as a map from names to inode numbers.  [dirlink] of
    a name that is not there returns 0 and leaves a well-formed directory in
    which [dirlookup] of the name gets inode [inum], and [dirlookup] of any
    other name gives what it gave before.  Names are compared up to [DIRSIZ]
    characters. *)
Theorem dirlink_dirlookup me pid devread devwrite dev i b d ip name inum :
  inode_ok dev i d ip -> dir_ok dev i d ip -> lookup_name (entries dev d ip) 0 name = None ->
  is_bytes name -> (0 < inum < 65536)%Z -> (i_size ip + DIRENT <= MAXFILE * BSIZE)%Z -> 2 <= nfree dev d ->
  exists d' ip' k,
    dirlink me pid devread devwrite i name inum (free b d) = Ret (0%Z, free b d') /\
    inode_ok dev i d' ip' /\ dir_ok dev i d' ip' /\
    forall name', dirlookup me devread i name' (free b d') =
      (if decide (nm name' = nm name) then found dev me (Some (inum, k))
       else found dev me (lookup_name (entries dev d ip) 0 name')) (free b d').
Proof.
  intros Hok Hd Hno Hb Hi Hmax Hfree. set (k := find_slot (entries dev d ip)).
  assert (wp (dirlink me pid devread devwrite i name inum) (fun r s => exists d' ip', r = 0%Z /\ s = free b d' /\
     writei_post dev i (DIRENT * Z.of_nat k) DIRENT (encode_dirent inum (namecpy name)) d ip d' ip') (free b d)) as Hw.
  { eapply wp_dirlink; [done..|]. eauto. }
  apply wp_Ret in Hw as (r & s & Hs & d' & ip' & -> & -> & Hp). exists d', ip', k. split; [done|]. split; [apply Hp|].
  pose proof (link_dir dev i d ip d' ip' inum name Hd Hp) as Hd'. split; [done|]. intros name'.
  rewrite (dirlookup_eq dev i me devread b d' ip' name' Hd'). rewrite (link_entries dev i d ip d' ip' inum name Hd Hi Hp).
  pose proof (nm_namecpy name Hb) as Hnm. case_decide as E.
  - assert (lookup_name (entries dev d ip) 0 name' = None) as Hno' by (by rewrite (lookup_name_nm _ _ name name')).
    rewrite lookup_put_same; [done|lia|congruence|done].
  - rewrite lookup_put_other; [done|congruence].
Qed.

Lemma dirlink_dirlookup_witness : exists d' ip' k,
  dirlink 0 1 (fun _ => None) (fun _ => None) 0 [97; 0]%Z 5 (free true (demo_of T_DIR 1)) = Ret (0%Z, free true d') /\
  dirlookup 0 (fun _ => None) 0 [97; 0]%Z (free true d') = found 1 0 (Some (5%Z, k)) (free true d') /\ dir_ok 1 0 d' ip'.
Proof.
  destruct (dirlink_dirlookup 0 1 (fun _ => None) (fun _ => None) 1 0 true (demo_of T_DIR 1) (demo_node T_DIR 1) [97; 0]%Z 5)
    as (d' & ip' & k & H1 & _ & H2 & H3).
  - apply demo_ok; unfold is_short, T_DIR, T_DEV; lia.
  - constructor; [apply (o_file 1 0), demo_ok; unfold is_short, T_DIR, T_DEV; lia|reflexivity|reflexivity].
  - reflexivity.
  - repeat constructor; lia.
  - lia.
  - vm_compute. discriminate.
  - rewrite demo_nfree. lia.
  - exists d', ip', k. split; [exact H1|]. split; [|exact H2]. specialize (H3 [97; 0]%Z). rewrite decide_True in H3 by reflexivity. exact H3.
Defined.

(** ** The inode cache *)

(** [iget] keeps one cache entry per inode.  It returns the entry that is in
    use for the inode with one more reference and nothing else changed, so two
    callers share it, or, when there is none, an unused entry marked to be read
    from the disk.  Only that entry changes; with every entry in use for other
    inodes it panics. *)
Theorem iget_unique me dev b d inum :
  icache_ok (inodes d) ->
  (exists i ip', iget me dev inum (free b d) = Ret (i, free b (setnode i ip' d)) /\ got dev d inum i ip' /\
     names dev inum ip' /\ icache_ok (<[i:=ip']> (inodes d)) /\
     forall j jp, <[i:=ip']> (inodes d) !! j = Some jp -> names dev inum jp -> j = i) \/
  (iget me dev inum (free b d) = Panic "iget: no inodes" /\ forall j jp, inodes d !! j = Some jp -> (0 < i_ref jp)%Z /\ ~ names dev inum jp).
Proof.
  intros Hok. destruct (list_exist_dec (fun jp => names dev inum jp \/ i_ref jp = 0%Z) (inodes d)) as [Hex|Hno].
  { intros x. apply _. }
  - left. destruct Hex as (jp & Hin & Hor). apply list_elem_of_lookup_1 in Hin as [j Hj].
    assert (wp (iget me dev inum) (fun i s => exists ip', s = free b (setnode i ip' d) /\ got dev d inum i ip') (free b d)) as Hw.
    { apply wp_iget; [eauto|]. intros i ip' Hg. eauto. }
    apply wp_Ret in Hw as (i & s & Hs & ip' & -> & Hg). destruct (got_cache dev d inum i ip' Hok Hg) as [Hc Hn].
    exists i, ip'. split_and!; [done..|]. intros k kp Hk (Hr & Hd & Hi). pose proof Hg as (ip & Hip & _).
    eapply (u_uniq _ Hc); [exact Hk|apply list_lookup_insert_eq; by eapply lookup_lt_Some|done|apply Hn|..]; destruct Hn as (_ & ? & ?); congruence.
  - right. assert (forall j jp, inodes d !! j = Some jp -> ~ names dev inum jp /\ i_ref jp <> 0%Z) as Hall.
    { intros j jp Hj. apply list_elem_of_lookup_2 in Hj. split; intros H; apply Hno; exists jp; auto. }
    split; [by apply iget_full|]. intros j jp Hj. destruct (Hall j jp Hj). split; [|done].
    pose proof (u_ref _ Hok jp (list_elem_of_lookup_2 _ _ _ Hj)). lia.
Qed.

(** Inode 2, which is in the cache, and inode 3, which is not. *)
Lemma iget_unique_witness :
  iget 0 1 2 (free true demo) = Ret (0, free true (setnode 0 (set_ref 2 demo_ip) demo)) /\
  exists ip', iget 0 1 3 (free true demo) = Ret (1, free true (setnode 1 ip' demo)) /\ i_valid ip' = false.
Proof.
  assert (icache_ok (inodes demo)) as Hok.
  { constructor.
    - intros ip Hip. repeat (apply elem_of_cons in Hip as [->|Hip]; [cbn; lia|]). by apply elem_of_nil in Hip.
    - intros [|[|]] [|[|]] ip jp Hi Hj Hr Hr' _ _; cbn in *; simplify_eq; cbn in *; lia. }
  split; [destruct (iget_unique 0 1 true demo 2 Hok) as [(i & ip' & H & _)|[H _]]|destruct (iget_unique 0 1 true demo 3 Hok) as [(i & ip' & H & _)|[H _]]];
    pose proof H as H'; vm_compute in H'; try discriminate H'; clear H H'.
  - reflexivity.
  - eexists. split; reflexivity.
Defined.

(** ** Paths *)

(** [skipelem] walks a path element by element: it fails exactly when
    nothing but slashes is left, and otherwise stores the next element, cut to
    [DIRSIZ] characters, in [name] and returns a path whose elements are the
    remaining ones; the returned path is empty exactly when there are none, the
    test [nameiparent] makes. *)
Theorem skipelem_elements path name :
  length name = DIRSIZ -> Forall (fun c => c <> 0%Z) path ->
  match elements path with
  | [] => skipelem path name = None
  | e :: es => exists rest name', skipelem path name = Some (rest, name') /\ elements rest = es /\
      (rest = [] <-> es = []) /\ length name' = DIRSIZ /\ nm name' = take DIRSIZ e
  end.
Proof.
  intros Hl Hnz. destruct (skipelem_eq path name) as [E H]. pose proof (elements_chars _ path Hnz) as Hc.
  destruct (elements path) as [|e es]; [done|]. destruct H as (Hes & _ & _). apply Forall_cons in Hc as [Hc _].
  do 2 eexists. split; [exact E|]. rewrite elements_skip. split; [done|]. rewrite skip_nil, Hes. split; [done|].
  split; [by apply length_elem_name|by apply nm_elem].
Qed.

Lemma skipelem_elements_witness :
  exists rest name', skipelem [47; 97; 47; 47; 98; 98; 47]%Z (replicate 14 1%Z) = Some (rest, name') /\ elements rest = [[98; 98]%Z] /\ nm name' = [97%Z].
Proof.
  destruct (skipelem_elements [47; 97; 47; 47; 98; 98; 47]%Z (replicate 14 1%Z)) as (rest & name' & H1 & H2 & _ & _ & H3).
  - reflexivity.
  - repeat constructor; discriminate.
  - exists rest, name'. exact (conj H1 (conj H2 H3)).
Defined.

End FsThms.
