(* ===== verification/FileDefs.v ===== *)
(** * Open files: definitions

    Models [src/xv6-public/file.c] with [struct file] of [file.h], and
    [pipealloc] of [pipe.c].  The state joins the parts the code works on: the
    file system, the file table, the pipes by the address of their page, the
    page allocator, and of the current process its open files, its working
    directory and its memory.  The log appears as the number of operations of
    this process that are open and the blocks each ended one has logged. *)
From S2P Require Export FsDefs Pipe Kalloc Syscall.

Module File.
Import Spin Locked.

Definition NFILE : nat := 100.
Definition NOFILE : nat := 16.

Inductive ftype := FD_NONE | FD_PIPE | FD_INODE.
Global Instance ftype_eq_dec : EqDecision ftype.
Proof. solve_decision. Defined.

(** [struct file]. *)
Record file := mkFile {
  f_type : ftype;
  f_ref : Z;
  f_readable : bool;
  f_writable : bool;
  f_pipe : Z;
  f_ip : nat;
  f_off : Z
}.
Definition set_fref r f := mkFile (f_type f) r (f_readable f) (f_writable f) (f_pipe f) (f_ip f) (f_off f).
Definition set_ftype t f := mkFile t (f_ref f) (f_readable f) (f_writable f) (f_pipe f) (f_ip f) (f_off f).
Definition set_off o f := mkFile (f_type f) (f_ref f) (f_readable f) (f_writable f) (f_pipe f) (f_ip f) o.

Record sys := mkSys {
  y_fs : guarded Fs.fsst;
  y_ft : guarded (list file);
  y_pipes : gmap Z (guarded Pipe.pipe);
  y_kmem : guarded Kalloc.kmem;
  y_ofile : list (option nat);
  y_cwd : nat;
  y_mem : Z -> Z;
  y_outstanding : nat;
  y_ops : list (gset (Z * Z))
}.
Definition with_fs v (s : sys) := mkSys v (y_ft s) (y_pipes s) (y_kmem s) (y_ofile s) (y_cwd s) (y_mem s) (y_outstanding s) (y_ops s).
Definition with_ft v (s : sys) := mkSys (y_fs s) v (y_pipes s) (y_kmem s) (y_ofile s) (y_cwd s) (y_mem s) (y_outstanding s) (y_ops s).
Definition with_pipes v (s : sys) := mkSys (y_fs s) (y_ft s) v (y_kmem s) (y_ofile s) (y_cwd s) (y_mem s) (y_outstanding s) (y_ops s).
Definition with_kmem v (s : sys) := mkSys (y_fs s) (y_ft s) (y_pipes s) v (y_ofile s) (y_cwd s) (y_mem s) (y_outstanding s) (y_ops s).
Definition with_ofile v (s : sys) := mkSys (y_fs s) (y_ft s) (y_pipes s) (y_kmem s) v (y_cwd s) (y_mem s) (y_outstanding s) (y_ops s).
Definition with_cwd v (s : sys) := mkSys (y_fs s) (y_ft s) (y_pipes s) (y_kmem s) (y_ofile s) v (y_mem s) (y_outstanding s) (y_ops s).
Definition with_mem v (s : sys) := mkSys (y_fs s) (y_ft s) (y_pipes s) (y_kmem s) (y_ofile s) (y_cwd s) v (y_outstanding s) (y_ops s).
Definition with_op n o (s : sys) := mkSys (y_fs s) (y_ft s) (y_pipes s) (y_kmem s) (y_ofile s) (y_cwd s) (y_mem s) n o.

Definition ym A := stm sys A.
Definition tm A := stm (guarded (list file)) A.

(** Running a component's operation on its part of the state.  [log_write] panics
    when no operation is open; the blocks logged are empty then. *)
Definition in_fs {A} (m : Fs.fm A) : ym A := fun s =>
  '(a, g) ← m (y_fs s);
  match y_outstanding s with
  | O => if decide (Fs.logged (l_data g) = Fs.logged (l_data (y_fs s))) then Ret (a, with_fs g s) else Panic "log_write outside of trans"
  | S _ => Ret (a, with_fs g s)
  end.
Definition in_ft {A} (m : tm A) : ym A := fun s => '(a, g) ← m (y_ft s); Ret (a, with_ft g s).
Definition in_kmem {A} (m : Kalloc.km A) : ym A := fun s => '(a, g) ← m (y_kmem s); Ret (a, with_kmem g s).
Definition in_pipe {A} (p : Z) (m : Pipe.pm A) : ym A := fun s =>
  match y_pipes s !! p with
  | None => Undef "pipe: the page is not a pipe"
  | Some g => '(a, g) ← m g; Ret (a, with_pipes (<[p:=g]> (y_pipes s)) s)
  end.

(** [begin_op] and [end_op] as this process sees them; the commit of the last
    operation writes the blocks it has logged. *)
Definition begin_op : ym unit := fun s => Ret (tt, with_op (S (y_outstanding s)) (y_ops s) s).
Definition end_op : ym unit := fun s =>
  match y_outstanding s with
  | O => Undef "end_op without begin_op"
  | S O =>
      let d := l_data (y_fs s) in
      Ret (tt, with_op 0 (y_ops s ++ [Fs.logged d]) (with_fs (mkL (l_lock (y_fs s)) (l_cpu (y_fs s)) (Fs.set_logged ∅ d)) s))
  | S n => Ret (tt, with_op n (y_ops s) s)
  end.

Section Ops.
(** The CPU, the process and whether it has been killed, the end of the kernel
    and the devices. *)
Context (me : nat) (pid : nat) (killed : bool) (kend : Z).
Context (devread : Z -> option (nat -> Z -> Fs.fm (Z * list Z))).
Context (devwrite : Z -> option (nat -> list Z -> Z -> Fs.fm Z)).

Definition ilock (i : nat) : ym unit := in_fs (Fs.ilock (Z.of_nat pid) i).
Definition iunlock (i : nat) : ym unit := in_fs (Fs.iunlock (Z.of_nat pid) i).
Definition iput (i : nat) : ym unit := in_fs (Fs.iput me (Z.of_nat pid) i).
Definition iunlockput (i : nat) : ym unit := in_fs (Fs.iunlockput me (Z.of_nat pid) i).

(** The entry a [struct file*] points to, and assignments to it. *)
Definition fentry (f : nat) : tm file := fun s => v ← rd (l_data s) f; Ret (v, s).
Definition rdf (f : nat) : ym file := in_ft (fentry f).
Definition updf (f : nat) (g : file -> file) : ym unit :=
  in_ft (v ← fentry f; d ← getd; setd (<[f:=g v]> d)).

(** ** The file table *)

Fixpoint find_file (l : list file) (k : nat) : option nat :=
  match l with
  | [] => None
  | f :: l => if decide (f_ref f = 0)%Z then Some k else find_file l (S k)
  end.

Definition filealloc : ym (option nat) :=
  in_ft (
    lk_acquire me ;;
    d ← getd;
    match find_file d 0 with
    | Some k => setd (alter (set_fref 1) k d) ;; lk_release me ;; mret (Some k)
    | None => lk_release me ;; mret None
    end).

Definition filedup (k : nat) : ym nat :=
  in_ft (
    lk_acquire me ;;
    d ← getd;
    f ← fentry k;
    if decide (f_ref f < 1)%Z then panic "filedup"
    else setd (<[k:=set_fref (f_ref f + 1) f]> d) ;; lk_release me ;; mret k).

(** The part of [fileclose] under the lock: a copy of the file when this was
    the last reference. *)
Definition fileclose_drop (k : nat) : ym (option file) :=
  in_ft (
    lk_acquire me ;;
    d ← getd;
    f ← fentry k;
    if decide (f_ref f < 1)%Z then panic "fileclose"
    else
      let f := set_fref (f_ref f - 1) f in
      if decide (0 < f_ref f)%Z then setd (<[k:=f]> d) ;; lk_release me ;; mret None
      else setd (<[k:=set_ftype FD_NONE (set_fref 0 f)]> d) ;; lk_release me ;; mret (Some f)).

(** [pipeclose]; its [kfree] gives the page back. *)
Definition pipeclose (p : Z) (writable : bool) : ym unit :=
  in_pipe p (Pipe.pipeclose me writable) ;;
  s ← get;
  match y_pipes s !! p with
  | Some g =>
      if Pipe.freed (l_data g) then
        modify (with_pipes (delete p (y_pipes s))) ;; in_kmem (Kalloc.kfree kend me p)
      else mret tt
  | None => mret tt
  end.

Definition fileclose (k : nat) : ym unit :=
  ff ← fileclose_drop k;
  match ff with
  | None => mret tt
  | Some ff =>
      match f_type ff with
      | FD_PIPE => pipeclose (f_pipe ff) (f_writable ff)
      | FD_INODE => begin_op ;; iput (f_ip ff) ;; end_op
      | FD_NONE => mret tt
      end
  end.

(** ** Reading and writing *)

(** [None] is -1. *)
Definition filestat (k : nat) : ym (option Fs.stat) :=
  f ← rdf k;
  match f_type f with
  | FD_INODE =>
      ilock (f_ip f) ;;
      ip ← in_fs (Fs.rdi (f_ip f));
      iunlock (f_ip f) ;;
      mret (Some (Fs.stati ip))
  | _ => mret None
  end.

(** The result of a read with the bytes stored, or asleep in a pipe. *)
Inductive rd_res := RdDone (r : Z) (bytes : list Z) | RdSleep.
Inductive wr_res := WrDone (r : Z) | WrSleep (rest : list Z).

Definition fileread (k : nat) (n : Z) : ym rd_res :=
  f ← rdf k;
  if negb (f_readable f) then mret (RdDone (-1) [])
  else match f_type f with
  | FD_PIPE =>
      r ← in_pipe (f_pipe f) (Pipe.piperead me pid killed (Z.to_nat n));
      mret (match r with
            | Pipe.RDone l => RdDone (Z.of_nat (length l)) l
            | Pipe.RFail => RdDone (-1) []
            | Pipe.RSleep => RdSleep
            end)
  | FD_INODE =>
      ilock (f_ip f) ;;
      '(r, bytes) ← in_fs (Fs.readi devread (f_ip f) (f_off f) n);
      (if decide (0 < r)%Z then updf k (fun f => set_off (uint32 (f_off f + r)) f) else mret tt) ;;
      iunlock (f_ip f) ;;
      mret (RdDone r bytes)
  | FD_NONE => panic "fileread"
  end.

(** The largest write of one operation. *)
Definition max_write : Z := ((Log.MAXOPBLOCKS - 1 - 1 - 2) / 2 * 512)%Z.

(** The loop of [filewrite]; it returns the final [i]. *)
Fixpoint filewrite_loop (fuel : nat) (k : nat) (addr : list Z) (i n : Z) : ym Z :=
  if decide (i < n)%Z then
    match fuel with
    | O => hang "filewrite"
    | S fuel =>
        let n1 := if decide (max_write < n - i)%Z then max_write else (n - i)%Z in
        f ← rdf k;
        begin_op ;;
        ilock (f_ip f) ;;
        r ← in_fs (Fs.writei devwrite (f_ip f) (take (Z.to_nat n1) (drop (Z.to_nat i) addr)) (f_off f) n1);
        (if decide (0 < r)%Z then updf k (fun f => set_off (uint32 (f_off f + r)) f) else mret tt) ;;
        iunlock (f_ip f) ;;
        end_op ;;
        if decide (r < 0)%Z then mret i
        else if decide (r <> n1) then panic "short filewrite"
        else filewrite_loop fuel k addr (i + r) n
    end
  else mret i.

(** [addr] are the [n] bytes to write. *)
Definition filewrite (k : nat) (addr : list Z) (n : Z) : ym wr_res :=
  f ← rdf k;
  if negb (f_writable f) then mret (WrDone (-1))
  else match f_type f with
  | FD_PIPE =>
      r ← in_pipe (f_pipe f) (Pipe.pipewrite me pid killed addr);
      mret (match r with
            | Pipe.WDone => WrDone n
            | Pipe.WFail _ => WrDone (-1)
            | Pipe.WSleep rest => WrSleep rest
            end)
  | FD_INODE =>
      i ← filewrite_loop (Z.to_nat n) k addr 0 n;
      mret (WrDone (if decide (i = n) then n else (-1)%Z))
  | FD_NONE => panic "filewrite"
  end.

(** ** [pipealloc] *)

(** The files of a new pipe, or [None] for -1 with everything released. *)
Definition pipe_file (readable writable : bool) (p : Z) (f : file) : file :=
  mkFile FD_PIPE (f_ref f) readable writable p (f_ip f) (f_off f).

Definition pipealloc_bad (f0 f1 : option nat) : ym (option (nat * nat)) :=
  (match f0 with Some f0 => fileclose f0 | None => mret tt end) ;;
  (match f1 with Some f1 => fileclose f1 | None => mret tt end) ;;
  mret None.

Definition pipealloc : ym (option (nat * nat)) :=
  f0 ← filealloc;
  match f0 with
  | None => pipealloc_bad None None
  | Some f0 =>
      f1 ← filealloc;
      match f1 with
      | None => pipealloc_bad (Some f0) None
      | Some f1 =>
          p ← in_kmem (Kalloc.kalloc me);
          if decide (p = 0)%Z then pipealloc_bad (Some f0) (Some f1)
          else
            s ← get;
            let page := (fun x => Kalloc.mem (l_data (y_kmem s)) (p + x)%Z) <$> seqZ 0 Pipe.PIPESIZE in
            modify (with_pipes (<[p:=mkL initlock (l_cpu (y_kmem s)) (Pipe.pipe_init page)]> (y_pipes s))) ;;
            updf f0 (pipe_file true false p) ;;
            updf f1 (pipe_file false true p) ;;
            mret (Some (f0, f1))
      end
  end.
End Ops.
End File.
