(* ===== verification/FileThms.v ===== *)
(** * Open files: theorems

    A write through a file descriptor: what it leaves in the file, and that no
    transaction of it is larger than the log lets it be. *)
From S2P Require Export FileDefs FsThms FsCache.

Module FileThms.
Import Spin Locked File.
Import (hints) Fs.
Import FsBase FsBlocks FsInode FsFile FsWrite FsTrunc FsCache.

Section Rules.
Context (P : gmap Z (guarded Pipe.pipe)) (K : guarded Kalloc.kmem) (OF : list (option nat)) (C : nat) (M : Z -> Z).
Notation S fs ft o ops := (mkSys fs ft P K OF C M o ops).

Lemma wp_in_fs {A} (m : Fs.fm A) fs ft o ops (Q : A -> sys -> Prop) :
  o <> 0 -> wp m (fun a g => Q a (S g ft o ops)) fs -> wp (in_fs m) Q (S fs ft o ops).
Proof.
  intros Ho H. apply wp_Ret in H as (a & g & Hm & HQ). unfold wp, in_fs. cbn [y_fs]. rewrite Hm. destruct o; [done|exact HQ].
Qed.

Lemma wp_in_ft {A} (m : tm A) fs ft o ops (Q : A -> sys -> Prop) :
  wp m (fun a g => Q a (S fs g o ops)) ft -> wp (in_ft m) Q (S fs ft o ops).
Proof. intros H. apply wp_Ret in H as (a & g & Hm & HQ). unfold wp, in_ft. cbn [y_ft]. rewrite Hm. exact HQ. Qed.

Lemma wp_rdf fs b ft o ops k f (Q : file -> sys -> Prop) :
  ft !! k = Some f -> Q f (S fs (free b ft) o ops) -> wp (rdf k) Q (S fs (free b ft) o ops).
Proof.
  intros Hk HQ. apply wp_in_ft. unfold wp, fentry. cbn [l_data free]. rewrite (rd_lookup _ _ _ Hk). exact HQ.
Qed.

Lemma wp_updf fs b ft o ops k f g (Q : unit -> sys -> Prop) :
  ft !! k = Some f -> Q tt (S fs (free b (<[k:=g f]> ft)) o ops) -> wp (updf k g) Q (S fs (free b ft) o ops).
Proof.
  intros Hk HQ. apply wp_in_ft. apply wp_bind. unfold wp at 1, fentry. cbn [l_data free]. rewrite (rd_lookup _ _ _ Hk). exact HQ.
Qed.

Lemma wp_begin_op fs ft o ops (Q : unit -> sys -> Prop) : Q tt (S fs ft (Datatypes.S o) ops) -> wp begin_op Q (S fs ft o ops).
Proof. exact id. Qed.

Lemma wp_end_op b d ft ops (Q : unit -> sys -> Prop) :
  Q tt (S (free b (Fs.set_logged ∅ d)) ft 0 (ops ++ [Fs.logged d])) -> wp end_op Q (S (free b d) ft 1 ops).
Proof. exact id. Qed.
End Rules.

(** ** One operation of [filewrite] *)

Section Write.
Context (dev : Z) (i : nat).
Implicit Types (d : Fs.fsst) (ip : Fs.inode).

(** The blocks a write of at most [max_write] bytes logs. *)
Lemma chunk_blocks off n : (0 <= off)%Z -> (0 < n <= max_write)%Z -> (nblocks off n <= 4)%Z /\ forall k, touched off n k -> (off / Fs.BSIZE <= k < off / Fs.BSIZE + 4)%Z.
Proof.
  intros Ho Hn. unfold max_write, Log.MAXOPBLOCKS in Hn. change ((10 - 1 - 1 - 2) / 2 * 512)%Z with 1536%Z in Hn.
  unfold nblocks, touched, Fs.BSIZE. split; [Z.div_mod_to_equations; lia|]. intros k [H1 H2]. split; [done|]. Z.div_mod_to_equations. lia.
Qed.

Lemma chunk_logged off n src d ip d' ip' :
  (0 <= off)%Z -> (0 < n <= max_write)%Z -> Fs.logged d = ∅ -> writei_post dev i off n src d ip d' ip' ->
  (Z.of_nat (size (Fs.logged d')) <= Log.MAXOPBLOCKS)%Z.
Proof.
  intros Ho Hn Hl Hp. destruct (chunk_blocks off n Ho Hn) as [_ Hk].
  set (l := bmap_blk dev d :: (dev, ind_of ip') :: iblk dev d ip :: ((fun k => (dev, addr_of dev d' ip' k)) <$> seqZ (off / Fs.BSIZE) 4)).
  assert (Fs.logged d' ⊆ list_to_set l) as Hsub.
  { intros a Ha. apply elem_of_list_to_set. unfold l. rewrite !elem_of_cons.
    destruct (p_logged _ _ _ _ _ _ _ _ _ Hp a Ha) as [H|[->|[->|[->|(k & Ht & ->)]]]]; [rewrite Hl in H; by apply elem_of_empty in H|auto..|].
    right. right. right. apply list_elem_of_fmap. exists k. split; [done|]. apply elem_of_seqZ. by apply Hk. }
  apply subseteq_size in Hsub. assert (size (list_to_set l : gset (Z * Z)) <= length l) as Hs.
  { clear. induction l as [|a l IH]; [done|]. cbn [list_to_set length]. rewrite size_union_alt, size_singleton.
    apply le_n_S. etransitivity; [|exact IH]. apply subseteq_size. set_solver. }
  assert (length l = 7) as Hl7 by (unfold l; cbn [length]; by rewrite length_fmap, length_seqZ). unfold Log.MAXOPBLOCKS. lia.
Qed.

(** The file between two operations: not locked, and nothing logged. *)
Record open_ok d ip : Prop := {
  e_ok : inode_ok dev i d ip;
  e_lock : Fs.i_lock ip = None;
  e_valid : Fs.i_valid ip = true;
  e_ref : (1 <= Fs.i_ref ip)%Z;
  e_logged : Fs.logged d = ∅
}.

(** [n] bytes of [src] have been written at [off]. *)
Record put_at (off n : Z) (src : list Z) d ip d' ip' : Prop := {
  a_open : open_ok d' ip';
  a_size : Fs.i_size ip' = Z.max (Fs.i_size ip) (off + n);
  a_ip : ip' = Fs.set_size (Fs.i_size ip') (Fs.set_addrs (Fs.i_addrs ip') ip);
  a_bytes x : (0 <= x < Fs.i_size ip')%Z ->
    fbyte dev d' ip' x = if decide (off <= x < off + n)%Z then Fs.byte_at src (Z.to_nat (x - off)) else fbyte dev d ip x;
  a_sb : Fs.sb d' = Fs.sb d;
  a_inodes inum : (0 <= inum < Fs.sb_ninodes (Fs.sb d))%Z -> inum <> Fs.i_inum ip -> disk_inode dev d' inum = disk_inode dev d inum
}.

Lemma put_at_none off src d ip : open_ok d ip -> (0 <= off <= Fs.i_size ip)%Z -> put_at off 0 src d ip d ip.
Proof.
  intros Ho Hoff. constructor; try done; [lia|by destruct ip|]. intros x Hx. by rewrite decide_False by lia.
Qed.

Lemma put_at_take off n src d ip d' ip' : put_at off n (take (Z.to_nat n) src) d ip d' ip' -> put_at off n src d ip d' ip'.
Proof.
  intros [H1 H2 H3 H4 H5 H6]. constructor; [done..| |done|done]. intros x Hx. rewrite (H4 x Hx). case_decide; [|done]. apply byte_at_take. lia.
Qed.

Lemma put_at_trans off m r src d ip d1 ip1 d2 ip2 :
  (0 <= off <= Fs.i_size ip)%Z -> (0 <= m)%Z -> (0 <= r)%Z ->
  put_at off m src d ip d1 ip1 -> put_at (off + m) r (drop (Z.to_nat m) src) d1 ip1 d2 ip2 -> put_at off (m + r) src d ip d2 ip2.
Proof.
  intros Ho Hm Hr H1 H2. pose proof (a_size _ _ _ _ _ _ _ H1) as E1. pose proof (a_size _ _ _ _ _ _ _ H2) as E2.
  pose proof (a_ip _ _ _ _ _ _ _ H1) as I1. pose proof (a_ip _ _ _ _ _ _ _ H2) as I2.
  assert (Fs.i_inum ip1 = Fs.i_inum ip) as Ei by (by rewrite I1).
  constructor.
  - apply H2.
  - lia.
  - rewrite I2 at 1. by rewrite I1 at 1.
  - intros x Hx. rewrite (a_bytes _ _ _ _ _ _ _ H2 x Hx). destruct (decide (off + m <= x < off + m + r)%Z) as [Hin|Hout].
    + rewrite decide_True by lia. rewrite byte_at_drop. f_equal. lia.
    + rewrite (a_bytes _ _ _ _ _ _ _ H1) by lia. destruct (decide (off <= x < off + m)%Z); [by rewrite decide_True by lia|by rewrite decide_False by lia].
  - by rewrite (a_sb _ _ _ _ _ _ _ H2), (a_sb _ _ _ _ _ _ _ H1).
  - intros inum Hi Hne. rewrite (a_inodes _ _ _ _ _ _ _ H2) by (rewrite ?(a_sb _ _ _ _ _ _ _ H1), ?Ei; done). by apply (a_inodes _ _ _ _ _ _ _ H1).
Qed.

(** What depends on the blocks and on the entry of the cache only. *)
Lemma inode_ok_logged d ip : inode_ok dev i d ip -> inode_ok dev i (Fs.set_logged ∅ d) ip.
Proof.
  intros [[Hw Hino Hn Hh Hs Hnh Ht] Hin He Hd]. constructor; [|done|done|done].
  constructor; [by apply (wf_ext dev d)|by destruct Hino|done..].
Qed.

(** A file locked, written and unlocked, and the operation ended. *)
Lemma put_at_written pid off n src d ip d' ip' :
  open_ok d ip -> let ip1 := Fs.set_ilock (Some pid) ip in
  writei_post dev i off n src (setnode i ip1 d) ip1 d' ip' ->
  put_at off n src d ip (Fs.set_logged ∅ (setnode i (Fs.set_ilock None ip') d')) (Fs.set_ilock None ip').
Proof.
  intros Ho ip1 Hp. pose proof (p_ip _ _ _ _ _ _ _ _ _ Hp) as Eip.
  constructor; [constructor|..].
  - apply inode_ok_logged, inode_ok_lock, Hp.
  - done.
  - rewrite Eip. apply Ho.
  - rewrite Eip. apply Ho.
  - done.
  - apply (p_size _ _ _ _ _ _ _ _ _ Hp).
  - cbn. rewrite Eip at 1. cbn. pose proof (e_lock _ _ Ho) as El. by destruct ip; cbn in *; subst.
  - apply (p_bytes _ _ _ _ _ _ _ _ _ Hp).
  - apply (p_sb _ _ _ _ _ _ _ _ _ Hp).
  - apply (p_inodes _ _ _ _ _ _ _ _ _ Hp).
Qed.

(** ** The loop of [filewrite] *)

Definition chunks (n : Z) : Z := ((n + (max_write - 1)) / max_write)%Z.
Definition within_log (op : gset (Z * Z)) : Prop := (Z.of_nat (size op) <= Log.MAXOPBLOCKS)%Z.

Lemma chunks_step n : (0 < n)%Z ->
  let n1 := if decide (max_write < n)%Z then max_write else n in
  (0 < n1 <= max_write)%Z /\ (n1 <= n)%Z /\ chunks n = (chunks (n - n1) + 1)%Z.
Proof.
  intros Hn n1. unfold chunks. change max_write with 1536%Z in *. unfold n1. case_decide; (split; [lia|]); (split; [lia|]); Z.div_mod_to_equations; lia.
Qed.

Lemma set_off_off a c f : set_off a (set_off c f) = set_off a f.
Proof. done. Qed.

Section Loop.
Context (P : gmap Z (guarded Pipe.pipe)) (K : guarded Kalloc.kmem) (OF : list (option nat)) (C : nat) (M : Z -> Z).
Notation S fs ft o ops := (mkSys fs ft P K OF C M o ops).
Context (pid : nat) (devwrite : Z -> option (nat -> list Z -> Z -> Fs.fm Z)) (k : nat) (b b2 : bool).

Lemma wp_chunk {A} (rest : Z -> ym A) ops ft f d ip n1 src (Q : A -> sys -> Prop) :
  open_ok d ip -> ft !! k = Some f -> (0 <= f_off f <= Fs.i_size ip)%Z -> (0 < n1 <= max_write)%Z -> Z.of_nat (length src) = n1 ->
  (f_off f + n1 <= Fs.MAXFILE * Fs.BSIZE)%Z -> (8 <= Z.of_nat (nfree dev d))%Z ->
  (forall d' ip', put_at (f_off f) n1 src d ip d' ip' -> (Z.of_nat (nfree dev d) <= Z.of_nat (nfree dev d') + 8)%Z ->
    forall op, within_log op -> wp (rest n1) Q (S (free b d') (free b2 (<[k:=set_off (uint32 (f_off f + n1)) f]> ft)) 0 (ops ++ [op]))) ->
  wp (ilock pid i ;;
      r ← in_fs (Fs.writei devwrite i src (f_off f) n1);
      (if decide (0 < r)%Z then updf k (fun f => set_off (uint32 (f_off f + r)) f) else mret tt) ;;
      iunlock pid i ;;
      end_op ;;
      rest r) Q (S (free b d) (free b2 ft) 1 ops).
Proof.
  intros Ho Hk Hoff Hn1 Hlen Hmax Hfree HQ. pose proof (e_ok _ _ Ho) as Hok. pose proof (o_file _ _ _ _ Hok) as Hf.
  destruct (chunk_blocks (f_off f) n1 ltac:(lia) Hn1) as [Hnb _].
  apply wp_bind. unfold ilock. apply wp_in_fs; [done|].
  eapply (wp_ilock (Z.of_nat pid) dev b d i ip); [apply Hf|apply Hf|apply Hf|apply Hf|apply Hok|apply Ho|apply Ho|by rewrite (e_valid _ _ Ho)|].
  unfold locked. change (Fs.i_valid (Fs.set_ilock _ ip)) with (Fs.i_valid ip). rewrite (e_valid _ _ Ho).
  set (ip1 := Fs.set_ilock _ ip). apply wp_bind, wp_in_fs; [done|].
  eapply (wp_writei dev i); [by apply inode_ok_lock|exact Hoff|lia|exact Hmax|exact Hlen|change (nfree dev (setnode i ip1 d)) with (nfree dev d); lia|].
  intros d' ip' Hp. apply wp_bind. rewrite decide_True by lia. eapply wp_updf; [exact Hk|].
  pose proof (p_ip _ _ _ _ _ _ _ _ _ Hp) as Eip.
  apply wp_bind. unfold iunlock. apply wp_in_fs; [done|].
  eapply (wp_iunlock (Z.of_nat pid) b d' i ip'); [apply Hp|by rewrite Eip|rewrite Eip; apply Ho|].
  apply wp_bind, wp_end_op. eapply HQ; [by eapply put_at_written|change (nfree dev (Fs.set_logged _ _)) with (nfree dev d')|].
  - pose proof (p_free _ _ _ _ _ _ _ _ _ Hp) as Hfr. change (nfree dev (setnode i ip1 d)) with (nfree dev d) in Hfr. lia.
  - change (within_log (Fs.logged d')). eapply (chunk_logged (f_off f) n1 src (setnode i ip1 d)); [lia|done|apply Ho|exact Hp].
Qed.

Lemma wp_filewrite_loop fuel : forall addr i0 n d ip ft f ops (Q : Z -> sys -> Prop),
  open_ok d ip -> ft !! k = Some f -> f_ip f = i -> (0 <= f_off f <= Fs.i_size ip)%Z -> (0 <= i0 <= n)%Z ->
  Z.of_nat (length addr) = n -> (f_off f + (n - i0) <= Fs.MAXFILE * Fs.BSIZE)%Z ->
  (8 * chunks (n - i0) <= Z.of_nat (nfree dev d))%Z -> (n - i0 <= Z.of_nat fuel)%Z ->
  (forall d' ip' ops', put_at (f_off f) (n - i0) (drop (Z.to_nat i0) addr) d ip d' ip' -> Forall within_log ops' ->
    Q n (S (free b d') (free b2 (<[k:=set_off (f_off f + (n - i0)) f]> ft)) 0 (ops ++ ops'))) ->
  wp (filewrite_loop pid devwrite fuel k addr i0 n) Q (S (free b d) (free b2 ft) 0 ops).
Proof.
  induction fuel as [|fuel IH]; intros addr i0 n d ip ft f ops Q Ho Hk Hi Hoff Hi0 Hlen Hmax Hfree Hfuel HQ; cbn [filewrite_loop];
    (destruct (decide (i0 = n)) as [->|Hne];
     [rewrite decide_False by lia; apply wp_ret; specialize (HQ d ip []); rewrite app_nil_r in HQ;
      rewrite Z.sub_diag, Z.add_0_r in HQ; rewrite list_insert_id in HQ by (rewrite Hk; by destruct f);
      apply HQ; [by apply put_at_none|done]|]); [lia|].
  rewrite decide_True by lia. destruct (chunks_step (n - i0) ltac:(lia)) as (Hn1 & Hle & Hch). set (n1 := if decide _ then _ else _) in *. clearbody n1.
  set (src := take (Z.to_nat n1) (drop (Z.to_nat i0) addr)).
  assert (Z.of_nat (length src) = n1) as Hsrc by (unfold src; rewrite length_take, length_drop; lia).
  assert (0 <= chunks (n - i0 - n1))%Z as Hc0 by (unfold chunks; change max_write with 1536%Z; apply Z.div_pos; lia).
  apply wp_bind. eapply wp_rdf; [exact Hk|]. apply wp_bind, wp_begin_op. rewrite Hi.
  eapply wp_chunk; [exact Ho|exact Hk|done|done|done|lia|lia|].
  intros d1 ip1 Hput Hfr op Hop. rewrite decide_False by lia. rewrite decide_False by tauto.
  assert (uint32 (f_off f + n1) = (f_off f + n1)%Z) as Eu by (apply uint32_id; unfold Fs.MAXFILE, Fs.NDIRECT, Fs.NINDIRECT, Fs.BSIZE in *; lia).
  rewrite Eu. set (f1 := set_off (f_off f + n1) f).
  eapply (IH addr (i0 + n1)%Z n d1 ip1 _ f1); [apply Hput|apply list_lookup_insert_eq; by eapply lookup_lt_Some|done|cbn; rewrite (a_size _ _ _ _ _ _ _ Hput); lia|lia|done|cbn; lia| |lia|].
  { replace (n - (i0 + n1))%Z with (n - i0 - n1)%Z by lia. lia. }
  intros d2 ip2 ops2 Hput2 Hops. rewrite <- app_assoc. rewrite list_insert_insert_eq. unfold f1. rewrite set_off_off.
  replace (f_off (set_off (f_off f + n1) f) + (n - (i0 + n1)))%Z with (f_off f + (n - i0))%Z by (cbn; lia).
  apply (HQ d2 ip2); [|by constructor]. replace (n - i0)%Z with (n1 + (n - (i0 + n1)))%Z by lia.
  eapply put_at_trans; [done|lia|lia| |].
  - by apply put_at_take.
  - rewrite drop_drop. by replace (Z.to_nat i0 + Z.to_nat n1)%nat with (Z.to_nat (i0 + n1)) by lia.
Qed.
End Loop.
End Write.

(** C9. Writing to a file: with enough free blocks [filewrite] writes all [n]
    bytes at the offset of the file and returns [n], advances the offset by
    [n], keeps the rest of the file and every other inode of the disk, and ends
    every operation it began.  Each of these operations has logged at most
    [MAXOPBLOCKS] blocks, which is what [begin_op] reserves in the log. *)
Theorem filewrite_spec dev me pid killed devwrite P K OF C M b b2 k f addr n d ip ft ops :
  let S fs ft o ops := mkSys fs ft P K OF C M o ops in
  open_ok dev (f_ip f) d ip -> ft !! k = Some f -> File.f_type f = FD_INODE -> f_writable f = true ->
  (0 <= f_off f <= Fs.i_size ip)%Z -> (0 <= n)%Z -> Z.of_nat (length addr) = n ->
  (f_off f + n <= Fs.MAXFILE * Fs.BSIZE)%Z -> (8 * chunks n <= Z.of_nat (nfree dev d))%Z ->
  exists d' ip' ops',
    filewrite me pid killed devwrite k addr n (S (free b d) (free b2 ft) 0 ops) =
      Ret (WrDone n, S (free b d') (free b2 (<[k:=set_off (f_off f + n) f]> ft)) 0 (ops ++ ops')) /\
    put_at dev (f_ip f) (f_off f) n addr d ip d' ip' /\
    Forall within_log ops'.
Proof.
  intros S Ho Hk Ht Hw Hoff Hn Hlen Hmax Hfree.
  assert (wp (filewrite me pid killed devwrite k addr n) (fun r s => exists d' ip' ops', r = WrDone n /\
    s = S (free b d') (free b2 (<[k:=set_off (f_off f + n) f]> ft)) 0 (ops ++ ops') /\
    put_at dev (f_ip f) (f_off f) n addr d ip d' ip' /\ Forall within_log ops') (S (free b d) (free b2 ft) 0 ops)) as Hwp.
  { unfold filewrite. apply wp_bind. eapply wp_rdf; [exact Hk|]. rewrite Hw, Ht. cbn [negb]. apply wp_bind.
    eapply (wp_filewrite_loop dev (f_ip f) P K OF C M pid devwrite k b b2); [exact Ho|exact Hk|done|done|lia|done|lia|by rewrite Z.sub_0_r|lia|].
    intros d' ip' ops' Hp Hops. rewrite decide_True by done. apply wp_ret. rewrite Z.sub_0_r in *. by exists d', ip', ops'. }
  apply wp_Ret in Hwp as (r & s & Hr & d' & ip' & ops' & -> & -> & Hp & Hops). by exists d', ip', ops'.
Qed.

(** The empty file of the concrete file system, open for writing. *)
Definition demo_file : file := mkFile FD_INODE 1 false true 0 0 0.
Notation demo := (FsThms.demo_of Fs.T_FILE 1).
Notation demo_ip := (FsThms.demo_node Fs.T_FILE 1).
Definition demo_kmem : guarded Kalloc.kmem := free true (Kalloc.mkKmem true 0 (fun _ => 0%Z)).

Lemma demo_open : open_ok 1 0 demo demo_ip.
Proof. constructor; [apply FsThms.demo_file_ok|done|done|cbn; lia|done]. Qed.

Lemma filewrite_spec_witness : exists d' ip' ops',
  filewrite 0 1 false (fun _ => None) 0 [104; 105]%Z 2 (mkSys (free true demo) (free true [demo_file]) ∅ demo_kmem [Some 0] 0 (fun _ => 0%Z) 0 []) =
    Ret (WrDone 2, mkSys (free true d') (free true [set_off 2 demo_file]) ∅ demo_kmem [Some 0] 0 (fun _ => 0%Z) 0 ops') /\
  put_at 1 0 0 2 [104; 105]%Z demo demo_ip d' ip' /\ Forall within_log ops'.
Proof.
  destruct (filewrite_spec 1 0 1 false (fun _ => None) ∅ demo_kmem [Some 0] 0 (fun _ => 0%Z) true true 0 demo_file [104; 105]%Z 2 demo demo_ip [demo_file] [])
    as (d' & ip' & ops' & H1 & H2 & H3).
  - apply demo_open.
  - reflexivity.
  - reflexivity.
  - reflexivity.
  - cbn. lia.
  - lia.
  - reflexivity.
  - vm_compute. discriminate.
  - rewrite FsThms.demo_nfree. vm_compute. discriminate.
  - exists d', ip', ops'. exact (conj H1 (conj H2 H3)).
Defined.
End FileThms.
