(* ===== verification/FileTable.v ===== *)
(** * Open files: the file table and [pipealloc]

    Reference counts of [struct file], and that a failing [pipealloc] gives
    back everything it took. *)
From S2P Require Export FileThms.

Module FileTable.
Import Spin Locked File FileThms.

(** An entry that is not in use has no type. *)
Definition entry_ok (f : file) : Prop := (0 <= f_ref f)%Z /\ (f_ref f = 0%Z -> f_type f = FD_NONE).
Definition ft_ok (ft : list file) : Prop := Forall entry_ok ft.

Lemma find_file_spec l : forall k,
  match find_file l k with
  | Some j => exists f, k <= j /\ l !! (j - k) = Some f /\ f_ref f = 0%Z
  | None => forall f, f ∈ l -> f_ref f <> 0%Z
  end.
Proof.
  induction l as [|f l IH]; intros k; cbn [find_file]; [set_solver|]. case_decide as E.
  - exists f. rewrite Nat.sub_diag. done.
  - specialize (IH (S k)). destruct (find_file l (S k)) as [j|].
    + destruct IH as (g & Hj & Hl & Hz). exists g. split; [lia|]. split; [|done]. replace (j - k) with (S (j - S k)) by lia. done.
    + intros g [->|Hg]%elem_of_cons; [done|by apply IH].
Qed.

Lemma entry_free f : entry_ok f -> f_ref f = 0%Z -> set_ftype FD_NONE (set_fref 0 f) = f.
Proof. intros [_ Ht] Hz. specialize (Ht Hz). destruct f. cbn in *. by subst. Qed.

Lemma alter_insert (ft : list file) (k : nat) f (g : file -> file) : ft !! k = Some f -> alter g k ft = <[k:=g f]> ft.
Proof.
  intros Hk. apply list_eq. intros j. destruct (decide (j = k)) as [->|Hj].
  - rewrite list_lookup_alter_eq, Hk, list_lookup_insert_eq; [done|by eapply lookup_lt_Some].
  - by rewrite list_lookup_alter_ne, list_lookup_insert_ne.
Qed.

Section Table.
Context (me pid : nat) (kend : Z) (fs : guarded Fs.fsst) (P : gmap Z (guarded Pipe.pipe)) (K : guarded Kalloc.kmem).
Context (OF : list (option nat)) (C : nat) (M : Z -> Z) (b : bool) (o : nat) (ops : list (gset (Z * Z))).
Notation S ft := (mkSys fs (free b ft) P K OF C M o ops).

Lemma wp_fentry k f ft (Q : file -> guarded (list file) -> Prop) :
  ft !! k = Some f -> Q f (held me b ft) -> wp (fentry k) Q (held me b ft).
Proof. intros Hk HQ. unfold wp, fentry. cbn [l_data held]. rewrite (rd_lookup _ _ _ Hk). exact HQ. Qed.

Lemma filealloc_eq ft :
  filealloc me (S ft) =
    match find_file ft 0 with
    | Some k => Ret (Some k, S (alter (set_fref 1) k ft))
    | None => Ret (None, S ft)
    end.
Proof.
  assert (wp (filealloc me) (fun r s => match find_file ft 0 with
    | Some k => r = Some k /\ s = S (alter (set_fref 1) k ft) | None => r = None /\ s = S ft end) (S ft)) as H.
  { unfold filealloc. apply wp_in_ft. lk_steps. destruct (find_file ft 0); lk_steps; done. }
  apply wp_Ret in H as (r & s & -> & H). destruct (find_file ft 0); by destruct H as [-> ->].
Qed.

Lemma filedup_eq ft k f : ft !! k = Some f -> (1 <= f_ref f)%Z -> filedup me k (S ft) = Ret (k, S (<[k:=set_fref (f_ref f + 1) f]> ft)).
Proof.
  intros Hk Hr. assert (wp (filedup me k) (fun r s => r = k /\ s = S (<[k:=set_fref (f_ref f + 1) f]> ft)) (S ft)) as H.
  { unfold filedup. apply wp_in_ft. lk_steps. eapply (wp_fentry k f ft); [done|]. rewrite decide_False by lia. lk_steps. done. }
  by apply wp_Ret in H as (? & ? & ? & -> & ->).
Qed.

Lemma drop_eq ft k f : ft !! k = Some f -> (1 <= f_ref f)%Z ->
  fileclose_drop me k (S ft) =
    if decide (f_ref f = 1)%Z then Ret (Some (set_fref 0 f), S (<[k:=set_ftype FD_NONE (set_fref 0 f)]> ft))
    else Ret (None, S (<[k:=set_fref (f_ref f - 1) f]> ft)).
Proof.
  intros Hk Hr. assert (wp (fileclose_drop me k) (fun r s =>
    if decide (f_ref f = 1)%Z then r = Some (set_fref 0 f) /\ s = S (<[k:=set_ftype FD_NONE (set_fref 0 f)]> ft)
    else r = None /\ s = S (<[k:=set_fref (f_ref f - 1) f]> ft)) (S ft)) as H.
  { unfold fileclose_drop. apply wp_in_ft. lk_steps. eapply (wp_fentry k f ft); [done|]. rewrite decide_False by lia.
    destruct (decide (f_ref f = 1)%Z) as [E|E].
    - rewrite decide_False by (cbn; lia). lk_steps. rewrite E. done.
    - rewrite decide_True by (cbn; lia). lk_steps. done. }
  apply wp_Ret in H as (? & ? & -> & H). case_decide; by destruct H as [-> ->].
Qed.

(** Closing a file that was only allocated. *)
Lemma fileclose_fresh ft k f : ft !! k = Some f -> f_ref f = 0%Z -> entry_ok f -> fileclose me pid kend k (S (alter (set_fref 1) k ft)) = Ret (tt, S ft).
Proof.
  intros Hk Hz Hok. unfold fileclose. rewrite (alter_insert _ _ _ _ Hk).
  assert (<[k:=set_fref 1 f]> ft !! k = Some (set_fref 1 f)) as Hk1 by (apply list_lookup_insert_eq; by eapply lookup_lt_Some).
  etransitivity; [apply stm_bind_Ret; rewrite (drop_eq _ k _ Hk1) by (cbn; lia); by rewrite decide_True|]. cbv beta iota.
  assert (f_type (set_fref 0 (set_fref 1 f)) = FD_NONE) as -> by (by apply Hok). rewrite list_insert_insert_eq.
  change (set_ftype FD_NONE (set_fref 0 (set_fref 1 f))) with (set_ftype FD_NONE (set_fref 0 f)). rewrite entry_free by done.
  by rewrite list_insert_id.
Qed.
End Table.

Lemma find_free (ft : list file) k : find_file ft 0 = Some k -> exists f, ft !! k = Some f /\ f_ref f = 0%Z.
Proof. intros E. pose proof (find_file_spec ft 0) as H. rewrite E, Nat.sub_0_r in H. destruct H as (f & _ & H). by exists f. Qed.

Lemma ft_ok_lookup (ft : list file) (k : nat) f : ft_ok ft -> ft !! k = Some f -> entry_ok f.
Proof. intros H Hk. by eapply Forall_lookup_1. Qed.

Lemma ft_ok_insert (ft : list file) (k : nat) f : ft_ok ft -> entry_ok f -> ft_ok (<[k:=f]> ft).
Proof. intros H Hf. by apply Forall_insert. Qed.


(** ** [pipealloc] *)

Lemma kalloc_empty me bk d : Kalloc.freelist d = 0%Z -> Kalloc.kalloc me (free bk d) = Ret (0%Z, free bk d).
Proof.
  intros Hz. assert (wp (Kalloc.kalloc me) (fun r s => r = 0%Z /\ s = free bk d) (free bk d)) as H.
  { unfold Kalloc.kalloc, Kalloc.when_locking. do 3 lk_step. destruct (Kalloc.use_lock d) eqn:Eu; lk_steps; rewrite Hz; rewrite decide_False by tauto;
      lk_steps; rewrite Eu; lk_steps; done. }
  by apply wp_Ret in H as (? & ? & ? & -> & ->).
Qed.

(** A [pipealloc] that fails gives everything back: when the file table has
    no two unused entries, or there is no page for the pipe, it returns -1 in
    the state it started from. *)
Theorem pipealloc_failure me pid kend fs P bk dk OF C M b o ops ft :
  let s := mkSys fs (free b ft) P (free bk dk) OF C M o ops in
  ft_ok ft ->
  (find_file ft 0 = None \/ (exists k, find_file ft 0 = Some k /\ find_file (alter (set_fref 1) k ft) 0 = None) \/ Kalloc.freelist dk = 0%Z) ->
  pipealloc me pid kend s = Ret (None, s).
Proof.
  intros s Hok Hfail. unfold pipealloc. pose proof (filealloc_eq me fs P (free bk dk) OF C M b o ops) as Halloc.
  pose proof (Halloc ft) as H0. destruct (find_file ft 0) as [k0|] eqn:E0; (etransitivity; [apply stm_bind_Ret; exact H0|]); [|done].
  destruct (find_free ft k0 E0) as (f0 & Hk0 & Hz0).
  assert (forall ft' k f, ft' !! k = Some f -> f_ref f = 0%Z -> entry_ok f ->
    fileclose me pid kend k (mkSys fs (free b (alter (set_fref 1) k ft')) P (free bk dk) OF C M o ops) = Ret (tt, mkSys fs (free b ft') P (free bk dk) OF C M o ops)) as Hclose
    by (intros; by eapply fileclose_fresh).
  pose proof (Halloc (alter (set_fref 1) k0 ft)) as H1.
  destruct (find_file (alter (set_fref 1) k0 ft) 0) as [k1|] eqn:E1; cbv beta iota; (etransitivity; [apply stm_bind_Ret; exact H1|]); cbv beta iota.
  - destruct (find_free _ k1 E1) as (f1 & Hk1 & Hz1).
    assert (k1 <> k0) as Hne. { intros ->. rewrite (alter_insert _ _ _ _ Hk0), list_lookup_insert_eq in Hk1 by (by eapply lookup_lt_Some). injection Hk1 as <-. done. }
    rewrite list_lookup_alter_ne in Hk1 by done. destruct Hfail as [?|[(k & Hk & Hn)|Hz]]; [done|injection Hk as <-; congruence|].
    etransitivity; [apply stm_bind_Ret; unfold in_kmem; cbn [y_kmem]; rewrite (kalloc_empty me bk dk Hz); reflexivity|]. cbv beta.
    rewrite decide_True by done. unfold pipealloc_bad. rewrite list_alter_alter_ne by done.
    etransitivity; [apply (stm_bind_Ret (fileclose me pid kend k0)); apply (Hclose (alter (set_fref 1) k1 ft) k0 f0); [by rewrite list_lookup_alter_ne|done|by eapply ft_ok_lookup]|].
    etransitivity; [apply (stm_bind_Ret (fileclose me pid kend k1)); apply (Hclose ft k1 f1); [done|done|by eapply ft_ok_lookup]|]. done.
  - unfold pipealloc_bad. etransitivity; [apply (stm_bind_Ret (fileclose me pid kend k0)); apply (Hclose ft k0 f0); [done|done|by eapply ft_ok_lookup]|]. done.
Qed.

(** A table with one entry in use and one free. *)
Definition demo_ft : list file := [demo_file; mkFile FD_NONE 0 false false 0 0 0].
Lemma demo_ft_ok : ft_ok demo_ft.
Proof. repeat constructor; cbn; lia || done. Qed.


(** No second entry for the other end of the pipe. *)
Lemma pipealloc_failure_witness :
  let s := mkSys (free true demo) (free true demo_ft) ∅ demo_kmem [] 0 (fun _ => 0%Z) 0 [] in pipealloc 0 1 0 s = Ret (None, s).
Proof.
  apply (pipealloc_failure 0 1 0 (free true demo) ∅ true _ [] 0 (fun _ => 0%Z) true 0 [] demo_ft demo_ft_ok).
  right. left. exists 1. split; reflexivity.
Defined.
End FileTable.
