(* ===== verification/SysfileDefs.v ===== *)
(** * File system calls: definitions

    Models [src/xv6-public/sysfile.c]: argument checking and the calls into
    file.c and fs.c.  A path is the bytes of its string in the memory of the
    process; [None] for a pointer is null. *)
From S2P Require Export FileDefs.

Module Sysfile.
Import Spin Locked File.

Definition O_RDONLY : Z := 0.
Definition O_WRONLY : Z := 1.
Definition O_RDWR : Z := 2.
Definition O_CREATE : Z := 512.
Definition MAXARG : nat := 32.

(** Bytes stored from an address on. *)
Definition put_bytes (a : Z) (l : list Z) (m : Z -> Z) : Z -> Z :=
  fun x => if decide (a <= x < a + Z.of_nat (length l))%Z then Fs.byte_at l (Z.to_nat (x - a)) else m x.

(** The fields of [struct stat] at [p]. *)
Definition put_stat (p : Z) (st : Fs.stat) (m : Z -> Z) : Z -> Z :=
  put_bytes (p + 16) (Log.le32 (Fs.st_size st))
    (put_bytes (p + 12) (Fs.le16 (Fs.st_nlink st))
      (put_bytes (p + 8) (Log.le32 (Fs.st_ino st))
        (put_bytes (p + 4) (Log.le32 (Fs.st_dev st))
          (put_bytes p (Fs.le16 (Fs.st_type st)) m)))).
Definition STAT_SIZE : Z := 20.

Section Sys.
Context (me : nat) (pid : nat) (killed : bool) (kend : Z).
Context (devread : Z -> option (nat -> Z -> Fs.fm (Z * list Z))).
Context (devwrite : Z -> option (nat -> list Z -> Z -> Fs.fm Z)).
(** The size of the process, its stack pointer, and the bytes of the
    uninitialised local [name]. *)
Context (u_sz u_esp : Z) (name0 : list Z).
(** [exec] of exec.c. *)
Context (exec : list Z -> list (list Z) -> ym Z).

Notation upid := (Z.of_nat pid).

Definition the_user : ym Syscall.user := s ← get; mret (Syscall.mkUser (y_mem s) u_sz u_esp).

(** [argfd]: the descriptor and the file. *)
Definition argfd (n : Z) : ym (option (Z * nat)) :=
  u ← the_user;
  s ← get;
  mret (fd ← Syscall.argint u n;
        if decide (fd < 0 \/ Z.of_nat NOFILE <= fd)%Z then None
        else f ← default None (y_ofile s !! Z.to_nat fd); Some (fd, f)).

Definition argpath (n : Z) : ym (option (list Z)) :=
  u ← the_user;
  mret ('(p, len) ← Syscall.argstr u n; Some (Syscall.string_at u p len)).

(** The first free descriptor. *)
Fixpoint find_fd (l : list (option nat)) (k : nat) : option nat :=
  match l with
  | [] => None
  | None :: _ => Some k
  | Some _ :: l => find_fd l (S k)
  end.
(** [None] is -1. *)
Definition fdalloc (f : nat) : ym (option Z) :=
  s ← get;
  match find_fd (take NOFILE (y_ofile s)) 0 with
  | Some fd => modify (with_ofile (<[fd:=Some f]> (y_ofile s))) ;; mret (Some (Z.of_nat fd))
  | None => mret None
  end.

Definition sys_dup : ym Z :=
  a ← argfd 0;
  match a with
  | None => mret (-1)%Z
  | Some (_, f) =>
      fd ← fdalloc f;
      match fd with
      | None => mret (-1)%Z
      | Some fd => filedup me f ;; mret fd
      end
  end.

(** [argfd(0, 0, &f) < 0 || argint(2, &n) < 0 || argptr(1, &p, n) < 0]. *)
Definition arg_rw : ym (option (nat * Z * Z)) :=
  a ← argfd 0;
  u ← the_user;
  mret ('(_, f) ← a; n ← Syscall.argint u 2; p ← Syscall.argptr u 1 n; Some (f, n, p)).

(** [Sleeps] when the process sleeps in a pipe. *)
Definition sys_read : ym (waiting Z) :=
  a ← arg_rw;
  match a with
  | None => mret (Done (-1)%Z)
  | Some (f, n, p) =>
      r ← fileread me pid killed devread f n;
      match r with
      | RdDone r bytes => modify (fun s => with_mem (put_bytes p bytes (y_mem s)) s) ;; mret (Done r)
      | RdSleep => mret (Sleeps 0%Z)
      end
  end.

Definition sys_write : ym (waiting Z) :=
  a ← arg_rw;
  match a with
  | None => mret (Done (-1)%Z)
  | Some (f, n, p) =>
      u ← the_user;
      r ← filewrite me pid killed devwrite f (Syscall.string_at u p n) n;
      mret (match r with WrDone r => Done r | WrSleep _ => Sleeps 0%Z end)
  end.

Definition sys_close : ym Z :=
  a ← argfd 0;
  match a with
  | None => mret (-1)%Z
  | Some (fd, f) =>
      modify (fun s => with_ofile (<[Z.to_nat fd:=None]> (y_ofile s)) s) ;;
      fileclose me pid kend f ;;
      mret 0%Z
  end.

Definition sys_fstat : ym Z :=
  a ← argfd 0;
  u ← the_user;
  match '(_, f) ← a; p ← Syscall.argptr u 1 STAT_SIZE; Some (f, p) with
  | None => mret (-1)%Z
  | Some (f, p) =>
      r ← filestat pid f;
      match r with
      | None => mret (-1)%Z
      | Some st => modify (fun s => with_mem (put_stat p st (y_mem s)) s) ;; mret 0%Z
      end
  end.

(** ** Directories *)

Definition rdi (i : nat) : ym Fs.inode := in_fs (Fs.rdi i).
Definition updi (i : nat) (f : Fs.inode -> Fs.inode) : ym unit := in_fs (Fs.updi i f).
Definition iupdate (i : nat) : ym unit := in_fs (Fs.iupdate i).
Definition namei (path : list Z) : ym (option nat) :=
  s ← get; in_fs (Fs.namei me upid devread (y_cwd s) path name0).
Definition nameiparent (path : list Z) : ym (option nat * list Z) :=
  s ← get; in_fs (Fs.nameiparent me upid devread (y_cwd s) path name0).
Definition dirlookup (i : nat) (name : list Z) : ym (option (nat * Z)) := in_fs (Fs.dirlookup me devread i name).
Definition dirlink (i : nat) (name : list Z) (inum : Z) : ym Z := in_fs (Fs.dirlink me upid devread devwrite i name inum).

(** [ip->nlink++], [ip->nlink--]: a [short]. *)
Definition short16 (z : Z) : Z := ((z + 32768) mod 65536 - 32768)%Z.
Definition link_up (ip : Fs.inode) : Fs.inode := Fs.set_nlink (short16 (Fs.i_nlink ip + 1)) ip.
Definition link_down (ip : Fs.inode) : Fs.inode := Fs.set_nlink (short16 (Fs.i_nlink ip - 1)) ip.

(** The label [bad] of [sys_link]. *)
Definition link_bad (ip : nat) : ym Z :=
  ilock pid ip ;; updi ip link_down ;; iupdate ip ;; iunlockput me pid ip ;; end_op ;; mret (-1)%Z.

Definition sys_link : ym Z :=
  old ← argpath 0;
  new ← argpath 1;
  match old, new with
  | Some old, Some new =>
      begin_op ;;
      ip ← namei old;
      match ip with
      | None => end_op ;; mret (-1)%Z
      | Some ip =>
          ilock pid ip ;;
          v ← rdi ip;
          if decide (Fs.i_type v = Fs.T_DIR) then iunlockput me pid ip ;; end_op ;; mret (-1)%Z
          else
            updi ip link_up ;;
            iupdate ip ;;
            iunlock pid ip ;;
            '(dp, name) ← nameiparent new;
            match dp with
            | None => link_bad ip
            | Some dp =>
                ilock pid dp ;;
                dv ← rdi dp;
                v ← rdi ip;
                r ← (if decide (Fs.i_dev dv <> Fs.i_dev v) then mret (-1)%Z else dirlink dp name (Fs.i_inum v));
                if decide (r < 0)%Z then iunlockput me pid dp ;; link_bad ip
                else iunlockput me pid dp ;; iput me pid ip ;; end_op ;; mret 0%Z
            end
      end
  | _, _ => mret (-1)%Z
  end.

(** The loop of [isdirempty] from [off]. *)
Fixpoint isdirempty_loop (fuel : nat) (dp : nat) (off : Z) : ym bool :=
  v ← rdi dp;
  if decide (off < Fs.i_size v)%Z then
    match fuel with
    | O => hang "isdirempty"
    | S fuel =>
        e ← in_fs (Fs.read_dirent devread dp off);
        match e with
        | None => panic "isdirempty: readi"
        | Some (inum, _) => if decide (inum <> 0)%Z then mret false else isdirempty_loop fuel dp (off + Fs.DIRENT)
        end
    end
  else mret true.
Definition isdirempty (dp : nat) : ym bool :=
  v ← rdi dp; isdirempty_loop (S (Z.to_nat (Fs.i_size v))) dp (2 * Fs.DIRENT).

Definition unlink_bad (dp : nat) : ym Z := iunlockput me pid dp ;; end_op ;; mret (-1)%Z.

Definition sys_unlink : ym Z :=
  path ← argpath 0;
  match path with
  | None => mret (-1)%Z
  | Some path =>
      begin_op ;;
      '(dp, name) ← nameiparent path;
      match dp with
      | None => end_op ;; mret (-1)%Z
      | Some dp =>
          ilock pid dp ;;
          if decide (Fs.namecmp name [46; 0] = 0 \/ Fs.namecmp name [46; 46; 0] = 0)%Z then unlink_bad dp
          else
            r ← dirlookup dp name;
            match r with
            | None => unlink_bad dp
            | Some (ip, off) =>
                ilock pid ip ;;
                v ← rdi ip;
                if decide (Fs.i_nlink v < 1)%Z then panic "unlink: nlink < 1"
                else
                  full ← (if decide (Fs.i_type v = Fs.T_DIR) then e ← isdirempty ip; mret (negb e) else mret false);
                  if (full : bool) then iunlockput me pid ip ;; unlink_bad dp
                  else
                    w ← in_fs (Fs.writei devwrite dp (replicate 16 0%Z) off Fs.DIRENT);
                    if decide (w <> Fs.DIRENT) then panic "unlink: writei"
                    else
                      (if decide (Fs.i_type v = Fs.T_DIR) then updi dp link_down ;; iupdate dp else mret tt) ;;
                      iunlockput me pid dp ;;
                      updi ip link_down ;;
                      iupdate ip ;;
                      iunlockput me pid ip ;;
                      end_op ;;
                      mret 0%Z
            end
      end
  end.

(** ** Creating files *)

(** The new inode, linked into its directory; the result is locked. *)
Definition create (path : list Z) (type major minor : Z) : ym (option nat) :=
  '(dp, name) ← nameiparent path;
  match dp with
  | None => mret None
  | Some dp =>
      ilock pid dp ;;
      r ← dirlookup dp name;
      match r with
      | Some (ip, _) =>
          iunlockput me pid dp ;;
          ilock pid ip ;;
          v ← rdi ip;
          if decide (type = Fs.T_FILE /\ Fs.i_type v = Fs.T_FILE) then mret (Some ip)
          else iunlockput me pid ip ;; mret None
      | None =>
          dv ← rdi dp;
          ip ← in_fs (Fs.ialloc me (Fs.i_dev dv) type);
          ilock pid ip ;;
          updi ip (fun v => Fs.set_nlink 1 (Fs.set_majmin major minor v)) ;;
          iupdate ip ;;
          v ← rdi ip;
          (if decide (type = Fs.T_DIR) then
             updi dp link_up ;;
             iupdate dp ;;
             r ← dirlink ip [46; 0]%Z (Fs.i_inum v);
             r ← (if decide (r < 0)%Z then mret r else dirlink ip [46; 46; 0]%Z (Fs.i_inum dv));
             if decide (r < 0)%Z then panic "create dots" else mret tt
           else mret tt) ;;
          r ← dirlink dp name (Fs.i_inum v);
          if decide (r < 0)%Z then panic "create: dirlink"
          else iunlockput me pid dp ;; mret (Some ip)
      end
  end.

(** Opening: the locked inode, or [None]. *)
Definition open_inode (path : list Z) (omode : Z) : ym (option nat) :=
  if decide (Z.land omode O_CREATE <> 0)%Z then create path Fs.T_FILE 0 0
  else
    ip ← namei path;
    match ip with
    | None => mret None
    | Some ip =>
        ilock pid ip ;;
        v ← rdi ip;
        if decide (Fs.i_type v = Fs.T_DIR /\ omode <> O_RDONLY) then iunlockput me pid ip ;; mret None
        else mret (Some ip)
    end.

Definition opened (omode : Z) (ip : nat) (f : file) : file :=
  mkFile FD_INODE (f_ref f) (bool_decide (Z.land omode O_WRONLY = 0)%Z)
    (bool_decide (Z.land omode O_WRONLY <> 0)%Z || bool_decide (Z.land omode O_RDWR <> 0)%Z) (f_pipe f) ip 0.

Definition sys_open : ym Z :=
  path ← argpath 0;
  u ← the_user;
  match path, Syscall.argint u 1 with
  | Some path, Some omode =>
      begin_op ;;
      ip ← open_inode path omode;
      match ip with
      | None => end_op ;; mret (-1)%Z
      | Some ip =>
          f ← filealloc me;
          fd ← match f with None => mret None | Some f => fdalloc f end;
          match f, fd with
          | Some f, Some fd =>
              iunlock pid ip ;; end_op ;; updf f (opened omode ip) ;; mret fd
          | _, _ =>
              (match f with Some f => fileclose me pid kend f | None => mret tt end) ;;
              iunlockput me pid ip ;;
              end_op ;;
              mret (-1)%Z
          end
      end
  | _, _ => mret (-1)%Z
  end.

(** [create] of a directory or device, released at once. *)
Definition make_node (args : option (list Z * Z * Z * Z)) : ym Z :=
  match args with
  | None => end_op ;; mret (-1)%Z
  | Some (path, type, major, minor) =>
      ip ← create path type major minor;
      match ip with
      | None => end_op ;; mret (-1)%Z
      | Some ip => iunlockput me pid ip ;; end_op ;; mret 0%Z
      end
  end.

Definition sys_mkdir : ym Z :=
  begin_op ;;
  path ← argpath 0;
  make_node (p ← path; Some (p, Fs.T_DIR, 0, 0)%Z).

(** [major] and [minor] are passed as [short]. *)
Definition sys_mknod : ym Z :=
  begin_op ;;
  path ← argpath 0;
  u ← the_user;
  make_node (p ← path; major ← Syscall.argint u 1; minor ← Syscall.argint u 2; Some (p, Fs.T_DEV, short16 major, short16 minor)).

Definition sys_chdir : ym Z :=
  begin_op ;;
  path ← argpath 0;
  ip ← match path with None => mret None | Some path => namei path end;
  match ip with
  | None => end_op ;; mret (-1)%Z
  | Some ip =>
      ilock pid ip ;;
      v ← rdi ip;
      if decide (Fs.i_type v <> Fs.T_DIR) then iunlockput me pid ip ;; end_op ;; mret (-1)%Z
      else
        iunlock pid ip ;;
        s ← get;
        iput me pid (y_cwd s) ;;
        end_op ;;
        modify (with_cwd ip) ;;
        mret 0%Z
  end.

(** The loop of [sys_exec] over the argument pointers. *)
Fixpoint exec_args (u : Syscall.user) (uargv : Z) (i n : nat) : option (list (list Z)) :=
  match n with
  | O => None
  | S n =>
      uarg ← Syscall.fetchint u (uint32 (uargv + 4 * Z.of_nat i)%Z);
      if decide (uarg = 0)%Z then Some []
      else
        '(p, len) ← Syscall.fetchstr u (uint32 uarg);
        l ← exec_args u uargv (S i) n;
        Some (Syscall.string_at u p len :: l)
  end.

Definition sys_exec : ym Z :=
  path ← argpath 0;
  u ← the_user;
  match path, Syscall.argint u 1 with
  | Some path, Some uargv =>
      match exec_args u (uint32 uargv) 0 MAXARG with
      | None => mret (-1)%Z
      | Some argv => exec path argv
      end
  | _, _ => mret (-1)%Z
  end.

Definition sys_pipe : ym Z :=
  u ← the_user;
  match Syscall.argptr u 0 8 with
  | None => mret (-1)%Z
  | Some fd =>
      r ← pipealloc me pid kend;
      match r with
      | None => mret (-1)%Z
      | Some (rf, wf) =>
          fd0 ← fdalloc rf;
          fd1 ← match fd0 with None => mret None | Some _ => fdalloc wf end;
          match fd0, fd1 with
          | Some fd0, Some fd1 =>
              modify (fun s => with_mem (put_bytes (fd + 4) (Log.le32 fd1) (put_bytes fd (Log.le32 fd0) (y_mem s))) s) ;;
              mret 0%Z
          | _, _ =>
              (match fd0 with
               | Some fd0 => modify (fun s => with_ofile (<[Z.to_nat fd0:=None]> (y_ofile s)) s)
               | None => mret tt
               end) ;;
              fileclose me pid kend rf ;;
              fileclose me pid kend wf ;;
              mret (-1)%Z
          end
      end
  end.
End Sys.
End Sysfile.
