(* ===== verification/Mkfs.v ===== *)
(** * The file system image: [mkfs]

    Models [src/xv6-public/mkfs.c], which builds the disk the kernel boots
    from.  The image is a function from block numbers to blocks; [freeinode] and
    [freeblock] are the counters of the program.  [xshort] and [xint] are the
    byte order of the layouts of [Fs].  The host files to be copied are
    arguments: their names and contents. *)
From S2P Require Export FsDefs.

Module Mkfs.
Import Fs.
Local Open Scope Z_scope.

Definition NINODES : Z := 200.
Definition nbitmap : Z := Bio.FSSIZE / (BSIZE * 8) + 1.
Definition ninodeblocks : Z := NINODES / IPB + 1.
Definition nlog : Z := Z.of_nat Log.LOGSIZE.
Definition nmeta : Z := 2 + nlog + ninodeblocks + nbitmap.

Definition mk_sb : superblock := mkSb Bio.FSSIZE (Bio.FSSIZE - nmeta) NINODES nlog 2 (2 + nlog) (2 + nlog + ninodeblocks).
Definition encode_sb (s : superblock) : list Z :=
  [sb_size s; sb_nblocks s; sb_ninodes s; sb_nlog s; sb_logstart s; sb_inodestart s; sb_bmapstart s] ≫= Log.le32.

Record mkst := mkMk { im : Z -> block; freeinode : Z; freeblock : Z }.
Definition mm A := stm mkst A.

Definition zeroes : block := replicate 512 0.

Definition wsect (sec : Z) (b : block) : mm unit :=
  modify (fun s => mkMk (fun k => if decide (k = sec) then b else im s k) (freeinode s) (freeblock s)).
Definition rsect (sec : Z) : mm block := s ← get; mret (im s sec).

Definition winode (inum : Z) (d : dinode) : mm unit :=
  b ← rsect (IBLOCK inum mk_sb);
  wsect (IBLOCK inum mk_sb) (put_dinode (Z.to_nat (inum mod IPB)) d b).
Definition rinode (inum : Z) : mm dinode :=
  b ← rsect (IBLOCK inum mk_sb);
  mret (get_dinode (Z.to_nat (inum mod IPB)) b).

Definition ialloc (type : Z) : mm Z :=
  s ← get;
  modify (fun s => mkMk (im s) (freeinode s + 1) (freeblock s)) ;;
  winode (freeinode s) (mkDinode type 0 0 1 0 (replicate 13 0)) ;;
  mret (freeinode s).

(** [freeblock++]. *)
Definition next_block : mm Z :=
  s ← get;
  modify (fun s => mkMk (im s) (freeinode s) (freeblock s + 1)) ;;
  mret (freeblock s).

(** The bits of the first [used] blocks. *)
Definition bitmap (used : Z) : block :=
  (fun k : nat => foldl (fun x j => if decide (8 * Z.of_nat k + j < used) then Z.lor x (Z.shiftl 1 j) else x) 0 (seqZ 0 8)) <$> seq 0 512.
Definition balloc (used : Z) : mm unit :=
  if decide (BSIZE * 8 <= used) then panic "assert(used < BSIZE*8)"
  else wsect (sb_bmapstart mk_sb) (bitmap used).

(** The block of the inode that holds its byte [off], allocated when missing. *)
Definition block_for (d : dinode) (fbn : Z) : mm (dinode * Z) :=
  let slot (d : dinode) k := default 0 (d_addrs d !! Z.to_nat k) in
  let set (d : dinode) k x := mkDinode (d_type d) (d_major d) (d_minor d) (d_nlink d) (d_size d) (<[Z.to_nat k:=x]> (d_addrs d)) in
  if decide (fbn < NDIRECT) then
    d ← (if decide (slot d fbn = 0) then x ← next_block; mret (set d fbn x) else mret d);
    mret (d, slot d fbn)
  else
    d ← (if decide (slot d NDIRECT = 0) then x ← next_block; mret (set d NDIRECT x) else mret d);
    ind ← rsect (slot d NDIRECT);
    let o := Z.to_nat (4 * (fbn - NDIRECT)) in
    ind ← (if decide (get_u32 ind o = 0) then
             x ← next_block;
             let ind := splice o (Log.le32 x) ind in
             wsect (slot d NDIRECT) ind ;; mret ind
           else mret ind);
    mret (d, get_u32 ind o).

(** The loop of [iappend]; every round copies at least a byte. *)
Fixpoint iappend_loop (fuel : nat) (d : dinode) (off : Z) (p : list Z) : mm (dinode * Z) :=
  if decide (p = []) then mret (d, off)
  else match fuel with
  | O => hang "iappend"
  | S fuel =>
      let fbn := off / BSIZE in
      if decide (MAXFILE <= fbn) then panic "assert(fbn < MAXFILE)"
      else
        '(d, x) ← block_for d fbn;
        let n1 := Z.min (Z.of_nat (length p)) ((fbn + 1) * BSIZE - off) in
        b ← rsect x;
        wsect x (splice (Z.to_nat (off - fbn * BSIZE)) (take (Z.to_nat n1) p) b) ;;
        iappend_loop fuel d (off + n1) (drop (Z.to_nat n1) p)
  end.

Definition set_dsize (z : Z) (d : dinode) : dinode := mkDinode (d_type d) (d_major d) (d_minor d) (d_nlink d) z (d_addrs d).

Definition iappend (inum : Z) (p : list Z) : mm unit :=
  d ← rinode inum;
  '(d, off) ← iappend_loop (length p) d (d_size d) p;
  winode inum (set_dsize off d).

(** [read(fd, buf, 512)] until the end of the file. *)
Fixpoint copy_file (fuel : nat) (inum : Z) (p : list Z) : mm unit :=
  if decide (p = []) then mret tt
  else match fuel with
  | O => hang "copy"
  | S fuel => iappend inum (take 512 p) ;; copy_file fuel inum (drop 512 p)
  end.

Definition dirent (inum : Z) (name : list Z) : list Z :=
  encode_dirent inum (take DIRSIZ (name ++ replicate DIRSIZ 0)).

Definition rootino : Z := ROOTINO.

Definition add_file (f : list Z * list Z) : mm unit :=
  let '(name, contents) := f in
  if decide (47 ∈ name) then panic "assert(index(argv[i], '/') == 0)"
  else
    let name := match name with 95 :: name => name | _ => name end in
    inum ← ialloc T_FILE;
    iappend rootino (dirent inum name) ;;
    copy_file (length contents) inum contents.

Fixpoint add_files (l : list (list Z * list Z)) : mm unit :=
  match l with
  | [] => mret tt
  | f :: l => add_file f ;; add_files l
  end.

Definition mkfs (files : list (list Z * list Z)) : mm unit :=
  wsect 1 (splice 0 (encode_sb mk_sb) zeroes) ;;
  r ← ialloc T_DIR;
  if decide (r <> ROOTINO) then panic "assert(rootino == ROOTINO)"
  else
    iappend r (dirent r [46]) ;;
    iappend r (dirent r [46; 46]) ;;
    add_files files ;;
    din ← rinode r;
    winode r (set_dsize ((d_size din / BSIZE + 1) * BSIZE) din) ;;
    s ← get;
    balloc (freeblock s).

(** The image of [FSSIZE] zero blocks the program starts from. *)
Definition mkfs_start : mkst := mkMk (fun _ => zeroes) 1 nmeta.
Definition image (files : list (list Z * list Z)) : outcome (Z -> block) :=
  '(_, s) ← mkfs files mkfs_start; Ret (im s).
End Mkfs.
