(* ===== verification/MkfsFile.v ===== *)
(** * The image that [mkfs] makes: one inode

    The blocks of an inode under construction ([lay], [has]), and the
    specification of [iappend]'s loop: it appends to the contents, takes the next
    free blocks and touches no other block. *)
From S2P Require Export Mkfs FsFile.

Module MkfsFile.
Import Fs FsBase FsBlocks FsInode FsFile Mkfs.
Local Open Scope Z_scope.

(** ** The blocks of an inode *)

Definition fs_of (m : Z -> block) : fsst := mkFs (fun a => m a.2) ∅ ∅ mk_sb [].
Definition ip_of (inum : Z) (d : dinode) : inode := of_dinode d (mkInode Bio.ROOTDEV inum 1 None true 0 0 0 0 0 []).

Definition ind (d : dinode) : Z := default 0 (d_addrs d !! 12%nat).
(** [addr_of], on the image. *)
Definition blk (m : Z -> block) (d : dinode) (k : Z) : Z :=
  if decide (k < NDIRECT) then default 0 (d_addrs d !! Z.to_nat k)
  else if decide (ind d = 0) then 0 else get_addr (k - NDIRECT) (m (ind d)).
Definition own (m : Z -> block) (d : dinode) (x : Z) : Prop := x <> 0 /\ (x = ind d \/ exists k, in_file k /\ blk m d k = x).
Definition set_daddrs (a : list Z) (d : dinode) : dinode := mkDinode (d_type d) (d_major d) (d_minor d) (d_nlink d) (d_size d) a.
Definition put_slot (k x : Z) (d : dinode) : dinode := set_daddrs (<[Z.to_nat k:=x]> (d_addrs d)) d.

(** The inode has exactly its first [nb] blocks, all of them below [fb]. *)
Record lay (m : Z -> block) (fb : Z) (d : dinode) (nb : Z) : Prop := {
  l_len : length (d_addrs d) = 13%nat;
  l_nb : 0 <= nb <= MAXFILE;
  l_use k : in_file k -> blk m d k <> 0 <-> k < nb;
  l_rng k : in_file k -> blk m d k <> 0 -> nmeta <= blk m d k < fb;
  l_inj j k : in_file j -> in_file k -> blk m d j <> 0 -> blk m d j = blk m d k -> j = k;
  l_ind : ind d <> 0 -> nmeta <= ind d < fb /\ forall k, in_file k -> blk m d k <> ind d
}.

Lemma nmeta_val : nmeta = 59.
Proof. reflexivity. Qed.

Lemma blk_direct m d k : k < NDIRECT -> blk m d k = default 0 (d_addrs d !! Z.to_nat k).
Proof. intros H. unfold blk. by rewrite decide_True. Qed.
Lemma blk_indirect m d k : NDIRECT <= k -> ind d <> 0 -> blk m d k = get_addr (k - NDIRECT) (m (ind d)).
Proof. intros H Hi. unfold blk. by rewrite decide_False, decide_False by lia. Qed.

(** Only the indirect block matters. *)
Lemma blk_ext m m' d k : (ind d <> 0 -> m' (ind d) = m (ind d)) -> blk m' d k = blk m d k.
Proof. intros H. unfold blk. repeat case_decide; try done. by rewrite H. Qed.
Lemma own_ext m m' d x : (ind d <> 0 -> m' (ind d) = m (ind d)) -> own m' d x <-> own m d x.
Proof. intros H. unfold own. setoid_rewrite (blk_ext m m' d); [done|done]. Qed.

Lemma lay_ext m m' fb fb' d nb : fb <= fb' -> (ind d <> 0 -> m' (ind d) = m (ind d)) -> lay m fb d nb -> lay m' fb' d nb.
Proof.
  intros Hf Hm [H1 H2 H3 H4 H5 H6].
  constructor; [done|done|..]; intros; rewrite ?(blk_ext m m') in * by done; eauto.
  - destruct (H4 k); [done|done|lia].
  - split; [destruct H6; [done|lia]|]. intros k Hk. rewrite (blk_ext m m') by done. by apply H6.
Qed.

Lemma ind_put_direct k x d : 0 <= k < NDIRECT -> ind (put_slot k x d) = ind d.
Proof. unfold NDIRECT. intros H. unfold ind, put_slot. cbn. rewrite list_lookup_insert_ne by lia. done. Qed.

Lemma blk_put_direct m k x d j :
  0 <= k < NDIRECT -> 0 <= j -> length (d_addrs d) = 13%nat ->
  blk m (put_slot k x d) j = if decide (j = k) then x else blk m d j.
Proof.
  intros Hk Hj Hl. unfold NDIRECT in Hk. unfold blk. rewrite ind_put_direct by (unfold NDIRECT; lia). cbn [put_slot set_daddrs d_addrs].
  unfold NDIRECT. destruct (decide (j = k)) as [->|Hne].
  - rewrite decide_True by lia. rewrite list_lookup_insert_eq by lia. done.
  - destruct (decide (j < 12)); [|done]. by rewrite list_lookup_insert_ne by lia.
Qed.

(** [xint(freeblock++)] into a direct slot. *)
Lemma lay_direct m fb d nb :
  lay m fb d nb -> nmeta <= fb -> nb < NDIRECT -> lay m (fb + 1) (put_slot nb fb d) (nb + 1).
Proof.
  intros [H1 H2 H3 H4 H5 H6] Hfb Hnb. pose proof nmeta_val as Hm. unfold NDIRECT in Hnb.
  assert (forall j, in_file j -> blk m (put_slot nb fb d) j = if decide (j = nb) then fb else blk m d j) as E.
  { intros j [Hj _]. apply blk_put_direct; [unfold NDIRECT; lia|done|done]. }
  constructor.
  - cbn. by rewrite length_insert.
  - unfold MAXFILE, NDIRECT, NINDIRECT in *. lia.
  - intros k Hk. rewrite E by done. pose proof (H3 k Hk). case_decide; lia.
  - intros k Hk. rewrite E by done. pose proof (H4 k Hk). case_decide; lia.
  - intros j k Hj Hk. rewrite !E by done. pose proof (H4 j Hj). pose proof (H4 k Hk). pose proof (H5 j k Hj Hk). repeat case_decide; lia.
  - rewrite ind_put_direct by (unfold NDIRECT; lia). intros Hi. destruct (H6 Hi) as [Hr Hd]. split; [lia|].
    intros k Hk. rewrite E by done. case_decide; [lia|by apply Hd].
Qed.

Lemma get_addr_zeroes k : get_addr k zeroes = 0.
Proof.
  assert (forall o, byte_at zeroes o = 0) as H.
  { intros o. unfold byte_at, zeroes. destruct (replicate 512 0 !! o) eqn:E; [|done]. by apply lookup_replicate in E as [-> _]. }
  unfold get_addr, get_u32, get_u16. by rewrite !H.
Qed.

(** A new indirect block. *)
Lemma lay_new_ind m fb d nb :
  lay m fb d nb -> nmeta <= fb -> ind d = 0 -> m fb = zeroes -> lay m (fb + 1) (put_slot NDIRECT fb d) nb.
Proof.
  intros [H1 H2 H3 H4 H5 H6] Hfb Hi Hz. pose proof nmeta_val as Hm.
  assert (ind (put_slot NDIRECT fb d) = fb) as Ei.
  { unfold ind, put_slot, set_daddrs. cbn [d_addrs]. change (Z.to_nat NDIRECT) with 12%nat. by rewrite list_lookup_insert_eq by lia. }
  assert (forall j, in_file j -> blk m (put_slot NDIRECT fb d) j = blk m d j) as E.
  { intros j [Hj _]. unfold blk. rewrite Ei, Hi, Hz, get_addr_zeroes. rewrite (decide_True _ _ eq_refl).
    destruct (decide (j < NDIRECT)); [|by destruct (decide (fb = 0))]. unfold put_slot, set_daddrs. cbn [d_addrs]. unfold NDIRECT in *.
    by rewrite list_lookup_insert_ne by lia. }
  constructor.
  - cbn. by rewrite length_insert.
  - done.
  - intros k Hk. rewrite E by done. by apply H3.
  - intros k Hk. rewrite E by done. pose proof (H4 k Hk). lia.
  - intros j k Hj Hk. rewrite !E by done. by apply H5.
  - rewrite Ei. intros _. split; [lia|]. intros k Hk. rewrite E by done. pose proof (H4 k Hk). lia.
Qed.

Definition put_blk (x : Z) (b : block) (m : Z -> block) : Z -> block := fun k => if decide (k = x) then b else m k.

(** [xint(freeblock++)] into the indirect block. *)
Lemma blk_entry m d nb x j :
  ind d <> 0 -> length (m (ind d)) = 512%nat -> NDIRECT <= nb < MAXFILE -> is_uint x -> in_file j ->
  blk (put_blk (ind d) (put_addr (nb - NDIRECT) x (m (ind d))) m) d j = if decide (j = nb) then x else blk m d j.
Proof.
  unfold in_file, MAXFILE, NDIRECT, NINDIRECT. intros Hi Hl Hnb Hx Hj. unfold blk, put_blk, NDIRECT. rewrite (decide_False (P := ind d = 0)) by done.
  rewrite (decide_True (P := ind d = ind d)) by done. destruct (decide (j < 12)).
  - by rewrite decide_False by lia.
  - destruct (decide (j = nb)) as [->|Hne].
    + apply get_put_addr; [done|done|unfold NINDIRECT; lia].
    + rewrite (decide_False (P := ind d = 0)) by done. apply get_put_addr_ne; [done|unfold NINDIRECT; lia|lia|lia].
Qed.

Lemma lay_entry m fb d nb :
  lay m fb d nb -> ind d <> 0 -> nmeta <= fb -> is_uint fb -> length (m (ind d)) = 512%nat -> NDIRECT <= nb < MAXFILE ->
  lay (put_blk (ind d) (put_addr (nb - NDIRECT) fb (m (ind d))) m) (fb + 1) d (nb + 1).
Proof.
  intros [H1 H2 H3 H4 H5 H6] Hi Hfb Hu Hl Hnb. pose proof nmeta_val as Hm.
  assert (forall j, in_file j -> blk (put_blk (ind d) (put_addr (nb - NDIRECT) fb (m (ind d))) m) d j = if decide (j = nb) then fb else blk m d j) as E
    by (intros; by apply blk_entry).
  destruct (H6 Hi) as [Hr Hd]. constructor.
  - done.
  - lia.
  - intros k Hk. rewrite E by done. pose proof (H3 k Hk). case_decide; lia.
  - intros k Hk. rewrite E by done. pose proof (H4 k Hk). case_decide; lia.
  - intros j k Hj Hk. rewrite !E by done. pose proof (H4 j Hj). pose proof (H4 k Hk). pose proof (H5 j k Hj Hk). repeat case_decide; lia.
  - intros _. split; [lia|]. intros k Hk. rewrite E by done. case_decide; [lia|by apply Hd].
Qed.
(** ** [iappend] *)

Record st_ok (s : mkst) : Prop := {
  st_fresh k : freeblock s <= k -> im s k = zeroes;
  st_blks k : length (im s k) = 512%nat;
  st_fb : nmeta <= freeblock s <= Bio.FSSIZE
}.

(** The blocks that [nb] blocks of contents take, with the indirect block. *)
Definition cost (nb : Z) : Z := nb + (if decide (NDIRECT < nb) then 1 else 0).
Definition tight (d : dinode) (nb : Z) : Prop := ind d <> 0 -> NDIRECT < nb.

Record grown (s : mkst) (d : dinode) (nb : Z) (s' : mkst) (d' : dinode) (nb' : Z) : Prop := {
  g_ok : st_ok s';
  g_lay : lay (im s') (freeblock s') d' nb';
  g_tight : tight d' nb';
  g_fi : freeinode s' = freeinode s;
  g_fb : freeblock s' - cost nb' = freeblock s - cost nb;
  g_le : freeblock s <= freeblock s';
  g_d : d' = set_daddrs (d_addrs d') d;
  g_keep k : 0 <= k < nb -> blk (im s') d' k = blk (im s) d k;
  g_new x : own (im s') d' x -> own (im s) d x \/ freeblock s <= x;
  g_old x : own (im s) d x -> own (im s') d' x;
  g_all x : freeblock s <= x < freeblock s' -> own (im s') d' x;
  g_frame x : x < freeblock s -> ~ own (im s) d x -> im s' x = im s x
}.

Lemma grown_same s d nb : st_ok s -> lay (im s) (freeblock s) d nb -> tight d nb -> grown s d nb s d nb.
Proof. intros Hs Hl Ht. constructor; try done; [by destruct d|auto|lia]. Qed.

Lemma grown_then s d nb s1 d1 nb1 s2 d2 nb2 :
  nb <= nb1 -> grown s d nb s1 d1 nb1 -> grown s1 d1 nb1 s2 d2 nb2 -> grown s d nb s2 d2 nb2.
Proof.
  intros Hle G1 G2. pose proof (g_le _ _ _ _ _ _ G1). constructor; [apply G2|apply G2|apply G2|..].
  - rewrite (g_fi _ _ _ _ _ _ G2). exact (g_fi _ _ _ _ _ _ G1).
  - rewrite (g_fb _ _ _ _ _ _ G2). exact (g_fb _ _ _ _ _ _ G1).
  - pose proof (g_le _ _ _ _ _ _ G2). lia.
  - rewrite (g_d _ _ _ _ _ _ G2) at 1. by rewrite (g_d _ _ _ _ _ _ G1) at 1.
  - intros k Hk. rewrite (g_keep _ _ _ _ _ _ G2) by lia. by apply (g_keep _ _ _ _ _ _ G1).
  - intros x Hx. destruct (g_new _ _ _ _ _ _ G2 x Hx) as [H1|H1]; [by apply (g_new _ _ _ _ _ _ G1)|right; lia].
  - intros x Hx. by apply (g_old _ _ _ _ _ _ G2), (g_old _ _ _ _ _ _ G1).
  - intros x Hx. destruct (decide (x < freeblock s1)); [apply (g_old _ _ _ _ _ _ G2), (g_all _ _ _ _ _ _ G1)|apply (g_all _ _ _ _ _ _ G2)]; lia.
  - intros x Hx Hn. rewrite (g_frame _ _ _ _ _ _ G2); [by apply (g_frame _ _ _ _ _ _ G1)|lia|].
    intros Ho. destruct (g_new _ _ _ _ _ _ G1 x Ho); [done|lia].
Qed.

Lemma wp_next_block Q s : Q (freeblock s) (mkMk (im s) (freeinode s) (freeblock s + 1)) -> wp next_block Q s.
Proof. done. Qed.

Lemma own_le m fb d nb x : lay m fb d nb -> own m d x -> nmeta <= x < fb.
Proof.
  intros Hl [H0 [->|(k & Hk & <-)]]; [by apply (l_ind _ _ _ _ Hl)|by apply (l_rng _ _ _ _ Hl)].
Qed.

(** The new block of [block_for]. *)
Definition appended (s : mkst) (d : dinode) (nb : Z) (s' : mkst) (d' : dinode) (x : Z) : Prop :=
  grown s d nb s' d' (nb + 1) /\ x = blk (im s') d' nb /\ freeblock s <= x /\ im s' x = zeroes /\
  forall y, y < freeblock s -> y <> ind d -> im s' y = im s y.

Lemma append_direct s d nb :
  st_ok s -> lay (im s) (freeblock s) d nb -> tight d nb -> nb < NDIRECT -> freeblock s < Bio.FSSIZE ->
  appended s d nb (mkMk (im s) (freeinode s) (freeblock s + 1)) (put_slot nb (freeblock s) d) (freeblock s).
Proof.
  intros Hs Hl Ht Hnb Hfs. pose proof (st_fb _ Hs) as Hfb. pose proof (l_nb _ _ _ _ Hl) as Hb. pose proof (l_len _ _ _ _ Hl) as Hlen.
  assert (forall j, 0 <= j -> blk (im s) (put_slot nb (freeblock s) d) j = if decide (j = nb) then freeblock s else blk (im s) d j) as E
    by (intros; apply blk_put_direct; [lia|done|done]).
  split; [|cbn; split; [by rewrite E, decide_True by lia|]; split; [done|]; split; [by apply (st_fresh _ Hs)|done]].
  constructor; cbn [im freeblock freeinode].
  - constructor; cbn; [intros; apply (st_fresh _ Hs); lia|apply Hs|lia].
  - apply lay_direct; [done|lia|done].
  - unfold tight. rewrite ind_put_direct by lia. intros Hi. specialize (Ht Hi). lia.
  - done.
  - unfold cost. rewrite !decide_False by lia. lia.
  - lia.
  - done.
  - intros k Hk. rewrite E by lia. by rewrite decide_False by lia.
  - intros x [H0 Hx]. rewrite ind_put_direct in Hx by lia. destruct Hx as [Hx|(k & Hk & Hx)].
    + left. split; [done|by left].
    + rewrite E in Hx by (destruct Hk; lia). case_decide; [right; lia|]. left. split; [done|right; eauto].
  - intros x [H0 Hx]. split; [done|]. rewrite ind_put_direct by lia. destruct Hx as [Hx|(k & Hk & Hx)]; [by left|right].
    exists k. split; [done|]. rewrite E by (destruct Hk; lia). case_decide as Hkn; [|done]. subst k.
    pose proof (l_use _ _ _ _ Hl nb Hk). lia.
  - intros x Hx. assert (x = freeblock s) as -> by lia. pose proof nmeta_val. split; [lia|right]. exists nb.
    split; [unfold in_file, MAXFILE, NDIRECT, NINDIRECT in *; lia|]. by rewrite E, decide_True by lia.
  - done.
Qed.

Lemma append_entry s d nb :
  st_ok s -> lay (im s) (freeblock s) d nb -> ind d <> 0 -> NDIRECT <= nb < MAXFILE -> freeblock s < Bio.FSSIZE ->
  let s' := mkMk (put_blk (ind d) (put_addr (nb - NDIRECT) (freeblock s) (im s (ind d))) (im s)) (freeinode s) (freeblock s + 1) in
  st_ok s' /\ lay (im s') (freeblock s') d (nb + 1) /\ blk (im s') d nb = freeblock s /\ im s' (freeblock s) = zeroes /\
  (forall k, in_file k -> k <> nb -> blk (im s') d k = blk (im s) d k) /\
  (forall y, y <> ind d -> im s' y = im s y).
Proof.
  intros Hs Hl Hi Hnb Hfs. pose proof (st_fb _ Hs) as Hfb. pose proof nmeta_val as Hm. cbn [im freeblock].
  destruct (l_ind _ _ _ _ Hl Hi) as [Hir _].
  assert (is_uint (freeblock s)) as Hu by (unfold is_uint, Bio.FSSIZE in *; lia).
  split; [|split; [|split; [|split; [|split]]]].
  - constructor; cbn [im freeblock]; [|intros k|lia].
    + intros k Hk. unfold put_blk. rewrite decide_False by lia. apply (st_fresh _ Hs). lia.
    + unfold put_blk. case_decide; [|apply Hs]. apply length_put_addr; [apply Hs|unfold NINDIRECT, MAXFILE, NDIRECT, NINDIRECT in *; lia].
  - apply lay_entry; [done|done|lia|done|apply Hs|done].
  - rewrite blk_entry; [by rewrite decide_True|done|apply Hs|done|done|unfold in_file, MAXFILE, NDIRECT, NINDIRECT in *; lia].
  - unfold put_blk. rewrite decide_False by lia. by apply (st_fresh _ Hs).
  - intros k Hk Hne. rewrite blk_entry; [by rewrite decide_False|done|apply Hs|done|done|done].
  - intros y Hy. unfold put_blk. by rewrite decide_False.
Qed.

Definition with_fb (s : mkst) (fb : Z) : mkst := mkMk (im s) (freeinode s) fb.

(** The entry is made in the indirect block [d1] has, which is the one of [d]
    or a new one. *)
Lemma appended_entry s d nb fb1 d1 :
  st_ok (with_fb s fb1) -> lay (im s) fb1 d1 nb -> ind d1 <> 0 -> NDIRECT <= nb < MAXFILE -> fb1 < Bio.FSSIZE ->
  d1 = set_daddrs (d_addrs d1) d -> (forall k, in_file k -> blk (im s) d1 k = blk (im s) d k) ->
  (ind d1 = ind d /\ fb1 = freeblock s /\ NDIRECT < nb) \/ (ind d = 0 /\ ind d1 = freeblock s /\ fb1 = freeblock s + 1 /\ nb = NDIRECT) ->
  appended s d nb (mkMk (put_blk (ind d1) (put_addr (nb - NDIRECT) fb1 (im s (ind d1))) (im s)) (freeinode s) (fb1 + 1)) d1 fb1.
Proof.
  intros Hs Hl Hi Hnb Hfs Hd Hk Hc. pose proof (st_fb _ Hs) as Hfb.
  destruct (append_entry (with_fb s fb1) d1 nb Hs Hl Hi Hnb Hfs) as (Hs' & Hl' & Hx & Hz & Hb & Hf).
  cbn [with_fb im freeblock freeinode] in *. set (s' := mkMk _ _ _) in *.
  split; [|split; [done|split; [lia|split; [done|]]]].
  2:{ intros y Hy Hyi. apply Hf. intros ->. lia. }
  constructor; [done|done| |done| |cbn; lia|done| | | | |].
  - intros _. lia.
  - cbn [s' freeblock]. unfold cost. rewrite (decide_True (P := NDIRECT < nb + 1)) by lia. case_decide; lia.
  - intros k Hkn. assert (in_file k) by (unfold in_file; lia). rewrite Hb by (done || lia). by apply Hk.
  - intros x [H0 [Hxi|(k & Hkf & Hxk)]].
    + destruct Hc as [(E & _)|(_ & E & _)]; [left; split; [done|left; congruence]|right; lia].
    + destruct (decide (k = nb)) as [->|Hne].
      * right. rewrite <- Hxk. trans fb1; [lia|]. apply Z.eq_le_incl. symmetry. exact Hx.
      * left. split; [done|right]. exists k. split; [done|]. rewrite <- Hk, <- Hxk by done. symmetry. by apply Hb.
  - intros x [H0 [Hxi|(k & Hkf & Hxk)]]; (split; [done|]).
    + left. destruct Hc as [(E & _)|(E & _)]; congruence.
    + right. exists k. split; [done|]. destruct (decide (k = nb)) as [->|Hne]; [|rewrite <- Hxk, <- Hk by done; by apply Hb].
      pose proof (l_use _ _ _ _ Hl nb Hkf) as Hu. rewrite Hk in Hu by done. lia.
  - cbn [s' freeblock]. intros x Hxr. pose proof nmeta_val. split; [lia|]. destruct (decide (x = fb1)) as [->|Hne].
    + right. exists nb. split; [unfold in_file, MAXFILE, NDIRECT, NINDIRECT in *; lia|exact Hx].
    + left. lia.
  - intros x Hxf Hno. apply Hf. intros ->. destruct Hc as [(E & _)|(_ & E & _)]; [|lia]. apply Hno. split; [done|by left].
Qed.

Definition block_post (s : mkst) (d : dinode) (nb fbn : Z) (r : dinode * Z) (s' : mkst) : Prop :=
  (fbn < nb /\ r = (d, blk (im s) d fbn) /\ s' = s) \/ (fbn = nb /\ appended s d nb s' r.1 r.2).

Lemma blk_put_new_ind m fb d k :
  length (d_addrs d) = 13%nat -> ind d = 0 -> m fb = zeroes -> in_file k -> blk m (put_slot NDIRECT fb d) k = blk m d k.
Proof.
  intros H1 Hi Hz [Hk _]. assert (ind (put_slot NDIRECT fb d) = fb) as Ei.
  { unfold ind, put_slot, set_daddrs. cbn [d_addrs]. change (Z.to_nat NDIRECT) with 12%nat. by rewrite list_lookup_insert_eq by lia. }
  unfold blk. rewrite Ei, Hi, Hz, get_addr_zeroes. rewrite (decide_True _ _ eq_refl).
  destruct (decide (k < NDIRECT)); [|by destruct (decide (fb = 0))]. unfold put_slot, set_daddrs. cbn [d_addrs]. unfold NDIRECT in *.
  by rewrite list_lookup_insert_ne by lia.
Qed.

Lemma ind_put_ind fb d : length (d_addrs d) = 13%nat -> ind (put_slot NDIRECT fb d) = fb.
Proof.
  intros H1. unfold ind, put_slot, set_daddrs. cbn [d_addrs]. change (Z.to_nat NDIRECT) with 12%nat.
  by rewrite list_lookup_insert_eq by lia.
Qed.

Lemma wp_entry s d fbn (Q : dinode * Z -> mkst -> Prop) :
  st_ok s -> NDIRECT <= fbn < MAXFILE ->
  (get_addr (fbn - NDIRECT) (im s (ind d)) <> 0 -> Q (d, get_addr (fbn - NDIRECT) (im s (ind d))) s) ->
  (get_addr (fbn - NDIRECT) (im s (ind d)) = 0 ->
   freeblock s < Bio.FSSIZE /\
   Q (d, freeblock s) (mkMk (put_blk (ind d) (put_addr (fbn - NDIRECT) (freeblock s) (im s (ind d))) (im s)) (freeinode s) (freeblock s + 1))) ->
  wp (let slot (d : dinode) k := default 0 (d_addrs d !! Z.to_nat k) in
      ind ← rsect (slot d NDIRECT);
      let o := Z.to_nat (4 * (fbn - NDIRECT)) in
      ind ← (if decide (get_u32 ind o = 0) then
               x ← next_block;
               let ind := splice o (Log.le32 x) ind in
               wsect (slot d NDIRECT) ind ;; mret ind
             else mret ind);
      mret (d, get_u32 ind o)) Q s.
Proof.
  intros Hs Hfbn H1 H2. pose proof (st_fb _ Hs) as Hfb. pose proof nmeta_val as Hm. cbv beta zeta.
  assert (default 0 (d_addrs d !! Z.to_nat NDIRECT) = ind d) as Hind by done. rewrite Hind.
  replace (Z.to_nat (4 * (fbn - NDIRECT))) with (4 * Z.to_nat (fbn - NDIRECT))%nat by lia.
  apply wp_bind, wp_bind, wp_get, wp_ret. fold (get_addr (fbn - NDIRECT) (im s (ind d))).
  destruct (decide (get_addr (fbn - NDIRECT) (im s (ind d)) = 0)) as [Hz|Hz].
  - destruct (H2 Hz) as [Hfs HQ]. apply wp_bind, wp_bind, wp_next_block, wp_bind, wp_modify, wp_ret, wp_ret. cbn [im freeblock freeinode].
    fold (put_addr (fbn - NDIRECT) (freeblock s) (im s (ind d))).
    fold (get_addr (fbn - NDIRECT) (put_addr (fbn - NDIRECT) (freeblock s) (im s (ind d)))).
    rewrite get_put_addr; [exact HQ| |apply Hs|unfold MAXFILE in Hfbn; lia].
    unfold is_uint, Bio.FSSIZE in *. lia.
  - apply wp_bind, wp_ret, wp_ret. by apply H1.
Qed.

Lemma block_for_spec s d nb fbn :
  st_ok s -> lay (im s) (freeblock s) d nb -> tight d nb -> 0 <= fbn <= nb -> fbn < MAXFILE ->
  (fbn = nb -> freeblock s + cost (nb + 1) - cost nb <= Bio.FSSIZE) ->
  wp (block_for d fbn) (block_post s d nb fbn) s.
Proof.
  intros Hs Hl Ht Hfbn Hmax Hroom. pose proof (st_fb _ Hs) as Hfb. pose proof nmeta_val as Hm. pose proof (l_len _ _ _ _ Hl) as Hlen.
  pose proof (l_use _ _ _ _ Hl fbn ltac:(unfold in_file; lia)) as Huse. unfold block_for. destruct (decide (fbn < NDIRECT)) as [Hd|Hd].
  { rewrite <- (blk_direct (im s) d fbn Hd). destruct (decide (blk (im s) d fbn = 0)) as [Hz|Hz].
    - assert (fbn = nb) as -> by lia. right. split; [done|]. cbn [fst snd d_addrs].
      assert (E : default 0 (<[Z.to_nat nb:=freeblock s]> (d_addrs d) !! Z.to_nat nb) = freeblock s)
        by (rewrite list_lookup_insert_eq; [done|unfold NDIRECT in *; lia]).
      rewrite E. apply append_direct; [done|done|done|done|]. specialize (Hroom eq_refl). unfold cost in Hroom. repeat case_decide; lia.
    - left. split; [lia|]. split; [|done]. by rewrite (blk_direct (im s) d fbn Hd). }
  assert (default 0 (d_addrs d !! Z.to_nat NDIRECT) = ind d) as Hind by done. rewrite Hind. destruct (decide (ind d = 0)) as [Hi|Hi].
  - (* a new indirect block *)
    assert (blk (im s) d NDIRECT = 0) as Hb0 by (unfold blk; by rewrite decide_False, decide_True by (done || lia)).
    destruct (l_use _ _ _ _ Hl NDIRECT) as [_ H12]; [done|]. assert (fbn = NDIRECT /\ nb = NDIRECT) as [-> ->] by lia.
    specialize (Hroom eq_refl). unfold cost in Hroom. rewrite decide_True, decide_False in Hroom by lia.
    apply wp_bind, wp_bind, wp_next_block, wp_ret. fold (put_slot NDIRECT (freeblock s) d).
    assert (st_ok (with_fb s (freeblock s + 1))) as Hs1 by (constructor; cbn; [intros; apply (st_fresh _ Hs); lia|apply Hs|lia]).
    assert (im s (freeblock s) = zeroes) as Hz by (by apply (st_fresh _ Hs)).
    apply (wp_entry (with_fb s (freeblock s + 1)) (put_slot NDIRECT (freeblock s) d)); [done|lia|..].
    { rewrite ind_put_ind by done. cbn [with_fb im]. by rewrite Hz, get_addr_zeroes. }
    intros _. split; [cbn; lia|]. right. split; [done|].
    apply (appended_entry s d NDIRECT (freeblock s + 1) (put_slot NDIRECT (freeblock s) d));
      [done|by apply lay_new_ind; [|lia| |]|rewrite ind_put_ind by done; lia|lia|lia|done|intros; by apply blk_put_new_ind|].
    right. split; [done|]. by rewrite ind_put_ind.
  - assert (NDIRECT < nb) as Hgt by (by apply Ht). apply wp_bind, wp_ret.
    apply (wp_entry s d); [done|lia|..]; rewrite <- (blk_indirect (im s) d fbn) by (done || lia).
    + intros Hz. left. split; [tauto|done].
    + intros Hz. assert (fbn = nb) as -> by lia. specialize (Hroom eq_refl). unfold cost in Hroom.
      assert (freeblock s < Bio.FSSIZE) by (repeat case_decide; lia). split; [done|]. right. split; [done|].
      apply (appended_entry s d nb (freeblock s) d); [by destruct s|done|done|lia|done|by destruct d|done|by left].
Qed.
(** The first [nb] blocks hold [l], followed by zeros. *)
Definition has (m : Z -> block) (d : dinode) (nb : Z) (l : list Z) : Prop :=
  forall j, 0 <= j < nb * BSIZE -> byte_at (m (blk m d (j / BSIZE))) (Z.to_nat (j mod BSIZE)) = byte_at l (Z.to_nat j).
Definition nblk (n : Z) : Z := (n + BSIZE - 1) / BSIZE.

Lemma byte_at_app l p k : byte_at (l ++ p) k = if decide (k < length l)%nat then byte_at l k else byte_at p (k - length l).
Proof. unfold byte_at. case_decide; [by rewrite lookup_app_l|by rewrite lookup_app_r by lia]. Qed.
Lemma byte_at_ge l k : (length l <= k)%nat -> byte_at l k = 0.
Proof. intros H. unfold byte_at. by rewrite lookup_ge_None_2. Qed.

Definition wr (x : Z) (b : block) (s : mkst) : mkst := mkMk (put_blk x b (im s)) (freeinode s) (freeblock s).

(** Writing a block of the inode. *)
Lemma wr_blk m fb d nb fbn b k :
  lay m fb d nb -> in_file fbn -> blk (put_blk (blk m d fbn) b m) d k = blk m d k.
Proof.
  intros Hl Hf. apply blk_ext. intros Hi. unfold put_blk. rewrite decide_False; [done|].
  apply not_eq_sym. by apply (l_ind _ _ _ _ Hl).
Qed.

Lemma grown_write s d nb s1 d1 nb1 fbn b :
  grown s d nb s1 d1 nb1 -> in_file fbn -> fbn < nb1 -> length b = 512%nat ->
  grown s d nb (wr (blk (im s1) d1 fbn) b s1) d1 nb1.
Proof.
  intros G Hf Hlt Hb. pose proof (g_lay _ _ _ _ _ _ G) as Hl. pose proof (g_ok _ _ _ _ _ _ G) as Hs.
  set (x := blk (im s1) d1 fbn). assert (own (im s1) d1 x) as Ho.
  { split; [|right; by exists fbn]. by apply (l_use _ _ _ _ Hl). }
  pose proof (own_le _ _ _ _ _ Hl Ho) as Hx.
  assert (ind d1 <> 0 -> put_blk x b (im s1) (ind d1) = im s1 (ind d1)) as Hi.
  { intros Hi. unfold put_blk. rewrite decide_False; [done|]. apply not_eq_sym. by apply (l_ind _ _ _ _ Hl). }
  constructor; cbn [wr im freeblock freeinode]; [|eapply lay_ext; [|exact Hi|exact Hl]; lia|exact (g_tight _ _ _ _ _ _ G)|exact (g_fi _ _ _ _ _ _ G)|exact (g_fb _ _ _ _ _ _ G)|exact (g_le _ _ _ _ _ _ G)|exact (g_d _ _ _ _ _ _ G)| | | | |].
  - constructor; cbn [wr im freeblock]; [|intros k|apply Hs].
    + intros k Hk. unfold put_blk. rewrite decide_False by lia. by apply (st_fresh _ Hs).
    + unfold put_blk. case_decide; [done|apply Hs].
  - intros k Hk. unfold x. erewrite wr_blk by done. by apply (g_keep _ _ _ _ _ _ G).
  - intros y Hy. apply (own_ext _ _ _ y Hi) in Hy. by apply (g_new _ _ _ _ _ _ G).
  - intros y Hy. apply (own_ext _ _ _ y Hi). by apply (g_old _ _ _ _ _ _ G).
  - intros y Hy. apply (own_ext _ _ _ y Hi). by apply (g_all _ _ _ _ _ _ G).
  - intros y Hy Hn. unfold put_blk. rewrite decide_False; [by apply (g_frame _ _ _ _ _ _ G)|].
    intros ->. destruct (g_new _ _ _ _ _ _ G x Ho); [done|lia].
Qed.

Lemma has_appended s d nb s1 d1 x l :
  st_ok s -> lay (im s) (freeblock s) d nb -> appended s d nb s1 d1 x -> nb < MAXFILE -> Z.of_nat (length l) <= nb * BSIZE ->
  has (im s) d nb l -> has (im s1) d1 (nb + 1) l.
Proof.
  intros Hs Hl (G & Hx & _ & Hz & Hf) Hnb Hlen Hh j Hj. unfold BSIZE in *. pose proof (l_nb _ _ _ _ Hl) as Hn.
  destruct (decide (j / 512 = nb)) as [E|Hne].
  - rewrite E, <- Hx, Hz. rewrite (byte_at_ge l) by (Z.div_mod_to_equations; lia).
    unfold byte_at, zeroes. destruct (replicate 512 0 !! _) eqn:Er; [|done]. by apply lookup_replicate in Er as [-> _].
  - assert (0 <= j / 512 < nb) as Hk by (Z.div_mod_to_equations; lia). assert (in_file (j / 512)) by (unfold in_file; lia).
    rewrite (g_keep _ _ _ _ _ _ G) by done. rewrite <- Hh by (unfold BSIZE; Z.div_mod_to_equations; lia).
    assert (blk (im s) d (j / 512) <> 0) as H0 by (apply (l_use _ _ _ _ Hl); [done|lia]).
    rewrite Hf; [done|by apply (l_rng _ _ _ _ Hl)|].
    intros E. destruct (l_ind _ _ _ _ Hl) as [_ Hd]; [congruence|]. by apply (Hd (j / 512)).
Qed.

Lemma has_write s d nb l p fbn :
  st_ok s -> lay (im s) (freeblock s) d nb -> has (im s) d nb l -> fbn = Z.of_nat (length l) / BSIZE -> nb = fbn + 1 ->
  Z.of_nat (length l + length p) <= nb * BSIZE ->
  let x := blk (im s) d fbn in
  let b := splice (Z.to_nat (Z.of_nat (length l) - fbn * BSIZE)) p (im s x) in
  length b = 512%nat /\ has (put_blk x b (im s)) d nb (l ++ p).
Proof.
  intros Hs Hl Hh Hfbn Hnb Hlen x b. unfold BSIZE in *. pose proof (l_nb _ _ _ _ Hl) as Hn.
  assert (in_file fbn) as Hf by (unfold in_file; Z.div_mod_to_equations; lia).
  set (o := Z.to_nat (Z.of_nat (length l) - fbn * 512)) in *.
  assert (o + length p <= length (im s x))%nat as Ho by (rewrite (st_blks _ Hs); unfold o; Z.div_mod_to_equations; lia).
  assert (length b = 512%nat) as Hb by (unfold b; rewrite length_splice by done; apply Hs).
  split; [done|]. intros j Hj. unfold BSIZE in *. unfold x at 2. erewrite wr_blk by done.
  assert (in_file (j / 512)) as Hjf by (unfold in_file; Z.div_mod_to_equations; lia).
  destruct (decide (j / 512 = fbn)) as [E|Hne].
  - rewrite E. fold x. unfold put_blk. rewrite decide_True by done. unfold b. rewrite byte_at_splice by done.
    rewrite byte_at_app. specialize (Hh j Hj). unfold BSIZE in Hh. rewrite E in Hh. fold x in Hh.
    destruct (decide (o <= Z.to_nat (j mod 512) < o + length p)%nat).
    + rewrite decide_False by (unfold o in *; Z.div_mod_to_equations; lia). f_equal. unfold o in *. Z.div_mod_to_equations. lia.
    + rewrite Hh. destruct (decide (Z.to_nat j < length l)%nat); [done|].
      rewrite !byte_at_ge by (unfold o in *; Z.div_mod_to_equations; lia). done.
  - unfold put_blk. rewrite decide_False.
    + rewrite Hh by done. rewrite byte_at_app. destruct (decide (Z.to_nat j < length l)%nat); [done|].
      rewrite !byte_at_ge by (Z.div_mod_to_equations; lia). done.
    + intros Ex. apply Hne. apply (l_inj _ _ _ _ Hl); [done|done| |done]. apply (l_use _ _ _ _ Hl); [done|]. Z.div_mod_to_equations; lia.
Qed.
Definition zlen (l : list Z) : Z := Z.of_nat (length l).
Definition holds (s : mkst) (d : dinode) (l : list Z) : Prop :=
  st_ok s /\ lay (im s) (freeblock s) d (nblk (zlen l)) /\ tight d (nblk (zlen l)) /\ has (im s) d (nblk (zlen l)) l.
Definition extended (s : mkst) (d : dinode) (l : list Z) (s' : mkst) (d' : dinode) (l' : list Z) : Prop :=
  grown s d (nblk (zlen l)) s' d' (nblk (zlen l')) /\ has (im s') d' (nblk (zlen l')) l'.

Lemma extended_holds s d l s' d' l' : extended s d l s' d' l' -> holds s' d' l'.
Proof. intros [G H]. split; [apply G|]. split; [by apply (g_lay _ _ _ _ _ _ G)|]. split; [by apply (g_tight _ _ _ _ _ _ G)|done]. Qed.

Lemma cost_mono a b : a <= b -> cost a <= cost b.
Proof. unfold cost. intros. repeat case_decide; lia. Qed.
Lemma nblk_mono a b : a <= b -> nblk a <= nblk b.
Proof. unfold nblk, BSIZE. intros. Z.div_mod_to_equations; lia. Qed.

(** A round of the loop, after [block_for]. *)
Lemma append_round s d l p fbn d1 x s1 :
  holds s d l -> p <> [] -> fbn = zlen l / BSIZE -> fbn < MAXFILE -> zlen l + zlen p <= (fbn + 1) * BSIZE ->
  block_post s d (nblk (zlen l)) fbn (d1, x) s1 ->
  extended s d l (wr x (splice (Z.to_nat (zlen l - fbn * BSIZE)) p (im s1 x)) s1) d1 (l ++ p).
Proof.
  intros (Hs & Hl & Ht & Hh) Hp Hfbn Hmax Hlen Hpost. set (nb := nblk (zlen l)) in *.
  assert (0 < zlen p) as Hp0 by (unfold zlen; destruct p; cbn; [done|lia]).
  assert (nblk (zlen (l ++ p)) = fbn + 1) as Hnb2.
  { unfold nblk, zlen, BSIZE in *. rewrite length_app. Z.div_mod_to_equations; lia. }
  assert (in_file fbn) as Hf by (unfold in_file, zlen, BSIZE in *; Z.div_mod_to_equations; lia).
  assert (grown s d nb s1 d1 (fbn + 1) /\ x = blk (im s1) d1 fbn /\ has (im s1) d1 (fbn + 1) l) as (G & -> & Hh1).
  { destruct Hpost as [(Hlt & [= -> ->] & ->)|(-> & Ha)]; cbn [fst snd] in *.
    - assert (nb = fbn + 1) as <- by (unfold nb, nblk, zlen, BSIZE in *; Z.div_mod_to_equations; lia).
      split; [by apply grown_same|done].
    - split; [apply Ha|]. split; [apply Ha|]. eapply has_appended; [done|done|exact Ha|done| |done].
      unfold nb, nblk, zlen, BSIZE in *. Z.div_mod_to_equations; lia. }
  destruct (has_write s1 d1 (fbn + 1) l p fbn) as [Hb Hh2]; [apply G|by apply (g_lay _ _ _ _ _ _ G)|done|done|done| |].
  { unfold zlen in *. lia. }
  split; rewrite Hnb2; [|done]. apply grown_write; [done|done|lia|done].
Qed.

Lemma iappend_loop_spec fuel p d l s :
  (length p <= fuel)%nat -> holds s d l -> nblk (zlen l + zlen p) <= MAXFILE ->
  freeblock s + cost (nblk (zlen l + zlen p)) - cost (nblk (zlen l)) <= Bio.FSSIZE ->
  wp (iappend_loop fuel d (zlen l) p) (fun r s' => r.2 = zlen (l ++ p) /\ extended s d l s' r.1 (l ++ p)) s.
Proof.
  revert p d l s. induction fuel as [|fuel IH]; intros p d l s Hfuel Hh Hmax Hroom; cbn [iappend_loop].
  { destruct p; [|cbn in Hfuel; lia]. rewrite app_nil_r. rewrite decide_True by done. apply wp_ret. split; [done|].
    destruct Hh as (?&?&?&?). split; [by apply grown_same|done]. }
  destruct (decide (p = [])) as [->|Hp].
  { rewrite app_nil_r. apply wp_ret. split; [done|]. destruct Hh as (?&?&?&?). split; [by apply grown_same|done]. }
  assert (0 < zlen p) as Hp0 by (unfold zlen; destruct p; cbn; [done|lia]).
  set (fbn := zlen l / BSIZE). assert (fbn < MAXFILE) as Hfm by (unfold fbn, nblk, zlen, BSIZE in *; Z.div_mod_to_equations; lia).
  rewrite decide_False by lia. set (n1 := Z.min (Z.of_nat (length p)) ((fbn + 1) * BSIZE - zlen l)).
  set (nb := nblk (zlen l)) in *.
  assert (0 < n1 <= zlen p) as Hn1 by (unfold n1, fbn, zlen, BSIZE in *; Z.div_mod_to_equations; lia).
  assert (nblk (zlen l + zlen p) >= fbn + 1 /\ nb <= fbn + 1 /\ fbn <= nb) as (Hq1 & Hq2 & Hq3)
    by (unfold nb, nblk, fbn, zlen, BSIZE in *; Z.div_mod_to_equations; lia).
  destruct Hh as (Hs & Hl & Ht & Hc). apply wp_bind. eapply wp_mono.
  { apply block_for_spec with (nb := nb); [done|done|done| |done|].
    - unfold fbn, zlen, BSIZE in *. split; [Z.div_mod_to_equations; lia|done].
    - intros E. pose proof (cost_mono (nb + 1) (nblk (zlen l + zlen p))). lia. }
  intros [d1 x] s1 Hpost. cbn beta iota. apply wp_bind, wp_bind, wp_get, wp_ret, wp_bind, wp_modify.
  set (p1 := take (Z.to_nat n1) p). assert (zlen p1 = n1) as Hp1 by (unfold p1, zlen in *; rewrite length_take; lia).
  assert (zlen (l ++ p1) = zlen l + n1) as Hl1 by (unfold zlen in *; rewrite length_app; lia).
  pose proof (append_round s d l p1 fbn d1 x s1) as Hext. fold nb in Hext.
  assert (extended s d l (wr x (splice (Z.to_nat (zlen l - fbn * BSIZE)) p1 (im s1 x)) s1) d1 (l ++ p1)) as Hx.
  { apply Hext; [done| |done|done|unfold n1 in *; lia|done]. intros E. rewrite E in Hp1. unfold zlen in Hp1. cbn in Hp1. lia. }
  clear Hext. set (s2 := wr _ _ _) in Hx. change (mkMk _ _ _) with s2. rewrite <- Hl1. set (p2 := drop (Z.to_nat n1) p).
  assert (zlen (l ++ p1) + zlen p2 = zlen l + zlen p) as Hl2 by (unfold p2, zlen in *; rewrite length_drop; lia).
  assert (p1 ++ p2 = p) as Hpp by apply take_drop.
  destruct Hx as [G Hc1]. pose proof (g_fb _ _ _ _ _ _ G) as Hfb. fold nb in Hfb.
  eapply wp_mono. { apply IH; [unfold p2; rewrite length_drop; lia|by eapply extended_holds|by rewrite Hl2|rewrite Hl2; lia]. }
  intros [d3 o3] s3 [Ho [G3 H3]]. rewrite <- app_assoc, Hpp in *. split; [done|]. split; [|done].
  eapply grown_then; [|exact G|exact G3]. apply nblk_mono. lia.
Qed.
End MkfsFile.
