(* ===== verification/MkfsThms.v ===== *)
(** * The image that [mkfs] makes

    The image is a well-formed file system in the sense of [FsBlocks] and
    [FsInode], with the files given to [mkfs] in its root directory. *)
From S2P Require Export MkfsFile.

Module MkfsThms.
Import Fs FsBase FsBlocks FsInode FsFile Mkfs MkfsFile.
Local Open Scope Z_scope.

(** Inode [i] of the image. *)
Definition ino (m : Z -> block) (i : Z) : dinode := get_dinode (Z.to_nat (i mod IPB)) (m (IBLOCK i mk_sb)).

Lemma iblock_meta i : 0 <= i < NINODES -> 1 < IBLOCK i mk_sb < sb_bmapstart mk_sb /\ sb_bmapstart mk_sb < nmeta.
Proof. unfold NINODES, IBLOCK, IPB. change (sb_inodestart mk_sb) with 32. change (sb_bmapstart mk_sb) with 58. change nmeta with 59. intros. Z.div_mod_to_equations; lia. Qed.

Lemma ino_put m i d j :
  0 <= i -> 0 <= j -> dinode_ok d -> length (m (IBLOCK i mk_sb)) = 512%nat ->
  ino (put_blk (IBLOCK i mk_sb) (put_dinode (Z.to_nat (i mod IPB)) d (m (IBLOCK i mk_sb))) m) j = if decide (j = i) then d else ino m j.
Proof.
  intros Hi Hj Hd Hl. unfold ino, put_blk. destruct (decide (j = i)) as [->|Hne].
  - rewrite decide_True by done. apply get_put_dinode; [done|done|]. unfold IPB. Z.div_mod_to_equations; lia.
  - case_decide as E; [|done]. rewrite <- E. rewrite E. apply get_put_dinode_ne; [apply Hd|done|..].
    + unfold IBLOCK, IPB in *. Z.div_mod_to_equations; lia.
    + unfold IPB. Z.div_mod_to_equations; lia.
Qed.

(** A file: its type, its size and its contents. *)
Record file := mkF { f_type : Z; f_size : Z; f_data : list Z }.

Record file_ok (m : Z -> block) (fb : Z) (d : dinode) (f : file) : Prop := {
  fk_d : d = mkDinode (f_type f) 0 0 1 (f_size f) (d_addrs d);
  fk_type : is_short (f_type f);
  fk_size : is_uint (f_size f);
  fk_lay : lay m fb d (nblk (zlen (f_data f)));
  fk_tight : tight d (nblk (zlen (f_data f)));
  fk_has : has m d (nblk (zlen (f_data f))) (f_data f)
}.

Lemma file_ok_frame m fb m' fb' d f :
  file_ok m fb d f -> fb <= fb' -> (forall x, own m d x -> m' x = m x) ->
  file_ok m' fb' d f /\ forall x, own m' d x <-> own m d x.
Proof.
  intros [H1 H2 H3 Hl Ht Hh] Hfb Hm.
  assert (ind d <> 0 -> m' (ind d) = m (ind d)) as Hi by (intros H0; apply Hm; split; [done|by left]).
  split; [|intros x; by apply own_ext]. constructor; [done|done|done|by eapply lay_ext|done|].
  intros j Hj. rewrite (blk_ext m m' d) by done. rewrite <- Hh by done.
  pose proof (l_nb _ _ _ _ Hl) as Hn. unfold BSIZE in *.
  assert (in_file (j / 512)) as Hf by (unfold in_file; Z.div_mod_to_equations; lia).
  rewrite Hm; [done|]. split; [|right; eauto]. apply (l_use _ _ _ _ Hl); [done|]. Z.div_mod_to_equations; lia.
Qed.

Lemma lay_dinode_ok m fb d nb : lay m fb d nb -> fb <= Bio.FSSIZE ->
  is_short (d_type d) -> is_short (d_major d) -> is_short (d_minor d) -> is_short (d_nlink d) -> is_uint (d_size d) -> dinode_ok d.
Proof.
  intros Hl Hfb H1 H2 H3 H4 H5. constructor; [done|done|apply Hl|]. apply Forall_lookup. intros k x Hk.
  pose proof (lookup_lt_Some _ _ _ Hk) as Hlt. rewrite (l_len _ _ _ _ Hl) in Hlt. pose proof nmeta_val. unfold is_uint, Bio.FSSIZE in *.
  destruct (decide (x = 0)); [lia|]. destruct (decide (k = 12%nat)) as [->|].
  - assert (ind d = x) as E by (unfold ind; by rewrite Hk). destruct (l_ind _ _ _ _ Hl); [congruence|]. lia.
  - assert (blk m d (Z.of_nat k) = x) as E.
    { rewrite blk_direct by (unfold NDIRECT; lia). by rewrite Nat2Z.id, Hk. }
    pose proof (l_rng _ _ _ _ Hl (Z.of_nat k)) as Hr. rewrite E in Hr.
    destruct Hr; [unfold in_file, MAXFILE, NDIRECT, NINDIRECT; lia|done|lia].
Qed.
(** Only the addresses matter. *)
Lemma lay_addrs m fb d d' nb : d_addrs d' = d_addrs d -> lay m fb d nb -> lay m fb d' nb.
Proof.
  intros E [H1 H2 H3 H4 H5 H6]. assert (ind d' = ind d) as Ei by (unfold ind; by rewrite E).
  assert (forall k, blk m d' k = blk m d k) as Eb by (intros; unfold blk; by rewrite Ei, E).
  constructor; [by rewrite E|done|intros k; rewrite Eb; apply H3|intros k; rewrite Eb; apply H4|intros j k; rewrite !Eb; apply H5|].
  rewrite Ei. intros Hi. destruct (H6 Hi) as [Hr Hd]. split; [done|]. intros k. rewrite Eb. apply Hd.
Qed.

(** ** The image under construction *)

Definition sb_block : block := splice 0 (encode_sb mk_sb) zeroes.
Definition fcost (f : file) : Z := cost (nblk (zlen (f_data f))).
Definition total (C : list file) : Z := foldr (fun f n => fcost f + n) 0 C.
Definition inum (i : nat) : Z := Z.of_nat i + 1.

(** Inode [inum i] is the file [C !! i], no block is in two files, and every block
    taken is in one. *)
Record img (s : mkst) (C : list file) : Prop := {
  v_st : st_ok s;
  v_sb : im s 1 = sb_block;
  v_fi : freeinode s = inum (length C);
  v_max : Z.of_nat (length C) < NINODES;
  v_cnt : freeblock s = nmeta + total C;
  v_file i f : C !! i = Some f -> file_ok (im s) (freeblock s) (ino (im s) (inum i)) f;
  v_disj i j f g x : C !! i = Some f -> C !! j = Some g -> own (im s) (ino (im s) (inum i)) x -> own (im s) (ino (im s) (inum j)) x -> i = j;
  v_all x : nmeta <= x < freeblock s -> exists i f, C !! i = Some f /\ own (im s) (ino (im s) (inum i)) x
}.

Lemma total_insert C i f g : C !! i = Some f -> total (<[i:=g]> C) = total C - fcost f + fcost g.
Proof.
  revert i. induction C as [|h C IH]; intros [|i] H; try done.
  - injection H as ->. cbn. lia.
  - change (fcost h + total (<[i:=g]> C) = fcost h + total C - fcost f + fcost g). rewrite (IH i) by done. lia.
Qed.
Lemma total_cons f C : total (f :: C) = fcost f + total C.
Proof. done. Qed.
Lemma total_app C C' : total (C ++ C') = total C + total C'.
Proof. induction C as [|h C IH]; [done|]. rewrite <- app_comm_cons, !total_cons. lia. Qed.
Lemma total_nonneg C : 0 <= total C.
Proof.
  induction C as [|h C IH]; [done|]. rewrite total_cons. unfold fcost, cost, nblk, zlen, BSIZE. case_decide; Z.div_mod_to_equations; lia.
Qed.

Lemma inum_lt s C j h : img s C -> C !! j = Some h -> 0 <= inum j < NINODES.
Proof. intros Himg H%lookup_lt_Some. pose proof (v_max _ _ Himg). unfold inum, NINODES in *. lia. Qed.

Section Step.
Context (s : mkst) (C : list file) (i : nat) (f : file) (s1 : mkst) (d1 : dinode) (g : file).
Hypothesis Himg : img s C.
Hypothesis Hi : C !! i = Some f.
Hypothesis G : grown s (ino (im s) (inum i)) (nblk (zlen (f_data f))) s1 d1 (nblk (zlen (f_data g))).
Hypothesis Hhas : has (im s1) d1 (nblk (zlen (f_data g))) (f_data g).
Hypothesis Htype : f_type g = f_type f.
Hypothesis Hsize : is_uint (f_size g).

Let d2 : dinode := mkDinode (f_type g) 0 0 1 (f_size g) (d_addrs d1).
Let ib : Z := IBLOCK (inum i) mk_sb.
Let s2 : mkst := wr ib (put_dinode (Z.to_nat (inum i mod IPB)) d2 (im s1 ib)) s1.

Lemma step_below x : x < nmeta -> im s1 x = im s x.
Proof.
  intros Hx. pose proof (st_fb _ (v_st _ _ Himg)). apply (g_frame _ _ _ _ _ _ G); [lia|].
  intros Ho. pose proof (own_le _ _ _ _ _ (fk_lay _ _ _ _ (v_file _ _ Himg _ _ Hi)) Ho). lia.
Qed.

Lemma step_im x : nmeta <= x -> im s2 x = im s1 x.
Proof.
  intros Hx. cbn. unfold put_blk. rewrite decide_False; [done|]. destruct (iblock_meta (inum i)) as [H1 H2]; [by eapply inum_lt|].
  unfold ib. lia.
Qed.

Lemma step_d2 : dinode_ok d2.
Proof.
  pose proof (g_lay _ _ _ _ _ _ G) as Hl. pose proof (st_fb _ (g_ok _ _ _ _ _ _ G)).
  eapply (lay_dinode_ok (im s1) (freeblock s1)); [eapply lay_addrs; [|exact Hl]; done|lia| |done|done|done|done].
  cbn. rewrite Htype. apply (v_file _ _ Himg _ _ Hi).
Qed.

Lemma step_ino j h : C !! j = Some h -> ino (im s2) (inum j) = if decide (j = i) then d2 else ino (im s) (inum j).
Proof.
  intros Hj. pose proof (inum_lt _ _ _ _ Himg Hj) as Hjl. pose proof (inum_lt _ _ _ _ Himg Hi) as Hil. cbn [s2 wr im]. unfold ib.
  rewrite ino_put; [|lia|lia|apply step_d2|apply (st_blks _ (g_ok _ _ _ _ _ _ G))].
  destruct (decide (j = i)) as [->|Hne]; [by rewrite decide_True|]. rewrite decide_False by (unfold inum; lia).
  unfold ino. by rewrite step_below by (destruct (iblock_meta (inum j)); lia).
Qed.

Lemma step_own_i x : own (im s2) d2 x <-> own (im s1) d1 x.
Proof.
  change (own (im s2) d1 x <-> own (im s1) d1 x). apply own_ext. intros H0. apply step_im.
  by apply (l_ind _ _ _ _ (g_lay _ _ _ _ _ _ G)).
Qed.

Lemma step_other j h : C !! j = Some h -> j <> i ->
  file_ok (im s2) (freeblock s2) (ino (im s) (inum j)) h /\ forall x, own (im s2) (ino (im s) (inum j)) x <-> own (im s) (ino (im s) (inum j)) x.
Proof.
  intros Hj Hne. pose proof (v_file _ _ Himg _ _ Hj) as Hf. apply (file_ok_frame _ _ _ _ _ _ Hf).
  - apply (g_le _ _ _ _ _ _ G).
  - intros x Ho. pose proof (own_le _ _ _ _ _ (fk_lay _ _ _ _ Hf) Ho) as Hx. rewrite step_im by lia.
    apply (g_frame _ _ _ _ _ _ G); [lia|]. intros Ho'. apply Hne. by eapply (v_disj _ _ Himg j i).
Qed.

Lemma step_file_i : file_ok (im s2) (freeblock s2) d2 g.
Proof.
  pose proof (g_lay _ _ _ _ _ _ G) as Hl.
  assert (file_ok (im s1) (freeblock s1) d2 g) as Hf.
  { constructor; [done|rewrite Htype; apply (v_file _ _ Himg _ _ Hi)|done|by eapply lay_addrs; [|exact Hl]|by apply (g_tight _ _ _ _ _ _ G)|done]. }
  apply (file_ok_frame _ _ _ _ _ _ Hf); [done|]. intros x Ho. apply step_im.
  by apply (own_le _ _ _ _ _ Hl).
Qed.

Lemma step_own j h x : C !! j = Some h ->
  own (im s2) (ino (im s2) (inum j)) x <-> if decide (j = i) then own (im s1) d1 x else own (im s) (ino (im s) (inum j)) x.
Proof.
  intros Hj. rewrite (step_ino _ _ Hj). destruct (decide (j = i)); [apply step_own_i|by apply (step_other _ _ Hj)].
Qed.

Lemma step_disj k h x : C !! k = Some h -> k <> i -> own (im s1) d1 x -> ~ own (im s) (ino (im s) (inum k)) x.
Proof.
  intros Hk Hne H1 H2. destruct (g_new _ _ _ _ _ _ G x H1) as [H3|H3].
  - apply Hne. by eapply (v_disj _ _ Himg k i).
  - pose proof (own_le _ _ _ _ _ (fk_lay _ _ _ _ (v_file _ _ Himg _ _ Hk)) H2). lia.
Qed.

Lemma img_step : img s2 (<[i:=g]> C).
Proof.
  pose proof (g_ok _ _ _ _ _ _ G) as Hs1. pose proof (inum_lt _ _ _ _ Himg Hi) as Hil. destruct (iblock_meta _ Hil) as [Hb1 Hb2].
  pose proof (lookup_lt_Some _ _ _ Hi) as Hlt.
  assert (forall j h, <[i:=g]> C !! j = Some h -> exists h', C !! j = Some h') as Hdom.
  { intros j h Hj%lookup_lt_Some. rewrite length_insert in Hj. by apply lookup_lt_is_Some_2. }
  assert (forall j h, <[i:=g]> C !! j = Some h -> (j = i /\ h = g) \/ (j <> i /\ C !! j = Some h)) as Hins.
  { intros j h Hj. destruct (decide (j = i)) as [->|Hne]; [rewrite list_lookup_insert_eq in Hj by done; left; split; congruence|].
    rewrite list_lookup_insert_ne in Hj by done. by right. }
  constructor.
  - constructor; cbn [s2 wr im freeblock]; [|intros x|apply Hs1].
    + intros x Hx. pose proof (st_fb _ Hs1). unfold put_blk. rewrite decide_False by (unfold ib; lia). by apply (st_fresh _ Hs1).
    + unfold put_blk. case_decide; [|apply Hs1]. apply length_put_dinode; [apply step_d2|apply Hs1|]. unfold IPB. Z.div_mod_to_equations; lia.
  - cbn. unfold put_blk. rewrite decide_False by (unfold ib; lia). rewrite step_below by (rewrite nmeta_val; lia). apply Himg.
  - rewrite length_insert. cbn. rewrite (g_fi _ _ _ _ _ _ G). apply Himg.
  - rewrite length_insert. apply Himg.
  - rewrite (total_insert _ _ _ _ Hi). pose proof (g_fb _ _ _ _ _ _ G). pose proof (v_cnt _ _ Himg). unfold fcost. cbn. lia.
  - intros j h [[-> ->]|[Hne Hj]]%Hins; rewrite (step_ino _ _ ltac:(eassumption)).
    + rewrite decide_True by done. apply step_file_i.
    + rewrite decide_False by done. by apply step_other.
  - intros j k h1 h2 x [h1' Hj]%Hdom [h2' Hk]%Hdom. rewrite (step_own _ _ _ Hj), (step_own _ _ _ Hk).
    destruct (decide (j = i)) as [->|Hji], (decide (k = i)) as [->|Hki]; [done|..]; intros H1 H2.
    + by destruct (step_disj k h2' x).
    + by destruct (step_disj j h1' x).
    + by eapply (v_disj _ _ Himg j k).
  - cbn [s2 wr freeblock]. intros x Hx.
    assert (exists j h, C !! j = Some h /\ own (im s2) (ino (im s2) (inum j)) x) as (j & h & Hj & Ho).
    { destruct (decide (x < freeblock s)).
      - destruct (v_all _ _ Himg x) as (j & h & Hj & Ho); [lia|]. exists j, h. split; [done|]. rewrite (step_own _ _ _ Hj).
        destruct (decide (j = i)) as [->|]; [by apply (g_old _ _ _ _ _ _ G)|done].
      - exists i, f. split; [done|]. rewrite (step_own _ _ _ Hi), decide_True by done. apply (g_all _ _ _ _ _ _ G). lia. }
    exists j. destruct (lookup_lt_is_Some_2 (<[i:=g]> C) j) as [h' Hh']; [rewrite length_insert; by eapply lookup_lt_Some|eauto].
Qed.
End Step.
(** ** The operations *)

Lemma zlen_app l p : zlen (l ++ p) = zlen l + zlen p.
Proof. unfold zlen. rewrite length_app. lia. Qed.
Lemma zlen_nonneg l : 0 <= zlen l.
Proof. unfold zlen. lia. Qed.
Lemma nblk_le n : n <= MAXFILE * BSIZE -> nblk n <= MAXFILE.
Proof. unfold nblk, MAXFILE, NDIRECT, NINDIRECT, BSIZE. intros. Z.div_mod_to_equations; lia. Qed.
Lemma is_uint_size n : 0 <= n <= MAXFILE * BSIZE -> is_uint n.
Proof. unfold is_uint, MAXFILE, NDIRECT, NINDIRECT, BSIZE. lia. Qed.

Definition whole (t : Z) (l : list Z) : file := mkF t (zlen l) l.

Lemma iappend_spec s C i t l p :
  img s C -> C !! i = Some (whole t l) -> zlen (l ++ p) <= MAXFILE * BSIZE ->
  nmeta + total (<[i:=whole t (l ++ p)]> C) <= Bio.FSSIZE ->
  wp (iappend (inum i) p) (fun _ s' => img s' (<[i:=whole t (l ++ p)]> C)) s.
Proof.
  intros Himg Hi Hmax Hroom. unfold iappend, rinode, rsect. apply wp_bind, wp_bind, wp_bind, wp_get, wp_ret, wp_ret.
  fold (ino (im s) (inum i)). pose proof (v_file _ _ Himg _ _ Hi) as [Hd Hsh _ Hl Ht Hh]. cbn [whole f_type f_size f_data] in *.
  assert (d_size (ino (im s) (inum i)) = zlen l) as -> by (by rewrite Hd).
  rewrite (total_insert _ _ _ _ Hi) in Hroom. pose proof (v_cnt _ _ Himg) as Hcnt. unfold fcost in Hroom. cbn [whole f_data] in Hroom.
  rewrite zlen_app in *. pose proof (zlen_nonneg l). pose proof (zlen_nonneg p).
  apply wp_bind. eapply wp_mono.
  { apply iappend_loop_spec; [done|split; [apply Himg|done]|by apply nblk_le|lia]. }
  intros [d1 off] s1 [Ho [G Hh1]]. cbn [fst snd] in *. subst off. unfold winode, rsect, wsect. apply wp_bind, wp_bind, wp_get, wp_ret, wp_modify.
  pose proof (g_d _ _ _ _ _ _ G) as Hd1. rewrite Hd in Hd1.
  assert (set_dsize (zlen (l ++ p)) d1 = mkDinode t 0 0 1 (zlen (l ++ p)) (d_addrs d1)) as -> by (rewrite Hd1; done).
  refine (img_step s C i _ s1 d1 (whole t (l ++ p)) Himg Hi _ _ _ _); [done|done|done|].
  apply is_uint_size. cbn. rewrite zlen_app. lia.
Qed.

(** The inode [ialloc] makes. *)
Lemma lay_empty m fb d : d_addrs d = replicate 13 0 -> lay m fb d 0.
Proof.
  intros E. assert (ind d = 0) as Hi by (unfold ind; by rewrite E).
  assert (forall k, blk m d k = 0) as Hb.
  { intros k. unfold blk. rewrite Hi, E. rewrite (decide_True _ _ eq_refl). case_decide; [|done].
    destruct (replicate 13 0 !! Z.to_nat k) eqn:Er; [|done]. by apply lookup_replicate in Er as [-> _]. }
  constructor; [by rewrite E|by unfold MAXFILE| | | |done]; intros; rewrite Hb in *; unfold in_file in *; lia.
Qed.
Lemma own_empty m d x : d_addrs d = replicate 13 0 -> ~ own m d x.
Proof.
  intros E [H0 [->|(k & Hk & <-)]]; [apply H0; unfold ind; by rewrite E|].
  pose proof (l_use _ 0 _ _ (lay_empty m 0 d E) k Hk). unfold in_file in Hk. lia.
Qed.

Section Alloc.
Context (s : mkst) (C : list file) (t : Z).
Hypothesis Himg : img s C.
Hypothesis Hlt : Z.of_nat (length C) + 1 < NINODES.
Hypothesis Ht : is_short t.

Let n := length C.
Let d0 := mkDinode t 0 0 1 0 (replicate 13 0).
Let ib := IBLOCK (inum n) mk_sb.
Let m2 := put_blk ib (put_dinode (Z.to_nat (inum n mod IPB)) d0 (im s ib)) (im s).

Lemma alloc_ib : 1 < ib < nmeta.
Proof. destruct (iblock_meta (inum n)); [unfold inum, n; lia|]. unfold ib. lia. Qed.
Lemma alloc_im x : x <> ib -> m2 x = im s x.
Proof. intros Hx. unfold m2, put_blk. by rewrite decide_False. Qed.
Lemma alloc_d0 : dinode_ok d0.
Proof. apply (lay_dinode_ok (im s) Bio.FSSIZE _ 0); [by apply lay_empty|done|done|done|done|done|done]. Qed.
Lemma alloc_ino j : ino m2 (inum j) = if decide (j = n) then d0 else ino (im s) (inum j).
Proof.
  unfold m2, ib. rewrite ino_put; [|unfold inum; lia|unfold inum; lia|apply alloc_d0|apply Himg].
  destruct (decide (j = n)) as [->|]; [by rewrite decide_True|]. by rewrite decide_False by (unfold inum; lia).
Qed.
Lemma alloc_old j f : C !! j = Some f ->
  file_ok m2 (freeblock s) (ino m2 (inum j)) f /\ forall x, own m2 (ino m2 (inum j)) x <-> own (im s) (ino (im s) (inum j)) x.
Proof.
  intros Hj. pose proof (lookup_lt_Some _ _ _ Hj). rewrite alloc_ino, decide_False by (unfold n; lia).
  apply (file_ok_frame _ _ _ _ _ _ (v_file _ _ Himg _ _ Hj)); [done|]. intros x Ho. apply alloc_im. pose proof alloc_ib.
  pose proof (own_le _ _ _ _ _ (fk_lay _ _ _ _ (v_file _ _ Himg _ _ Hj)) Ho). lia.
Qed.
Lemma alloc_lookup j f : (C ++ [whole t []]) !! j = Some f -> (j = n /\ f = whole t []) \/ (j <> n /\ C !! j = Some f).
Proof.
  intros [Hj|[Hj Hf]]%lookup_app_Some.
  - right. split; [|done]. apply lookup_lt_Some in Hj. unfold n. lia.
  - left. apply list_lookup_singleton_Some in Hf as [Hf ->]. split; [unfold n; lia|done].
Qed.

Lemma img_alloc : img (mkMk m2 (inum n + 1) (freeblock s)) (C ++ [whole t []]).
Proof.
  pose proof (v_st _ _ Himg) as Hs. pose proof (st_fb _ Hs). pose proof alloc_ib.
  assert (ino m2 (inum n) = d0) as Hn by (rewrite alloc_ino; by rewrite decide_True).
  constructor; cbn [im freeinode freeblock].
  - constructor; cbn [im freeblock]; [|intros x|apply Hs].
    + intros x Hx. rewrite alloc_im by lia. by apply (st_fresh _ Hs).
    + unfold m2, put_blk. case_decide; [|apply Hs]. apply length_put_dinode; [done|apply Hs|]. unfold IPB. Z.div_mod_to_equations; lia.
  - rewrite alloc_im by lia. apply Himg.
  - rewrite length_app. cbn. unfold inum, n. lia.
  - rewrite length_app. cbn. lia.
  - rewrite total_app. rewrite (v_cnt _ _ Himg). change (total [whole t []]) with 0. lia.
  - intros j f [[-> ->]|[Hne Hj]]%alloc_lookup; [|by apply alloc_old]. rewrite Hn.
    constructor; [done|done|done|by apply lay_empty|intros Hi; by destruct Hi|intros k Hk; change (nblk _) with 0 in Hk; lia].
  - intros j k f g x [[-> ->]|[Hne Hj]]%alloc_lookup [[-> ->]|[Hne' Hk]]%alloc_lookup; rewrite ?Hn; intros H1 H2;
      try (by apply own_empty in H1); try (by apply own_empty in H2).
    apply (alloc_old _ _ Hj) in H1. apply (alloc_old _ _ Hk) in H2. by eapply (v_disj _ _ Himg).
  - intros x Hx. destruct (v_all _ _ Himg x Hx) as (j & f & Hj & Ho). exists j, f.
    split; [by apply lookup_app_l_Some|]. by apply (alloc_old _ _ Hj).
Qed.
End Alloc.

Lemma ialloc_spec s C t :
  img s C -> Z.of_nat (length C) + 1 < NINODES -> is_short t ->
  wp (ialloc t) (fun r s' => r = inum (length C) /\ img s' (C ++ [whole t []])) s.
Proof.
  intros Himg Hlt Ht. unfold ialloc, winode, rsect, wsect.
  apply wp_bind, wp_get, wp_bind, wp_modify, wp_bind, wp_bind, wp_bind, wp_get, wp_ret, wp_modify, wp_ret.
  cbn [im freeinode freeblock]. rewrite (v_fi _ _ Himg). split; [done|]. by apply img_alloc.
Qed.
Lemma total_insert_le C i f g h : C !! i = Some f -> zlen (f_data g) <= zlen (f_data h) -> total (<[i:=g]> C) <= total (<[i:=h]> C).
Proof.
  intros Hi Hle. rewrite !(total_insert _ _ _ _ Hi). unfold fcost. pose proof (cost_mono _ _ (nblk_mono _ _ Hle)). lia.
Qed.

Lemma copy_file_spec fuel s C i t l p :
  (length p <= fuel)%nat -> img s C -> C !! i = Some (whole t l) -> zlen (l ++ p) <= MAXFILE * BSIZE ->
  nmeta + total (<[i:=whole t (l ++ p)]> C) <= Bio.FSSIZE ->
  wp (copy_file fuel (inum i) p) (fun _ s' => img s' (<[i:=whole t (l ++ p)]> C)) s.
Proof.
  revert s C l p. induction fuel as [|fuel IH]; intros s C l p Hf Himg Hi Hmax Hroom; cbn [copy_file];
    (destruct (decide (p = [])) as [->|Hp]; [rewrite app_nil_r, list_insert_id by done; by apply wp_ret|]).
  { destruct p; [done|cbn in Hf; lia]. }
  pose proof (lookup_lt_Some _ _ _ Hi). pose proof (take_drop 512 p) as Hpp.
  assert (0 < length p)%nat by (destruct p; [done|cbn; lia]).
  assert (zlen (l ++ take 512 p) <= zlen (l ++ p)) as Hle by (unfold zlen; rewrite !length_app, length_take; lia).
  pose proof (total_insert_le C i _ (whole t (l ++ take 512 p)) (whole t (l ++ p)) Hi Hle).
  apply wp_bind. eapply wp_mono; [apply (iappend_spec _ _ _ _ _ _ Himg Hi); lia|]. intros [] s1 Hs1.
  assert (l ++ p = (l ++ take 512 p) ++ drop 512 p) as E by (by rewrite <- app_assoc, Hpp). rewrite E in Hmax, Hroom |- *.
  eapply wp_mono; [apply (IH s1 (<[i:=whole t (l ++ take 512 p)]> C) (l ++ take 512 p) (drop 512 p))|].
  - rewrite length_drop. lia.
  - exact Hs1.
  - by rewrite list_lookup_insert_eq.
  - done.
  - by rewrite list_insert_insert_eq.
  - intros [] s2. by rewrite list_insert_insert_eq.
Qed.

Definition strip (name : list Z) : list Z := match name with 95 :: name => name | _ => name end.
Fixpoint entries (n : Z) (l : list (list Z * list Z)) : list Z :=
  match l with [] => [] | f :: l => dirent n (strip f.1) ++ entries (n + 1) l end.
Definition contents_of (l : list (list Z * list Z)) : list file := (fun f => whole T_FILE f.2) <$> l.
Definition input_ok (f : list Z * list Z) : Prop := 47 ∉ f.1 /\ zlen f.2 <= MAXFILE * BSIZE.

Lemma zlen_dirent n name : zlen (dirent n name) = 16.
Proof. unfold zlen, dirent, encode_dirent. rewrite length_app, length_take, length_app, length_replicate. change (length (le16 n)) with 2%nat. unfold DIRSIZ. lia. Qed.
Lemma zlen_entries n l : zlen (entries n l) = 16 * Z.of_nat (length l).
Proof. revert n. induction l as [|f l IH]; intros n; cbn [entries length]; [done|]. rewrite zlen_app, zlen_dirent, IH. lia. Qed.

Lemma add_file_spec s R F f :
  img s (whole T_DIR R :: F) -> input_ok f -> zlen R + 16 <= MAXFILE * BSIZE -> Z.of_nat (length F) + 2 < NINODES ->
  nmeta + total (whole T_DIR (R ++ dirent (Z.of_nat (length F) + 2) (strip f.1)) :: F ++ [whole T_FILE f.2]) <= Bio.FSSIZE ->
  wp (add_file f) (fun _ s' => img s' (whole T_DIR (R ++ dirent (Z.of_nat (length F) + 2) (strip f.1)) :: F ++ [whole T_FILE f.2])) s.
Proof.
  destruct f as [name contents]. cbn [fst snd]. intros Himg [Hn Hc] HR HF Hroom. cbn [fst snd] in *. unfold add_file. rewrite decide_False by done.
  fold (strip name). apply wp_bind. eapply wp_mono; [apply (ialloc_spec _ _ T_FILE Himg); [cbn; lia|done]|]. intros r s1 [-> H1].
  replace (inum (length (whole T_DIR R :: F))) with (Z.of_nat (length F) + 2) by (unfold inum; cbn; lia).
  set (e := dirent _ _) in *. assert (zlen e = 16) as He by apply zlen_dirent.
  assert (total (whole T_DIR (R ++ e) :: F ++ [whole T_FILE []]) <= total (whole T_DIR (R ++ e) :: F ++ [whole T_FILE contents])) as Hle.
  { change (?x :: F ++ ?y) with ((x :: F) ++ y). rewrite !total_app. pose proof (total_nonneg [whole T_FILE contents]). change (total [whole T_FILE []]) with 0. lia. }
  apply wp_bind. eapply wp_mono; [apply (iappend_spec s1 _ 0 T_DIR R e H1)|]; [done|rewrite zlen_app; lia|change (nmeta + total (whole T_DIR (R ++ e) :: F ++ [whole T_FILE []]) <= Bio.FSSIZE); lia|].
  intros [] s2 H2. change (img s2 (whole T_DIR (R ++ e) :: F ++ [whole T_FILE []])) in H2.
  set (C := whole T_DIR (R ++ e) :: F) in *. change (whole T_DIR (R ++ e) :: F ++ ?y) with (C ++ y) in *.
  assert (Z.of_nat (length F) + 2 = inum (length C)) as -> by (unfold inum, C; cbn; lia).
  assert (forall g, <[length C:=g]> (C ++ [whole T_FILE []]) = C ++ [g]) as Hins.
  { intros g. rewrite insert_app_r_alt, Nat.sub_diag by done. done. }
  rewrite <- (Hins (whole T_FILE contents)) in *.
  apply (copy_file_spec _ _ _ _ _ []); [done|done|by rewrite lookup_app_r, Nat.sub_diag by done|done|done].
Qed.

Lemma add_files_spec l s R F :
  img s (whole T_DIR R :: F) -> Forall input_ok l -> Z.of_nat (length F + length l) + 1 < NINODES -> zlen R = 16 * (Z.of_nat (length F) + 2) ->
  nmeta + total (whole T_DIR (R ++ entries (Z.of_nat (length F) + 2) l) :: F ++ contents_of l) <= Bio.FSSIZE ->
  wp (add_files l) (fun _ s' => img s' (whole T_DIR (R ++ entries (Z.of_nat (length F) + 2) l) :: F ++ contents_of l)) s.
Proof.
  revert s R F. induction l as [|f l IH]; intros s R F Himg Hin Hmax HR Hroom; cbn [add_files entries contents_of fmap list_fmap].
  { apply wp_ret. by rewrite !app_nil_r. }
  apply Forall_cons in Hin as [Hf Hin]. cbn [length] in Hmax. unfold NINODES in Hmax.
  set (e := dirent (Z.of_nat (length F) + 2) (strip f.1)) in *.
  assert (length (F ++ [whole T_FILE f.2]) = S (length F)) as HF by (rewrite length_app; cbn; lia).
  cbn [entries contents_of fmap list_fmap] in Hroom. fold e in Hroom. fold (contents_of l) in *. apply wp_bind. eapply wp_mono.
  { apply add_file_spec; [done|done|unfold MAXFILE, NDIRECT, NINDIRECT, BSIZE; lia|unfold NINODES; lia|]. fold e.
    rewrite !total_cons, !total_app, total_cons in *. pose proof (total_nonneg (contents_of l)). change (total []) with 0.
    assert (fcost (whole T_DIR (R ++ e)) <= fcost (whole T_DIR (R ++ e ++ entries (Z.of_nat (length F) + 2 + 1) l))); [|lia].
    apply cost_mono, nblk_mono. cbn [whole f_data]. rewrite !zlen_app, zlen_entries. lia. }
  intros [] s1 Hs1. fold e in Hs1. rewrite (cons_middle (whole T_FILE f.2) F), !app_assoc in Hroom |- *.
  replace (Z.of_nat (length F) + 2 + 1) with (Z.of_nat (length (F ++ [whole T_FILE f.2])) + 2) in * by lia.
  apply IH; [done|done|unfold NINODES; lia|rewrite zlen_app; unfold e; rewrite zlen_dirent; lia|done].
Qed.

(** ** The whole program *)

Definition root_data (l : list (list Z * list Z)) : list Z := dirent 1 [46] ++ dirent 1 [46; 46] ++ entries 2 l.
Definition root_file (l : list (list Z * list Z)) : file :=
  mkF T_DIR ((zlen (root_data l) / BSIZE + 1) * BSIZE) (root_data l).
Definition image_of (s : mkst) : Z -> block := put_blk (sb_bmapstart mk_sb) (bitmap (freeblock s)) (im s).

Lemma img_start : img (wr 1 sb_block mkfs_start) [].
Proof.
  constructor; cbn [wr im freeblock freeinode mkfs_start]; try done.
  - constructor; cbn [wr im freeblock mkfs_start]; [|intros k|done].
    + intros k Hk. rewrite nmeta_val in Hk. unfold put_blk. by rewrite decide_False by lia.
    + unfold put_blk. case_decide; by vm_compute.
  - intros x Hx. lia.
Qed.

(** "fix size of root inode dir" *)
Lemma fix_size s R F z (Q : unit -> mkst -> Prop) :
  img s (whole T_DIR R :: F) -> is_uint z -> (forall s', img s' (mkF T_DIR z R :: F) -> Q tt s') ->
  wp (winode 1 (set_dsize z (ino (im s) 1))) Q s.
Proof.
  intros Himg Hz HQ. pose proof (v_file _ _ Himg 0 _ eq_refl) as Hf. change (inum 0) with 1 in Hf.
  unfold winode, rsect, wsect. apply wp_bind, wp_bind, wp_get, wp_ret, wp_modify.
  assert (set_dsize z (ino (im s) 1) = mkDinode T_DIR 0 0 1 z (d_addrs (ino (im s) 1))) as -> by (rewrite (fk_d _ _ _ _ Hf) at 1; done).
  apply HQ. refine (img_step s _ 0 (whole T_DIR R) s (ino (im s) 1) (mkF T_DIR z R) Himg eq_refl _ _ eq_refl Hz); [|apply Hf].
  apply grown_same; [apply Himg|apply Hf|apply Hf].
Qed.

Lemma wp_mk_balloc s used (Q : unit -> mkst -> Prop) :
  used <= Bio.FSSIZE -> Q tt (wr (sb_bmapstart mk_sb) (bitmap used) s) -> wp (balloc used) Q s.
Proof.
  intros Hu HQ. unfold balloc. rewrite decide_False by (unfold Bio.FSSIZE, BSIZE in *; lia). by apply wp_modify.
Qed.

Lemma mkfs_wp l :
  Forall input_ok l -> Z.of_nat (length l) + 1 < NINODES -> nmeta + total (root_file l :: contents_of l) <= Bio.FSSIZE ->
  wp (mkfs l) (fun _ s' => exists s, img s (root_file l :: contents_of l) /\ im s' = image_of s) mkfs_start.
Proof.
  intros Hin Hlen Hroom. unfold mkfs. apply wp_bind, wp_modify. change (mkMk _ _ _) with (wr 1 sb_block mkfs_start).
  apply wp_bind. eapply wp_mono; [apply (ialloc_spec _ [] T_DIR img_start); done|]. intros r s1 [-> H1].
  rewrite decide_False by (intros H; by apply H). change (inum (length [])) with (inum 0).
  set (e1 := dirent (inum 0) [46]). set (e2 := dirent (inum 0) [46; 46]).
  assert (zlen e1 = 16) as He1 by apply zlen_dirent. assert (zlen e2 = 16) as He2 by apply zlen_dirent.
  apply wp_bind. eapply wp_mono; [apply (iappend_spec s1 _ 0 T_DIR [] e1 H1)|]; [done|by rewrite app_nil_l, He1|..].
  { change (nmeta + (cost (nblk (zlen e1)) + 0) <= Bio.FSSIZE). by rewrite He1. }
  intros [] s2 H2. change (img s2 [whole T_DIR e1]) in H2.
  apply wp_bind. eapply wp_mono; [apply (iappend_spec s2 _ 0 T_DIR e1 e2 H2)|]; [done|by rewrite zlen_app, He1, He2|..].
  { change (nmeta + (cost (nblk (zlen (e1 ++ e2))) + 0) <= Bio.FSSIZE). by rewrite zlen_app, He1, He2. }
  intros [] s3 H3. change (img s3 [whole T_DIR (e1 ++ e2)]) in H3.
  assert ((e1 ++ e2) ++ entries 2 l = root_data l) as HR by (by rewrite <- app_assoc).
  apply wp_bind. eapply wp_mono; [apply (add_files_spec l s3 (e1 ++ e2) [] H3 Hin)|]; [cbn; lia|by rewrite zlen_app, He1, He2| |].
  { change (Z.of_nat (length []) + 2) with 2. by rewrite HR. }
  change (Z.of_nat (length []) + 2) with 2. rewrite HR. intros [] s4 H4. cbn [app] in H4.
  unfold rinode, rsect. apply wp_bind, wp_bind, wp_bind, wp_get, wp_ret, wp_ret. fold (ino (im s4) (inum 0)).
  pose proof (fk_d _ _ _ _ (v_file _ _ H4 0 _ eq_refl)) as Hd.
  assert (d_size (ino (im s4) (inum 0)) = zlen (root_data l)) as -> by (rewrite Hd; done).
  assert (zlen (root_data l) = 16 * (Z.of_nat (length l) + 2)) as Hz.
  { unfold root_data. rewrite !zlen_app, !zlen_dirent, zlen_entries. lia. }
  apply wp_bind. apply (fix_size s4 (root_data l) (contents_of l)); [done|unfold is_uint, BSIZE, NINODES in *; Z.div_mod_to_equations; lia|].
  intros s5 H5. apply wp_bind, wp_get. pose proof (st_fb _ (v_st _ _ H5)). apply wp_mk_balloc; [lia|]. by exists s5.
Qed.
(** ** The image as a file system *)

Lemma bits_spec (P : Z -> Prop) `{!forall j, Decision (P j)} l a t :
  (forall j, j ∈ l -> 0 <= j) -> 0 <= t ->
  Z.testbit (foldl (fun x j => if decide (P j) then Z.lor x (Z.shiftl 1 j) else x) a l) t = Z.testbit a t || bool_decide (t ∈ l /\ P t).
Proof.
  intros Hl Ht. revert a. induction l as [|j l IH]; intros a; cbn [foldl].
  - rewrite bool_decide_eq_false_2 by set_solver. by rewrite orb_false_r.
  - rewrite IH by set_solver. assert (0 <= j) by (apply Hl; set_solver). destruct (decide (P j)) as [Hp|Hp].
    + rewrite Z.lor_spec, Z.shiftl_spec by done. rewrite <- orb_assoc. f_equal. destruct (decide (t = j)) as [->|Hne].
      * rewrite Z.sub_diag. cbn. symmetry. apply bool_decide_eq_true_2. set_solver.
      * replace (Z.testbit 1 (t - j)) with false.
        2:{ symmetry. destruct (Z.testbit 1 (t - j)) eqn:E; [|done].
            destruct (decide (t - j < 0)); [by rewrite Z.testbit_neg_r in E|]. rewrite Z.bits_above_log2 in E; [done|done|cbn; lia]. }
        cbn. apply bool_decide_ext. set_solver.
    + f_equal. apply bool_decide_ext. split; [set_solver|]. intros [H1 H2]. split; [|done].
      apply elem_of_cons in H1 as [->|H1]; done.
Qed.

Lemma bitmap_set used x : 0 <= x < 4096 -> is_set (bitmap used) x = bool_decide (x < used).
Proof.
  intros Hx. unfold is_set, byte_at, bitmap. rewrite list_lookup_fmap, lookup_seq_lt by (Z.div_mod_to_equations; lia). cbn [fmap option_fmap option_map default from_option id].
  rewrite (bits_spec (fun j => 8 * Z.of_nat (0 + Z.to_nat (x / 8)) + j < used)); [|intros j Hj%elem_of_seqZ; lia|Z.div_mod_to_equations; lia]. rewrite Z.bits_0. cbn [orb]. apply bool_decide_ext.
  rewrite elem_of_seqZ. Z.div_mod_to_equations; lia.
Qed.
Section Image.
Context (s : mkst) (C : list file).
Hypothesis Himg : img s C.
Let m := image_of s.
Let d := fs_of m.
Let ip (i : nat) : inode := ip_of (inum i) (ino m (inum i)).

Lemma image_im x : x <> sb_bmapstart mk_sb -> m x = im s x.
Proof. intros Hx. unfold m, image_of, put_blk. by rewrite decide_False. Qed.

Lemma image_file i f : C !! i = Some f ->
  file_ok m (freeblock s) (ino m (inum i)) f /\ forall x, own m (ino m (inum i)) x <-> own (im s) (ino (im s) (inum i)) x.
Proof.
  intros Hi. destruct (iblock_meta _ (inum_lt _ _ _ _ Himg Hi)) as [Hb1 Hb2].
  assert (ino m (inum i) = ino (im s) (inum i)) as -> by (unfold ino; by rewrite image_im by lia).
  pose proof (v_file _ _ Himg _ _ Hi) as Hf. apply (file_ok_frame _ _ _ _ _ _ Hf); [done|]. intros x Ho. apply image_im.
  pose proof (own_le _ _ _ _ _ (fk_lay _ _ _ _ Hf) Ho). lia.
Qed.

Lemma image_addr i k : addr_of Bio.ROOTDEV d (ip i) k = blk m (ino m (inum i)) k.
Proof. done. Qed.
Lemma image_owned i x : owned Bio.ROOTDEV d (ip i) x <-> own m (ino m (inum i)) x.
Proof. done. Qed.

Lemma image_alloc x : 0 <= x < Bio.FSSIZE -> allocated Bio.ROOTDEV d x = bool_decide (x < freeblock s).
Proof.
  intros Hx. unfold allocated, bmap_blk, d, fs_of. cbn [dk snd sb]. unfold m, image_of, put_blk. rewrite decide_True by done.
  apply bitmap_set. unfold Bio.FSSIZE in Hx. lia.
Qed.

Lemma image_wf : fs_wf Bio.ROOTDEV d.
Proof.
  pose proof (st_fb _ (v_st _ _ Himg)) as Hfb. pose proof nmeta_val as Hm. constructor; [done|done|intros x _|intros x Hx|].
  - cbn. unfold m, image_of, put_blk. case_decide; [|apply Himg]. unfold bitmap. by rewrite length_fmap, length_seq.
  - change (sb_bmapstart (sb d)) with 58 in Hx. rewrite image_alloc by (unfold Bio.FSSIZE; lia). apply bool_decide_eq_true_2. lia.
  - intros j Hj. destruct (iblock_meta j Hj) as [H1 _]. change (sb d) with mk_sb. lia.
Qed.

Lemma image_ino_wf i f : C !! i = Some f -> ino_wf Bio.ROOTDEV d (ip i).
Proof.
  intros Hi. destruct (image_file i f Hi) as [Hf _]. pose proof (fk_lay _ _ _ _ Hf) as Hl.
  pose proof (st_fb _ (v_st _ _ Himg)) as Hfb. pose proof nmeta_val as Hm. constructor.
  - done.
  - apply Hl.
  - intros x Ho%image_owned. pose proof (own_le _ _ _ _ _ Hl Ho). change (sb_bmapstart (sb d)) with 58. change (sb_size (sb d)) with Bio.FSSIZE.
    split; [lia|]. rewrite image_alloc by lia. apply bool_decide_eq_true_2. lia.
  - intros j k. rewrite !image_addr. apply (l_inj _ _ _ _ Hl).
  - intros k Hk. rewrite image_addr. change (ind_of (ip i)) with (ind (ino m (inum i))). intros Hi0. by apply (l_ind _ _ _ _ Hl).
Qed.

Lemma image_holds i f n : C !! i = Some f -> n <= zlen (f_data f) -> no_holes Bio.ROOTDEV d (ip i) n.
Proof.
  intros Hi Hn k Hk Hlt. rewrite image_addr. destruct (image_file i f Hi) as [Hf _]. pose proof (fk_lay _ _ _ _ Hf) as Hl.
  pose proof (l_nb _ _ _ _ Hl). assert (k < nblk (zlen (f_data f))) by (unfold nblk, BSIZE in *; Z.div_mod_to_equations; lia).
  apply (l_use _ _ _ _ Hl); [unfold in_file; lia|done].
Qed.

Lemma image_bytes i f : C !! i = Some f -> fbytes Bio.ROOTDEV d (ip i) 0 (zlen (f_data f)) = f_data f.
Proof.
  intros Hi. destruct (image_file i f Hi) as [Hf _]. apply list_eq. intros k. unfold fbytes. rewrite list_lookup_fmap.
  destruct (decide (k < length (f_data f))%nat) as [Hk|Hk].
  - rewrite lookup_seqZ_lt by (unfold zlen; lia). cbn [fmap option_fmap option_map]. destruct (lookup_lt_is_Some_2 _ _ Hk) as [v Hv]. rewrite Hv. f_equal.
    rewrite !Z.add_0_l. unfold fbyte. rewrite image_addr. change (dk d (Bio.ROOTDEV, ?a)) with (m a).
    rewrite (fk_has _ _ _ _ Hf) by (unfold nblk, zlen, BSIZE; Z.div_mod_to_equations; lia). unfold byte_at. by rewrite Nat2Z.id, Hv.
  - rewrite lookup_seqZ_ge by (unfold zlen; lia). rewrite lookup_ge_None_2 by lia. done.
Qed.
End Image.

(** What the image of [mkfs l] is, as a file system. *)
Record fs_image (l : list (list Z * list Z)) (m : Z -> block) : Prop := {
  fi_sb : decode_sb (m 1) = mk_sb;
  fi_wf : fs_wf Bio.ROOTDEV (fs_of m);
  fi_ino i : 1 <= i <= Z.of_nat (length l) + 1 -> ino_wf Bio.ROOTDEV (fs_of m) (ip_of i (ino m i));
  fi_disj i j x : 1 <= i <= Z.of_nat (length l) + 1 -> 1 <= j <= Z.of_nat (length l) + 1 ->
    owned Bio.ROOTDEV (fs_of m) (ip_of i (ino m i)) x -> owned Bio.ROOTDEV (fs_of m) (ip_of j (ino m j)) x -> i = j;
  fi_bitmap x : 0 <= x < Bio.FSSIZE ->
    allocated Bio.ROOTDEV (fs_of m) x = true <->
    x < nmeta \/ exists i, 1 <= i <= Z.of_nat (length l) + 1 /\ owned Bio.ROOTDEV (fs_of m) (ip_of i (ino m i)) x;
  fi_root : let ip := ip_of 1 (ino m 1) in
    i_type ip = T_DIR /\ i_nlink ip = 1 /\ i_size ip = (zlen (root_data l) / BSIZE + 1) * BSIZE /\
    no_holes Bio.ROOTDEV (fs_of m) ip (zlen (root_data l)) /\
    fbytes Bio.ROOTDEV (fs_of m) ip 0 (zlen (root_data l)) = root_data l;
  fi_file k f : l !! k = Some f -> let ip := ip_of (Z.of_nat k + 2) (ino m (Z.of_nat k + 2)) in
    i_type ip = T_FILE /\ i_nlink ip = 1 /\ i_size ip = zlen f.2 /\
    no_holes Bio.ROOTDEV (fs_of m) ip (zlen f.2) /\ fbytes Bio.ROOTDEV (fs_of m) ip 0 (zlen f.2) = f.2
}.

Lemma sb_decodes : decode_sb sb_block = mk_sb.
Proof. by vm_compute. Qed.

Lemma image_attrs s C i f : img s C -> C !! i = Some f ->
  let ip := ip_of (inum i) (ino (image_of s) (inum i)) in
  i_type ip = f_type f /\ i_nlink ip = 1 /\ i_size ip = f_size f /\
  no_holes Bio.ROOTDEV (fs_of (image_of s)) ip (zlen (f_data f)) /\
  fbytes Bio.ROOTDEV (fs_of (image_of s)) ip 0 (zlen (f_data f)) = f_data f.
Proof.
  intros Himg Hi ip. pose proof (image_holds s C Himg i f _ Hi (Z.le_refl _)) as Hh. pose proof (image_bytes s C Himg i f Hi) as Hb.
  destruct (image_file s C Himg i f Hi) as [Hf _]. pose proof (fk_d _ _ _ _ Hf) as Hd. split; [|split; [|split; [|split]]].
  - change (d_type (ino (image_of s) (inum i)) = f_type f). by rewrite Hd.
  - change (d_nlink (ino (image_of s) (inum i)) = 1). by rewrite Hd.
  - change (d_size (ino (image_of s) (inum i)) = f_size f). by rewrite Hd.
  - exact Hh.
  - exact Hb.
Qed.

Lemma img_fs_image s l : img s (root_file l :: contents_of l) -> fs_image l (image_of s).
Proof.
  intros Himg. set (C := root_file l :: contents_of l) in *.
  assert (length C = S (length l)) as HC by (unfold C, contents_of; cbn; by rewrite length_fmap).
  assert (forall i, 1 <= i <= Z.of_nat (length l) + 1 -> exists k f, C !! k = Some f /\ i = inum k) as Hin.
  { intros i Hi. destruct (lookup_lt_is_Some_2 C (Z.to_nat (i - 1))) as [f Hf]; [lia|]. exists (Z.to_nat (i - 1)), f. unfold inum. split; [done|lia]. }
  pose proof (st_fb _ (v_st _ _ Himg)) as Hfb. pose proof nmeta_val as Hm. constructor.
  - rewrite (image_im s) by done. rewrite (v_sb _ _ Himg). apply sb_decodes.
  - by eapply image_wf.
  - intros i (k & f & Hk & ->)%Hin. by eapply image_ino_wf.
  - intros i j x (k & f & Hk & ->)%Hin (k' & g & Hk' & ->)%Hin H1%image_owned H2%image_owned. f_equal.
    apply (image_file s C Himg _ _ Hk) in H1. apply (image_file s C Himg _ _ Hk') in H2. by eapply (v_disj _ _ Himg).
  - intros x Hx. rewrite (image_alloc s) by done. rewrite bool_decide_eq_true. split.
    + intros Hlt. destruct (decide (x < nmeta)); [by left|right]. destruct (v_all _ _ Himg x) as (k & f & Hk & Ho); [lia|].
      exists (inum k). split; [apply lookup_lt_Some in Hk; unfold inum; lia|]. apply image_owned. by apply (image_file s C Himg _ _ Hk).
    + intros [Hlt|(i & (k & f & Hk & ->)%Hin & Ho%image_owned)]; [lia|]. destruct (image_file s C Himg _ _ Hk) as [Hf _].
      by apply (own_le _ _ _ _ _ (fk_lay _ _ _ _ Hf)).
  - apply (image_attrs s C 0 (root_file l) Himg eq_refl).
  - intros k f Hk. assert (C !! S k = Some (whole T_FILE f.2)) as HSk by (change (contents_of l !! k = Some (whole T_FILE f.2)); unfold contents_of; by rewrite list_lookup_fmap, Hk).
    pose proof (image_attrs s C (S k) _ Himg HSk) as Ha. replace (inum (S k)) with (Z.of_nat k + 2) in Ha by (unfold inum; lia). exact Ha.
Qed.

(** C16. [mkfs], given files that fit (names without a slash, contents of at most
    [MAXFILE] blocks, fewer than [NINODES] inodes, no more than [FSSIZE] blocks in
    all), writes an image that is a well-formed file system: the superblock
    decodes to the layout, the inodes have distinct allocated data blocks, no
    block is in two of them, and the bitmap marks exactly the metadata and the
    blocks of the inodes; inode 1 is the root directory, whose entries are [.],
    [..] and the given names (without a leading underscore) in order, and inode
    [k + 2] is a file with exactly the contents of the [k]-th one. *)
Theorem mkfs_image l :
  Forall input_ok l -> Z.of_nat (length l) + 1 < NINODES -> nmeta + total (root_file l :: contents_of l) <= Bio.FSSIZE ->
  exists m, image l = Ret m /\ fs_image l m.
Proof.
  intros Hin Hlen Hroom. destruct (proj1 (wp_Ret _ _ _) (mkfs_wp l Hin Hlen Hroom)) as (u & s' & Hr & s & Himg & Hs).
  exists (image_of s). split; [|by apply img_fs_image]. unfold image. rewrite Hr. cbn. by rewrite Hs.
Qed.

Definition two_files : list (list Z * list Z) := [([95; 105], replicate 7000 7); ([82], [72; 105])].
Lemma mkfs_image_witness : exists m, image two_files = Ret m /\ fs_image two_files m.
Proof.
  apply (mkfs_image two_files).
  - repeat constructor; try (by vm_compute); by apply (bool_decide_unpack _).
  - done.
  - by vm_compute.
Defined.

(** "fix size of root inode dir" adds a block to a directory that ends at the end
    of a block: that block does not exist. *)
Theorem root_hole l :
  Forall input_ok l -> Z.of_nat (length l) + 1 < NINODES -> nmeta + total (root_file l :: contents_of l) <= Bio.FSSIZE ->
  ((length l + 2) mod 32)%nat = 0%nat ->
  exists m, image l = Ret m /\ let ip := ip_of 1 (ino m 1) in
  i_size ip = 16 * (Z.of_nat (length l) + 2) + BSIZE /\ addr_of Bio.ROOTDEV (fs_of m) ip ((i_size ip - 1) / BSIZE) = 0.
Proof.
  intros Hin Hlen Hroom Hmod. destruct (proj1 (wp_Ret _ _ _) (mkfs_wp l Hin Hlen Hroom)) as (u & s' & Hr & s & Himg & Hs).
  exists (image_of s). split; [unfold image; rewrite Hr; cbn; by rewrite Hs|].
  destruct (image_attrs s _ 0 (root_file l) Himg eq_refl) as (_ & _ & Hsz & _). change (inum 0) with 1 in Hsz. cbn zeta. rewrite Hsz.
  assert (zlen (root_data l) = 16 * (Z.of_nat (length l) + 2)) as Hz.
  { unfold root_data. rewrite !zlen_app, !zlen_dirent, zlen_entries. lia. }
  apply Nat.Div0.mod_divides in Hmod as [q Hq].
  assert (f_size (root_file l) = 16 * (Z.of_nat (length l) + 2) + BSIZE) as E.
  { cbn [root_file f_size]. rewrite Hz. unfold BSIZE. Z.div_mod_to_equations; lia. }
  rewrite E. split; [done|]. destruct (image_file s _ Himg 0 (root_file l) eq_refl) as [Hf _]. pose proof (fk_lay _ _ _ _ Hf) as Hl.
  change (blk (image_of s) (ino (image_of s) (inum 0)) ((16 * (Z.of_nat (length l) + 2) + BSIZE - 1) / BSIZE) = 0).
  cbn [root_file f_data] in Hl. rewrite Hz in Hl. unfold NINODES, BSIZE in *.
  destruct (decide (blk (image_of s) (ino (image_of s) (inum 0)) ((16 * (Z.of_nat (length l) + 2) + 512 - 1) / 512) = 0)) as [|Hne]; [done|].
  apply (l_use _ _ _ _ Hl) in Hne; [unfold nblk, BSIZE in Hne; lia|].
  unfold in_file, MAXFILE, NDIRECT, NINDIRECT. Z.div_mod_to_equations; lia.
Qed.
End MkfsThms.
