(* ===== verification/UserTests.v ===== *)
(** * The file system tests of the repository, run on the model

    Translates tests of [src/xv6-public/usertests.c] that use files into
    programs over the system calls of [Sysfile], to be run on the image that
    [Mkfs] makes.  A test gives [true] when it reaches its end and [false] where
    the C function prints a message and calls [exit].  Messages are not
    modelled.  [forked] runs the child of a [fork] to its [exit] before the
    parent goes on, one of the orders the scheduler may choose. *)
From S2P Require Export Mkfs SysfileDefs.
From Stdlib Require Import Ascii.

Module UserTests.
Import Spin Locked File Sysfile.
Local Open Scope Z_scope.

(** ** The process *)

Fixpoint chars (s : string) : list Z :=
  match s with
  | EmptyString => []
  | String c s => Z.of_nat (nat_of_ascii c) :: chars s
  end.

(** Size, stack pointer, where strings are put, and the global [buf]. *)
Definition usz : Z := 65536.
Definition uesp : Z := 60000.
Definition lit1 : Z := 4096.
Definition lit2 : Z := 4352.
Definition buf : Z := 16384.
Definition bufsize : Z := 8192.
Definition no_dev {A} (_ : Z) : option A := None.
Definition name0 : list Z := replicate 14 0.

Definition store (a : Z) (l : list Z) : ym unit := modify (fun s => with_mem (put_bytes a l (y_mem s)) s).
(** A call pushes its arguments above the return address. *)
Definition args (l : list Z) : ym unit := store (uesp + 4) (l ≫= Log.le32).
Definition str (a : Z) (s : list Z) : ym Z := store a (s ++ [0]) ;; mret a.
Definition ready (r : waiting Z) : ym Z := match r with Done r => mret r | Sleeps _ => hang "asleep" end.

Definition open_l (path : list Z) (mode : Z) : ym Z := p ← str lit1 path; args [p; mode] ;; sys_open 0 1 0 no_dev no_dev usz uesp name0.
Definition unlink_l (path : list Z) : ym Z := p ← str lit1 path; args [p] ;; sys_unlink 0 1 no_dev no_dev usz uesp name0.
Definition link_l (old new : list Z) : ym Z := p ← str lit1 old; q ← str lit2 new; args [p; q] ;; sys_link 0 1 no_dev no_dev usz uesp name0.
Definition open (path : string) : Z -> ym Z := open_l (chars path).
Definition unlink (path : string) : ym Z := unlink_l (chars path).
Definition link (old new : string) : ym Z := link_l (chars old) (chars new).
Definition mkdir (path : string) : ym Z := p ← str lit1 (chars path); args [p] ;; sys_mkdir 0 1 no_dev no_dev usz uesp name0.
Definition chdir (path : string) : ym Z := p ← str lit1 (chars path); args [p] ;; sys_chdir 0 1 no_dev usz uesp name0.
Definition close (fd : Z) : ym Z := args [fd] ;; sys_close 0 1 0 usz uesp.
Definition write (fd p n : Z) : ym Z := args [fd; p; n] ;; r ← sys_write 0 1 false no_dev usz uesp; ready r.
Definition write_s (fd : Z) (s : string) (n : Z) : ym Z := p ← str lit1 (chars s); write fd p n.
Definition read (fd p n : Z) : ym Z := args [fd; p; n] ;; r ← sys_read 0 1 false no_dev usz uesp; ready r.

Definition peek8 (a : Z) : ym Z := s ← get; mret (y_mem s a).
Definition peek32 (a : Z) : ym Z := s ← get; mret (Syscall.load_int (y_mem s) a).

(** [fork], the child [m] up to its [exit], and [wait]: the child shares the open
    files and the working directory. *)
Fixpoint each {A} (f : A -> ym unit) (l : list (option A)) : ym unit :=
  match l with
  | [] => mret tt
  | Some x :: l => f x ;; each f l
  | None :: l => each f l
  end.
Definition forked {A} (m : ym A) : ym unit :=
  s ← get;
  each (fun f => filedup 0 f ;; mret tt) (y_ofile s) ;;
  in_fs (Fs.idup 0 (y_cwd s)) ;;
  m ;;
  c ← get;
  each (fun f => fileclose 0 1 0 f) (y_ofile c) ;;
  begin_op ;;
  iput 0 1 (y_cwd c) ;;
  end_op ;;
  modify (fun s' => with_mem (y_mem s) (with_cwd (y_cwd s) (with_ofile (y_ofile s) s'))).

Notation "'fail_if' P ;; k" := (if decide P then mret false else k) (at level 100, P at level 80, k at level 200, right associativity).
(** [for (i = a; i < a + n; i++)], left with [false] as soon as the body gives it. *)
Fixpoint for_up (a : Z) (n : nat) (body : Z -> ym bool) : ym bool :=
  match n with
  | O => mret true
  | S n => b ← body a; if (b : bool) then for_up (a + 1) n body else mret false
  end.
Definition digit (i : Z) : Z := 48 + i.

(** ** The tests *)

Definition iputtest : ym bool :=
  r ← mkdir "iputdir"; fail_if (r < 0) ;;
  r ← chdir "iputdir"; fail_if (r < 0) ;;
  r ← unlink "../iputdir"; fail_if (r < 0) ;;
  r ← chdir "/"; fail_if (r < 0) ;;
  mret true.

(** The parent does not look at how the child ends. *)
Definition exitiputtest : ym bool :=
  forked (
    r ← mkdir "iputdir"; fail_if (r < 0) ;;
    r ← chdir "iputdir"; fail_if (r < 0) ;;
    r ← unlink "../iputdir"; fail_if (r < 0) ;;
    mret true) ;;
  mret true.

Definition openiputtest : ym bool :=
  r ← mkdir "oidir"; fail_if (r < 0) ;;
  forked (open "oidir" O_RDWR) ;;
  r ← unlink "oidir"; fail_if (r <> 0) ;;
  mret true.

Definition opentest : ym bool :=
  fd ← open "echo" 0; fail_if (fd < 0) ;;
  close fd ;;
  fd ← open "doesnotexist" 0; fail_if (0 <= fd) ;;
  mret true.

Definition writetest : ym bool :=
  fd ← open "small" (Z.lor O_CREATE O_RDWR); fail_if (fd < 0) ;;
  b ← for_up 0 100 (fun _ =>
        r ← write_s fd "aaaaaaaaaa" 10; fail_if (r <> 10) ;;
        r ← write_s fd "bbbbbbbbbb" 10; fail_if (r <> 10) ;;
        mret true);
  fail_if (b = false) ;;
  close fd ;;
  fd ← open "small" O_RDONLY; fail_if (fd < 0) ;;
  i ← read fd buf 2000; fail_if (i <> 2000) ;;
  close fd ;;
  r ← unlink "small"; fail_if (r < 0) ;;
  mret true.

(** The reading loop of [writetest1]: [None] is the end of the file. *)
Fixpoint read_blocks (fuel : nat) (fd n : Z) : ym bool :=
  match fuel with
  | O => hang "writetest1"
  | S fuel =>
      i ← read fd buf 512;
      if decide (i = 0) then mret (bool_decide (n <> Fs.MAXFILE - 1))
      else
        fail_if (i <> 512) ;;
        x ← peek32 buf; fail_if (x <> n) ;;
        read_blocks fuel fd (n + 1)
  end.

(** [blocks] is [MAXFILE] in the source. *)
Definition writetest1 (blocks : nat) : ym bool :=
  fd ← open "big" (Z.lor O_CREATE O_RDWR); fail_if (fd < 0) ;;
  b ← for_up 0 blocks (fun i => store buf (Log.le32 i) ;; r ← write fd buf 512; fail_if (r <> 512) ;; mret true);
  fail_if (b = false) ;;
  close fd ;;
  fd ← open "big" O_RDONLY; fail_if (fd < 0) ;;
  b ← read_blocks (S blocks) fd 0; fail_if (b = false) ;;
  close fd ;;
  r ← unlink "big"; fail_if (r < 0) ;;
  mret true.

Definition createtest : ym bool :=
  for_up 0 52 (fun i => fd ← open_l [97; digit i] (Z.lor O_CREATE O_RDWR); close fd ;; mret true) ;;
  for_up 0 52 (fun i => unlink_l [97; digit i] ;; mret true) ;;
  mret true.

Definition dirtest : ym bool :=
  r ← mkdir "dir0"; fail_if (r < 0) ;;
  r ← chdir "dir0"; fail_if (r < 0) ;;
  r ← chdir ".."; fail_if (r < 0) ;;
  r ← unlink "dir0"; fail_if (r < 0) ;;
  mret true.

Definition unlinkread : ym bool :=
  fd ← open "unlinkread" (Z.lor O_CREATE O_RDWR); fail_if (fd < 0) ;;
  write_s fd "hello" 5 ;;
  close fd ;;
  fd ← open "unlinkread" O_RDWR; fail_if (fd < 0) ;;
  r ← unlink "unlinkread"; fail_if (r <> 0) ;;
  fd1 ← open "unlinkread" (Z.lor O_CREATE O_RDWR);
  write_s fd1 "yyy" 3 ;;
  close fd1 ;;
  r ← read fd buf bufsize; fail_if (r <> 5) ;;
  c ← peek8 buf; fail_if (c <> 104) ;;
  r ← write fd buf 10; fail_if (r <> 10) ;;
  close fd ;;
  unlink "unlinkread" ;;
  mret true.

Definition linktest : ym bool :=
  unlink "lf1" ;;
  unlink "lf2" ;;
  fd ← open "lf1" (Z.lor O_CREATE O_RDWR); fail_if (fd < 0) ;;
  r ← write_s fd "hello" 5; fail_if (r <> 5) ;;
  close fd ;;
  r ← link "lf1" "lf2"; fail_if (r < 0) ;;
  unlink "lf1" ;;
  r ← open "lf1" 0; fail_if (0 <= r) ;;
  fd ← open "lf2" 0; fail_if (fd < 0) ;;
  r ← read fd buf bufsize; fail_if (r <> 5) ;;
  close fd ;;
  r ← link "lf2" "lf2"; fail_if (0 <= r) ;;
  unlink "lf2" ;;
  r ← link "lf2" "lf1"; fail_if (0 <= r) ;;
  r ← link "." "lf1"; fail_if (0 <= r) ;;
  mret true.

Definition bigdir_name (i : Z) : list Z := [120; digit (i / 64); digit (i mod 64)].
(** [count] is 500 in the source. *)
Definition bigdir (count : nat) : ym bool :=
  unlink "bd" ;;
  fd ← open "bd" O_CREATE; fail_if (fd < 0) ;;
  close fd ;;
  b ← for_up 0 count (fun i => r ← link_l (chars "bd") (bigdir_name i); fail_if (r <> 0) ;; mret true); fail_if (b = false) ;;
  unlink "bd" ;;
  b ← for_up 0 count (fun i => r ← unlink_l (bigdir_name i); fail_if (r <> 0) ;; mret true); fail_if (b = false) ;;
  mret true.

Definition subdir : ym bool :=
  unlink "ff" ;;
  r ← mkdir "dd"; fail_if (r <> 0) ;;
  fd ← open "dd/ff" (Z.lor O_CREATE O_RDWR); fail_if (fd < 0) ;;
  write_s fd "ff" 2 ;;
  close fd ;;
  r ← unlink "dd"; fail_if (0 <= r) ;;
  r ← mkdir "/dd/dd"; fail_if (r <> 0) ;;
  fd ← open "dd/dd/ff" (Z.lor O_CREATE O_RDWR); fail_if (fd < 0) ;;
  write_s fd "FF" 2 ;;
  close fd ;;
  fd ← open "dd/dd/../ff" 0; fail_if (fd < 0) ;;
  cc ← read fd buf bufsize;
  c ← peek8 buf; fail_if (cc <> 2 \/ c <> 102) ;;
  close fd ;;
  r ← link "dd/dd/ff" "dd/dd/ffff"; fail_if (r <> 0) ;;
  r ← unlink "dd/dd/ff"; fail_if (r <> 0) ;;
  r ← open "dd/dd/ff" O_RDONLY; fail_if (0 <= r) ;;
  r ← chdir "dd"; fail_if (r <> 0) ;;
  r ← chdir "dd/../../dd"; fail_if (r <> 0) ;;
  r ← chdir "dd/../../../dd"; fail_if (r <> 0) ;;
  r ← chdir "./.."; fail_if (r <> 0) ;;
  fd ← open "dd/dd/ffff" 0; fail_if (fd < 0) ;;
  r ← read fd buf bufsize; fail_if (r <> 2) ;;
  close fd ;;
  r ← open "dd/dd/ff" O_RDONLY; fail_if (0 <= r) ;;
  r ← open "dd/ff/ff" (Z.lor O_CREATE O_RDWR); fail_if (0 <= r) ;;
  r ← open "dd/xx/ff" (Z.lor O_CREATE O_RDWR); fail_if (0 <= r) ;;
  r ← open "dd" O_CREATE; fail_if (0 <= r) ;;
  r ← open "dd" O_RDWR; fail_if (0 <= r) ;;
  r ← open "dd" O_WRONLY; fail_if (0 <= r) ;;
  r ← link "dd/ff/ff" "dd/dd/xx"; fail_if (r = 0) ;;
  r ← link "dd/xx/ff" "dd/dd/xx"; fail_if (r = 0) ;;
  r ← link "dd/ff" "dd/dd/ffff"; fail_if (r = 0) ;;
  r ← mkdir "dd/ff/ff"; fail_if (r = 0) ;;
  r ← mkdir "dd/xx/ff"; fail_if (r = 0) ;;
  r ← mkdir "dd/dd/ffff"; fail_if (r = 0) ;;
  r ← unlink "dd/xx/ff"; fail_if (r = 0) ;;
  r ← unlink "dd/ff/ff"; fail_if (r = 0) ;;
  r ← chdir "dd/ff"; fail_if (r = 0) ;;
  r ← chdir "dd/xx"; fail_if (r = 0) ;;
  r ← unlink "dd/dd/ffff"; fail_if (r <> 0) ;;
  r ← unlink "dd/ff"; fail_if (r <> 0) ;;
  r ← unlink "dd"; fail_if (r = 0) ;;
  r ← unlink "dd/dd"; fail_if (r < 0) ;;
  r ← unlink "dd"; fail_if (r < 0) ;;
  mret true.

Definition bigwrite_sizes : list Z := (fun k => 499 + 471 * k) <$> seqZ 0 12.
Fixpoint bigwrite_loop (l : list Z) : ym bool :=
  match l with
  | [] => mret true
  | sz :: l =>
      fd ← open "bigwrite" (Z.lor O_CREATE O_RDWR); fail_if (fd < 0) ;;
      b ← for_up 0 2 (fun _ => cc ← write fd buf sz; fail_if (cc <> sz) ;; mret true); fail_if (b = false) ;;
      close fd ;;
      unlink "bigwrite" ;;
      bigwrite_loop l
  end.
Definition bigwrite : ym bool := unlink "bigwrite" ;; bigwrite_loop bigwrite_sizes.

Fixpoint bigfile_read (fuel : nat) (fd i total : Z) : ym (option Z) :=
  match fuel with
  | O => hang "bigfile"
  | S fuel =>
      cc ← read fd buf 300;
      if decide (cc < 0) then mret None
      else if decide (cc = 0) then mret (Some total)
      else if decide (cc <> 300) then mret None
      else
        a ← peek8 buf;
        b ← peek8 (buf + 299);
        if decide (a <> i / 2 \/ b <> i / 2) then mret None
        else bigfile_read fuel fd (i + 1) (total + cc)
  end.
Definition bigfile : ym bool :=
  unlink "bigfile" ;;
  fd ← open "bigfile" (Z.lor O_CREATE O_RDWR); fail_if (fd < 0) ;;
  b ← for_up 0 20 (fun i => store buf (replicate 600 i) ;; r ← write fd buf 600; fail_if (r <> 600) ;; mret true); fail_if (b = false) ;;
  close fd ;;
  fd ← open "bigfile" 0; fail_if (fd < 0) ;;
  total ← bigfile_read 50 fd 0 0; fail_if (total = None) ;;
  close fd ;;
  fail_if (total <> Some (20 * 600)) ;;
  unlink "bigfile" ;;
  mret true.

Definition fourteen : ym bool :=
  r ← mkdir "12345678901234"; fail_if (r <> 0) ;;
  r ← mkdir "12345678901234/123456789012345"; fail_if (r <> 0) ;;
  fd ← open "123456789012345/123456789012345/123456789012345" O_CREATE; fail_if (fd < 0) ;;
  close fd ;;
  fd ← open "12345678901234/12345678901234/12345678901234" 0; fail_if (fd < 0) ;;
  close fd ;;
  r ← mkdir "12345678901234/12345678901234"; fail_if (r = 0) ;;
  r ← mkdir "123456789012345/12345678901234"; fail_if (r = 0) ;;
  mret true.

Definition rmdot : ym bool :=
  r ← mkdir "dots"; fail_if (r <> 0) ;;
  r ← chdir "dots"; fail_if (r <> 0) ;;
  r ← unlink "."; fail_if (r = 0) ;;
  r ← unlink ".."; fail_if (r = 0) ;;
  r ← chdir "/"; fail_if (r <> 0) ;;
  r ← unlink "dots/."; fail_if (r = 0) ;;
  r ← unlink "dots/.."; fail_if (r = 0) ;;
  r ← unlink "dots"; fail_if (r <> 0) ;;
  mret true.

Definition dirfile : ym bool :=
  fd ← open "dirfile" O_CREATE; fail_if (fd < 0) ;;
  close fd ;;
  r ← chdir "dirfile"; fail_if (r = 0) ;;
  fd ← open "dirfile/xx" 0; fail_if (0 <= fd) ;;
  fd ← open "dirfile/xx" O_CREATE; fail_if (0 <= fd) ;;
  r ← mkdir "dirfile/xx"; fail_if (r = 0) ;;
  r ← unlink "dirfile/xx"; fail_if (r = 0) ;;
  r ← link "README" "dirfile/xx"; fail_if (r = 0) ;;
  r ← unlink "dirfile"; fail_if (r <> 0) ;;
  fd ← open "." O_RDWR; fail_if (0 <= fd) ;;
  fd ← open "." 0;
  r ← write_s fd "x" 1; fail_if (0 < r) ;;
  close fd ;;
  mret true.

Definition close_if (fd : Z) : ym unit := if decide (0 <= fd) then close fd ;; mret tt else mret tt.
Definition iref : ym bool :=
  b ← for_up 0 51 (fun _ =>
        r ← mkdir "irefd"; fail_if (r <> 0) ;;
        r ← chdir "irefd"; fail_if (r <> 0) ;;
        mkdir "" ;;
        link "README" "" ;;
        fd ← open "" O_CREATE;
        close_if fd ;;
        fd ← open "xx" O_CREATE;
        close_if fd ;;
        unlink "xx" ;;
        mret true);
  fail_if (b = false) ;;
  chdir "/" ;;
  mret true.

(** The pointer passed to [read] is the last byte of the process. *)
Definition argptest : ym bool :=
  fd ← open "init" O_RDONLY; fail_if (fd < 0) ;;
  read fd (usz - 1) (-1) ;;
  close fd ;;
  mret true.

(** [count] is 1000 in the source. *)
Fixpoint count_chars (l : list Z) (nc np : Z) : Z * Z :=
  match l with
  | [] => (nc, np)
  | c :: l => count_chars l (if decide (c = 99) then nc + 1 else nc) (if decide (c = 112) then np + 1 else np)
  end.
Fixpoint sharedfd_read (fuel : nat) (fd nc np : Z) : ym (Z * Z) :=
  match fuel with
  | O => hang "sharedfd"
  | S fuel =>
      n ← read fd buf 10;
      if decide (0 < n) then
        s ← get;
        let '(nc, np) := count_chars (y_mem s <$> seqZ buf 10) nc np in
        sharedfd_read fuel fd nc np
      else mret (nc, np)
  end.
Definition sharedfd (count : nat) : ym bool :=
  unlink "sharedfd" ;;
  fd ← open "sharedfd" (Z.lor O_CREATE O_RDWR);
  if decide (fd < 0) then mret true
  else
    forked (store buf (replicate 10 99) ;; for_up 0 count (fun _ => r ← write fd buf 10; mret (bool_decide (r = 10)))) ;;
    store buf (replicate 10 112) ;;
    for_up 0 count (fun _ => r ← write fd buf 10; mret (bool_decide (r = 10))) ;;
    close fd ;;
    fd ← open "sharedfd" 0;
    if decide (fd < 0) then mret true
    else
      '(nc, np) ← sharedfd_read (2 * count + 1) fd 0 0;
      close fd ;;
      unlink "sharedfd" ;;
      mret (bool_decide (nc = 10 * Z.of_nat count /\ np = 10 * Z.of_nat count)).

Fixpoint fourfiles_read (fuel : nat) (fd c total : Z) : ym (option Z) :=
  match fuel with
  | O => hang "fourfiles"
  | S fuel =>
      n ← read fd buf bufsize;
      if decide (0 < n) then
        s ← get;
        if decide (Forall (fun x => x = c) (y_mem s <$> seqZ buf n)) then fourfiles_read fuel fd c (total + n) else mret None
      else mret (Some total)
  end.
Definition fourfiles : ym bool :=
  for_up 0 4 (fun pi =>
    unlink_l [102; digit pi] ;;
    forked (
      fd ← open_l [102; digit pi] (Z.lor O_CREATE O_RDWR); fail_if (fd < 0) ;;
      store buf (replicate 512 (digit pi)) ;;
      for_up 0 12 (fun _ => n ← write fd buf 500; fail_if (n <> 500) ;; mret true)) ;;
    mret true) ;;
  for_up 0 2 (fun i =>
    fd ← open_l [102; digit i] 0;
    total ← fourfiles_read 20 fd (digit i) 0; fail_if (total = None) ;;
    close fd ;;
    fail_if (total <> Some (12 * 500)) ;;
    unlink_l [102; digit i] ;;
    mret true).

(** [n] is 20 in the source. *)
Definition createdelete (n : nat) : ym bool :=
  let half := Z.of_nat n / 2 in
  for_up 0 4 (fun pi =>
    forked (for_up 0 n (fun i =>
      fd ← open_l [112 + pi; digit i] (Z.lor O_CREATE O_RDWR); fail_if (fd < 0) ;;
      close fd ;;
      if decide (0 < i /\ i mod 2 = 0) then r ← unlink_l [112 + pi; digit (i / 2)]; fail_if (r < 0) ;; mret true
      else mret true)) ;;
    mret true) ;;
  b ← for_up 0 n (fun i => for_up 0 4 (fun pi =>
        fd ← open_l [112 + pi; digit i] 0;
        fail_if ((i = 0 \/ half <= i) /\ fd < 0) ;;
        fail_if (1 <= i < half /\ 0 <= fd) ;;
        close_if fd ;; mret true));
  fail_if (b = false) ;;
  for_up 0 n (fun i => for_up 0 4 (fun _ => unlink_l [112 + i; digit i] ;; mret true)) ;;
  mret true.

(** The entries of the directory named by [C] and a character; [fa] are those
    seen. *)
Fixpoint list_dir (fuel n : nat) (fd : Z) (fa : list Z) : ym (option (list Z)) :=
  match fuel with
  | O => hang "concreate"
  | S fuel =>
      cc ← read fd buf 16;
      if decide (0 < cc) then
        s ← get;
        let de := y_mem s <$> seqZ buf 16 in
        let at_ k := Fs.byte_at de k in
        if decide (Fs.get_u16 de 0 <> 0 /\ at_ 2%nat = 67 /\ at_ 4%nat = 0) then
          let i := at_ 3%nat - 48 in
          if decide (i < 0 \/ Z.of_nat n <= i \/ i ∈ fa) then mret None else list_dir fuel n fd (i :: fa)
        else list_dir fuel n fd fa
      else mret (Some fa)
  end.
(** [n] is 40 in the source. *)
Definition concreate (n : nat) : ym bool :=
  let create i := fd ← open_l [67; digit i] (Z.lor O_CREATE O_RDWR); fail_if (fd < 0) ;; close fd ;; mret true in
  b ← for_up 0 n (fun i =>
        unlink_l [67; digit i] ;;
        forked (if decide (i mod 5 = 1) then link_l [67; 48] [67; digit i] ;; mret true else create i) ;;
        (if decide (i mod 3 = 1) then link_l [67; 48] [67; digit i] ;; mret true else create i));
  fail_if (b = false) ;;
  fd ← open "." 0;
  fa ← list_dir 300 n fd []; fail_if (fa = None) ;;
  close fd ;;
  fail_if (length (default [] fa) <> n) ;;
  let opens i := for_up 0 4 (fun _ => fd ← open_l [67; digit i] 0; close fd ;; mret true) in
  let unlinks i := for_up 0 4 (fun _ => unlink_l [67; digit i] ;; mret true) in
  for_up 0 n (fun i =>
    forked (if decide (i mod 3 = 0) then opens i else unlinks i) ;;
    (if decide (i mod 3 = 1) then opens i else unlinks i)).

(** The pseudo-random choices of [linkunlink]. *)
Fixpoint linkunlink_loop (n : nat) (x : Z) : ym unit :=
  match n with
  | O => mret tt
  | S n =>
      let x := uint32 (x * 1103515245 + 12345) in
      (if decide (x mod 3 = 0) then fd ← open "x" (Z.lor O_RDWR O_CREATE); close fd
       else if decide (x mod 3 = 1) then link "cat" "x"
       else unlink "x") ;;
      linkunlink_loop n x
  end.
Definition linkunlink : ym bool :=
  unlink "x" ;;
  forked (linkunlink_loop 100 97) ;;
  linkunlink_loop 100 1 ;;
  mret true.

(** ** Running them *)

(** The kernel after boot: an empty inode cache but for the root directory, which
    is the working directory, and no open files. *)
Definition inode0 : Fs.inode := Fs.mkInode 0 0 0 None false 0 0 0 0 0 (replicate 13 0).
Definition booted (im : Z -> list Z) : sys :=
  mkSys (free true (Fs.mkFs (fun '(_, b) => im b) ∅ ∅ (Fs.decode_sb (im 1)) (<[0%nat:=Fs.set_ref 1 (Fs.set_id 1 1 inode0)]> (replicate Fs.NINODE inode0))))
    (free true (replicate NFILE (mkFile FD_NONE 0 false false 0 0 0))) ∅ (free true (Kalloc.mkKmem true 0 (fun _ => 0)))
    (replicate 16 None) 0 (fun _ => 0) 0 [].

Definition files : list (list Z * list Z) := [(chars "_echo", replicate 700 1); (chars "_init", replicate 513 2); (chars "_cat", replicate 100 3); (chars "README", replicate 20 65)].

Definition run {A} (t : ym A) : outcome A :=
  im ← Mkfs.image files;
  '(a, _) ← t (booted im);
  Ret a.

(** With smaller counts where the source has large ones. *)
Definition tests : list (ym bool) :=
  [argptest; createdelete 6; linkunlink; concreate 7; sharedfd 20; bigwrite_loop [499; 2383]; opentest; writetest; writetest1 14; createtest;
   openiputtest; exitiputtest; iputtest; rmdot; fourteen; bigfile; subdir; linktest; unlinkread; dirfile; bigdir 20; dirtest].

(** The file system of the model passes the tests that come with the kernel:
    booted from the image [mkfs] makes, each of the file system tests of
    [usertests.c] succeeds. *)
Theorem usertests_pass : Forall (fun t => run t = Ret true) tests.
Proof. repeat (constructor; [vm_compute; reflexivity|]). constructor. Qed.

(** With 30 files the root directory fills its block; [mkfs] gives it the size of
    two.  Reading the second one makes [bmap] allocate it, outside of a
    transaction ([ls] does this). *)
Definition thirty_files : list (list Z * list Z) := (fun c => ([c], [])) <$> seqZ 65 30.
Definition list_directory : ym Z := fd ← open "." 0; read fd buf 512 ;; read fd buf 512.
Example full_directory_panics :
  (im ← Mkfs.image thirty_files; '(r, _) ← list_directory (booted im); Ret r) = Panic "log_write outside of trans".
Proof. vm_compute. reflexivity. Qed.

Example usertests_iref : run iref = Ret true.
Proof. vm_compute. reflexivity. Qed.
End UserTests.
