(* ===== verification/Printf.v ===== *)
(** * Formatted output

    Models [src/xv6-public/printf.c] and the formatting of
    [src/xv6-public/console.c] ([printint], [cprintf]).  A call's result is the
    list of the characters it passes to [putc] or [consputc], in order.  The
    words above [fmt] on the stack are the list of arguments: an argument that
    was not passed is undefined. *)
From S2P Require Export Strings.

Module Printf.
Import Strings.
Local Open Scope Z_scope.

(** ** Numbers *)

Definition udigits : list Z := [48; 49; 50; 51; 52; 53; 54; 55; 56; 57; 65; 66; 67; 68; 69; 70].
Definition kdigits : list Z := [48; 49; 50; 51; 52; 53; 54; 55; 56; 57; 97; 98; 99; 100; 101; 102].

(** [buf\[i++\] = c] for [char buf\[16\]]; [buf] holds the [i] characters so far. *)
Definition push16 (buf : list Z) (c : Z) : outcome (list Z) :=
  if decide (length buf < 16)%nat then Ret (buf ++ [c]) else Undef "printint: buf overflow".

(** [do { buf\[i++\] = digits\[x % base\]; } while((x /= base) != 0)]. *)
Fixpoint digits_loop (fuel : nat) (digits : list Z) (base x : Z) (buf : list Z) : outcome (list Z) :=
  match fuel with
  | O => Hang "printint"
  | S fuel =>
      c ← rd digits (Z.to_nat (x mod base));
      buf ← push16 buf c;
      if decide (x / base <> 0) then digits_loop fuel digits base (x / base) buf else Ret buf
  end.

(** A 32-bit number has at most 32 digits. *)
Definition printint_with (digits : list Z) (xx base : Z) (sgn : bool) : outcome (list Z) :=
  let neg := (sgn && bool_decide (xx < 0))%bool in
  x ← (if neg then if decide (xx = - 2 ^ 31) then Undef "printint: signed overflow" else Ret (- xx)
       else Ret (uint32 xx));
  buf ← digits_loop 32 digits base x [];
  buf ← (if neg then push16 buf 45 else Ret buf);
  Ret (reverse buf).

(** [printint] of [printf.c] and of [console.c]. *)
Definition printint : Z -> Z -> bool -> outcome (list Z) := printint_with udigits.
Definition k_printint : Z -> Z -> bool -> outcome (list Z) := printint_with kdigits.

(** ** Formats *)

(** [*ap++]. *)
Definition next_arg (ap : list Z) : outcome (Z * list Z) :=
  match ap with
  | a :: ap => Ret (a, ap)
  | [] => Undef "argument not passed"
  end.

(** The characters from [s] to the NUL. *)
Fixpoint read_str (fuel : nat) (m : mem) (s : Z) : outcome (list Z) :=
  match fuel with
  | O => Hang "read_str"
  | S fuel => if decide (m s = 0) then Ret [] else l ← read_str fuel m (s + 1); Ret (m s :: l)
  end.

Definition null_str : list Z := [40; 110; 117; 108; 108; 41].

Section Format.
Context (fuel : nat) (m : mem).

Definition str_arg (s : Z) : outcome (list Z) := if decide (s = 0) then Ret null_str else read_str fuel m s.

(** A conversion [%c] of [printf]: what it prints and the arguments left. *)
Definition conv (c : Z) (ap : list Z) : outcome (list Z * list Z) :=
  if decide (c = 100) then '(a, ap) ← next_arg ap; out ← printint (int32 a) 10 true; Ret (out, ap)
  else if decide (c = 120 \/ c = 112) then '(a, ap) ← next_arg ap; out ← printint (int32 a) 16 false; Ret (out, ap)
  else if decide (c = 115) then '(a, ap) ← next_arg ap; out ← str_arg a; Ret (out, ap)
  else if decide (c = 99) then '(a, ap) ← next_arg ap; Ret ([a mod 256], ap)
  else if decide (c = 37) then Ret ([c], ap)
  else Ret ([37; c], ap).

(** The loop of [printf] over the characters of [fmt]; [st] is [state == '%']. *)
Fixpoint printf_loop (fmt : list Z) (st : bool) (ap : list Z) : outcome (list Z) :=
  match fmt with
  | [] => Ret []
  | c :: fmt =>
      if st then
        '(out, ap) ← conv c ap;
        rest ← printf_loop fmt false ap;
        Ret (out ++ rest)
      else if decide (c = 37) then printf_loop fmt true ap
      else rest ← printf_loop fmt false ap; Ret (c :: rest)
  end.
Definition printf (fmt ap : list Z) : outcome (list Z) := printf_loop fmt false ap.

(** A conversion of [cprintf]; it has no [%c]. *)
Definition k_conv (c : Z) (ap : list Z) : outcome (list Z * list Z) :=
  if decide (c = 100) then '(a, ap) ← next_arg ap; out ← k_printint (int32 a) 10 true; Ret (out, ap)
  else if decide (c = 120 \/ c = 112) then '(a, ap) ← next_arg ap; out ← k_printint (int32 a) 16 false; Ret (out, ap)
  else if decide (c = 115) then '(a, ap) ← next_arg ap; out ← str_arg a; Ret (out, ap)
  else if decide (c = 37) then Ret ([37], ap)
  else Ret ([37; c], ap).

(** The loop of [cprintf]: the character after [%] is read in the same round. *)
Fixpoint cprintf_loop (fmt : list Z) (ap : list Z) : outcome (list Z) :=
  match fmt with
  | [] => Ret []
  | c :: fmt' =>
      if decide (c <> 37) then rest ← cprintf_loop fmt' ap; Ret (c :: rest)
      else match fmt' with
           | [] => Ret []
           | c :: fmt' =>
               '(out, ap) ← k_conv c ap;
               rest ← cprintf_loop fmt' ap;
               Ret (out ++ rest)
           end
  end.
End Format.

(** ** Numerals *)

(** The number a list of digits stands for, most significant digit first. *)
Definition value (base : Z) (ds : list Z) : Z := foldl (fun a d => a * base + d) 0 ds.

(** The numeral of [x]: digits, without a leading zero. *)
Record numeral (base x : Z) (ds : list Z) : Prop := {
  n_digits : Forall (fun d => 0 <= d < base) ds;
  n_value : value base ds = x;
  n_lead : ds = [0] \/ exists d ds', ds = d :: ds' /\ d <> 0
}.

Lemma value_snoc base ds d : value base (ds ++ [d]) = value base ds * base + d.
Proof. unfold value. by rewrite foldl_app. Qed.

Lemma numeral_snoc base q ds d :
  0 <= d < base -> q <> 0 -> numeral base q ds -> numeral base (q * base + d) (ds ++ [d]).
Proof.
  intros Hd Hq [H1 H2 H3]. constructor.
  - apply Forall_app. split; [done|]. by constructor.
  - by rewrite value_snoc, H2.
  - right. destruct H3 as [->|(d' & ds' & -> & Hd')]; [by cbn in H2; subst|]. by exists d', (ds' ++ [d]).
Qed.

(** The loop appends the digits of [x], least significant first; [n] digits
    are enough when [x < base^n]. *)
Lemma digits_loop_spec digits base n fuel x buf :
  2 <= base <= Z.of_nat (length digits) -> 0 <= x < base ^ Z.of_nat n -> (0 < n)%nat -> (n <= fuel)%nat -> (length buf + n <= 16)%nat ->
  exists ds, digits_loop fuel digits base x buf = Ret (buf ++ ((fun d => nth (Z.to_nat d) digits 0) <$> reverse ds)) /\
    numeral base x ds /\ (length ds <= n)%nat.
Proof.
  intros Hb. revert n x buf. induction fuel as [|fuel IH]; intros n x buf Hx Hn Hf Hl; [lia|]. cbn [digits_loop].
  pose proof (Z.mod_pos_bound x base ltac:(lia)) as Hm. pose proof (Z.div_mod x base ltac:(lia)) as Hdm.
  assert (Hlk : digits !! Z.to_nat (x mod base) = Some (nth (Z.to_nat (x mod base)) digits 0)).
  { destruct (lookup_lt_is_Some_2 digits (Z.to_nat (x mod base))) as [c Hc]; [lia|]. rewrite Hc. f_equal. symmetry. by apply nth_lookup_Some. }
  rewrite (rd_lookup _ _ _ Hlk). cbn. unfold push16. rewrite decide_True by lia. cbn. case_decide as Hq.
  - assert (0 <= x / base) by (apply Z.div_pos; lia).
    destruct n as [|[|n]]; [lia| |].
    { exfalso. rewrite Z.pow_1_r in Hx. by rewrite Z.div_small in Hq by lia. }
    destruct (IH (S n) (x / base) (buf ++ [nth (Z.to_nat (x mod base)) digits 0])) as (ds & -> & Hds & Hlen); [|lia|lia|rewrite length_app; cbn; lia|].
    { split; [lia|]. apply Z.div_lt_upper_bound; [lia|]. rewrite (Nat2Z.inj_succ (S n)), Z.pow_succ_r in Hx by lia. lia. }
    exists (ds ++ [x mod base]). split_and!; [|rewrite Hdm at 1; rewrite (Z.mul_comm base); by apply numeral_snoc|rewrite length_app; cbn; lia].
    rewrite reverse_app. cbn. by rewrite <- app_assoc.
  - exists [x mod base]. assert (x / base = 0) as H0 by lia. split_and!; [done| |cbn; lia].
    assert (x mod base = x) as -> by (rewrite H0 in Hdm; lia). constructor; [by constructor; [lia|]|cbn; lia|].
    destruct (decide (x = 0)) as [->|]; [by left|right; eauto].
Qed.

Definition digit_char (digits : list Z) (d : Z) : Z := nth (Z.to_nat d) digits 0.

(** What [printint] prints, and that it stays within [buf\[16\]]. *)
Lemma printint_spec digits xx base sgn :
  length digits = 16%nat -> base = 10 \/ base = 16 -> - 2 ^ 31 < xx < 2 ^ 31 ->
  let neg := (sgn && bool_decide (xx < 0))%bool in
  exists ds, numeral base (if neg then - xx else uint32 xx) ds /\
    printint_with digits xx base sgn = Ret ((if neg then [45] else []) ++ (digit_char digits <$> ds)).
Proof.
  intros Hlen Hbase Hxx neg. set (x := if neg then - xx else uint32 xx).
  assert (Hx : 0 <= x < 4294967296).
  { unfold x, neg, uint32. destruct (decide (xx < 0)); [destruct sgn|]; cbn; try rewrite bool_decide_true by done; cbn; try apply Z.mod_pos_bound; try lia.
    rewrite bool_decide_false by done. rewrite andb_false_r. apply Z.mod_pos_bound. lia. }
  destruct (digits_loop_spec digits base 15 32 x []) as (ds & Hl & Hn & Hds); [lia| |lia|lia|cbn; lia|].
  { split; [lia|]. destruct Hbase as [-> | ->]; cbn; lia. }
  exists ds. split; [done|]. unfold printint_with. fold neg.
  assert ((if neg then if decide (xx = - 2 ^ 31) then Undef "printint: signed overflow" else Ret (- xx) else Ret (uint32 xx)) = Ret x) as ->.
  { unfold x. destruct neg; [|done]. by rewrite decide_False by lia. }
  cbn [mbind outcome_bind]. rewrite Hl. cbn [mbind outcome_bind app]. rewrite fmap_reverse. destruct neg; cbn [mbind outcome_bind app].
  - unfold push16. rewrite decide_True by (rewrite length_reverse, length_fmap; lia). cbn [mbind outcome_bind].
    rewrite reverse_app, reverse_involutive. done.
  - by rewrite reverse_involutive.
Qed.

(** [atoi] on a string of digits that is followed by something else. *)
Lemma atoi_loop_digits m ds fuel s n :
  Forall (fun d => 0 <= d < 10) ds -> 0 <= n -> (length ds < fuel)%nat ->
  (forall i d, ds !! i = Some d -> m (s + Z.of_nat i) = 48 + d) ->
  ~ 48 <= m (s + Z.of_nat (length ds)) <= 57 -> foldl (fun a d => a * 10 + d) n ds + 48 < 2 ^ 31 ->
  atoi_loop fuel s n m = Ret (foldl (fun a d => a * 10 + d) n ds).
Proof.
  assert (Hmono : forall ds n, Forall (fun d => 0 <= d < 10) ds -> 0 <= n -> n <= foldl (fun a d => a * 10 + d) n ds).
  { clear. induction ds as [|d ds IH]; intros n Hd Hn; cbn; [lia|]. apply Forall_cons in Hd as [Hd Hds].
    specialize (IH (n * 10 + d) Hds ltac:(lia)). lia. }
  intros Hds. revert fuel s n. induction ds as [|d ds IH]; intros [|fuel] s n Hn Hf Hm Hend Hv; try (cbn in Hf; lia); cbn [atoi_loop].
  - cbn in Hend. rewrite Z.add_0_r in Hend. by rewrite decide_False.
  - apply Forall_cons in Hds as [Hd Hds]. pose proof (Hm 0%nat d eq_refl) as H0. rewrite Z.add_0_r in H0. rewrite H0.
    rewrite decide_True by lia. cbn in Hv. pose proof (Hmono ds (n * 10 + d) Hds ltac:(lia)).
    rewrite decide_True by lia. replace (n * 10 + (48 + d) - 48) with (n * 10 + d) by lia.
    apply IH; [done|lia|cbn in Hf; lia| | |done].
    + intros i d' Hi. rewrite <- (Hm (S i) d' Hi). f_equal. lia.
    + cbn in Hend. replace (s + 1 + Z.of_nat (length ds)) with (s + Z.of_nat (S (length ds))) by lia. done.
Qed.

Lemma udigits_char d : 0 <= d < 10 -> digit_char udigits d = 48 + d.
Proof.
  intros Hd. assert (d = 0 \/ d = 1 \/ d = 2 \/ d = 3 \/ d = 4 \/ d = 5 \/ d = 6 \/ d = 7 \/ d = 8 \/ d = 9) as H by lia.
  repeat (destruct H as [-> |H]; [done|]). by subst d.
Qed.

(** [printf] and [atoi] are inverse: [%d] of a number that is not negative
    prints digits from which [atoi] reads the number back, whatever follows
    them, as long as [atoi]'s intermediate sum does not overflow an [int]. *)
Theorem printf_atoi_roundtrip fuel m x :
  0 <= x -> x + 48 < 2 ^ 31 ->
  exists out, printf fuel m [37; 100] [x] = Ret out /\
    forall s m', (forall i c, out !! i = Some c -> m' (s + Z.of_nat i) = c) ->
      ~ 48 <= m' (s + Z.of_nat (length out)) <= 57 -> atoi (S (length out)) s m' = Ret x.
Proof.
  intros Hx Hov. destruct (printint_spec udigits x 10 true eq_refl ltac:(lia) ltac:(lia)) as (ds & [Hd Hv _] & Hp).
  rewrite bool_decide_false in * by lia. cbn [andb] in *. rewrite (uint32_id x) in Hv by lia.
  exists (digit_char udigits <$> ds). split.
  - unfold printf, printf_loop. rewrite (decide_True (P := 37 = 37)) by done. unfold conv. rewrite decide_True by done.
    cbn [next_arg mbind outcome_bind]. rewrite int32_id by lia. unfold printint. rewrite Hp. cbn. by rewrite app_nil_r.
  - intros s m' Hm Hend. unfold atoi. rewrite length_fmap in *. rewrite <- Hv. apply atoi_loop_digits; [done|lia|lia| |done|].
    + intros i d Hi. rewrite (Hm i (digit_char udigits d)) by (by rewrite list_lookup_fmap, Hi).
      apply udigits_char. rewrite Forall_lookup in Hd. by apply (Hd i).
    + unfold value in Hv. lia.
Qed.

Lemma printf_atoi_roundtrip_witness :
  exists out, printf 0 (fun _ => 0) [37; 100] [2022] = Ret out /\
    forall s m', (forall i c, out !! i = Some c -> m' (s + Z.of_nat i) = c) ->
      ~ 48 <= m' (s + Z.of_nat (length out)) <= 57 -> atoi (S (length out)) s m' = Ret 2022.
Proof. apply (printf_atoi_roundtrip 0 (fun _ => 0) 2022); lia. Defined.

(** ** [printf] and [cprintf] *)

(** The conversions the two functions treat alike: not [%c], and no hexadecimal
    digits, whose case differs. *)
Fixpoint shared_format (fmt : list Z) (st : bool) : bool :=
  match fmt with
  | [] => true
  | c :: fmt =>
      if st then negb (bool_decide (c = 99 \/ c = 120 \/ c = 112)) && shared_format fmt false
      else shared_format fmt (bool_decide (c = 37))
  end.

Lemma digits_loop_decimal fuel x buf : 0 <= x -> digits_loop fuel udigits 10 x buf = digits_loop fuel kdigits 10 x buf.
Proof.
  revert x buf. induction fuel as [|fuel IH]; intros x buf Hx; cbn [digits_loop]; [done|].
  pose proof (Z.mod_pos_bound x 10 ltac:(lia)).
  assert (rd udigits (Z.to_nat (x mod 10)) = rd kdigits (Z.to_nat (x mod 10))) as ->.
  { assert (forall k, (k < 10)%nat -> rd udigits k = rd kdigits k) as Hk by (intros k Hk; do 10 (destruct k as [|k]; [done|]); lia).
    apply Hk. lia. }
  destruct (rd kdigits _); cbn; [|done..]. destruct (push16 buf a); cbn; [|done..]. case_decide; [|done].
  apply IH. apply Z.div_pos; lia.
Qed.

Lemma printint_decimal xx : printint xx 10 true = k_printint xx 10 true.
Proof.
  unfold printint, k_printint, printint_with. cbn [andb].
  case_bool_decide; [case_decide|]; cbn [mbind outcome_bind]; [done|..].
  - by rewrite digits_loop_decimal by lia.
  - rewrite digits_loop_decimal; [done|]. apply Z.mod_pos_bound. lia.
Qed.

Lemma conv_shared fuel m c ap : ~ (c = 99 \/ c = 120 \/ c = 112) -> conv fuel m c ap = k_conv fuel m c ap.
Proof.
  intros Hc. unfold conv, k_conv. destruct (decide (c = 100)).
  - destruct ap; cbn [next_arg mbind outcome_bind]; [done|]. by rewrite printint_decimal.
  - rewrite !(decide_False (P := c = 120 \/ c = 112)) by tauto. destruct (decide (c = 115)); [reflexivity|].
    rewrite (decide_False (P := c = 99)) by tauto. destruct (decide (c = 37)); [by subst|reflexivity].
Qed.

(** The kernel's [cprintf] and the user library's [printf] print the same
    characters for every format whose conversions they share. *)
Theorem printf_cprintf_agree fuel m fmt ap :
  shared_format fmt false = true -> printf fuel m fmt ap = cprintf_loop fuel m fmt ap.
Proof.
  unfold printf. intros H. remember (length fmt) as n eqn:Hn. assert (Hle : (length fmt <= n)%nat) by lia. clear Hn.
  revert fmt ap H Hle. induction n as [|n IH]; intros [|c fmt] ap H Hle; try (cbn in Hle; lia); [done..|].
  cbn [printf_loop cprintf_loop] in *. cbn in H. destruct (decide (c = 37)) as [->|Hc].
  - rewrite decide_False by tauto. rewrite bool_decide_true in H by done. destruct fmt as [|c fmt]; [done|].
    cbn [printf_loop]. cbn in H. apply andb_true_iff in H as [H1 H2]. apply negb_true_iff, bool_decide_eq_false in H1.
    rewrite conv_shared by done. destruct (k_conv fuel m c ap) as [[out ap']| | |]; cbn; [|done..]. rewrite IH; [done|done|cbn in Hle; lia].
  - rewrite decide_True by done. rewrite bool_decide_false in H by done. rewrite IH; [done|done|cbn in Hle; lia].
Qed.

Lemma printf_cprintf_agree_witness :
  printf 0 (fun _ => 0) [37; 100; 58; 37; 115; 10] [4294967295; 0] = cprintf_loop 0 (fun _ => 0) [37; 100; 58; 37; 115; 10] [4294967295; 0].
Proof. apply (printf_cprintf_agree 0 (fun _ => 0) [37; 100; 58; 37; 115; 10] [4294967295; 0]). reflexivity. Defined.

(** A conversion without its argument prints whatever is on the stack: the last
    [printf] of a child in [src/xv6-public/sdebug.c], [PID %d terminated.]. *)
Example printf_missing_argument fuel m :
  printf fuel m [80; 73; 68; 32; 37; 100; 32; 116; 101; 114; 109; 105; 110; 97; 116; 101; 100; 46; 10] [] = Undef "argument not passed".
Proof. reflexivity. Qed.

End Printf.
