(* ===== verification/Console.v ===== *)
(** * The console

    Models [src/xv6-public/console.c] (output to the screen and the serial port,
    [cprintf], [panic], the line editor of [consoleintr], [consoleread],
    [consolewrite]), [uartputc] and [uartgetc] of [src/xv6-public/uart.c].

    The cursor position registers of the CRT controller keep what is written to
    them ([c_pos]); what is sent to the serial port is recorded ([c_serial]).
    [consoleread] runs up to the point where it sleeps and is entered again when
    the process is woken up, as in [Pipe].  The inode operations it calls around
    its critical section are parameters that act on another part of the state. *)
From S2P Require Export Spinlock Printf.

Module Console.
Import Spin Locked.
Local Open Scope Z_scope.

Definition INPUT_BUF : Z := 128.
Definition BACKSPACE : Z := 256.
(** [C(x)]. *)
Definition Ctl (x : Z) : Z := x - 64.

(** [cons], [panicked], [input], the screen memory, and the serial port. *)
Record cons := mkCons {
  c_locking : bool;
  c_panicked : bool;
  c_buf : list Z;
  c_r : Z;
  c_w : Z;
  c_e : Z;
  c_crt : list Z;
  c_pos : Z;
  c_uart : bool;
  c_serial : list Z;
  c_sleep : gset nat
}.

Definition set_screen (crt : list Z) (pos : Z) (d : cons) : cons :=
  mkCons (c_locking d) (c_panicked d) (c_buf d) (c_r d) (c_w d) (c_e d) crt pos (c_uart d) (c_serial d) (c_sleep d).
Definition set_serial (l : list Z) (d : cons) : cons :=
  mkCons (c_locking d) (c_panicked d) (c_buf d) (c_r d) (c_w d) (c_e d) (c_crt d) (c_pos d) (c_uart d) l (c_sleep d).
Definition set_input (buf : list Z) (r w e : Z) (d : cons) : cons :=
  mkCons (c_locking d) (c_panicked d) buf r w e (c_crt d) (c_pos d) (c_uart d) (c_serial d) (c_sleep d).
Definition set_sleep (sl : gset nat) (d : cons) : cons :=
  mkCons (c_locking d) (c_panicked d) (c_buf d) (c_r d) (c_w d) (c_e d) (c_crt d) (c_pos d) (c_uart d) (c_serial d) sl.
Definition set_flags (locking panicked : bool) (d : cons) : cons :=
  mkCons locking panicked (c_buf d) (c_r d) (c_w d) (c_e d) (c_crt d) (c_pos d) (c_uart d) (c_serial d) (c_sleep d).

(** ** Output *)

(** [memmove(crt, crt+80, sizeof(crt\[0\])*23*80)] and
    [memset(crt+pos, 0, sizeof(crt\[0\])*(24*80 - pos))]. *)
Definition scroll (crt : list Z) (pos : Z) : outcome (list Z) :=
  if decide (Z.of_nat (length crt) < 24 * 80) then Undef "scroll"
  else if decide (24 * 80 < pos) then Undef "memset of a negative size"
  else
    let crt := take (23 * 80) (drop 80 crt) ++ drop (23 * 80) crt in
    Ret (take (Z.to_nat pos) crt ++ replicate (Z.to_nat (24 * 80 - pos)) 0 ++ drop (24 * 80) crt).

(** Where the character goes and the next position. *)
Definition cga_put (c : Z) (crt : list Z) (pos : Z) : outcome (list Z * Z) :=
  if decide (c = 10) then Ret (crt, pos + (80 - pos mod 80))
  else if decide (c = BACKSPACE) then Ret (crt, if decide (0 < pos) then pos - 1 else pos)
  else crt ← wr crt (Z.to_nat pos) (Z.lor (Z.land c 255) 1792); Ret (crt, pos + 1).

Definition cgaputc_on (c : Z) (crt : list Z) (pos : Z) : outcome (list Z * Z) :=
  '(crt, pos) ← cga_put c crt pos;
  if decide (pos < 0 \/ 25 * 80 < pos) then Panic "pos under/overflow"
  else
    '(crt, pos) ← (if decide (24 <= pos / 80) then crt ← scroll crt (pos - 80); Ret (crt, pos - 80) else Ret (crt, pos));
    crt ← wr crt (Z.to_nat pos) (Z.lor 32 1792);
    Ret (crt, pos).

Section Console.
Context (me : nat).
Definition cm A := stm (guarded cons) A.

Definition upd (f : cons -> cons) : cm unit := d ← getd; setd (f d).
Definition lift {A} (m : outcome A) : cm A := fun s => a ← m; Ret (a, s).

Definition cgaputc (c : Z) : cm unit :=
  d ← getd;
  '(crt, pos) ← lift (cgaputc_on c (c_crt d) (c_pos d));
  upd (set_screen crt pos).

(** The wait for the transmitter, at most 128 polls, changes nothing. *)
Definition uartputc (c : Z) : cm unit :=
  d ← getd;
  if c_uart d then upd (set_serial (c_serial d ++ [c mod 256])) else mret tt.

Definition consputc (c : Z) : cm unit :=
  d ← getd;
  if c_panicked d then hang "panicked"
  else
    (if decide (c = BACKSPACE) then uartputc 8 ;; uartputc 32 ;; uartputc 8 else uartputc c) ;;
    cgaputc c.

Fixpoint putchars (l : list Z) : cm unit :=
  match l with
  | [] => mret tt
  | c :: l => consputc c ;; putchars l
  end.

Definition cprintf (fuel : nat) (m : Strings.mem) (fmt ap : list Z) : cm unit :=
  d ← getd;
  let locking := c_locking d in
  (if locking then lk_acquire me else mret tt) ;;
  out ← lift (Printf.cprintf_loop fuel m fmt ap);
  putchars out ;;
  if locking then lk_release me else mret tt.

(** ** Input *)

(** [wakeup(&input.r)] and [sleep(&input.r, &cons.lock)]. *)
Definition wakeup_input : cm unit := upd (set_sleep ∅).
Definition sleep_input (pid : nat) : cm unit := upd (fun d => set_sleep ({[pid]} ∪ c_sleep d) d) ;; lk_release me.

Definition slot (i : Z) : nat := Z.to_nat (i mod INPUT_BUF).

(** The loop of [C('U')]. *)
Fixpoint kill_line (fuel : nat) : cm unit :=
  match fuel with
  | O => undef "out of fuel"
  | S fuel =>
      d ← getd;
      if decide (c_e d = c_w d) then mret tt
      else
        c ← lift (rd (c_buf d) (slot (uint32 (c_e d - 1))));
        if decide (c = 10) then mret tt
        else
          upd (set_input (c_buf d) (c_r d) (c_w d) (uint32 (c_e d - 1))) ;;
          consputc BACKSPACE ;;
          kill_line fuel
  end.

(** The default case: [c] is stored and echoed. *)
Definition type_char (c : Z) : cm unit :=
  d ← getd;
  if decide (c <> 0 /\ uint32 (c_e d - c_r d) < INPUT_BUF) then
    let c := if decide (c = 13) then 10 else c in
    buf ← lift (wr (c_buf d) (slot (c_e d)) (c mod 256));
    let e := uint32 (c_e d + 1) in
    upd (set_input buf (c_r d) (c_w d) e) ;;
    consputc c ;;
    if decide (c = 10 \/ c = Ctl 68 \/ e = uint32 (c_r d + INPUT_BUF)) then
      upd (fun d => set_input (c_buf d) (c_r d) (c_e d) (c_e d) d) ;;
      wakeup_input
    else mret tt
  else mret tt.

Definition handle_char (c : Z) : cm unit :=
  d ← getd;
  if decide (c = Ctl 85) then kill_line (S (Z.to_nat (uint32 (c_e d - c_w d))))
  else if decide (c = Ctl 72 \/ c = 127) then
    if decide (c_e d <> c_w d) then
      upd (set_input (c_buf d) (c_r d) (c_w d) (uint32 (c_e d - 1))) ;;
      consputc BACKSPACE
    else mret tt
  else type_char c.

(** The characters [getc] returns before it returns a negative number; the
    result is [doprocdump]. *)
Fixpoint intr_loop (cs : list Z) (doprocdump : bool) : cm bool :=
  match cs with
  | [] => mret doprocdump
  | c :: cs => if decide (c = Ctl 80) then intr_loop cs true else handle_char c ;; intr_loop cs doprocdump
  end.

(** Up to the call of [procdump]. *)
Definition consoleintr (cs : list Z) : cm bool :=
  lk_acquire me ;;
  dump ← intr_loop cs false;
  lk_release me ;;
  mret dump.

(** How a pass of [consoleread] ends: the bytes stored at [dst], -1, or asleep
    with [n] bytes to go and these bytes stored. *)
Inductive cres := CDone (bytes : list Z) | CFail | CSleep (n : nat) (bytes : list Z).

Definition set_r (r : Z) (d : cons) : cons := set_input (c_buf d) r (c_w d) (c_e d) d.

Fixpoint read_loop (pid : nat) (killed : bool) (target n : nat) (got : list Z) : cm cres :=
  match n with
  | O => lk_release me ;; mret (CDone got)
  | S n' =>
      d ← getd;
      if decide (c_r d = c_w d) then
        if killed then lk_release me ;; mret CFail
        else sleep_input pid ;; mret (CSleep n got)
      else
        c ← lift (rd (c_buf d) (slot (c_r d)));
        upd (set_r (uint32 (c_r d + 1))) ;;
        if decide (c = Ctl 68) then
          (if decide (n < target)%nat then upd (fun d => set_r (uint32 (c_r d - 1)) d) else mret tt) ;;
          lk_release me ;;
          mret (CDone got)
        else if decide (c = 10) then lk_release me ;; mret (CDone (got ++ [c]))
        else read_loop pid killed target n' (got ++ [c])
  end.

(** From the start of [consoleread] or from its return from [sleep]. *)
Definition read_pass (pid : nat) (killed : bool) (target n : nat) (got : list Z) : cm cres :=
  lk_acquire me ;; read_loop pid killed target n got.

Definition write_pass (buf : list Z) : cm unit :=
  lk_acquire me ;;
  putchars ((fun c => Z.land c 255) <$> buf) ;;
  lk_release me.

(** With the inode's lock: [I] is the state of the inode cache. *)
Section Device.
Context {I : Type} (iunlock ilock : stm I unit).
Definition dm A := stm (I * guarded cons) A.
Definition in_inode {A} (m : stm I A) : dm A := fun s => '(a, i) ← m (fst s); Ret (a, (i, snd s)).
Definition in_cons {A} (m : cm A) : dm A := fun s => '(a, c) ← m (snd s); Ret (a, (fst s, c)).

(** The end of [consoleread]: [ilock] unless it sleeps. *)
Definition read_end (r : cres) : dm cres :=
  match r with
  | CSleep _ _ => mret r
  | _ => in_inode ilock ;; mret r
  end.
Definition consoleread (pid : nat) (killed : bool) (n : nat) : dm cres :=
  in_inode iunlock ;;
  r ← in_cons (read_pass pid killed n n []);
  read_end r.
Definition consoleread_resume (pid : nat) (killed : bool) (target n : nat) (got : list Z) : dm cres :=
  r ← in_cons (read_pass pid killed target n got);
  read_end r.

Definition consolewrite (buf : list Z) : dm Z :=
  in_inode iunlock ;;
  in_cons (write_pass buf) ;;
  in_inode ilock ;;
  mret (Z.of_nat (length buf)).
End Device.

Definition consoleinit : cm unit := fun s =>
  Ret (tt, mkL initlock (l_cpu s) (set_flags true (c_panicked (l_data s)) (l_data s))).

(** [panic] up to its final loop; [pcs] is what [getcallerpcs] found. *)
Definition panic_print (fuel : nat) (m : Strings.mem) (lapicid : Z) (msg pcs : list Z) : cm unit :=
  upd (fun d => set_flags false (c_panicked d) d) ;;
  cprintf fuel m [108; 97; 112; 105; 99; 105; 100; 32; 37; 100; 58; 32; 112; 97; 110; 105; 99; 58; 32] [lapicid] ;;
  cprintf fuel m msg [] ;;
  cprintf fuel m [10] [] ;;
  foldr (fun pc k => cprintf fuel m [32; 37; 112] [pc] ;; k) (mret tt) pcs ;;
  upd (fun d => set_flags (c_locking d) true d).
Definition cons_panic (fuel : nat) (m : Strings.mem) (lapicid : Z) (msg pcs : list Z) : cm unit :=
  panic_print fuel m lapicid msg pcs ;;
  hang "panic".

(** ** The screen *)

(** The cursor is on one of the first 24 rows of the 25 rows of the screen. *)
Definition screen_ok (crt : list Z) (pos : Z) : Prop := length crt = 2000%nat /\ 0 <= pos < 1920.

Lemma cga_put_ok c crt pos : screen_ok crt pos ->
  exists crt' pos', cga_put c crt pos = Ret (crt', pos') /\ length crt' = 2000%nat /\ 0 <= pos' <= 1920.
Proof.
  intros [Hl Hp]. unfold cga_put. destruct (decide (c = 10)); [|destruct (decide (c = BACKSPACE))].
  - eexists _, _. split_and!; [done..| |]; Z.div_mod_to_equations; lia.
  - eexists _, _. split_and!; [done..| |]; case_decide; lia.
  - rewrite wr_lt by lia. eexists _, _. split_and!; [done|by rewrite length_insert|lia|lia].
Qed.

Lemma scroll_ok crt : length crt = 2000%nat ->
  scroll crt 1840 = Ret (take 1840 (drop 80 crt) ++ replicate 80 0 ++ drop 1920 crt).
Proof.
  intros Hl. unfold scroll. rewrite !decide_False by lia. f_equal.
  change (Z.to_nat 1840) with 1840%nat. change (23 * 80)%nat with 1840%nat. change (24 * 80)%nat with 1920%nat.
  change (Z.to_nat (24 * 80 - 1840)) with 80%nat.
  assert (length (take 1840 (drop 80 crt)) = 1840)%nat as Ht by (rewrite length_take, length_drop; lia).
  rewrite take_app_le, (take_ge (take 1840 (drop 80 crt))) by lia. do 2 f_equal.
  rewrite drop_app_ge by lia. rewrite Ht, drop_drop. done.
Qed.

Lemma cgaputc_on_ok c crt pos : screen_ok crt pos ->
  exists crt' pos', cgaputc_on c crt pos = Ret (crt', pos') /\ screen_ok crt' pos'.
Proof.
  intros H. unfold cgaputc_on. destruct (cga_put_ok c crt pos H) as (crt1 & pos1 & -> & Hl & Hp). cbn [mbind outcome_bind].
  rewrite decide_False by lia. case_decide as Hr.
  - assert (pos1 = 1920) as -> by (Z.div_mod_to_equations; lia). change (1920 - 80) with 1840. rewrite scroll_ok by done. cbn [mbind outcome_bind].
    assert (length (take 1840 (drop 80 crt1) ++ replicate 80 0 ++ drop 1920 crt1) = 2000%nat) as Hl2.
    { rewrite !length_app, length_take, length_replicate, !length_drop. lia. }
    rewrite wr_lt by (rewrite Hl2; lia). eexists _, _. split; [done|]. split; [by rewrite length_insert|lia].
  - cbn [mbind outcome_bind]. assert (pos1 < 1920) by (Z.div_mod_to_equations; lia). rewrite wr_lt by lia.
    eexists _, _. split; [done|]. split; [by rewrite length_insert|lia].
Qed.

(** ** Output leaves the input alone *)

(** [d'] differs from [d] by what was written to the screen and the port. *)
Definition echoed (d d' : cons) : Prop :=
  (exists crt pos l, d' = set_serial l (set_screen crt pos d)) /\ screen_ok (c_crt d') (c_pos d').

Lemma echoed_trans d1 d2 d3 : echoed d1 d2 -> echoed d2 d3 -> echoed d1 d3.
Proof. intros [(crt & pos & l & ->) _] [(crt' & pos' & l' & ->) H]. split; [by exists crt', pos', l'|done]. Qed.

Lemma wp_uartputc c b d (Q : unit -> guarded cons -> Prop) :
  screen_ok (c_crt d) (c_pos d) -> (forall d', echoed d d' -> Q tt (held me b d')) -> wp (uartputc c) Q (held me b d).
Proof.
  intros Hs HQ. unfold uartputc, upd. lk_steps. destruct (c_uart d) eqn:E; lk_steps; apply HQ.
  - split; [|done]. exists (c_crt d), (c_pos d), (c_serial d ++ [c mod 256]). by destruct d.
  - split; [|done]. exists (c_crt d), (c_pos d), (c_serial d). by destruct d.
Qed.

Lemma wp_cons_lift {A} (m : outcome A) a (Q : A -> guarded cons -> Prop) s : m = Ret a -> Q a s -> wp (lift m) Q s.
Proof. intros -> HQ. exact HQ. Qed.

Lemma wp_consputc c b d (Q : unit -> guarded cons -> Prop) :
  c_panicked d = false -> screen_ok (c_crt d) (c_pos d) ->
  (forall d', echoed d d' -> Q tt (held me b d')) -> wp (consputc c) Q (held me b d).
Proof.
  intros Hp Hs HQ. unfold consputc. lk_steps. rewrite Hp. lk_step.
  assert (Hc : forall d1, echoed d d1 -> wp (cgaputc c) Q (held me b d1)).
  { intros d1 [H1 Hs1]. unfold cgaputc, upd. lk_steps. destruct (cgaputc_on_ok c _ _ Hs1) as (crt & pos & Hg & Hs2).
    eapply wp_cons_lift; [exact Hg|]. lk_steps. apply HQ. destruct H1 as (crt1 & pos1 & l1 & ->).
    split; [|done]. by exists crt, pos, l1. }
  case_decide.
  - lk_step. apply wp_uartputc; [done|]. intros d1 [H1 Hs1]. lk_step. apply wp_uartputc; [done|]. intros d2 [H2 Hs2].
    apply wp_uartputc; [done|]. intros d3 H3. apply Hc.
    eapply echoed_trans; [by split|]. eapply echoed_trans; [by split|done].
  - apply wp_uartputc; [done|]. exact Hc.
Qed.

(** ** The ring buffer *)

(** The [n] bytes of the ring from index [a] on. *)
Definition ring (buf : list Z) (a : Z) (n : nat) : list Z :=
  (fun k => nth (slot (a + Z.of_nat k)) buf 0) <$> seq 0 n.

Lemma slot_uint32 z : slot (uint32 z) = slot z.
Proof.
  unfold slot, uint32, INPUT_BUF. f_equal. symmetry. apply Znumtheory.Zmod_div_mod; [lia|lia|]. by exists 33554432.
Qed.

Lemma slot_add z k : slot (uint32 z + k) = slot (z + k).
Proof.
  rewrite <- (slot_uint32 (uint32 z + k)), <- (slot_uint32 (z + k)). unfold uint32. by rewrite Zplus_mod_idemp_l.
Qed.

Lemma slot_lt z : (slot z < 128)%nat.
Proof. unfold slot, INPUT_BUF. pose proof (Z.mod_pos_bound z 128 ltac:(lia)). lia. Qed.

Lemma in_slot_ne a j k : (j < k < 128)%nat -> slot (a + Z.of_nat j) <> slot (a + Z.of_nat k).
Proof.
  unfold slot, INPUT_BUF. intros Hjk He. pose proof (Z.mod_pos_bound (a + Z.of_nat j) 128 ltac:(lia)).
  pose proof (Z.mod_pos_bound (a + Z.of_nat k) 128 ltac:(lia)).
  assert (((a + Z.of_nat k) - (a + Z.of_nat j)) mod 128 = 0) as Hd.
  { rewrite Zminus_mod. replace ((a + Z.of_nat k) mod 128) with ((a + Z.of_nat j) mod 128) by lia. by rewrite Z.sub_diag. }
  apply Z.mod_divide in Hd as [z Hz]; lia.
Qed.

Lemma ring_uint32 buf a n : ring buf (uint32 a) n = ring buf a n.
Proof. unfold ring. apply list_fmap_ext. intros j k _. by rewrite slot_add. Qed.

Lemma length_ring buf a n : length (ring buf a n) = n.
Proof. unfold ring. by rewrite length_fmap, length_seq. Qed.

Lemma ring_app buf a n m : ring buf a (n + m) = ring buf a n ++ ring buf (a + Z.of_nat n) m.
Proof.
  unfold ring. rewrite seq_app, fmap_app. f_equal. cbn.
  replace (seq n m) with (Nat.add n <$> seq 0 m) by (rewrite fmap_add_seq; f_equal; lia).
  rewrite <- list_fmap_compose. apply list_fmap_ext. intros j k _. cbn. do 2 f_equal. lia.
Qed.

Lemma ring_S buf a n : ring buf a (S n) = nth (slot a) buf 0 :: ring buf (a + 1) n.
Proof. replace (S n) with (1 + n)%nat by lia. rewrite ring_app. cbn. by rewrite Z.add_0_r. Qed.

Lemma ring_snoc buf a n : ring buf a (S n) = ring buf a n ++ [nth (slot (a + Z.of_nat n)) buf 0].
Proof. replace (S n) with (n + 1)%nat by lia. rewrite ring_app. cbn. by rewrite Z.add_0_r. Qed.

(** A store behind [n] bytes leaves them, when they do not fill the ring. *)
Lemma ring_insert buf a n k c :
  (n <= k < 128)%nat -> ring (<[slot (a + Z.of_nat k) := c]> buf) a n = ring buf a n.
Proof.
  intros Hn. unfold ring. apply list_fmap_ext. intros j x Hx. apply lookup_seq in Hx as [-> Hx].
  rewrite !nth_lookup, list_lookup_insert_ne; [done|]. symmetry. apply in_slot_ne. lia.
Qed.

(** ** The line editor *)

(** The console's buffer holds the bytes [q] that can be read and the line [l]
    that is being edited. *)
Record cons_ring (d : cons) (q l : list Z) : Prop := {
  k_len : length (c_buf d) = 128%nat;
  k_r : 0 <= c_r d < 4294967296;
  k_w : c_w d = uint32 (c_r d + Z.of_nat (length q));
  k_e : c_e d = uint32 (c_w d + Z.of_nat (length l));
  k_cap : (length q + length l <= 128)%nat;
  k_q : ring (c_buf d) (c_r d) (length q) = q;
  k_l : ring (c_buf d) (c_w d) (length l) = l;
  k_run : c_panicked d = false;
  k_screen : screen_ok (c_crt d) (c_pos d)
}.

(** The line has no newline, and a process sleeps only when there is nothing to
    read. *)
Definition cons_ok (d : cons) (q l : list Z) : Prop :=
  cons_ring d q l /\ Forall (fun c => c <> 10) l /\ (c_sleep d <> ∅ -> q = []).

(** What a character does to the pair. *)
Definition edit (x : list Z * list Z) (c : Z) : list Z * list Z :=
  let '(q, l) := x in
  if decide (c = Ctl 80) then (q, l)
  else if decide (c = Ctl 85) then (q, [])
  else if decide (c = Ctl 72 \/ c = 127) then (q, removelast l)
  else if decide (c = 0 \/ (length q + length l = 128)%nat) then (q, l)
  else
    let c := if decide (c = 13) then 10 else c in
    let l := l ++ [c] in
    if decide (c = 10 \/ c = Ctl 68 \/ (length q + length l = 128)%nat) then (q ++ l, []) else (q, l).

Lemma uint32_diff a k : 0 <= k < 4294967296 -> uint32 (uint32 (a + k) - a) = k.
Proof. intros Hk. unfold uint32. rewrite Zminus_mod_idemp_l. replace (a + k - a) with k by lia. by apply Z.mod_small. Qed.

Lemma uint32_inj a j k : 0 <= j < 4294967296 -> 0 <= k < 4294967296 -> uint32 (a + j) = uint32 (a + k) <-> j = k.
Proof. intros Hj Hk. split; [|by intros ->]. intros H. rewrite <- (uint32_diff a j), <- (uint32_diff a k) by done. by rewrite H. Qed.

Lemma uint32_add a k : uint32 (uint32 a + k) = uint32 (a + k).
Proof. unfold uint32. apply Zplus_mod_idemp_l. Qed.

(** [input.e - input.r], [input.e == input.w] and [input.r == input.w]. *)
Lemma cons_ring_e d q l : cons_ring d q l -> c_e d = uint32 (c_r d + Z.of_nat (length q + length l)).
Proof. intros H. rewrite (k_e _ _ _ H), (k_w _ _ _ H), uint32_add. f_equal. lia. Qed.

Lemma cons_ring_used d q l : cons_ring d q l -> uint32 (c_e d - c_r d) = Z.of_nat (length q + length l).
Proof. intros H. rewrite (cons_ring_e _ _ _ H). apply uint32_diff. pose proof (k_cap _ _ _ H). lia. Qed.

Lemma cons_ring_line d q l : cons_ring d q l -> uint32 (c_e d - c_w d) = Z.of_nat (length l).
Proof. intros H. rewrite (k_e _ _ _ H). apply uint32_diff. pose proof (k_cap _ _ _ H). lia. Qed.

Lemma cons_ring_e_w d q l : cons_ring d q l -> c_e d = c_w d <-> l = [].
Proof.
  intros H. pose proof (k_cap _ _ _ H). rewrite <- length_zero_iff_nil. pose proof (cons_ring_line _ _ _ H) as Hl. split.
  - intros He. rewrite He, Z.sub_diag in Hl. change (uint32 0) with 0 in Hl. lia.
  - intros Hz. rewrite (k_e _ _ _ H), Hz. change (Z.of_nat 0) with 0. rewrite Z.add_0_r. apply uint32_id.
    rewrite (k_w _ _ _ H). apply uint32_bound.
Qed.

Lemma cons_ring_r_w d q l : cons_ring d q l -> c_r d = c_w d <-> q = [].
Proof.
  intros H. pose proof (k_cap _ _ _ H). rewrite <- length_zero_iff_nil.
  rewrite (k_w _ _ _ H), <- (uint32_id (c_r d)) at 1 by (pose proof (k_r _ _ _ H); lia).
  rewrite <- (Z.add_0_r (c_r d)) at 1. rewrite uint32_inj by lia. lia.
Qed.

(** Output and the change of the flags keep the invariant. *)
Lemma cons_ring_echoed d d' q l : cons_ring d q l -> echoed d d' -> cons_ring d' q l.
Proof. intros [] [(crt & pos & p & ->) Hs]. by constructor. Qed.

(** Removing the last byte of the line. *)
Lemma cons_ring_back d q l c :
  cons_ring d q (l ++ [c]) -> cons_ring (set_input (c_buf d) (c_r d) (c_w d) (uint32 (c_e d - 1)) d) q l /\
    c_buf d !! slot (uint32 (c_e d - 1)) = Some c.
Proof.
  intros H. assert (He : uint32 (c_e d - 1) = uint32 (c_w d + Z.of_nat (length l))).
  { rewrite (k_e _ _ _ H), length_app. cbn. unfold uint32. rewrite Zminus_mod_idemp_l. f_equal. lia. }
  rewrite He. pose proof (k_l _ _ _ H) as Hl. rewrite length_app in Hl. cbn in Hl.
  replace (length l + 1)%nat with (S (length l)) in Hl by lia. rewrite ring_snoc in Hl. apply app_inj_tail in Hl as [Hl Hc].
  pose proof (k_cap _ _ _ H) as Hcap. rewrite length_app in Hcap. cbn in Hcap.
  split.
  - destruct H. constructor; cbn; [done..|lia|done|done|done|done].
  - rewrite slot_uint32, <- Hc. destruct (lookup_lt_is_Some_2 (c_buf d) (slot (c_w d + Z.of_nat (length l)))) as [x Hx].
    { rewrite (k_len _ _ _ H). apply slot_lt. }
    rewrite Hx. f_equal. symmetry. by apply nth_lookup_Some.
Qed.

(** Storing a byte behind the line, and making the line readable. *)
Lemma cons_ring_store d q l c :
  cons_ring d q l -> (length q + length l < 128)%nat ->
  cons_ring (set_input (<[slot (c_e d) := c]> (c_buf d)) (c_r d) (c_w d) (uint32 (c_e d + 1)) d) q (l ++ [c]).
Proof.
  intros H Hlt. pose proof (cons_ring_e _ _ _ H) as He. pose proof (k_e _ _ _ H) as He'. destruct H as [Hlen Hr Hw _ Hcap Hq Hl Hp Hs].
  constructor; cbn; try done.
  - by rewrite length_insert.
  - rewrite length_app. cbn. rewrite He', uint32_add. f_equal. lia.
  - rewrite length_app. cbn. lia.
  - rewrite He, slot_uint32, ring_insert by lia. done.
  - rewrite length_app. cbn. replace (length l + 1)%nat with (S (length l)) by lia. rewrite ring_snoc, He', slot_uint32.
    rewrite ring_insert by lia. rewrite Hl. do 2 f_equal. apply nth_lookup_Some, list_lookup_insert_eq. rewrite Hlen. apply slot_lt.
Qed.

Lemma cons_ring_commit d q l :
  cons_ring d q l -> cons_ring (set_sleep ∅ (set_input (c_buf d) (c_r d) (c_e d) (c_e d) d)) (q ++ l) [].
Proof.
  intros H. pose proof (cons_ring_e _ _ _ H) as He. pose proof (uint32_bound (c_w d + Z.of_nat (length l))) as Hb.
  pose proof (k_e _ _ _ H) as He'. destruct H as [Hlen Hr Hw _ Hcap Hq Hl Hp Hs].
  constructor; cbn; try done.
  - by rewrite length_app.
  - rewrite Z.add_0_r. symmetry. apply uint32_id. rewrite He'. lia.
  - rewrite length_app. lia.
  - rewrite length_app, ring_app, Hq. f_equal. rewrite <- ring_uint32, <- Hw. done.
Qed.

(** Reading the first byte. *)
Lemma cons_ring_read d c q l :
  cons_ring d (c :: q) l ->
  c_buf d !! slot (c_r d) = Some c /\ cons_ring (set_r (uint32 (c_r d + 1)) d) q l.
Proof.
  intros [Hlen Hr Hw He Hcap Hq Hl Hp Hs]. cbn [length] in *. rewrite ring_S in Hq. injection Hq as Hc Hq. split.
  - destruct (lookup_lt_is_Some_2 (c_buf d) (slot (c_r d))) as [x Hx]; [rewrite Hlen; apply slot_lt|].
    rewrite Hx. f_equal. rewrite <- Hc. symmetry. by apply nth_lookup_Some.
  - constructor; cbn; try done.
    + pose proof (uint32_bound (c_r d + 1)). lia.
    + rewrite Hw, uint32_add. f_equal. lia.
    + lia.
    + by rewrite ring_uint32.
Qed.

(** *** The interrupt handler *)

Lemma wp_kill_line fuel q l b d (Q : unit -> guarded cons -> Prop) :
  cons_ok d q l -> (length l < fuel)%nat ->
  (forall d', cons_ok d' q [] -> Q tt (held me b d')) -> wp (kill_line fuel) Q (held me b d).
Proof.
  revert d l. induction fuel as [|fuel IH]; intros d l (H & Hn & Hs) Hf HQ; [lia|]. cbn [kill_line]. lk_steps.
  pose proof (cons_ring_e_w _ _ _ H) as Hew. destruct l as [|c l _] using rev_ind.
  - rewrite decide_True by by apply Hew. lk_step. by apply HQ.
  - rewrite decide_False by (rewrite Hew; by destruct l). lk_step.
    destruct (cons_ring_back _ _ _ _ H) as [H' Hc]. apply Forall_app in Hn as [Hn Hnc]. rewrite Forall_singleton in Hnc.
    eapply wp_cons_lift; [apply rd_lookup; exact Hc|]. cbv beta. rewrite decide_False by exact Hnc. unfold upd. lk_steps.
    apply wp_consputc; [apply (k_run _ _ _ H')|apply (k_screen _ _ _ H')|]. intros d' Hd'.
    apply (IH d' l); [|rewrite length_app in Hf; cbn in Hf; lia|done].
    split_and!; [by eapply cons_ring_echoed|done|]. destruct Hd' as [(? & ? & ? & ->) _]. exact Hs.
Qed.

Lemma wp_type_char c q l b d (Q : unit -> guarded cons -> Prop) :
  0 <= c < 256 -> c <> Ctl 80 -> c <> Ctl 85 -> ~ (c = Ctl 72 \/ c = 127) -> cons_ok d q l ->
  (forall d', cons_ok d' (edit (q, l) c).1 (edit (q, l) c).2 -> Q tt (held me b d')) -> wp (type_char c) Q (held me b d).
Proof.
  intros Hc H1 H2 H3 (H & Hn & Hs) HQ. unfold edit in HQ.
  rewrite (decide_False (P := c = Ctl 80)), (decide_False (P := c = Ctl 85)), (decide_False (P := c = Ctl 72 \/ c = 127)) in HQ by done.
  unfold type_char. lk_steps. rewrite (cons_ring_used _ _ _ H). unfold INPUT_BUF. pose proof (k_cap _ _ _ H) as Hcap.
  destruct (decide (c = 0 \/ (length q + length l = 128)%nat)) as [Hno|Hyes].
  { rewrite decide_False by lia. lk_step. by apply HQ. }
  rewrite decide_True by lia. cbv zeta in HQ |- *. set (c' := if decide (c = 13) then 10 else c) in *.
  assert (Hc' : 0 <= c' < 256) by (subst c'; clear - Hc; destruct (decide (c = 13)); lia). lk_step. rewrite (Z.mod_small c') by done.
  eapply wp_cons_lift; [apply wr_lt; rewrite (k_len _ _ _ H); apply slot_lt|]. unfold upd. lk_steps.
  pose proof (cons_ring_store d q l c' H ltac:(lia)) as H'.
  apply wp_consputc; [apply (k_run _ _ _ H')|apply (k_screen _ _ _ H')|]. intros d1 Hd1.
  pose proof (cons_ring_echoed _ _ _ _ H' Hd1) as Hd1'.
  assert (Hfull : uint32 (c_e d + 1) = uint32 (c_r d + INPUT_BUF) <-> (length q + length (l ++ [c']) = 128)%nat).
  { rewrite (cons_ring_e _ _ _ H), uint32_add, <- Z.add_assoc, uint32_inj by (unfold INPUT_BUF; lia). rewrite length_app. cbn. unfold INPUT_BUF. lia. }
  change (c_r d + 128) with (c_r d + INPUT_BUF).
  destruct (decide (c' = 10 \/ c' = Ctl 68 \/ (length q + length (l ++ [c']) = 128)%nat)) as [Hcm|Hcm].
  - rewrite decide_True by (rewrite Hfull; exact Hcm). unfold wakeup_input, upd. lk_steps. apply HQ.
    split_and!; [by apply cons_ring_commit|done|done].
  - rewrite decide_False by (rewrite Hfull; exact Hcm). lk_step. apply HQ. cbn [fst snd]. split_and!; [done| |].
    + apply Forall_app. split; [done|]. apply Forall_singleton. tauto.
    + destruct Hd1 as [(? & ? & ? & ->) _]. exact Hs.
Qed.

Lemma wp_handle_char c q l b d (Q : unit -> guarded cons -> Prop) :
  0 <= c < 256 -> c <> Ctl 80 -> cons_ok d q l ->
  (forall d', cons_ok d' (edit (q, l) c).1 (edit (q, l) c).2 -> Q tt (held me b d')) -> wp (handle_char c) Q (held me b d).
Proof.
  intros Hc Hp Hok HQ. pose proof Hok as (H & Hn & Hs). unfold handle_char. lk_steps. rewrite (cons_ring_line _ _ _ H), Nat2Z.id.
  destruct (decide (c = Ctl 85)) as [->|Hu]; [|destruct (decide (c = Ctl 72 \/ c = 127)) as [Hb|Hb]].
  - eapply wp_kill_line; [exact Hok|lia|]. intros d' Hd'. by apply HQ.
  - unfold edit in HQ. rewrite decide_False, decide_False, decide_True in HQ by done. cbn [fst snd] in HQ.
    pose proof (cons_ring_e_w _ _ _ H) as Hew. destruct l as [|x l _] using rev_ind.
    + rewrite decide_False by (rewrite Hew; naive_solver). lk_step. by apply HQ.
    + rewrite decide_True by (rewrite Hew; by destruct l). destruct (cons_ring_back _ _ _ _ H) as [H' _]. apply Forall_app in Hn as [Hn _].
      unfold upd. lk_steps. apply wp_consputc; [apply (k_run _ _ _ H')|apply (k_screen _ _ _ H')|]. intros d1 Hd1.
      apply HQ. rewrite removelast_last. split_and!; [by eapply cons_ring_echoed|done|]. destruct Hd1 as [(? & ? & ? & ->) _]. exact Hs.
  - by eapply wp_type_char.
Qed.

Lemma wp_intr_loop cs q l dump b d (Q : bool -> guarded cons -> Prop) :
  Forall (fun c => 0 <= c < 256) cs -> cons_ok d q l ->
  (forall d', cons_ok d' (foldl edit (q, l) cs).1 (foldl edit (q, l) cs).2 ->
     Q (dump || bool_decide (Ctl 80 ∈ cs))%bool (held me b d')) ->
  wp (intr_loop cs dump) Q (held me b d).
Proof.
  revert q l dump d. induction cs as [|c cs IH]; intros q l dump d Hcs Hok HQ; cbn [intr_loop].
  - lk_step. rewrite bool_decide_false, orb_false_r in HQ by apply not_elem_of_nil. by apply HQ.
  - apply Forall_cons in Hcs as [Hc Hcs]. cbn [foldl] in HQ. destruct (decide (c = Ctl 80)) as [->|Hp].
    + apply (IH q l); [done..|]. intros d' Hd'. rewrite orb_true_l. rewrite bool_decide_true, orb_true_r in HQ by by left. by apply HQ.
    + lk_step. apply (wp_handle_char c q l); [done..|]. intros d1 Hd1. destruct (edit (q, l) c) as [q1 l1]. cbn [fst snd] in Hd1.
      apply (IH q1 l1); [done..|]. intros d' Hd'. specialize (HQ d' Hd').
      erewrite bool_decide_ext; [exact HQ|]. rewrite elem_of_cons. naive_solver.
Qed.

(** *** Reading *)

(** What a pass of [consoleread] that asks for [n] bytes and already has [got]
    takes from the readable bytes [q], leaving [q']: at most a line, up to an
    end-of-file character.  The character itself is consumed only when it is the
    first thing the call sees, so that the caller gets zero bytes. *)
Definition read_post (killed : bool) (n : nat) (got q q' : list Z) (r : cres) : Prop :=
  exists bytes rest, q = bytes ++ rest /\ (length bytes <= n)%nat /\
    Forall (fun c => c <> Ctl 68) bytes /\ Forall (fun c => c <> 10) (removelast bytes) /\
    match r with
    | CDone out =>
        out = got ++ bytes /\
        if decide (n = length bytes \/ list.last bytes = Some 10) then q' = rest
        else exists q'', rest = Ctl 68 :: q'' /\ q' = if decide (out = []) then q'' else rest
    | CSleep k out => killed = false /\ rest = [] /\ q' = [] /\ out = got ++ bytes /\ (k + length bytes = n)%nat /\ (0 < k)%nat /\
        list.last bytes <> Some 10
    | CFail => killed = true /\ rest = [] /\ q' = [] /\ (length bytes < n)%nat /\ list.last bytes <> Some 10
    end.

Lemma read_post_cons killed n c got q q' r :
  c <> Ctl 68 -> c <> 10 -> read_post killed n (got ++ [c]) q q' r -> read_post killed (S n) got (c :: q) q' r.
Proof.
  intros Hc Hc' (bytes & rest & -> & Hlen & H4 & H10 & Hr). exists (c :: bytes), rest.
  assert (Hlast : list.last (c :: bytes) = Some 10 <-> list.last bytes = Some 10).
  { destruct bytes; [cbn; naive_solver|done]. }
  split_and!; [done|cbn; lia|by constructor|destruct bytes; [by constructor|by constructor]|].
  destruct r; cbn [length].
  - destruct Hr as [-> Hr]. rewrite <- !app_assoc in *. cbn [app] in *. split; [done|].
    destruct (decide (n = length bytes \/ list.last bytes = Some 10)) as [Hd|Hd].
    + rewrite decide_True by (rewrite Hlast; lia || naive_solver lia). done.
    + rewrite decide_False by (rewrite Hlast; naive_solver lia). destruct Hr as (q'' & -> & ->). exists q''. split; [done|].
      by rewrite decide_False by by destruct got.
  - rewrite Hlast. naive_solver lia.
  - rewrite Hlast. destruct Hr as (? & ? & ? & -> & ? & ? & ?). rewrite <- app_assoc. split_and!; try done; lia.
Qed.

Lemma set_r_back d : 0 <= c_r d < 4294967296 ->
  set_r (uint32 (uint32 (c_r d + 1) - 1)) (set_r (uint32 (c_r d + 1)) d) = d.
Proof.
  intros Hr. unfold uint32. rewrite Zminus_mod_idemp_l. replace (c_r d + 1 - 1) with (c_r d) by lia. rewrite Z.mod_small by lia. by destruct d.
Qed.

Lemma wp_read_loop pid killed target n got q l b d (Q : cres -> guarded cons -> Prop) :
  cons_ok d q l -> (length got + n = target)%nat ->
  (forall r q' d', cons_ok d' q' l -> read_post killed n got q q' r -> Q r (free b d')) ->
  wp (read_loop pid killed target n got) Q (held me b d).
Proof.
  revert got q d. induction n as [|n IH]; intros got q d (H & Hn & Hs) Ht HQ; cbn [read_loop].
  - lk_steps. apply (HQ _ q); [done|]. exists [], q. rewrite app_nil_r. rewrite decide_True by by left.
    split_and!; [done|done|constructor|constructor|done|done].
  - lk_steps. pose proof (cons_ring_r_w _ _ _ H) as Hrw. destruct q as [|c q].
    + rewrite decide_True by by apply Hrw. destruct killed; unfold sleep_input, upd; lk_steps; apply (HQ _ []).
      * done.
      * exists [], []. split_and!; [done|cbn; lia|constructor|constructor|done|done|done|cbn; lia|done].
      * split_and!; [by destruct H|done|done].
      * exists [], []. split_and!; [done|cbn; lia|constructor|constructor|done|done|done|by rewrite app_nil_r|cbn; lia|lia|done].
    + rewrite decide_False by (rewrite Hrw; done). lk_step. destruct (cons_ring_read _ _ _ _ H) as [Hc H'].
      assert (Hs' : c_sleep d <> ∅ -> q = []) by (intros Hx; by specialize (Hs Hx)).
      eapply wp_cons_lift; [apply rd_lookup; exact Hc|]. unfold upd. lk_steps. destruct (decide (c = Ctl 68)) as [->|H4]; [|destruct (decide (c = 10)) as [->|H10]].
      * lk_step. assert (Hgot : (S n < target)%nat <-> got <> []) by (rewrite <- length_zero_iff_nil; lia).
        assert (Hpost : forall q', q' = (if decide (got = []) then q else Ctl 68 :: q) -> read_post killed (S n) got (Ctl 68 :: q) q' (CDone got)).
        { intros q' ->. exists [], (Ctl 68 :: q). rewrite app_nil_r, (decide_False (P := S n = length [] \/ _)) by (cbn; naive_solver).
          split_and!; [done|cbn; lia|constructor|constructor|done|eauto]. }
        destruct (decide (S n < target)%nat) as [Hlt|Hge]; lk_steps.
        -- cbn [c_r set_r set_input]. change (set_input (c_buf d) (uint32 (c_r d + 1)) (c_w d) (c_e d) d) with (set_r (uint32 (c_r d + 1)) d).
           rewrite set_r_back by apply (k_r _ _ _ H). apply (HQ _ (Ctl 68 :: q)); [done|]. apply Hpost. by rewrite decide_False by tauto.
        -- apply (HQ _ q); [done|]. apply Hpost. rewrite decide_True; [done|]. destruct got; [done|]. exfalso. apply Hge. by apply Hgot.
      * lk_steps. apply (HQ _ q); [done|]. exists [10], q. rewrite decide_True by by right.
        split_and!; [done|cbn; lia|by constructor|constructor|done|done].
      * apply (IH _ q); [done|rewrite length_app; cbn; lia|]. intros r q' d' Hd' Hp. apply (HQ _ q'); [done|]. by apply read_post_cons.
Qed.

(** *** Writing *)

Lemma wp_putchars cs b q l d (Q : unit -> guarded cons -> Prop) :
  cons_ok d q l -> (forall d', cons_ok d' q l -> Q tt (held me b d')) -> wp (putchars cs) Q (held me b d).
Proof.
  revert d. induction cs as [|c cs IH]; intros d (H & Hn & Hs) HQ; cbn [putchars]; [lk_step; by apply HQ|].
  lk_step. apply wp_consputc; [apply (k_run _ _ _ H)|apply (k_screen _ _ _ H)|]. intros d' Hd'. apply IH; [|done].
  split_and!; [by eapply cons_ring_echoed|done|]. destruct Hd' as [(? & ? & ? & ->) _]. exact Hs.
Qed.

End Console.

Lemma consoleintr_edits me cs b d q l : Forall (fun c => 0 <= c < 256) cs -> cons_ok d q l ->
  exists d', consoleintr me cs (free b d) = Ret (bool_decide (Ctl 80 ∈ cs), free b d') /\ cons_ok d' (foldl edit (q, l) cs).1 (foldl edit (q, l) cs).2.
Proof.
  intros Hcs Hok. destruct (foldl edit (q, l) cs) as [q' l'] eqn:E.
  destruct (proj1 (wp_Ret (consoleintr me cs) (fun r s => r = bool_decide (Ctl 80 ∈ cs) /\ exists d', s = free b d' /\ cons_ok d' q' l') (free b d)))
    as (dump & s & Hi & -> & d' & -> & Hd').
  { unfold consoleintr. lk_steps. apply (wp_intr_loop me cs q l); [done..|]. intros d' Hd'. rewrite E in Hd'. lk_steps. eauto. }
  by exists d'.
Qed.

(** C23. The console implements a line editor.  Whatever characters arrive at
    the interrupt handler, the ring buffer with its wrapping 32-bit indices holds
    exactly the bytes that can be read and the line being edited that the
    abstract editor computes, the output stays on the screen, and no process
    sleeps while there is something to read.  A reader then gets at most one
    line of those bytes, stopped by an end-of-file character, or sleeps after
    taking all of them. *)
Theorem console_line_discipline me cs b d q l :
  Forall (fun c => 0 <= c < 256) cs -> cons_ok d q l ->
  let '(q', l') := foldl edit (q, l) cs in
  exists d', consoleintr me cs (free b d) = Ret (bool_decide (Ctl 80 ∈ cs), free b d') /\ cons_ok d' q' l' /\
    forall pid killed n, exists r q'' d'',
      read_pass me pid killed n n [] (free b d') = Ret (r, free b d'') /\ cons_ok d'' q'' l' /\
      read_post killed n [] q' q'' r.
Proof.
  intros Hcs Hok. destruct (consoleintr_edits me cs b d q l Hcs Hok) as (d' & Hi & Hd'). destruct (foldl edit (q, l) cs) as [q' l']. cbn in Hd'.
  exists d'. split_and!; [done..|]. intros pid killed n.
  destruct (proj1 (wp_Ret (read_pass me pid killed n n []) (fun r s => exists q'' d'', s = free b d'' /\ cons_ok d'' q'' l' /\
    read_post killed n [] q' q'' r) (free b d'))) as (r & s & Hr & q'' & d'' & -> & Hd'' & Hp).
  { unfold read_pass. lk_steps. eapply wp_read_loop; [exact Hd'|done|]. intros r q'' d'' Hd'' Hp. eauto. }
  eauto 10.
Qed.

(** An idle console, with its indices about to wrap around. *)
Definition demo : cons :=
  mkCons true false (replicate 128 0) 4294967295 4294967295 4294967295 (replicate 2000 0) 0 true [] ∅.

Lemma idle_ok : cons_ok demo [] [].
Proof.
  split_and!; [|constructor|done]. constructor; [vm_compute; done|cbn; lia|vm_compute; done|vm_compute; done|cbn; lia|done|done|done|].
  split; [vm_compute; done|cbn; lia].
Qed.

(** Typing "x", backspace, "hi", return leaves the line "hi". *)
Lemma console_line_discipline_witness :
  exists d', consoleintr 0 [120; 8; 104; 105; 13] (free true demo) = Ret (bool_decide (Ctl 80 ∈ [120; 8; 104; 105; 13]), free true d') /\
    cons_ok d' [104; 105; 10] [] /\
    forall pid killed n, exists r q'' d'',
      read_pass 0 pid killed n n [] (free true d') = Ret (r, free true d'') /\ cons_ok d'' q'' [] /\
      read_post killed n [] [104; 105; 10] q'' r.
Proof.
  apply (console_line_discipline 0 [120; 8; 104; 105; 13] true demo [] []); [repeat constructor; lia|exact idle_ok].
Defined.

(** Both ends of the device functions return when the inode can be locked; the
    bytes written are all accepted. *)
Lemma consolewrite_returns {I} (iunlock ilock : stm I unit) i1 i2 i3 me buf b d q l :
  iunlock i1 = Ret (tt, i2) -> ilock i2 = Ret (tt, i3) -> cons_ok d q l ->
  exists d', consolewrite me iunlock ilock buf (i1, free b d) = Ret (Z.of_nat (length buf), (i3, free b d')) /\ cons_ok d' q l.
Proof.
  intros Hu Hl Hok. destruct (proj1 (wp_Ret (write_pass me buf) (fun _ s => exists d', s = free b d' /\ cons_ok d' q l) (free b d)))
    as ([] & s & Hw & d' & -> & Hd').
  { unfold write_pass. lk_steps. eapply wp_putchars; [exact Hok|]. intros d' Hd'. lk_steps. eauto. }
  exists d'. split; [|done]. unfold consolewrite.
  etransitivity; [apply stm_bind_Ret; unfold in_inode; cbn [fst snd]; rewrite Hu; reflexivity|].
  etransitivity; [apply stm_bind_Ret; unfold in_cons; cbn [fst snd]; rewrite Hw; reflexivity|].
  etransitivity; [apply stm_bind_Ret; unfold in_inode; cbn [fst snd]; rewrite Hl; reflexivity|]. done.
Qed.

End Console.
