(* ===== verification/Devices.v ===== *)
(** * Devices: interrupt controllers, serial port, disk controller

    Models [ioapic.c], [picirq.c], [lapic.c] (but the clock, which is in
    [Machine]), [uart.c] on its ports, [idewait] and [ideinit] of [ide.c] and
    [consoleinit] of [console.c], all of [src/xv6-public].  The devices are
    parameters: a [bus] says what a read or write of a port or of a memory-mapped
    register does to the world [W].  What the data sheets say about a device is a
    record of hypotheses on its registers. *)
From S2P Require Export Console Trap.

Module Devices.
Local Open Scope Z_scope.

Record bus (W : Type) := mkBus {
  b_in : Z -> W -> Z * W;              (** [inb(port)] *)
  b_out : Z -> Z -> W -> W;            (** [outb(port, data)] *)
  b_load : Z -> W -> Z * W;            (** a load from a device register *)
  b_store : Z -> Z -> W -> W           (** a store to a device register *)
}.
Arguments b_in {W}. Arguments b_out {W}. Arguments b_load {W}. Arguments b_store {W}.

Section Devices.
Context {W : Type} (io : bus W).

Definition inb (port : Z) : stm W Z := fun w => Ret (b_in io port w).
Definition outb (port data : Z) : stm W unit := fun w => Ret (tt, b_out io port (data mod 256) w).
Definition mload (a : Z) : stm W Z := fun w => Ret (b_load io a w).
Definition mstore (a v : Z) : stm W unit := fun w => Ret (tt, b_store io a (uint32 v) w).

(** ** [ioapic.c] *)

Definition IOAPIC : Z := 4273995776.      (* 0xFEC00000 *)
Definition REG_ID : Z := 0.
Definition REG_VER : Z := 1.
Definition REG_TABLE : Z := 16.
Definition INT_DISABLED : Z := 65536.

(** [struct ioapic]: [reg] is at offset 0, [data] at 16. *)
Definition ioapicread (reg : Z) : stm W Z := mstore IOAPIC reg ;; mload (IOAPIC + 16).
Definition ioapicwrite (reg data : Z) : stm W unit := mstore IOAPIC reg ;; mstore (IOAPIC + 16) data.

Fixpoint ioapic_loop (n : nat) (i : Z) : stm W unit :=
  match n with
  | O => mret tt
  | S n =>
      ioapicwrite (REG_TABLE + 2 * i) (Z.lor INT_DISABLED (Trap.T_IRQ0 + i)) ;;
      ioapicwrite (REG_TABLE + 2 * i + 1) 0 ;;
      ioapic_loop n (i + 1)
  end.
(** The result says whether the message is printed. *)
Definition ioapicinit (ioapicid : Z) : stm W bool :=
  ver ← ioapicread REG_VER;
  let maxintr := Z.land (Z.shiftr ver 16) 255 in
  id ← ioapicread REG_ID;
  ioapic_loop (Z.to_nat (maxintr + 1)) 0 ;;
  mret (bool_decide (Z.shiftr id 24 <> ioapicid)).

Definition ioapicenable (irq cpunum : Z) : stm W unit :=
  ioapicwrite (REG_TABLE + 2 * irq) (Trap.T_IRQ0 + irq) ;;
  ioapicwrite (REG_TABLE + 2 * irq + 1) (Z.shiftl cpunum 24).

(** ** [picirq.c] *)

Definition IO_PIC1 : Z := 32.
Definition IO_PIC2 : Z := 160.
Definition picinit : stm W unit := outb (IO_PIC1 + 1) 255 ;; outb (IO_PIC2 + 1) 255.

(** ** [lapic.c] *)

Definition ID : Z := 32 / 4.
Definition VER : Z := 48 / 4.
Definition TPR : Z := 128 / 4.
Definition EOI : Z := 176 / 4.
Definition SVR : Z := 240 / 4.
Definition ENABLE : Z := 256.
Definition ESR : Z := 640 / 4.
Definition ICRLO : Z := 768 / 4.
Definition INIT : Z := 1280.              (* 0x500 *)
Definition STARTUP : Z := 1536.           (* 0x600 *)
Definition DELIVS : Z := 4096.
Definition ASSERT : Z := 16384.
Definition LEVEL : Z := 32768.
Definition BCAST : Z := 524288.
Definition ICRHI : Z := 784 / 4.
Definition TIMER : Z := 800 / 4.
Definition X1 : Z := 11.
Definition PERIODIC : Z := 131072.
Definition PCINT : Z := 832 / 4.
Definition LINT0 : Z := 848 / 4.
Definition LINT1 : Z := 864 / 4.
Definition ERROR : Z := 880 / 4.
Definition MASKED : Z := 65536.
Definition TICR : Z := 896 / 4.
Definition TDCR : Z := 992 / 4.
Definition IRQ_ERROR : Z := 19.

(** [lapic] is 0 when there is none. *)
Context (lapic : Z).

Definition lapicr (index : Z) : stm W Z := mload (lapic + 4 * index).
Definition lapicw (index value : Z) : stm W unit :=
  mstore (lapic + 4 * index) value ;; lapicr ID ;; mret tt.

(** [while(lapic[ICRLO] & DELIVS)]. *)
Fixpoint wait_delivered (fuel : nat) : stm W unit :=
  match fuel with
  | O => hang "lapicinit"
  | S fuel => r ← lapicr ICRLO; if decide (Z.land r DELIVS = 0) then mret tt else wait_delivered fuel
  end.

Definition lapicinit (fuel : nat) : stm W unit :=
  if decide (lapic = 0) then mret tt
  else
    lapicw SVR (Z.lor ENABLE (Trap.T_IRQ0 + Trap.IRQ_SPURIOUS)) ;;
    lapicw TDCR X1 ;;
    lapicw TIMER (Z.lor PERIODIC (Trap.T_IRQ0 + Trap.IRQ_TIMER)) ;;
    lapicw TICR 10000000 ;;
    lapicw LINT0 MASKED ;;
    lapicw LINT1 MASKED ;;
    v ← lapicr VER;
    (if decide (4 <= Z.land (Z.shiftr v 16) 255) then lapicw PCINT MASKED else mret tt) ;;
    lapicw ERROR (Trap.T_IRQ0 + IRQ_ERROR) ;;
    lapicw ESR 0 ;;
    lapicw ESR 0 ;;
    lapicw EOI 0 ;;
    lapicw ICRHI 0 ;;
    lapicw ICRLO (Z.lor (Z.lor BCAST INIT) LEVEL) ;;
    wait_delivered fuel ;;
    lapicw TPR 0.

Definition lapicid : stm W Z := if decide (lapic = 0) then mret 0 else v ← lapicr ID; mret (Z.shiftr v 24).
Definition lapiceoi : stm W unit := if decide (lapic = 0) then mret tt else lapicw EOI 0.
Definition microdelay (us : Z) : stm W unit := mret tt.

Definition CMOS_PORT : Z := 112.
(** The warm reset vector, two 16-bit words at 40:67. *)
Context (store16 : Z -> Z -> W -> W).
Definition wrv : Z := 2147483648 + Z.lor (Z.shiftl 64 4) 103.

Fixpoint startup_loop (n : nat) (apicid addr : Z) : stm W unit :=
  match n with
  | O => mret tt
  | S n =>
      lapicw ICRHI (Z.shiftl apicid 24) ;;
      lapicw ICRLO (Z.lor STARTUP (Z.shiftr addr 12)) ;;
      microdelay 200 ;;
      startup_loop n apicid addr
  end.
Definition lapicstartap (apicid addr : Z) : stm W unit :=
  outb CMOS_PORT 15 ;;
  outb (CMOS_PORT + 1) 10 ;;
  modify (store16 wrv 0) ;;
  modify (store16 (wrv + 2) (Z.shiftr addr 4 mod 65536)) ;;
  lapicw ICRHI (Z.shiftl apicid 24) ;;
  lapicw ICRLO (Z.lor (Z.lor INIT LEVEL) ASSERT) ;;
  microdelay 200 ;;
  lapicw ICRLO (Z.lor INIT LEVEL) ;;
  microdelay 100 ;;
  startup_loop 2 apicid addr.

(** ** [uart.c] *)

Definition COM1 : Z := 1016.              (* 0x3f8 *)

(** [uart] is the static variable. *)
Fixpoint poll_thr (n : nat) : stm W unit :=
  match n with
  | O => mret tt
  | S n => r ← inb (COM1 + 5); if decide (Z.land r 32 = 0) then microdelay 10 ;; poll_thr n else mret tt
  end.
Definition uartputc (uart : bool) (c : Z) : stm W unit :=
  if uart then poll_thr 128 ;; outb COM1 c else mret tt.
Fixpoint uartputs (uart : bool) (l : list Z) : stm W unit :=
  match l with [] => mret tt | c :: l => uartputc uart c ;; uartputs uart l end.

(** The result is the new value of [uart]. *)
Definition uartinit : stm W bool :=
  outb (COM1 + 2) 0 ;;
  outb (COM1 + 3) 128 ;;
  outb (COM1 + 0) (115200 / 9600) ;;
  outb (COM1 + 1) 0 ;;
  outb (COM1 + 3) 3 ;;
  outb (COM1 + 4) 0 ;;
  outb (COM1 + 1) 1 ;;
  st ← inb (COM1 + 5);
  if decide (st = 255) then mret false
  else
    inb (COM1 + 2) ;;
    inb (COM1 + 0) ;;
    ioapicenable Trap.IRQ_COM1 0 ;;
    uartputs true [120; 118; 54; 46; 46; 46; 10] ;;
    mret true.

Definition uartgetc (uart : bool) : stm W Z :=
  if uart then
    r ← inb (COM1 + 5);
    if decide (Z.land r 1 = 0) then mret (-1) else inb (COM1 + 0)
  else mret (-1).

(** The calls [consoleintr] makes of its argument: until it gives -1. *)
Fixpoint drain (fuel : nat) (uart : bool) : stm W (list Z) :=
  match fuel with
  | O => hang "consoleintr"
  | S fuel =>
      c ← uartgetc uart;
      if decide (0 <= c) then l ← drain fuel uart; mret (c :: l) else mret []
  end.
(** [uartintr]: the characters go to the console. *)
Definition uartintr (fuel : nat) (uart : bool) (me : nat) (w : W) (d : Locked.guarded Console.cons) : outcome (bool * W * Locked.guarded Console.cons) :=
  '(l, w) ← drain fuel uart w;
  '(dump, d) ← Console.consoleintr me l d;
  Ret (dump, w, d).

(** ** [ide.c] *)

Definition IDE_BSY : Z := 128.
Definition IDE_DRDY : Z := 64.
Definition IDE_DF : Z := 32.
Definition IDE_ERR : Z := 1.

Fixpoint idewait (fuel : nat) (checkerr : bool) : stm W Z :=
  match fuel with
  | O => hang "idewait"
  | S fuel =>
      r ← inb 503;
      if decide (Z.land r (Z.lor IDE_BSY IDE_DRDY) = IDE_DRDY) then
        if checkerr && bool_decide (Z.land r (Z.lor IDE_DF IDE_ERR) <> 0) then mret (-1) else mret 0
      else idewait fuel checkerr
  end.

Fixpoint probe (n : nat) : stm W bool :=
  match n with
  | O => mret false
  | S n => r ← inb 503; if decide (r <> 0) then mret true else probe n
  end.
(** The result is [havedisk1]. *)
Definition ideinit (fuel : nat) (ncpu : Z) : stm W bool :=
  ioapicenable Trap.IRQ_IDE (ncpu - 1) ;;
  idewait fuel false ;;
  outb 502 (Z.lor 224 (Z.shiftl 1 4)) ;;
  havedisk1 ← probe 1000;
  outb 502 (Z.lor 224 (Z.shiftl 0 4)) ;;
  mret havedisk1.

(** ** [consoleinit] of [console.c] *)

(** The lock and the flag, and the keyboard's interrupt.  The entries of [devsw] it
    sets are arguments of the file system's model. *)
Definition consoleinit (d : Locked.guarded Console.cons) : stm W (Locked.guarded Console.cons) :=
  d ← (fun w => '(_, d) ← Console.consoleinit d; Ret (d, w));
  ioapicenable Trap.IRQ_KBD 0 ;;
  mret d.

(** The calls of [main] that set up the devices which interrupt, in their order. *)
Definition start_devices (ioapicid : Z) (fuel : nat) (ncpu : Z) (d : Locked.guarded Console.cons) : stm W (Locked.guarded Console.cons * bool * bool) :=
  ioapicinit ioapicid ;;
  d ← consoleinit d;
  uart ← uartinit;
  havedisk1 ← ideinit fuel ncpu;
  mret (d, uart, havedisk1).
End Devices.

Lemma wp_mstore {W} (io : bus W) a v w (Q : unit -> W -> Prop) : Q tt (b_store io a (uint32 v) w) -> wp (mstore io a v) Q w.
Proof. exact id. Qed.

(** ** The I/O APIC: which interrupts are delivered *)

Section IoApic.
Context {W : Type} (io : bus W) (regs : W -> Z -> Z).

(** The data sheet: the select register chooses the register the data register
    stands for; the redirection table can be written.  [maxintr] is the last
    entry, which the 8 bits of the select register can name. *)
Record ioapic_dev (maxintr : Z) : Prop := {
  io_read : forall r w, 0 <= r < 256 -> let w' := b_store io IOAPIC r w in
    fst (b_load io (IOAPIC + 16) w') = regs w r /\ forall x, regs (snd (b_load io (IOAPIC + 16) w')) x = regs w x;
  io_write : forall r v w, 16 <= r < 256 -> 0 <= v < 2 ^ 32 -> forall x, regs (b_store io (IOAPIC + 16) v (b_store io IOAPIC r w)) x = if decide (x = r) then v else regs w x;
  io_version : forall w, Z.land (Z.shiftr (regs w REG_VER) 16) 255 = maxintr;
  io_max : 0 <= maxintr < 120
}.

Context (maxintr : Z) (dev : ioapic_dev maxintr).

Lemma wp_ioapicread r w (Q : Z -> W -> Prop) :
  0 <= r < 256 -> (forall w', (forall x, regs w' x = regs w x) -> Q (regs w r) w') -> wp (ioapicread io r) Q w.
Proof using dev.
  intros Hr HQ. unfold ioapicread, mstore, mload, wp, mbind, stm_bind. cbn. rewrite uint32_id by lia.
  destruct (io_read _ dev r w Hr) as [Hv Hx]. destruct (b_load io (IOAPIC + 16) (b_store io IOAPIC r w)) as [v w']. cbn in *. subst v. by apply HQ.
Qed.
Lemma wp_ioapicwrite r v w (Q : unit -> W -> Prop) :
  16 <= r < 256 -> 0 <= v < 2 ^ 32 -> (forall w', (forall x, regs w' x = if decide (x = r) then v else regs w x) -> Q tt w') -> wp (ioapicwrite io r v) Q w.
Proof using dev.
  intros Hr Hv HQ. unfold ioapicwrite, mstore, wp, mbind, stm_bind. cbn. rewrite !uint32_id by lia. apply HQ. by apply (io_write _ dev).
Qed.

(** The redirection table maps the interrupts up to [k] by [f]: [None] is a
    disabled one, [Some cpu] one that goes to the CPU with vector
    [T_IRQ0 + irq]. *)
Definition entry_ok (w : W) (i : Z) (r : option Z) : Prop :=
  match r with
  | None => regs w (REG_TABLE + 2 * i) = INT_DISABLED + (Trap.T_IRQ0 + i) /\ regs w (REG_TABLE + 2 * i + 1) = 0
  | Some cpu => regs w (REG_TABLE + 2 * i) = Trap.T_IRQ0 + i /\ regs w (REG_TABLE + 2 * i + 1) = Z.shiftl cpu 24
  end.
Definition routes (w : W) (f : Z -> option Z) : Prop := forall i, 0 <= i <= maxintr -> entry_ok w i (f i).

Lemma disabled_value i : 0 <= i < 120 -> Z.lor INT_DISABLED (Trap.T_IRQ0 + i) = INT_DISABLED + (Trap.T_IRQ0 + i).
Proof.
  intros Hi. unfold INT_DISABLED, Trap.T_IRQ0. change 65536 with (Z.shiftl 1 16). set (x := 32 + i).
  assert (Z.land (Z.shiftl 1 16) x = 0) as H0.
  { apply Z.bits_inj'. intros n Hn. rewrite Z.land_spec, Z.bits_0, Z.shiftl_spec by done. destruct (decide (n = 16)) as [->|Hne].
    - rewrite (Z.bits_above_log2 x 16); [apply andb_false_r|lia|]. apply Z.log2_lt_pow2; lia.
    - replace (Z.testbit 1 (n - 16)) with false; [done|]. symmetry. destruct (decide (n < 16)); [apply Z.testbit_neg_r; lia|].
      apply Z.bits_above_log2; cbn; lia. }
  pose proof (Z.add_lor_land (Z.shiftl 1 16) x). lia.
Qed.

Lemma ioapic_loop_ok n i w (Q : unit -> W -> Prop) : 0 <= i -> i + Z.of_nat n = maxintr + 1 -> (forall j, 0 <= j < i -> entry_ok w j None) ->
  (forall w', routes w' (fun _ => None) -> Q tt w') -> wp (ioapic_loop io n i) Q w.
Proof using dev.
  pose proof (io_max _ dev) as Hm. revert i w. induction n as [|n IH]; intros i w Hi Hn Hdone HQ; cbn [ioapic_loop].
  - apply wp_ret, HQ. intros j Hj. apply Hdone. lia.
  - apply wp_bind, wp_ioapicwrite; [unfold REG_TABLE; lia|rewrite disabled_value by lia; unfold INT_DISABLED, Trap.T_IRQ0; lia|]. intros w1 H1.
    apply wp_bind, wp_ioapicwrite; [unfold REG_TABLE; lia|lia|]. intros w2 H2. apply IH; [lia|lia| |done].
    intros j Hj. cbn. rewrite !H2, !H1. unfold REG_TABLE. destruct (decide (j = i)) as [->|Hne].
    + rewrite decide_False, decide_True, decide_True by lia. by rewrite disabled_value by lia.
    + rewrite !decide_False by lia. apply Hdone. lia.
Qed.

Fixpoint enable_all (l : list (Z * Z)) : stm W unit :=
  match l with [] => mret tt | (irq, cpu) :: l => ioapicenable io irq cpu ;; enable_all l end.
Definition set_route (f : Z -> option Z) (e : Z * Z) : Z -> option Z := fun i => if decide (i = e.1) then Some e.2 else f i.

Lemma wp_ioapicenable irq cpu w f (Q : unit -> W -> Prop) : 0 <= irq <= maxintr -> 0 <= cpu < 256 -> routes w f ->
  (forall w', routes w' (set_route f (irq, cpu)) -> Q tt w') -> wp (ioapicenable io irq cpu) Q w.
Proof using dev.
  pose proof (io_max _ dev) as Hm. intros Hi Hc Hf HQ. unfold ioapicenable. apply wp_bind, wp_ioapicwrite; [unfold REG_TABLE; lia|unfold Trap.T_IRQ0; lia|]. intros w1 H1.
  apply wp_ioapicwrite; [unfold REG_TABLE; lia|rewrite Z.shiftl_mul_pow2 by lia; lia|]. intros w2 H2. apply HQ. intros i Hr. unfold set_route. cbn [fst snd].
  unfold REG_TABLE in *. destruct (decide (i = irq)) as [->|Hne].
  - cbn. unfold REG_TABLE. rewrite !H2, !H1. rewrite decide_False, decide_True, decide_True by lia. done.
  - specialize (Hf i Hr). unfold entry_ok, REG_TABLE in *. destruct (f i); rewrite !H2, !H1, !decide_False by lia; done.
Qed.

Lemma enable_all_ok l w f : Forall (fun e => 0 <= e.1 <= maxintr /\ 0 <= e.2 < 256) l -> routes w f ->
  wp (enable_all l) (fun _ w' => routes w' (foldl set_route f l)) w.
Proof using dev.
  intros Hl. revert w f. induction Hl as [|[irq cpu] l [Hi Hc] _ IH]; intros w f Hf; cbn [enable_all foldl]; [by apply wp_ret|].
  apply wp_bind. eapply wp_ioapicenable; [done|done|exact Hf|]. intros w1 H1. by apply IH.
Qed.

Lemma wp_ioapicinit id w (Q : bool -> W -> Prop) : (forall r w', routes w' (fun _ => None) -> Q r w') -> wp (ioapicinit io id) Q w.
Proof using dev.
  pose proof (io_max _ dev) as Hm. intros HQ. unfold ioapicinit. apply wp_bind, wp_ioapicread; [unfold REG_VER; lia|]. intros w1 H1. rewrite (io_version _ dev).
  apply wp_bind, wp_ioapicread; [unfold REG_ID; lia|]. intros w2 H2. apply wp_bind. eapply ioapic_loop_ok; [lia|lia|intros j Hj; lia|].
  intros w3 H3. by apply wp_ret, HQ.
Qed.

(** After [ioapicinit] and any calls of [ioapicenable] exactly the interrupts
    enabled are delivered, each with the vector [trap] expects and to the CPU
    named last; all others are masked. *)
Lemma ioapic_run id l w : Forall (fun e => 0 <= e.1 <= maxintr /\ 0 <= e.2 < 256) l ->
  wp (ioapicinit io id ;; enable_all l) (fun _ w' => routes w' (foldl set_route (fun _ => None) l)) w.
Proof using dev. intros Hl. apply wp_bind, wp_ioapicinit. intros r w1 H1. by apply enable_all_ok. Qed.
End IoApic.

(** Interrupt routing.  On an I/O APIC that behaves as its data sheet says,
    [ioapicinit] followed by any calls of [ioapicenable] delivers exactly the
    interrupts that were enabled, each with vector [T_IRQ0 + irq] and to the CPU
    named in its last call, and masks all others. *)
Theorem ioapic_routes {W} (io : bus W) regs maxintr id l w :
  ioapic_dev io regs maxintr -> Forall (fun e => 0 <= e.1 <= maxintr /\ 0 <= e.2 < 256) l ->
  exists w', (ioapicinit io id ;; enable_all io l) w = Ret (tt, w') /\
    forall i, 0 <= i <= maxintr -> entry_ok regs w' i (foldl set_route (fun _ => None) l i).
Proof.
  intros dev Hl. destruct (proj1 (wp_Ret _ _ _) (ioapic_run io regs maxintr dev id l w Hl)) as ([] & w' & Hr & Hq). by exists w'.
Qed.

(** An I/O APIC of 24 entries: the selected register and the registers. *)
Definition demo_regs (w : Z * (Z -> Z)) (r : Z) : Z := if decide (r = REG_VER) then 1507345 else w.2 r.
Definition demo_bus : bus (Z * (Z -> Z)) := {|
  b_in := fun p w => (0, w);
  b_out := fun p v w => w;
  b_load := fun a w => (demo_regs w w.1, w);
  b_store := fun a v w => if decide (a = IOAPIC) then (v, w.2) else (w.1, fun x => if decide (x = w.1) then v else w.2 x) |}.

Lemma demo_ioapic : ioapic_dev demo_bus demo_regs 23.
Proof.
  constructor; [| |done|lia].
  - intros r w Hr. cbn. done.
  - intros r v w Hr Hv x. cbn. unfold demo_regs, REG_VER. cbn.
    destruct (decide (x = 1)) as [->|]; [by rewrite decide_False by lia|done].
Qed.

(** Keyboard and serial port on CPU 0, the disk on CPU 1. *)
(** The same with a disk that is ready. *)
Definition quick_bus : bus (Z * (Z -> Z)) := mkBus _ (fun p w => (64, w)) (b_out demo_bus) (b_load demo_bus) (b_store demo_bus).
Lemma quick_ioapic : ioapic_dev quick_bus demo_regs 23.
Proof. destruct demo_ioapic as [H1 H2 H3 H4]. by constructor. Qed.

Lemma ioapic_routes_witness :
  exists w', (ioapicinit demo_bus 0 ;; enable_all demo_bus [(1, 0); (4, 0); (14, 1)]) (0, fun _ => 0) = Ret (tt, w') /\
    demo_regs w' 18 = 33 /\ demo_regs w' 44 = 46 /\ demo_regs w' 45 = 16777216 /\ demo_regs w' 16 = 65568.
Proof.
  destruct (ioapic_routes demo_bus demo_regs 23 0 [(1, 0); (4, 0); (14, 1)] (0, fun _ => 0) demo_ioapic) as (w' & Hr & Hi);
    [repeat constructor; cbn; lia|].
  exists w'. split; [exact Hr|]. destruct (Hi 1 ltac:(lia)) as [H1 _], (Hi 14 ltac:(lia)) as [H2 H3], (Hi 0 ltac:(lia)) as [H4 _]. done.
Defined.

(** ** The local APIC *)

Section Lapic.
Context {W : Type} (io : bus W) (lapic : Z) (log : W -> list (Z * Z)) (pending : W -> nat) (bound : nat).

(** [log] are the stores to the registers, by index; a load stores nothing; an
    interprocessor interrupt is delivered after [pending] more loads of [ICRLO],
    of which there are at most [bound]. *)
Record lapic_dev : Prop := {
  la_load : forall i w, log (snd (b_load io (lapic + 4 * i) w)) = log w;
  la_store : forall i v w, log (b_store io (lapic + 4 * i) v w) = log w ++ [(i, v)];
  la_delivery : forall w, Z.land (fst (b_load io (lapic + 4 * ICRLO) w)) DELIVS = 0 \/ (pending (snd (b_load io (lapic + 4 * ICRLO) w)) < pending w)%nat;
  la_bound : forall w, (pending w <= bound)%nat
}.
Context (dev : lapic_dev).

Lemma wp_lapicr i w (Q : Z -> W -> Prop) : (forall v w', log w' = log w -> Q v w') -> wp (lapicr io lapic i) Q w.
Proof using dev. intros HQ. unfold lapicr, mload, wp. pose proof (la_load dev i w) as H. destruct (b_load io (lapic + 4 * i) w) as [v w']. by apply HQ. Qed.
Lemma wp_lapicw i v w (Q : unit -> W -> Prop) : 0 <= v < 2 ^ 32 -> (forall w', log w' = log w ++ [(i, v)] -> Q tt w') -> wp (lapicw io lapic i v) Q w.
Proof using dev.
  intros Hv HQ. unfold lapicw. apply wp_bind, wp_mstore. rewrite uint32_id by lia. apply wp_bind, wp_lapicr. intros x w' Hw. apply wp_ret, HQ.
  by rewrite Hw, (la_store dev).
Qed.
Lemma wp_wait_delivered fuel w (Q : unit -> W -> Prop) : (pending w < fuel)%nat -> (forall w', log w' = log w -> Q tt w') -> wp (wait_delivered io lapic fuel) Q w.
Proof using dev.
  revert w. induction fuel as [|fuel IH]; intros w Hf HQ; [lia|]. cbn [wait_delivered]. apply wp_bind. unfold lapicr, mload, wp at 1.
  pose proof (la_load dev ICRLO w) as Hl. pose proof (la_delivery dev w) as Hd. destruct (b_load io (lapic + 4 * ICRLO) w) as [v w']. cbn in *.
  destruct (decide (Z.land v DELIVS = 0)); [apply wp_ret; by apply HQ|]. destruct Hd as [?|Hd]; [done|]. apply IH; [lia|]. intros w2 H2. apply HQ. congruence.
Qed.

(** The last value stored in a register. *)
Definition last_store (i : Z) (l : list (Z * Z)) : option Z := snd <$> list.last (filter (fun e => e.1 = i) l).

Lemma last_store_snoc i j v l : last_store i (l ++ [(j, v)]) = if decide (j = i) then Some v else last_store i l.
Proof.
  unfold last_store. rewrite filter_app, filter_cons. cbn [fst]. destruct (decide (j = i)); cbn; [by rewrite last_snoc|by rewrite app_nil_r].
Qed.

(** The registers as [lapicinit] leaves them: enabled, with a periodic timer, the
    error interrupt, and nothing masked by priority. *)
Definition programmed (l : list (Z * Z)) : Prop :=
  last_store SVR l = Some (ENABLE + (Trap.T_IRQ0 + Trap.IRQ_SPURIOUS)) /\
  last_store TIMER l = Some (PERIODIC + (Trap.T_IRQ0 + Trap.IRQ_TIMER)) /\ last_store TICR l = Some 10000000 /\ last_store TDCR l = Some X1 /\
  last_store LINT0 l = Some MASKED /\ last_store LINT1 l = Some MASKED /\
  last_store ERROR l = Some (Trap.T_IRQ0 + IRQ_ERROR) /\ last_store EOI l = Some 0 /\ last_store TPR l = Some 0.

Lemma last_store_app i l k : last_store i (l ++ k) = match last_store i k with Some v => Some v | None => last_store i l end.
Proof.
  unfold last_store. rewrite filter_app, last_app. by destruct (list.last (filter (fun e => e.1 = i) k)).
Qed.

(** The stores of [lapicinit], before and after that to [PCINT]. *)
Definition stores1 : list (Z * Z) := [(SVR, 319); (TDCR, 11); (TIMER, 131104); (TICR, 10000000); (LINT0, MASKED); (LINT1, MASKED)].
Definition stores2 : list (Z * Z) := [(ERROR, 51); (ESR, 0); (ESR, 0); (EOI, 0); (ICRHI, 0); (ICRLO, 558336); (TPR, 0)].

Ltac lapicw_step := apply wp_bind, wp_lapicw; [vm_compute; split; congruence|]; let w := fresh "w" in let H := fresh "H" in intros w H.

Lemma lapicinit_run w fuel : lapic <> 0 -> (bound < fuel)%nat ->
  wp (lapicinit io lapic fuel) (fun _ w' => log w' = log w ++ stores1 ++ stores2 \/ log w' = log w ++ stores1 ++ [(PCINT, MASKED)] ++ stores2) w.
Proof using dev.
  intros Hl Hf. unfold lapicinit. rewrite decide_False by done. do 6 lapicw_step. apply wp_bind, wp_lapicr. intros v w6 H6.
  assert (E1 : log w6 = log w ++ stores1) by (rewrite H6; repeat match goal with H : log _ = _ ++ _ |- _ => rewrite H; clear H end; by rewrite <- !app_assoc).
  clear H H0 H1 H2 H3 H4 H6. apply wp_bind.
  match goal with |- wp _ ?Q _ => assert (HQ : forall w7, (log w7 = log w6 \/ log w7 = log w6 ++ [(PCINT, MASKED)]) -> Q tt w7) end.
  2: { destruct (decide _); [apply wp_lapicw; [vm_compute; split; congruence|]; intros w7 H7; apply HQ; by right|apply wp_ret, HQ; by left]. }
  intros w7 H7. do 6 lapicw_step. apply wp_bind, wp_wait_delivered; [match goal with |- (pending ?x < _)%nat => pose proof (la_bound dev x); lia end|]. intros wd Hd. apply wp_lapicw; [lia|]. intros we He.
  assert (E2 : log we = log w7 ++ stores2) by (rewrite He, Hd; repeat match goal with H : log _ = _ ++ [(_, _)] |- _ => rewrite H; clear H end; by rewrite <- !app_assoc).
  rewrite E2. destruct H7 as [->| ->]; rewrite E1; [left|right]; by rewrite <- !app_assoc.
Qed.

(** [lapicstartap] sends INIT and twice STARTUP to the processor [apicid]. *)
Context (store16 : Z -> Z -> W -> W) (store16_log : forall a v w, log (store16 a v w) = log w) (out_log : forall p v w, log (b_out io p v w) = log w).
Definition ipis (apicid addr : Z) : list (Z * Z) :=
  [(ICRHI, Z.shiftl apicid 24); (ICRLO, INIT + LEVEL + ASSERT); (ICRLO, INIT + LEVEL)] ++
  [(ICRHI, Z.shiftl apicid 24); (ICRLO, STARTUP + addr / 4096)] ++ [(ICRHI, Z.shiftl apicid 24); (ICRLO, STARTUP + addr / 4096)].

Lemma startup_value addr : 0 <= addr < 1048576 -> Z.lor STARTUP (Z.shiftr addr 12) = STARTUP + addr / 4096.
Proof.
  intros Ha. rewrite Z.shiftr_div_pow2 by lia. change (2 ^ 12) with 4096. set (x := addr / 4096). assert (Hx : 0 <= x < 2 ^ 8) by (unfold x; Z.div_mod_to_equations; lia).
  unfold STARTUP. change 1536 with (Z.shiftl 6 8). assert (Z.land (Z.shiftl 6 8) x = 0) as H0.
  { apply Z.bits_inj'. intros n Hn. rewrite Z.land_spec, Z.bits_0, Z.shiftl_spec by done. destruct (decide (n < 8)); [by rewrite Z.testbit_neg_r by lia|].
    rewrite <- (Z.mod_small x (2 ^ 8)) by done. rewrite Z.mod_pow2_bits_high by lia. apply andb_false_r. }
  pose proof (Z.add_lor_land (Z.shiftl 6 8) x). lia.
Qed.

Ltac ipi_step := apply wp_bind, wp_lapicw; [done || (vm_compute; split; congruence)|]; intros ? ?.
Lemma lapicstartap_run apicid addr w : 0 <= apicid < 256 -> 0 <= addr < 1048576 ->
  wp (lapicstartap io lapic store16 apicid addr) (fun _ w' => log w' = log w ++ ipis apicid addr) w.
Proof using dev store16_log out_log.
  intros Hi Ha. assert (Hid : 0 <= Z.shiftl apicid 24 < 2 ^ 32) by (rewrite Z.shiftl_mul_pow2 by lia; lia).
  assert (Hst : 0 <= STARTUP + addr / 4096 < 2 ^ 32) by (unfold STARTUP; Z.div_mod_to_equations; lia).
  unfold lapicstartap. cbn [startup_loop]. rewrite startup_value by done. unfold microdelay, outb, modify.
  do 4 (apply wp_bind; unfold wp at 1). cbn [fst snd]. do 2 ipi_step. apply wp_bind, wp_ret. ipi_step. apply wp_bind, wp_ret.
  do 2 (do 2 ipi_step; apply wp_bind, wp_ret). apply wp_ret.
  repeat match goal with H : log _ = _ ++ [(_, _)] |- _ => rewrite H; clear H end. cbn [snd]. rewrite !store16_log, !out_log. by rewrite <- !app_assoc.
Qed.
End Lapic.

(** [lapicstartap(id, addr)] resets the processor [id] and starts it twice at the
    address [addr], whose page is the vector [v] of the STARTUP interrupt; the
    warm reset vector names the same address. *)
Theorem lapicstartap_starts {W} (io : bus W) lapic log pending bound store16 apicid addr w :
  lapic_dev io lapic log pending bound -> (forall a v w, log (store16 a v w) = log w) -> (forall p v w, log (b_out io p v w) = log w) ->
  0 <= apicid < 256 -> 0 <= addr < 1048576 -> addr mod 4096 = 0 ->
  exists w' v, lapicstartap io lapic store16 apicid addr w = Ret (tt, w') /\
    log w' = log w ++ [(ICRHI, Z.shiftl apicid 24); (ICRLO, INIT + LEVEL + ASSERT); (ICRLO, INIT + LEVEL);
      (ICRHI, Z.shiftl apicid 24); (ICRLO, STARTUP + v); (ICRHI, Z.shiftl apicid 24); (ICRLO, STARTUP + v)] /\
    0 <= v < 256 /\ v * 4096 = addr /\ Z.shiftr addr 4 mod 65536 * 16 = addr.
Proof.
  intros dev H1 H2 Hi Ha Hm. destruct (proj1 (wp_Ret _ _ _) (lapicstartap_run io lapic log pending bound dev store16 H1 H2 apicid addr w Hi Ha)) as ([] & w' & Hr & Hw).
  exists w', (addr / 4096). rewrite Z.shiftr_div_pow2 by lia. change (2 ^ 4) with 16. split_and!; [done|done|Z.div_mod_to_equations; lia..].
Qed.

(** [lapicinit] returns once the first interprocessor interrupt is delivered, and
    has then programmed the timer and unmasked interrupts. *)
Theorem lapicinit_programs {W} (io : bus W) lapic log pending bound fuel w :
  lapic_dev io lapic log pending bound -> lapic <> 0 -> (bound < fuel)%nat ->
  exists w', lapicinit io lapic fuel w = Ret (tt, w') /\ programmed (log w').
Proof.
  intros dev Hl Hf. destruct (proj1 (wp_Ret _ _ _) (lapicinit_run io lapic log pending bound dev w fuel Hl Hf)) as ([] & w' & Hr & Hw).
  exists w'. split; [done|]. unfold programmed. destruct Hw as [->| ->]; rewrite !last_store_app; vm_compute; by split_and!.
Qed.

(** ** Serial port and disk *)

Section Ports.
Context {W : Type} (io : bus W).

(** A serial port with the bytes [rx] received: bit 0 of the line status tells
    whether there are any, a read of the data register takes one. *)
Record uart_dev (rx : W -> list Z) : Prop := {
  ua_status : forall w, (Z.land (fst (b_in io (COM1 + 5) w)) 1 = 0 <-> rx w = []) /\ rx (snd (b_in io (COM1 + 5) w)) = rx w;
  ua_data : forall w c l, rx w = c :: l -> fst (b_in io (COM1 + 0) w) = c /\ rx (snd (b_in io (COM1 + 0) w)) = l;
  ua_bytes : forall w, Forall (fun c => 0 <= c < 256) (rx w)
}.

Lemma uartgetc_run rx w : uart_dev rx ->
  exists w', uartgetc io true w = Ret (match rx w with [] => -1 | c :: _ => c end, w') /\ rx w' = tail (rx w).
Proof.
  intros dev. unfold uartgetc. destruct (ua_status _ dev w) as [Hs Hr]. destruct (b_in io (COM1 + 5) w) as [st w1] eqn:E1. cbn [fst snd] in *.
  rewrite (stm_bind_Ret _ _ _ st w1) by (unfold inb; by rewrite E1). destruct (rx w) as [|c l] eqn:E.
  - rewrite decide_True by (by apply Hs). by exists w1.
  - rewrite decide_False by (intros H; by apply Hs in H). destruct (ua_data _ dev w1 c l Hr) as [Hc Hl]. unfold inb.
    destruct (b_in io (COM1 + 0) w1) as [c' w2]. cbn in *. subst c'. by exists w2.
Qed.

Lemma drain_all rx : uart_dev rx -> forall fuel w, (length (rx w) < fuel)%nat -> exists w', drain io fuel true w = Ret (rx w, w') /\ rx w' = [].
Proof.
  intros dev. induction fuel as [|fuel IH]; intros w Hf; [lia|]. cbn [drain]. destruct (uartgetc_run rx w dev) as (w1 & Hg & Hr).
  rewrite (stm_bind_Ret _ _ _ _ _ Hg). pose proof (ua_bytes _ dev w) as Hb. destruct (rx w) as [|c l] eqn:E.
  - rewrite decide_False by lia. by exists w1.
  - apply Forall_cons in Hb as [Hb _]. rewrite decide_True by lia. cbn in Hr, Hf. destruct (IH w1) as (w' & Hd & Hw'); [rewrite Hr; lia|].
    rewrite (stm_bind_Ret _ _ _ _ _ Hd). rewrite Hr. by exists w'.
Qed.

(** A disk that is ready after [busy] more reads of its status. *)
Record ide_dev (busy : W -> nat) : Prop := {
  id_status : forall w, let '(r, w') := b_in io 503 w in
    (Z.land r (Z.lor IDE_BSY IDE_DRDY) = IDE_DRDY /\ busy w = 0%nat) \/ (Z.land r (Z.lor IDE_BSY IDE_DRDY) <> IDE_DRDY /\ S (busy w') = busy w)
}.

(** [idewait] returns when the disk gets ready, with -1 when errors are looked for and
    the last status has one. *)
Theorem idewait_ready busy fuel checkerr w : ide_dev busy -> (busy w < fuel)%nat ->
  exists r w0 w', idewait io fuel checkerr w = Ret (r, w') /\ busy w0 = 0%nat /\ w' = snd (b_in io 503 w0) /\
    (r = -1 <-> checkerr = true /\ Z.land (fst (b_in io 503 w0)) (Z.lor IDE_DF IDE_ERR) <> 0) /\ (r = -1 \/ r = 0).
Proof.
  intros dev. revert w. induction fuel as [|fuel IH]; intros w Hf; [lia|]. cbn [idewait].
  pose proof (id_status _ dev w) as Hs. destruct (b_in io 503 w) as [r w1] eqn:E. rewrite (stm_bind_Ret _ _ _ r w1) by (unfold inb; by rewrite E). destruct Hs as [[Hr Hb]|[Hr Hb]].
  - rewrite decide_True by done. set (e := checkerr && _). exists (if e then -1 else 0), w, w1. rewrite E. cbn [fst snd].
    split; [by destruct e|]. split; [done|]. split; [done|]. split; [|destruct e; lia].
    rewrite <- (bool_decide_eq_true (Z.land r (Z.lor IDE_DF IDE_ERR) <> 0)), <- andb_true_iff. fold e. destruct e; naive_solver.
  - rewrite decide_False by done. destruct (IH w1) as (r' & w0 & w' & ? & ? & ? & ?); [lia|]. by exists r', w0, w'.
Qed.
End Ports.

(** ** All devices *)

Section StartDevices.
Context {W : Type} (io : bus W) (regs : W -> Z -> Z) (maxintr : Z) (dev : ioapic_dev io regs maxintr).
(** Ports are not registers of the I/O APIC, and the disk gets ready. *)
Context (out_other : forall p v w x, regs (b_out io p v w) x = regs w x) (in_other : forall p w x, regs (snd (b_in io p w)) x = regs w x).
Context (busy : W -> nat) (disk : ide_dev io busy) (fuel : nat) (soon : forall w, (busy w < fuel)%nat).
Local Notation routes := (routes regs maxintr).

Lemma routes_same w w' f : (forall x, regs w' x = regs w x) -> routes w f -> routes w' f.
Proof. intros Hx H i Hi. specialize (H i Hi). unfold entry_ok in *. by destruct (f i); rewrite !Hx. Qed.
Lemma wp_outb p v w f (Q : unit -> W -> Prop) : routes w f -> (forall w', routes w' f -> Q tt w') -> wp (outb io p v) Q w.
Proof using out_other. intros H HQ. apply HQ. eapply routes_same; [|exact H]. intros x. apply out_other. Qed.
Lemma wp_inb p w f (Q : Z -> W -> Prop) : routes w f -> (forall r w', routes w' f -> Q r w') -> wp (inb io p) Q w.
Proof using in_other. intros H HQ. unfold wp, inb. pose proof (in_other p w) as Hx. destruct (b_in io p w) as [r w']. apply HQ. by eapply routes_same. Qed.

(** Code that only uses ports keeps the routes. *)
Definition quiet {A} (m : stm W A) : Prop := forall w f (Q : A -> W -> Prop), routes w f -> (forall r w', routes w' f -> Q r w') -> wp m Q w.
Lemma quiet_ret {A} (a : A) : quiet (mret a).
Proof. intros w f Q H HQ. by apply wp_ret, HQ. Qed.
Lemma quiet_bind {A B} (m : stm W A) (k : A -> stm W B) : quiet m -> (forall r, quiet (k r)) -> quiet (r ← m; k r).
Proof. intros Hm Hk w f Q H HQ. apply wp_bind. eapply Hm; [exact H|]. intros r w' H'. by eapply Hk. Qed.
Lemma quiet_outb p v : quiet (outb io p v).
Proof using out_other. intros w f Q H HQ. eapply wp_outb; [exact H|]. intros w'. apply HQ. Qed.
Lemma quiet_inb p : quiet (inb io p).
Proof using in_other. intros w f Q. apply wp_inb. Qed.

Lemma quiet_poll n : quiet (poll_thr io n).
Proof using in_other.
  induction n as [|n IH]; cbn [poll_thr]; [apply quiet_ret|]. apply quiet_bind; [apply quiet_inb|]. intros r. case_decide; [|apply quiet_ret].
  apply quiet_bind; [apply quiet_ret|done].
Qed.
Lemma quiet_uartputs l : quiet (uartputs io true l).
Proof using out_other in_other.
  induction l as [|c l IH]; cbn [uartputs]; [apply quiet_ret|]. apply quiet_bind; [|done]. apply quiet_bind; [apply quiet_poll|]. intros _. apply quiet_outb.
Qed.
Lemma quiet_probe n : quiet (probe io n).
Proof using in_other. induction n as [|n IH]; cbn [probe]; [apply quiet_ret|]. apply quiet_bind; [apply quiet_inb|]. intros r. case_decide; [apply quiet_ret|done]. Qed.
Lemma quiet_idewait c : quiet (idewait io fuel c).
Proof using in_other disk soon.
  intros w f Q H HQ. specialize (soon w). revert w H soon. induction fuel as [|n IH]; intros w H Hb; [lia|]. cbn [idewait]. apply wp_bind. unfold wp at 1, inb.
  pose proof (id_status _ _ disk w) as Hs. pose proof (in_other 503 w) as Hx. destruct (b_in io 503 w) as [r w1]. cbn [snd] in Hx.
  assert (routes w1 f) as H1 by (by eapply routes_same). cbn [returns fst snd]. case_decide as Hr.
  - destruct (c && _); by apply wp_ret, HQ.
  - apply IH; [done|]. destruct Hs as [[]|[_ ?]]; [done|lia].
Qed.

Lemma wp_uartinit w f (Q : bool -> W -> Prop) : Trap.IRQ_COM1 <= maxintr -> routes w f ->
  (forall uart w', routes w' (if uart : bool then set_route f (Trap.IRQ_COM1, 0) else f) -> Q uart w') -> wp (uartinit io) Q w.
Proof using dev out_other in_other.
  intros Hi H HQ. unfold uartinit. do 7 (apply wp_bind; eapply wp_outb; [eassumption|]; intros ? ?).
  apply wp_bind. eapply wp_inb; [eassumption|]. intros st w8 Hw8. case_decide; [by apply wp_ret, (HQ false)|].
  do 2 (apply wp_bind; eapply wp_inb; [eassumption|]; intros ? ? ?). apply wp_bind.
  eapply (wp_ioapicenable io regs maxintr dev); [unfold Trap.IRQ_COM1 in *; lia|lia|eassumption|]. intros w9 Hw9.
  apply wp_bind. eapply quiet_uartputs; [exact Hw9|]. intros _ w10 Hw10. by apply wp_ret, (HQ true).
Qed.

Lemma wp_ideinit ncpu w f (Q : bool -> W -> Prop) : Trap.IRQ_IDE <= maxintr -> 0 < ncpu <= 256 -> routes w f ->
  (forall d w', routes w' (set_route f (Trap.IRQ_IDE, ncpu - 1)) -> Q d w') -> wp (ideinit io fuel ncpu) Q w.
Proof using dev out_other in_other disk soon.
  intros Hi Hn H HQ. unfold ideinit. apply wp_bind. eapply (wp_ioapicenable io regs maxintr dev); [unfold Trap.IRQ_IDE in *; lia|lia|exact H|]. intros w1 H1.
  apply wp_bind. eapply quiet_idewait; [exact H1|]. intros _ w2 H2. apply wp_bind. eapply wp_outb; [exact H2|]. intros w3 H3.
  apply wp_bind. eapply quiet_probe; [exact H3|]. intros d w4 H4. apply wp_bind. eapply wp_outb; [exact H4|]. intros w5 H5. by apply wp_ret, HQ.
Qed.

(** Which processor gets an interrupt after [main]. *)
Definition route_of (uart : bool) (ncpu i : Z) : option Z :=
  if decide (i = Trap.IRQ_IDE) then Some (ncpu - 1) else if decide (i = Trap.IRQ_COM1 /\ uart = true) then Some 0 else if decide (i = Trap.IRQ_KBD) then Some 0 else None.

Lemma start_devices_run id ncpu d w : Trap.IRQ_IDE <= maxintr -> 0 < ncpu <= 256 ->
  wp (start_devices io id fuel ncpu d) (fun r w' => Locked.l_lock r.1.1 = Spin.initlock /\ Console.c_locking (Locked.l_data r.1.1) = true /\ routes w' (route_of r.1.2 ncpu)) w.
Proof using dev out_other in_other disk soon.
  intros Hi Hn. unfold start_devices, consoleinit. apply wp_bind, (wp_ioapicinit io regs maxintr dev). intros _ w1 H1. apply wp_bind, wp_bind. unfold wp at 1. cbn [Console.consoleinit mbind outcome_bind returns fst snd]. apply wp_bind.
  eapply (wp_ioapicenable io regs maxintr dev); [unfold Trap.IRQ_KBD, Trap.IRQ_IDE in *; lia|lia|exact H1|]. intros w2 H2. apply wp_ret. apply wp_bind.
  eapply wp_uartinit; [unfold Trap.IRQ_COM1, Trap.IRQ_IDE in *; lia|exact H2|]. intros uart w3 H3. apply wp_bind. eapply wp_ideinit; [done|done|exact H3|].
  intros hd w4 H4. apply wp_ret. split; [done|]. split; [done|]. intros i Hr. specialize (H4 i Hr). revert H4. unfold route_of, set_route, Trap.IRQ_IDE, Trap.IRQ_COM1, Trap.IRQ_KBD. cbn [fst snd].
  destruct (decide (i = 14)); [done|]. destruct uart; cbn; repeat case_decide; try done; lia.
Qed.
End StartDevices.

(** C40. The interrupts of the devices are routed.  When [main] has called [ioapicinit],
    [consoleinit], [uartinit] and [ideinit], the keyboard interrupts CPU 0, the
    serial port, if there is one, CPU 0, and the disk the last CPU, each with the
    vector [trap] dispatches on; every other interrupt is masked; and the calls
    return, however long the disk takes to get ready. *)
Theorem interrupts_routed {W} (io : bus W) regs maxintr busy fuel id ncpu d w :
  ioapic_dev io regs maxintr -> (forall p v w x, regs (b_out io p v w) x = regs w x) -> (forall p w x, regs (snd (b_in io p w)) x = regs w x) ->
  ide_dev io busy -> (forall w, (busy w < fuel)%nat) -> Trap.IRQ_IDE <= maxintr -> 0 < ncpu <= 256 ->
  exists d' uart hd w', start_devices io id fuel ncpu d w = Ret ((d', uart, hd), w') /\
    Locked.l_lock d' = Spin.initlock /\ Console.c_locking (Locked.l_data d') = true /\
    forall i, 0 <= i <= maxintr -> entry_ok regs w' i (route_of uart ncpu i).
Proof.
  intros dev Ho Hi disk Hs H1 H2. destruct (proj1 (wp_Ret _ _ _) (start_devices_run io regs maxintr dev Ho Hi busy disk fuel Hs id ncpu d w H1 H2)) as ([[d' uart] hd] & w' & Hr & Hq).
  exists d', uart, hd, w'. split; [exact Hr|exact Hq].
Qed.

(** [uartintr] gives the console exactly the bytes received, in order: what
    [consoleintr] makes of them is what the abstract line editor does, and the
    port is empty afterwards. *)
Theorem uartintr_edits {W} (io : bus W) rx fuel me w b d q l :
  uart_dev io rx -> (length (rx w) < fuel)%nat -> Console.cons_ok d q l ->
  exists w' d', uartintr io fuel true me w (Locked.free b d) = Ret (bool_decide (Console.Ctl 80 ∈ rx w), w', Locked.free b d') /\ rx w' = [] /\
    Console.cons_ok d' (foldl Console.edit (q, l) (rx w)).1 (foldl Console.edit (q, l) (rx w)).2.
Proof.
  intros dev Hf Hok. destruct (drain_all io rx dev fuel w Hf) as (w' & Hd & Hw). destruct (Console.consoleintr_edits me (rx w) b d q l (ua_bytes _ _ dev w) Hok) as (d' & Hc & Hd').
  exists w', d'. unfold uartintr. rewrite Hd. cbn. rewrite Hc. cbn. by split_and!.
Qed.

(** Four processors; the disk is ready at once. *)
Lemma interrupts_routed_witness :
  exists d' uart hd w', start_devices quick_bus 0 1 4 (Locked.free true Console.demo) (0, fun _ => 0) = Ret ((d', uart, hd), w') /\
    demo_regs w' 18 = 33 /\ demo_regs w' 44 = 46 /\ demo_regs w' 45 = 50331648 /\ demo_regs w' 16 = 65568.
Proof.
  destruct (interrupts_routed quick_bus demo_regs 23 (fun _ => 0%nat) 1 0 4 (Locked.free true Console.demo) (0, fun _ => 0)) as (d' & uart & hd & w' & Hr & _ & _ & Hi);
    [exact quick_ioapic|done|done|constructor; intros w; by left|lia|unfold Trap.IRQ_IDE; lia|lia|].
  exists d', uart, hd, w'. split; [exact Hr|]. destruct (Hi 1 ltac:(lia)) as [H1 _], (Hi 14 ltac:(lia)) as [H2 H3]. specialize (Hi 0 ltac:(lia)). cbn in Hi. by destruct uart, Hi.
Defined.

(** A port with the bytes it has received. *)
Definition demo_port : bus (list Z) := {|
  b_in := fun p w => if decide (p = COM1) then (match w with [] => 0 | c :: _ => c mod 256 end, tail w) else (match w with [] => 32 | _ => 33 end, w);
  b_out := fun p v w => w;
  b_load := fun a w => (0, w);
  b_store := fun a v w => w |}.
Lemma demo_uart : uart_dev demo_port (fmap (fun c => c mod 256)).
Proof.
  constructor.
  - intros [|c w]; cbn; by split.
  - intros [|c w] c' l [= <- <-]. by split.
  - intros w. apply Forall_fmap, Forall_true. intros c. cbn. apply Z.mod_pos_bound. lia.
Qed.

Lemma uartintr_edits_witness :
  exists w' d', uartintr demo_port 9 true 0 [120; 8; 104; 105; 13] (Locked.free true Console.demo) =
      Ret (bool_decide (Console.Ctl 80 ∈ [120; 8; 104; 105; 13]), w', Locked.free true d') /\
    Console.cons_ok d' [104; 105; 10] [].
Proof.
  destruct (uartintr_edits demo_port (fmap (fun c => c mod 256)) 9 0 [120; 8; 104; 105; 13] true Console.demo [] [] demo_uart) as (w' & d' & Hr & _ & Hd);
    [cbn; lia|exact Console.idle_ok|]. exists w', d'. split; [exact Hr|exact Hd].
Defined.

(** A local APIC that remembers the stores; the interrupt is delivered at once. *)
Definition demo_lapic : bus (list (Z * Z)) := {|
  b_in := fun p w => (0, w);
  b_out := fun p v w => w;
  b_load := fun a w => (0, w);
  b_store := fun a v w => w ++ [((a - 4276092928) / 4, v)] |}.
Example lapicinit_runs : exists w', lapicinit demo_lapic 4276092928 1 [] = Ret (tt, w') /\ programmed w'.
Proof.
  apply (lapicinit_programs demo_lapic 4276092928 id (fun _ => 0%nat) 0); [|lia|lia]. constructor; [done| |by left|done].
  intros i v w. cbn. do 3 f_equal. Z.div_mod_to_equations. lia.
Qed.
End Devices.
