(* ===== verification/Kbd.v ===== *)
(** * The keyboard

    Models [src/xv6-public/kbd.c] and the tables of [src/xv6-public/kbd.h]: the
    decoding of scan codes into characters, and [kbdintr], which passes them to
    the console.  The status and data ports are arguments. *)
From S2P Require Export Console.

Module Kbd.
Import Spin Locked Console.
Local Open Scope Z_scope.

(** The value of [uchar a\[256\] = { init..., \[i\] v... }]. *)
Definition table (init : list Z) (des : list (Z * Z)) : list Z :=
  foldl (fun a '(i, v) => <[Z.to_nat i := v mod 256]> a)
    (((fun v => v mod 256) <$> init) ++ replicate (256 - length init) 0) des.

Definition shiftcode : list Z :=
  table []
    [(29, 2); (42, 1); (54, 1); (56, 4); (157, 2); (184, 4)].

Definition togglecode : list Z :=
  table []
    [(58, 8); (69, 16); (70, 32)].

Definition normalmap : list Z :=
  table [0; 27; 49; 50; 51; 52; 53; 54; 55; 56; 57; 48; 45; 61; 8; 9;
   113; 119; 101; 114; 116; 121; 117; 105; 111; 112; 91; 93; 10; 0; 97; 115;
   100; 102; 103; 104; 106; 107; 108; 59; 39; 96; 0; 92; 122; 120; 99; 118;
   98; 110; 109; 44; 46; 47; 0; 42; 0; 32; 0; 0; 0; 0; 0; 0;
   0; 0; 0; 0; 0; 0; 0; 55; 56; 57; 45; 52; 53; 54; 43; 49;
   50; 51; 48; 46; 0; 0; 0; 0]
    [(156, 10); (181, 47); (200, 226); (208, 227); (201, 230); (209, 231); (203, 228); (205, 229); (151, 224); (207, 225); (210, 232); (211, 233)].

Definition shiftmap : list Z :=
  table [0; 27; 33; 64; 35; 36; 37; 94; 38; 42; 40; 41; 95; 43; 8; 9;
   81; 87; 69; 82; 84; 89; 85; 73; 79; 80; 123; 125; 10; 0; 65; 83;
   68; 70; 71; 72; 74; 75; 76; 58; 34; 126; 0; 124; 90; 88; 67; 86;
   66; 78; 77; 60; 62; 63; 0; 42; 0; 32; 0; 0; 0; 0; 0; 0;
   0; 0; 0; 0; 0; 0; 0; 55; 56; 57; 45; 52; 53; 54; 43; 49;
   50; 51; 48; 46; 0; 0; 0; 0]
    [(156, 10); (181, 47); (200, 226); (208, 227); (201, 230); (209, 231); (203, 228); (205, 229); (151, 224); (207, 225); (210, 232); (211, 233)].

Definition ctlmap : list Z :=
  table [0; 0; 0; 0; 0; 0; 0; 0; 0; 0; 0; 0; 0; 0; 0; 0;
   17; 23; 5; 18; 20; 25; 21; 9; 15; 16; 0; 0; 13; 0; 1; 19;
   4; 6; 7; 8; 10; 11; 12; 0; 0; 0; 0; 28; 26; 24; 3; 22;
   2; 14; 13; 0; 0; -17; 0; 0]
    [(156, 13); (181, -17); (200, 226); (208, 227); (201, 230); (209, 231); (203, 228); (205, 229); (151, 224); (207, 225); (210, 232); (211, 233)].

Definition SHIFT : Z := 1.
Definition CTL : Z := 2.
Definition CAPSLOCK : Z := 8.
Definition E0ESC : Z := 64.

(** The last part of [kbdgetc], for a key that is pressed. *)
Definition key_pressed (shift data : Z) : outcome (Z * Z) :=
  sc ← rd shiftcode (Z.to_nat data);
  let shift := Z.lor shift sc in
  tc ← rd togglecode (Z.to_nat data);
  let shift := Z.lxor shift tc in
  map ← rd [normalmap; shiftmap; ctlmap; ctlmap] (Z.to_nat (Z.land shift (Z.lor CTL SHIFT)));
  c ← rd map (Z.to_nat data);
  let c := if decide (Z.land shift CAPSLOCK <> 0) then
             if decide (97 <= c <= 122) then c + 65 - 97
             else if decide (65 <= c <= 90) then c + 97 - 65
             else c
           else c in
  Ret (c, shift).

(** [kbdgetc] with the values of the two ports; the result is the character (0
    for none, -1 when there is no data) and the new [shift]. *)
Definition kbdgetc (st data shift : Z) : outcome (Z * Z) :=
  if decide (Z.land st 1 = 0) then Ret (-1, shift)
  else if decide (data = 224) then Ret (0, Z.lor shift E0ESC)
  else if decide (Z.land data 128 <> 0) then
    let data := if decide (Z.land shift E0ESC <> 0) then data else Z.land data 127 in
    sc ← rd shiftcode (Z.to_nat data);
    Ret (0, Z.land shift (Z.lnot (Z.lor sc E0ESC)))
  else if decide (Z.land shift E0ESC <> 0) then key_pressed (Z.land shift (Z.lnot E0ESC)) (Z.lor data 128)
  else key_pressed shift data.

(** The characters [consoleintr] gets from [kbdgetc] while scan codes arrive. *)
Fixpoint decode (codes : list Z) (shift : Z) : outcome (list Z * Z) :=
  match codes with
  | [] => Ret ([], shift)
  | data :: codes =>
      '(c, shift) ← kbdgetc 1 data shift;
      '(cs, shift) ← decode codes shift;
      Ret (c :: cs, shift)
  end.

(** [consoleintr(kbdgetc)]; the state is [shift] and the console. *)
Definition kbdintr (me : nat) (codes : list Z) : stm (Z * guarded cons) bool := fun s =>
  '(cs, shift) ← decode codes (fst s);
  '(dump, c) ← consoleintr me cs (snd s);
  Ret (dump, (shift, c)).

(** ** Every scan code is decoded *)

(** [decoded m]: the result is a character and a shift state. *)
Definition decoded (m : outcome (Z * Z)) : bool :=
  match m with
  | Ret (c, sh) => bool_decide (0 <= c < 256) && bool_decide (0 <= sh < 128)
  | _ => false
  end.

Lemma kbdgetc_all :
  forallb (fun sh => forallb (fun data => decoded (kbdgetc 1 (Z.of_nat data) (Z.of_nat sh))) (seq 0 256)) (seq 0 128) = true.
Proof. vm_compute. reflexivity. Qed.

Lemma kbdgetc_ok data shift :
  0 <= data < 256 -> 0 <= shift < 128 ->
  exists c sh, kbdgetc 1 data shift = Ret (c, sh) /\ 0 <= c < 256 /\ 0 <= sh < 128.
Proof.
  intros Hd Hs. pose proof kbdgetc_all as H. rewrite forallb_forall in H.
  specialize (H (Z.to_nat shift) ltac:(apply in_seq; lia)). rewrite forallb_forall in H.
  specialize (H (Z.to_nat data) ltac:(apply in_seq; lia)). rewrite !Z2Nat.id in H by lia. unfold decoded in H.
  destruct (kbdgetc 1 data shift) as [[c sh]| | |]; try discriminate. apply andb_true_iff in H as [H1%bool_decide_eq_true H2%bool_decide_eq_true]. eauto.
Qed.

Lemma decode_ok codes shift :
  Forall (fun x => 0 <= x < 256) codes -> 0 <= shift < 128 ->
  exists cs sh, decode codes shift = Ret (cs, sh) /\ Forall (fun c => 0 <= c < 256) cs /\ 0 <= sh < 128.
Proof.
  intros Hc. revert shift. induction Hc as [|x codes Hx _ IH]; intros shift Hs; cbn [decode]; [by exists [], shift|].
  destruct (kbdgetc_ok x shift Hx Hs) as (c & sh & -> & Hc & Hsh). cbn [mbind outcome_bind].
  destruct (IH sh Hsh) as (cs & sh' & -> & Hcs & Hsh'). eexists (c :: cs), sh'. split; [done|split; [by constructor|done]].
Qed.

(** Whatever bytes the keyboard controller sends, the tables are accessed within
    their bounds and the console edits the characters they stand for. *)
Theorem kbdintr_edits me codes shift b d q l :
  Forall (fun x => 0 <= x < 256) codes -> 0 <= shift < 128 -> cons_ok d q l ->
  exists cs sh d', decode codes shift = Ret (cs, sh) /\ 0 <= sh < 128 /\
    kbdintr me codes (shift, free b d) = Ret (bool_decide (Ctl 80 ∈ cs), (sh, free b d')) /\
    cons_ok d' (foldl edit (q, l) cs).1 (foldl edit (q, l) cs).2.
Proof.
  intros Hc Hs Hok. destruct (decode_ok codes shift Hc Hs) as (cs & sh & Hd & Hcs & Hsh).
  destruct (proj1 (wp_Ret (consoleintr me cs) (fun r s => r = bool_decide (Ctl 80 ∈ cs) /\ exists d', s = free b d' /\
    cons_ok d' (foldl edit (q, l) cs).1 (foldl edit (q, l) cs).2) (free b d))) as (dump & s & Hi & -> & d' & -> & Hd').
  { unfold consoleintr. lk_steps. eapply wp_intr_loop; [exact Hcs|exact Hok|]. intros d' Hd'. lk_steps. eauto. }
  exists cs, sh, d'. split; [done|split; [done|split; [|done]]]. unfold kbdintr. cbn [fst snd]. rewrite Hd. cbn [mbind outcome_bind]. rewrite Hi. done.
Qed.

(** Shift and a letter key: the capital letter, and the state is as before once
    both keys are released; caps lock inverts the case until it is pressed again. *)
Example shift_and_capslock :
  decode [42; 30; 158; 170; 30] 0 = Ret ([0; 65; 0; 0; 97], 0) /\
  decode [58; 186; 30; 42; 30; 170; 58; 186; 30] 0 = Ret ([0; 0; 65; 0; 97; 0; 0; 0; 97], 0).
Proof. split; vm_compute; reflexivity. Qed.

End Kbd.
