(* ===== verification/Grep.v ===== *)
(** * grep

    Models [src/xv6-public/grep.c]: the regular expression matcher and the loop
    that reads a file through a buffer of 1024 bytes.  A C string is the list of
    its characters before the NUL.  The system call [read] is a parameter. *)
From S2P Require Export Prelude.

Module Grep.
Local Open Scope Z_scope.

(** ** The matcher *)

(** [matchstar(c, re, text)]; [here] is [matchhere] of the rest of the pattern. *)
Fixpoint matchstar (here : list Z -> bool) (c : Z) (text : list Z) : bool :=
  if here text then true
  else match text with
       | [] => false
       | t :: text => if decide (t = c \/ c = 46) then matchstar here c text else false
       end.

Fixpoint matchhere (re text : list Z) : bool :=
  match re with
  | [] => true
  | r0 :: re1 =>
      let one :=
        if decide (r0 = 36 /\ re1 = []) then match text with [] => true | _ => false end
        else match text with
             | t :: text => if decide (r0 = 46 \/ r0 = t) then matchhere re1 text else false
             | [] => false
             end in
      match re1 with
      | r1 :: re2 => if decide (r1 = 42) then matchstar (matchhere re2) r0 text else one
      | [] => one
      end
  end.

(** The loop [do ... while( *text++ != 0)] of [match]. *)
Fixpoint match_loop (re text : list Z) : bool :=
  if matchhere re text then true
  else match text with
       | [] => false
       | _ :: text => match_loop re text
       end.

Definition match_ (re text : list Z) : bool :=
  match re with
  | r0 :: re1 => if decide (r0 = 94) then matchhere re1 text else match_loop re text
  | [] => match_loop re text
  end.

(** ** The program *)

(** [strchr(p, '\n')] on the NUL-terminated buffer: the characters before the
    newline and those after it. *)
Fixpoint split_nl (p : list Z) : option (list Z * list Z) :=
  match p with
  | [] => None
  | c :: p =>
      if decide (c = 0) then None
      else if decide (c = 10) then Some ([], p)
      else '(l, r) ← split_nl p; Some (c :: l, r)
  end.

(** The inner loop: what it writes and the bytes from [p] on when no newline is
    left. Each round consumes a byte at least, so [length p] rounds are enough. *)
Fixpoint scan_lines (fuel : nat) (pattern p : list Z) : list Z * list Z :=
  match fuel with
  | O => ([], p)
  | S fuel =>
      match split_nl p with
      | None => ([], p)
      | Some (line, q) =>
          let '(out, rest) := scan_lines fuel pattern q in
          ((if match_ pattern line then line ++ [10] else []) ++ out, rest)
      end
  end.

Definition BUFSIZE : nat := 1024.

Section Grep.
Context {F : Type} (read : F -> nat -> list Z * F).

(** [grep(pattern, fd)] with the [m] bytes [buf] kept in the buffer; the result
    is what is written to file descriptor 1. *)
Fixpoint grep (fuel : nat) (pattern buf : list Z) (fd : F) : outcome (list Z) :=
  match fuel with
  | O => Hang "grep"
  | S fuel =>
      let '(new, fd) := read fd (BUFSIZE - length buf - 1) in
      match new with
      | [] => Ret []
      | _ =>
          let buf := buf ++ new in
          let '(out, p) := scan_lines (length buf) pattern buf in
          let buf := if decide (length p = length buf) then [] else p in
          rest ← grep fuel pattern buf fd;
          Ret (out ++ rest)
      end
  end.
End Grep.

(** ** What the patterns mean *)

Inductive item := Lit (c : Z) | Star (c : Z) | End.

Fixpoint parse (re : list Z) : list item :=
  match re with
  | [] => []
  | [r0] => [if decide (r0 = 36) then End else Lit r0]
  | r0 :: (r1 :: re2) as re1 => if decide (r1 = 42) then Star r0 :: parse re2 else Lit r0 :: parse re1
  end.

(** [c] stands for the character [t]. *)
Definition stands (c t : Z) : Prop := c = 46 \/ c = t.

(** The text begins with an instance of the pattern. *)
Fixpoint begins (p : list item) (text : list Z) : Prop :=
  match p with
  | [] => True
  | Lit c :: p => exists t text', text = t :: text' /\ stands c t /\ begins p text'
  | Star c :: p => exists pre post, text = pre ++ post /\ Forall (stands c) pre /\ begins p post
  | End :: _ => text = []
  end.

(** The text contains an instance of the pattern. *)
Definition contains (re text : list Z) : Prop :=
  if decide (head re = Some 94) then begins (parse (tail re)) text
  else exists pre post, text = pre ++ post /\ begins (parse re) post.

Lemma matchstar_spec (here : list Z -> bool) c text :
  matchstar here c text = true <-> exists pre post, text = pre ++ post /\ Forall (stands c) pre /\ here post = true.
Proof.
  induction text as [|t text IH]; cbn.
  - split; [|intros ([] & post & ? & _ & H); [|done]; cbn in *; subst; by rewrite H].
    destruct (here []) eqn:E; [|done]. intros _. by exists [], [].
  - destruct (here (t :: text)) eqn:E.
    + split; [|done]. intros _. by exists [], (t :: text).
    + case_decide as Ht.
      * rewrite IH. split; intros (pre & post & H1 & H2 & H3).
        -- exists (t :: pre), post. split_and!; [by rewrite H1| |done]. constructor; [|done]. unfold stands. naive_solver.
        -- destruct pre as [|x pre]; cbn in *; [by subst; congruence|]. simplify_eq.
           apply Forall_cons in H2 as [_ H2]. eauto.
      * split; [done|]. intros ([|x pre] & post & H1 & H2 & H3); cbn in *; [by subst; congruence|]. simplify_eq.
        apply Forall_cons in H2 as [H2 _]. unfold stands in H2. naive_solver.
Qed.

Lemma matchhere_spec re text : matchhere re text = true <-> begins (parse re) text.
Proof.
  revert text. remember (length re) as n eqn:Hn. assert (length re <= n)%nat as Hle by lia. clear Hn.
  revert re Hle. induction n as [|n IH]; intros [|r0 re1] Hle text; try (cbn in Hle; lia); [done..|].
  assert (Hone : forall it, it = (if decide (r0 = 36 /\ re1 = []) then End else Lit r0) ->
    (if decide (r0 = 36 /\ re1 = []) then match text with [] => true | _ => false end
     else match text with
          | t :: text => if decide (r0 = 46 \/ r0 = t) then matchhere re1 text else false
          | [] => false
          end) = true <-> begins (it :: parse re1) text).
  { intros it ->. case_decide as H36; [by destruct text|]. destruct text as [|t text]; cbn.
    - split; [done|]. by intros (? & ? & ? & _).
    - case_decide as Ht; [rewrite IH by (cbn in Hle; lia)|]; split; try done; [by exists t, text|..];
        intros (t' & text' & [= -> ->] & Hs & Hb); [done|contradiction]. }
  destruct re1 as [|r1 re2]; cbn [matchhere parse].
  - rewrite Hone by done. destruct (decide (r0 = 36)); [rewrite decide_True by done|rewrite decide_False by tauto]; done.
  - destruct (decide (r1 = 42)) as [->|Hr].
    + rewrite matchstar_spec. cbn [begins]. by setoid_rewrite IH; [|cbn in *; lia].
    + rewrite Hone by done. by rewrite decide_False by naive_solver.
Qed.

Lemma match_loop_spec re text :
  match_loop re text = true <-> exists pre post, text = pre ++ post /\ begins (parse re) post.
Proof.
  induction text as [|t text IH]; cbn; destruct (matchhere re _) eqn:E.
  - split; [|done]. intros _. exists [], []. by rewrite <- matchhere_spec.
  - split; [done|]. intros ([] & post & H & Hb); [|done]. cbn in H. subst post. apply matchhere_spec in Hb. congruence.
  - split; [|done]. intros _. exists [], (t :: text). by rewrite <- matchhere_spec.
  - rewrite IH. split; intros (pre & post & H & Hb).
    + exists (t :: pre), post. by rewrite H.
    + destruct pre as [|x pre]; cbn in H; [|simplify_eq; eauto]. subst post. apply matchhere_spec in Hb. congruence.
Qed.

Lemma match_spec re text : match_ re text = true <-> contains re text.
Proof.
  unfold match_, contains. destruct re as [|r0 re]; cbn; [by rewrite match_loop_spec|].
  destruct (decide (r0 = 94)) as [->|Hne]; [rewrite decide_True by done; apply matchhere_spec|].
  rewrite decide_False by naive_solver. apply match_loop_spec.
Qed.

Global Instance contains_dec re text : Decision (contains re text).
Proof. refine (cast_if (decide (match_ re text = true))); by rewrite <- match_spec. Defined.

(** ** What the program prints *)

(** Lines, each with its newline. *)
Definition join (ls : list (list Z)) : list Z := concat ((fun l => l ++ [10]) <$> ls).

Definition plain (l : list Z) : Prop := Forall (fun c => c <> 0 /\ c <> 10) l.
Definition no_nl (l : list Z) : Prop := Forall (fun c => c <> 10) l.

Lemma split_nl_None p : no_nl p -> split_nl p = None.
Proof. induction 1 as [|c p Hc Hp IH]; cbn; [done|]. case_decide; [done|]. by rewrite decide_False, IH. Qed.

Lemma split_nl_Some l r : plain l -> split_nl (l ++ 10 :: r) = Some (l, r).
Proof. induction 1 as [|c p [Hc Hc'] Hp IH]; cbn; [done|]. by rewrite !decide_False, IH. Qed.

Lemma plain_no_nl l : plain l -> no_nl l.
Proof. intros H. eapply Forall_impl; [exact H|]. by intros c []. Qed.

(** The inner loop prints the matching ones of the lines that are complete in
    the buffer and leaves the beginning of the next line. *)
Lemma scan_lines_spec pattern ls last fuel x y :
  Forall plain ls -> no_nl last -> x ++ y = join ls ++ last -> (length x <= fuel)%nat ->
  exists ls1 ls2 p, ls = ls1 ++ ls2 /\ scan_lines fuel pattern x = (join (filter (contains pattern) ls1), p) /\
    x = join ls1 ++ p /\ p ++ y = join ls2 ++ last /\ no_nl p.
Proof.
  revert fuel x. induction ls as [|l ls IH]; intros fuel x Hls Hlast Hx Hf.
  - exists [], [], x. assert (no_nl x) as Hn. { unfold no_nl in *. cbn in Hx. rewrite <- Hx in Hlast. by apply Forall_app in Hlast as [? _]. }
    split_and!; [done| |done..]. destruct fuel; cbn; [done|]. by rewrite split_nl_None.
  - apply Forall_cons in Hls as [Hl Hls]. unfold join in Hx; cbn in Hx; fold (join ls) in Hx. rewrite <- !app_assoc in Hx. cbn in Hx.
    destruct (decide (length x <= length l)%nat) as [Hle|Hgt].
    + exists [], (l :: ls), x. assert (no_nl x) as Hn.
      { assert (x = take (length x) l) as ->. { rewrite <- (take_app_le l (10 :: join ls ++ last)), <- Hx by lia. by rewrite take_app_length. }
        apply Forall_take, plain_no_nl, Hl. }
      split_and!; [done| |done| |done].
      * destruct fuel; cbn; [done|]. by rewrite split_nl_None.
      * unfold join; cbn. rewrite <- !app_assoc. done.
    + assert (exists x', x = l ++ 10 :: x') as (x' & ->).
      { exists (drop (S (length l)) x). rewrite <- (take_drop (S (length l)) x) at 1. rewrite <- (take_app_le x y), Hx by lia.
        rewrite (take_app_ge l) by lia. replace (S (length l) - length l)%nat with 1%nat by lia. cbn. by rewrite <- app_assoc. }
      rewrite <- app_assoc in Hx. apply app_inv_head in Hx. cbn in Hx. injection Hx as Hx.
      rewrite length_app in Hf. cbn in Hf. destruct fuel as [|fuel]; [lia|].
      destruct (IH fuel x' Hls Hlast Hx ltac:(lia)) as (ls1 & ls2 & p & -> & Hsc & -> & Hp & Hn).
      exists (l :: ls1), ls2, p. split_and!; [done| | |done|done].
      * cbn [scan_lines]. rewrite split_nl_Some by done. rewrite Hsc. rewrite filter_cons.
        destruct (match_ pattern l) eqn:E; [rewrite decide_True by by apply match_spec|rewrite decide_False by (rewrite <- match_spec; congruence)]; [|done].
        unfold join. cbn. by rewrite <- app_assoc.
      * unfold join. cbn. by rewrite <- !app_assoc.
Qed.

Lemma join_cons_nl l ls last x y : l ++ 10 :: join ls ++ last = x ++ y -> no_nl x -> (length l < length x)%nat -> False.
Proof.
  intros H Hx Hlt. assert (x !! length l = Some 10) as Hin.
  { rewrite <- (lookup_app_l x y) by done. rewrite <- H, lookup_app_r, Nat.sub_diag by lia. done. }
  unfold no_nl in Hx. rewrite Forall_lookup in Hx. by apply (Hx _ _ Hin).
Qed.

Section Reads.
Context {F : Type} (read : F -> nat -> list Z * F) (content : F -> list Z).

(** A read of a regular file: as many of the remaining bytes as asked for. *)
Definition full_reads : Prop := forall fd n,
  fst (read fd n) = take n (content fd) /\ content (snd (read fd n)) = drop n (content fd).
Hypothesis read_ok : full_reads.

Lemma grep_round fd n new fd' :
  (0 < n)%nat -> read fd n = (new, fd') ->
  content fd = new ++ content fd' /\ (new = [] -> content fd = []) /\ (length new = n \/ content fd' = []) /\ (length new <= n)%nat.
Proof using read_ok.
  intros Hn Hr. destruct (read_ok fd n) as [H1 H2]. rewrite Hr in H1, H2. cbn in *. subst new. rewrite H2.
  split_and!; [by rewrite take_drop| |rewrite length_take; destruct (decide (n <= length (content fd))%nat); [left; lia|right; apply drop_ge; lia]|rewrite length_take; lia].
  destruct (content fd); [done|]. by destruct n; [lia|].
Qed.

(** A buffer that is full, or that ends the file, has no newline only when no
    complete line is left. *)
Lemma no_line_left ls last x y :
  x ++ y = join ls ++ last -> no_nl x -> Forall (fun l => length l < 1023)%nat ls -> (1023 <= length x)%nat \/ y = [] -> ls = [].
Proof.
  intros Heq Hx Hlen Hfull. destruct ls as [|l ls]; [done|]. exfalso. apply Forall_cons in Hlen as [Hl _].
  unfold join in Heq. cbn in Heq. rewrite <- !app_assoc in Heq. fold (join ls) in Heq.
  eapply (join_cons_nl l ls last x y); [by rewrite Heq|done|]. destruct Hfull as [?| ->]; [lia|].
  rewrite app_nil_r in Heq. rewrite Heq, length_app. cbn. lia.
Qed.

Lemma grep_loop pattern fuel ls last buf fd :
  (length (content fd) < fuel)%nat -> buf ++ content fd = join ls ++ last -> no_nl buf -> (length buf < 1023)%nat ->
  Forall plain ls -> Forall (fun l => length l < 1023)%nat ls -> no_nl last ->
  grep read fuel pattern buf fd = Ret (join (filter (contains pattern) ls)).
Proof using read_ok.
  revert ls last buf fd. induction fuel as [|fuel IH]; intros ls last buf fd Hf Heq Hbuf Hlb Hls Hlen Hlast; [lia|].
  cbn [grep]. destruct (read fd (BUFSIZE - length buf - 1)%nat) as [new fd'] eqn:Hr.
  destruct (grep_round fd (BUFSIZE - length buf - 1)%nat new fd' ltac:(unfold BUFSIZE; lia) Hr) as (Hc & Hnil & Hfull & Hmax). unfold BUFSIZE in Hfull, Hmax.
  destruct new as [|c new].
  - rewrite Hnil, app_nil_r in Heq by done.
    by assert (ls = []) as -> by (apply (no_line_left ls last buf []); [by rewrite app_nil_r|done..|by right]).
  - cbn zeta. remember (c :: new) as n eqn:Hn. assert (length n <> 0%nat) by by subst n. clear c new Hn Hnil.
    set (x := buf ++ n). assert (Hx : x ++ content fd' = join ls ++ last) by (unfold x; by rewrite <- app_assoc, <- Hc).
    assert (length x = length buf + length n)%nat as Hlx by apply length_app.
    assert (length (content fd) = length n + length (content fd'))%nat as Hlc by (rewrite Hc; apply length_app).
    destruct (scan_lines_spec pattern ls last (length x) x (content fd') Hls Hlast Hx ltac:(lia)) as (ls1 & ls2 & p & -> & -> & Hxp & Hp & Hnp).
    apply Forall_app in Hls as [_ Hls]. pose proof Hlen as Hlen'. apply Forall_app in Hlen as [_ Hlen].
    rewrite filter_app. unfold join at 2. rewrite fmap_app, concat_app. fold (join (filter (contains pattern) ls1)) (join (filter (contains pattern) ls2)).
    case_decide as Hlp.
    + assert (ls1 = []) as ->. { destruct ls1 as [|l ls1]; [done|]. rewrite Hxp in Hlp. unfold join in Hlp. cbn in Hlp. rewrite !length_app in Hlp. cbn in Hlp. lia. }
      cbn in Hxp. subst p. cbn in Hlen'. assert (ls2 = []) as -> by (apply (no_line_left ls2 last x (content fd')); [done..|destruct Hfull; [left; lia|by right]]).
      rewrite (IH [] (content fd') [] fd'); [done|lia|done|constructor|cbn; lia|done|done|].
      unfold no_nl in *. cbn in Hp. rewrite <- Hp in Hlast. by apply Forall_app in Hlast as [_ ?].
    + rewrite (IH ls2 last p fd'); [done|lia|done|done| |done..].
      assert (length p < length x)%nat by (pose proof (f_equal length Hxp) as Hq; rewrite length_app in Hq; lia). lia.
Qed.
End Reads.

(** C32. [grep] on a regular file prints exactly the lines that contain an
    instance of the pattern, in order: the matcher decides the meaning of the
    pattern, and the buffer of 1024 bytes neither splits, drops nor repeats a
    line, as long as lines have no NUL and at most 1022 characters.  Characters
    after the last newline are ignored. *)
Theorem grep_spec {F} (read : F -> nat -> list Z * F) content pattern ls last fuel fd :
  full_reads read content -> content fd = join ls ++ last ->
  Forall plain ls -> Forall (fun l => length l < 1023)%nat ls -> no_nl last ->
  (length (content fd) < fuel)%nat ->
  grep read fuel pattern [] fd = Ret (join (filter (contains pattern) ls)).
Proof. intros Hr Hc Hp Hl Hn Hf. apply (grep_loop read content Hr pattern fuel ls last); [done|done|constructor|cbn; lia|done..]. Qed.

(** The file as the list of the bytes that are left. *)
Definition demo_read (fd : list Z) (n : nat) : list Z * list Z := (take n fd, drop n fd).

Lemma grep_spec_witness :
  grep demo_read 20 [97; 46; 42; 36] [] [98; 97; 10; 99; 10; 97; 98; 10; 97] = Ret [98; 97; 10; 97; 98; 10].
Proof.
  change [98; 97; 10; 97; 98; 10] with (join (filter (contains [97; 46; 42; 36]) [[98; 97]; [99]; [97; 98]])).
  apply (grep_spec demo_read id [97; 46; 42; 36] [[98; 97]; [99]; [97; 98]] [97]);
    [by intros fd n|done|repeat constructor; done|repeat constructor; cbn; lia|repeat constructor; done|cbn; lia].
Defined.

(** When [read] returns a part of a line, as it does on a pipe or on the
    console, [grep] forgets it: with single characters it never prints. *)
Example grep_drops_short_reads :
  let byte_read fd (n : nat) := (take 1 fd, drop 1 fd) in
  grep byte_read 20 [97] [] [97; 10] = Ret [] /\ contains [97] [97].
Proof. split; [vm_compute; reflexivity|]. apply match_spec. vm_compute. reflexivity. Qed.

End Grep.
