(* ===== verification/UserProgs.v ===== *)
(** * User programs that read files

    Models [src/xv6-public/cat.c], [src/xv6-public/wc.c], the modified [cat] of
    [src/add shell program/hcat.c] and [fmtname] of [src/xv6-public/ls.c].  The
    system calls [read] and [write] are parameters that act on the world [W]. *)
From S2P Require Export Prelude.

Module UserProgs.
Local Open Scope Z_scope.

(** How a function ends: it returns, or the process exits after printing a
    message. *)
Inductive ending := Returned | Exited (message : string).

Section Programs.
Context {W : Type}.
(** [read(fd, buf, n)]: the bytes stored, or -1. *)
Context (read : Z -> nat -> W -> option (list Z) * W).
(** [write(fd, buf, n)]: its result. *)
Context (write : Z -> list Z -> W -> Z * W).

(** [cat] of [cat.c]. *)
Fixpoint cat (fuel : nat) (fd : Z) (w : W) : outcome (ending * W) :=
  match fuel with
  | O => Hang "cat"
  | S fuel =>
      match read fd 512 w with
      | (None, w) => Ret (Exited "cat: read error", w)
      | (Some [], w) => Ret (Returned, w)
      | (Some bytes, w) =>
          let '(k, w) := write 1 bytes w in
          if decide (k <> Z.of_nat (length bytes)) then Ret (Exited "cat: write error", w)
          else cat fuel fd w
      end
  end.

(** [cat] of [hcat.c].  [n] is the value of the comparison [read(...) > 0], so
    an error of [read] ends the loop as the end of the file does. *)
Fixpoint hcat (fuel : nat) (line fd cnt : Z) (w : W) : outcome (ending * W) :=
  match fuel with
  | O => Hang "hcat"
  | S fuel =>
      match read fd 1 w with
      | (Some (c :: _), w) =>
          let '(k, w) := write 1 [c] w in
          if decide (k <> 1) then Ret (Exited "cat: write error", w)
          else
            let cnt := if decide (c = 10) then cnt + 1 else cnt in
            if decide (line < cnt) then Ret (Returned, w) else hcat fuel line fd cnt w
      | (_, w) => Ret (Returned, w)
      end
  end.

(** The counters of [wc]: [int]s whose overflow is undefined. *)
Record counts := mkCounts { n_l : Z; n_w : Z; n_c : Z; inword : bool }.
Definition incr (z : Z) : outcome Z := if decide (z + 1 < 2 ^ 31) then Ret (z + 1) else Undef "signed overflow".

(** [strchr(" \r\t\n\v", c)]. *)
Definition is_sep (c : Z) : bool := bool_decide (c ∈ [32; 13; 9; 10; 11]).

Definition wc_char (c : Z) (k : counts) : outcome counts :=
  nc ← incr (n_c k);
  nl ← (if decide (c = 10) then incr (n_l k) else Ret (n_l k));
  if is_sep c then Ret (mkCounts nl (n_w k) nc false)
  else if inword k then Ret (mkCounts nl (n_w k) nc true)
  else nw ← incr (n_w k); Ret (mkCounts nl nw nc true).

Fixpoint wc_bytes (bytes : list Z) (k : counts) : outcome counts :=
  match bytes with
  | [] => Ret k
  | c :: bytes => k ← wc_char c k; wc_bytes bytes k
  end.

(** [wc]: the three numbers it prints. *)
Fixpoint wc_loop (fuel : nat) (fd : Z) (k : counts) (w : W) : outcome (option (Z * Z * Z) * W) :=
  match fuel with
  | O => Hang "wc"
  | S fuel =>
      match read fd 512 w with
      | (None, w) => Ret (None, w)
      | (Some [], w) => Ret (Some (n_l k, n_w k, n_c k), w)
      | (Some bytes, w) => k ← wc_bytes bytes k; wc_loop fuel fd k w
      end
  end.
Definition wc (fuel : nat) (fd : Z) (w : W) : outcome (option (Z * Z * Z) * W) :=
  wc_loop fuel fd (mkCounts 0 0 0 false) w.

(** ** Files *)

(** What the system calls do with a file of which [content w] is left and with
    standard output [out w]: [read] returns some of the bytes, none only at the
    end, and [write] writes everything. *)
Context (content out : W -> list Z).
Record calls_ok (fd : Z) : Prop := {
  read_ok : forall n w, (0 < n)%nat -> exists bytes rest w', read fd n w = (Some bytes, w') /\
    content w = bytes ++ rest /\ content w' = rest /\ (length bytes <= n)%nat /\ (bytes = [] -> rest = []) /\ out w' = out w;
  write_ok : forall bytes w, exists w', write 1 bytes w = (Z.of_nat (length bytes), w') /\
    content w' = content w /\ out w' = out w ++ bytes
}.

Lemma cat_copies fd fuel w :
  calls_ok fd -> (length (content w) < fuel)%nat ->
  exists w', cat fuel fd w = Ret (Returned, w') /\ out w' = out w ++ content w /\ content w' = [].
Proof.
  intros [Hr Hw]. revert w. induction fuel as [|fuel IH]; intros w Hf; [lia|]. cbn [cat].
  destruct (Hr 512%nat w ltac:(lia)) as (bytes & rest & w1 & -> & Hc & Hc1 & _ & Hnil & Ho). destruct bytes as [|x bytes].
  - exists w1. rewrite Hc, Hc1, Ho, (Hnil eq_refl). cbn. by rewrite app_nil_r.
  - destruct (Hw (x :: bytes) w1) as (w2 & -> & Hc2 & Ho2). rewrite decide_False by (intros H; by apply H).
    destruct (IH w2) as (w' & -> & Ho' & Hc').
    { rewrite Hc2, Hc1. pose proof (f_equal length Hc) as Hl. rewrite length_app in Hl. cbn in Hl. lia. }
    exists w'. split_and!; [done| |done]. rewrite Ho', Ho2, Ho, Hc2, Hc1, Hc. by rewrite <- app_assoc.
Qed.

(** The first [k] lines of a text, with their newlines. *)
Fixpoint first_lines (k : nat) (l : list Z) : list Z :=
  match k, l with
  | O, _ => []
  | _, [] => []
  | S k', c :: l => c :: first_lines (if decide (c = 10) then k' else k) l
  end.

Lemma hcat_loop fd fuel line k w :
  calls_ok fd -> (length (content w) < fuel)%nat -> (0 < k)%nat ->
  exists w', hcat fuel line fd (line + 1 - Z.of_nat k) w = Ret (Returned, w') /\ out w' = out w ++ first_lines k (content w).
Proof.
  intros [Hr Hw]. revert k w. induction fuel as [|fuel IH]; intros k w Hf Hk; [lia|]. cbn [hcat].
  destruct (Hr 1%nat w ltac:(lia)) as (bytes & rest & w1 & -> & Hc & Hc1 & Hlen & Hnil & Ho). destruct k as [|k]; [lia|].
  destruct bytes as [|c [|]]; [| |cbn in Hlen; lia].
  - exists w1. rewrite Hc, Ho, (Hnil eq_refl). cbn. by rewrite app_nil_r.
  - destruct (Hw [c] w1) as (w2 & -> & Hc2 & Ho2). rewrite (decide_False (P := Z.of_nat (length [c]) <> 1)) by (cbn; lia). rewrite Hc in *. cbn [app first_lines length] in *.
    destruct (decide (c = 10)) as [->|Hc10].
    + destruct k as [|k].
      * rewrite decide_True by lia. exists w2. split; [done|]. rewrite Ho2, Ho. by destruct rest.
      * rewrite decide_False by lia. replace (line + 1 - Z.of_nat (S (S k)) + 1) with (line + 1 - Z.of_nat (S k)) by lia.
        destruct (IH (S k) w2) as (w' & -> & Ho'); [rewrite Hc2, Hc1; lia|lia|]. exists w'. split; [done|].
        rewrite Ho', Ho2, Ho, Hc2, Hc1. by rewrite <- app_assoc.
    + rewrite decide_False by lia. destruct (IH (S k) w2) as (w' & -> & Ho'); [rewrite Hc2, Hc1; lia|lia|]. exists w'. split; [done|].
      rewrite Ho', Ho2, Ho, Hc2, Hc1. by rewrite <- app_assoc.
Qed.

Lemma incr_lt z : z + 1 < 2 ^ 31 -> incr z = Ret (z + 1).
Proof. intros H. unfold incr. by rewrite decide_True. Qed.

Definition newlines (l : list Z) : Z := Z.of_nat (length (filter (fun c => c = 10) l)).

(** A text is separators and the words [ws] in turn. *)
Inductive words : list Z -> list (list Z) -> Prop :=
  | words_nil s : Forall (fun c => is_sep c = true) s -> words s []
  | words_cons s x l ws : Forall (fun c => is_sep c = true) s -> x <> [] -> Forall (fun c => is_sep c = false) x ->
      match l with [] => True | c :: _ => is_sep c = true end -> words l ws -> words (s ++ x ++ l) (x :: ws).

(** The number of words that begin in [l], after a character in a word or not. *)
Fixpoint starts (inw : bool) (l : list Z) : nat :=
  match l with
  | [] => 0
  | c :: l => if is_sep c then starts false l else ((if inw then 0 else 1) + starts true l)%nat
  end.
Definition ends (inw : bool) (l : list Z) : bool := match list.last l with Some c => negb (is_sep c) | None => inw end.

Lemma ends_cons inw c l : ends inw (c :: l) = ends (negb (is_sep c)) l.
Proof. unfold ends. destruct l as [|x l]; [reflexivity|]. rewrite last_cons. destruct (list.last (x :: l)) eqn:E; [done|]. by apply last_None in E. Qed.

Lemma starts_app inw l1 l2 : starts inw (l1 ++ l2) = (starts inw l1 + starts (ends inw l1) l2)%nat.
Proof.
  revert inw. induction l1 as [|c l1 IH]; intros inw; [done|]. cbn [app starts].
  rewrite ends_cons. destruct (is_sep c); rewrite IH; cbn; lia.
Qed.

Lemma starts_seps inw s : Forall (fun c => is_sep c = true) s -> starts inw s = 0%nat /\ (s = [] \/ ends inw s = false).
Proof.
  intros Hs. split.
  - revert inw. induction Hs as [|c s Hc _ IH]; intros inw; cbn; [done|]. by rewrite Hc.
  - destruct s as [|c s]; [by left|right]. unfold ends. destruct (list.last (c :: s)) as [x|] eqn:E; [|by apply last_None in E].
    apply list.last_Some_elem_of in E. rewrite Forall_forall in Hs. by rewrite (Hs x E).
Qed.

Lemma starts_word x inw : x <> [] -> Forall (fun c => is_sep c = false) x ->
  starts inw x = (if inw then 0 else 1)%nat /\ ends inw x = true.
Proof.
  intros Hx Hs. split.
  - destruct x as [|c x]; [done|]. apply Forall_cons in Hs as [Hc Hs]. cbn. rewrite Hc.
    assert (starts true x = 0%nat) as ->; [|lia]. induction Hs as [|y x Hy _ IH]; cbn; [done|]. rewrite Hy. apply IH. done.
  - unfold ends. destruct (list.last x) as [y|] eqn:E; [|by apply last_None in E].
    apply list.last_Some_elem_of in E. rewrite Forall_forall in Hs. by rewrite (Hs y E).
Qed.

Lemma words_starts l ws : words l ws -> forall inw, (inw = true -> match l with [] => True | c :: _ => is_sep c = true end) ->
  starts inw l = length ws.
Proof.
  induction 1 as [s Hs|s x l ws Hs Hx Hx' Hl _ IH]; intros inw Hin.
  - by apply starts_seps.
  - rewrite !starts_app. destruct (starts_seps inw s Hs) as [-> He].
    assert (ends inw s = false) as ->.
    { destruct He as [->|]; [|done]. cbn. destruct inw; [|done]. exfalso. destruct x as [|c x]; [done|].
      apply Forall_cons in Hx' as [Hc _]. specialize (Hin eq_refl). cbn in Hin. congruence. }
    destruct (starts_word x false Hx Hx') as [-> ->]. cbn. f_equal. apply IH. done.
Qed.

Lemma wc_bytes_spec bytes k :
  0 <= n_l k <= n_c k -> 0 <= n_w k <= n_c k -> n_c k + Z.of_nat (length bytes) < 2 ^ 31 ->
  wc_bytes bytes k = Ret (mkCounts (n_l k + newlines bytes) (n_w k + Z.of_nat (starts (inword k) bytes))
                            (n_c k + Z.of_nat (length bytes)) (ends (inword k) bytes)).
Proof.
  revert k. induction bytes as [|c bytes IH]; intros k Hl Hw Hc.
  - cbn. unfold newlines. cbn. rewrite !Z.add_0_r. by destruct k.
  - cbn [length] in Hc. cbn [wc_bytes]. unfold wc_char. rewrite (incr_lt (n_c k)) by lia. cbn [mbind outcome_bind].
    assert (Hnl : newlines (c :: bytes) = (if decide (c = 10) then 1 else 0) + newlines bytes).
    { unfold newlines. rewrite filter_cons. case_decide; cbn [length]; lia. }
    assert ((if decide (c = 10) then incr (n_l k) else Ret (n_l k)) = Ret (n_l k + if decide (c = 10) then 1 else 0)) as ->.
    { case_decide; [by rewrite (incr_lt (n_l k)) by lia|by rewrite Z.add_0_r]. }
    cbn [mbind outcome_bind starts]. set (x := if decide (c = 10) then 1 else 0) in *. assert (0 <= x <= 1) by (unfold x; case_decide; lia).
    rewrite ends_cons, Hnl. destruct (is_sep c) eqn:Hsep; [|destruct (inword k) eqn:Hin]; [| |rewrite (incr_lt (n_w k)) by lia]; cbn [mbind outcome_bind];
      (rewrite IH; cbn [n_l n_w n_c inword negb]; [cbn [length]; do 2 f_equal; lia|lia|lia|lia]).
Qed.

Lemma newlines_app l1 l2 : newlines (l1 ++ l2) = newlines l1 + newlines l2.
Proof. unfold newlines. rewrite filter_app, length_app. lia. Qed.

Lemma wc_loop_spec fd fuel k w :
  calls_ok fd -> (length (content w) < fuel)%nat ->
  0 <= n_l k <= n_c k -> 0 <= n_w k <= n_c k -> n_c k + Z.of_nat (length (content w)) < 2 ^ 31 ->
  exists w', wc_loop fuel fd k w =
    Ret (Some (n_l k + newlines (content w), n_w k + Z.of_nat (starts (inword k) (content w)), n_c k + Z.of_nat (length (content w))), w').
Proof.
  intros [Hr _]. revert k w. induction fuel as [|fuel IH]; intros k w Hf Hl Hw Hc; [lia|]. cbn [wc_loop].
  destruct (Hr 512%nat w ltac:(lia)) as (bytes & rest & w1 & -> & Hcw & Hc1 & _ & Hnil & _). rewrite Hcw in *. rewrite length_app in Hf, Hc. destruct bytes as [|x bytes].
  - exists w1. rewrite (Hnil eq_refl). unfold newlines. cbn. by rewrite !Z.add_0_r.
  - rewrite wc_bytes_spec by lia. cbn [mbind outcome_bind]. remember (x :: bytes) as l eqn:El. assert (0 < length l)%nat by (subst l; cbn; lia). clear El.
    assert (Hn : 0 <= newlines l <= Z.of_nat (length l)) by (unfold newlines; pose proof (length_filter (fun c => c = 10) l); lia).
    assert (Hs : forall inw l, (starts inw l <= length l)%nat).
    { clear. intros inw l. revert inw. induction l as [|c l IH]; intros inw; cbn; [lia|].
      destruct (is_sep c); [specialize (IH false)|specialize (IH true); destruct inw]; lia. }
    specialize (Hs (inword k) l).
    pose proof (IH (mkCounts (n_l k + newlines l) (n_w k + Z.of_nat (starts (inword k) l)) (n_c k + Z.of_nat (length l)) (ends (inword k) l)) w1) as H'.
    cbn [n_l n_w n_c inword] in H'. rewrite Hc1 in H'. destruct H' as (w' & ->); [lia..|].
    exists w'. rewrite newlines_app, starts_app, length_app. rewrite !Nat2Z.inj_add, !Z.add_assoc. reflexivity.
Qed.
End Programs.

(** [hcat n file] prints the first [n] lines of the file, or all of it when
    it has fewer lines, however [read] splits it. *)
Theorem hcat_spec {W} read write (content out : W -> list Z) fd fuel line w :
  calls_ok read write content out fd -> 1 <= line -> (length (content w) < fuel)%nat ->
  exists w', hcat read write fuel line fd 1 w = Ret (Returned, w') /\
    out w' = out w ++ first_lines (Z.to_nat line) (content w).
Proof.
  intros Hc Hl Hf. destruct (hcat_loop read write content out fd fuel line (Z.to_nat line) w Hc Hf ltac:(lia)) as (w' & Hr & Ho).
  rewrite Z2Nat.id in Hr by lia. replace (line + 1 - line) with 1 in Hr by lia. eauto.
Qed.

(** A world of a file and standard output, where [read] returns at most two
    bytes. *)
Definition demo_read (fd : Z) (n : nat) (w : list Z * list Z) : option (list Z) * (list Z * list Z) :=
  (Some (take (Nat.min 2 n) w.1), (drop (Nat.min 2 n) w.1, w.2)).
Definition demo_write (fd : Z) (bytes : list Z) (w : list Z * list Z) : Z * (list Z * list Z) :=
  (Z.of_nat (length bytes), (w.1, w.2 ++ bytes)).

Lemma demo_calls_ok fd : calls_ok demo_read demo_write fst snd fd.
Proof.
  constructor.
  - intros n [c o] Hn. exists (take (Nat.min 2 n) c), (drop (Nat.min 2 n) c), (drop (Nat.min 2 n) c, o). unfold demo_read. cbn [fst snd].
    split_and!; [done|by rewrite take_drop|done|rewrite length_take; lia| |done].
    destruct c; [by rewrite drop_nil|]. destruct n as [|n]; [lia|]. done.
  - intros bytes [c o]. by exists (c, o ++ bytes).
Qed.

Lemma hcat_spec_witness :
  exists w', hcat demo_read demo_write 20 2 3 1 ([97; 10; 98; 99; 10; 100; 10], []) = Ret (Returned, w') /\
    w'.2 = [97; 10; 98; 99; 10].
Proof.
  destruct (hcat_spec demo_read demo_write fst snd 3 20 2 ([97; 10; 98; 99; 10; 100; 10], []) (demo_calls_ok 3)) as (w' & H1 & H2); [lia|cbn; lia|].
  exists w'. split; [exact H1|exact H2].
Defined.

(** For line number 0 the first byte is printed before the count is looked at. *)
Example hcat_zero_lines :
  (hcat demo_read demo_write 20 0 3 1 ([97; 98; 10], [])) = Ret (Returned, ([98; 10], [97])).
Proof. vm_compute. reflexivity. Qed.

(** [wc] counts newlines, words and bytes. *)
Theorem wc_spec {W} read write (content out : W -> list Z) fd fuel w ws :
  calls_ok read write content out fd -> (length (content w) < fuel)%nat -> Z.of_nat (length (content w)) < 2 ^ 31 ->
  words (content w) ws ->
  exists w', wc read fuel fd w = Ret (Some (newlines (content w), Z.of_nat (length ws), Z.of_nat (length (content w))), w').
Proof.
  intros Hc Hf Hb Hws. destruct (wc_loop_spec read write content out fd fuel (mkCounts 0 0 0 false) w Hc Hf) as (w' & Hr); [cbn; lia..|].
  exists w'. unfold wc. rewrite Hr. cbn [n_l n_w n_c inword]. rewrite (words_starts _ _ Hws) by done. done.
Qed.

(** ** Names *)

Definition DIRSIZ : nat := 14.

(** [for(p = path+strlen(path); p >= path && *p != '/'; p--)] and [p++]: the
    index of the name, from index [i] down. *)
Fixpoint name_index (path : list Z) (i : nat) : nat :=
  if decide (path !! i = Some 47) then S i
  else match i with
       | O => O
       | S i => name_index path i
       end.

Definition fmtname (path : list Z) : list Z :=
  let p := drop (name_index path (length path)) path in
  if decide (DIRSIZ <= length p)%nat then p else p ++ replicate (DIRSIZ - length p) 32.

Lemma name_index_spec path i :
  let k := name_index path i in
  (forall j, (k <= j <= i)%nat -> path !! j <> Some 47) /\ (k = O \/ path !! (k - 1)%nat = Some 47) /\ (k <= S i)%nat.
Proof.
  induction i as [|i IH]; cbn [name_index]; case_decide as H; cbv zeta.
  - split_and!; [lia|right; by rewrite Nat.sub_succ, Nat.sub_0_r|lia].
  - split_and!; [intros j Hj; by replace j with O by lia|by left|lia].
  - split_and!; [lia|right; by rewrite Nat.sub_succ, Nat.sub_0_r|lia].
  - destruct IH as (H1 & H2 & H3). split_and!; [|done|lia]. intros j Hj. destruct (decide (j = S i)) as [->|]; [done|]. apply H1. lia.
Qed.

(** [fmtname] returns the last element of the path, padded with blanks to the
    width of a directory entry. *)
Theorem fmtname_spec path :
  exists dir name, path = dir ++ name /\ Forall (fun c => c <> 47) name /\
    (dir = [] \/ list.last dir = Some 47) /\
    fmtname path = name ++ replicate (DIRSIZ - length name) 32.
Proof.
  destruct (name_index_spec path (length path)) as (H1 & H2 & H3). remember (name_index path (length path)) as k eqn:Hk.
  exists (take k path), (drop k path). split_and!; [by rewrite take_drop| | |].
  - apply Forall_lookup. intros i c Hi. rewrite lookup_drop in Hi. intros ->. apply (H1 (k + i)%nat); [|done].
    apply lookup_lt_Some in Hi. lia.
  - destruct (decide (k = O)) as [->|Hk0]; [by left|right]. destruct H2 as [|H2]; [done|].
    rewrite last_lookup, length_take. pose proof (lookup_lt_Some _ _ _ H2).
    replace (Nat.pred (k `min` length path)) with (k - 1)%nat by lia. rewrite lookup_take_lt by lia. done.
  - unfold fmtname. rewrite <- Hk. case_decide; [|done]. replace (DIRSIZ - length (drop k path))%nat with O by lia. by rewrite app_nil_r.
Qed.

End UserProgs.
