(* ===== verification/Mains.v ===== *)
(** * The [main] functions of the programs that read files, and [ls]

    Models [main] of [src/xv6-public/cat.c], [wc.c], [grep.c] and [ls.c] and of
    [src/add shell program/hcat.c], and the function [ls].  The functions they
    call are those of [UserProgs] and [Grep]; the system calls are parameters
    that act on the world [W]. *)
From S2P Require Export UserProgs Grep Strings.

Module Mains.
Import UserProgs.
Local Open Scope Z_scope.

Notation str := (list Z).

(** How a program ends: normally, after the message of a function it calls, with
    the message that a file cannot be opened, or with its usage. *)
Inductive main_end := Done | Failed (message : string) | CannotOpen (path : str) | Usage.

Section Mains.
Context {W : Type}.
(** [open(path, 0)] and [close(fd)]. *)
Context (open : str -> W -> Z * W) (close : Z -> W -> W).

(** The loop over the arguments. *)
Fixpoint each_file (body : str -> Z -> W -> outcome (ending * W)) (files : list str) (w : W) : outcome (main_end * W) :=
  match files with
  | [] => Ret (Done, w)
  | f :: files =>
      let '(fd, w) := open f w in
      if decide (fd < 0) then Ret (CannotOpen f, w)
      else
        '(e, w) ← body f fd w;
        match e with
        | Exited m => Ret (Failed m, w)
        | Returned => each_file body files (close fd w)
        end
  end.

(** A program that reads standard input when it has no arguments. *)
Definition or_stdin (body : str -> Z -> W -> outcome (ending * W)) (files : list str) (w : W) : outcome (main_end * W) :=
  match files with
  | [] =>
      '(e, w) ← body [] 0 w;
      Ret (match e with Exited m => Failed m | Returned => Done end, w)
  | _ => each_file body files w
  end.

Section Bodies.
Context (read : Z -> nat -> W -> option (list Z) * W) (write : Z -> list Z -> W -> Z * W).
Context (fuel : nat).

(** [argv] is without the name of the program. *)
Definition cat_main (argv : list str) (w : W) : outcome (main_end * W) :=
  or_stdin (fun _ fd w => cat read write fuel fd w) argv w.

(** [line] is set before each call of [cat]. *)
Definition hcat_main (argv : list str) (w : W) : outcome (main_end * W) :=
  match argv with
  | n :: ((_ :: _) as files) =>
      each_file (fun _ fd w =>
        line ← Strings.atoi (S (length n)) 0 (fun x => if decide (x < 0) then 0 else default 0 (n !! Z.to_nat x));
        hcat read write fuel line fd 1 w) files w
  | _ => Ret (Usage, w)
  end.

(** [printf(1, "%d %d %d %s\n", l, w, c, name)]. *)
Context (report : Z * Z * Z -> str -> W -> W).
Definition wc_main (argv : list str) (w : W) : outcome (main_end * W) :=
  or_stdin (fun name fd w =>
    '(r, w) ← wc read fuel fd w;
    Ret (match r with None => (Exited "wc: read error", w) | Some k => (Returned, report k name w) end)) argv w.

(** [grep]: [Grep.grep] gives what is written, [put] writes it to standard output.
    The position reached in the file is dropped: [main] closes the descriptor or
    exits next. *)
Context (gread : Z -> W -> nat -> list Z * W) (put : list Z -> W -> W).
Definition grep_body (pattern : str) (fd : Z) (w : W) : outcome (ending * W) :=
  out ← Grep.grep (gread fd) fuel pattern [] w;
  Ret (Returned, put out w).
Definition grep_main (argv : list str) (w : W) : outcome (main_end * W) :=
  match argv with
  | [] => Ret (Usage, w)
  | pattern :: files => or_stdin (fun _ fd w => grep_body pattern fd w) files w
  end.
End Bodies.

(** ** [ls] *)

Record stat_t := mkStat { st_type : Z; st_ino : Z; st_size : Z }.

(** What [ls] prints. *)
Inductive ls_line :=
| Listed (name : str) (type ino size : Z)
| CannotOpenLs (path : str)
| CannotStat (path : str)
| TooLong.

(** [fstat(fd)], [stat(path)], [read(fd, ., n)] and the output. *)
Context (fstat : Z -> W -> option stat_t * W) (stat : str -> W -> option stat_t * W).
Context (rd : Z -> nat -> W -> option (list Z) * W) (prn : ls_line -> W -> W).

(** The inode number and the name of a directory entry; the name has no NUL when
    it fills the field. *)
Definition de_inum (de : list Z) : Z := default 0 (de !! 0%nat) + 256 * default 0 (de !! 1%nat).
Fixpoint until_nul (l : list Z) : list Z :=
  match l with [] => [] | c :: l => if decide (c = 0) then [] else c :: until_nul l end.
Definition de_name (de : list Z) : str := until_nul (take DIRSIZ (drop 2 de)).

Fixpoint ls_dir (fuel : nat) (path : str) (fd : Z) (w : W) : outcome W :=
  match fuel with
  | O => Hang "ls"
  | S fuel =>
      match rd fd 16 w with
      | (Some de, w) =>
          if decide (length de = 16%nat) then
            if decide (de_inum de = 0) then ls_dir fuel path fd w
            else
              let buf := path ++ 47 :: de_name de in
              match stat buf w with
              | (None, w) => ls_dir fuel path fd (prn (CannotStat buf) w)
              | (Some st, w) => ls_dir fuel path fd (prn (Listed (fmtname buf) (st_type st) (st_ino st) (st_size st)) w)
              end
          else Ret w
      | (None, w) => Ret w
      end
  end.

(** [T_DIR] is 1, [T_FILE] is 2. *)
Definition ls (fuel : nat) (path : str) (w : W) : outcome W :=
  let '(fd, w) := open path w in
  if decide (fd < 0) then Ret (prn (CannotOpenLs path) w)
  else
    match fstat fd w with
    | (None, w) => Ret (close fd (prn (CannotStat path) w))
    | (Some st, w) =>
        w ← (if decide (st_type st = 2) then Ret (prn (Listed (fmtname path) (st_type st) (st_ino st) (st_size st)) w)
             else if decide (st_type st = 1) then
               if decide (512 < length path + 1 + DIRSIZ + 1)%nat then Ret (prn TooLong w)
               else ls_dir fuel path fd w
             else Ret w);
        Ret (close fd w)
    end.

Fixpoint ls_each (fuel : nat) (paths : list str) (w : W) : outcome W :=
  match paths with
  | [] => Ret w
  | p :: paths => w ← ls fuel p w; ls_each fuel paths w
  end.
Definition ls_main (fuel : nat) (argv : list str) (w : W) : outcome W :=
  match argv with
  | [] => ls fuel [46] w
  | _ => ls_each fuel argv w
  end.

(** ** What is printed *)

(** The files that can be opened, the bytes left at a descriptor and standard
    output. *)
Context (files : str -> option (list Z)) (content : Z -> W -> list Z) (out : W -> list Z).
Record opens_ok : Prop := {
  open_file : forall f c w, files f = Some c -> exists fd w', open f w = (fd, w') /\ 0 <= fd /\ content fd w' = c /\ out w' = out w;
  open_missing : forall f w, files f = None -> exists fd w', open f w = (fd, w') /\ fd < 0 /\ out w' = out w;
  close_out : forall fd w, out (close fd w) = out w
}.

(** [g] of each file up to the first one that cannot be opened. *)
Fixpoint printed (g : list Z -> list Z) (l : list str) : list Z * main_end :=
  match l with
  | [] => ([], Done)
  | f :: l =>
      match files f with
      | None => ([], CannotOpen f)
      | Some c => (g c ++ fst (printed g l), snd (printed g l))
      end
  end.

Lemma each_file_prints body g fuel l w :
  opens_ok -> (forall f c, f ∈ l -> files f = Some c -> (length c < fuel)%nat) ->
  (forall f fd w, (length (content fd w) < fuel)%nat -> exists w', body f fd w = Ret (Returned, w') /\ out w' = out w ++ g (content fd w)) ->
  exists w', each_file body l w = Ret (snd (printed g l), w') /\ out w' = out w ++ fst (printed g l).
Proof.
  intros Ho Hlen Hbody. revert w. induction l as [|f l IH]; intros w; cbn [each_file printed].
  - exists w. split; [done|]. cbn. by rewrite app_nil_r.
  - destruct (files f) as [c|] eqn:Ef.
    + destruct (open_file Ho f c w Ef) as (fd & w1 & -> & Hfd & Hc & H1). rewrite decide_False by lia.
      destruct (Hbody f fd w1) as (w2 & -> & H2); [rewrite Hc; apply (Hlen f c); [by left|done]|]. cbn [mbind outcome_bind].
      destruct (IH (fun f' c' Hin => Hlen f' c' ltac:(by right)) (close fd w2)) as (w3 & Hr & H3).
      exists w3. split; [exact Hr|]. cbn. rewrite H3, (close_out Ho), H2, H1, Hc. by rewrite <- app_assoc.
    + destruct (open_missing Ho f w Ef) as (fd & w1 & -> & Hfd & H1). rewrite decide_True by lia. exists w1. split; [done|]. cbn. by rewrite app_nil_r.
Qed.

Context (read : Z -> nat -> W -> option (list Z) * W) (write : Z -> list Z -> W -> Z * W) (fuel : nat).
Context (calls : forall fd, calls_ok read write (content fd) out fd).

(** [cat f1 ... fn] prints the files one after the other and stops with a message
    at the first one that cannot be opened. *)
Theorem cat_main_prints argv w : opens_ok -> argv <> [] -> (forall f c, f ∈ argv -> files f = Some c -> (length c < fuel)%nat) ->
  exists w', cat_main read write fuel argv w = Ret (snd (printed id argv), w') /\ out w' = out w ++ fst (printed id argv).
Proof using calls.
  intros Ho Hne Hlen. unfold cat_main, or_stdin. destruct argv as [|f argv]; [done|]. apply (each_file_prints _ _ fuel); [done|done|].
  intros f' fd w' Hl. destruct (cat_copies read write (content fd) out fd fuel w' (calls fd) Hl) as (w2 & Hr & H2 & _). by exists w2.
Qed.

(** [hcat n f1 ... fn] prints the first [n] lines of each. *)
Theorem hcat_main_prints n line argv w : opens_ok -> argv <> [] -> (forall f c, f ∈ argv -> files f = Some c -> (length c < fuel)%nat) ->
  Strings.atoi (S (length n)) 0 (fun x => if decide (x < 0) then 0 else default 0 (n !! Z.to_nat x)) = Ret line -> 1 <= line ->
  exists w', hcat_main read write fuel (n :: argv) w = Ret (snd (printed (first_lines (Z.to_nat line)) argv), w') /\
    out w' = out w ++ fst (printed (first_lines (Z.to_nat line)) argv).
Proof using calls.
  intros Ho Hne Hlen Hn Hline. unfold hcat_main. destruct argv as [|f argv]; [done|]. apply (each_file_prints _ _ fuel); [done|done|].
  intros f' fd w' Hl. rewrite Hn. cbn [mbind outcome_bind]. destruct (hcat_loop read write (content fd) out fd fuel line (Z.to_nat line) w' (calls fd) Hl ltac:(lia)) as (w2 & Hr & H2).
  rewrite Z2Nat.id in Hr by lia. replace (line + 1 - line) with 1 in Hr by lia. by exists w2.
Qed.

(** ** What [ls] lists *)

(** The entries left in the directory, what [stat] finds, and the lines printed. *)
Context (entries : Z -> W -> list (list Z)) (stats : str -> option stat_t) (lines : W -> list ls_line).
Record dir_ok : Prop := {
  rd_entry : forall fd w de l, entries fd w = de :: l -> exists w', rd fd 16 w = (Some de, w') /\ entries fd w' = l /\ lines w' = lines w;
  rd_end : forall fd w, entries fd w = [] -> exists w', rd fd 16 w = (Some [], w') /\ lines w' = lines w;
  stat_is : forall p w, exists w', stat p w = (stats p, w') /\ (forall fd, entries fd w' = entries fd w) /\ lines w' = lines w;
  prn_line : forall x w, lines (prn x w) = lines w ++ [x] /\ (forall fd, entries fd (prn x w) = entries fd w)
}.

(** The line of an entry. *)
Definition ls_entry (path : str) (de : list Z) : ls_line :=
  let buf := path ++ 47 :: de_name de in
  match stats buf with
  | None => CannotStat buf
  | Some st => Listed (fmtname buf) (st_type st) (st_ino st) (st_size st)
  end.

(** [ls] of a directory prints one line for each entry in use, in order. *)
Theorem ls_dir_lists path fd n w : dir_ok -> Forall (fun de => length de = 16%nat) (entries fd w) -> (length (entries fd w) < n)%nat ->
  exists w', ls_dir n path fd w = Ret w' /\
    lines w' = lines w ++ (ls_entry path <$> filter (fun de => de_inum de <> 0) (entries fd w)).
Proof.
  intros D Hf. remember (entries fd w) as l eqn:El. revert n w El. induction Hf as [|de l Hde Hf IH]; intros n w El Hn; (destruct n as [|n]; [cbn in Hn; lia|]); cbn [ls_dir].
  - destruct (rd_end D fd w (eq_sym El)) as (w1 & -> & H1). exists w1. split; [done|]. rewrite H1. cbn. by rewrite app_nil_r.
  - destruct (rd_entry D fd w de l (eq_sym El)) as (w1 & -> & He & H1). rewrite decide_True by done. cbn in Hn. rewrite filter_cons.
    destruct (decide (de_inum de = 0)) as [Hz|Hz]; [rewrite decide_False by tauto|rewrite decide_True by done].
    + destruct (IH n w1 (eq_sym He) ltac:(lia)) as (w2 & -> & H2). exists w2. by rewrite H2, H1.
    + cbv zeta. set (buf := path ++ 47 :: de_name de). destruct (stat_is D buf w1) as (w2 & Hs & He2 & H2). rewrite Hs.
      assert (Hcont : forall x, ls_entry path de = x -> exists w', ls_dir n path fd (prn x w2) = Ret w' /\
        lines w' = lines w ++ (ls_entry path <$> de :: filter (fun de => de_inum de <> 0) l)).
      { intros x Hx. destruct (prn_line D x w2) as [Hl Hent]. destruct (IH n (prn x w2)) as (w3 & -> & H3); [by rewrite Hent, He2, He|lia|].
        exists w3. split; [done|]. cbn [fmap list_fmap]. rewrite H3, Hl, H2, H1, Hx. by rewrite <- app_assoc. }
      destruct (stats buf) as [st|] eqn:Est; apply Hcont; unfold ls_entry; fold buf; by rewrite Est.
Qed.
End Mains.

(** Two files and a missing one, with the world of [UserProgs.demo_calls_ok]. *)
Definition demo_files (f : str) : option (list Z) :=
  if decide (f = [97]) then Some [120; 10] else if decide (f = [98]) then Some [121; 10; 122; 10] else None.
Definition demo_open (f : str) (w : list Z * list Z) : Z * (list Z * list Z) :=
  match demo_files f with Some c => (3, (c, w.2)) | None => (-1, w) end.

Lemma demo_opens_ok : opens_ok demo_open (fun _ w => w) demo_files (fun _ => fst) snd.
Proof.
  constructor; [| |done].
  - intros f c w Hf. unfold demo_open. rewrite Hf. by exists 3, (c, w.2).
  - intros f w Hf. unfold demo_open. rewrite Hf. by exists (-1), w.
Qed.

Lemma demo_files_short f c : demo_files f = Some c -> (length c < 20)%nat.
Proof. unfold demo_files. do 2 (destruct (decide _); [intros [= <-]; cbn; lia|]). done. Qed.

Example cat_two_files :
  exists w', cat_main demo_open (fun _ w => w) demo_read demo_write 20 [[97]; [98]; [99]] ([], []) = Ret (CannotOpen [99], w') /\
    w'.2 = [120; 10; 121; 10; 122; 10].
Proof.
  apply (cat_main_prints demo_open (fun _ w => w) demo_files (fun _ => fst) snd demo_read demo_write 20 demo_calls_ok [[97]; [98]; [99]] ([], []) demo_opens_ok);
    [done|intros f c _; apply demo_files_short].
Qed.

Example hcat_two_files :
  exists w', hcat_main demo_open (fun _ w => w) demo_read demo_write 20 [[49]; [98]; [97]] ([], []) = Ret (Done, w') /\
    w'.2 = [121; 10; 120; 10].
Proof.
  apply (hcat_main_prints demo_open (fun _ w => w) demo_files (fun _ => fst) snd demo_read demo_write 20 demo_calls_ok [49] 1 [[98]; [97]] ([], []) demo_opens_ok);
    [done|intros f c _; apply demo_files_short|by vm_compute|lia].
Qed.
End Mains.
