(* ===== verification/Login.v ===== *)
(** * The login program

    Models [src/add shell program/ssu_login.c] ([get_user_list], [func],
    [check_idpw]) and [gets] of [src/xv6-public/ulib.c].  The program reads
    [list.txt] into a local buffer whose initial contents are an argument, since
    the loop runs up to the first NUL of that buffer.  Standard input is a list
    of characters. *)
From S2P Require Export Prelude.

Module Login.
Local Open Scope Z_scope.

(** ** The user list *)

(** [userID\[16\]\[32\]] and [pwdID\[16\]\[32\]]. *)
Record users := mkUsers { userID : list (list Z); pwdID : list (list Z) }.
Definition no_users : users := mkUsers (replicate 16 (replicate 32 0)) (replicate 16 (replicate 32 0)).

(** [t\[a\]\[b\] = c]. *)
Definition put2 (t : list (list Z)) (a b : nat) (c : Z) : outcome (list (list Z)) :=
  r ← rd t a;
  r ← wr r b c;
  wr t a r.

(** The local variables of [get_user_list] and the tables. *)
Record pstate := mkP { p_users : users; p_flag : bool; p_a : nat; p_b : nat }.

Definition parse_char (c : Z) (s : pstate) : outcome pstate :=
  if decide (c = 32) then Ret (mkP (p_users s) false (p_a s) 0)
  else if decide (c = 10) then Ret (mkP (p_users s) true (S (p_a s)) 0)
  else
    let u := p_users s in
    if p_flag s then
      t ← put2 (userID u) (p_a s) (p_b s) c;
      Ret (mkP (mkUsers t (pwdID u)) true (p_a s) (S (p_b s)))
    else
      t ← put2 (pwdID u) (p_a s) (p_b s) c;
      Ret (mkP (mkUsers (userID u) t) false (p_a s) (S (p_b s))).

(** [for (j = 0; buf\[j\] != 0; j++)] over the cells of [buf]. *)
Fixpoint parse_buf (buf : list Z) (s : pstate) : outcome pstate :=
  match buf with
  | [] => Undef "get_user_list: read past buf"
  | c :: buf => if decide (c = 0) then Ret s else s ← parse_char c s; parse_buf buf s
  end.

Section Files.
Context {W : Type} (read : nat -> W -> option (list Z) * W).

(** The loop over at most [k] reads; [None] when the process exits. *)
Fixpoint list_loop (k : nat) (buf : list Z) (s : pstate) (w : W) : outcome (option users * W) :=
  match k with
  | O => Ret (Some (p_users s), w)
  | S k =>
      match read 1024 w with
      | (None, w) => Ret (None, w)
      | (Some [], w) => Ret (Some (p_users s), w)
      | (Some bytes, w) =>
          let buf := bytes ++ drop (length bytes) buf in
          s ← parse_buf buf s;
          list_loop k buf s w
      end
  end.

(** After [list.txt] has been opened; [stack] is the initial contents of [buf]. *)
Definition get_user_list (stack : list Z) (w : W) : outcome (option users * W) :=
  list_loop 30 stack (mkP no_users true 0 0) w.
End Files.

(** ** The check *)

(** The loop of [gets], with room for [k] more characters. *)
Fixpoint gets (k : nat) (inp : list Z) : list Z * list Z :=
  match k, inp with
  | S k, c :: inp =>
      if decide (c = 10 \/ c = 13) then ([c], inp)
      else let '(l, r) := gets k inp in (c :: l, r)
  | _, _ => ([], inp)
  end.

(** [func]: the string up to its newline, with a NUL. *)
Fixpoint func (buf : list Z) : list Z :=
  match buf with
  | [] => [0]
  | c :: buf => if decide (c = 10 \/ c = 0) then [0] else c :: func buf
  end.

(** [!strcmp(p, q)]. *)
Fixpoint streq (p q : list Z) : outcome bool :=
  match p, q with
  | a :: p, b :: q => if decide (a <> 0 /\ a = b) then streq p q else Ret (bool_decide (a = b))
  | _, _ => Undef "strcmp: no NUL"
  end.

Fixpoint check_loop (fuel i : nat) (u : users) (ID pwd : list Z) : outcome bool :=
  match fuel with
  | O => Hang "check_idpw"
  | S fuel =>
      id ← rd (userID u) i;
      c ← rd id 0;
      if decide (c = 0) then Ret false
      else
        e ← streq id ID;
        e ← (if e : bool then pw ← rd (pwdID u) i; streq pw pwd else Ret false);
        if e : bool then Ret true else check_loop fuel (S i) u ID pwd
  end.

(** The table has 16 rows, so 17 rounds are enough. *)
Definition check_idpw (u : users) (inp : list Z) : outcome (bool * list Z) :=
  let '(buf, inp) := gets 31 inp in
  let ID := func buf in
  let '(buf, inp) := gets 31 inp in
  let pwd := func buf in
  r ← check_loop 17 0 u ID pwd;
  Ret (r, inp).

(** ** Correctness *)

(** The strings in a table. *)
Definition row (s : list Z) : list Z := s ++ replicate (32 - length s) 0.
Definition table (us : list (list Z)) : list (list Z) := row <$> us.

Definition word (s : list Z) : Prop := Forall (fun c => c <> 0 /\ c <> 10 /\ c <> 32) s.

Lemma row_put s c : (length s < 32)%nat -> wr (row s) (length s) c = Ret (row (s ++ [c])).
Proof.
  intros H. unfold row. rewrite wr_lt by (rewrite length_app, length_replicate; lia). f_equal.
  rewrite length_app. cbn. replace (32 - length s)%nat with (S (32 - (length s + 1))) by lia. cbn [replicate].
  rewrite insert_app_r_alt, Nat.sub_diag by lia. cbn. by rewrite <- app_assoc.
Qed.

Lemma put2_table us a s c :
  us !! a = Some s -> (length s < 32)%nat -> put2 (table us) a (length s) c = Ret (table (<[a := s ++ [c]]> us)).
Proof.
  intros Ha Hs. unfold put2, table. rewrite (rd_lookup _ a (row s)) by (by rewrite list_lookup_fmap, Ha). cbn [mbind outcome_bind].
  rewrite row_put by done. cbn [mbind outcome_bind]. rewrite wr_lt by (rewrite length_fmap; by eapply lookup_lt_Some).
  by rewrite list_fmap_insert.
Qed.

(** A word is appended to the string of the current field. *)
Lemma parse_word cs buf us ps (flag : bool) a s :
  word cs -> (if flag then us else ps) !! a = Some s -> (length s + length cs <= 32)%nat ->
  parse_buf (cs ++ buf) (mkP (mkUsers (table us) (table ps)) flag a (length s)) =
  parse_buf buf (mkP (mkUsers (table (if flag then <[a := s ++ cs]> us else us)) (table (if flag then ps else <[a := s ++ cs]> ps)))
                   flag a (length s + length cs)).
Proof.
  intros Hw. revert us ps s. induction Hw as [|c cs (H0 & H10 & H32) _ IH]; intros us ps s Ha Hl.
  - rewrite app_nil_r, Nat.add_0_r. cbn [app]. destruct flag; by rewrite list_insert_id.
  - cbn [app parse_buf]. rewrite decide_False by done. unfold parse_char. rewrite !decide_False by done. cbn [length] in Hl.
    assert (Hlt : (a < length (if flag then us else ps))%nat) by (by eapply lookup_lt_Some).
    cbn [p_users p_flag p_a p_b userID pwdID]. destruct flag; rewrite (put2_table _ a s) by (done || lia); cbn [mbind outcome_bind];
      replace (S (length s)) with (length (s ++ [c])) by (rewrite length_app; cbn; lia);
      (rewrite IH; [|rewrite list_lookup_insert_eq by done; done|rewrite length_app; cbn; lia]);
      rewrite list_insert_insert_eq, <- app_assoc, length_app; cbn; do 2 f_equal; lia.
Qed.

(** A line of the file. *)
Definition line (e : list Z * list Z) : list Z := e.1 ++ 32 :: e.2 ++ [10].
Definition render (es : list (list Z * list Z)) : list Z := concat (line <$> es).
Record entry_ok (e : list Z * list Z) : Prop := {
  e_id : word e.1; e_pw : word e.2; e_ne : e.1 <> []; e_len1 : (length e.1 < 32)%nat; e_len2 : (length e.2 < 32)%nat
}.

Lemma parse_line e buf us ps a :
  entry_ok e -> us !! a = Some [] -> ps !! a = Some [] ->
  parse_buf (line e ++ buf) (mkP (mkUsers (table us) (table ps)) true a 0) =
  parse_buf buf (mkP (mkUsers (table (<[a := e.1]> us)) (table (<[a := e.2]> ps))) true (S a) 0).
Proof.
  intros [H1 H2 _ L1 L2] Hu Hp. unfold line. rewrite <- app_assoc. cbn [app]. rewrite <- app_assoc. cbn [app].
  rewrite (parse_word e.1 _ us ps true a []) by (done || cbn; lia). cbn [app parse_buf]. rewrite (decide_False (P := 32 = 0)) by done.
  unfold parse_char at 1. rewrite (decide_True (P := 32 = 32)) by done. cbn [mbind outcome_bind p_users p_a].
  rewrite (parse_word e.2 _ (<[a := e.1]> us) ps false a []) by (done || cbn; lia). cbn [app parse_buf]. rewrite (decide_False (P := 10 = 0)) by done.
  unfold parse_char at 1. rewrite decide_False, decide_True by done. done.
Qed.

(** The tables that hold the entries [es]. *)
Definition column (f : list Z * list Z -> list Z) (es : list (list Z * list Z)) : list (list Z) :=
  (f <$> es) ++ replicate (16 - length es) [].
Definition users_of (es : list (list Z * list Z)) : users := mkUsers (table (column fst es)) (table (column snd es)).

Lemma column_end f es : (length es < 16)%nat -> column f es !! length es = Some [].
Proof.
  intros H. unfold column. rewrite lookup_app_r by (rewrite length_fmap; lia). rewrite length_fmap, Nat.sub_diag.
  apply lookup_replicate. split; [done|lia].
Qed.

Lemma column_snoc f es e : (length es < 16)%nat -> <[length es := f e]> (column f es) = column f (es ++ [e]).
Proof.
  intros H. unfold column. rewrite length_app, fmap_app. cbn [length]. replace (16 - length es)%nat with (S (16 - (length es + 1))) by lia.
  cbn [replicate]. rewrite insert_app_r_alt by (rewrite length_fmap; lia). rewrite length_fmap, Nat.sub_diag. cbn. by rewrite <- app_assoc.
Qed.

Lemma parse_lines es0 es buf :
  Forall entry_ok es -> (length es0 + length es <= 16)%nat ->
  parse_buf (render es ++ buf) (mkP (users_of es0) true (length es0) 0) =
  parse_buf buf (mkP (users_of (es0 ++ es)) true (length es0 + length es) 0).
Proof.
  intros Hes. revert es0. induction Hes as [|e es He _ IH]; intros es0 Hl; [by rewrite app_nil_r, Nat.add_0_r|].
  cbn [length] in Hl. unfold render. cbn [fmap list_fmap concat]. fold (render es). rewrite <- app_assoc.
  unfold users_of at 1. rewrite parse_line by (done || apply column_end; lia). rewrite !column_snoc by lia. fold (users_of (es0 ++ [e])).
  replace (S (length es0)) with (length (es0 ++ [e])) by (rewrite length_app; cbn; lia).
  rewrite IH by (rewrite length_app; cbn; lia). rewrite <- app_assoc, length_app. cbn. do 2 f_equal. lia.
Qed.

Lemma streq_spec s x r1 r2 :
  Forall (fun c => c <> 0) s -> Forall (fun c => c <> 0) x -> streq (s ++ 0 :: r1) (x ++ 0 :: r2) = Ret (bool_decide (s = x)).
Proof.
  revert x. induction s as [|a s IH]; intros [|b x] Hs Hx; cbn [app streq].
  - done.
  - rewrite decide_False by naive_solver. apply Forall_cons in Hx as [Hb _]. f_equal. apply bool_decide_ext. naive_solver.
  - apply Forall_cons in Hs as [Ha _]. rewrite decide_False by naive_solver. f_equal. apply bool_decide_ext. naive_solver.
  - apply Forall_cons in Hs as [Ha Hs]. apply Forall_cons in Hx as [Hb Hx]. destruct (decide (a = b)) as [->|Hne].
    + rewrite decide_True by done. rewrite IH by done. f_equal. apply bool_decide_ext. naive_solver.
    + rewrite decide_False by tauto. f_equal. apply bool_decide_ext. naive_solver.
Qed.

Lemma row_zero s : (length s < 32)%nat -> exists r, row s = s ++ 0 :: r.
Proof. intros H. unfold row. replace (32 - length s)%nat with (S (32 - S (length s))) by lia. cbn. eauto. Qed.

Lemma word_nonzero s : word s -> Forall (fun c => c <> 0) s.
Proof. intros H. eapply Forall_impl; [exact H|]. naive_solver. Qed.

Lemma streq_row s x : (length s < 32)%nat -> word s -> Forall (fun c => c <> 0) x -> streq (row s) (x ++ [0]) = Ret (bool_decide (s = x)).
Proof. intros Hl Hw Hx. destruct (row_zero s Hl) as [r ->]. apply streq_spec; [by apply word_nonzero|done]. Qed.

Lemma table_lookup f es i e : es !! i = Some e -> table (column f es) !! i = Some (row (f e)).
Proof.
  intros H. unfold table, column. rewrite fmap_app, lookup_app_l by (rewrite !length_fmap; by eapply lookup_lt_Some).
  by rewrite !list_lookup_fmap, H.
Qed.

Lemma check_loop_spec es pre post fuel ID pwd :
  es = pre ++ post -> Forall entry_ok es -> (length es < 16)%nat -> (length post < fuel)%nat ->
  Forall (fun c => c <> 0) ID -> Forall (fun c => c <> 0) pwd ->
  check_loop fuel (length pre) (users_of es) (ID ++ [0]) (pwd ++ [0]) = Ret (bool_decide ((ID, pwd) ∈ post)).
Proof.
  revert pre fuel. induction post as [|e post IH]; intros pre fuel He Hok Hl Hf HI Hp; (destruct fuel as [|fuel]; [cbn in Hf; lia|]); cbn [check_loop users_of userID pwdID].
  - rewrite app_nil_r in He. subst pre. unfold table.
    rewrite (rd_lookup (row <$> column fst es) _ (row [])) by (rewrite list_lookup_fmap, column_end by done; done). rewrite bool_decide_false by apply not_elem_of_nil. done.
  - assert (Hlk : es !! length pre = Some e) by (rewrite He, lookup_app_r, Nat.sub_diag by lia; done).
    pose proof (proj1 (Forall_lookup _ _) Hok _ _ Hlk) as [Hid Hpw Hne L1 L2].
    rewrite (rd_lookup _ _ _ (table_lookup fst _ _ _ Hlk)), (rd_lookup _ _ _ (table_lookup snd _ _ _ Hlk)). cbn [mbind outcome_bind].
    destruct (row_zero e.1 L1) as [r Hr]. rewrite Hr at 1. pose proof (word_nonzero _ Hid) as Hnz.
    destruct (e.1) as [|c s] eqn:Es; [done|]. cbn [app rd lookup list_lookup mbind outcome_bind].
    rewrite decide_False by (apply Forall_cons in Hnz as [? _]; done).
    rewrite (streq_row (c :: s)), (streq_row e.2) by done. cbn [mbind outcome_bind].
    assert (Hrec : check_loop fuel (S (length pre)) (users_of es) (ID ++ [0]) (pwd ++ [0]) = Ret (bool_decide ((ID, pwd) ∈ post))).
    { replace (S (length pre)) with (length (pre ++ [e])) by (rewrite length_app; cbn; lia).
      apply IH; [by rewrite <- app_assoc|done|done|cbn in Hf; lia|done|done]. }
    fold (users_of es). destruct (decide (c :: s = ID)) as [<-|HID].
    + rewrite (bool_decide_true (c :: s = c :: s)) by done. cbn [mbind outcome_bind].
      destruct (decide (e.2 = pwd)) as [<-|Hpwd].
      * rewrite !bool_decide_true; [done| |done]. apply elem_of_cons. left. destruct e; cbn in *; congruence.
      * rewrite (bool_decide_false (e.2 = pwd)) by done. rewrite Hrec. f_equal. apply bool_decide_ext. rewrite elem_of_cons. destruct e; cbn in *; naive_solver.
    + rewrite (bool_decide_false (c :: s = ID)) by done. cbn [mbind outcome_bind]. rewrite Hrec. f_equal. apply bool_decide_ext. rewrite elem_of_cons. destruct e; cbn in *; naive_solver.
Qed.

(** An answer typed at a prompt. *)
Definition typed (s : list Z) : Prop := Forall (fun c => c <> 0 /\ c <> 10 /\ c <> 13) s.

Lemma gets_line k s rest : typed s -> (length s < k)%nat -> gets k (s ++ 10 :: rest) = (s ++ [10], rest).
Proof.
  intros Hs. revert k. induction Hs as [|c s (H0 & H10 & H13) _ IH]; intros [|k] Hk; try (cbn in Hk; lia); cbn [app gets]; [done|].
  rewrite decide_False by tauto. rewrite IH by (cbn in Hk; lia). done.
Qed.

Lemma func_line s : typed s -> func (s ++ [10]) = s ++ [0].
Proof. induction 1 as [|c s (H0 & H10 & H13) _ IH]; cbn [app func]; [done|]. rewrite decide_False by tauto. by rewrite IH. Qed.

(** Login accepts exactly the listed pairs: after the program has read a
    [list.txt] of at most 15 lines "name password" that fits its buffer, when
    the byte of the buffer after the file is NUL, the answers to the two prompts
    are accepted if and only if they are a name of the file and the password on
    the same line. *)
Theorem login_spec {W} (read : nat -> W -> option (list Z) * W) es stack w1 w2 w3 :
  Forall entry_ok es -> es <> [] -> (length es < 16)%nat ->
  read 1024%nat w1 = (Some (render es), w2) -> read 1024%nat w2 = (Some [], w3) ->
  stack !! length (render es) = Some 0 ->
  exists u, get_user_list read stack w1 = Ret (Some u, w3) /\
    forall name pw rest, typed name -> typed pw -> (length name < 31)%nat -> (length pw < 31)%nat ->
      check_idpw u (name ++ 10 :: pw ++ 10 :: rest) = Ret (bool_decide ((name, pw) ∈ es), rest).
Proof.
  intros Hes Hne Hl Hr1 Hr2 Hst. exists (users_of es). split.
  - unfold get_user_list. cbn [list_loop]. rewrite Hr1.
    destruct (render es) as [|c r] eqn:Er. { destruct es as [|e es]; [done|]. exfalso. unfold render, line in Er. cbn in Er. by destruct (e.1). }
    rewrite <- Er in *. clear c r Er. cbv zeta. assert (Hz : drop (length (render es)) stack = 0 :: drop (S (length (render es))) stack).
    { by apply drop_S. }
    rewrite Hz. pose proof (parse_lines [] es (0 :: drop (S (length (render es))) stack) Hes ltac:(cbn; lia)) as Hp.
    change (users_of []) with no_users in Hp. cbn [length app Nat.add] in Hp. rewrite Hp. cbn. by rewrite Hr2.
  - intros name pw rest Hn Hp Ln Lp. unfold check_idpw. rewrite gets_line by done. rewrite gets_line by done. rewrite !func_line by done.
    assert (forall s, typed s -> Forall (fun c => c <> 0) s) as Hnz by (intros s Hs; eapply Forall_impl; [exact Hs|]; naive_solver).
    rewrite (check_loop_spec es [] es); [done|done|done|done|lia|by apply Hnz|by apply Hnz].
Qed.

(** The file as a list of chunks. *)
Definition demo_read (n : nat) (w : list (list Z)) : option (list Z) * list (list Z) := (Some (hd [] w), tl w).
Definition demo_entries : list (list Z * list Z) := [([114; 111; 111; 116], [49; 50; 51; 52]); ([117; 115; 101; 114], [48; 48; 48; 48])].

Lemma login_spec_witness :
  exists u, get_user_list demo_read (replicate 1024 0) [render demo_entries] = Ret (Some u, []) /\
    forall name pw rest, typed name -> typed pw -> (length name < 31)%nat -> (length pw < 31)%nat ->
      check_idpw u (name ++ 10 :: pw ++ 10 :: rest) = Ret (bool_decide ((name, pw) ∈ demo_entries), rest).
Proof.
  apply (login_spec demo_read demo_entries (replicate 1024 0) [render demo_entries] [] []); [|done|cbn; lia|reflexivity..].
  constructor; [|constructor; [|constructor]]; (constructor; [repeat constructor; lia|repeat constructor; lia|done|cbn; lia|cbn; lia]).
Defined.

(** With 16 lines no row is left to end the search: a wrong password makes it
    read past the table. *)
Example login_full_table :
  check_idpw (mkUsers (replicate 16 (row [97])) (replicate 16 (row [98]))) [97; 10; 99; 10] = Undef "array read out of bounds".
Proof. vm_compute. reflexivity. Qed.

(** A file that fills the buffer, or whatever was on the stack behind it: the
    loop has no NUL to stop at. *)
Example login_unterminated :
  get_user_list demo_read (replicate 1024 10) [[97; 32; 98; 10]] = Undef "get_user_list: read past buf".
Proof. vm_compute. reflexivity. Qed.

End Login.
