(* ===== verification/VmDefs.v ===== *)
(** * Virtual memory: page tables

    Models [src/xv6-public/vm.c] on the memory of [Kalloc]: page directories and
    page tables are words of that memory, addressed by kernel virtual addresses,
    and pages come from [kalloc].  [kdata] is the linker's symbol [data].  The
    functions that load registers of the CPU ([seginit], [switchkvm], [switchuvm],
    [kvmalloc]) are in [Start]. *)
From S2P Require Export Kalloc.

Module Vm.
Import Spin Locked Kalloc.
Local Open Scope Z_scope.

(** ** [mmu.h] and [memlayout.h] *)

Definition EXTMEM : Z := 1048576.        (* 0x100000 *)
Definition DEVSPACE : Z := 4261412864.   (* 0xFE000000 *)
Definition KERNLINK : Z := KERNBASE + EXTMEM.

Definition PTE_P : Z := 1.
Definition PTE_W : Z := 2.
Definition PTE_U : Z := 4.
Definition NPDENTRIES : nat := 1024.

Definition P2V (a : Z) : Z := uint32 (a + KERNBASE).
Definition PDX (va : Z) : Z := Z.land (Z.shiftr va 22) 1023.
Definition PTX (va : Z) : Z := Z.land (Z.shiftr va 12) 1023.
Definition PGADDR (d t o : Z) : Z := uint32 (Z.lor (Z.lor (Z.shiftl d 22) (Z.shiftl t 12)) o).
Definition PGROUNDDOWN (a : Z) : Z := Z.land a (Z.lnot (PGSIZE - 1)).
Definition PTE_ADDR (pte : Z) : Z := Z.land pte (Z.lnot 4095).
Definition PTE_FLAGS (pte : Z) : Z := Z.land pte 4095.
Definition present (pte : Z) : bool := bool_decide (Z.land pte PTE_P <> 0).

(** ** Memory *)

(** [memset(v, 0, PGSIZE)] and [memmove(dst, src, PGSIZE)] of a page, by words. *)
Definition fill_zero (v : Z) (m : Z -> Z) : Z -> Z :=
  fun a => if decide (v <= a < v + PGSIZE) then 0 else m a.
Definition copy_page (dst src : Z) (m : Z -> Z) : Z -> Z :=
  fun a => if decide (dst <= a < dst + PGSIZE) then m (a - dst + src) else m a.

(** Bytes of the little-endian words. *)
Definition word_of (a : Z) : Z := a - a mod 4.
Definition load8 (m : Z -> Z) (a : Z) : Z := Z.land (Z.shiftr (m (word_of a)) (8 * (a mod 4))) 255.
Definition store8 (a c : Z) (m : Z -> Z) : Z -> Z :=
  store (word_of a) (m (word_of a) + (c mod 256 - load8 m a) * 2 ^ (8 * (a mod 4))) m.
(** [memmove] of the bytes [l] to [a]. *)
Fixpoint store_bytes (a : Z) (l : list Z) (m : Z -> Z) : Z -> Z :=
  match l with
  | [] => m
  | c :: l => store_bytes (a + 1) l (store8 a c m)
  end.

Section Vm.
Context (kend kdata : Z) (me : nat).

Definition rdw (a : Z) : km Z := d ← getd; mret (mem d a).
Definition updm (f : (Z -> Z) -> Z -> Z) : km unit := d ← getd; setd (mkKmem (use_lock d) (freelist d) (f (mem d))).
Definition wrw (a x : Z) : km unit := updm (store a x).

(** ** Walking and mapping *)

(** The address of the PTE, or 0. *)
Definition walkpgdir (pgdir va : Z) (alloc : bool) : km Z :=
  let pde := pgdir + 4 * PDX va in
  x ← rdw pde;
  if present x then mret (P2V (PTE_ADDR x) + 4 * PTX va)
  else if alloc then
    pgtab ← kalloc me;
    if decide (pgtab = 0) then mret 0
    else
      updm (fill_zero pgtab) ;;
      wrw pde (Z.lor (Z.lor (Z.lor (V2P pgtab) PTE_P) PTE_W) PTE_U) ;;
      mret (pgtab + 4 * PTX va)
  else mret 0.

Fixpoint mappages_loop (fuel : nat) (pgdir a last pa perm : Z) : km Z :=
  match fuel with
  | O => undef "out of fuel"
  | S fuel =>
      pte ← walkpgdir pgdir a true;
      if decide (pte = 0) then mret (-1)
      else
        x ← rdw pte;
        if present x then panic "remap"
        else
          wrw pte (Z.lor (Z.lor pa perm) PTE_P) ;;
          if decide (a = last) then mret 0
          else mappages_loop fuel pgdir (uint32 (a + PGSIZE)) last (uint32 (pa + PGSIZE)) perm
  end.

(** One round for every page from [a] to [last]. *)
Definition mappages (pgdir va size pa perm : Z) : km Z :=
  let a := PGROUNDDOWN va in
  let last := PGROUNDDOWN (uint32 (va + size - 1)) in
  mappages_loop (S (Z.to_nat (uint32 (last - a) / PGSIZE))) pgdir a last pa perm.

(** ** Freeing *)

Fixpoint deallocuvm_loop (fuel : nat) (pgdir a oldsz : Z) : km unit :=
  match fuel with
  | O => undef "out of fuel"
  | S fuel =>
      if decide (a < oldsz) then
        pte ← walkpgdir pgdir a false;
        a ← (if decide (pte = 0) then mret (uint32 (PGADDR (PDX a + 1) 0 0 - PGSIZE))
             else
               x ← rdw pte;
               if present x then
                 let pa := PTE_ADDR x in
                 if decide (pa = 0) then panic "kfree"
                 else kfree kend me (P2V pa) ;; wrw pte 0 ;; mret a
               else mret a);
        deallocuvm_loop fuel pgdir (uint32 (a + PGSIZE)) oldsz
      else mret tt
  end.

(** [a] grows by a page at least in every round. *)
Definition deallocuvm (pgdir oldsz newsz : Z) : km Z :=
  if decide (oldsz <= newsz) then mret oldsz
  else
    deallocuvm_loop (S (Z.to_nat (oldsz / PGSIZE + 1))) pgdir (uint32 (PGROUNDUP newsz)) oldsz ;;
    mret newsz.

(** [for(i = 0; i < NPDENTRIES; i++)] of [freevm], [k] rounds left. *)
Fixpoint freevm_loop (k : nat) (pgdir i : Z) : km unit :=
  match k with
  | O => mret tt
  | S k =>
      x ← rdw (pgdir + 4 * i);
      (if present x then kfree kend me (P2V (PTE_ADDR x)) else mret tt) ;;
      freevm_loop k pgdir (i + 1)
  end.
Definition freevm (pgdir : Z) : km unit :=
  if decide (pgdir = 0) then panic "freevm: no pgdir"
  else
    deallocuvm pgdir KERNBASE 0 ;;
    freevm_loop NPDENTRIES pgdir 0 ;;
    kfree kend me pgdir.

(** ** Kernel mappings *)

(** [kmap]: virtual address, physical start and end, permissions. *)
Definition kmap : list (Z * Z * Z * Z) :=
  [(KERNBASE, 0, EXTMEM, PTE_W);
   (KERNLINK, V2P KERNLINK, V2P kdata, 0);
   (kdata, V2P kdata, PHYSTOP, PTE_W);
   (DEVSPACE, DEVSPACE, 0, PTE_W)].

Fixpoint map_kernel (l : list (Z * Z * Z * Z)) (pgdir : Z) : km Z :=
  match l with
  | [] => mret pgdir
  | (virt, phys_start, phys_end, perm) :: l =>
      r ← mappages pgdir virt (uint32 (phys_end - phys_start)) phys_start perm;
      if decide (r < 0) then freevm pgdir ;; mret 0
      else map_kernel l pgdir
  end.

Definition setupkvm : km Z :=
  pgdir ← kalloc me;
  if decide (pgdir = 0) then mret 0
  else
    updm (fill_zero pgdir) ;;
    if decide (DEVSPACE < P2V PHYSTOP) then panic "PHYSTOP too high"
    else map_kernel kmap pgdir.

(** ** User memory *)

Definition inituvm (pgdir : Z) (init : list Z) (sz : Z) : km unit :=
  if decide (PGSIZE <= sz) then panic "inituvm: more than a page"
  else
    mem ← kalloc me;
    if decide (mem = 0) then undef "inituvm: no memory"
    else
      updm (fill_zero mem) ;;
      mappages pgdir 0 PGSIZE (V2P mem) (Z.lor PTE_W PTE_U) ;;
      updm (store_bytes mem (take (Z.to_nat sz) init)).

(** [readi(ip, dst, off, n)]: its result and the bytes stored at [dst]. *)
Fixpoint loaduvm_loop (readi : Z -> Z -> Z * list Z) (fuel : nat) (pgdir addr offset sz i : Z) : km Z :=
  match fuel with
  | O => undef "out of fuel"
  | S fuel =>
      if decide (i < sz) then
        pte ← walkpgdir pgdir (uint32 (addr + i)) false;
        if decide (pte = 0) then panic "loaduvm: address should exist"
        else
          x ← rdw pte;
          let pa := PTE_ADDR x in
          let n := if decide (sz - i < PGSIZE) then sz - i else PGSIZE in
          let '(r, bytes) := readi (uint32 (offset + i)) n in
          updm (store_bytes (P2V pa) bytes) ;;
          if decide (r <> n) then mret (-1)
          else loaduvm_loop readi fuel pgdir addr offset sz (uint32 (i + PGSIZE))
      else mret 0
  end.
Definition loaduvm (readi : Z -> Z -> Z * list Z) (pgdir addr offset sz : Z) : km Z :=
  if decide (addr mod PGSIZE <> 0) then panic "loaduvm: addr must be page aligned"
  else loaduvm_loop readi (S (Z.to_nat (sz / PGSIZE + 1))) pgdir addr offset sz 0.

Fixpoint allocuvm_loop (fuel : nat) (pgdir a oldsz newsz : Z) : km Z :=
  match fuel with
  | O => undef "out of fuel"
  | S fuel =>
      if decide (a < newsz) then
        mem ← kalloc me;
        if decide (mem = 0) then deallocuvm pgdir newsz oldsz ;; mret 0
        else
          updm (fill_zero mem) ;;
          r ← mappages pgdir a PGSIZE (V2P mem) (Z.lor PTE_W PTE_U);
          if decide (r < 0) then deallocuvm pgdir newsz oldsz ;; kfree kend me mem ;; mret 0
          else allocuvm_loop fuel pgdir (uint32 (a + PGSIZE)) oldsz newsz
      else mret newsz
  end.
Definition allocuvm (pgdir oldsz newsz : Z) : km Z :=
  if decide (KERNBASE <= newsz) then mret 0
  else if decide (newsz < oldsz) then mret oldsz
  else allocuvm_loop (S (Z.to_nat (newsz / PGSIZE + 1))) pgdir (uint32 (PGROUNDUP oldsz)) oldsz newsz.

Definition clearpteu (pgdir uva : Z) : km unit :=
  pte ← walkpgdir pgdir uva false;
  if decide (pte = 0) then panic "clearpteu"
  else x ← rdw pte; wrw pte (Z.land x (Z.lnot PTE_U)).

Fixpoint copyuvm_loop (fuel : nat) (pgdir d sz i : Z) : km Z :=
  match fuel with
  | O => undef "out of fuel"
  | S fuel =>
      if decide (i < sz) then
        pte ← walkpgdir pgdir i false;
        if decide (pte = 0) then panic "copyuvm: pte should exist"
        else
          x ← rdw pte;
          if negb (present x) then panic "copyuvm: page not present"
          else
            let pa := PTE_ADDR x in
            let flags := PTE_FLAGS x in
            mem ← kalloc me;
            if decide (mem = 0) then freevm d ;; mret 0
            else
              updm (copy_page mem (P2V pa)) ;;
              r ← mappages d i PGSIZE (V2P mem) flags;
              if decide (r < 0) then kfree kend me mem ;; freevm d ;; mret 0
              else copyuvm_loop fuel pgdir d sz (uint32 (i + PGSIZE))
      else mret d
  end.
Definition copyuvm (pgdir sz : Z) : km Z :=
  d ← setupkvm;
  if decide (d = 0) then mret 0
  else copyuvm_loop (S (Z.to_nat (sz / PGSIZE + 1))) pgdir d sz 0.

(** [*pte] is read without a test that [walkpgdir] found a page table. *)
Definition uva2ka (pgdir uva : Z) : km Z :=
  pte ← walkpgdir pgdir uva false;
  if decide (pte = 0) then undef "uva2ka: null pointer"
  else
    x ← rdw pte;
    if negb (present x) then mret 0
    else if decide (Z.land x PTE_U = 0) then mret 0
    else mret (P2V (PTE_ADDR x)).

(** Each round copies a byte at least. *)
Fixpoint copyout_loop (fuel : nat) (pgdir va : Z) (buf : list Z) : km Z :=
  match fuel with
  | O => undef "out of fuel"
  | S fuel =>
      match buf with
      | [] => mret 0
      | _ =>
          let va0 := PGROUNDDOWN va in
          pa0 ← uva2ka pgdir va0;
          if decide (pa0 = 0) then mret (-1)
          else
            let n := Z.min (PGSIZE - (va - va0)) (Z.of_nat (length buf)) in
            updm (store_bytes (pa0 + (va - va0)) (take (Z.to_nat n) buf)) ;;
            copyout_loop fuel pgdir (uint32 (va0 + PGSIZE)) (drop (Z.to_nat n) buf)
      end
  end.
Definition copyout (pgdir va : Z) (p : list Z) : km Z := copyout_loop (S (length p)) pgdir va p.

End Vm.
End Vm.
