(* ===== verification/Machine.v ===== *)
(** * Finding the processors, and the clock

    Models [src/xv6-public/mp.c] with the structures of [mp.h], and the
    real-time clock of [src/xv6-public/lapic.c].  The memory that the BIOS has
    filled is a function from kernel addresses to bytes; the registers of the
    clock are a function of the number of the read and the register. *)
From S2P Require Export VmDefs.

Module Machine.
Import Kalloc Vm.
Local Open Scope Z_scope.

Section Mp.
Context (mem : Z -> Z).

Definition word16 (a : Z) : Z := mem a + 256 * mem (a + 1).
Definition word32 (a : Z) : Z := word16 a + 65536 * word16 (a + 2).

(** ** [mp.h] *)

Definition NCPU : nat := 8.
Definition MPPROC : Z := 0.
Definition MPBUS : Z := 1.
Definition MPIOAPIC : Z := 2.
Definition MPIOINTR : Z := 3.
Definition MPLINTR : Z := 4.
(** The sizes of the structures, and the offsets of the fields used. *)
Definition mp_size : Z := 16.
Definition mp_physaddr (mp : Z) : Z := word32 (mp + 4).
Definition mp_imcrp (mp : Z) : Z := mem (mp + 12).
Definition mpconf_size : Z := 44.
Definition conf_length (conf : Z) : Z := word16 (conf + 4).
Definition conf_version (conf : Z) : Z := mem (conf + 6).
Definition conf_lapicaddr (conf : Z) : Z := word32 (conf + 36).
Definition mpproc_size : Z := 20.
Definition mpioapic_size : Z := 8.

(** ** Searching *)

Fixpoint sum_loop (n : nat) (a : Z) : Z :=
  match n with
  | O => 0
  | S n => mem a + sum_loop n (a + 1)
  end.
Definition sum (addr len : Z) : Z := sum_loop (Z.to_nat len) addr mod 256.

Fixpoint same (a : Z) (s : list Z) : bool :=
  match s with
  | [] => true
  | c :: s => bool_decide (mem a = c) && same (a + 1) s
  end.

(** The loop of [mpsearch1], [n] structures left. *)
Fixpoint mpsearch1_loop (n : nat) (p : Z) : option Z :=
  match n with
  | O => None
  | S n => if (same p [95; 77; 80; 95] && bool_decide (sum p mp_size = 0))%bool then Some p else mpsearch1_loop n (p + mp_size)
  end.
Definition mpsearch1 (a len : Z) : option Z := mpsearch1_loop (Z.to_nat ((len + mp_size - 1) / mp_size)) (P2V a).

Definition mpsearch : option Z :=
  let bda := P2V 1024 in
  let p := Z.shiftl (Z.lor (Z.shiftl (mem (bda + 15)) 8) (mem (bda + 14))) 4 in
  match
    (if decide (p <> 0) then mpsearch1 p 1024
     else
       let p := Z.lor (Z.shiftl (mem (bda + 20)) 8) (mem (bda + 19)) * 1024 in
       mpsearch1 (uint32 (p - 1024)) 1024)
  with
  | Some mp => Some mp
  | None => mpsearch1 983040 65536
  end.

(** The structure and the configuration table. *)
Definition mpconfig : option (Z * Z) :=
  match mpsearch with
  | None => None
  | Some mp =>
      if decide (mp_physaddr mp = 0) then None
      else
        let conf := P2V (mp_physaddr mp) in
        if negb (same conf [80; 67; 77; 80]) then None
        else if decide (conf_version conf <> 1 /\ conf_version conf <> 4) then None
        else if decide (sum conf (conf_length conf) <> 0) then None
        else Some (mp, conf)
  end.

(** ** [mpinit] *)

(** The globals it sets: the [apicid] of each of the [ncpu] entries of [cpus],
    [ioapicid] and [lapic]. *)
Record machine := mkMachine { cpus : list Z; ioapicid : Z; lapic : Z }.

(** The loop over the entries.  The [break] of the default case leaves the
    [switch], not the loop, and [p] does not move. *)
Fixpoint mpinit_loop (fuel : nat) (p e : Z) (m : machine) : outcome machine :=
  match fuel with
  | O => Hang "fuel"
  | S fuel =>
      if decide (e <= p) then Ret m
      else if decide (mem p = MPPROC) then
        let m := if decide (length (cpus m) < NCPU)%nat then mkMachine (cpus m ++ [mem (p + 1)]) (ioapicid m) (lapic m) else m in
        mpinit_loop fuel (p + mpproc_size) e m
      else if decide (mem p = MPIOAPIC) then mpinit_loop fuel (p + mpioapic_size) e (mkMachine (cpus m) (mem (p + 1)) (lapic m))
      else if decide (mem p = MPBUS \/ mem p = MPIOINTR \/ mem p = MPLINTR) then mpinit_loop fuel (p + 8) e m
      else Hang "mpinit"
  end.

(** The machine, and whether the interrupt mode register is written. *)
Definition mpinit : outcome (machine * bool) :=
  match mpconfig with
  | None => Panic "Expect to run on an SMP"
  | Some (mp, conf) =>
      m ← mpinit_loop (S (Z.to_nat (conf_length conf))) (conf + mpconf_size) (conf + conf_length conf) (mkMachine [] 0 (conf_lapicaddr conf));
      Ret (m, bool_decide (mp_imcrp mp <> 0))
  end.
End Mp.

(** ** The clock *)

Record rtcdate := mkDate { second : Z; minute : Z; hour : Z; day : Z; month : Z; year : Z }.
Global Instance rtcdate_eq_dec : EqDecision rtcdate.
Proof. solve_decision. Defined.

Section Cmos.
(** The value of a register at the n-th read. *)
Context (cmos : nat -> Z -> Z).

Definition fill_rtcdate (n : nat) : rtcdate :=
  mkDate (cmos n 0) (cmos (n + 1) 2) (cmos (n + 2) 4) (cmos (n + 3) 7) (cmos (n + 4) 8) (cmos (n + 5) 9).

(** The loop that waits for two equal readings; [n] reads have been made. *)
Fixpoint read_twice (fuel n : nat) : outcome rtcdate :=
  match fuel with
  | O => Hang "cmostime"
  | S fuel =>
      let t1 := fill_rtcdate n in
      if decide (Z.land (cmos (n + 6) 10) 128 <> 0) then read_twice fuel (n + 7)
      else
        let t2 := fill_rtcdate (n + 7) in
        if decide (t1 = t2) then Ret t1 else read_twice fuel (n + 13)
  end.

Definition conv (x : Z) : Z := Z.shiftr x 4 * 10 + Z.land x 15.

Definition cmostime (fuel : nat) : outcome rtcdate :=
  let bcd := bool_decide (Z.land (cmos 0 11) 4 = 0) in
  t ← read_twice fuel 1;
  let t := if bcd then mkDate (conv (second t)) (conv (minute t)) (conv (hour t)) (conv (day t)) (conv (month t)) (conv (year t)) else t in
  Ret (mkDate (second t) (minute t) (hour t) (day t) (month t) (year t + 2000)).
End Cmos.

(** ** Theorems *)

Section Thms.
Context (mem : Z -> Z).

Definition is_mp (p : Z) : Prop := same mem p [95; 77; 80; 95] = true /\ sum mem p mp_size = 0.

Lemma mpsearch1_loop_spec n p :
  match mpsearch1_loop mem n p with
  | Some q => exists k, 0 <= k < Z.of_nat n /\ q = p + 16 * k /\ is_mp q /\ forall j, 0 <= j < k -> ~ is_mp (p + 16 * j)
  | None => forall j, 0 <= j < Z.of_nat n -> ~ is_mp (p + 16 * j)
  end.
Proof.
  revert p. induction n as [|n IH]; intros p; cbn [mpsearch1_loop]; [lia|].
  destruct (same mem p _ && _)%bool eqn:E.
  - apply andb_true_iff in E as [E1 E2%bool_decide_eq_true]. exists 0. split; [lia|]. split; [lia|]. split; [done|lia].
  - assert (Hp : ~ is_mp p) by (intros [H1 H2]; rewrite H1, bool_decide_true in E by done; done). specialize (IH (p + 16)). unfold mp_size.
    assert (Hs : forall j, 0 <= j -> j = 0 \/ (0 <= j - 1 /\ p + 16 * j = p + 16 + 16 * (j - 1))) by lia.
    destruct (mpsearch1_loop mem n (p + 16)) as [q|].
    + destruct IH as (k & Hk & -> & Hq & Hn). exists (k + 1). split; [lia|]. split; [lia|]. split; [done|]. intros j Hj.
      destruct (Hs j ltac:(lia)) as [->|[H0 ->]]; [by rewrite Z.mul_0_r, Z.add_0_r|]. apply Hn. lia.
    + intros j Hj. destruct (Hs j ltac:(lia)) as [->|[H0 ->]]; [by rewrite Z.mul_0_r, Z.add_0_r|]. apply IH. lia.
Qed.

(** The first structure with signature and checksum among the 16-byte units. *)
Theorem mpsearch1_spec a len : 0 <= len ->
  match mpsearch1 mem a len with
  | Some q => exists k, 0 <= k /\ 16 * k < len /\ q = P2V a + 16 * k /\ is_mp q /\ forall j, 0 <= j < k -> ~ is_mp (P2V a + 16 * j)
  | None => forall j, 0 <= j -> 16 * j < len -> ~ is_mp (P2V a + 16 * j)
  end.
Proof.
  intros Hl. unfold mpsearch1, mp_size. pose proof (mpsearch1_loop_spec (Z.to_nat ((len + 16 - 1) / 16)) (P2V a)) as H.
  assert (Hn : Z.of_nat (Z.to_nat ((len + 16 - 1) / 16)) = (len + 15) / 16) by (rewrite Z2Nat.id; [f_equal; lia|Z.div_mod_to_equations; lia]). rewrite Hn in H.
  destruct (mpsearch1_loop mem _ _) as [q|].
  - destruct H as (k & Hk & Hq & Hm & Hj). exists k. split; [lia|]. split; [Z.div_mod_to_equations; lia|]. done.
  - intros j H0 Hj. apply H. split; [done|]. Z.div_mod_to_equations. lia.
Qed.

(** The entries of a configuration table, and the memory that holds them. *)
Inductive mpentry := EProc (apicid : Z) | EIoapic (apicno : Z) | EOther (type : Z).
Fixpoint entries_at (p : Z) (es : list mpentry) (e : Z) : Prop :=
  match es with
  | [] => p = e
  | EProc id :: es => mem p = MPPROC /\ mem (p + 1) = id /\ entries_at (p + mpproc_size) es e
  | EIoapic id :: es => mem p = MPIOAPIC /\ mem (p + 1) = id /\ entries_at (p + mpioapic_size) es e
  | EOther t :: es => mem p = t /\ (t = MPBUS \/ t = MPIOINTR \/ t = MPLINTR) /\ entries_at (p + 8) es e
  end.

Definition apicids (es : list mpentry) : list Z := es ≫= (fun x => match x with EProc id => [id] | _ => [] end).
Definition last_ioapic (d : Z) (es : list mpentry) : Z := foldl (fun d x => match x with EIoapic id => id | _ => d end) d es.

Lemma entries_bound es : forall p e, entries_at p es e -> p + 8 * Z.of_nat (length es) <= e.
Proof.
  unfold mpproc_size, mpioapic_size. induction es as [|[id|id|t] es IH]; intros p e; cbn [entries_at length]; [lia| | |]; intros (_ & _ & H%IH); unfold mpproc_size, mpioapic_size in H; lia.
Qed.

(** The loop over entries up to [q]. *)
Lemma mpinit_loop_entries es : forall fuel p q e m, entries_at p es q -> q <= e ->
  mpinit_loop mem (length es + fuel) p e m =
  mpinit_loop mem fuel q e (mkMachine (cpus m ++ take (NCPU - length (cpus m)) (apicids es)) (last_ioapic (ioapicid m) es) (lapic m)).
Proof.
  induction es as [|x es IH]; intros fuel p q e m He Hq; cbn [entries_at length Nat.add mpinit_loop] in *.
  { subst q. cbn. rewrite take_nil, app_nil_r. by destruct m. }
  assert (Hlt : p < e) by (destruct x as [id|id|t]; destruct He as (_ & _ & H%entries_bound); unfold mpproc_size, mpioapic_size in H; lia).
  rewrite (decide_False (P := e <= p)) by lia. destruct x as [id|id|t].
  - destruct He as (H1 & H2 & H3). rewrite decide_True by done. rewrite (IH _ _ q) by done. f_equal. rewrite H2. cbn [apicids mbind list_bind app last_ioapic foldl].
    case_decide as Hn; cbn [cpus ioapicid lapic]; f_equal.
    + rewrite <- app_assoc. f_equal. rewrite length_app. cbn [length app]. replace (NCPU - length (cpus m))%nat with (S (NCPU - (length (cpus m) + 1))) by lia. done.
    + replace (NCPU - length (cpus m))%nat with 0%nat by lia. done.
  - destruct He as (H1 & H2 & H3). rewrite decide_False by (rewrite H1; done). rewrite decide_True by done. rewrite (IH _ _ q) by done. by rewrite H2.
  - destruct He as (H1 & H2 & H3). rewrite decide_False by (rewrite H1; unfold MPPROC, MPBUS, MPIOINTR, MPLINTR in *; lia).
    rewrite decide_False by (rewrite H1; unfold MPIOAPIC, MPBUS, MPIOINTR, MPLINTR in *; lia). rewrite decide_True by (by rewrite H1). by rewrite (IH _ _ q) by done.
Qed.

(** [mpinit] finds the processors of a well-formed table, no more than [NCPU]. *)
Theorem mpinit_spec mp conf es :
  mpconfig mem = Some (mp, conf) -> entries_at (conf + mpconf_size) es (conf + conf_length mem conf) ->
  mpinit mem = Ret (mkMachine (take NCPU (apicids es)) (last_ioapic 0 es) (conf_lapicaddr mem conf), bool_decide (mp_imcrp mem mp <> 0)).
Proof.
  intros Hc He. unfold mpinit. rewrite Hc. pose proof (entries_bound _ _ _ He) as Hb. unfold mpconf_size in *.
  replace (S (Z.to_nat (conf_length mem conf))) with (length es + S (Z.to_nat (conf_length mem conf) - length es))%nat by lia.
  rewrite (mpinit_loop_entries es _ _ (conf + conf_length mem conf)) by (done || lia). cbn [mpinit_loop]. by rewrite decide_True by lia.
Qed.

(** An entry of unknown type makes [mpinit] loop forever instead of panicking. *)
Theorem mpinit_unknown_entry mp conf es q :
  mpconfig mem = Some (mp, conf) -> entries_at (conf + mpconf_size) es q -> q < conf + conf_length mem conf -> (mem q < 0 \/ 4 < mem q) ->
  mpinit mem = Hang "mpinit".
Proof.
  intros Hc He Hq Hm. unfold mpinit. rewrite Hc. pose proof (entries_bound _ _ _ He) as Hb. unfold mpconf_size in *.
  replace (S (Z.to_nat (conf_length mem conf))) with (length es + S (Z.to_nat (conf_length mem conf) - length es))%nat by lia.
  rewrite (mpinit_loop_entries es _ _ q) by (done || lia). cbn [mpinit_loop]. rewrite !decide_False; [done|..]; unfold MPPROC, MPBUS, MPIOAPIC, MPIOINTR, MPLINTR; lia.
Qed.
End Thms.

(** *** A machine with two processors *)

Definition table_bytes : list Z :=
  [80; 67; 77; 80; 92; 0; 4; 134] ++ replicate 28 0 ++ [0; 0; 224; 254] ++ replicate 4 0 ++
  [0; 0] ++ replicate 18 0 ++ [0; 1] ++ replicate 18 0 ++ [2; 9] ++ replicate 6 0.
Definition bios_bytes : list Z := [95; 77; 80; 95; 16; 0; 15; 0; 1; 4; 129; 0; 0; 0; 0; 0] ++ table_bytes.
(** The structure is at the start of the BIOS, the table after it. *)
Definition bios (a : Z) : Z := default 0 (if decide (P2V 983040 <= a) then bios_bytes !! Z.to_nat (a - P2V 983040) else None).

Example two_processors : mpinit bios = Ret (mkMachine [0; 1] 9 4276092928, false).
Proof. vm_compute. reflexivity. Qed.

(** ** The clock *)

(** Two decimal digits, one in each half of the byte. *)
Theorem conv_bcd tens ones : 0 <= tens < 10 -> 0 <= ones < 10 -> conv (16 * tens + ones) = 10 * tens + ones.
Proof.
  intros Ht Ho. unfold conv. rewrite Z.shiftr_div_pow2 by lia. change 15 with (Z.ones 4). rewrite Z.land_ones by lia. Z.div_mod_to_equations. lia.
Qed.

(** The time returned was read twice, with no update in between. *)
Lemma read_twice_spec cmos fuel n t : read_twice cmos fuel n = Ret t ->
  exists k, t = fill_rtcdate cmos k /\ t = fill_rtcdate cmos (k + 7) /\ Z.land (cmos (k + 6)%nat 10) 128 = 0.
Proof.
  revert n. induction fuel as [|fuel IH]; intros n; cbn [read_twice]; [done|]. destruct (decide (Z.land (cmos (n + 6)%nat 10) 128 <> 0)) as [|Hu]; [apply IH|]. destruct (decide (fill_rtcdate cmos n = _)) as [Ht|]; [|apply IH].
  intros [= <-]. exists n. split; [done|]. split; [done|]. lia.
Qed.

(** When the registers do not change, [cmostime] gives the time they show in
    decimal digits. *)
Theorem cmostime_stable cmos (reg : Z -> Z) fuel : (forall n r, cmos n r = reg r) -> Z.land (reg 10) 128 = 0 -> Z.land (reg 11) 4 = 0 -> (0 < fuel)%nat ->
  cmostime cmos fuel = Ret (mkDate (conv (reg 0)) (conv (reg 2)) (conv (reg 4)) (conv (reg 7)) (conv (reg 8)) (conv (reg 9) + 2000)).
Proof.
  intros Hr Hu Hb Hf. destruct fuel as [|fuel]; [lia|]. unfold cmostime. cbn [read_twice]. unfold fill_rtcdate. rewrite !Hr.
  rewrite (decide_False (P := Z.land (reg 10) 128 <> 0)) by auto. rewrite decide_True by done. cbn. by rewrite bool_decide_true.
Qed.
End Machine.
