(* ===== verification/VmBase.v ===== *)
(** * Address spaces

    The bits of page table entries, and what the words of memory that a page
    directory and its page tables occupy mean: a map from page numbers to
    entries. *)
From S2P Require Export VmDefs.

Module VmBase.
Import Spin Locked Kalloc Vm.
Local Open Scope Z_scope.

(** ** Bits *)

Lemma land_align a : Z.land a (Z.lnot 4095) = a / 4096 * 4096.
Proof.
  rewrite <- Z.ldiff_land. change 4095 with (Z.ones 12).
  rewrite Z.ldiff_ones_r, Z.shiftl_mul_pow2, Z.shiftr_div_pow2 by lia. done.
Qed.

Lemma lor_aligned x f : x mod 4096 = 0 -> 0 <= f < 4096 -> Z.lor x f = x + f.
Proof.
  intros Hx Hf. assert (Z.land x f = 0) as H0.
  { apply Z.bits_inj'. intros n Hn. rewrite Z.land_spec, Z.bits_0. destruct (decide (n < 12)).
    - replace x with (x / 4096 * 2 ^ 12) by (pose proof (Z.div_mod x 4096 ltac:(lia)); change (2 ^ 12) with 4096; lia).
      by rewrite Z.mul_pow2_bits_low.
    - rewrite <- (Z.mod_small f (2 ^ 12)) by (change (2 ^ 12) with 4096; lia). rewrite Z.mod_pow2_bits_high by lia. apply andb_false_r. }
  pose proof (Z.add_lor_land x f). lia.
Qed.

Lemma PTE_ADDR_add x f : x mod 4096 = 0 -> 0 <= f < 4096 -> PTE_ADDR (x + f) = x.
Proof. intros. unfold PTE_ADDR. rewrite land_align. Z.div_mod_to_equations. lia. Qed.

Lemma PTE_FLAGS_add x f : x mod 4096 = 0 -> 0 <= f < 4096 -> PTE_FLAGS (x + f) = f.
Proof. intros. unfold PTE_FLAGS. change 4095 with (Z.ones 12). rewrite Z.land_ones by lia. change (2 ^ 12) with 4096. Z.div_mod_to_equations. lia. Qed.

Lemma present_odd x : present x = bool_decide (x mod 2 = 1).
Proof.
  unfold present, PTE_P. replace (Z.land x 1) with (x mod 2) by (symmetry; apply (Z.land_ones x 1); lia).
  apply bool_decide_ext. pose proof (Z.mod_pos_bound x 2 ltac:(lia)). lia.
Qed.

Lemma present_0 : present 0 = false.
Proof. done. Qed.

(** The page number of a virtual address and its two indices. *)
Lemma PDX_page n : 0 <= n < 1048576 -> PDX (4096 * n) = n / 1024.
Proof.
  intros Hn. unfold PDX. rewrite Z.shiftr_div_pow2 by lia. change 1023 with (Z.ones 10). rewrite Z.land_ones by lia.
  change (2 ^ 22) with 4194304. change (2 ^ 10) with 1024. Z.div_mod_to_equations. lia.
Qed.

Lemma PTX_page n : 0 <= n < 1048576 -> PTX (4096 * n) = n mod 1024.
Proof.
  intros Hn. unfold PTX. rewrite Z.shiftr_div_pow2 by lia. change 1023 with (Z.ones 10). rewrite Z.land_ones by lia.
  change (2 ^ 12) with 4096. change (2 ^ 10) with 1024. Z.div_mod_to_equations. lia.
Qed.

Lemma PGROUNDDOWN_spec a : PGROUNDDOWN a = 4096 * (a / 4096).
Proof. unfold PGROUNDDOWN, PGSIZE. change (4096 - 1) with 4095. rewrite land_align. lia. Qed.

Lemma PGADDR_dir d : 0 <= d < 1024 -> PGADDR d 0 0 = 4194304 * d.
Proof.
  intros Hd. unfold PGADDR. rewrite Z.shiftl_0_l, !Z.lor_0_r, Z.shiftl_mul_pow2 by lia. change (2 ^ 22) with 4194304.
  rewrite uint32_id; lia.
Qed.

Section Space.
Context (kend : Z) (kend_ok : KERNBASE < kend).

Lemma page_align v : page_ok kend v -> V2P v = v - KERNBASE /\ (v - KERNBASE) mod 4096 = 0 /\ 0 < v - KERNBASE < PHYSTOP.
Proof using kend_ok.
  intros [Hm Hr]. unfold PGSIZE, KERNBASE, PHYSTOP in *. split_and!; [|Z.div_mod_to_equations; lia|lia|lia].
  unfold V2P, KERNBASE. apply uint32_id. lia.
Qed.

Lemma P2V_V2P v : page_ok kend v -> P2V (V2P v) = v.
Proof using kend_ok.
  intros H. destruct (page_align v H) as (-> & _ & Hr). unfold P2V. unfold KERNBASE, PHYSTOP in *. rewrite uint32_id; lia.
Qed.

(** The entry that maps the page [v] with [f]; the page an entry maps. *)
Definition pte_of (v f : Z) : Z := V2P v + f.
Definition frame (p : Z) : Z := P2V (PTE_ADDR p).

Lemma frame_pte_of v f : page_ok kend v -> 0 <= f < 4096 -> frame (pte_of v f) = v.
Proof using kend_ok.
  intros Hv Hf. unfold frame, pte_of. destruct (page_align v Hv) as (E & Hm & _).
  rewrite PTE_ADDR_add; [by apply P2V_V2P|by rewrite E|done].
Qed.

Lemma present_pte_of v f : page_ok kend v -> present (pte_of v f) = bool_decide (f mod 2 = 1).
Proof using kend_ok.
  intros Hv. rewrite present_odd. apply bool_decide_ext. unfold pte_of. destruct (page_align v Hv) as (-> & Hm & _).
  assert ((v - KERNBASE + f) mod 2 = f mod 2) as ->; [|done]. Z.div_mod_to_equations. lia.
Qed.

(** ** Words of pages *)

Lemma word_ne v w i j :
  page_ok kend v -> page_ok kend w -> 0 <= i < 1024 -> 0 <= j < 1024 -> v <> w \/ i <> j -> v + 4 * i <> w + 4 * j.
Proof.
  intros [Hv _] [Hw _] Hi Hj Hne He. unfold PGSIZE in *. assert (v = w) as -> by (Z.div_mod_to_equations; lia). lia.
Qed.

(** [a] is in the page [v]. *)
Definition in_page (a v : Z) : Prop := v <= a < v + PGSIZE.

Lemma in_page_word v i : 0 <= i < 1024 -> in_page (v + 4 * i) v.
Proof. unfold in_page, PGSIZE. lia. Qed.

Lemma in_page_inj a v w : page_ok kend v -> page_ok kend w -> in_page a v -> in_page a w -> v = w.
Proof. intros [Hv _] [Hw _] H1 H2. unfold in_page, PGSIZE in *. Z.div_mod_to_equations. lia. Qed.

(** [m'] agrees with [m] on the pages in [K]. *)
Definition keeps (K : Z -> Prop) (m m' : Z -> Z) : Prop := forall v a, K v -> in_page a v -> m' a = m a.

Lemma keeps_refl K m : keeps K m m.
Proof. done. Qed.
Lemma keeps_trans K m1 m2 m3 : keeps K m1 m2 -> keeps K m2 m3 -> keeps K m1 m3.
Proof. intros H1 H2 v a Hv Ha. rewrite (H2 v), (H1 v); done. Qed.
Lemma keeps_mono (K K' : Z -> Prop) m m' : (forall v, K' v -> K v) -> keeps K m m' -> keeps K' m m'.
Proof. intros HK H v a Hv Ha. eapply H; eauto. Qed.

Lemma keeps_store (K : Z -> Prop) v i x m :
  page_ok kend v -> 0 <= i < 1024 -> (forall w, K w -> page_ok kend w /\ w <> v) -> keeps K m (store (v + 4 * i) x m).
Proof.
  intros Hv Hi HK w a Hw Ha. destruct (HK w Hw) as [Hok Hne]. unfold store. rewrite decide_False; [done|]. intros ->.
  apply Hne. eapply in_page_inj; [done|done|done|]. by apply in_page_word.
Qed.

(** A change inside the page [v]. *)
Lemma keeps_page (K : Z -> Prop) v m m' :
  page_ok kend v -> (forall w, K w -> page_ok kend w /\ w <> v) -> (forall a, ~ in_page a v -> m' a = m a) -> keeps K m m'.
Proof.
  intros Hv HK Hm w a Hw Ha. destruct (HK w Hw) as [Hok Hne]. apply Hm. intros Hav. apply Hne. by eapply in_page_inj.
Qed.

Lemma fill_zero_other v m a : ~ in_page a v -> fill_zero v m a = m a.
Proof. intros H. unfold fill_zero. by rewrite decide_False. Qed.
Lemma copy_page_other dst src m a : ~ in_page a dst -> copy_page dst src m a = m a.
Proof. intros H. unfold copy_page. by rewrite decide_False. Qed.
Lemma freed_other v r m a : ~ in_page a v -> freed v r m a = m a.
Proof.
  intros H. unfold freed, store, fill_junk. rewrite decide_False; [by rewrite decide_False|]. intros ->. apply H. unfold in_page, PGSIZE. lia.
Qed.

(** ** Address spaces *)

(** The number of user pages: [KERNBASE / PGSIZE]. *)
Definition UPAGES : Z := 524288.

Definition pde_of (t : option Z) : Z := match t with Some t => pte_of t 7 | None => 0 end.

(** The page directory [pgdir] has the page tables [T], by directory index, and
    maps the pages of [M], by page number.  The page directory, the page tables
    and the frames of user pages are different pages. *)
Record aspace (m : Z -> Z) (pgdir : Z) (T M : gmap Z Z) : Prop := {
  a_dir : page_ok kend pgdir;
  a_tab : forall i t, T !! i = Some t -> 0 <= i < 1024 /\ page_ok kend t /\ t <> pgdir;
  a_tab_inj : forall i j t, T !! i = Some t -> T !! j = Some t -> i = j;
  a_pde : forall i, 0 <= i < 1024 -> m (pgdir + 4 * i) = pde_of (T !! i);
  a_pte : forall i t j, T !! i = Some t -> 0 <= j < 1024 -> m (t + 4 * j) = default 0 (M !! (1024 * i + j));
  a_map : forall n p, M !! n = Some p -> 0 <= n < 1048576 /\ is_Some (T !! (n / 1024)) /\ present p = true;
  a_frame : forall n p, M !! n = Some p -> n < UPAGES ->
    page_ok kend (frame p) /\ frame p <> pgdir /\ forall i, T !! i <> Some (frame p);
  a_frame_inj : forall n p k q, M !! n = Some p -> M !! k = Some q -> n < UPAGES -> k < UPAGES -> frame p = frame q -> n = k
}.

(** The pages of an address space. *)
Definition owns (pgdir : Z) (T M : gmap Z Z) (v : Z) : Prop :=
  v = pgdir \/ (exists i, T !! i = Some v) \/ (exists n p, M !! n = Some p /\ n < UPAGES /\ frame p = v).

Lemma owns_ok m pgdir T M v : aspace m pgdir T M -> owns pgdir T M v -> page_ok kend v.
Proof.
  intros H [->|[(i & Hi)|(n & p & Hn & Hu & <-)]]; [apply (a_dir _ _ _ _ H)|apply (a_tab _ _ _ _ H _ _ Hi)|apply (a_frame _ _ _ _ H _ _ Hn Hu)].
Qed.

(** Only the words of the directory and the tables matter. *)
Lemma aspace_ext m m' pgdir T M :
  aspace m pgdir T M -> keeps (fun v => v = pgdir \/ exists i, T !! i = Some v) m m' -> aspace m' pgdir T M.
Proof.
  intros H Hk. destruct H. constructor; try done.
  - intros i Hi. rewrite <- a_pde0 by done. apply (Hk pgdir); [by left|by apply in_page_word].
  - intros i t j Ht Hj. rewrite <- (a_pte0 _ _ _ Ht Hj). apply (Hk t); [right; eauto|by apply in_page_word].
Qed.

(** A new page table [t] in an empty slot of the directory. *)
Lemma aspace_table m pgdir T M i t :
  aspace m pgdir T M -> T !! i = None -> 0 <= i < 1024 -> page_ok kend t -> ~ owns pgdir T M t ->
  aspace (store (pgdir + 4 * i) (pte_of t 7) (fill_zero t m)) pgdir (<[i := t]> T) M.
Proof.
  intros H Hi Hr Ht Hno. assert (Htd : t <> pgdir) by (intros ->; apply Hno; by left).
  assert (Htt : forall j, T !! j <> Some t) by (intros j Hj; apply Hno; right; left; eauto).
  assert (Hz : forall v j, page_ok kend v -> v <> t -> 0 <= j < 1024 -> fill_zero t m (v + 4 * j) = m (v + 4 * j)).
  { intros v j Hv Hne Hj. apply fill_zero_other. intros Hp. apply Hne. eapply in_page_inj; [done|done|by apply in_page_word|done]. }
  destruct H. constructor; try done.
  - intros k x. rewrite lookup_insert_Some. intros [[<- <-]|[_ Hk]]; [done|by eapply a_tab0].
  - intros k l x. rewrite !lookup_insert_Some. intros [[? ?]|[_ Hk]] [[? ?]|[_ Hl]]; simplify_eq; try done; [by apply Htt in Hl|by apply Htt in Hk|eauto].
  - intros k Hk. unfold store. destruct (decide (k = i)) as [->|Hne]; [by rewrite decide_True, lookup_insert_eq|].
    rewrite decide_False, lookup_insert_ne by (done || lia). rewrite Hz by done. by apply a_pde0.
  - intros k x j. rewrite lookup_insert_Some. intros Hx Hj. unfold store. rewrite decide_False.
    2:{ apply word_ne; [|done|done|done|left]; destruct Hx as [[<- <-]|[_ Hx]]; try done; by destruct (a_tab0 _ _ Hx) as (_ & ? & ?). }
    destruct Hx as [[<- <-]|[Hne Hx]].
    + unfold fill_zero. rewrite decide_True by by apply in_page_word. destruct (M !! (1024 * i + j)) as [p|] eqn:E; [|done].
      apply a_map0 in E as (_ & [y Hy] & _). replace ((1024 * i + j) / 1024) with i in Hy by (Z.div_mod_to_equations; lia). congruence.
    + destruct (a_tab0 _ _ Hx) as (_ & Hok & _). rewrite Hz; [by apply a_pte0|done| |done]. intros ->. by apply Htt in Hx.
  - intros n p Hn. destruct (a_map0 _ _ Hn) as (H1 & [y Hy] & H3). split; [exact H1|split; [|exact H3]].
    destruct (decide (n / 1024 = i)) as [->|]; [by rewrite lookup_insert_eq|rewrite lookup_insert_ne by done; by rewrite Hy].
  - intros n p Hn Hu. destruct (a_frame0 _ _ Hn Hu) as (H1 & H2 & H3). split_and!; [done..|]. intros k. rewrite lookup_insert_Some.
    intros [[_ Hx]|[_ Hx]]; [|by apply H3 in Hx]. apply Hno. right; right. by exists n, p.
Qed.

(** The entry of page [n], in the table [t], becomes [x]: the map changes at [n]. *)
Lemma aspace_entry m pgdir T M M' n t x :
  aspace m pgdir T M -> 0 <= n < 1048576 -> T !! (n / 1024) = Some t ->
  (forall k, k <> n -> M' !! k = M !! k) -> default 0 (M' !! n) = x ->
  (forall p, M' !! n = Some p -> present p = true /\ (n < UPAGES ->
     page_ok kend (frame p) /\ frame p <> pgdir /\ (forall i, T !! i <> Some (frame p)) /\
     forall k q, k <> n -> M !! k = Some q -> k < UPAGES -> frame q <> frame p)) ->
  aspace (store (t + 4 * (n mod 1024)) x m) pgdir T M'.
Proof.
  intros H Hn Ht HM Hx Hp. pose proof (Z.mod_pos_bound n 1024 ltac:(lia)) as Hj.
  destruct (a_tab _ _ _ _ H _ _ Ht) as (Hi & Htok & Htd).
  assert (Hother : forall k p, M' !! k = Some p -> k = n \/ (k <> n /\ M !! k = Some p)).
  { intros k p Hk. destruct (decide (k = n)); [by left|right]. by rewrite <- HM. }
  destruct H. constructor; try done.
  - intros i' Hi'. unfold store. rewrite decide_False; [by apply a_pde0|]. apply word_ne; [done|done|done|done|by left].
  - intros i' t' j' Ht' Hj'. unfold store. destruct (decide (1024 * i' + j' = n)) as [He|Hne].
    + rewrite He, Hx. assert (i' = n / 1024) by (Z.div_mod_to_equations; lia). assert (j' = n mod 1024) by (Z.div_mod_to_equations; lia).
      subst i' j'. rewrite Ht in Ht'. injection Ht' as <-. by rewrite decide_True.
    + rewrite decide_False; [rewrite HM by done; by apply a_pte0|]. destruct (a_tab0 _ _ Ht') as (_ & Hok' & _).
      apply word_ne; [done..|]. destruct (decide (t' = t)) as [->|]; [right|by left].
      assert (i' = n / 1024) by (by eapply a_tab_inj0). intros ->. Z.div_mod_to_equations. lia.
  - intros k p Hk. destruct (Hother k p Hk) as [->|[_ Hk']]; [|by apply a_map0]. split_and!; [lia|lia|by rewrite Ht|by apply Hp].
  - intros k p Hk Hu. destruct (Hother k p Hk) as [->|[_ Hk']]; [|by apply (a_frame0 k)]. destruct (Hp p Hk) as [_ Hq]. specialize (Hq Hu). naive_solver.
  - intros k p l q Hk Hl Hu Hu' Hf. destruct (Hother k p Hk) as [->|[Hkn Hk']], (Hother l q Hl) as [->|[Hln Hl']]; [done|..|by eapply a_frame_inj0].
    + destruct (Hp p Hk) as [_ Hq]. specialize (Hq Hu) as (_ & _ & _ & Hq). symmetry in Hf. by apply (Hq l q) in Hf.
    + destruct (Hp q Hl) as [_ Hq]. specialize (Hq Hu') as (_ & _ & _ & Hq). by apply (Hq k p) in Hf.
Qed.

End Space.
End VmBase.
