(* ===== verification/VmOps.v ===== *)
(** * What the operations on page tables do

    Each operation is specified on a state in which one address space, the free
    list of the allocator and the remaining pages [R] (those of other address
    spaces, or pages that were allocated but are not mapped yet) are disjoint. *)
From S2P Require Export VmBase.

Module VmOps.
Import Spin Locked Kalloc Vm VmBase.
Local Open Scope Z_scope.

Section Ops.
Context (kend : Z) (kend_ok : KERNBASE < kend) (me : nat).
Notation page_ok := (page_ok kend).
Notation aspace := (aspace kend).
Notation kmem_inv := (kmem_inv kend).

Record holds (d : kmem) (fl : list Z) (pgdir : Z) (T M : gmap Z Z) (R : Z -> Prop) : Prop := {
  h_kmem : kmem_inv d fl;
  h_space : aspace (mem d) pgdir T M;
  h_own : forall v, owns pgdir T M v -> v ∉ fl;
  h_rest : forall v, R v -> page_ok v /\ v ∉ fl /\ ~ owns pgdir T M v
}.

(** The frames of user pages. *)
Definition uframe (M : gmap Z Z) (v : Z) : Prop := exists n p, M !! n = Some p /\ n < UPAGES /\ frame p = v.

(** ** Memory *)

Lemma wp_rdw a b d (Q : Z -> guarded kmem -> Prop) : Q (mem d a) (free b d) -> wp (rdw a) Q (free b d).
Proof. exact id. Qed.
Lemma wp_updm f b d (Q : unit -> guarded kmem -> Prop) :
  Q tt (free b (mkKmem (use_lock d) (freelist d) (f (mem d)))) -> wp (updm f) Q (free b d).
Proof. exact id. Qed.

Lemma kmem_inv_write d fl v m' :
  kmem_inv d fl -> page_ok v -> v ∉ fl -> (forall a, ~ in_page a v -> m' a = mem d a) ->
  kmem_inv (mkKmem (use_lock d) (freelist d) m') fl.
Proof.
  intros [Hc Hn Hp] Hv Hin Hm. constructor; cbn; [|done..]. eapply chain_ext; [|exact Hc]. intros p Hpf. apply Hm. intros Ha.
  assert (page_ok p) by (rewrite Forall_forall in Hp; by apply Hp).
  assert (p = v) as -> by (eapply in_page_inj; [done|done| |exact Ha]; unfold in_page, PGSIZE; lia). done.
Qed.

Lemma store_other v i x m a : 0 <= i < 1024 -> ~ in_page a v -> store (v + 4 * i) x m a = m a.
Proof. intros Hi Ha. unfold store. rewrite decide_False; [done|]. intros ->. by apply Ha, in_page_word. Qed.

Lemma fl_ok d fl v : kmem_inv d fl -> v ∈ fl -> page_ok v.
Proof. intros [_ _ Hp] Hv. rewrite Forall_forall in Hp. by apply Hp. Qed.

Lemma page_pos v j : page_ok v -> 0 <= j -> v + 4 * j <> 0.
Proof using kend_ok. intros [_ H] Hj. unfold KERNBASE in *. lia. Qed.

(** ** Walking *)

Lemma pde_present t : page_ok t -> present (pte_of t 7) = true /\ P2V (PTE_ADDR (pte_of t 7)) = t.
Proof using kend_ok.
  intros Ht. split; [rewrite (present_pte_of kend) by done; by apply bool_decide_true|by apply (frame_pte_of kend)].
Qed.

Lemma pde_value t : page_ok t -> Z.lor (Z.lor (Z.lor (V2P t) PTE_P) PTE_W) PTE_U = pte_of t 7.
Proof using kend_ok.
  intros Ht. rewrite <- !Z.lor_assoc. change (Z.lor PTE_P (Z.lor PTE_W PTE_U)) with 7. unfold pte_of.
  destruct (page_align kend kend_ok t Ht) as (-> & Hm & _). apply lor_aligned; lia.
Qed.

(** The state after a page table was added. *)
Lemma holds_table d t fl pgdir T M R i :
  holds d (t :: fl) pgdir T M R -> T !! i = None -> 0 <= i < 1024 ->
  let d' := mkKmem (use_lock d) (mem d t) (store (pgdir + 4 * i) (pte_of t 7) (fill_zero t (mem d))) in
  holds d' fl pgdir (<[i := t]> T) M R /\
  (forall v, owns pgdir (<[i := t]> T) M v \/ v ∈ fl <-> owns pgdir T M v \/ v ∈ t :: fl) /\
  keeps (fun v => R v \/ uframe M v) (mem d) (mem d').
Proof.
  intros [Hk Hs Ho Hr] Hi Hir d'. pose proof (fl_ok d (t :: fl) t Hk ltac:(by left)) as Ht.
  assert (Hno : ~ owns pgdir T M t) by (intros H; by apply Ho in H; apply H; left).
  assert (Hd : page_ok pgdir) by apply (a_dir _ _ _ _ _ Hs).
  assert (Htd : t <> pgdir) by (intros ->; apply Hno; by left).
  pose proof (kalloc_inv kend d t fl Hk) as Hk'. pose proof (km_nodup _ _ _ Hk) as Hnd. apply NoDup_cons in Hnd as [Htf Hnd].
  assert (Hpf : pgdir ∉ fl) by (intros H; apply (Ho pgdir); [by left|by right]).
  assert (Hown : forall v, owns pgdir (<[i := t]> T) M v <-> owns pgdir T M v \/ v = t).
  { intros v. unfold owns. split.
    - intros [->|[(j & Hj)|H]]; [tauto| |tauto]. apply lookup_insert_Some in Hj as [[_ <-]|[_ Hj]]; [tauto|]. left. right. left. eauto.
    - intros [[->|[(j & Hj)|H]]| ->]; [tauto| |tauto|]; right; left; [|exists i; by rewrite lookup_insert_eq].
      exists j. rewrite lookup_insert_ne; [done|]. intros <-. congruence. }
  split_and!.
  - constructor.
    + apply (kmem_inv_write (mkKmem (use_lock d) (mem d t) (fill_zero t (mem d))) fl pgdir); [|done|done|by intros a Ha; apply store_other].
      apply (kmem_inv_write (mkKmem (use_lock d) (mem d t) (mem d)) fl t); [done|done|done|by intros a Ha; apply fill_zero_other].
    + by apply aspace_table.
    + intros v [Hv| ->]%Hown; [|done]. specialize (Ho v Hv). set_solver.
    + intros v Hv. destruct (Hr v Hv) as (H1 & H2 & H3). split_and!; [done|set_solver|]. intros [Hx| ->]%Hown; [done|set_solver].
  - intros v. rewrite Hown, elem_of_cons. tauto.
  - apply (keeps_trans _ _ (fill_zero t (mem d))).
    + apply (keeps_page kend _ t); [done| |intros a Ha; by apply fill_zero_other].
      intros w [Hw|(n & p & Hn & Hu & <-)]; [destruct (Hr w Hw) as (? & ? & ?); split; [done|set_solver]|].
      destruct (a_frame _ _ _ _ _ Hs _ _ Hn Hu) as (? & ? & ?). split; [done|]. intros He. apply Hno. right; right. by exists n, p.
    + apply (keeps_store kend); [done|done|].
      intros w [Hw|(n & p & Hn & Hu & <-)]; [destruct (Hr w Hw) as (? & ? & H3); split; [done|]; intros ->; apply H3; by left|].
      by destruct (a_frame _ _ _ _ _ Hs _ _ Hn Hu) as (? & ? & ?).
Qed.

Lemma wp_walk n alloc b d fl pgdir T M R (Q : Z -> guarded kmem -> Prop) :
  0 <= n < 1048576 -> holds d fl pgdir T M R ->
  (forall t, T !! (n / 1024) = Some t -> Q (t + 4 * (n mod 1024)) (free b d)) ->
  (T !! (n / 1024) = None -> alloc = false \/ fl = [] -> Q 0 (free b d)) ->
  (forall t fl' d', alloc = true -> T !! (n / 1024) = None -> fl = t :: fl' -> use_lock d' = use_lock d ->
     holds d' fl' pgdir (<[n / 1024 := t]> T) M R ->
     (forall v, owns pgdir (<[n / 1024 := t]> T) M v \/ v ∈ fl' <-> owns pgdir T M v \/ v ∈ fl) ->
     keeps (fun v => R v \/ uframe M v) (mem d) (mem d') -> Q (t + 4 * (n mod 1024)) (free b d')) ->
  wp (walkpgdir me pgdir (4096 * n) alloc) Q (free b d).
Proof using kend_ok.
  intros Hn H Hsome Hnone Hnew. unfold walkpgdir. rewrite PDX_page, PTX_page by done. lk_step. apply wp_rdw.
  assert (Hi : 0 <= n / 1024 < 1024) by (Z.div_mod_to_equations; lia).
  rewrite (a_pde _ _ _ _ _ (h_space _ _ _ _ _ _ H)) by done. destruct (T !! (n / 1024)) as [t|] eqn:E; cbn [pde_of].
  - destruct (a_tab _ _ _ _ _ (h_space _ _ _ _ _ _ H) _ _ E) as (_ & Ht & _).
    destruct (pde_present t Ht) as [-> ->]. lk_step. by apply Hsome.
  - rewrite present_0. destruct alloc; [|lk_step; apply Hnone; tauto]. lk_step.
    eapply wp_kalloc; [exact kend_ok|exact (h_kmem _ _ _ _ _ _ H)| |].
    + intros ->. rewrite decide_True by done. lk_step. apply Hnone; tauto.
    + intros t fl' ->. pose proof (fl_ok _ _ t (h_kmem _ _ _ _ _ _ H) ltac:(by left)) as Ht.
      rewrite decide_False by (pose proof (page_pos t 0 Ht); lia). lk_step. apply wp_updm. lk_step. apply wp_updm. lk_step.
      cbn [mem use_lock freelist]. rewrite pde_value by done. destruct (holds_table d t fl' pgdir T M R (n / 1024) H E Hi) as (H1 & H2 & H3).
      by eapply Hnew.
Qed.

(** ** Mapping *)

Lemma lor_1 f : 0 <= f < 4096 -> 0 <= Z.lor f 1 < 4096 /\ Z.lor f 1 mod 2 = 1.
Proof.
  intros Hf. pose proof (Z.add_lor_land f 1) as H. assert (Z.land f 1 = f mod 2) as E by (apply (Z.land_ones f 1); lia).
  Z.div_mod_to_equations. lia.
Qed.

Lemma pte_value pa perm : pa mod 4096 = 0 -> 0 <= perm < 4096 -> Z.lor (Z.lor pa perm) PTE_P = pa + Z.lor perm 1.
Proof. intros Hp Hf. rewrite <- Z.lor_assoc. apply lor_aligned; [done|]. by apply lor_1. Qed.

Lemma present_add pa f : pa mod 4096 = 0 -> f mod 2 = 1 -> present (pa + f) = true.
Proof. intros Hp Hf. rewrite present_odd. apply bool_decide_true. Z.div_mod_to_equations. lia. Qed.

(** What stays the same when a word of the page table [t] changes. *)
Lemma holds_entry_frame d fl pgdir T M R t j x :
  holds d fl pgdir T M R -> (exists i, T !! i = Some t) -> 0 <= j < 1024 ->
  let d' := mkKmem (use_lock d) (freelist d) (store (t + 4 * j) x (mem d)) in
  kmem_inv d' fl /\ keeps (fun v => R v \/ uframe M v) (mem d) (mem d').
Proof.
  intros [Hk Hs Ho Hr] [i Hi] Hj d'. destruct (a_tab _ _ _ _ _ Hs _ _ Hi) as (_ & Ht & _).
  assert (Htf : t ∉ fl) by (apply Ho; right; left; eauto). split.
  - by apply (kmem_inv_write d fl t); [..|intros a Ha; apply store_other].
  - apply (keeps_store kend); [done|done|]. intros w [Hw|(k & p & Hn & Hu & <-)].
    + destruct (Hr w Hw) as (? & ? & H3). split; [done|]. intros ->. apply H3. right; left; eauto.
    + destruct (a_frame _ _ _ _ _ Hs _ _ Hn Hu) as (? & ? & H3). split; [done|]. intros He. apply (H3 i). by rewrite He.
Qed.

(** A kernel page is mapped. *)
Lemma holds_map_kernel d fl pgdir T M R n t p :
  holds d fl pgdir T M R -> UPAGES <= n < 1048576 -> T !! (n / 1024) = Some t -> M !! n = None -> present p = true ->
  let d' := mkKmem (use_lock d) (freelist d) (store (t + 4 * (n mod 1024)) p (mem d)) in
  holds d' fl pgdir T (<[n := p]> M) R /\
  (forall v, owns pgdir T (<[n := p]> M) v <-> owns pgdir T M v) /\
  keeps (fun v => R v \/ uframe M v) (mem d) (mem d').
Proof.
  intros H Hn Ht HM Hp d'. pose proof (Z.mod_pos_bound n 1024 ltac:(lia)) as Hj.
  destruct (holds_entry_frame d fl pgdir T M R t (n mod 1024) p H ltac:(eauto) Hj) as [Hk' Hkeep].
  assert (Hown : forall v, owns pgdir T (<[n := p]> M) v <-> owns pgdir T M v).
  { intros v. unfold owns. assert ((exists k q, <[n := p]> M !! k = Some q /\ k < UPAGES /\ frame q = v) <-> (exists k q, M !! k = Some q /\ k < UPAGES /\ frame q = v)) as ->; [|done].
    split; intros (k & q & Hk & Hu & Hf); exists k, q; (split_and!; [|done|done]).
    - by rewrite lookup_insert_ne in Hk by lia.
    - by rewrite lookup_insert_ne by lia. }
  split_and!; [|done|done]. destruct H as [_ Hs Ho Hr]. constructor; [done| | |].
  - eapply aspace_entry; [exact Hs|unfold UPAGES in *; lia|done|intros k Hk; by rewrite lookup_insert_ne|by rewrite lookup_insert_eq|].
    intros q. rewrite lookup_insert_eq. intros [= <-]. split; [done|]. lia.
  - intros v Hv%Hown. by apply Ho.
  - intros v Hv. destruct (Hr v Hv) as (? & ? & ?). by rewrite Hown.
Qed.

(** A user page is mapped to a page of [R]. *)
Lemma holds_map_user d fl pgdir T M R n t v f :
  holds d fl pgdir T M R -> 0 <= n < UPAGES -> T !! (n / 1024) = Some t -> M !! n = None -> R v ->
  0 <= f < 4096 -> f mod 2 = 1 ->
  let d' := mkKmem (use_lock d) (freelist d) (store (t + 4 * (n mod 1024)) (pte_of v f) (mem d)) in
  holds d' fl pgdir T (<[n := pte_of v f]> M) (fun w => R w /\ w <> v) /\
  (forall w, owns pgdir T (<[n := pte_of v f]> M) w <-> owns pgdir T M w \/ w = v) /\
  keeps (fun w => R w \/ uframe M w) (mem d) (mem d').
Proof using kend_ok.
  intros H Hn Ht HM Hv Hf Hf2 d'. pose proof (Z.mod_pos_bound n 1024 ltac:(lia)) as Hj.
  destruct (holds_entry_frame d fl pgdir T M R t (n mod 1024) (pte_of v f) H ltac:(eauto) Hj) as [Hk' Hkeep].
  destruct (h_rest _ _ _ _ _ _ H v Hv) as (Hvok & Hvfl & Hvo). assert (Hfr : frame (pte_of v f) = v) by by apply (frame_pte_of kend).
  assert (Hown : forall w, owns pgdir T (<[n := pte_of v f]> M) w <-> owns pgdir T M w \/ w = v).
  { intros w. unfold owns. split.
    - intros [->|[?|(k & q & Hk & Hu & Hq)]]; [tauto|tauto|]. apply lookup_insert_Some in Hk as [[<- <-]|[? Hk]]; [right; congruence|]. left; right; right. eauto.
    - intros [[->|[?|(k & q & Hk & Hu & Hq)]]| ->]; [tauto|tauto|..]; right; right.
      + exists k, q. rewrite lookup_insert_ne by congruence. done.
      + exists n, (pte_of v f). rewrite lookup_insert_eq. split_and!; [done|lia|done]. }
  split_and!; [|done|done]. destruct H as [_ Hs Ho Hr]. constructor; [done| | |].
  - eapply aspace_entry; [exact Hs|unfold UPAGES in *; lia|done|intros k Hk; by rewrite lookup_insert_ne|by rewrite lookup_insert_eq|].
    intros q. rewrite lookup_insert_eq. intros [= <-]. rewrite Hfr. split; [rewrite (present_pte_of kend) by done; by apply bool_decide_true|].
    intros _. split_and!; [done| | |].
    + intros ->. apply Hvo. by left.
    + intros i Hi. apply Hvo. right; left; eauto.
    + intros k q _ Hq Hu <-. apply Hvo. right; right; eauto.
  - intros w [Hw| ->]%Hown; [by apply Ho|done].
  - intros w [Hw Hne]. destruct (Hr w Hw) as (? & ? & ?). rewrite Hown. split_and!; [done|done|tauto].
Qed.

Lemma entry_absent d fl pgdir T M R n t :
  holds d fl pgdir T M R -> T !! (n / 1024) = Some t -> mem d (t + 4 * (n mod 1024)) = default 0 (M !! n).
Proof.
  intros H Ht. pose proof (Z.mod_pos_bound n 1024 ltac:(lia)) as Hj.
  rewrite (a_pte _ _ _ _ _ (h_space _ _ _ _ _ _ H) _ _ _ Ht Hj). do 2 f_equal. Z.div_mod_to_equations. lia.
Qed.

Lemma mappages_one pgdir n v perm :
  0 <= n < 1048576 -> mappages me pgdir (4096 * n) PGSIZE (V2P v) perm = mappages_loop me 1 pgdir (4096 * n) (4096 * n) (V2P v) perm.
Proof.
  intros Hn. unfold mappages. rewrite !PGROUNDDOWN_spec. unfold PGSIZE. rewrite (uint32_id (4096 * n + 4096 - 1)) by lia.
  replace (4096 * n / 4096) with n by (Z.div_mod_to_equations; lia).
  replace ((4096 * n + 4096 - 1) / 4096) with n by (Z.div_mod_to_equations; lia). rewrite Z.sub_diag. done.
Qed.

(** [mappages] of one user page: it fails only when the page table is missing
    and the free list is empty. *)
Lemma wp_map_user n v perm b d fl pgdir T M R (Q : Z -> guarded kmem -> Prop) :
  0 <= n < UPAGES -> holds d fl pgdir T M R -> M !! n = None -> R v -> 0 <= perm < 4096 ->
  (fl = [] -> Q (-1) (free b d)) ->
  (forall d' fl' T', let M' := <[n := pte_of v (Z.lor perm 1)]> M in
     holds d' fl' pgdir T' M' (fun w => R w /\ w <> v) -> use_lock d' = use_lock d ->
     (forall w, owns pgdir T' M' w \/ w ∈ fl' <-> owns pgdir T M w \/ w ∈ fl \/ w = v) ->
     keeps (fun w => R w \/ uframe M w) (mem d) (mem d') -> Q 0 (free b d')) ->
  wp (mappages me pgdir (4096 * n) PGSIZE (V2P v) perm) Q (free b d).
Proof using kend_ok.
  intros Hn H HM Hv Hperm Hfail HQ. rewrite mappages_one by (unfold UPAGES in *; lia). cbn [mappages_loop]. lk_step.
  destruct (h_rest _ _ _ _ _ _ H v Hv) as (Hvok & _ & _). destruct (lor_1 perm Hperm) as [Hl1 Hl2].
  assert (Hset : forall d1 fl1 T1 t, holds d1 fl1 pgdir T1 M R -> use_lock d1 = use_lock d -> T1 !! (n / 1024) = Some t ->
    (forall w, owns pgdir T1 M w \/ w ∈ fl1 <-> owns pgdir T M w \/ w ∈ fl) -> keeps (fun w => R w \/ uframe M w) (mem d) (mem d1) ->
    wp (if decide (t + 4 * (n mod 1024) = 0) then mret (-1)
        else x ← rdw (t + 4 * (n mod 1024));
          if present x then panic "remap"
          else wrw (t + 4 * (n mod 1024)) (Z.lor (Z.lor (V2P v) perm) PTE_P) ;;
            if decide (4096 * n = 4096 * n) then mret 0
            else mappages_loop me 0 pgdir (uint32 (4096 * n + PGSIZE)) (4096 * n) (uint32 (V2P v + PGSIZE)) perm) Q (free b d1)).
  { intros d1 fl1 T1 t H1 Hu Ht Hp Hk. destruct (a_tab _ _ _ _ _ (h_space _ _ _ _ _ _ H1) _ _ Ht) as (_ & Htok & _).
    pose proof (Z.mod_pos_bound n 1024 ltac:(lia)). rewrite decide_False by (apply page_pos; [done|lia]). lk_step. apply wp_rdw.
    rewrite (entry_absent _ _ _ _ _ _ _ _ H1 Ht), HM. cbn [default]. rewrite present_0. lk_step. apply wp_updm.
    rewrite decide_True by done. lk_step. destruct (page_align kend kend_ok v Hvok) as (E & Hm & _).
    rewrite pte_value by (rewrite ?E; done). fold (pte_of v (Z.lor perm 1)).
    destruct (holds_map_user d1 fl1 pgdir T1 M R n t v (Z.lor perm 1) H1 Hn Ht HM Hv Hl1 Hl2) as (H2 & H3 & H4).
    apply (HQ _ fl1 T1); [done|done| |by eapply keeps_trans]. intros w. rewrite H3. specialize (Hp w). tauto. }
  eapply wp_walk; [unfold UPAGES in *; lia|exact H| | |].
  - intros t Ht. by apply (Hset d fl T t).
  - intros _ [?|Hfl]; [done|]. rewrite decide_True by done. lk_step. by apply Hfail.
  - intros t fl' d' _ _ _ Hu H' Hp Hk. apply (Hset d' fl' (<[n / 1024 := t]> T) t); [done|done|by rewrite lookup_insert_eq|done|done].
Qed.

(** ** Freeing *)

Lemma uframe_ext (M M' : gmap Z Z) v : (forall x, x < UPAGES -> M' !! x = M !! x) -> uframe M' v <-> uframe M v.
Proof.
  intros H. unfold uframe. split; intros (n & p & Hn & Hu & Hf); exists n, p; (split_and!; [|done|done]); [rewrite <- H by done|rewrite H by done]; done.
Qed.

(** A user page is unmapped and its frame freed. *)
Lemma holds_unmap d fl pgdir T M R n t p :
  holds d fl pgdir T M R -> n < UPAGES -> T !! (n / 1024) = Some t -> M !! n = Some p ->
  let v := frame p in
  let d' := mkKmem (use_lock d) v (store (t + 4 * (n mod 1024)) 0 (freed v (freelist d) (mem d))) in
  holds d' (v :: fl) pgdir T (delete n M) R /\
  (forall w, owns pgdir T (delete n M) w \/ w ∈ v :: fl <-> owns pgdir T M w \/ w ∈ fl) /\
  keeps (fun w => R w \/ uframe (delete n M) w) (mem d) (mem d').
Proof using kend_ok.
  intros [Hk Hs Ho Hr] Hn Ht HM v d'. pose proof (Z.mod_pos_bound n 1024 ltac:(lia)) as Hj.
  destruct (a_tab _ _ _ _ _ Hs _ _ Ht) as (_ & Htok & Htd). destruct (a_map _ _ _ _ _ Hs _ _ HM) as (Hn' & _ & _).
  destruct (a_frame _ _ _ _ _ Hs _ _ HM Hn) as (Hv & Hvd & Hvt). fold v in Hv, Hvd, Hvt.
  assert (Hvo : owns pgdir T M v) by (right; right; by exists n, p). assert (Hvf : v ∉ fl) by by apply Ho.
  assert (Htf : t ∉ fl) by (apply Ho; right; left; eauto).
  assert (Hold : forall k q, delete n M !! k = Some q -> k <> n /\ M !! k = Some q) by (intros k q; rewrite lookup_delete_Some; naive_solver).
  assert (Hown : forall w, owns pgdir T (delete n M) w <-> owns pgdir T M w /\ w <> v).
  { intros w. unfold owns. split.
    - intros [->|[(i & Hi)|(k & q & Hq & Hu & <-)]].
      + split; [by left|done].
      + split; [right; left; eauto|]. intros ->. by apply (Hvt i).
      + destruct (Hold k q Hq) as [Hne Hq']. split; [right; right; eauto|]. intros He. apply Hne. by eapply (a_frame_inj _ _ _ _ _ Hs).
    - intros [[->|[Hi|(k & q & Hq & Hu & <-)]] Hne]; [by left|by right; left|right; right]. exists k, q. rewrite lookup_delete_ne; [done|].
      intros <-. apply Hne. unfold v. congruence. }
  pose proof (kfree_inv kend v d fl Hk Hv Hvf) as Hk'.
  assert (Hkeep : keeps (fun w => R w \/ owns pgdir T (delete n M) w) (mem d) (freed v (freelist d) (mem d))).
  { apply (keeps_page kend _ v); [done| |intros a Ha; by apply freed_other]. intros w [Hw|Hw].
    - destruct (Hr w Hw) as (? & ? & H3). split; [done|]. by intros ->.
    - apply Hown in Hw as [Hw Hne]. split; [by eapply owns_ok|done]. }
  split_and!.
  - constructor.
    + apply (kmem_inv_write (mkKmem (use_lock d) v (freed v (freelist d) (mem d))) (v :: fl) t); [done|done| |intros a Ha; by apply store_other].
      rewrite not_elem_of_cons. split; [intros ->; by apply (Hvt (n / 1024))|done].
    + eapply aspace_entry; [|exact Hn'|exact Ht|intros k Hk2; by rewrite lookup_delete_ne|by rewrite lookup_delete_eq|by intros q; rewrite lookup_delete_eq].
      eapply aspace_ext; [exact Hs|]. eapply keeps_mono; [|exact Hkeep]. intros w Hw. right. unfold owns. destruct Hw; [by left|right; by left].
    + intros w [Hw Hne]%Hown. rewrite not_elem_of_cons. split; [done|by apply Ho].
    + intros w Hw. destruct (Hr w Hw) as (? & ? & H3). split_and!; [done| |rewrite Hown; tauto]. rewrite not_elem_of_cons. split; [|done]. by intros ->.
  - intros w. rewrite Hown, elem_of_cons. destruct (decide (w = v)) as [->|]; tauto.
  - eapply keeps_trans; [eapply keeps_mono; [|exact Hkeep]|apply (keeps_store kend); [done|done|]].
    + intros w [Hw|Hw]; [by left|right]. by right; right.
    + intros w [Hw|(k & q & Hq & Hu & <-)].
      * destruct (Hr w Hw) as (? & ? & H3). split; [done|]. intros ->. apply H3. right; left; eauto.
      * destruct (Hold k q Hq) as [Hne Hq']. destruct (a_frame _ _ _ _ _ Hs _ _ Hq' Hu) as (? & ? & H3). split; [done|]. intros He. apply (H3 (n / 1024)). by rewrite He.
Qed.

(** The address space after the pages from [lo] on, below the address [hi], are
    unmapped. *)
Definition unmapped (lo hi : Z) (M M' : gmap Z Z) : Prop :=
  forall x, M' !! x = if decide (lo <= x /\ 4096 * x < hi) then None else M !! x.

Lemma wp_dealloc_loop fuel n oldsz b d fl pgdir T M R (Q : unit -> guarded kmem -> Prop) :
  0 <= n <= UPAGES -> 0 <= oldsz <= KERNBASE -> (0 < fuel)%nat -> oldsz <= 4096 * (n + Z.of_nat fuel - 1) ->
  holds d fl pgdir T M R ->
  (forall d' fl' M', holds d' fl' pgdir T M' R -> unmapped n oldsz M M' -> use_lock d' = use_lock d ->
     (forall w, owns pgdir T M' w \/ w ∈ fl' <-> owns pgdir T M w \/ w ∈ fl) ->
     keeps (fun w => R w \/ uframe M' w) (mem d) (mem d') -> Q tt (free b d')) ->
  wp (deallocuvm_loop kend me fuel pgdir (4096 * n) oldsz) Q (free b d).
Proof using kend_ok.
  revert n d fl M. induction fuel as [|fuel IH]; intros n d fl M Hn Ho Hf0 Hf H HQ; [lia|]. cbn [deallocuvm_loop].
  destruct (decide (4096 * n < oldsz)) as [Hlt|Hge]; cycle 1.
  { lk_step. apply (HQ d fl M); [done| |done|done|done]. intros x. by rewrite decide_False by lia. }
  unfold KERNBASE, UPAGES in *. pose proof (Z.mod_pos_bound n 1024 ltac:(lia)) as Hj.
  (** The rest of the loop, from page [n'] on. *)
  assert (Hnext : forall n' d1 fl1 M1 a, uint32 (a + PGSIZE) = 4096 * n' -> n < n' <= 524288 -> holds d1 fl1 pgdir T M1 R ->
    use_lock d1 = use_lock d ->
    (forall x, M1 !! x = if decide (n <= x < n') then None else M !! x) ->
    (forall x, n <= x < n' -> oldsz <= 4096 * x -> M !! x = None) ->
    (forall w, owns pgdir T M1 w \/ w ∈ fl1 <-> owns pgdir T M w \/ w ∈ fl) ->
    keeps (fun w => R w \/ uframe M1 w) (mem d) (mem d1) ->
    wp (deallocuvm_loop kend me fuel pgdir (uint32 (a + PGSIZE)) oldsz) Q (free b d1)).
  { intros n' d1 fl1 M1 a -> Hn' H1 Hu HM1 HM0 Hp Hk. apply (IH n' d1 fl1 M1); [unfold UPAGES; lia|unfold KERNBASE; lia|lia|lia|done|]. intros d2 fl2 M2 H2 HM2 Hu2 Hp2 Hk2.
    apply (HQ d2 fl2 M2); [done| |congruence|intros w; by rewrite Hp2|].
    - intros x. rewrite HM2, HM1. repeat case_decide; try done; try lia. symmetry. apply HM0; lia.
    - eapply keeps_trans; [|exact Hk2]. eapply keeps_mono; [|exact Hk]. intros w [Hw|(k & q & Hq & Hu' & Hw)]; [by left|right].
      exists k, q. split_and!; [|done|done]. rewrite HM2 in Hq. by case_decide. }
  lk_step. eapply (wp_walk n false); [lia|exact H| | |done].
  - intros t Ht. destruct (a_tab _ _ _ _ _ (h_space _ _ _ _ _ _ H) _ _ Ht) as (_ & Htok & _).
    rewrite decide_False by (apply page_pos; [done|lia]). lk_step. lk_step. apply wp_rdw.
    rewrite (entry_absent _ _ _ _ _ _ _ _ H Ht). destruct (M !! n) as [p|] eqn:HM.
    + change (default 0 (Some p)) with p. destruct (a_map _ _ _ _ _ (h_space _ _ _ _ _ _ H) _ _ HM) as (_ & _ & ->).
      destruct (a_frame _ _ _ _ _ (h_space _ _ _ _ _ _ H) _ _ HM ltac:(unfold UPAGES; lia)) as (Hv & _ & _).
      rewrite decide_False. 2:{ intros E. unfold frame in Hv. rewrite E in Hv. destruct Hv as [_ Hv]. unfold P2V, KERNBASE in Hv. rewrite uint32_id in Hv by lia. lia. }
      fold (frame p). lk_step. eapply (wp_kfree kend me kend_ok (use_lock d)); [done|done|]. lk_step. apply wp_updm. lk_step.
      cbn [use_lock freelist mem].
      destruct (holds_unmap d fl pgdir T M R n t p H ltac:(unfold UPAGES; lia) Ht HM) as (H1 & H2 & H3).
      apply (Hnext (n + 1) _ (frame p :: fl) (delete n M)); [unfold PGSIZE; rewrite uint32_id; lia|lia|done|done| |lia|done|done].
      intros x. destruct (decide (x = n)) as [->|]; [rewrite lookup_delete_eq, decide_True by lia; done|].
      rewrite lookup_delete_ne by done. by rewrite decide_False by lia.
    + change (default 0 None) with 0. rewrite present_0. lk_step. apply (Hnext (n + 1) d fl M); [unfold PGSIZE; rewrite uint32_id; lia|lia|done|done| |lia|done|done].
      intros x. case_decide; [|done]. by replace x with n by lia.
  - intros HT _. rewrite decide_True by done. lk_step. lk_step. rewrite PDX_page by lia. rewrite PGADDR_dir by (Z.div_mod_to_equations; lia). unfold PGSIZE.
    assert (Hgap : forall x, n <= x < 1024 * (n / 1024 + 1) -> M !! x = None).
    { intros x Hx. destruct (M !! x) as [p|] eqn:E; [|done]. exfalso. apply (a_map _ _ _ _ _ (h_space _ _ _ _ _ _ H)) in E as (_ & [y Hy] & _).
      replace (x / 1024) with (n / 1024) in Hy by (Z.div_mod_to_equations; lia). congruence. }
    apply (Hnext (1024 * (n / 1024 + 1)) d fl M); [|Z.div_mod_to_equations; lia|done|done| |intros x Hx _; by apply Hgap|done|done].
    + unfold PGSIZE. rewrite (uint32_id (4194304 * (n / 1024 + 1) - 4096)) by (Z.div_mod_to_equations; lia). rewrite uint32_id; Z.div_mod_to_equations; lia.
    + intros x. case_decide as Hx; [|done]. by apply Hgap.
Qed.

Lemma PGROUNDUP_page a : 0 <= a <= KERNBASE -> uint32 (PGROUNDUP a) = 4096 * ((a + 4095) / 4096).
Proof. intros Ha. unfold KERNBASE in Ha. rewrite PGROUNDUP_spec, uint32_id; Z.div_mod_to_equations; lia. Qed.

Lemma wp_deallocuvm oldsz newsz b d fl pgdir T M R (Q : Z -> guarded kmem -> Prop) :
  0 <= newsz <= oldsz -> oldsz <= KERNBASE -> holds d fl pgdir T M R ->
  (forall d' fl' M', holds d' fl' pgdir T M' R -> unmapped ((newsz + 4095) / 4096) oldsz M M' -> use_lock d' = use_lock d ->
     (forall w, owns pgdir T M' w \/ w ∈ fl' <-> owns pgdir T M w \/ w ∈ fl) ->
     keeps (fun w => R w \/ uframe M' w) (mem d) (mem d') -> Q newsz (free b d')) ->
  wp (deallocuvm kend me pgdir oldsz newsz) Q (free b d).
Proof using kend_ok.
  intros Hn Ho H HQ. unfold deallocuvm. destruct (decide (oldsz <= newsz)) as [Hle|Hlt].
  { lk_step. assert (oldsz = newsz) as -> by lia. apply (HQ d fl M); [done| |done|done|done].
    intros x. rewrite decide_False; [done|]. Z.div_mod_to_equations; lia. }
  rewrite PGROUNDUP_page by lia. lk_step. unfold KERNBASE, PGSIZE in *.
  eapply wp_dealloc_loop; [|unfold KERNBASE; lia|lia| |exact H|].
  - unfold UPAGES. Z.div_mod_to_equations; lia.
  - Z.div_mod_to_equations; lia.
  - intros d' fl' M' H1 H2 H3 H4 H5. lk_step. by eapply HQ.
Qed.

(** The loop over the directory frees the page tables that are left. *)
Lemma wp_freevm_loop k i b d fl pgdir (T : gmap Z Z) (K : Z -> Prop) (Q : unit -> guarded kmem -> Prop) :
  0 <= i -> i + Z.of_nat k = 1024 -> kmem_inv d fl -> page_ok pgdir -> pgdir ∉ fl ->
  (forall j, i <= j < 1024 -> mem d (pgdir + 4 * j) = pde_of (T !! j)) ->
  (forall j t, i <= j < 1024 -> T !! j = Some t -> page_ok t /\ t ∉ fl /\ t <> pgdir) ->
  (forall j j' t, T !! j = Some t -> T !! j' = Some t -> j = j') ->
  (forall v, K v -> page_ok v /\ forall j, i <= j < 1024 -> T !! j <> Some v) ->
  (forall d' fl', kmem_inv d' fl' -> use_lock d' = use_lock d ->
     (forall v, v ∈ fl' <-> v ∈ fl \/ exists j, i <= j < 1024 /\ T !! j = Some v) ->
     keeps K (mem d) (mem d') -> Q tt (free b d')) ->
  wp (freevm_loop kend me k pgdir i) Q (free b d).
Proof using kend_ok.
  revert i d fl. induction k as [|k IH]; intros i d fl Hi Hik Hk Hd Hdf Hpde Htab Hinj HK HQ; cbn [freevm_loop].
  - lk_step. apply (HQ d fl); [done|done| |done]. intros v. split; [by left|]. intros [?|(j & Hj & _)]; [done|lia].
  - lk_step. apply wp_rdw. rewrite Hpde by lia. destruct (T !! i) as [t|] eqn:E; cbn [pde_of].
    + destruct (Htab i t ltac:(lia) E) as (Ht & Htf & Htd). destruct (pde_present t Ht) as [-> ->].
      lk_step. eapply (wp_kfree kend me kend_ok (use_lock d)); [done|done|].
      assert (Hother : forall v a, page_ok v -> v <> t -> in_page a v -> freed t (freelist d) (mem d) a = mem d a).
      { intros v a Hv Hne Ha. apply freed_other. intros Ha'. apply Hne. by eapply in_page_inj. }
      apply (IH (i + 1) _ (t :: fl)); cbn [mem]; [lia|lia|by apply kfree_inv|done|by rewrite not_elem_of_cons| | |done| |].
      * intros j Hj. rewrite (Hother pgdir) by (done || by apply in_page_word; lia). apply Hpde. lia.
      * intros j t' Hj Ht'. destruct (Htab j t' ltac:(lia) Ht') as (? & ? & ?). rewrite not_elem_of_cons. split_and!; [done| |done|done].
        intros ->. assert (j = i) by (by eapply Hinj). lia.
      * intros v Hv. destruct (HK v Hv) as [? Hn]. split; [done|]. intros j Hj. apply Hn. lia.
      * intros d' fl' Hk' Hu Hfl Hkeep. apply (HQ d' fl'); [done|done| |].
        -- intros v. rewrite Hfl, elem_of_cons. split.
           ++ intros [[->|?]|(j & Hj & Hv)]; [right; exists i; split; [lia|done]|by left|right; exists j; split; [lia|done]].
           ++ intros [?|(j & Hj & Hv)]; [tauto|]. destruct (decide (j = i)) as [->|]; [left; left; congruence|right; exists j; split; [lia|done]].
        -- eapply keeps_trans; [|exact Hkeep]. intros v a Hv Ha. destruct (HK v Hv) as [Hvok Hvn]. apply (Hother v); [done| |done].
           intros ->. by apply (Hvn i ltac:(lia)).
    + rewrite present_0. lk_step. lk_step. apply (IH (i + 1) d fl); [lia|lia|done|done|done|intros; apply Hpde; lia|intros j t Hj; apply Htab; lia|done| |].
      * intros v Hv. destruct (HK v Hv) as [? Hn]. split; [done|]. intros j Hj. apply Hn. lia.
      * intros d' fl' Hk' Hu Hfl Hkeep. apply (HQ d' fl'); [done|done| |done]. intros v. rewrite Hfl. split.
        -- intros [?|(j & Hj & Hv)]; [by left|right; exists j; split; [lia|done]].
        -- intros [?|(j & Hj & Hv)]; [by left|right]. exists j. split; [|done]. destruct (decide (j = i)) as [->|]; [congruence|lia].
Qed.

(** [freevm] returns every page of the address space to the allocator. *)
Lemma wp_freevm b d fl pgdir T M R (Q : unit -> guarded kmem -> Prop) :
  holds d fl pgdir T M R ->
  (forall d' fl', kmem_inv d' fl' -> use_lock d' = use_lock d -> (forall w, w ∈ fl' <-> owns pgdir T M w \/ w ∈ fl) ->
     keeps R (mem d) (mem d') -> Q tt (free b d')) ->
  wp (freevm kend me pgdir) Q (free b d).
Proof using kend_ok.
  intros H HQ. unfold freevm. pose proof (a_dir _ _ _ _ _ (h_space _ _ _ _ _ _ H)) as Hd.
  rewrite decide_False by (pose proof (page_pos pgdir 0 Hd); lia). lk_step.
  eapply wp_deallocuvm; [unfold KERNBASE; lia|lia|exact H|]. intros d1 fl1 M1 H1 HM1 Hu1 Hp1 Hk1. lk_step.
  assert (Hown : forall w, owns pgdir T M1 w <-> w = pgdir \/ exists i, T !! i = Some w).
  { intros w. unfold owns. split; [|tauto]. intros [?|[?|(n & p & Hn & Hu & _)]]; [tauto|tauto|]. exfalso. rewrite HM1 in Hn.
    destruct (a_map _ _ _ _ _ (h_space _ _ _ _ _ _ H1) n p) as (Hr & _); [by rewrite HM1|].
    rewrite decide_True in Hn; [done|]. change ((0 + 4095) / 4096) with 0. unfold UPAGES, KERNBASE in *. lia. }
  destruct H1 as [Hk Hs Ho Hr].
  apply (wp_freevm_loop NPDENTRIES 0 b d1 fl1 pgdir T (fun v => R v \/ v = pgdir)); [lia|done|done|done|by apply Ho; left|apply (a_pde _ _ _ _ _ Hs)| |apply (a_tab_inj _ _ _ _ _ Hs)| |].
  - intros j t _ Ht. destruct (a_tab _ _ _ _ _ Hs _ _ Ht) as (_ & ? & ?). split_and!; [done| |done]. apply Ho. right; left; eauto.
  - intros v [Hv| ->].
    + destruct (Hr v Hv) as (? & ? & Hn). split; [done|]. intros j _ Hj. apply Hn. right; left; eauto.
    + split; [done|]. intros j _ Hj. by destruct (a_tab _ _ _ _ _ Hs _ _ Hj) as (_ & _ & ?).
  - intros d2 fl2 Hk2 Hu2 Hfl2 Hkeep2.
    assert (Hpf : pgdir ∉ fl2).
    { rewrite Hfl2. intros [Hx|(j & _ & Hj)]; [revert Hx; apply Ho; by left|]. by destruct (a_tab _ _ _ _ _ Hs _ _ Hj) as (_ & _ & ?). }
    eapply (wp_kfree kend me kend_ok (use_lock d2)); [done|done|].
    apply (HQ _ (pgdir :: fl2)); [by apply kfree_inv|cbn; congruence| |].
    + intros w. rewrite elem_of_cons, Hfl2, <- Hp1, Hown. split; [naive_solver|]. intros [[->|[i Hi]]|?]; [tauto| |tauto].
      right; right. exists i. destruct (a_tab _ _ _ _ _ Hs _ _ Hi) as (? & _). done.
    + eapply keeps_trans; [eapply keeps_mono; [|exact Hk1]; by left|].
      eapply keeps_trans; [eapply keeps_mono; [|exact Hkeep2]; by left|]. cbn [mem].
      apply (keeps_page kend _ pgdir); [done| |intros a Ha; by apply freed_other].
      intros w Hw. destruct (Hr w Hw) as (? & ? & Hn). split; [done|]. intros ->. apply Hn. by left.
Qed.

End Ops.
End VmOps.
