(* ===== verification/VmSpace.v ===== *)
(** * Kernel mappings, growing and copying address spaces *)
From S2P Require Export VmOps.

Module VmSpace.
Import Spin Locked Kalloc Vm VmBase VmOps.
Local Open Scope Z_scope.

Section Space.
Context (kend : Z) (kend_ok : KERNBASE < kend) (me : nat).
Notation page_ok := (page_ok kend).
Notation aspace := (aspace kend).
Notation kmem_inv := (kmem_inv kend).
Notation holds := (holds kend).

(** ** Kernel pages *)

(** Pages [n] to [n + k] are mapped to [pa] on, with [f]. *)
Definition range_mapped (n k pa f : Z) (M M' : gmap Z Z) : Prop :=
  forall x, M' !! x = if decide (n <= x <= n + k) then Some (pa + 4096 * (x - n) + f) else M !! x.

(** What a range of kernel mappings changes, whether or not it succeeds. *)
Definition grown (pgdir : Z) (R : Z -> Prop) (d : kmem) (fl : list Z) (T M : gmap Z Z) (d' : kmem) (fl' : list Z) (T' M' : gmap Z Z) : Prop :=
  holds d' fl' pgdir T' M' R /\ use_lock d' = use_lock d /\
  (forall w, owns pgdir T' M' w \/ w ∈ fl' <-> owns pgdir T M w \/ w ∈ fl) /\
  keeps (fun w => R w \/ uframe M w) (mem d) (mem d') /\
  (forall x, x < UPAGES -> M' !! x = M !! x) /\
  (forall i, i < 512 -> T' !! i = T !! i).

Lemma grown_refl pgdir R d fl T M : holds d fl pgdir T M R -> grown pgdir R d fl T M d fl T M.
Proof. intros H. split_and!; done. Qed.

Lemma grown_trans pgdir R d1 fl1 T1 M1 d2 fl2 T2 M2 d3 fl3 T3 M3 :
  grown pgdir R d1 fl1 T1 M1 d2 fl2 T2 M2 -> grown pgdir R d2 fl2 T2 M2 d3 fl3 T3 M3 -> grown pgdir R d1 fl1 T1 M1 d3 fl3 T3 M3.
Proof.
  intros (H1 & Hu1 & Hp1 & Hk1 & Hm1 & Ht1) (H2 & Hu2 & Hp2 & Hk2 & Hm2 & Ht2). split_and!; [done|congruence| | | |].
  - intros w. by rewrite Hp2.
  - eapply keeps_trans; [exact Hk1|]. eapply keeps_mono; [|exact Hk2]. intros w [?|?]; [by left|right]. by apply (uframe_ext M1 M2).
  - intros x Hx. by rewrite Hm2, Hm1.
  - intros i Hi. by rewrite Ht2, Ht1.
Qed.

(** One round of the loop of [mappages] on a kernel page; [k] is the rest. *)
Lemma wp_map_kernel_page n pa perm (k : km Z) b d fl pgdir T M R (Q : Z -> guarded kmem -> Prop) :
  UPAGES <= n < 1048576 -> pa mod 4096 = 0 -> 0 <= perm < 4096 -> M !! n = None -> holds d fl pgdir T M R ->
  (fl = [] -> Q (-1) (free b d)) ->
  (forall d' fl' T', grown pgdir R d fl T M d' fl' T' (<[n := pa + Z.lor perm 1]> M) -> wp k Q (free b d')) ->
  wp (pte ← walkpgdir me pgdir (4096 * n) true;
      if decide (pte = 0) then mret (-1)
      else x ← rdw pte; if present x then panic "remap" else wrw pte (Z.lor (Z.lor pa perm) PTE_P) ;; k) Q (free b d).
Proof using kend_ok.
  intros Hn Hpa Hperm HM H Hfail HQ. lk_step. pose proof (Z.mod_pos_bound n 1024 ltac:(lia)) as Hj. destruct (lor_1 perm Hperm) as [Hl1 Hl2].
  assert (Hset : forall d1 fl1 T1 t, grown pgdir R d fl T M d1 fl1 T1 M -> T1 !! (n / 1024) = Some t ->
    wp (if decide (t + 4 * (n mod 1024) = 0) then mret (-1)
        else x ← rdw (t + 4 * (n mod 1024));
          if present x then panic "remap" else wrw (t + 4 * (n mod 1024)) (Z.lor (Z.lor pa perm) PTE_P) ;; k) Q (free b d1)).
  { intros d1 fl1 T1 t Hg Ht. pose proof Hg as (H1 & _). destruct (a_tab _ _ _ _ _ (h_space _ _ _ _ _ _ _ H1) _ _ Ht) as (_ & Htok & _).
    rewrite decide_False by (apply (page_pos kend kend_ok); [done|lia]). lk_step. apply wp_rdw.
    rewrite (entry_absent kend _ _ _ _ _ _ _ _ H1 Ht), HM. change (default 0 None) with 0. rewrite present_0. lk_step. apply wp_updm.
    rewrite pte_value by done.
    destruct (holds_map_kernel kend d1 fl1 pgdir T1 M R n t (pa + Z.lor perm 1) H1 Hn Ht HM) as (H2 & H3 & H4); [by apply present_add|].
    apply (HQ _ fl1 T1). eapply grown_trans; [exact Hg|]. split_and!; [done|done|intros w; by rewrite H3|done| |done].
    intros x Hx. by rewrite lookup_insert_ne by lia. }
  eapply (wp_walk kend kend_ok); [unfold UPAGES in *; lia|exact H| | |].
  - intros t Ht. apply (Hset d fl T t); [by apply grown_refl|done].
  - intros _ [?|Hfl]; [done|]. rewrite decide_True by done. lk_step. by apply Hfail.
  - intros t fl' d' _ _ _ Hu H' Hp Hk. apply (Hset d' fl' (<[n / 1024 := t]> T) t); [|by rewrite lookup_insert_eq]. split_and!; [done..|].
    intros i Hi. rewrite lookup_insert_ne; [done|]. unfold UPAGES in *. Z.div_mod_to_equations. lia.
Qed.

Lemma wp_map_range k fuel n pa perm b d fl pgdir T M R (Q : Z -> guarded kmem -> Prop) :
  UPAGES <= n -> n + Z.of_nat k < 1048576 -> (k < fuel)%nat -> pa mod 4096 = 0 -> 0 <= pa -> pa + 4096 * Z.of_nat k < 4294967296 ->
  0 <= perm < 4096 -> (forall x, n <= x <= n + Z.of_nat k -> M !! x = None) -> holds d fl pgdir T M R ->
  (forall d' T' M', grown pgdir R d fl T M d' [] T' M' -> Q (-1) (free b d')) ->
  (forall d' fl' T' M', grown pgdir R d fl T M d' fl' T' M' -> range_mapped n (Z.of_nat k) pa (Z.lor perm 1) M M' -> Q 0 (free b d')) ->
  wp (mappages_loop me fuel pgdir (4096 * n) (4096 * (n + Z.of_nat k)) pa perm) Q (free b d).
Proof using kend_ok.
  revert fuel n pa d fl T M. induction k as [|k IH]; intros fuel n pa d fl T M Hn Hnk Hf Hpa Hpa0 Hpak Hperm HM H Hfail HQ;
    (destruct fuel as [|fuel]; [lia|]); cbn [mappages_loop];
    (eapply wp_map_kernel_page; [lia|done|done|apply HM; lia|exact H|intros ->; by eapply Hfail, grown_refl|]); intros d1 fl1 T1 Hg.
  - rewrite decide_True by lia. lk_step. apply (HQ d1 fl1 T1 _ Hg). intros x. destruct (decide (x = n)) as [->|Hx].
    + rewrite lookup_insert_eq, decide_True by lia. f_equal. lia.
    + rewrite lookup_insert_ne by done. by rewrite decide_False by lia.
  - rewrite decide_False by lia. unfold PGSIZE. unfold UPAGES in *. rewrite (uint32_id (4096 * n + 4096)), (uint32_id (pa + 4096)) by lia.
    replace (4096 * n + 4096) with (4096 * (n + 1)) by lia. replace (n + Z.of_nat (S k)) with (n + 1 + Z.of_nat k) by lia.
    apply (IH fuel (n + 1) (pa + 4096) d1 fl1 T1 (<[n := pa + Z.lor perm 1]> M)); [lia|lia|lia|Z.div_mod_to_equations; lia|lia|lia|done| |apply Hg| |].
    + intros x Hx. rewrite lookup_insert_ne by lia. apply HM. lia.
    + intros d' T' M' Hg'. eapply Hfail, grown_trans; [exact Hg|exact Hg'].
    + intros d' fl' T' M' Hg' HM'. apply (HQ d' fl' T' M'); [by eapply grown_trans|]. intros x. rewrite HM'.
      destruct (decide (x = n)) as [->|Hx].
      * rewrite decide_False, lookup_insert_eq, decide_True by lia. f_equal. lia.
      * rewrite lookup_insert_ne by done. destruct (decide (n + 1 <= x <= n + 1 + Z.of_nat k)); [rewrite decide_True by lia; f_equal; lia|by rewrite decide_False by lia].
Qed.

(** [mappages] of a range of kernel pages. *)
Lemma wp_map_kernel n k pa perm b d fl pgdir T M R (Q : Z -> guarded kmem -> Prop) :
  UPAGES <= n -> 0 <= k -> n + k < 1048576 -> pa mod 4096 = 0 -> 0 <= pa -> pa + 4096 * k < 4294967296 ->
  0 <= perm < 4096 -> (forall x, n <= x <= n + k -> M !! x = None) -> holds d fl pgdir T M R ->
  (forall d' T' M', grown pgdir R d fl T M d' [] T' M' -> Q (-1) (free b d')) ->
  (forall d' fl' T' M', grown pgdir R d fl T M d' fl' T' M' -> range_mapped n k pa (Z.lor perm 1) M M' -> Q 0 (free b d')) ->
  wp (mappages me pgdir (4096 * n) (4096 * (k + 1)) pa perm) Q (free b d).
Proof using kend_ok.
  intros Hn Hk Hnk Hpa Hpa0 Hpak Hperm HM H Hfail HQ. unfold mappages, UPAGES in *. rewrite !PGROUNDDOWN_spec.
  rewrite (uint32_id (4096 * n + 4096 * (k + 1) - 1)) by lia.
  replace (4096 * n / 4096) with n by (Z.div_mod_to_equations; lia).
  replace ((4096 * n + 4096 * (k + 1) - 1) / 4096) with (n + k) by (Z.div_mod_to_equations; lia).
  rewrite (uint32_id (4096 * (n + k) - 4096 * n)) by lia. unfold PGSIZE. replace ((4096 * (n + k) - 4096 * n) / 4096) with k by (Z.div_mod_to_equations; lia).
  rewrite <- (Z2Nat.id k) at 2 by done.
  apply (wp_map_range (Z.to_nat k) (S (Z.to_nat k)) n pa perm b d fl pgdir T M R); rewrite ?Z2Nat.id by done; unfold UPAGES; done || lia.
Qed.

(** ** Running out of memory *)

(** Pages that an address space has, but for user frames outside of [lo] to
    [n - 1]. *)
Lemma count_pages m pgdir T M lo n l :
  aspace m pgdir T M -> lo <= n -> NoDup l ->
  (forall w, w ∈ l -> w = pgdir \/ (exists i, T !! i = Some w) \/ exists x p, lo <= x < n /\ M !! x = Some p /\ frame p = w) ->
  Z.of_nat (length l) <= 1025 + (n - lo).
Proof.
  intros Hs Hn Hnd Hl.
  assert (Hsub : l ⊆+ pgdir :: ((fun i => default 0 (T !! i)) <$> seqZ 0 1024) ++ ((fun x => default 0 (frame <$> M !! x)) <$> seqZ lo (n - lo))).
  { apply NoDup_submseteq; [done|]. intros w Hw. rewrite elem_of_cons, elem_of_app, !list_elem_of_fmap. destruct (Hl w Hw) as [?|[(i & Hi)|(x & p & Hx & Hp & Hf)]]; [by left|right; left|right; right].
    - exists i. rewrite Hi. split; [done|]. apply elem_of_seqZ. destruct (a_tab _ _ _ _ _ Hs _ _ Hi) as [? _]. lia.
    - exists x. rewrite Hp. split; [done|]. apply elem_of_seqZ. lia. }
  apply submseteq_length in Hsub. cbn [length] in Hsub. rewrite length_app, !length_fmap, !length_seqZ in Hsub. lia.
Qed.

Lemma length_outside (fl fl0 : list Z) : NoDup fl0 -> (length fl0 <= length (filter (fun w => w ∉ fl) fl0) + length fl)%nat.
Proof.
  intros Hnd. rewrite <- length_app. apply submseteq_length, NoDup_submseteq; [done|]. intros w Hw. rewrite elem_of_app, list_elem_of_filter.
  destruct (decide (w ∈ fl)); tauto.
Qed.

(** The free pages [fl] are not enough for a page directory, all page tables and
    [n] pages. *)
Definition short (fl : list Z) (n : Z) : Prop := Z.of_nat (length fl) <= 1025 + n.
Lemma short_mono fl n k : n <= k -> short fl n -> short fl k.
Proof. unfold short. lia. Qed.

(** ** A new address space *)

(** [p] is an address space made of pages of [fl0]. *)
Definition born (p : Z) (R : Z -> Prop) (d0 : kmem) (fl0 : list Z) (d : kmem) (fl : list Z) (T M : gmap Z Z) : Prop :=
  holds d fl p T M R /\ use_lock d = use_lock d0 /\
  (forall w, owns p T M w \/ w ∈ fl <-> w ∈ fl0) /\ keeps R (mem d0) (mem d).

(** All pages are back in the free list. *)
Definition returned (R : Z -> Prop) (d0 : kmem) (fl0 : list Z) (d : kmem) (fl : list Z) : Prop :=
  kmem_inv d fl /\ use_lock d = use_lock d0 /\ (forall w, w ∈ fl <-> w ∈ fl0) /\ keeps R (mem d0) (mem d).

Lemma born_grown p R d0 fl0 d fl T M d' fl' T' M' :
  born p R d0 fl0 d fl T M -> grown p R d fl T M d' fl' T' M' -> born p R d0 fl0 d' fl' T' M'.
Proof.
  intros (H & Hu & Hp & Hk) (H' & Hu' & Hp' & Hk' & _ & _). split_and!; [done|congruence|intros w; by rewrite Hp'|].
  eapply keeps_trans; [exact Hk|]. eapply keeps_mono; [|exact Hk']. by left.
Qed.

(** When the new address space has [n] pages and [k] free ones are left. *)
Lemma born_short p R d0 fl0 d fl T M n :
  born p R d0 fl0 d fl T M -> NoDup fl0 -> 0 <= n -> (forall x, is_Some (M !! x) -> x < UPAGES -> x < n) -> short fl0 (n + Z.of_nat (length fl)).
Proof.
  intros ([Hk Hs Ho _] & _ & Hp & _) Hnd Hn HM. unfold short.
  assert (Hf : NoDup (filter (fun w => w ∉ fl) fl0)) by (by apply NoDup_filter).
  pose proof (count_pages _ _ _ _ 0 n _ Hs Hn Hf) as Hc.
  pose proof (length_outside fl fl0 Hnd) as Hle.
  assert (Z.of_nat (length (filter (fun w => w ∉ fl) fl0)) <= 1025 + (n - 0)); [|lia]. apply Hc. intros w [Hw Hw0]%list_elem_of_filter.
  apply Hp in Hw0 as [[->|[Ht|(x & q & Hx & Hu & Hq)]]|?]; [by left|by right; left| |done]. right; right. exists x, q.
  destruct (a_map _ _ _ _ _ Hs _ _ Hx) as (? & _). split; [|done]. split; [lia|]. apply HM; [by eexists|done].
Qed.

(** The free pages [fl] are not enough for a page directory and the page tables of
    the kernel's half. *)
Definition few (fl : list Z) : Prop := Z.of_nat (length fl) <= 513.
Lemma few_short fl n : 0 <= n -> few fl -> short fl n.
Proof. unfold few, short. lia. Qed.

Lemma born_count p R d0 fl0 d fl T M :
  born p R d0 fl0 d fl T M -> NoDup fl0 -> (forall x, x < UPAGES -> M !! x = None) -> (forall i, i < 512 -> T !! i = None) ->
  Z.of_nat (length fl0) <= 513 + Z.of_nat (length fl).
Proof.
  intros ([Hk Hs Ho _] & _ & Hp & _) Hnd HM HT.
  assert (Hsub : fl0 ⊆+ p :: ((fun i => default 0 (T !! i)) <$> seqZ 512 512) ++ fl).
  { apply NoDup_submseteq; [done|]. intros w Hw. rewrite elem_of_cons, elem_of_app, list_elem_of_fmap.
    apply Hp in Hw as [[->|[(i & Hi)|(x & q & Hx & Hu & _)]]|Hw]; [by left| | |by right; right].
    - right; left. exists i. rewrite Hi. split; [done|]. apply elem_of_seqZ. destruct (a_tab _ _ _ _ _ Hs _ _ Hi) as [? _].
      destruct (decide (i < 512)); [by rewrite HT in Hi|lia].
    - by rewrite HM in Hx. }
  apply submseteq_length in Hsub. cbn [length] in Hsub. rewrite length_app, length_fmap, length_seqZ in Hsub. lia.
Qed.
Lemma born_few p R d0 fl0 d T M :
  born p R d0 fl0 d [] T M -> NoDup fl0 -> (forall x, x < UPAGES -> M !! x = None) -> (forall i, i < 512 -> T !! i = None) -> few fl0.
Proof. intros Hb Hnd HM HT. pose proof (born_count _ _ _ _ _ _ _ _ Hb Hnd HM HT). unfold few. cbn in *. lia. Qed.

Lemma wp_freevm_born p R b d0 fl0 d fl T M (Q : unit -> guarded kmem -> Prop) :
  born p R d0 fl0 d fl T M -> (forall d' fl', returned R d0 fl0 d' fl' -> Q tt (free b d')) -> wp (freevm kend me p) Q (free b d).
Proof using kend_ok.
  intros (H & Hu & Hp & Hk) HQ. eapply (wp_freevm kend kend_ok); [exact H|]. intros d' fl' Hk' Hu' Hfl Hkeep. apply (HQ d' fl').
  split_and!; [done|congruence|intros w; by rewrite Hfl|by eapply keeps_trans].
Qed.

Lemma born_new p fl d R :
  kmem_inv d (p :: fl) -> (forall v, R v -> page_ok v /\ v ∉ p :: fl) ->
  born p R d (p :: fl) (mkKmem (use_lock d) (mem d p) (fill_zero p (mem d))) fl ∅ ∅.
Proof.
  intros Hk HR. pose proof (fl_ok kend d (p :: fl) p Hk ltac:(by left)) as Hp.
  pose proof (kalloc_inv kend d p fl Hk) as Hk'. pose proof (km_nodup _ _ _ Hk) as Hnd. apply NoDup_cons in Hnd as [Hpf Hnd].
  assert (Hown : forall v, owns p ∅ ∅ v <-> v = p).
  { intros v. unfold owns. split; [|tauto]. intros [?|[(i & Hi)|(n & q & Hn & _)]]; [done|by rewrite lookup_empty in Hi|by rewrite lookup_empty in Hn]. }
  split_and!; [|done| |].
  - constructor.
    + apply (kmem_inv_write kend (mkKmem (use_lock d) (mem d p) (mem d)) fl p); [done|done|done|by intros a Ha; apply fill_zero_other].
    + constructor; try (intros *; by rewrite lookup_empty); [done|].
      intros i Hi. rewrite lookup_empty. cbn. unfold fill_zero. by rewrite decide_True by by apply in_page_word.
    + by intros v ->%Hown.
    + intros v Hv. destruct (HR v Hv) as [? Hn]. rewrite Hown. split_and!; [done|set_solver|set_solver].
  - intros w. rewrite Hown, elem_of_cons. done.
  - apply (keeps_page kend _ p); [done| |intros a Ha; by apply fill_zero_other]. intros w Hw. destruct (HR w Hw) as [? Hn]. split; [done|set_solver].
Qed.

(** An entry of [kmap]. *)
Lemma wp_kmap_entry n k virt ps pe perm l p R b d0 fl0 d fl T M (Q : Z -> guarded kmem -> Prop) :
  virt = 4096 * n -> uint32 (pe - ps) = 4096 * (k + 1) ->
  UPAGES <= n -> 0 <= k -> n + k < 1048576 -> ps mod 4096 = 0 -> 0 <= ps -> ps + 4096 * k < 4294967296 ->
  0 <= perm < 4096 -> (forall x, n <= x <= n + k -> M !! x = None) -> born p R d0 fl0 d fl T M ->
  NoDup fl0 -> (forall x, x < UPAGES -> M !! x = None) -> (forall i, i < 512 -> T !! i = None) ->
  (forall d' fl', returned R d0 fl0 d' fl' -> few fl0 -> Q 0 (free b d')) ->
  (forall d' fl' T' M', born p R d0 fl0 d' fl' T' M' -> (forall x, x < UPAGES -> M' !! x = None) -> (forall i, i < 512 -> T' !! i = None) -> range_mapped n k ps (Z.lor perm 1) M M' -> wp (map_kernel kend me l p) Q (free b d')) ->
  wp (map_kernel kend me ((virt, ps, pe, perm) :: l) p) Q (free b d).
Proof using kend_ok.
  intros -> Hsz Hn Hk Hnk Hps Hps0 Hpsk Hperm HM Hb Hnd HMu HTu Hfail HQ. cbn [map_kernel]. lk_step. rewrite Hsz.
  eapply wp_map_kernel; [done..|apply Hb| |].
  - intros d' T' M' Hg. rewrite decide_True by lia. lk_step. pose proof (born_grown _ _ _ _ _ _ _ _ _ _ _ _ Hb Hg) as Hb'.
    eapply wp_freevm_born; [exact Hb'|]. intros d2 fl2 H2. lk_step. apply (Hfail d2 fl2 H2). destruct Hg as (_ & _ & _ & _ & Hu & Ht).
    apply (born_few _ _ _ _ _ _ _ Hb' Hnd); [intros x Hx; by rewrite Hu, HMu|intros i Hi; by rewrite Ht, HTu].
  - intros d' fl' T' M' Hg HM'. rewrite decide_False by lia. eapply HQ; [by eapply born_grown| | |done].
    + intros x Hx. destruct Hg as (_ & _ & _ & _ & -> & _); [|done]. by apply HMu.
    + intros i Hi. destruct Hg as (_ & _ & _ & _ & _ & ->); [|done]. by apply HTu.
Qed.

Section Kernel.
(** [data] is at a page boundary (kernel.ld) between the kernel's text and the
    end of memory. *)
Context (kdata : Z) (kdata_align : kdata mod 4096 = 0) (kdata_range : KERNLINK < kdata < KERNBASE + PHYSTOP).

(** The kernel's mappings, as the table in the comment of [vm.c] has them. *)
Definition kernel_pte (x : Z) : option Z :=
  let a := 4096 * x in
  if decide (KERNBASE <= a < KERNLINK) then Some (a - KERNBASE + 3)
  else if decide (KERNLINK <= a < kdata) then Some (a - KERNBASE + 1)
  else if decide (kdata <= a < KERNBASE + PHYSTOP) then Some (a - KERNBASE + 3)
  else if decide (DEVSPACE <= a < 4294967296) then Some (a + 3)
  else None.

Lemma wp_setupkvm R b d fl (Q : Z -> guarded kmem -> Prop) :
  kmem_inv d fl -> (forall v, R v -> page_ok v /\ v ∉ fl) ->
  (forall d' fl', returned R d fl d' fl' -> few fl -> Q 0 (free b d')) ->
  (forall p d' fl' T M, born p R d fl d' fl' T M -> (forall x, M !! x = kernel_pte x) -> (forall i, i < 512 -> T !! i = None) -> Q p (free b d')) ->
  wp (setupkvm kend kdata me) Q (free b d).
Proof using kend_ok kdata_align kdata_range.
  intros Hk HR Hfail HQ. unfold setupkvm. lk_step. eapply (wp_kalloc kend me kend_ok); [exact Hk| |].
  { intros ->. rewrite decide_True by done. lk_step. apply (Hfail d []); [split_and!; done|done]. }
  intros p fl' ->. pose proof (fl_ok kend d _ p Hk ltac:(by left)) as Hp.
  rewrite decide_False by (pose proof (page_pos kend kend_ok p 0 Hp); lia). lk_step. apply wp_updm. cbn [mem use_lock freelist].
  rewrite decide_False by (vm_compute; congruence). pose proof (born_new p fl' d R Hk HR) as H0. pose proof (km_nodup _ _ _ Hk) as Hnd.
  assert (Hdata : V2P kdata = kdata - KERNBASE) by (unfold V2P, KERNLINK, KERNBASE, EXTMEM, PHYSTOP in *; rewrite uint32_id; lia).
  set (k2 := (kdata - KERNLINK) / 4096 - 1). set (k3 := (KERNBASE + PHYSTOP - kdata) / 4096 - 1). set (n3 := kdata / 4096).
  unfold kmap. rewrite Hdata. change (V2P KERNLINK) with 1048576.
  unfold KERNLINK, KERNBASE, EXTMEM, PHYSTOP, DEVSPACE, UPAGES, PTE_W in *.
  assert (Hk2 : 4096 * (k2 + 1) = kdata - 2148532224 /\ 0 <= k2) by (unfold k2; Z.div_mod_to_equations; lia).
  assert (Hk3 : 4096 * (k3 + 1) = 2382364672 - kdata /\ 0 <= k3) by (unfold k3; Z.div_mod_to_equations; lia).
  assert (Hn3 : 4096 * n3 = kdata) by (unfold n3; Z.div_mod_to_equations; lia).
  clearbody k2 k3 n3.
  eapply (wp_kmap_entry 524288 255); [done|done|unfold UPAGES; lia|lia|lia|done|lia|lia|lia|intros x _; apply lookup_empty|exact H0|exact Hnd|intros x _; apply lookup_empty|intros i _; apply lookup_empty|exact Hfail|].
  intros d1 fl1 T1 M1 H1 Hu1 Ht1 HM1.
  eapply (wp_kmap_entry 524544 k2); [done|rewrite uint32_id; lia|unfold UPAGES; lia|lia|lia|done|lia|lia|lia| |exact H1|exact Hnd|exact Hu1|exact Ht1|exact Hfail|].
  { intros x Hx. rewrite HM1, decide_False by lia. apply lookup_empty. }
  intros d2 fl2 T2 M2 H2 Hu2 Ht2 HM2.
  eapply (wp_kmap_entry n3 k3); [lia|rewrite uint32_id; lia|unfold UPAGES; lia|lia|lia|Z.div_mod_to_equations; lia|lia|lia|lia| |exact H2|exact Hnd|exact Hu2|exact Ht2|exact Hfail|].
  { intros x Hx. rewrite HM2, HM1, !decide_False by lia. apply lookup_empty. }
  intros d3 fl3 T3 M3 H3 Hu3 Ht3 HM3.
  eapply (wp_kmap_entry 1040384 8191); [done|done|unfold UPAGES; lia|lia|lia|done|lia|lia|lia| |exact H3|exact Hnd|exact Hu3|exact Ht3|exact Hfail|].
  { intros x Hx. rewrite HM3, HM2, HM1, !decide_False by lia. apply lookup_empty. }
  intros d4 fl4 T4 M4 H4 _ Ht4 HM4. cbn [map_kernel]. lk_step. apply (HQ p d4 fl4 T4 M4 H4); [|done].
  intros x. rewrite HM4, HM3, HM2, HM1, lookup_empty. unfold kernel_pte. cbv zeta.
  unfold KERNLINK, KERNBASE, EXTMEM, PHYSTOP, DEVSPACE. change (Z.lor 2 1) with 3. change (Z.lor 0 1) with 1.
  repeat case_decide; try lia; try done; f_equal; lia.
Qed.
End Kernel.

(** ** Pages in hand *)

(** [kalloc] moves a page from the free list to the rest, and its contents
    change. *)
Lemma holds_alloc d v fl pgdir T M R m' :
  holds d (v :: fl) pgdir T M R -> (forall a, ~ in_page a v -> m' a = mem d a) ->
  holds (mkKmem (use_lock d) (mem d v) m') fl pgdir T M (fun w => R w \/ w = v) /\
  keeps (fun w => R w \/ owns pgdir T M w) (mem d) m' /\ page_ok v.
Proof.
  intros [Hk Hs Ho Hr] Hm. pose proof (fl_ok kend d (v :: fl) v Hk ltac:(by left)) as Hv.
  pose proof (kalloc_inv kend d v fl Hk) as Hk'. pose proof (km_nodup _ _ _ Hk) as Hnd. apply NoDup_cons in Hnd as [Hvf Hnd].
  assert (Hno : ~ owns pgdir T M v) by (intros H; by apply Ho in H; apply H; left).
  assert (Hkeep : keeps (fun w => R w \/ owns pgdir T M w) (mem d) m').
  { apply (keeps_page kend _ v); [done| |done]. intros w [Hw|Hw].
    - destruct (Hr w Hw) as (? & ? & ?). split; [done|set_solver].
    - split; [by eapply owns_ok|]. intros ->. done. }
  split_and!; [|done|done]. constructor.
  - by apply (kmem_inv_write kend (mkKmem (use_lock d) (mem d v) (mem d)) fl v).
  - eapply aspace_ext; [exact Hs|]. eapply keeps_mono; [|exact Hkeep]. intros w [->|?]; right; [by left|right; by left].
  - intros w Hw. specialize (Ho w Hw). set_solver.
  - intros w [Hw| ->]; [|done]. destruct (Hr w Hw) as (? & ? & ?). split_and!; [done|set_solver|done].
Qed.

(** [kfree] moves it back. *)
Lemma wp_kfree_rest v b d fl pgdir T M R (Q : unit -> guarded kmem -> Prop) :
  holds d fl pgdir T M (fun w => R w \/ w = v) -> ~ R v ->
  (forall d', holds d' (v :: fl) pgdir T M R -> use_lock d' = use_lock d ->
     keeps (fun w => R w \/ owns pgdir T M w) (mem d) (mem d') -> Q tt (free b d')) ->
  wp (kfree kend me v) Q (free b d).
Proof using kend_ok.
  intros [Hk Hs Ho Hr] HnR HQ. destruct (Hr v ltac:(by right)) as (Hv & Hvf & Hvo). eapply (wp_kfree kend me kend_ok (use_lock d)); [done|done|].
  assert (Hkeep : keeps (fun w => R w \/ owns pgdir T M w) (mem d) (freed v (freelist d) (mem d))).
  { apply (keeps_page kend _ v); [done| |intros a Ha; by apply freed_other]. intros w [Hw|Hw].
    - destruct (Hr w ltac:(by left)) as (? & ? & ?). split; [done|]. by intros ->.
    - split; [by eapply owns_ok|]. by intros ->. }
  apply HQ; [|done|done]. constructor; [by apply kfree_inv| | |].
  - eapply aspace_ext; [exact Hs|]. eapply keeps_mono; [|exact Hkeep]. intros w [->|?]; right; [by left|right; by left].
  - intros w Hw. rewrite not_elem_of_cons. split; [by intros ->|by apply Ho].
  - intros w Hw. destruct (Hr w ltac:(by left)) as (? & ? & ?). split_and!; [done| |done]. rewrite not_elem_of_cons. split; [by intros ->|done].
Qed.

Lemma holds_mono d fl pgdir T M (R R' : Z -> Prop) : (forall w, R' w -> R w) -> holds d fl pgdir T M R -> holds d fl pgdir T M R'.
Proof. intros HR [? ? ? Hr]. constructor; [done..|]. intros v Hv. by apply Hr, HR. Qed.

(** ** Growing *)

(** Pages [lo] to [n - 1] are new: they are mapped for the user to zeroed
    frames. *)
Definition added (lo n : Z) (M Mn : gmap Z Z) (m : Z -> Z) : Prop :=
  forall x, if decide (lo <= x < n) then exists v, Mn !! x = Some (pte_of v 7) /\ page_ok v /\ forall a, in_page a v -> m a = 0
            else Mn !! x = M !! x.

(** What [allocuvm] leaves alone. *)
Definition evolved (pgdir : Z) (R : Z -> Prop) (d : kmem) (fl : list Z) (T M : gmap Z Z) (d' : kmem) (fl' : list Z) (T' M' : gmap Z Z) : Prop :=
  holds d' fl' pgdir T' M' R /\ use_lock d' = use_lock d /\
  (forall w, owns pgdir T' M' w \/ w ∈ fl' <-> owns pgdir T M w \/ w ∈ fl) /\
  keeps (fun w => R w \/ uframe M w) (mem d) (mem d').

Lemma uframe_owns pgdir T M v : uframe M v -> owns pgdir T M v.
Proof. intros H. by right; right. Qed.

(** The frames of [M] are frames of any map that extends it on user pages. *)
Lemma added_uframe lo n M Mn m v :
  added lo n M Mn m -> (forall x, lo <= x < n -> M !! x = None) -> uframe M v -> uframe Mn v.
Proof.
  intros Ha HM (k & p & Hk & Hu & Hf). exists k, p. split_and!; [|done|done]. specialize (Ha k). case_decide as E; [|by rewrite Ha].
  rewrite HM in Hk by done. done.
Qed.

(** The error path: the pages added so far are freed. *)
Lemma wp_undo lo n oldsz newsz b d fl pgdir T Mn M R m (Q : Z -> guarded kmem -> Prop) :
  lo = (oldsz + 4095) / 4096 -> 0 <= oldsz <= newsz -> newsz <= KERNBASE -> 4096 * n < newsz + 4096 ->
  holds d fl pgdir T Mn R -> added lo n M Mn m ->
  (forall x, lo <= x -> 4096 * x < newsz -> M !! x = None) ->
  (forall d' fl', holds d' fl' pgdir T M R -> use_lock d' = use_lock d ->
     (forall w, owns pgdir T M w \/ w ∈ fl' <-> owns pgdir T Mn w \/ w ∈ fl) ->
     keeps (fun w => R w \/ uframe M w) (mem d) (mem d') -> Q oldsz (free b d')) ->
  wp (deallocuvm kend me pgdir newsz oldsz) Q (free b d).
Proof using kend_ok.
  intros -> Ho Hn Hnn H Ha HM HQ. eapply (wp_deallocuvm kend kend_ok); [lia|done|exact H|]. intros d' fl' M' H' HM' Hu Hp Hk.
  assert (M' = M) as ->; [|by apply (HQ d' fl')]. apply map_eq. intros x. rewrite HM'. case_decide as E.
  - symmetry. apply HM; lia.
  - specialize (Ha x). rewrite decide_False in Ha by lia. done.
Qed.

Lemma added_short pgdir fl0 T0 M0 m m' fl T Mn lo n :
  aspace m pgdir T Mn -> (forall w, owns pgdir T Mn w \/ w ∈ fl <-> owns pgdir T0 M0 w \/ w ∈ fl0) -> added lo n M0 Mn m' -> lo <= n ->
  NoDup fl0 -> (forall w, owns pgdir T0 M0 w -> w ∉ fl0) -> short fl0 (n - lo + Z.of_nat (length fl)).
Proof.
  intros Hs Hp Ha Hn Hnd Hdis. unfold short.
  assert (Hf : NoDup (filter (fun w => w ∉ fl) fl0)) by (by apply NoDup_filter).
  pose proof (length_outside fl fl0 Hnd) as Hle.
  pose proof (count_pages _ _ _ _ lo n _ Hs Hn Hf) as Hc.
  assert (Z.of_nat (length (filter (fun w => w ∉ fl) fl0)) <= 1025 + (n - lo)); [|lia]. apply Hc. intros w [Hw Hw0]%list_elem_of_filter.
  destruct (proj2 (Hp w) ltac:(by right)) as [[->|[Ht|(x & q & Hx & Hu & Hq)]]|?]; [by left|by right; left| |done]. right; right. exists x, q.
  split; [|done]. specialize (Ha x). destruct (decide (lo <= x < n)); [done|]. exfalso. apply (Hdis w); [|done].
  right; right. exists x, q. by rewrite <- Ha.
Qed.

Lemma wp_allocuvm_loop fuel lo n oldsz newsz b d0 fl0 T0 M0 d fl pgdir T Mn R (Q : Z -> guarded kmem -> Prop) :
  lo = (oldsz + 4095) / 4096 -> 0 <= oldsz <= newsz -> newsz < KERNBASE -> lo <= n -> 4096 * n < newsz + 4096 ->
  (0 < fuel)%nat -> newsz <= 4096 * (n + Z.of_nat fuel - 1) ->
  (forall x, lo <= x -> 4096 * x < newsz -> M0 !! x = None) ->
  NoDup fl0 -> (forall w, owns pgdir T0 M0 w -> w ∉ fl0) ->
  evolved pgdir R d0 fl0 T0 M0 d fl T Mn -> added lo n M0 Mn (mem d) ->
  (forall d' fl' T', evolved pgdir R d0 fl0 T0 M0 d' fl' T' M0 -> short fl0 ((newsz + 4095) / 4096 - lo) -> Q 0 (free b d')) ->
  (forall d' fl' T' M', evolved pgdir R d0 fl0 T0 M0 d' fl' T' M' -> added lo ((newsz + 4095) / 4096) M0 M' (mem d') -> Q newsz (free b d')) ->
  wp (allocuvm_loop kend me fuel pgdir (4096 * n) oldsz newsz) Q (free b d).
Proof using kend_ok.
  intros Hlo Ho Hnew. revert n d fl T Mn. induction fuel as [|fuel IH]; intros n d fl T Mn Hln Hn Hf0 Hf HM0 Hnd Hdis (H & Hu & Hp & Hk) Ha Hfail HQ; [lia|].
  assert (Hlo0 : 0 <= lo) by (subst lo; Z.div_mod_to_equations; lia). cbn [allocuvm_loop]. unfold KERNBASE in Hnew.
  destruct (decide (4096 * n < newsz)) as [Hlt|Hge]; cycle 1.
  { lk_step. apply (HQ d fl T Mn); [by split_and!|]. replace ((newsz + 4095) / 4096) with n by (Z.div_mod_to_equations; lia). done. }
  pose proof (added_short _ _ _ _ _ _ _ _ _ _ _ (h_space _ _ _ _ _ _ _ H) Hp Ha Hln Hnd Hdis) as Hshort.
  assert (Hlast : n + 1 <= (newsz + 4095) / 4096) by (Z.div_mod_to_equations; lia).
  lk_step. eapply (wp_kalloc kend me kend_ok); [apply H| |].
  { intros ->. rewrite decide_True by done. lk_step. eapply wp_undo; [exact Hlo|done|unfold KERNBASE; lia|exact Hn|exact H|exact Ha|done|].
    intros d' fl' H' Hu' Hp' Hk'. lk_step. apply (Hfail d' fl' T); [|eapply short_mono; [|exact Hshort]; cbn; lia].
    split_and!; [done|congruence|intros w; by rewrite Hp'|]. by eapply keeps_trans. }
  intros v fl' ->. destruct (holds_alloc d v fl' pgdir T Mn R (fill_zero v (mem d)) H (fill_zero_other v (mem d))) as (H1 & Hk1 & Hv).
  rewrite decide_False by (pose proof (page_pos kend kend_ok v 0 Hv); lia). lk_step. apply wp_updm. cbn [mem use_lock freelist]. lk_step.
  change (Z.lor PTE_W PTE_U) with 6. set (d1 := mkKmem (use_lock d) (mem d v) (fill_zero v (mem d))) in *.
  assert (HvR : ~ R v). { intros Hx. destruct (h_rest _ _ _ _ _ _ _ H v Hx) as (_ & Hy & _). set_solver. }
  assert (HMn : Mn !! n = None) by (pose proof (Ha n) as Hx; rewrite decide_False in Hx by lia; rewrite Hx; apply HM0; lia).
  assert (Hz1 : added lo n M0 Mn (fill_zero v (mem d))).
  { intros x. specialize (Ha x). case_decide; [|done]. destruct Ha as (w & Hw & Hwok & Hw0). exists w. split_and!; [done|done|].
    intros a Hin. unfold fill_zero. case_decide; [done|by apply Hw0]. }
  assert (Hk01 : keeps (fun w => R w \/ uframe M0 w) (mem d0) (mem d1)).
  { eapply keeps_trans; [exact Hk|]. eapply keeps_mono; [|exact Hk1]. intros w [?|Hw]; [by left|right]. apply uframe_owns.
    eapply added_uframe; [exact Ha| |exact Hw]. intros x Hx. apply HM0; lia. }
  eapply (wp_map_user kend kend_ok me n v 6 b d1 fl' pgdir T Mn); [unfold UPAGES; lia|exact H1|done|by right|lia| |].
  - intros ->. rewrite decide_True by lia. lk_step. eapply (wp_undo lo n); [exact Hlo|done|unfold KERNBASE; lia|exact Hn|exact H1|exact Hz1|done|].
    intros d2 fl2 H2 Hu2 Hp2 Hk2. lk_step. eapply wp_kfree_rest; [exact H2|done|]. intros d3 H3 Hu3 Hk3. lk_step.
    apply (Hfail d3 (v :: fl2) T); [|eapply short_mono; [|exact Hshort]; cbn; lia]. split_and!; [done|cbn in Hu2; congruence| |].
    + intros w. rewrite <- Hp, !elem_of_cons. specialize (Hp2 w). tauto.
    + eapply keeps_trans; [exact Hk01|]. eapply keeps_trans; [eapply keeps_mono; [|exact Hk2]; naive_solver|].
      eapply keeps_mono; [|exact Hk3]. intros w [?|?]; [by left|right; by apply uframe_owns].
  - intros d2 fl2 T2 M2 H2 Hu2 Hp2 Hk2. rewrite decide_False by lia. unfold PGSIZE. rewrite uint32_id by lia.
    replace (4096 * n + 4096) with (4096 * (n + 1)) by lia. change (Z.lor 6 1) with 7 in M2.
    assert (Hsub : forall w, uframe M0 w -> uframe Mn w) by (intros w Hw; eapply added_uframe; [exact Ha| |exact Hw]; intros x Hx; apply HM0; lia).
    apply (IH (n + 1) d2 fl2 T2 M2); [lia|lia|lia|lia|done|done|done| | |done|done].
    + split_and!; [eapply holds_mono; [|exact H2]|cbn in Hu2; congruence| |].
      * intros w Hw. split; [by left|]. by intros ->.
      * intros w. rewrite Hp2, <- Hp, elem_of_cons. tauto.
      * eapply keeps_trans; [exact Hk01|]. eapply keeps_mono; [|exact Hk2]. intros w [?|?]; [left; by left|right; by apply Hsub].
    + intros x. destruct (decide (x = n)) as [->|Hx].
      * rewrite decide_True by lia. exists v. unfold M2. rewrite lookup_insert_eq. split_and!; [done|done|]. intros a Hin.
        rewrite (Hk2 v a ltac:(left; by right) Hin). cbn [mem d1]. unfold fill_zero. by rewrite decide_True.
      * unfold M2. rewrite lookup_insert_ne by done. specialize (Hz1 x). destruct (decide (lo <= x < n)) as [Hin|Hout].
        -- rewrite decide_True by lia. destruct Hz1 as (w & Hw & Hwok & Hw0). exists w. split_and!; [done|done|]. intros a Ha'.
           rewrite (Hk2 w a); [by apply Hw0| |done]. right. exists x, (pte_of w 7). split_and!; [done|unfold UPAGES; lia|]. by apply (frame_pte_of kend); [..|lia].
        -- rewrite decide_False by lia. done.
Qed.

Lemma wp_allocuvm oldsz newsz b d fl pgdir T M R (Q : Z -> guarded kmem -> Prop) :
  0 <= oldsz <= newsz -> newsz < KERNBASE -> holds d fl pgdir T M R ->
  (forall x, (oldsz + 4095) / 4096 <= x -> 4096 * x < newsz -> M !! x = None) ->
  (forall d' fl' T', evolved pgdir R d fl T M d' fl' T' M -> short fl ((newsz + 4095) / 4096 - (oldsz + 4095) / 4096) -> Q 0 (free b d')) ->
  (forall d' fl' T' M', evolved pgdir R d fl T M d' fl' T' M' ->
     added ((oldsz + 4095) / 4096) ((newsz + 4095) / 4096) M M' (mem d') -> Q newsz (free b d')) ->
  wp (allocuvm kend me pgdir oldsz newsz) Q (free b d).
Proof using kend_ok.
  intros Ho Hn H HM Hfail HQ. unfold allocuvm. rewrite decide_False, decide_False by lia. rewrite PGROUNDUP_page by lia.
  unfold PGSIZE. eapply (wp_allocuvm_loop _ _ ((oldsz + 4095) / 4096)); [done|done|done|lia|Z.div_mod_to_equations; lia|lia|Z.div_mod_to_equations; lia|exact HM|apply (km_nodup _ _ _ (h_kmem _ _ _ _ _ _ _ H))|apply H| | |exact Hfail|exact HQ].
  - split_and!; done.
  - intros x. by rewrite decide_False by lia.
Qed.

(** ** Copying *)

(** Reading the entry of a mapped page. *)
Lemma wp_walk_read n p b d pgdir T M (Q : Z -> guarded kmem -> Prop) :
  aspace (mem d) pgdir T M -> M !! n = Some p ->
  (forall a, a <> 0 -> mem d a = p -> Q a (free b d)) -> wp (walkpgdir me pgdir (4096 * n) false) Q (free b d).
Proof using kend_ok.
  intros Hs HM HQ. destruct (a_map _ _ _ _ _ Hs _ _ HM) as (Hn & [t Ht] & _). destruct (a_tab _ _ _ _ _ Hs _ _ Ht) as (Hi & Htok & _).
  unfold walkpgdir. rewrite PDX_page, PTX_page by done. lk_step. apply wp_rdw. rewrite (a_pde _ _ _ _ _ Hs) by done. rewrite Ht. cbn [pde_of].
  destruct (pde_present kend kend_ok t Htok) as [-> ->]. lk_step. pose proof (Z.mod_pos_bound n 1024 ltac:(lia)) as Hj.
  apply HQ; [apply (page_pos kend kend_ok); [done|lia]|]. rewrite (a_pte _ _ _ _ _ Hs _ _ _ Ht Hj).
  replace (1024 * (n / 1024) + n mod 1024) with n by (Z.div_mod_to_equations; lia). by rewrite HM.
Qed.

Lemma flags_present p : present p = true -> 0 <= PTE_FLAGS p < 4096 /\ PTE_FLAGS p mod 2 = 1 /\ Z.lor (PTE_FLAGS p) 1 = PTE_FLAGS p.
Proof.
  rewrite present_odd, bool_decide_eq_true. intros Hp. unfold PTE_FLAGS. change 4095 with (Z.ones 12). rewrite Z.land_ones by lia. change (2 ^ 12) with 4096.
  pose proof (Z.add_lor_land (p mod 4096) 1) as H. assert (Z.land (p mod 4096) 1 = p mod 4096 mod 2) as E by (apply (Z.land_ones _ 1); lia).
  Z.div_mod_to_equations. lia.
Qed.

(** Pages below [n] of the parent, whose memory was [m0], have copies in the
    child; the rest of the child's map is that of [K]. *)
Definition copied (n : Z) (MP : gmap Z Z) (m0 : Z -> Z) (K Mc : gmap Z Z) (m : Z -> Z) : Prop :=
  forall x, if decide (0 <= x < n) then
    exists p v, MP !! x = Some p /\ Mc !! x = Some (pte_of v (PTE_FLAGS p)) /\ page_ok v /\
      forall a, in_page a v -> m a = m0 (frame p + (a - v))
    else Mc !! x = K !! x.

Section Copy.
Context (P : Z) (TP MP : gmap Z Z) (R : Z -> Prop) (d0 : kmem) (fl0 : list Z) (sz : Z) (K : gmap Z Z).
Context (parent : aspace (mem d0) P TP MP) (parent_R : forall w, owns P TP MP w -> R w).
Context (sz_ok : 0 <= sz <= KERNBASE) (image : forall n, 0 <= n -> 4096 * n < sz -> is_Some (MP !! n)).
Context (user_free : forall x, x < UPAGES -> K !! x = None).

Lemma parent_kept m : keeps R (mem d0) m -> aspace m P TP MP.
Proof using parent parent_R.
  intros Hk. eapply aspace_ext; [exact parent|]. eapply keeps_mono; [|exact Hk]. intros v Hv. apply parent_R. destruct Hv as [->|?]; [by left|right; by left].
Qed.

Lemma wp_copyuvm_loop fuel n b d fl c T Mc (Q : Z -> guarded kmem -> Prop) :
  0 <= n -> 4096 * n < sz + 4096 -> (0 < fuel)%nat -> sz <= 4096 * (n + Z.of_nat fuel - 1) ->
  NoDup fl0 -> born c R d0 fl0 d fl T Mc -> copied n MP (mem d0) K Mc (mem d) ->
  (forall d' fl', returned R d0 fl0 d' fl' -> short fl0 ((sz + 4095) / 4096) -> Q 0 (free b d')) ->
  (forall d' fl' T' M', born c R d0 fl0 d' fl' T' M' -> copied ((sz + 4095) / 4096) MP (mem d0) K M' (mem d') -> Q c (free b d')) ->
  wp (copyuvm_loop kend me fuel P c sz (4096 * n)) Q (free b d).
Proof using kend_ok parent parent_R sz_ok image user_free.
  revert n d fl T Mc. induction fuel as [|fuel IH]; intros n d fl T Mc Hn Hn' Hf0 Hf Hnd Hb Hc Hfail HQ; [lia|]. cbn [copyuvm_loop].
  unfold KERNBASE in sz_ok. destruct (decide (4096 * n < sz)) as [Hlt|Hge]; cycle 1.
  { lk_step. apply (HQ d fl T Mc); [done|]. replace ((sz + 4095) / 4096) with n by (Z.div_mod_to_equations; lia). done. }
  pose proof Hb as (H & Hu & Hp & Hk). destruct (image n Hn Hlt) as [p HMP]. pose proof (parent_kept (mem d) Hk) as HP. lk_step.
  eapply wp_walk_read; [exact HP|exact HMP|]. intros pa Hpa Hmp. rewrite decide_False by done. lk_step. apply wp_rdw. rewrite Hmp.
  destruct (a_map _ _ _ _ _ HP _ _ HMP) as (_ & _ & Hpres). rewrite Hpres. cbn [negb]. cbv zeta. fold (frame p).
  destruct (flags_present p Hpres) as (Hfl & Hodd & Hlor).
  assert (Hlast : n + 1 <= (sz + 4095) / 4096) by (Z.div_mod_to_equations; lia).
  assert (Hshort : short fl0 (n + Z.of_nat (length fl))).
  { apply (born_short _ _ _ _ _ _ _ _ n Hb Hnd Hn). intros x [q Hq] Hx. specialize (Hc x). destruct (decide (0 <= x < n)) as [|Hx']; [lia|].
    rewrite Hc, user_free in Hq by done. done. }
  lk_step. eapply (wp_kalloc kend me kend_ok); [apply H| |].
  { intros ->. rewrite decide_True by done. lk_step. eapply wp_freevm_born; [exact Hb|]. intros d' fl' Hr. lk_step.
    apply (Hfail d' fl' Hr). eapply short_mono; [|exact Hshort]. cbn; lia. }
  intros v fl' ->. destruct (holds_alloc d v fl' c T Mc R (copy_page v (frame p) (mem d)) H (copy_page_other v (frame p) (mem d))) as (H1 & Hk1 & Hv).
  rewrite decide_False by (pose proof (page_pos kend kend_ok v 0 Hv); lia). lk_step. apply wp_updm. cbn [mem use_lock freelist]. lk_step.
  set (d1 := mkKmem (use_lock d) (mem d v) (copy_page v (frame p) (mem d))) in *.
  assert (HvR : ~ R v). { intros Hx. destruct (h_rest _ _ _ _ _ _ _ H v Hx) as (_ & Hy & _). set_solver. }
  assert (HMc : Mc !! n = None). { pose proof (Hc n) as Hx. rewrite decide_False in Hx by lia. rewrite Hx. apply user_free. unfold UPAGES. lia. }
  assert (Hk01 : keeps R (mem d0) (mem d1)) by (eapply keeps_trans; [exact Hk|]; eapply keeps_mono; [|exact Hk1]; by left).
  assert (Hframe : R (frame p)) by (apply parent_R; right; right; exists n, p; split_and!; [done|unfold UPAGES; lia|done]).
  assert (Hcopy : forall a, in_page a v -> mem d1 a = mem d0 (frame p + (a - v))).
  { intros a Ha. cbn [mem d1]. unfold copy_page. rewrite decide_True by done. replace (a - v + frame p) with (frame p + (a - v)) by lia.
    apply (Hk (frame p)); [done|]. unfold in_page in *. lia. }
  eapply (wp_map_user kend kend_ok me n v (PTE_FLAGS p) b d1 fl' c T Mc); [unfold UPAGES; lia|exact H1|done|by right|done| |].
  - intros ->. rewrite decide_True by lia. lk_step. eapply wp_kfree_rest; [exact H1|done|]. intros d2 H2 Hu2 Hk2. lk_step.
    eapply (wp_freevm_born c R b d0 fl0 d2 [v] T Mc); [|intros d' fl2 Hr; lk_step; apply (Hfail d' fl2 Hr); eapply short_mono; [|exact Hshort]; cbn; lia].
    split_and!; [done|cbn in Hu2; congruence|done|]. eapply keeps_trans; [exact Hk01|]. eapply keeps_mono; [|exact Hk2]. by left.
  - intros d2 fl2 T2 M2 H2 Hu2 Hp2 Hk2. rewrite decide_False by lia. unfold PGSIZE. rewrite uint32_id by lia.
    replace (4096 * n + 4096) with (4096 * (n + 1)) by lia. 
    assert (HM2 : M2 = <[n := pte_of v (PTE_FLAGS p)]> Mc) by (unfold M2; by rewrite Hlor). clearbody M2.
    apply (IH (n + 1) d2 fl2 T2 M2); [lia|lia|lia|lia|done| | |done|done].
    + split_and!; [eapply holds_mono; [|exact H2]|cbn in Hu2; congruence| |].
      * intros w Hw. split; [by left|]. by intros ->.
      * intros w. rewrite Hp2, <- Hp, elem_of_cons. tauto.
      * eapply keeps_trans; [exact Hk01|]. eapply keeps_mono; [|exact Hk2]. intros w Hw. left. by left.
    + intros x. destruct (decide (x = n)) as [->|Hx].
      * rewrite decide_True by lia. exists p, v. rewrite HM2, lookup_insert_eq. split_and!; [done|done|done|]. intros a Ha.
        rewrite (Hk2 v a ltac:(left; by right) Ha). by apply Hcopy.
      * rewrite HM2, lookup_insert_ne by done. specialize (Hc x). destruct (decide (0 <= x < n)) as [Hin|Hout].
        -- rewrite decide_True by lia. destruct Hc as (q & w & Hq & Hw & Hwok & Hwc). exists q, w. split_and!; [done|done|done|]. intros a Ha.
           assert (uframe Mc w).
           { exists x, (pte_of w (PTE_FLAGS q)). split_and!; [done|unfold UPAGES; lia|]. apply (frame_pte_of kend kend_ok); [done|].
             apply flags_present. by destruct (a_map _ _ _ _ _ parent _ _ Hq) as (_ & _ & ?). }
           rewrite (Hk2 w a); [|by right|done]. rewrite <- (Hwc a Ha). apply (Hk1 w); [right; by apply uframe_owns|done].
        -- rewrite decide_False by lia. done.
Qed.
End Copy.

End Space.
End VmSpace.
