(* ===== verification/VmThms.v ===== *)
(** * Theorems about virtual memory

    Fork's copy of an address space is complete, isolated and leaves no trace
    when it fails; growing an address space is atomic. *)
From S2P Require Export VmSpace.

Module VmThms.
Import Spin Locked Kalloc Vm VmBase VmOps VmSpace.
Local Open Scope Z_scope.

(** The pages of a process image of [sz] bytes are mapped. *)
Definition image_mapped (sz : Z) (M : gmap Z Z) : Prop := forall n, 0 <= n -> 4096 * n < sz -> is_Some (M !! n).

(** The result [r] of copying [sz] bytes of the parent, whose memory was [m0],
    from a free list [fl]: there was not enough memory, and the same pages are free; or a page
    table made of free pages that maps copies of the parent's pages and the
    kernel.  [R] are the pages in use before. *)
Definition copy_outcome (kend kdata : Z) (R : Z -> Prop) (m0 : Z -> Z) (fl : list Z) (M : gmap Z Z) (sz r : Z) (d' : kmem) (fl' : list Z) : Prop :=
  (r = 0 /\ short fl ((sz + 4095) / 4096) /\ kmem_inv kend d' fl' /\ forall w, w ∈ fl' <-> w ∈ fl) \/
  (r <> 0 /\ exists T' M' K, holds kend d' fl' r T' M' R /\
     (forall w, owns r T' M' w \/ w ∈ fl' <-> w ∈ fl) /\
     (forall x, K !! x = kernel_pte kdata x) /\
     copied kend ((sz + 4095) / 4096) M m0 K M' (mem d')).

(** C4. [copyuvm] gives the child its own copy of the parent's memory.  When it
    succeeds, the new page table maps every page below [sz] with the parent's
    flags to a fresh page with the same contents, maps the kernel as [kmap]
    says and nothing else, and shares no page with the parent or anyone else.
    When memory runs out, at whatever step, it returns 0 and exactly the pages
    that were free are free again; this happens only with at most 1025 free
    pages more than the image has.  In both cases the parent's pages and all
    other pages in use are unchanged. *)
Theorem copyuvm_spec kend kdata me b d fl pgdir T M R sz :
  KERNBASE < kend -> kdata mod 4096 = 0 -> KERNLINK < kdata < KERNBASE + PHYSTOP ->
  holds kend d fl pgdir T M R -> 0 <= sz <= KERNBASE -> image_mapped sz M ->
  exists r d' fl', copyuvm kend kdata me pgdir sz (free b d) = Ret (r, free b d') /\
    keeps (fun w => R w \/ owns pgdir T M w) (mem d) (mem d') /\
    copy_outcome kend kdata (fun w => R w \/ owns pgdir T M w) (mem d) fl M sz r d' fl'.
Proof.
  intros Hke Hka Hkr H Hsz Him. set (R' := fun w => R w \/ owns pgdir T M w).
  assert (HR' : forall v, R' v -> page_ok kend v /\ v ∉ fl).
  { intros v [Hv|Hv]; [by destruct (h_rest _ _ _ _ _ _ _ H v Hv) as (? & ? & ?)|].
    split; [eapply owns_ok; [apply (h_space _ _ _ _ _ _ _ H)|exact Hv]|by apply (h_own _ _ _ _ _ _ _ H)]. }
  set (post := fun r s => exists d' fl', s = free b d' /\ keeps R' (mem d) (mem d') /\ copy_outcome kend kdata R' (mem d) fl M sz r d' fl').
  destruct (proj1 (wp_Ret (copyuvm kend kdata me pgdir sz) post (free b d))) as (r & s & Hr & d' & fl' & -> & Hk & Hc); [|by exists r, d', fl'].
  assert (Hzero : forall d' fl', returned kend R' d fl d' fl' -> short fl ((sz + 4095) / 4096) -> post 0 (free b d')).
  { intros d' fl' (H1 & H2 & H3 & H4) Hs. exists d', fl'. split_and!; [done|done|by left]. }
  unfold copyuvm. apply wp_bind. eapply (wp_setupkvm kend Hke me kdata Hka Hkr R'); [apply H|exact HR'| |].
  - intros d' fl' Hret Hs. rewrite decide_True by done. apply wp_ret. eapply Hzero; [exact Hret|]. apply few_short; [Z.div_mod_to_equations; lia|exact Hs].
  - intros p d1 fl1 T1 K Hb HK _. assert (Hp0 : p <> 0).
    { pose proof (a_dir _ _ _ _ _ (h_space _ _ _ _ _ _ _ (proj1 Hb))) as Hp. pose proof (page_pos kend Hke p 0 Hp). lia. }
    rewrite decide_False by done. unfold PGSIZE, KERNBASE in *.
    eapply (wp_copyuvm_loop kend Hke me pgdir T M R' d fl sz K) with (n := 0);
      [apply H|by right|done|done| |lia|lia|lia|Z.div_mod_to_equations; lia|apply (km_nodup _ _ _ (h_kmem _ _ _ _ _ _ _ H))|exact Hb| |exact Hzero|].
    + intros x Hx. rewrite HK. unfold kernel_pte, KERNLINK, KERNBASE, EXTMEM, PHYSTOP, DEVSPACE, UPAGES in *. by rewrite !decide_False by lia.
    + intros x. by rewrite decide_False by lia.
    + intros d' fl' T' M' (H1 & H2 & H3 & H4) Hc. exists d', fl'. split_and!; [done|done|]. right. split; [done|]. by exists T', M', K.
Qed.

(** *** A concrete address space *)

(** Six pages: the page directory, a page table, a user page, two free pages and
    the page of another process. *)
Definition pg (k : Z) : Z := 2149580800 + 4096 * k.
Definition demo_mem (a : Z) : Z :=
  if decide (a = pg 0) then pte_of (pg 1) 7
  else if decide (a = pg 1) then pte_of (pg 2) 7
  else if decide (a = pg 3) then pg 4
  else 0.
Definition demo : kmem := mkKmem true (pg 3) demo_mem.
Definition demo_T : gmap Z Z := {[0 := pg 1]}.
Definition demo_M : gmap Z Z := {[0 := pte_of (pg 2) 7]}.
Definition demo_kend : Z := 2148532224.

Lemma pg_ok k : 0 <= k < 6 -> page_ok demo_kend (pg k).
Proof. intros Hk. unfold page_ok, pg, demo_kend, PGSIZE, KERNBASE, PHYSTOP. split; [Z.div_mod_to_equations; lia|lia]. Qed.

Lemma demo_kend_ok : KERNBASE < demo_kend.
Proof. done. Qed.

Lemma demo_frame : frame (pte_of (pg 2) 7) = pg 2.
Proof. reflexivity. Qed.

Lemma demo_owns v : owns (pg 0) demo_T demo_M v -> v = pg 0 \/ v = pg 1 \/ v = pg 2.
Proof.
  unfold demo_T, demo_M. intros [->|[(i & Hi)|(n & p & Hn & _ & <-)]]; [by left|..].
  - apply lookup_singleton_Some in Hi as [_ <-]. tauto.
  - apply lookup_singleton_Some in Hn as [_ <-]. rewrite demo_frame. tauto.
Qed.

Lemma demo_aspace : aspace demo_kend demo_mem (pg 0) demo_T demo_M.
Proof.
  unfold demo_T, demo_M. constructor.
  - by apply pg_ok.
  - intros i t [<- <-]%lookup_singleton_Some. split_and!; [lia|lia|by apply pg_ok|done].
  - intros i j t [<- _]%lookup_singleton_Some [<- _]%lookup_singleton_Some. done.
  - intros i Hi. unfold demo_mem. destruct (decide (i = 0)) as [->|Hne]; [done|]. rewrite lookup_singleton_ne by done.
    rewrite !decide_False by (unfold pg; lia). done.
  - intros i t j [<- <-]%lookup_singleton_Some Hj. unfold demo_mem. rewrite (decide_False (P := pg 1 + 4 * j = pg 0)) by (unfold pg; lia).
    destruct (decide (j = 0)) as [->|Hne]; [done|]. rewrite lookup_singleton_ne by lia. rewrite !decide_False by (unfold pg; lia). done.
  - intros n p [<- <-]%lookup_singleton_Some. split_and!; [lia|lia|by rewrite lookup_singleton_eq|done].
  - intros n p [<- <-]%lookup_singleton_Some _. rewrite demo_frame. split_and!; [by apply pg_ok|done|].
    intros i [_ Hx]%lookup_singleton_Some. done.
  - intros n p k q [<- _]%lookup_singleton_Some [<- _]%lookup_singleton_Some. done.
Qed.

Lemma demo_holds : holds demo_kend demo [pg 3; pg 4] (pg 0) demo_T demo_M (fun w => w = pg 5).
Proof.
  constructor; [| |intros v Hv%demo_owns; rewrite !not_elem_of_cons; unfold pg in *; split_and!; [lia|lia|apply not_elem_of_nil]|].
  - constructor; [done| |].
    + apply NoDup_cons. split; [rewrite list_elem_of_singleton; unfold pg; lia|apply NoDup_singleton].
    + constructor; [by apply pg_ok|constructor; [by apply pg_ok|constructor]].
  - exact demo_aspace.
  - intros v ->. split_and!; [by apply pg_ok|rewrite !not_elem_of_cons; unfold pg; split_and!; [lia|lia|apply not_elem_of_nil]|].
    intros Hv%demo_owns. unfold pg in Hv. lia.
Qed.

Lemma copyuvm_spec_witness :
  exists r d' fl', copyuvm demo_kend 2148536320 0 (pg 0) 100 (free true demo) = Ret (r, free true d') /\
    keeps (fun w => w = pg 5 \/ owns (pg 0) demo_T demo_M w) (mem demo) (mem d') /\
    copy_outcome demo_kend 2148536320 (fun w => w = pg 5 \/ owns (pg 0) demo_T demo_M w) (mem demo) [pg 3; pg 4] demo_M 100 r d' fl'.
Proof.
  apply (copyuvm_spec demo_kend 2148536320 0 true demo [pg 3; pg 4] (pg 0) demo_T demo_M (fun w => w = pg 5) 100);
    [done|done|unfold KERNLINK, KERNBASE, EXTMEM, PHYSTOP; lia|exact demo_holds|unfold KERNBASE; lia|].
  intros n Hn Hlt. assert (n = 0) as -> by lia. by exists (pte_of (pg 2) 7).
Defined.



(** [freevm] gives every page of the address space back, each once. *)
Theorem freevm_spec kend me b d fl pgdir T M R :
  KERNBASE < kend -> holds kend d fl pgdir T M R ->
  exists d' fl', freevm kend me pgdir (free b d) = Ret (tt, free b d') /\ kmem_inv kend d' fl' /\
    (forall w, w ∈ fl' <-> owns pgdir T M w \/ w ∈ fl) /\ keeps R (mem d) (mem d').
Proof.
  intros Hke H. destruct (proj1 (wp_Ret (freevm kend me pgdir) (fun _ s => exists d' fl', s = free b d' /\ kmem_inv kend d' fl' /\
    (forall w, w ∈ fl' <-> owns pgdir T M w \/ w ∈ fl) /\ keeps R (mem d) (mem d')) (free b d))) as ([] & s & Hr & d' & fl' & -> & Hc); [|by exists d', fl'].
  eapply (wp_freevm kend Hke); [exact H|]. intros d' fl' H1 _ H2 H3. by exists d', fl'.
Qed.

(** [copyout] to an address without a page table dereferences a null pointer:
    [uva2ka] does not look at the result of [walkpgdir]. *)
Example copyout_no_table : copyout 0 (pg 0) 4194304 [65] (free true demo) = Undef "uva2ka: null pointer".
Proof. vm_compute. reflexivity. Qed.

End VmThms.
