(* ===== verification/Start.v ===== *)
(** * The start of the kernel and the registers of a CPU

    Models the segments of [mmu.h], [seginit], [switchkvm], [switchuvm] and
    [kvmalloc] of [vm.c], [getcallerpcs] of [spinlock.c], and of [main.c] the boot
    page table [entrypgdir], [startothers] and what [main] does with memory, all
    of [src/xv6-public].

    The memory is that of [Kalloc] and [Vm].  The theorems: the segments are flat;
    a trap of a process [switchuvm] has prepared builds its frame at [p->tf]
    ([Asm]); the boot page table maps what the kernel needs; and after [main] the
    kernel has its page table, every other processor a stack of its own, and the
    allocator all remaining pages. *)
From S2P Require Export VmThms Asm.

Module Start.
Import Spin Locked Kalloc Vm VmBase VmOps VmSpace.
Local Open Scope Z_scope.

(** ** Segments *)

Record segdesc := mkSeg {
  lim_15_0 : Z; base_15_0 : Z; base_23_16 : Z; sd_type : Z; sd_s : Z; sd_dpl : Z; sd_p : Z;
  lim_19_16 : Z; sd_avl : Z; sd_rsv1 : Z; sd_db : Z; sd_g : Z; base_31_24 : Z }.

Definition SEG (type base lim dpl : Z) : segdesc :=
  mkSeg (Z.land (Z.shiftr lim 12) 65535) (Z.land base 65535) (Z.land (Z.shiftr base 16) 255) type 1 dpl 1
    (Z.shiftr lim 28) 0 0 1 1 (Z.shiftr base 24).
Definition SEG16 (type base lim dpl : Z) : segdesc :=
  mkSeg (Z.land lim 65535) (Z.land base 65535) (Z.land (Z.shiftr base 16) 255) type 1 dpl 1
    (Z.shiftr lim 16) 0 0 1 0 (Z.shiftr base 24).

Definition STA_X : Z := 8.
Definition STA_W : Z := 2.
Definition STA_R : Z := 2.
Definition STS_T32A : Z := 9.
Definition DPL_USER : Z := 3.
Definition SEG_KCODE : nat := 1.
Definition SEG_KDATA : nat := 2.
Definition SEG_UCODE : nat := 3.
Definition SEG_UDATA : nat := 4.
Definition SEG_TSS : nat := 5.
Definition NSEGS : nat := 6.

(** The processor's reading of a descriptor. *)
Definition seg_base (d : segdesc) : Z := base_15_0 d + 65536 * base_23_16 d + 16777216 * base_31_24 d.
Definition seg_limit (d : segdesc) : Z :=
  let l := lim_15_0 d + 65536 * lim_19_16 d in if decide (sd_g d = 1) then 4096 * l + 4095 else l.

(** The parts of [struct cpu] and of [struct taskstate] that are set, and the
    registers; [gdtr] says whether the table is loaded. *)
Record taskstate := mkTs { ts_esp0 : Z; ts_ss0 : Z; ts_iomb : Z }.
Record cpuregs := mkCpuRegs { gdt : list segdesc; gdtr : bool; tss : taskstate; tr : Z; cr3 : Z }.

Definition seginit (c : cpuregs) : cpuregs :=
  let g := <[SEG_KCODE := SEG (Z.lor STA_X STA_R) 0 4294967295 0]> (gdt c) in
  let g := <[SEG_KDATA := SEG STA_W 0 4294967295 0]> g in
  let g := <[SEG_UCODE := SEG (Z.lor STA_X STA_R) 0 4294967295 DPL_USER]> g in
  let g := <[SEG_UDATA := SEG STA_W 0 4294967295 DPL_USER]> g in
  mkCpuRegs g true (tss c) (tr c) (cr3 c).

Definition switchkvm (kpgdir : Z) (c : cpuregs) : cpuregs := mkCpuRegs (gdt c) (gdtr c) (tss c) (tr c) (V2P kpgdir).

Definition sys_seg (d : segdesc) : segdesc :=
  mkSeg (lim_15_0 d) (base_15_0 d) (base_23_16 d) (sd_type d) 0 (sd_dpl d) (sd_p d) (lim_19_16 d) (sd_avl d) (sd_rsv1 d) (sd_db d) (sd_g d) (base_31_24 d).
Definition TS_SIZE : Z := 104.
Definition KSTACKSIZE : Z := 4096.
(** The process is its stack and its page directory, [None] the null pointer; [ts]
    is the address of the task state. *)
Definition switchuvm (ts : Z) (p : option (Z * Z)) (k : cpu) (c : cpuregs) : outcome (cpu * cpuregs) :=
  match p with
  | None => Panic "switchuvm: no process"
  | Some (kstack, pgdir) =>
      if decide (kstack = 0) then Panic "switchuvm: no kstack"
      else if decide (pgdir = 0) then Panic "switchuvm: no pgdir"
      else
        let k := pushcli k in
        let g := <[SEG_TSS := SEG16 STS_T32A ts (TS_SIZE - 1) 0]> (gdt c) in
        let g := alter sys_seg SEG_TSS g in
        let t := mkTs (uint32 (kstack + KSTACKSIZE)) (Z.shiftl (Z.of_nat SEG_KDATA) 3) 65535 in
        let c := mkCpuRegs g (gdtr c) t (Z.shiftl (Z.of_nat SEG_TSS) 3) (V2P pgdir) in
        k ← popcli k;
        Ret (k, c)
  end.

(** ** [getcallerpcs] *)

(** [n] entries are left; [m] is the memory. *)
Fixpoint callerpcs (n : nat) (ebp : Z) (m : Z -> Z) : list Z :=
  match n with
  | O => []
  | S n =>
      if decide (ebp = 0 \/ ebp < KERNBASE \/ ebp = 4294967295) then replicate (S n) 0
      else m (uint32 (ebp + 4)) :: callerpcs n (m ebp) m
  end.
Definition getcallerpcs (v : Z) (m : Z -> Z) : list Z := callerpcs 10 (uint32 (v - 8)) m.

(** ** The boot page table *)

Definition PTE_PS : Z := 128.
Definition entrypgdir : list Z :=
  <[Z.to_nat (Z.shiftr KERNBASE 22) := Z.lor (Z.lor (Z.lor 0 PTE_P) PTE_W) PTE_PS]>
    (<[O := Z.lor (Z.lor (Z.lor 0 PTE_P) PTE_W) PTE_PS]> (replicate NPDENTRIES 0)).
(** The processor with 4 MB pages enabled, as [entry.S] does. *)
Definition translate4m (dir : list Z) (va : Z) : option Z :=
  match dir !! Z.to_nat (PDX va) with
  | Some pde => if present pde && bool_decide (Z.land pde PTE_PS <> 0) then Some (Z.land pde 4290772992 + va mod 4194304) else None
  | None => None
  end.

(** ** [main] *)

(** A call of [lapicstartap] ([Devices]): the processor, the physical address of the
    code, and the three words the processor then finds below it. *)
Record ap := mkAp { ap_id : Z; ap_code : Z; ap_stack : Z; ap_entry : Z; ap_pgdir : Z }.

Section Main.
Context (kend kdata : Z) (me : nat) (mpenter entrypgdir_addr : Z).

Definition code : Z := P2V 28672.         (* 0x7000 *)

(** [c] is the index of the CPU at the head of [ids], [mycpu] that of the one that
    runs.  A processor sets [started] in [mpmain], after which it no longer needs the
    three words; [startothers] waits for that before it goes on. *)
Fixpoint startothers_loop (mycpu c : nat) (ids : list Z) : km (list ap) :=
  match ids with
  | [] => mret []
  | id :: ids =>
      if decide (c = mycpu) then startothers_loop mycpu (S c) ids
      else
        stack ← kalloc me;
        wrw (code - 4) (uint32 (stack + KSTACKSIZE)) ;;
        wrw (code - 8) mpenter ;;
        wrw (code - 12) (V2P entrypgdir_addr) ;;
        s ← rdw (code - 4);
        e ← rdw (code - 8);
        p ← rdw (code - 12);
        l ← startothers_loop mycpu (S c) ids;
        mret (mkAp id (V2P code) s e p :: l)
  end.
Definition startothers (entryother : list Z) (mycpu : nat) (ids : list Z) : km (list ap) :=
  updm (store_bytes code entryother) ;;
  startothers_loop mycpu 0 ids.

(** The value of [kpgdir] and the registers of the CPU. *)
Definition kvmalloc (c : cpuregs) : km (Z * cpuregs) :=
  kpgdir ← setupkvm kend kdata me;
  mret (kpgdir, switchkvm kpgdir c).

(** The calls of [main] before [userinit] that use the memory of [kalloc.c] or the
    registers of the CPU, in their order; the others set up devices and tables of
    their own. *)
Definition main_memory (entryother : list Z) (mycpu : nat) (ids : list Z) (c : cpuregs) : km (Z * cpuregs * list ap) :=
  kinit1 kend me kend (P2V (4 * 1024 * 1024)) ;;
  '(kpgdir, c) ← kvmalloc c;
  let c := seginit c in
  aps ← startothers entryother mycpu ids;
  kinit2 kend me (P2V (4 * 1024 * 1024)) (P2V PHYSTOP) ;;
  mret (kpgdir, c, aps).

(** [mpenter] on another processor, up to [mpmain]. *)
Definition mpenter_regs (kpgdir : Z) (c : cpuregs) : cpuregs := seginit (switchkvm kpgdir c).
End Main.

(** ** Descriptors *)

Lemma low_bits x k : 0 <= k -> Z.land x (2 ^ k - 1) = x mod 2 ^ k.
Proof. intros Hk. replace (2 ^ k - 1) with (Z.ones k) by (rewrite Z.ones_equiv; lia). by apply Z.land_ones. Qed.

Lemma base_parts b : 0 <= b < 2 ^ 32 -> Z.land b 65535 + 65536 * Z.land (Z.shiftr b 16) 255 + 16777216 * Z.shiftr b 24 = b.
Proof.
  intros Hb. change 65535 with (2 ^ 16 - 1). change 255 with (2 ^ 8 - 1). rewrite !low_bits, !Z.shiftr_div_pow2 by lia.
  change (2 ^ 16) with 65536. change (2 ^ 8) with 256. change (2 ^ 24) with 16777216. Z.div_mod_to_equations. lia.
Qed.

(** The macros encode what the processor decodes. *)
Theorem seg_decodes type base lim dpl : 0 <= base < 2 ^ 32 -> 0 <= lim < 2 ^ 32 ->
  seg_base (SEG type base lim dpl) = base /\ seg_limit (SEG type base lim dpl) = lim - lim mod 4096 + 4095 /\
  (lim < 2 ^ 20 -> seg_base (SEG16 type base lim dpl) = base /\ seg_limit (SEG16 type base lim dpl) = lim).
Proof.
  intros Hb Hl. assert (Hbase : forall t l d, seg_base (SEG t base l d) = base /\ seg_base (SEG16 t base l d) = base) by (intros; split; by apply base_parts).
  assert (Hlow : forall x, Z.land x 65535 = x mod 65536) by (intros x; apply (low_bits x 16); lia).
  split; [apply Hbase|]. split; [|intros Hs; split; [apply Hbase|]]; unfold seg_limit; cbn [SEG SEG16 lim_15_0 lim_19_16 sd_g]; rewrite Hlow, ?Z.shiftr_div_pow2 by lia.
  - rewrite decide_True by done. change (2 ^ 12) with 4096. change (2 ^ 28) with 268435456. Z.div_mod_to_equations. lia.
  - rewrite decide_False by lia. change (2 ^ 16) with 65536. Z.div_mod_to_equations. lia.
Qed.

(** After [seginit] the segments of the kernel and of user programs all cover the
    whole address space, in rings 0 and 3. *)
Theorem seginit_flat c : length (gdt c) = NSEGS ->
  forall i r, (i, r) ∈ [(SEG_KCODE, 0); (SEG_KDATA, 0); (SEG_UCODE, 3); (SEG_UDATA, 3)] ->
  exists d, gdt (seginit c) !! i = Some d /\ seg_base d = 0 /\ seg_limit d = 4294967295 /\ sd_dpl d = r /\ sd_p d = 1.
Proof.
  intros Hl i r Hin. destruct (gdt c) as [|d0 [|d1 [|d2 [|d3 [|d4 [|d5 [|]]]]]]] eqn:E; try discriminate Hl.
  unfold seginit. rewrite E. repeat (apply elem_of_cons in Hin as [[= -> ->]|Hin]; [eexists; split; [reflexivity|by vm_compute]|]).
  by apply elem_of_nil in Hin.
Qed.

(** ** [switchuvm] and traps *)

(** C26. A process [switchuvm] has prepared can be interrupted: the task state names
    the top of its kernel stack and the kernel's data segment, so that the frame
    of a trap is at [p->tf] and the process goes on as before when [trap] leaves
    it alone; the task register selects a descriptor of that task state, whose
    limit is below the I/O map, so that the process cannot access ports. *)
Theorem switchuvm_trap ts kstack pgdir b c s trap here a gate g i err t' :
  let t := Asm.frame_of i err s (kstack + KSTACKSIZE - 44) in
  length (gdt c) = NSEGS -> 0 <= ts < 2 ^ 32 -> Asm.aligned kstack -> 0 < kstack -> kstack + KSTACKSIZE < 2 ^ 32 -> pgdir <> 0 ->
  Asm.ring (Asm.s_cs (Asm.sg s)) = 3 -> Asm.ring (Asm.f_cs t' mod 65536) = 3 ->
  Asm.handles trap (Asm.tf_addr kstack) (Asm.tf_words t) (Asm.tf_words t') ->
  exists c', switchuvm ts (Some (kstack, pgdir)) (mkCpu 0 b b) c = Ret (mkCpu 0 b b, c') /\ cr3 c' = V2P pgdir /\
    (exists d, gdt c' !! SEG_TSS = Some d /\ tr c' = 8 * Z.of_nat SEG_TSS /\ seg_base d = ts /\ seg_limit d < ts_iomb (tss c') /\ sd_s d = 0) /\
    exists m', (s1 ← Asm.interrupt (ts_esp0 (tss c')) (ts_ss0 (tss c')) i err gate 8 g s; Asm.run (Asm.vector i a ++ Asm.alltraps trap here) s1) =
      Ret (Asm.user_of t' m').
Proof.
  intros t Hg Hts Ha H0 Hk Hp Hr Hr' Ht. unfold switchuvm. rewrite !decide_False by lia.
  assert (Hpc : popcli (pushcli (mkCpu 0 b b)) = Ret (mkCpu 0 b b)) by (by destruct b). rewrite Hpc. cbn [mbind outcome_bind].
  eexists. split; [reflexivity|]. cbn [cr3 gdt tr tss ts_iomb ts_esp0 ts_ss0]. split; [done|]. split.
  - exists (sys_seg (SEG16 STS_T32A ts (TS_SIZE - 1) 0)). split; [rewrite list_lookup_alter, list_lookup_insert_eq by (rewrite Hg; unfold SEG_TSS, NSEGS; lia); done|].
    split; [done|]. destruct (seg_decodes STS_T32A ts (TS_SIZE - 1) 0 Hts) as (_ & _ & H); [unfold TS_SIZE; lia|]. destruct H as [H1 H2]; [unfold TS_SIZE; lia|].
    split; [exact H1|]. split; [|done]. change (seg_limit (SEG16 STS_T32A ts (TS_SIZE - 1) 0) < 65535). rewrite H2. unfold TS_SIZE. lia.
  - rewrite uint32_id by (unfold KSTACKSIZE in *; lia). change (Z.shiftl (Z.of_nat SEG_KDATA) 3) with 16. destruct (Asm.trap_run trap here a gate g i err s kstack t') as (m' & Hm & _); [done|lia|done|done|done|done|by exists m'].
Qed.

(** ** Call chains *)

(** The frames of the functions called, innermost first: the saved [%ebp]s lead
    from [ebp] through [l], each with its return address. *)
Fixpoint frames (m : Z -> Z) (ebp : Z) (l : list Z) : Prop :=
  match l with
  | [] => ebp = 0 \/ ebp < KERNBASE \/ ebp = 4294967295
  | pc :: l => KERNBASE <= ebp < 4294967291 /\ m (ebp + 4) = pc /\ frames m (m ebp) l
  end.

(** [getcallerpcs] returns the return addresses of the innermost ten calls,
    filled up with zeros. *)
Theorem getcallerpcs_frames v m l : 8 <= v < 2 ^ 32 -> frames m (v - 8) l -> getcallerpcs v m = take 10 l ++ replicate (10 - length l) 0.
Proof.
  intros Hv Hf. unfold getcallerpcs. rewrite uint32_id by lia. generalize dependent (v - 8). clear v Hv. generalize 10%nat as n. intros n.
  revert l. induction n as [|n IH]; intros l ebp Hf; [by destruct l|]. cbn [callerpcs]. destruct l as [|pc l]; cbn in Hf.
  - by rewrite decide_True.
  - destruct Hf as (Hr & Hpc & Hf). rewrite decide_False by (unfold KERNBASE in *; lia). rewrite uint32_id by (unfold KERNBASE in *; lia). rewrite Hpc. cbn. f_equal. by apply IH.
Qed.

(** ** The boot page table *)

(** Before [kvmalloc] the first 4 MB of memory are mapped at 0, where the
    processors start, and at [KERNBASE], where the kernel is linked, and nothing
    else is. *)
Theorem entrypgdir_maps va : 0 <= va < 2 ^ 32 ->
  translate4m entrypgdir va = if decide (va < 4194304) then Some va else if decide (KERNBASE <= va < KERNBASE + 4194304) then Some (va - KERNBASE) else None.
Proof.
  intros Hv. assert (HP : PDX va = va / 4194304).
  { unfold PDX. change 1023 with (2 ^ 10 - 1). rewrite low_bits, Z.shiftr_div_pow2 by lia. change (2 ^ 22) with 4194304. change (2 ^ 10) with 1024. Z.div_mod_to_equations. lia. }
  assert (Hbig : forall x, (if present 131 && bool_decide (Z.land 131 PTE_PS <> 0) then Some (Z.land 131 4290772992 + x) else None) = Some x) by done.
  assert (H0 : entrypgdir !! 0%nat = Some 131) by (vm_compute; reflexivity). assert (H512 : entrypgdir !! 512%nat = Some 131) by (vm_compute; reflexivity).
  unfold translate4m. rewrite HP. unfold KERNBASE.
  assert (Hi : (Z.to_nat (va / 4194304) < 1024)%nat) by (Z.div_mod_to_equations; lia).
  destruct (decide (va < 4194304)) as [H1|H1]; [|destruct (decide (2147483648 <= va < 2147483648 + 4194304)) as [H2|H2]].
  - replace (Z.to_nat (va / 4194304)) with 0%nat by (Z.div_mod_to_equations; lia). rewrite H0, Hbig. f_equal. apply Z.mod_small. lia.
  - replace (Z.to_nat (va / 4194304)) with 512%nat by (Z.div_mod_to_equations; lia). rewrite H512, Hbig. f_equal. Z.div_mod_to_equations. lia.
  - clear H0 H512. assert (Z.to_nat (va / 4194304) <> 0%nat /\ Z.to_nat (va / 4194304) <> 512%nat) as [Hn0 Hn1] by (Z.div_mod_to_equations; lia).
    unfold entrypgdir, KERNBASE. change (Z.to_nat (Z.shiftr 2147483648 22)) with 512%nat.
    rewrite list_lookup_insert_ne, list_lookup_insert_ne by lia. by rewrite lookup_replicate_2.
Qed.

(** ** Memory after [main] *)

Section MainMemory.
Context (kend kdata : Z) (me : nat) (mpenter epg : Z).
(** The linker places [data] on a page boundary above the code; the kernel ends
    below 4 MB with 522 pages to spare. *)
Context (kdata_align : kdata mod 4096 = 0) (kdata_range : KERNLINK < kdata < KERNBASE + PHYSTOP).
Context (kend_lo : KERNLINK <= kend) (kend_hi : kend + 4096 * 522 <= KERNBASE + 4194304).

Local Notation kmem_inv := (kmem_inv kend).
Local Notation page_ok := (page_ok kend).

Lemma kend_ok : KERNBASE < kend.
Proof using kend_lo. unfold KERNLINK, EXTMEM in *. lia. Qed.

(** Memory below the kernel is not the allocator's. *)
Lemma holds_low d fl pgdir T M R m' : holds kend d fl pgdir T M R -> (forall a, kend <= a -> m' a = mem d a) ->
  holds kend (mkKmem (use_lock d) (freelist d) m') fl pgdir T M R.
Proof.
  intros [Hk Hs Ho Hr] Hm. assert (Hpg : forall v a, page_ok v -> in_page a v -> m' a = mem d a) by (intros v a [_ Hv] Ha; apply Hm; unfold in_page in Ha; lia).
  constructor; [|cbn [mem]|done|done].
  - destruct Hk as [Hc Hn Hp]. constructor; cbn; [|done..]. eapply chain_ext; [|exact Hc]. intros p Hp'. rewrite Forall_forall in Hp. apply Hm. apply Hp in Hp' as [_ ?]. lia.
  - eapply aspace_ext; [exact Hs|]. intros v a [->|[i Hi]] Ha; eapply Hpg; [apply (a_dir _ _ _ _ _ Hs)|exact Ha|apply (a_tab _ _ _ _ _ Hs _ _ Hi)|exact Ha].
Qed.

Lemma store_low a x m : a < kend -> forall b, kend <= b -> store a x m b = m b.
Proof. intros Ha b Hb. unfold store. by rewrite decide_False by lia. Qed.

(** The three words below the code. *)
Lemma words_below x y z m c :
  store (c - 12) z (store (c - 8) y (store (c - 4) x m)) (c - 4) = x /\
  store (c - 12) z (store (c - 8) y (store (c - 4) x m)) (c - 8) = y /\
  store (c - 12) z (store (c - 8) y (store (c - 4) x m)) (c - 12) = z.
Proof. unfold store. split_and!; repeat (case_decide; try lia). Qed.

Lemma code_low : code = KERNBASE + 28672.
Proof. done. Qed.

(** The stacks of the processors started. *)
Definition stacks (l : list ap) : list Z := (fun a => ap_stack a - KSTACKSIZE) <$> l.

(** The processors but the one that runs. *)
Fixpoint other_ids (mycpu c : nat) (ids : list Z) : list Z :=
  match ids with
  | [] => []
  | id :: ids => if decide (c = mycpu) then other_ids mycpu (S c) ids else id :: other_ids mycpu (S c) ids
  end.

Lemma wp_startothers_loop mycpu ids : forall c b d fl pgdir T M R (Q : list ap -> guarded kmem -> Prop),
  holds kend d fl pgdir T M R -> (length ids <= length fl)%nat ->
  (forall l d' fl', holds kend d' fl' pgdir T M (fun w => R w \/ w ∈ stacks l) -> stacks l ++ fl' = fl -> Forall (fun a => ap_code a = 28672 /\ ap_entry a = mpenter /\ ap_pgdir a = V2P epg) l ->
     (ap_id <$> l) = other_ids mycpu c ids -> Q l (free b d')) ->
  wp (startothers_loop me mpenter epg mycpu c ids) Q (free b d).
Proof using kend_lo.
  induction ids as [|id ids IH]; intros c b d fl pgdir T M R Q H Hl HQ; cbn [startothers_loop].
  - apply wp_ret. apply (HQ [] d fl); [|done|constructor|done]. eapply holds_mono; [|exact H]. intros w [?|Hw]; [done|by apply elem_of_nil in Hw].
  - cbn [length] in Hl. destruct (decide (c = mycpu)) as [Hc|Hc].
    { apply (IH (S c) b d fl pgdir T M R); [done|lia|]. intros l d' fl' H1 H2 H3 H4. apply (HQ l d' fl'); [done|done|done|].
      cbn [other_ids]. by rewrite decide_True. }
    apply wp_bind. eapply (wp_kalloc kend me kend_ok); [apply (h_kmem _ _ _ _ _ _ _ H)|intros ->; cbn in Hl; lia|]. intros v fl1 ->.
    destruct (holds_alloc kend kend_ok d v fl1 pgdir T M R (mem d) H) as (H1 & _ & Hv); [done|]. pose proof code_low as Hcode.
    assert (Hlow : forall k, 0 <= k -> code - k < kend) by (intros k Hk; unfold KERNLINK, EXTMEM in *; lia).
    assert (Hstack : uint32 (v + KSTACKSIZE) = v + KSTACKSIZE) by (destruct Hv as [_ Hv]; apply uint32_id; unfold KSTACKSIZE, KERNLINK, KERNBASE, PHYSTOP, EXTMEM in *; lia).
    do 3 (apply wp_bind, wp_updm; cbn [use_lock freelist mem]). do 3 (apply wp_bind, wp_rdw; cbn [mem]). rewrite Hstack.
    destruct (words_below (v + KSTACKSIZE) mpenter (V2P epg) (mem d) code) as (-> & -> & ->). apply wp_bind.
    eapply (IH (S c) b _ fl1 pgdir T M (fun w => R w \/ w = v)); [|cbn in Hl; lia|].
    + apply (holds_low _ _ _ _ _ _ _ H1). intros a Ha. cbn [mem]. rewrite !store_low by (done || apply Hlow; lia). done.
    + intros l d' fl' H2 H3 H4 H5. apply wp_ret. assert (Hst : v + KSTACKSIZE - KSTACKSIZE = v) by lia.
      apply (HQ _ d' fl'); [|cbn; rewrite Hst; f_equal; exact H3|by constructor|cbn [other_ids fmap list_fmap ap_id]; rewrite decide_False by done; by f_equal].
      eapply holds_mono; [|exact H2]. cbn. rewrite Hst. intros w [?|Hw]; [by left; left|]. apply elem_of_cons in Hw as [->|Hw]; [left; by right|by right].
Qed.

Lemma store_bytes_low l : forall a m b, a + Z.of_nat (length l) <= kend -> kend <= b -> store_bytes a l m b = m b.
Proof.
  induction l as [|c l IH]; intros a m b Ha Hb; cbn [store_bytes length] in *; [done|]. rewrite IH by lia. unfold store8. apply store_low; [|done].
  unfold word_of. pose proof (Z.mod_pos_bound a 4 ltac:(lia)). lia.
Qed.

(** The stacks are below 4 MB, where the boot page table maps them.  The pages of the
    kernel's page table, of the stacks and of the free list are all
    pages from the end of the kernel to the end of memory. *)
Record main_post (kpgdir : Z) (aps : list ap) (d : kmem) (fl : list Z) (T M : gmap Z Z) : Prop := {
  mp_holds : holds kend d fl kpgdir T M (fun w => w ∈ stacks aps);
  mp_kernel : forall x, M !! x = kernel_pte kdata x;
  mp_lock : use_lock d = true;
  mp_stacks : NoDup (stacks aps);
  mp_low : Forall (fun a => kend + KSTACKSIZE <= ap_stack a <= KERNBASE + 4194304) aps;
  mp_entry : Forall (fun a => ap_code a = 28672 /\ ap_entry a = mpenter /\ ap_pgdir a = V2P epg) aps;
  mp_all : forall w, (owns kpgdir T M w \/ w ∈ stacks aps \/ w ∈ fl) <-> inside kend (KERNBASE + PHYSTOP) w
}.

Lemma many_pages fl : NoDup fl -> (forall q, q ∈ fl <-> inside kend (KERNBASE + 4194304) q) -> (521 <= length fl)%nat.
Proof using kend_hi.
  clear kdata kdata_align kdata_range. intros Hnd Hfl. set (p := (kend + 4095) / 4096). assert (Hsub : (fun k => 4096 * (p + k)) <$> seqZ 0 521 ⊆+ fl).
  { apply NoDup_submseteq; [apply NoDup_fmap_2; [intros x y; lia|apply NoDup_seqZ]|]. intros q (k & -> & Hk)%list_elem_of_fmap. apply elem_of_seqZ in Hk. apply Hfl.
    unfold inside, PGSIZE, p. split; [by rewrite Z.mul_comm, Z.mod_mul by lia|]. Z.div_mod_to_equations. lia. }
  apply submseteq_length in Hsub. rewrite length_fmap, length_seqZ in Hsub. lia.
Qed.

(** The last step: the pages above 4 MB are added. *)
Lemma wp_kinit2 b d fl pgdir T M R (Q : unit -> guarded kmem -> Prop) :
  holds kend d fl pgdir T M R -> (forall w, w ∈ fl \/ owns pgdir T M w \/ R w -> w < KERNBASE + 4194304) ->
  (forall d' l, use_lock d' = true -> holds kend d' (l ++ fl) pgdir T M R -> (forall q, q ∈ l <-> inside (KERNBASE + 4194304) (KERNBASE + PHYSTOP) q) -> Q tt (free b d')) ->
  wp (kinit2 kend me (KERNBASE + 4194304) (KERNBASE + PHYSTOP)) Q (free b d).
Proof using kend_lo kend_hi.
  clear kdata kdata_align kdata_range. intros H Hlo HQ. pose proof H as [Hk Hs Ho Hr]. assert (Hpg : forall v a, page_ok v -> v < KERNBASE + 4194304 -> in_page a v -> a < KERNBASE + 4194304).
  { intros v a [Hv _] Hlt Ha. unfold in_page, PGSIZE, KERNBASE in *. Z.div_mod_to_equations. lia. }
  unfold kinit2. apply wp_bind. eapply (wp_freerange kend me _ _ b d fl); [exact kend_ok|lia|lia|exact Hk|intros q [_ Hq] Hin; specialize (Hlo q ltac:(by left)); lia|].
  intros d' l _ Hk' Hl Hm. apply (HQ (mkKmem true (freelist d') (mem d')) l); [done| |done]. constructor.
  - destruct Hk' as [? ? ?]. by constructor.
  - cbn [mem]. eapply aspace_ext; [exact Hs|]. intros v a Hv Ha. assert (Hown : owns pgdir T M v) by (destruct Hv as [->|Hv]; [by left|right; by left]).
    apply Hm. assert (a < KERNBASE + 4194304); [|lia]. eapply Hpg; [by eapply owns_ok|apply Hlo; tauto|done].
  - intros v Hv. rewrite elem_of_app, Hl. intros [[_ [? _]]|?]; [specialize (Hlo v ltac:(tauto)); lia|by apply (Ho v)].
  - intros v Hv. destruct (Hr v Hv) as (? & ? & ?). split_and!; [done| |done]. rewrite elem_of_app, Hl. intros [[_ [? _]]|?]; [specialize (Hlo v ltac:(tauto)); lia|done].
Qed.

Lemma kernel_user (M : gmap Z Z) : (forall x, M !! x = kernel_pte kdata x) -> forall x, x < UPAGES -> M !! x = None.
Proof using kdata_range.
  intros HM x Hx. rewrite HM. unfold kernel_pte, KERNLINK, KERNBASE, EXTMEM, PHYSTOP, DEVSPACE, UPAGES in *. by rewrite !decide_False by lia.
Qed.

Lemma main_run entryother mycpu ids c b s : code + Z.of_nat (length entryother) <= KERNLINK -> (length ids <= 8)%nat ->
  l_cpu s = mkCpu 0 b b -> freelist (l_data s) = 0 ->
  wp (main_memory kend kdata me mpenter epg entryother mycpu ids c)
    (fun r s' => exists d fl T M, s' = free b d /\ main_post r.1.1 r.2 d fl T M /\ (ap_id <$> r.2) = other_ids mycpu 0 ids /\ r.1.2 = seginit (switchkvm r.1.1 c)) s.
Proof using All.
  intros Hcode Hids Hcpu Hfl. unfold main_memory. change (P2V (4 * 1024 * 1024)) with (KERNBASE + 4194304). change (P2V PHYSTOP) with (KERNBASE + PHYSTOP).
  apply wp_bind. destruct (kinit1_frees_range kend me kend (KERNBASE + 4194304) b s kend_ok) as (d & fl & Hr & Hk & Hin); [lia|unfold KERNBASE, PHYSTOP; lia|done|done|].
  change (forall q, q ∈ fl <-> inside kend (KERNBASE + 4194304) q) in Hin. unfold wp at 1. rewrite Hr. pose proof (km_nodup _ _ _ Hk) as Hnd. pose proof (many_pages fl Hnd Hin) as Hmany.
  apply wp_bind. unfold kvmalloc. apply wp_bind. eapply (wp_setupkvm kend kend_ok me kdata kdata_align kdata_range (fun _ => False) b d fl); [done|done|intros ? ? _ Hf; unfold few in Hf; lia|].
  intros p d1 fl1 T M Hb HM HT. pose proof (kernel_user M HM) as HMu. pose proof (born_count kend _ _ _ _ _ _ _ _ Hb Hnd HMu HT) as Hcount.
  destruct Hb as (H1 & _ & Hall & _). apply wp_ret. cbn zeta. apply wp_bind. unfold startothers. apply wp_bind, wp_updm.
  eapply wp_startothers_loop; [eapply holds_low; [exact H1|]; intros a Ha; apply store_bytes_low; lia|lia|].
  intros aps d2 fl2 H2 Hsplit Hent Hid. rewrite <- Hsplit in Hall. apply wp_bind.
  assert (Hall' : forall w, (owns p T M w \/ w ∈ stacks aps \/ w ∈ fl2) <-> inside kend (KERNBASE + 4194304) w) by (intros w; rewrite <- Hin, <- Hall, elem_of_app; done).
  assert (Hnd2 : NoDup (stacks aps ++ fl2)) by (rewrite Hsplit; apply (km_nodup _ _ _ (h_kmem _ _ _ _ _ _ _ H1))).
  eapply (wp_kinit2 _ _ fl2 p T M (fun w => w ∈ stacks aps)); [eapply holds_mono; [|exact H2]; intros w Hw; by right|intros w Hw; assert (inside kend (KERNBASE + 4194304) w) as (_ & _ & ?) by (apply Hall'; tauto); unfold PGSIZE in *; lia|].
  intros d3 l Hlock H3 Hl. apply wp_ret. exists d3, (l ++ fl2), T, M. cbn [fst snd]. split; [done|]. split; [|done]. constructor; try done.
  - apply NoDup_app in Hnd2 as [? _]. done.
  - apply Forall_forall. intros a Ha. destruct (proj1 (Hall' (ap_stack a - KSTACKSIZE))) as (_ & H4 & H5); [right; left; by apply (list_elem_of_fmap_2 (fun a => ap_stack a - KSTACKSIZE))|].
    unfold PGSIZE, KSTACKSIZE in *. lia.
  - intros w. rewrite elem_of_app, Hl. specialize (Hall' w). unfold inside, PGSIZE, KERNBASE, PHYSTOP in *.
    assert ((owns p T M w \/ w ∈ stacks aps \/ (w mod 4096 = 0 /\ 2147483648 + 4194304 <= w /\ w + 4096 <= 2147483648 + 234881024) \/ w ∈ fl2) <->
      (owns p T M w \/ w ∈ stacks aps \/ w ∈ fl2) \/ (w mod 4096 = 0 /\ 2147483648 + 4194304 <= w /\ w + 4096 <= 2147483648 + 234881024)) as -> by tauto.
    rewrite Hall'. split; [lia|]. intros (Hm & H4 & H5). destruct (decide (w + 4096 <= 2147483648 + 4194304)); [left; lia|right]. split; [done|]. split; [|lia].
    clear - Hm n. Z.div_mod_to_equations. lia.
Qed.
End MainMemory.

(** [main] brings memory up.  With the kernel linked above 1 MB and room below
    4 MB for its page table, the calls of [main] return, for any contents of memory
    and up to eight processors: the kernel's page table maps what [kmap] says and is
    in force on a CPU with flat segments; every other processor is started once, in
    the order of the table, at [mpenter], with the boot page table and a stack of
    its own; and the pages of the page table, the stacks and the free list are
    exactly the pages from [end] to [PHYSTOP], each in one place.  None of the
    allocations [main] does not check fails. *)
Theorem main_memory_ok kend kdata me mpenter epg entryother mycpu ids c b s :
  kdata mod 4096 = 0 -> KERNLINK < kdata < KERNBASE + PHYSTOP -> KERNLINK <= kend -> kend + 4096 * 522 <= KERNBASE + 4194304 ->
  code + Z.of_nat (length entryother) <= KERNLINK -> (length ids <= 8)%nat -> l_cpu s = mkCpu 0 b b -> freelist (l_data s) = 0 ->
  exists kpgdir aps d fl T M,
    main_memory kend kdata me mpenter epg entryother mycpu ids c s = Ret ((kpgdir, seginit (switchkvm kpgdir c), aps), free b d) /\
    main_post kend kdata mpenter epg kpgdir aps d fl T M /\ (ap_id <$> aps) = other_ids mycpu 0 ids.
Proof.
  intros H1 H2 H3 H4 H5 H6 H7 H8.
  destruct (proj1 (wp_Ret _ _ _) (main_run kend kdata me mpenter epg H1 H2 H3 H4 entryother mycpu ids c b s H5 H6 H7 H8)) as ([[p c'] aps] & s' & Hr & d & fl & T & M & -> & Hp & Hi & Hc).
  cbn [fst snd] in *. subst c'. eauto 10.
Qed.

(** The kernel of [kernel.sym] with four processors. *)
Lemma main_memory_ok_witness :
  exists kpgdir aps d fl T M,
    main_memory 2148620296 2148564992 0 2148544544 2148569088 (replicate 138 144) 0 [0; 1; 2; 3] (mkCpuRegs [] false (mkTs 0 0 0) 0 0) (free false (mkKmem true 0 (fun _ => 0))) =
      Ret ((kpgdir, seginit (switchkvm kpgdir (mkCpuRegs [] false (mkTs 0 0 0) 0 0)), aps), free false d) /\
    main_post 2148620296 2148564992 2148544544 2148569088 kpgdir aps d fl T M /\ (ap_id <$> aps) = [1; 2; 3].
Proof.
  apply (main_memory_ok 2148620296 2148564992 0 2148544544 2148569088 (replicate 138 144) 0 [0; 1; 2; 3] (mkCpuRegs [] false (mkTs 0 0 0) 0 0) false);
    [reflexivity|split; reflexivity|by vm_compute|by vm_compute|by vm_compute|cbn; lia|reflexivity|reflexivity].
Defined.

Lemma switchuvm_trap_witness :
  exists c', switchuvm 1048576 (Some (65536, 2149580800)) (mkCpu 0 true true) (seginit (mkCpuRegs (replicate 6 (SEG 0 0 0 0)) false (mkTs 0 0 0) 0 0)) = Ret (mkCpu 0 true true, c') /\
    exists m', (s1 ← Asm.interrupt (ts_esp0 (tss c')) (ts_ss0 (tss c')) 14 6 1048576 8 true Asm.demo_user; Asm.run (Asm.vector 14 1048832 ++ Asm.alltraps Asm.just_return 1048900) s1) =
      Ret (Asm.user_of (Asm.frame_of 14 6 Asm.demo_user (65536 + KSTACKSIZE - 44)) m').
Proof.
  destruct (switchuvm_trap 1048576 65536 2149580800 true (seginit (mkCpuRegs (replicate 6 (SEG 0 0 0 0)) false (mkTs 0 0 0) 0 0)) Asm.demo_user Asm.just_return 1048900 1048832 1048576 true
    14 6 (Asm.frame_of 14 6 Asm.demo_user (65536 + KSTACKSIZE - 44))) as (c' & H1 & _ & _ & H2);
    [reflexivity|lia|reflexivity|lia|unfold KSTACKSIZE; lia|lia|reflexivity|reflexivity|apply Asm.just_return_handles|].
  exists c'. split; [exact H1|exact H2].
Defined.
End Start.
