(* ===== verification/Entry.v ===== *)
(** * From reset to C: bootasm.S, entry.S, entryother.S

    Models the three assembly files of [src/xv6-public] that run before C code can:
    [bootasm.S] (the boot sector, up to [bootmain]), [entry.S] (the kernel, up to
    [main]) and [entryother.S] (the other processors, up to [mpenter]), with the
    segment descriptors of [asm.h].

    They change how the processor finds its next instruction, so this machine, unlike
    that of [Asm], has real and protected mode, segment bases, the A20 gate of the
    keyboard controller, and paging with 4 MB pages.  A program is a list of
    instructions with their linear addresses; an instruction runs only when its
    address leads to the place where it is.  The theorems: each program gets to its C
    function, in the mode and on the stack this function needs. *)
From S2P Require Export Start.

Module Entry.
Import Kalloc Vm Start.
Local Open Scope Z_scope.

(** ** The processor *)

Definition CR0_PE : Z := 1.
Definition CR0_WP : Z := 65536.
Definition CR0_PG : Z := 2147483648.
Definition CR4_PSE : Z := 16.

(** What decides how an address is translated; [pm] is physical memory. *)
Record view := mkView { cr0 : Z; cr3 : Z; cr4 : Z; a20 : bool; pm : Z -> Z }.
Definition protected (v : view) : bool := Z.testbit (cr0 v) 0.
Definition paging (v : view) : bool := Z.testbit (cr0 v) 31.

(** With the gate closed address line 20 is zero. *)
Definition gate (v : view) (a : Z) : Z := if a20 v then a else Z.ldiff a 1048576.
(** The page directory holds 4 MB pages only. *)
Definition phys (v : view) (la : Z) : outcome Z :=
  if paging v then
    let pde := pm v (gate v (cr3 v - cr3 v mod 4096 + 4 * PDX la)) in
    if present pde && bool_decide (Z.land pde PTE_PS <> 0) && Z.testbit (cr4 v) 4
    then Ret (gate v (Z.land pde 4290772992 + la mod 4194304)) else Undef "page fault"
  else Ret (gate v la).

(** The bases of the segment registers, [None] for a null selector. *)
Inductive sreg := CS | DS | ES | SS | FS | GS.
Record bases := mkBases { g_cs : option Z; g_ds : option Z; g_es : option Z; g_ss : option Z; g_fs : option Z; g_gs : option Z }.
Definition base_of (r : sreg) (g : bases) : option Z :=
  match r with CS => g_cs g | DS => g_ds g | ES => g_es g | SS => g_ss g | FS => g_fs g | GS => g_gs g end.
Definition set_base (r : sreg) (x : option Z) (g : bases) : bases :=
  let '(mkBases c d e s f h) := g in
  match r with
  | CS => mkBases x d e s f h | DS => mkBases c x e s f h | ES => mkBases c d x s f h
  | SS => mkBases c d e x f h | FS => mkBases c d e s x h | GS => mkBases c d e s f x
  end.

(** [b_gdt] is the table [lgdt] has loaded, as its bytes; [b_ip] is the linear address control was
    transferred to, [None] for the next instruction; [b_busy] counts the reads of
    its status after which the keyboard controller takes a byte. *)
Record bst := mkB {
  b_eax : Z; b_esp : Z; b_seg : bases; b_gdt : list (list Z); b_ip : option Z; b_if : bool;
  b_busy : nat; b_cmd : Z; b_view : view }.

Definition set_eax (x : Z) (s : bst) : bst := mkB x (b_esp s) (b_seg s) (b_gdt s) (b_ip s) (b_if s) (b_busy s) (b_cmd s) (b_view s).
Definition set_esp (x : Z) (s : bst) : bst := mkB (b_eax s) x (b_seg s) (b_gdt s) (b_ip s) (b_if s) (b_busy s) (b_cmd s) (b_view s).
Definition set_seg (r : sreg) (x : option Z) (s : bst) : bst :=
  mkB (b_eax s) (b_esp s) (set_base r x (b_seg s)) (b_gdt s) (b_ip s) (b_if s) (b_busy s) (b_cmd s) (b_view s).
Definition set_ip (x : option Z) (s : bst) : bst := mkB (b_eax s) (b_esp s) (b_seg s) (b_gdt s) x (b_if s) (b_busy s) (b_cmd s) (b_view s).
Definition set_view (v : view) (s : bst) : bst := mkB (b_eax s) (b_esp s) (b_seg s) (b_gdt s) (b_ip s) (b_if s) (b_busy s) (b_cmd s) v.

(** ** Segment descriptors of [asm.h] *)

Definition SEG_NULLASM : list Z := [0; 0; 0; 0; 0; 0; 0; 0].
(** The two words, little-endian, and four bytes. *)
Definition SEG_ASM (type base lim : Z) : list Z :=
  let w0 := Z.land (Z.shiftr lim 12) 65535 in
  let w1 := Z.land base 65535 in
  [w0 mod 256; w0 / 256; w1 mod 256; w1 / 256; Z.land (Z.shiftr base 16) 255; Z.lor 144 type; Z.lor 192 (Z.land (Z.shiftr lim 28) 15); Z.land (Z.shiftr base 24) 255].
(** The table of both files. *)
Definition boot_gdt : list (list Z) := [SEG_NULLASM; SEG_ASM (Z.lor STA_X STA_R) 0 4294967295; SEG_ASM STA_W 0 4294967295].

Definition desc_present (d : list Z) : bool := Z.testbit (nth 5 d 0) 7.
Definition desc_base (d : list Z) : Z := nth 2 d 0 + 256 * nth 3 d 0 + 65536 * nth 4 d 0 + 16777216 * nth 7 d 0.
Definition desc_limit (d : list Z) : Z := nth 0 d 0 + 256 * nth 1 d 0 + 65536 * (nth 6 d 0 mod 16).

(** What a selector puts into a segment register. *)
Definition segment (sel : Z) (s : bst) : outcome (option Z) :=
  if protected (b_view s) then
    if decide (sel / 8 = 0) then Ret None
    else match b_gdt s !! Z.to_nat (sel / 8) with
         | Some d => if desc_present d then Ret (Some (desc_base d)) else Undef "general protection"
         | None => Undef "general protection"
         end
  else Ret (Some (16 * sel)).

(** ** Instructions *)

Definition read (r : sreg) (off : Z) (s : bst) : outcome Z :=
  match base_of r (b_seg s) with
  | None => Undef "general protection"
  | Some base => p ← phys (b_view s) (uint32 (base + off)); Ret (pm (b_view s) p)
  end.
Definition push (x : Z) (s : bst) : outcome bst :=
  match base_of SS (b_seg s) with
  | None => Undef "general protection"
  | Some base =>
      let sp := uint32 (b_esp s - 4) in
      p ← phys (b_view s) (uint32 (base + sp));
      let v := b_view s in
      Ret (set_esp sp (set_view (mkView (cr0 v) (cr3 v) (cr4 v) (a20 v) (fun a => if decide (a = p) then x else pm v a)) s))
  end.

Inductive instr :=
| Cli
| XorAx                              (** [xorw %ax,%ax] *)
| MovAx (v : Z)
| MovAl (v : Z)
| MovSeg (r : sreg)                  (** [movw %ax, r] *)
| Lgdt (t : list (list Z))           (** the table [gdtdesc] describes *)
| GetCr0 | GetCr4                    (** to [%eax] *)
| SetCr0 | SetCr3 | SetCr4           (** from [%eax] *)
| OrEax (v : Z)
| MovEax (v : Z)
| MovEsp (v : Z)
| LoadEax (a : Z)
| LoadEsp (a : Z)
| Wait                               (** [1: inb $0x64,%al; testb $0x2,%al; jnz 1b] *)
| OutAl (port : Z)
| Ljmp (sel target : Z)
| JmpEax
| Call (target ret : Z)              (** [ret] is the address after the call *)
| CallMem (a ret : Z).

Definition with_cr0 (x : Z) (v : view) : view := mkView x (cr3 v) (cr4 v) (a20 v) (pm v).
Definition with_cr3 (x : Z) (v : view) : view := mkView (cr0 v) x (cr4 v) (a20 v) (pm v).
Definition with_cr4 (x : Z) (v : view) : view := mkView (cr0 v) (cr3 v) x (a20 v) (pm v).
Definition with_a20 (x : bool) (v : view) : view := mkView (cr0 v) (cr3 v) (cr4 v) x (pm v).
Definition low16 (x v : Z) : Z := x - x mod 65536 + v.
Definition low8 (x v : Z) : Z := x - x mod 256 + v.

(** The status of the keyboard controller is read until bit 1 is clear. *)
Fixpoint wait_kbc (n : nat) (s : bst) : bst :=
  match n with
  | O => mkB (low8 (b_eax s) 0) (b_esp s) (b_seg s) (b_gdt s) (b_ip s) (b_if s) 0 (b_cmd s) (b_view s)
  | S n => wait_kbc n (mkB (low8 (b_eax s) 2) (b_esp s) (b_seg s) (b_gdt s) (b_ip s) (b_if s) n (b_cmd s) (b_view s))
  end.
(** Command 0xd1 at port 0x64 makes the next byte at port 0x60 the output port of the
    controller, whose bit 1 is the A20 gate.  The controller then is busy for some
    [later] reads. *)
Definition out_kbc (later : nat) (port v : Z) (s : bst) : bst :=
  let s := mkB (b_eax s) (b_esp s) (b_seg s) (b_gdt s) (b_ip s) (b_if s) later (b_cmd s) (b_view s) in
  if decide (port = 100) then mkB (b_eax s) (b_esp s) (b_seg s) (b_gdt s) (b_ip s) (b_if s) later v (b_view s)
  else if decide (port = 96 /\ b_cmd s = 209) then set_view (with_a20 (Z.testbit v 1) (b_view s)) s
  else s.

Definition exec_instr (later : nat) (i : instr) (s : bst) : outcome bst :=
  let v := b_view s in
  match i with
  | Cli => Ret (mkB (b_eax s) (b_esp s) (b_seg s) (b_gdt s) (b_ip s) false (b_busy s) (b_cmd s) v)
  | XorAx => Ret (set_eax (low16 (b_eax s) 0) s)
  | MovAx x => Ret (set_eax (low16 (b_eax s) x) s)
  | MovAl x => Ret (set_eax (low8 (b_eax s) x) s)
  | MovSeg r => b ← segment (b_eax s mod 65536) s; Ret (set_seg r b s)
  | Lgdt t => if decide (base_of DS (b_seg s) = Some 0) then Ret (mkB (b_eax s) (b_esp s) (b_seg s) t (b_ip s) (b_if s) (b_busy s) (b_cmd s) v) else Undef "lgdt"
  | GetCr0 => Ret (set_eax (cr0 v) s)
  | GetCr4 => Ret (set_eax (cr4 v) s)
  | SetCr0 => Ret (set_view (with_cr0 (b_eax s) v) s)
  | SetCr3 => Ret (set_view (with_cr3 (b_eax s) v) s)
  | SetCr4 => Ret (set_view (with_cr4 (b_eax s) v) s)
  | OrEax x => Ret (set_eax (Z.lor (b_eax s) x) s)
  | MovEax x => Ret (set_eax x s)
  | MovEsp x => Ret (set_esp x s)
  | LoadEax a => x ← read DS a s; Ret (set_eax x s)
  | LoadEsp a => x ← read DS a s; Ret (set_esp x s)
  | Wait => Ret (wait_kbc (b_busy s) s)
  | OutAl port => Ret (out_kbc later port (b_eax s mod 256) s)
  | Ljmp sel target =>
      b ← segment sel s;
      match b with Some b => Ret (set_ip (Some (uint32 (b + target))) (set_seg CS (Some b) s)) | None => Undef "general protection" end
  | JmpEax => match base_of CS (b_seg s) with Some b => Ret (set_ip (Some (uint32 (b + b_eax s))) s) | None => Undef "general protection" end
  | Call t ret => s ← push ret s; match base_of CS (b_seg s) with Some b => Ret (set_ip (Some (uint32 (b + t))) s) | None => Undef "general protection" end
  | CallMem a ret =>
      t ← read DS a s;
      s ← push ret s;
      match base_of CS (b_seg s) with Some b => Ret (set_ip (Some (uint32 (b + t))) s) | None => Undef "general protection" end
  end.

(** An instruction is at the linear and physical address [a]. *)
Definition fetch (a : Z) (s : bst) : outcome bst :=
  if decide (b_ip s = None \/ b_ip s = Some a) then
    p ← phys (b_view s) a;
    if decide (p = a) then Ret (set_ip None s) else Undef "fetch"
  else Undef "fetch".
Fixpoint run (later : nat) (c : list (Z * instr)) (s : bst) : outcome bst :=
  match c with
  | [] => Ret s
  | (a, i) :: c => s ← fetch a s; s ← exec_instr later i s; run later c s
  end.

(** ** The code *)

Definition bootasm (start start32 bootmain ret : Z) : list instr :=
  [Cli; XorAx; MovSeg DS; MovSeg ES; MovSeg SS;
   Wait; MovAl 209; OutAl 100; Wait; MovAl 223; OutAl 96;
   Lgdt boot_gdt; GetCr0; OrEax CR0_PE; SetCr0; Ljmp (Z.shiftl (Z.of_nat SEG_KCODE) 3) start32;
   MovAx (Z.shiftl (Z.of_nat SEG_KDATA) 3); MovSeg DS; MovSeg ES; MovSeg SS; MovAx 0; MovSeg FS; MovSeg GS;
   MovEsp start; Call bootmain ret].

Definition entry (entrypgdir stack main : Z) : list instr :=
  [GetCr4; OrEax CR4_PSE; SetCr4; MovEax (V2P entrypgdir); SetCr3; GetCr0; OrEax (Z.lor CR0_PG CR0_WP); SetCr0;
   MovEsp (stack + KSTACKSIZE); MovEax main; JmpEax].

Definition entryother (start start32 ret : Z) : list instr :=
  [Cli; XorAx; MovSeg DS; MovSeg ES; MovSeg SS;
   Lgdt boot_gdt; GetCr0; OrEax CR0_PE; SetCr0; Ljmp (Z.shiftl (Z.of_nat SEG_KCODE) 3) start32;
   MovAx (Z.shiftl (Z.of_nat SEG_KDATA) 3); MovSeg DS; MovSeg ES; MovSeg SS; MovAx 0; MovSeg FS; MovSeg GS;
   GetCr4; OrEax CR4_PSE; SetCr4; LoadEax (start - 12); SetCr3; GetCr0; OrEax (Z.lor (Z.lor CR0_PE CR0_PG) CR0_WP); SetCr0;
   LoadEsp (start - 4); CallMem (start - 8) ret].

(** The instructions at the addresses [f n], [f (n + 1)] and so on. *)
Fixpoint place (f : nat -> Z) (n : nat) (c : list instr) : list (Z * instr) :=
  match c with [] => [] | i :: c => (f n, i) :: place f (S n) c end.

(** ** Translation *)

Lemma phys_off v a : paging v = false -> a20 v = true -> phys v a = Ret a.
Proof. intros Hp Ha. unfold phys, gate. by rewrite Hp, Ha. Qed.
Lemma phys_real v a : paging v = false -> 0 <= a < 1048576 -> phys v a = Ret a.
Proof.
  intros Hp Ha. unfold phys, gate. rewrite Hp. destruct (a20 v); [done|]. f_equal.
  apply Z.bits_inj'. intros n Hn. rewrite Z.ldiff_spec. change 1048576 with (2 ^ 20). rewrite Z.pow2_bits_eqb by lia.
  destruct (Z.eqb_spec 20 n) as [<-|]; [|by rewrite andb_true_r]. cbn [negb]. rewrite andb_false_r. symmetry. destruct (decide (a = 0)) as [->|]; [done|].
  apply Z.bits_above_log2; [lia|]. apply Z.log2_lt_pow2; lia.
Qed.

(** Physical memory holds the boot page table at [d]. *)
Definition boot_table (d : Z) (m : Z -> Z) : Prop := forall i e, entrypgdir !! i = Some e -> m (d + 4 * Z.of_nat i) = e.
Lemma phys_on v d a : paging v = true -> Z.testbit (cr4 v) 4 = true -> a20 v = true -> cr3 v = d -> d mod 4096 = 0 -> boot_table d (pm v) -> 0 <= a < 2 ^ 32 ->
  phys v a = if decide (a < 4194304) then Ret a else if decide (KERNBASE <= a < KERNBASE + 4194304) then Ret (a - KERNBASE) else Undef "page fault".
Proof.
  intros Hp H4 Ha <- Hd Ht Hr. pose proof (entrypgdir_maps a Hr) as Hm. unfold translate4m in Hm. unfold phys, gate. rewrite Hp, Ha, Hd, Z.sub_0_r, H4.
  destruct (entrypgdir !! Z.to_nat (PDX a)) as [e|] eqn:E.
  - apply Ht in E. rewrite Z2Nat.id in E; [|unfold PDX; apply Z.land_nonneg; lia]. rewrite E, andb_true_r. destruct (present e && _), (decide (a < 4194304)), (decide (KERNBASE <= a < KERNBASE + 4194304)); congruence.
  - apply lookup_ge_None in E. exfalso. assert (PDX a < 1024) by (unfold PDX; change 1023 with (2 ^ 10 - 1); rewrite low_bits by lia; apply Z.mod_pos_bound; lia).
    assert (length entrypgdir = 1024%nat) by (unfold entrypgdir; by rewrite !length_insert, length_replicate). assert (0 <= PDX a) by (unfold PDX; apply Z.land_nonneg; lia). lia.
Qed.

(** ** Steps *)

Lemma run_step later a i c s s' : b_ip s = None \/ b_ip s = Some a -> phys (b_view s) a = Ret a -> exec_instr later i (set_ip None s) = Ret s' -> run later ((a, i) :: c) s = run later c s'.
Proof. intros Hi Hp He. cbn [run]. unfold fetch. rewrite decide_True by done. rewrite Hp. cbn. rewrite decide_True by done. cbn. by rewrite He. Qed.

Ltac norm := cbv beta iota delta [set_ip set_eax set_esp set_seg set_view set_base base_of b_eax b_esp b_seg b_gdt b_ip b_if b_busy b_cmd b_view
  with_cr0 with_cr3 with_cr4 with_a20 cr0 cr3 cr4 a20 pm g_cs g_ds g_es g_ss g_fs g_gs].
(** One instruction; [tac] shows where it is. *)
Ltac step tac :=
  cbn [place]; erewrite run_step; [|norm; first [left; reflexivity|right; first [reflexivity|f_equal; assumption]]|norm; tac|norm; reflexivity]; norm.

(** The view after paging is turned on. *)
Lemma on_low x d y m a : Z.testbit x 31 = true -> Z.testbit y 4 = true -> d mod 4096 = 0 -> boot_table d m -> 0 <= a < 4194304 -> phys (mkView x d y true m) a = Ret a.
Proof. intros Hx Hy Hd Ht Ha. rewrite (phys_on _ d) by (done || lia). by rewrite decide_True by lia. Qed.
Lemma on_high x d y m a : Z.testbit x 31 = true -> Z.testbit y 4 = true -> d mod 4096 = 0 -> boot_table d m -> KERNBASE <= a < KERNBASE + 4194304 ->
  phys (mkView x d y true m) a = Ret (a - KERNBASE).
Proof. intros Hx Hy Hd Ht Ha. unfold KERNBASE in *. rewrite (phys_on _ d) by (done || lia). rewrite decide_False by lia. by rewrite decide_True by (unfold KERNBASE; lia). Qed.
Lemma set_bit x k n : Z.testbit k n = true -> Z.testbit (Z.lor x k) n = true.
Proof. intros H. rewrite Z.lor_spec, H. apply orb_true_r. Qed.
Lemma V2P_page a : KERNBASE <= a < 2 ^ 32 -> a mod 4096 = 0 -> V2P a mod 4096 = 0.
Proof. intros Ha Hm. unfold V2P, uint32, KERNBASE in *. rewrite (Z.mod_small (a - 2147483648)) by lia. Z.div_mod_to_equations. lia. Qed.

Lemma keep_bit x k n : Z.testbit x n = false -> Z.testbit k n = false -> Z.testbit (Z.lor x k) n = false.
Proof. intros H1 H2. by rewrite Z.lor_spec, H1, H2. Qed.
(** The instruction at a low address is found: in real mode, without paging, and with
    the boot page table. *)
Ltac here :=
  first [by apply phys_off|apply phys_off; [by apply keep_bit|done]|by apply phys_real
        |apply on_low; [by apply set_bit..|done|done|match goal with H : forall n, 0 <= ?f n < _ |- 0 <= ?f ?k < _ => specialize (H k); lia end]].

(** [entry.S]: turning paging on does not lose the code, which runs at low addresses,
    and [main], linked above [KERNBASE], is mapped; [main] has the stack reserved for
    it.  For any layout of the code below 4 MB. *)
Theorem entry_reaches_main later f epg stack main s :
  (forall n, 0 <= f n < 4194304) -> b_ip s = Some (f 0%nat) -> base_of CS (b_seg s) = Some 0 -> paging (b_view s) = false -> a20 (b_view s) = true ->
  epg mod 4096 = 0 -> KERNBASE <= epg < 2 ^ 32 -> boot_table (V2P epg) (pm (b_view s)) -> KERNBASE <= main < KERNBASE + 4194304 ->
  exists s', run later (place f 0 (entry epg stack main)) s = Ret s' /\ b_ip s' = Some main /\ b_esp s' = stack + KSTACKSIZE /\
    phys (b_view s') main = Ret (main - KERNBASE) /\ pm (b_view s') = pm (b_view s) /\ cr3 (b_view s') = V2P epg.
Proof.
  intros Hf Hip Hcs Hp Ha Hal He Ht Hm. destruct s as [ax sp [cs ds es ss fs gs] t ip fl bz cm [c0 c3 c4 a2 m]]. cbn [b_ip b_seg b_view a20 pm base_of g_cs] in *. subst a2 cs. unfold entry.
  pose proof (V2P_page epg He Hal) as Hd. eexists. split.
  - do 8 step here. do 3 step here. reflexivity.
  - cbn [b_ip b_esp b_view pm cr3]. split; [f_equal; apply uint32_id; unfold KERNBASE in *; lia|]. split; [done|]. split; [|done]. apply on_high; [by apply set_bit..|done|done|done].
Qed.

(** ** Segments and operands *)

Lemma low16_mod x v : 0 <= v < 65536 -> low16 x v mod 65536 = v.
Proof. intros Hv. unfold low16. Z.div_mod_to_equations. lia. Qed.
Lemma segment_real sel s : protected (b_view s) = false -> segment sel s = Ret (Some (16 * sel)).
Proof. intros H. unfold segment. by rewrite H. Qed.
(** The boot table: both segments are flat. *)
Lemma segment_boot s : protected (b_view s) = true -> b_gdt s = boot_gdt -> segment 8 s = Ret (Some 0) /\ segment 16 s = Ret (Some 0) /\ segment 0 s = Ret None.
Proof. intros H Hg. unfold segment. rewrite H, Hg. by vm_compute. Qed.

Lemma exec_movseg later r x v b s : b_eax s = low16 x v -> 0 <= v < 65536 -> segment v s = Ret b -> exec_instr later (MovSeg r) s = Ret (set_seg r b s).
Proof. intros He Hv Hs. cbn [exec_instr]. rewrite He, low16_mod, Hs by done. done. Qed.
Lemma exec_ljmp later sel target b s : segment sel s = Ret (Some b) -> exec_instr later (Ljmp sel target) s = Ret (set_ip (Some (uint32 (b + target))) (set_seg CS (Some b) s)).
Proof. intros Hs. cbn [exec_instr]. by rewrite Hs. Qed.
Lemma exec_lgdt later t s : base_of DS (b_seg s) = Some 0 ->
  exec_instr later (Lgdt t) s = Ret (mkB (b_eax s) (b_esp s) (b_seg s) t (b_ip s) (b_if s) (b_busy s) (b_cmd s) (b_view s)).
Proof. intros Hs. cbn [exec_instr]. by rewrite decide_True. Qed.
Lemma read_at r a p s : base_of r (b_seg s) = Some 0 -> 0 <= a < 2 ^ 32 -> phys (b_view s) a = Ret p -> read r a s = Ret (pm (b_view s) p).
Proof. intros Hb Ha Hp. unfold read. rewrite Hb, Z.add_0_l, uint32_id, Hp by done. done. Qed.
Lemma push_at x p s : base_of SS (b_seg s) = Some 0 -> 4 <= b_esp s < 2 ^ 32 -> phys (b_view s) (b_esp s - 4) = Ret p ->
  push x s = Ret (set_esp (b_esp s - 4) (set_view (mkView (cr0 (b_view s)) (cr3 (b_view s)) (cr4 (b_view s)) (a20 (b_view s)) (fun a => if decide (a = p) then x else pm (b_view s) a)) s)).
Proof. intros Hb He Hp. unfold push. rewrite Hb, Z.add_0_l, !uint32_id, Hp by (rewrite ?uint32_id; lia). done. Qed.

(** One instruction, with what it does given by [how]. *)
Ltac step_by tac how :=
  cbn [place]; erewrite run_step; [|norm; first [left; reflexivity|right; first [reflexivity|f_equal; assumption]]|norm; tac|norm; how]; norm.

(** The 16-bit part of both files from [lgdt] on, and the segments. *)
Ltac real_seg := eapply exec_movseg; [reflexivity|lia|apply segment_real; assumption].
Ltac flat_seg := eapply exec_movseg; [reflexivity|lia|apply segment_boot; [by apply set_bit|reflexivity]].

Lemma exec_load_eax later a s x : read DS a s = Ret x -> exec_instr later (LoadEax a) s = Ret (set_eax x s).
Proof. intros H. cbn [exec_instr]. by rewrite H. Qed.
Lemma exec_load_esp later a s x : read DS a s = Ret x -> exec_instr later (LoadEsp a) s = Ret (set_esp x s).
Proof. intros H. cbn [exec_instr]. by rewrite H. Qed.
Lemma exec_call_mem later a ret s s' t : read DS a s = Ret t -> push ret s = Ret s' -> base_of CS (b_seg s') = Some 0 ->
  exec_instr later (CallMem a ret) s = Ret (set_ip (Some (uint32 t)) s').
Proof. intros H1 H2 H3. cbn [exec_instr]. rewrite H1. cbn [mbind outcome_bind]. rewrite H2. cbn [mbind outcome_bind]. by rewrite H3, Z.add_0_l. Qed.
Lemma exec_call later t ret s s' : push ret s = Ret s' -> base_of CS (b_seg s') = Some 0 -> exec_instr later (Call t ret) s = Ret (set_ip (Some (uint32 t)) s').
Proof. intros H2 H3. cbn [exec_instr]. rewrite H2. cbn [mbind outcome_bind]. by rewrite H3, Z.add_0_l. Qed.
Lemma boot_table_keep d m p x : boot_table d m -> d + 4096 <= p -> boot_table d (fun a => if decide (a = p) then x else m a).
Proof.
  intros Ht Hp i e Hi. pose proof (lookup_lt_Some _ _ _ Hi) as Hl. assert (length entrypgdir = 1024%nat) as He by (unfold entrypgdir; by rewrite !length_insert, length_replicate).
  rewrite decide_False by lia. by apply Ht.
Qed.

(** [entryother.S]: a processor started at [start] gets into protected mode, loads the
    page table, the stack and the address [startothers] left below [start], and calls
    this address; its stack is mapped because it is below 4 MB. *)
Lemma entryother_run later f s ret stack target epg :
  (forall n, 0 <= f n < 1048576) -> 12 <= f 0%nat -> b_ip s = Some (f 0%nat) -> protected (b_view s) = false -> paging (b_view s) = false -> a20 (b_view s) = true ->
  pm (b_view s) (f 0%nat - 4) = stack -> pm (b_view s) (f 0%nat - 8) = target -> pm (b_view s) (f 0%nat - 12) = V2P epg ->
  epg mod 4096 = 0 -> KERNBASE <= epg -> epg + 4096 <= stack - 4 -> boot_table (V2P epg) (pm (b_view s)) -> stack <= KERNBASE + 4194304 -> KERNBASE <= target < KERNBASE + 4194304 ->
  exists s', run later (place f 0 (entryother (f 0%nat) (f 10%nat) ret)) s = Ret s' /\ b_ip s' = Some target /\ b_esp s' = stack - 4 /\ b_if s' = false /\
    pm (b_view s') = (fun a => if decide (a = stack - 4 - KERNBASE) then ret else pm (b_view s) a) /\ cr3 (b_view s') = V2P epg /\
    protected (b_view s') = true /\ phys (b_view s') target = Ret (target - KERNBASE).
Proof.
  intros Hf H0 Hip Hpe Hpg Ha Hst Htg Hpd Hal He Hes Ht Hs Htar. destruct s as [ax sp [cs ds es ss fs gs] t ip fl bz cm [c0 c3 c4 a2 m]]. cbn [b_ip b_seg b_view a20 pm] in *. subst a2.
  unfold entryother. change (Z.shiftl (Z.of_nat SEG_KCODE) 3) with 8. change (Z.shiftl (Z.of_nat SEG_KDATA) 3) with 16.
  assert (V2P epg = epg - KERNBASE) as HV by (unfold V2P, KERNBASE in *; apply uint32_id; lia). pose proof (V2P_page epg ltac:(unfold KERNBASE in *; lia) Hal) as Hd.
  pose proof (Hf 0%nat) as Hf0. pose proof (Hf 10%nat) as Hf10. eexists. split.
  - step here. step here. do 3 step_by here real_seg.
    step_by here ltac:(apply exec_lgdt; reflexivity). do 3 step here.
    step_by here ltac:(apply exec_ljmp, segment_boot; [by apply set_bit|reflexivity]). rewrite Z.add_0_l, (uint32_id (f 10%nat)) by lia.
    step here. do 3 step_by here flat_seg.
    step here. do 2 step_by here flat_seg.
    do 3 step here.
    step_by here ltac:(eapply exec_load_eax, read_at; [reflexivity|lia|apply phys_off; [by apply keep_bit|done]]). rewrite Hpd.
    do 4 step here.
    step_by here ltac:(eapply exec_load_esp, read_at; [reflexivity|lia|apply on_low; [by apply set_bit..|done|done|lia]]). rewrite Hst.
    step_by here ltac:(eapply exec_call_mem;
      [eapply read_at; [reflexivity|lia|apply on_low; [by apply set_bit..|done|done|lia]]|eapply push_at; [reflexivity|unfold KERNBASE in *; cbn; lia|apply on_high; [by apply set_bit..|done|done|cbn; lia]]|reflexivity]).
    rewrite Htg. reflexivity.
  - cbn [b_ip b_esp b_if b_view pm cr3]. split; [f_equal; apply uint32_id; unfold KERNBASE in *; lia|]. split; [done|]. split; [done|]. split; [done|]. split; [done|]. split; [by apply set_bit|].
    apply on_high; [by apply set_bit..|done|apply boot_table_keep; [done|lia]|done].
Qed.

Lemma low8_mod x v : 0 <= v < 256 -> low8 x v mod 256 = v.
Proof. intros Hv. unfold low8. Z.div_mod_to_equations. lia. Qed.
Lemma wait_kbc_eq n : forall s, wait_kbc n s = mkB (b_eax (wait_kbc n s)) (b_esp s) (b_seg s) (b_gdt s) (b_ip s) (b_if s) 0 (b_cmd s) (b_view s).
Proof. induction n as [|n IH]; intros s; cbn [wait_kbc]; [done|]. by rewrite IH at 1. Qed.
Lemma exec_wait later s : exec_instr later Wait s = Ret (mkB (b_eax (wait_kbc (b_busy s) s)) (b_esp s) (b_seg s) (b_gdt s) (b_ip s) (b_if s) 0 (b_cmd s) (b_view s)).
Proof. cbn [exec_instr]. by rewrite <- wait_kbc_eq. Qed.
Lemma exec_command later x s : b_eax s = low8 x 209 ->
  exec_instr later (OutAl 100) s = Ret (mkB (b_eax s) (b_esp s) (b_seg s) (b_gdt s) (b_ip s) (b_if s) later 209 (b_view s)).
Proof. intros H. cbn [exec_instr]. rewrite H at 1. by rewrite low8_mod. Qed.
Lemma exec_a20 later x s : b_eax s = low8 x 223 -> b_cmd s = 209 ->
  exec_instr later (OutAl 96) s = Ret (mkB (b_eax s) (b_esp s) (b_seg s) (b_gdt s) (b_ip s) (b_if s) later 209 (with_a20 true (b_view s))).
Proof. intros H Hc. cbn [exec_instr]. rewrite H at 1. rewrite low8_mod by lia. unfold out_kbc. rewrite decide_False by lia. cbn [b_cmd]. rewrite decide_True by done. by rewrite Hc. Qed.

(** [bootasm.S]: [bootmain] runs in protected mode with flat segments, without paging,
    with the A20 gate open, so that every address is its physical address, and with
    its stack below the boot sector; for any state of the processor in real mode. *)
Theorem bootasm_reaches_bootmain later f bootmain ret s :
  (forall n, 0 <= f n < 1048576) -> 4 <= f 0%nat -> 0 <= bootmain < 1048576 -> b_ip s = Some (f 0%nat) -> protected (b_view s) = false -> paging (b_view s) = false ->
  exists s', run later (place f 0 (bootasm (f 0%nat) (f 16%nat) bootmain ret)) s = Ret s' /\ b_ip s' = Some bootmain /\ b_esp s' = f 0%nat - 4 /\ b_if s' = false /\
    protected (b_view s') = true /\ (forall a, phys (b_view s') a = Ret a) /\ (forall r, r ∈ [CS; DS; ES; SS] -> base_of r (b_seg s') = Some 0) /\
    pm (b_view s') = (fun a => if decide (a = f 0%nat - 4) then ret else pm (b_view s) a).
Proof.
  intros Hf H0 Hb Hip Hpe Hpg. destruct s as [ax sp [cs ds es ss fs gs] t ip fl bz cm [c0 c3 c4 a2 m]]. cbn [b_ip b_seg b_view pm] in *.
  unfold bootasm. change (Z.shiftl (Z.of_nat SEG_KCODE) 3) with 8. change (Z.shiftl (Z.of_nat SEG_KDATA) 3) with 16.
  pose proof (Hf 0%nat) as Hf0. pose proof (Hf 16%nat) as Hf16. eexists. split.
  - step here. step here. do 3 step_by here real_seg.
    step_by here ltac:(apply exec_wait). step here. step_by here ltac:(eapply exec_command; reflexivity).
    step_by here ltac:(apply exec_wait). step here. step_by here ltac:(eapply exec_a20; reflexivity).
    step_by here ltac:(apply exec_lgdt; reflexivity). do 3 step here.
    step_by here ltac:(apply exec_ljmp, segment_boot; [by apply set_bit|reflexivity]). rewrite Z.add_0_l, (uint32_id (f 16%nat)) by lia.
    step here. do 3 step_by here flat_seg.
    step here. do 2 step_by here flat_seg.
    step here.
    step_by here ltac:(eapply exec_call; [eapply push_at; [reflexivity|cbn; lia|apply phys_off; [by apply keep_bit|done]]|reflexivity]). reflexivity.
  - cbn [b_ip b_esp b_if b_view b_seg pm]. split; [f_equal; apply uint32_id; lia|]. split; [done|]. split; [done|]. split; [by apply set_bit|].
    split; [intros a; apply phys_off; [by apply keep_bit|done]|]. split; [|done]. intros r Hr. repeat (apply elem_of_cons in Hr as [->|Hr]; [done|]). by apply elem_of_nil in Hr.
Qed.

(** C11. The other processors start.  After [main] has brought memory up ([kinit1],
    [kvmalloc], [startothers], [kinit2], with the pages from [end] to [PHYSTOP] each in
    one place), every processor of the table but the one that runs has been started
    once with a stack of its own; and such a processor, which begins in real mode at
    0x7000 and finds the three words [startothers] has left there, gets through
    [entryother.S] into [mpenter], in protected mode under the boot page table, with
    its stack.  None of the allocations [main] does not check fails. *)
Theorem processors_start kend kdata me mpenter epg image mycpu ids c b s :
  kdata mod 4096 = 0 -> KERNLINK < kdata < KERNBASE + PHYSTOP -> KERNLINK <= kend -> kend + 4096 * 522 <= KERNBASE + 4194304 ->
  code + Z.of_nat (length image) <= KERNLINK -> (length ids <= 8)%nat -> Locked.l_cpu s = Spin.mkCpu 0 b b -> freelist (Locked.l_data s) = 0 ->
  KERNBASE <= epg -> epg mod 4096 = 0 -> epg + 4096 <= kend -> KERNBASE <= mpenter < KERNBASE + 4194304 ->
  exists kpgdir aps d fl T M,
    main_memory kend kdata me mpenter epg image mycpu ids c s = Ret ((kpgdir, seginit (switchkvm kpgdir c), aps), Locked.free b d) /\
    main_post kend kdata mpenter epg kpgdir aps d fl T M /\ (ap_id <$> aps) = other_ids mycpu 0 ids /\
    forall a later f ret x, a ∈ aps -> f 0%nat = ap_code a -> (forall n, 0 <= f n < 1048576) -> b_ip x = Some (ap_code a) -> protected (b_view x) = false -> paging (b_view x) = false -> a20 (b_view x) = true ->
      pm (b_view x) (ap_code a - 4) = ap_stack a -> pm (b_view x) (ap_code a - 8) = ap_entry a -> pm (b_view x) (ap_code a - 12) = ap_pgdir a -> boot_table (V2P epg) (pm (b_view x)) ->
      exists x', run later (place f 0 (entryother (ap_code a) (f 10%nat) ret)) x = Ret x' /\ b_ip x' = Some mpenter /\ b_esp x' = ap_stack a - 4 /\ b_if x' = false /\
        protected (b_view x') = true /\ cr3 (b_view x') = V2P epg /\ phys (b_view x') mpenter = Ret (mpenter - KERNBASE).
Proof.
  intros H1 H2 H3 H4 H5 H6 H7 H8 H9 H10 H11 H12.
  destruct (proj1 (wp_Ret _ _ _) (main_run kend kdata me mpenter epg H1 H2 H3 H4 image mycpu ids c b s H5 H6 H7 H8)) as ([[p c'] aps] & s' & Hr & d & fl & T & M & -> & Hp & Hi & Hc).
  cbn [fst snd] in *. subst c'. exists p, aps, d, fl, T, M. split; [exact Hr|]. split; [exact Hp|]. split; [exact Hi|].
  intros a later f ret x Ha Hf0 Hf Hip Hpe Hpg Hga Hst Hen Hpd Ht.
  pose proof (proj1 (Forall_forall _ _) (mp_low _ _ _ _ _ _ _ _ _ _ Hp) a Ha) as Hlow. destruct (proj1 (Forall_forall _ _) (mp_entry _ _ _ _ _ _ _ _ _ _ Hp) a Ha) as (Hcode & Hent & Hpgd).
  rewrite Hent in Hen. rewrite Hpgd in Hpd. rewrite <- Hf0 in Hip, Hst, Hen, Hpd |- *. unfold KSTACKSIZE in Hlow.
  destruct (entryother_run later f x ret (ap_stack a) mpenter epg) as (x' & Hx & G1 & G2 & G3 & _ & G4 & G5 & G6); try done; [lia..|].
  exists x'. by split_and!.
Qed.

(** ** Instances *)

(** Code of three bytes per instruction from [a] on, and a memory with the boot page
    table at 0x109000, as in [kernel.sym]. *)
Definition every3 (a : Z) (n : nat) : Z := a + 3 * Z.of_nat (n `mod` 32).
Lemma every3_low a n : 0 <= a < 1048000 -> 0 <= every3 a n < 1048576.
Proof. intros Ha. unfold every3. pose proof (Nat.mod_upper_bound n 32). lia. Qed.
Definition table_at (d : Z) (m : Z -> Z) (x : Z) : Z := if decide (d <= x < d + 4096) then nth (Z.to_nat ((x - d) / 4)) entrypgdir 0 else m x.
Lemma table_at_ok d m : boot_table d (table_at d m).
Proof.
  intros i e Hi. pose proof (lookup_lt_Some _ _ _ Hi) as Hl. assert (length entrypgdir = 1024%nat) as He by (unfold entrypgdir; by rewrite !length_insert, length_replicate).
  unfold table_at. rewrite decide_True by lia. replace (Z.to_nat ((d + 4 * Z.of_nat i - d) / 4)) with i by (Z.div_mod_to_equations; lia). by apply nth_lookup_Some.
Qed.

(** A processor after INIT and STARTUP. *)
Definition demo_ap (a : ap) : bst :=
  mkB 0 0 (mkBases (Some 28672) (Some 0) (Some 0) (Some 0) (Some 0) (Some 0)) [] (Some 28672) false 0 0
    (mkView 1610612752 0 0 true (table_at 1085440 (fun x => if decide (x = 28668) then ap_stack a else if decide (x = 28664) then ap_entry a else if decide (x = 28660) then ap_pgdir a else 0))).

Lemma processors_start_witness :
  exists kpgdir aps d,
    main_memory 2148620296 2148564992 0 2148544544 2148569088 (replicate 138 144) 0 [0; 1; 2; 3] (mkCpuRegs [] false (mkTs 0 0 0) 0 0) (Locked.free false (mkKmem true 0 (fun _ => 0))) =
      Ret ((kpgdir, seginit (switchkvm kpgdir (mkCpuRegs [] false (mkTs 0 0 0) 0 0)), aps), Locked.free false d) /\
    (ap_id <$> aps) = [1; 2; 3] /\
    forall a, a ∈ aps -> ap_code a = 28672 -> exists x', run 0 (place (every3 28672) 0 (entryother (ap_code a) (every3 28672 10) 28780)) (demo_ap a) = Ret x' /\ b_ip x' = Some 2148544544 /\ b_esp x' = ap_stack a - 4.
Proof.
  destruct (processors_start 2148620296 2148564992 0 2148544544 2148569088 (replicate 138 144) 0 [0; 1; 2; 3] (mkCpuRegs [] false (mkTs 0 0 0) 0 0) false
    (Locked.free false (mkKmem true 0 (fun _ => 0)))) as (p & aps & d & fl & T & M & Hr & _ & Hi & Hx);
    [reflexivity|split; reflexivity|by vm_compute|by vm_compute|by vm_compute|cbn; lia|reflexivity|reflexivity|by vm_compute|reflexivity|by vm_compute|by vm_compute|].
  exists p, aps, d. split; [exact Hr|]. split; [exact Hi|]. intros a Ha Hc.
  destruct (Hx a 0%nat (every3 28672) 28780 (demo_ap a) Ha) as (x' & G1 & G2 & G3 & _);
    [by rewrite Hc|intros n; apply every3_low; lia|by rewrite Hc|reflexivity|reflexivity|reflexivity|by rewrite Hc|by rewrite Hc|by rewrite Hc|apply table_at_ok|].
  exists x'. by split_and!.
Defined.

(** The boot sector, with the gate closed and a controller that is busy; the kernel. *)
Definition demo_boot : bst := mkB 43605 0 (mkBases (Some 0) None None None None None) [] (Some 31744) true 5 0 (mkView 16 0 0 false (fun _ => 0)).
Lemma bootasm_reaches_bootmain_witness :
  exists s', run 3 (place (every3 31744) 0 (bootasm 31744 (every3 31744 16) 32059 31820)) demo_boot = Ret s' /\ b_ip s' = Some 32059 /\ b_esp s' = 31740.
Proof.
  destruct (bootasm_reaches_bootmain 3 (every3 31744) 32059 31820 demo_boot) as (s' & H1 & H2 & H3 & _); [intros n; apply every3_low; lia|by vm_compute|lia|reflexivity|reflexivity|reflexivity|].
  exists s'. by split_and!.
Defined.
Definition demo_entry : bst := mkB 0 31000 (mkBases (Some 0) (Some 0) (Some 0) (Some 0) None None) boot_gdt (Some 1048000) false 0 0 (mkView 17 0 0 true (table_at 1085440 (fun _ => 0))).
Lemma entry_reaches_main_witness :
  exists s', run 0 (place (fun n => 1048000 + 3 * Z.of_nat (n `mod` 32)) 0 (entry 2148569088 2148611520 2148544224)) demo_entry = Ret s' /\ b_ip s' = Some 2148544224 /\ b_esp s' = 2148615616.
Proof.
  destruct (entry_reaches_main 0 (fun n => 1048000 + 3 * Z.of_nat (n `mod` 32)) 2148569088 2148611520 2148544224 demo_entry) as (s' & H1 & H2 & H3 & _);
    [intros n; pose proof (Nat.mod_upper_bound n 32); lia|reflexivity|reflexivity|reflexivity|reflexivity|reflexivity|by vm_compute|apply table_at_ok|by vm_compute|].
  exists s'. by split_and!.
Defined.
End Entry.
