(* ===== verification/Umalloc.v ===== *)
(** * The user memory allocator

    Models [src/xv6-public/umalloc.c], the allocator of Kernighan and Ritchie.
    A header is 8 bytes at an address that is a multiple of 8; [h_ptr] and
    [h_size] are the two fields of the headers.  Whether the kernel grants a
    request of [sbrk] is a parameter; [base] is the address of the static
    header. *)
From S2P Require Export Prelude.

Module Umalloc.
Local Open Scope Z_scope.

Record heap := mkHeap { h_ptr : Z -> Z; h_size : Z -> Z; freep : Z; brk : Z }.

Definition upd (f : Z -> Z) (a x : Z) : Z -> Z := fun b => if decide (b = a) then x else f b.
Definition set_ptr (a x : Z) (h : heap) : heap := mkHeap (upd (h_ptr h) a x) (h_size h) (freep h) (brk h).
Definition set_size (a x : Z) (h : heap) : heap := mkHeap (h_ptr h) (upd (h_size h) a (uint32 x)) (freep h) (brk h).
Definition set_freep (x : Z) (h : heap) : heap := mkHeap (h_ptr h) (h_size h) x (brk h).

(** The loop of [free]. *)
Fixpoint find_place (fuel : nat) (bp p : Z) (h : heap) : outcome Z :=
  match fuel with
  | O => Hang "free"
  | S fuel =>
      let q := h_ptr h p in
      if decide (p < bp /\ bp < q) then Ret p
      else if decide (q <= p /\ (p < bp \/ bp < q)) then Ret p
      else find_place fuel bp q h
  end.

(** Joining [bp] with the block above it, and the block below it with [bp]. *)
Definition join_upper (bp p : Z) (h : heap) : heap :=
  if decide (bp + 8 * h_size h bp = h_ptr h p) then
    let h := set_size bp (h_size h bp + h_size h (h_ptr h p)) h in
    set_ptr bp (h_ptr h (h_ptr h p)) h
  else set_ptr bp (h_ptr h p) h.
Definition join_lower (bp p : Z) (h : heap) : heap :=
  if decide (p + 8 * h_size h p = bp) then
    let h := set_size p (h_size h p + h_size h bp) h in
    set_ptr p (h_ptr h bp) h
  else set_ptr p bp h.

Definition free (fuel : nat) (ap : Z) (h : heap) : outcome heap :=
  let bp := ap - 8 in
  p ← find_place fuel bp (freep h) h;
  Ret (set_freep p (join_lower bp p (join_upper bp p h))).

Section Malloc.
(** [base]'s address, and whether [sbrk(n)] succeeds at a given break; the
    argument of [sbrk] is an [int]. *)
Context (base : Z) (grow : Z -> Z -> bool).

(** The result of [morecore]: the new [freep], or 0. *)
Definition morecore (fuel : nat) (nu : Z) (h : heap) : outcome (Z * heap) :=
  let nu := if decide (nu < 4096) then 4096 else nu in
  let n := int32 (uint32 (nu * 8)) in
  if grow (brk h) n then
    let hp := brk h in
    let h := mkHeap (h_ptr h) (h_size h) (freep h) (brk h + n) in
    h ← free fuel (hp + 8) (set_size hp nu h);
    Ret (freep h, h)
  else Ret (0, h).

(** [nunits] are taken from the free block [p], whose predecessor is [prevp]. *)
Definition take_block (nunits prevp p : Z) (h : heap) : Z * heap :=
  if decide (h_size h p = nunits) then (p + 8, set_freep prevp (set_ptr prevp (h_ptr h p) h))
  else
    let h := set_size p (h_size h p - nunits) h in
    let p := p + 8 * h_size h p in
    (p + 8, set_freep prevp (set_size p nunits h)).

Fixpoint malloc_loop (fuel : nat) (nunits prevp p : Z) (h : heap) : outcome (Z * heap) :=
  match fuel with
  | O => Hang "malloc"
  | S fuel =>
      if decide (nunits <= h_size h p) then Ret (take_block nunits prevp p h)
      else if decide (p = freep h) then
        '(p, h) ← morecore fuel nunits h;
        if decide (p = 0) then Ret (0, h) else malloc_loop fuel nunits p (h_ptr h p) h
      else malloc_loop fuel nunits p (h_ptr h p) h
  end.

Definition nunits_of (nbytes : Z) : Z := uint32 (nbytes + 8 - 1) / 8 + 1.
(** [base.s.ptr = freep = prevp = &base; base.s.size = 0] on the first call. *)
Definition malloc_init (h : heap) : heap :=
  if decide (freep h = 0) then set_size base 0 (set_freep base (set_ptr base base h)) else h.
Definition malloc (fuel : nat) (nbytes : Z) (h : heap) : outcome (Z * heap) :=
  let h := malloc_init h in
  malloc_loop fuel (nunits_of nbytes) (freep h) (h_ptr h (freep h)) h.

End Malloc.

(** ** The free list *)

(** The blocks [l] (address and size) follow [a] in the list; [z] is next. *)
Fixpoint links (h : heap) (a : Z) (l : list (Z * Z)) (z : Z) : Prop :=
  match l with
  | [] => h_ptr h a = z
  | (b, s) :: l => h_ptr h a = b /\ h_size h b = s /\ links h b l z
  end.

Definition first (l : list (Z * Z)) (z : Z) : Z := match l with [] => z | (b, _) :: _ => b end.
Fixpoint final (a : Z) (l : list (Z * Z)) : Z := match l with [] => a | (b, _) :: l => final b l end.

(** The blocks of [l] are in ascending order from [e] on, with gaps between
    them: neighbours have been joined. *)
Fixpoint ascending (e : Z) (l : list (Z * Z)) : Prop :=
  match l with
  | [] => True
  | (b, s) :: l => e < b /\ b mod 8 = 0 /\ 1 <= s /\ ascending (b + 8 * s) l
  end.

Lemma links_app h a l1 l2 z : links h a (l1 ++ l2) z <-> links h a l1 (first l2 z) /\ links h (final a l1) l2 z.
Proof. revert a. induction l1 as [|[b s] l1 IH]; intros a; cbn; [destruct l2 as [|[b s] l2]; cbn; naive_solver|]. rewrite IH. naive_solver. Qed.

Lemma rev_case {A} (l : list A) : l = [] \/ exists k x, l = k ++ [x].
Proof. destruct l as [|x k _] using rev_ind; [by left|right; by exists k, x]. Qed.

Lemma final_app a l1 l2 : final a (l1 ++ l2) = final (final a l1) l2.
Proof. revert a. induction l1 as [|[b s] l1 IH]; intros a; cbn; [done|apply IH]. Qed.

(** The chain [l] hangs from [a'] in [h'] if it hangs from [a] in [h], and the
    headers of its blocks are the same. *)
Lemma links_ext h h' a a' l z : links h a l z -> h_ptr h' a' = h_ptr h a ->
  (forall b s, (b, s) ∈ l -> h_ptr h' b = h_ptr h b /\ h_size h' b = h_size h b) -> links h' a' l z.
Proof.
  revert a a'. induction l as [|[b s] l IH]; intros a a' Hl Ha Hb; cbn in *; [congruence|]. destruct Hl as (H1 & H2 & H3).
  destruct (Hb b s ltac:(by left)) as [Hp Hs]. split_and!; [congruence|congruence|]. apply (IH b); [done|done|]. intros b' s' Hin. apply (Hb b' s'). by right.
Qed.

Lemma ascending_weaken e e' l : e' <= e -> ascending e l -> ascending e' l.
Proof. destruct l as [|[b s] l]; cbn; [done|]. intros ? (? & ?). split; [lia|done]. Qed.

(** The end of the last block. *)
Fixpoint top (e : Z) (l : list (Z * Z)) : Z := match l with [] => e | (b, s) :: l => top (b + 8 * s) l end.

Lemma ascending_app e l1 l2 : ascending e (l1 ++ l2) <-> ascending e l1 /\ ascending (top e l1) l2.
Proof. revert e. induction l1 as [|[b s] l1 IH]; intros e; cbn; [tauto|]. rewrite IH. tauto. Qed.

Lemma ascending_top e l : ascending e l -> e <= top e l.
Proof. revert e. induction l as [|[b s] l IH]; intros e; cbn; [lia|]. intros (? & ? & ? & H). specialize (IH _ H). lia. Qed.

Lemma ascending_in e l b s : ascending e l -> (b, s) ∈ l -> e < b /\ b mod 8 = 0 /\ 1 <= s /\ b + 8 * s <= top e l.
Proof.
  revert e. induction l as [|[b' s'] l IH]; intros e; [by intros _ ?%elem_of_nil|]. cbn. intros (H1 & H2 & H3 & H4) [Heq|Hin]%elem_of_cons.
  - injection Heq as -> ->. pose proof (ascending_top _ _ H4). split_and!; [lia|done|done|lia].
  - destruct (IH _ H4 Hin) as (? & ? & ? & ?). split_and!; [lia|done|done|done].
Qed.

Lemma final_top e l : ascending e l -> l = [] \/ (exists s, (final e l, s) ∈ l /\ top e l = final e l + 8 * s).
Proof.
  intros _. destruct l as [|x l _] using rev_ind; [by left|right]. destruct x as [b s]. exists s. rewrite final_app. cbn. split; [apply elem_of_app; right; by left|].
  assert (forall e l, top e (l ++ [(b, s)]) = b + 8 * s) as H by (clear; intros e l; revert e; induction l as [|[b' s'] l IH]; intros e; cbn; [done|apply IH]).
  apply H.
Qed.

Lemma final_le e l : ascending e l -> e <= final e l <= top e l.
Proof.
  intros H. destruct (final_top e l H) as [->|(s & Hin & Ht)]; [cbn; lia|]. destruct (ascending_in e l _ _ H Hin) as (? & _ & ? & _). lia.
Qed.

Lemma final_in e l : final e l = e /\ l = [] \/ exists s, (final e l, s) ∈ l.
Proof.
  destruct l as [|x l _] using rev_ind; [by left|right]. destruct x as [b s]. exists s. rewrite final_app. apply elem_of_app. right. by left.
Qed.

Lemma ascending_step e k1 b s k2 : ascending e (k1 ++ (b, s) :: k2) -> final e k1 < b.
Proof. rewrite ascending_app. intros [H1 H2]. cbn in H2. pose proof (final_le e k1 H1). lia. Qed.

(** *** The place of a block in the list *)

Section Place.
Context (base : Z).
Context (h : heap) (l1 l2 : list (Z * Z)) (bp : Z).
Context (asc : ascending base (l1 ++ l2)) (lk : links h base (l1 ++ l2) base) (base_lt : base < bp).
Context (below : forall b s, (b, s) ∈ l1 -> b < bp) (above : forall b s, (b, s) ∈ l2 -> bp < b).

Lemma find_fwd m k1 fuel : l1 = k1 ++ m -> (length m < fuel)%nat -> find_place fuel bp (final base k1) h = Ret (final base l1).
Proof using asc lk base_lt below above.
  revert k1 fuel. induction m as [|[b s] m IH]; intros k1 fuel Hl Hf; (destruct fuel as [|fuel]; [cbn in Hf; lia|]); cbn [find_place].
  - rewrite app_nil_r in Hl. subst k1. pose proof (proj1 (links_app _ _ _ _ _) lk) as [_ Hp].
    assert (Hlt : final base l1 < bp). { destruct (final_in base l1) as [[-> _]|(s & Hs)]; [done|by eapply below]. }
    pose proof (final_le base l1 (proj1 (proj1 (ascending_app _ _ _) asc))). destruct l2 as [|[c t] l2']; cbn in Hp.
    + rewrite Hp. rewrite decide_False by lia. by rewrite decide_True by lia.
    + destruct Hp as [-> _]. pose proof (above c t ltac:(by left)). by rewrite decide_True by lia.
  - pose proof lk as Hlk. rewrite Hl, <- app_assoc in Hlk. apply links_app in Hlk as [_ Hp]. cbn in Hp. destruct Hp as (-> & _ & _).
    pose proof (below b s ltac:(rewrite Hl; apply elem_of_app; right; by left)).
    pose proof asc as Ha. rewrite Hl, <- app_assoc in Ha. apply ascending_step in Ha. rewrite !decide_False by lia.
    replace b with (final base (k1 ++ [(b, s)])) at 1 by (by rewrite final_app). apply IH; [by rewrite <- app_assoc|cbn in Hf; lia].
Qed.

Lemma find_wrap k2 k1 fuel : l1 ++ l2 = k1 ++ k2 -> bp < final base k1 ->
  find_place (length k2 + 1 + fuel) bp (final base k1) h = find_place fuel bp base h.
Proof using asc lk base_lt.
  revert k1. induction k2 as [|[b s] k2 IH]; intros k1 Hl Hgt; cbn [length Nat.add find_place].
  - rewrite app_nil_r in Hl. rewrite Hl in lk. pose proof (proj1 (links_app _ _ k1 [] _) ltac:(by rewrite app_nil_r)) as [_ Hp]. cbn in Hp.
    rewrite Hp. by rewrite !decide_False by lia.
  - pose proof lk as Hlk. rewrite Hl in Hlk. apply links_app in Hlk as [_ Hp]. cbn in Hp. destruct Hp as (-> & _ & _).
    pose proof asc as Ha. rewrite Hl in Ha. apply ascending_step in Ha. rewrite !decide_False by lia.
    replace b with (final base (k1 ++ [(b, s)])) at 1 by (by rewrite final_app). apply IH; [by rewrite <- app_assoc|]. rewrite final_app. cbn. lia.
Qed.

(** From wherever [freep] points to, the loop finds the last block below [bp]. *)
Lemma find_place_spec fuel : (exists k1 k2, l1 ++ l2 = k1 ++ k2 /\ freep h = final base k1) ->
  (2 * length (l1 ++ l2) + 2 <= fuel)%nat -> find_place fuel bp (freep h) h = Ret (final base l1).
Proof using asc lk base_lt below above.
  intros (k1 & k2 & Hk & ->) Hf. destruct (decide (final base k1 < bp)) as [Hlt|Hge].
  - assert (exists m, l1 = k1 ++ m) as [m Hm].
    { symmetry in Hk. apply app_eq_app in Hk as (m & [[H1 H2]|[H1 H2]]); [|by exists m]. destruct m as [|[b s] m]; [exists []; by rewrite app_nil_r in *|].
      exfalso. assert (bp < final base k1); [|lia]. rewrite H1, final_app. destruct (final_in (final base l1) ((b, s) :: m)) as [[_ ?]|(s' & Hs)]; [done|].
      eapply above. rewrite H2. apply elem_of_app. left. exact Hs. }
    apply (find_fwd m k1); [done|]. rewrite Hm in Hf. rewrite !length_app in Hf. lia.
  - assert (Hgt : bp < final base k1).
    { destruct (final_in base k1) as [[Hb _]|(s & Hs)]; [lia|]. assert ((final base k1, s) ∈ l1 ++ l2) as Hin by (rewrite Hk; apply elem_of_app; by left).
      apply elem_of_app in Hin as [Hin|Hin]; [apply below in Hin; lia|by eapply above]. }
    assert (length (l1 ++ l2) = length k1 + length k2)%nat as Hlen by (rewrite Hk; apply length_app).
    replace fuel with (length k2 + 1 + (fuel - length k2 - 1))%nat by lia. rewrite find_wrap by done.
    change base with (final base []). apply (find_fwd l1 []); [done|]. rewrite length_app in *. lia.
Qed.
End Place.

(** *** Joining neighbours *)

(** The bytes of the blocks of [l], and their number of units. *)
Definition covers (l : list (Z * Z)) (x : Z) : Prop := exists b s, (b, s) ∈ l /\ b <= x < b + 8 * s.
Fixpoint units (l : list (Z * Z)) : Z := match l with [] => 0 | (_, s) :: l => s + units l end.

Lemma covers_app l1 l2 x : covers (l1 ++ l2) x <-> covers l1 x \/ covers l2 x.
Proof. unfold covers. setoid_rewrite elem_of_app. naive_solver. Qed.
Lemma covers_cons b s l x : covers ((b, s) :: l) x <-> b <= x < b + 8 * s \/ covers l x.
Proof. unfold covers. setoid_rewrite elem_of_cons. naive_solver. Qed.
Lemma covers_nil x : ~ covers [] x.
Proof. intros (b & s & H%elem_of_nil & _). done. Qed.
Lemma units_app l1 l2 : units (l1 ++ l2) = units l1 + units l2.
Proof. induction l1 as [|[b s] l1 IH]; cbn; lia. Qed.

(** A block apart from those of [l] splits [l] in two. *)
Lemma split_at e l bp s : ascending e l -> e <= bp -> 1 <= s -> (forall x, bp <= x < bp + 8 * s -> ~ covers l x) ->
  exists l1 l2, l = l1 ++ l2 /\ top e l1 <= bp /\ forall b t, (b, t) ∈ l2 -> bp + 8 * s <= b.
Proof.
  revert e. induction l as [|[b t] l IH]; intros e Ha He Hs Hd; [exists [], []; split_and!; [done|done|by intros ?? ?%elem_of_nil]|].
  cbn in Ha. destruct Ha as (H1 & H2 & H3 & H4). destruct (decide (b < bp)) as [Hlt|Hge].
  - assert (b + 8 * t <= bp). { destruct (decide (bp < b + 8 * t)); [|lia]. exfalso. apply (Hd bp); [lia|]. apply covers_cons. left. lia. }
    destruct (IH _ H4) as (l1 & l2 & -> & Ht & Hl2); [done|done|intros x Hx Hc; apply (Hd x Hx); apply covers_cons; by right|].
    exists ((b, t) :: l1), l2. done.
  - assert (bp + 8 * s <= b). { destruct (decide (b < bp + 8 * s)); [|lia]. exfalso. apply (Hd b); [lia|]. apply covers_cons. left. lia. }
    exists [], ((b, t) :: l). split_and!; [done|cbn; lia|]. intros b' t' [[= -> ->]|Hin]%elem_of_cons; [done|]. destruct (ascending_in _ _ _ _ H4 Hin) as (? & _). lia.
Qed.

Lemma upd_eq f a x : upd f a x a = x.
Proof. unfold upd. by rewrite decide_True. Qed.
Lemma upd_ne f a x b : b <> a -> upd f a x b = f b.
Proof. intros. unfold upd. by rewrite decide_False. Qed.

Section Join.
Context (base : Z) (h : heap) (l1 l2 : list (Z * Z)) (bp s : Z).
Context (asc : ascending base (l1 ++ l2)) (lk : links h base (l1 ++ l2) base) (bsize : h_size h base = 0).
Context (base_lt : 0 < base < bp) (al : bp mod 8 = 0) (size : h_size h bp = s) (pos : 1 <= s).
Context (below : top base l1 <= bp) (above : forall b t, (b, t) ∈ l2 -> bp + 8 * s <= b).
Context (lim : bp + 8 * s <= 2 ^ 31) (lim' : forall b t, (b, t) ∈ l1 ++ l2 -> b + 8 * t <= 2 ^ 31).

Lemma below_lt b t : (b, t) ∈ l1 -> b + 8 * t <= bp /\ base < b /\ 1 <= t.
Proof using asc below. intros Hin. apply ascending_app in asc as [H1 _]. destruct (ascending_in _ _ _ _ H1 Hin) as (? & _ & ? & ?). lia. Qed.

(** [h'] has the headers of [h] apart from the one at [a]. *)
Definition same_but (a : Z) (h h' : heap) : Prop :=
  (forall b, b <> a -> h_ptr h' b = h_ptr h b /\ h_size h' b = h_size h b) /\ freep h' = freep h /\ brk h' = brk h.

(** [m] is the block at [bp] after the first join, [k] what follows it. *)
Definition joined (m : Z) (k : list (Z * Z)) : Prop :=
  ascending (bp + 8 * m) k /\ 1 <= m /\ bp + 8 * m <= 2 ^ 31 /\ s + units l2 = m + units k /\ (forall b t, (b, t) ∈ k -> (b, t) ∈ l2) /\
  (length k <= length l2)%nat /\
  (forall x, bp <= x < bp + 8 * s \/ covers l2 x <-> bp <= x < bp + 8 * m \/ covers k x).

Lemma first_l2 : h_ptr h (final base l1) = first l2 base.
Proof using lk. clear - lk. apply links_app in lk as [_ H]. destruct l2 as [|[b t] l]; [exact H|apply H]. Qed.

Lemma join_upper_spec : let h1 := join_upper bp (final base l1) h in
  exists m k, links h1 bp k base /\ h_size h1 bp = m /\ same_but bp h h1 /\ joined m k.
Proof using asc lk base_lt al size pos above lim lim'.
  cbv zeta. unfold joined, join_upper. cbn [set_ptr set_size h_ptr h_size freep brk]. pose proof (proj1 (ascending_app _ _ _) asc) as [_ Ha]. pose proof (proj1 (links_app _ _ _ _ _) lk) as [_ Hk].
  rewrite first_l2, size. destruct (decide _) as [He|Hne].
  - destruct l2 as [|[c t] l2']; cbn in He; [lia|]. cbn in Ha, Hk. destruct Hk as (_ & Hsz & Hk). destruct Ha as (Hc & Hc8 & Ht & Ha).
    pose proof (lim' c t ltac:(apply elem_of_app; right; by left)). subst c. cbn [first]. rewrite Hsz.
    exists (s + t), l2'. cbn. rewrite !upd_eq.
    split; [|split; [apply uint32_id; lia|split]].
    + apply (links_ext h _ (bp + 8 * s)); [done|cbn; apply upd_eq|].
      intros b t0 Hin. destruct (ascending_in _ _ _ _ Ha Hin) as (? & _). cbn. rewrite !upd_ne by lia. done.
    + split_and!; [|done|done]. intros b Hb. cbn. by rewrite !upd_ne.
    + split_and!; [by replace (bp + 8 * (s + t)) with (bp + 8 * s + 8 * t) by lia|lia|lia|cbn [units]; lia|by right|cbn; lia|].
      intros x. rewrite covers_cons. assert (bp <= x < bp + 8 * s \/ bp + 8 * s <= x < bp + 8 * s + 8 * t <-> bp <= x < bp + 8 * (s + t)) as <- by lia. tauto.
  - exists s, l2. cbn. split; [|split; [done|split]].
    + apply (links_ext h _ (final base l1)); [done|cbn; rewrite upd_eq; symmetry; apply first_l2|].
      intros b t0 Hin. pose proof (above b t0 Hin). cbn. rewrite upd_ne by lia. done.
    + split_and!; [|done|done]. intros b Hb. cbn. by rewrite !upd_ne.
    + split_and!; [|lia|lia|lia|done|lia|done]. destruct l2 as [|[c t] l2']; [done|]. cbn in *. pose proof (above c t ltac:(by left)). split; [lia|]. apply Ha.
Qed.

(** The list after both joins. *)
Definition merged (m : Z) (k : list (Z * Z)) (l : list (Z * Z)) : Prop :=
  ascending base l /\ units l = units l1 + m + units k /\ (length l <= length l1 + S (length k))%nat /\
  (forall x, covers l x <-> covers l1 x \/ bp <= x < bp + 8 * m \/ covers k x) /\ (exists k1 k2, l = k1 ++ k2 /\ final base l1 = final base k1).


Section Lower.
Context (h1 : heap) (m : Z) (k : list (Z * Z)).
Context (Hk : links h1 bp k base) (Hm : h_size h1 bp = m) (same : same_but bp h h1) (jn : joined m k).

Definition lower_ok (h2 : heap) : Prop :=
  exists l, links h2 base l base /\ h_size h2 base = 0 /\ merged m k l /\ freep h2 = freep h /\ brk h2 = brk h /\
    forall a, a <> bp -> a <> final base l1 -> h_size h2 a = h_size h a.

Lemma tail_above b t : (b, t) ∈ k -> bp < b.
Proof using jn above pos. intros Hb. destruct jn as (_ & _ & _ & _ & Hin & _). apply Hin, above in Hb. lia. Qed.

Lemma join_lower_base : l1 = [] -> lower_ok (join_lower bp base h1).
Proof using Hk Hm same jn bsize base_lt al above pos.
  intros Hnil. destruct same as (Hsame & Hfr & Hbr). destruct jn as (Ha & Hm1 & Hm2 & _). destruct (Hsame base ltac:(lia)) as [_ Hs0].
  unfold lower_ok, merged, join_lower. rewrite Hnil, Hs0, bsize, decide_False by lia.
  exists ((bp, m) :: k). split; [|split; [|split; [|split; [|split]]]]; cbn; try done; try congruence.
  - rewrite upd_eq. split_and!; [done|done|]. apply (links_ext h1 _ bp); [done|cbn; by rewrite upd_ne by lia|].
    intros b t Hb%tail_above. cbn. by rewrite upd_ne by lia.
  - split_and!; [lia|done|lia|done|lia|lia| |exists [], ((bp, m) :: k); done]. intros x. rewrite covers_cons. pose proof (covers_nil x). tauto.
  - intros a Ha' _. by apply Hsame.
Qed.

Lemma join_lower_block l1a p t : l1 = l1a ++ [(p, t)] -> lower_ok (join_lower bp p h1).
Proof using Hk Hm same jn asc lk bsize base_lt al below above pos.
  intros Hl1. destruct same as (Hsame & Hfr & Hbr). destruct jn as (Ha & Hm1 & Hm2 & _).
  pose proof (below_lt p t ltac:(rewrite Hl1; apply elem_of_app; right; by left)) as (Hpt & Hbp & Ht).
  pose proof (proj1 (ascending_app _ _ _) asc) as [Ha1 _]. pose proof (proj1 (links_app _ _ _ _ _) lk) as [Hl _].
  rewrite Hl1 in Ha1, Hl. apply ascending_app in Ha1 as [Haa Hap]. apply links_app in Hl as [Hla Hlp]. cbn in Hap, Hla, Hlp. destruct Hlp as (Hfp & Hsp & _).
  assert (Hlo : forall b t', (b, t') ∈ l1a -> b < p). { intros b t' Hin. destruct (ascending_in _ _ _ _ Haa Hin) as (_ & _ & ? & ?). lia. }
  assert (Hfa : final base l1a < p) by (pose proof (final_le _ _ Haa); lia). destruct (Hsame p ltac:(lia)) as [_ Hs0].
  assert (Hpre : forall h2, (forall a, a < p -> h_ptr h2 a = h_ptr h a /\ h_size h2 a = h_size h a) -> links h2 base l1a p /\ h_ptr h2 (final base l1a) = p).
  { intros h2 Hh2. split; [|rewrite <- Hfp; by apply Hh2]. apply (links_ext h _ base); [done|apply Hh2; lia|]. intros b t' Hb. apply Hh2. by eapply Hlo. }
  unfold lower_ok, merged, join_lower. rewrite Hl1, final_app, Hs0, Hsp, Hm. cbn [final]. destruct (decide _) as [He|Hne].
  - destruct (Hpre (set_ptr p (h_ptr h1 bp) (set_size p (t + m) h1))) as [Hp1 Hp2]. { intros a Hap'. cbn. rewrite !upd_ne by lia. apply Hsame. lia. }
    exists (l1a ++ (p, t + m) :: k). split; [|split; [|split; [|split; [|split]]]]; try (cbn; congruence).
    + apply links_app. split; [exact Hp1|]. cbn [links]. split_and!; [exact Hp2|cbn; rewrite upd_eq; apply uint32_id; lia|].
      apply (links_ext h1 _ bp); [done|cbn; apply upd_eq|]. intros b t' Hb%tail_above. cbn. by rewrite !upd_ne by lia.
    + cbn. rewrite upd_ne by lia. rewrite <- bsize. apply Hsame. lia.
    + rewrite !length_app, !units_app. cbn. split_and!; [|lia|lia| |exists (l1a ++ [(p, t + m)]), k; by rewrite final_app, <- app_assoc].
      * apply ascending_app. split; [done|]. cbn. split_and!; [lia|apply Hap|lia|]. by replace (p + 8 * (t + m)) with (bp + 8 * m) by lia.
      * intros x. rewrite !covers_app, !covers_cons. pose proof (covers_nil x).
        assert (p <= x < p + 8 * t \/ bp <= x < bp + 8 * m <-> p <= x < p + 8 * (t + m)) as <- by lia. tauto.
    + intros a Hab Hap'. cbn. rewrite upd_ne by done. by apply Hsame.
  - destruct (Hpre (set_ptr p bp h1)) as [Hp1 Hp2]. { intros a Hap'. cbn. rewrite !upd_ne by lia. apply Hsame. lia. }
    exists (l1a ++ (p, t) :: (bp, m) :: k). split; [|split; [|split; [|split; [|split]]]]; try (cbn; congruence).
    + apply links_app. split; [exact Hp1|]. cbn [links]. split_and!; [exact Hp2|cbn; congruence|cbn; apply upd_eq|exact Hm|].
      apply (links_ext h1 _ bp); [done|cbn; by rewrite upd_ne by lia|]. intros b t' Hb%tail_above. cbn. by rewrite !upd_ne by lia.
    + cbn. rewrite <- bsize. apply Hsame. lia.
    + rewrite !length_app, !units_app. cbn. split_and!; [|lia|lia| |exists (l1a ++ [(p, t)]), ((bp, m) :: k); by rewrite final_app, <- app_assoc].
      * apply ascending_app. split; [done|]. cbn. split_and!; [lia|apply Hap|lia|lia|done|lia|done].
      * intros x. rewrite !covers_app, !covers_cons. pose proof (covers_nil x). tauto.
    + intros a Hab _. cbn. by apply Hsame.
Qed.

Lemma join_lower_spec : lower_ok (join_lower bp (final base l1) h1).
Proof using Hk Hm same jn asc lk bsize base_lt al below above pos.
  destruct (rev_case l1) as [Hl|(l1a & [p t] & Hl)]; [rewrite Hl; by apply join_lower_base|].
  replace (final base l1) with p by (rewrite Hl; by rewrite final_app). by apply (join_lower_block l1a p t).
Qed.
End Lower.
End Join.

(** ** The invariant of the heap

    [l] is the free list without [base], [A] the blocks handed out. *)
Record heap_ok (base : Z) (h : heap) (l : list (Z * Z)) (A : gmap Z Z) : Prop := {
  o_base : 0 < base /\ base mod 8 = 0 /\ h_size h base = 0;
  o_brk : base < brk h <= 2 ^ 31 /\ brk h mod 8 = 0;
  o_links : links h base l base;
  o_asc : ascending base l;
  o_lim : forall x, covers l x -> x < brk h;
  o_freep : exists k1 k2, l = k1 ++ k2 /\ freep h = final base k1;
  o_alloc : forall a s, A !! a = Some s -> h_size h a = s /\ base < a /\ a mod 8 = 0 /\ 1 <= s /\ a + 8 * s <= brk h;
  o_apart : forall a s x, A !! a = Some s -> a <= x < a + 8 * s -> ~ covers l x;
  o_disj : forall a s b t x, A !! a = Some s -> A !! b = Some t -> a <= x < a + 8 * s -> b <= x < b + 8 * t -> a = b;
}.

Lemma block_lim base h l A b t : heap_ok base h l A -> (b, t) ∈ l -> b + 8 * t <= brk h.
Proof.
  intros H Hin. destruct (ascending_in _ _ _ _ (o_asc _ _ _ _ H) Hin) as (_ & _ & ? & _).
  assert (Hc : covers l (b + 8 * t - 1)) by (exists b, t; split; [done|lia]). apply (o_lim _ _ _ _ H) in Hc. lia.
Qed.

Lemma node_cases base h l A a : heap_ok base h l A -> (exists k1 k2, l = k1 ++ k2 /\ a = final base k1) -> a = base \/ covers l a.
Proof.
  intros H (k1 & k2 & -> & ->). destruct (final_in base k1) as [[-> _]|(s & Hs)]; [by left|right].
  exists (final base k1), s. assert (Hin : (final base k1, s) ∈ k1 ++ k2) by (apply elem_of_app; by left).
  split; [done|]. destruct (ascending_in _ _ _ _ (o_asc _ _ _ _ H) Hin). lia.
Qed.

(** Freeing a block that was handed out. *)
Lemma free_ok base h l A bp s fuel : heap_ok base h l A -> A !! bp = Some s -> (2 * length l + 2 <= fuel)%nat ->
  exists h' l', free fuel (bp + 8) h = Ret h' /\ heap_ok base h' l' (delete bp A) /\ units l' = units l + s /\ brk h' = brk h /\
    (length l' <= S (length l))%nat /\ (forall x, covers l' x <-> covers l x \/ bp <= x < bp + 8 * s).
Proof.
  intros H Hbp Hfuel. destruct (o_alloc _ _ _ _ H _ _ Hbp) as (Hsz & Hb & Hb8 & Hs & Hlim). destruct (o_base _ _ _ _ H) as (Hb0 & _ & Hbz).
  destruct (o_brk _ _ _ _ H) as [Hbrk _].
  destruct (split_at base l bp s (o_asc _ _ _ _ H)) as (l1 & l2 & Hl & Hbelow & Habove); [lia|done|intros x; by apply (o_apart _ _ _ _ H)|].
  pose proof (o_asc _ _ _ _ H) as Hasc. pose proof (o_links _ _ _ _ H) as Hlk. rewrite Hl in Hasc, Hlk.
  assert (Hplace : find_place fuel bp (freep h) h = Ret (final base l1)).
  { apply (find_place_spec base h l1 l2 bp Hasc Hlk Hb).
    - intros b t Hin. destruct (below_lt base l1 l2 bp Hasc Hbelow b t Hin). lia.
    - intros b t Hin. apply Habove in Hin. lia.
    - rewrite <- Hl. apply (o_freep _ _ _ _ H).
    - by rewrite <- Hl. }
  destruct (join_upper_spec base h l1 l2 bp s) as (m & k & Hk & Hm & Hsame & Hj); try done; try lia.
  { rewrite <- Hl. intros b t Hin. pose proof (block_lim _ _ _ _ _ _ H Hin). lia. }
  destruct (join_lower_spec base h l1 l2 bp s) with (h1 := join_upper bp (final base l1) h) (m := m) (k := k) as (l' & Hl' & Hz & Hmg & Hfr & Hbr & Hhd); try done.
  destruct Hmg as (Hasc' & Hu' & Hlen & Hcov & Hfin). destruct Hj as (_ & _ & _ & Hu & _ & Hlenk & Hcv).
  assert (Hcov' : forall x, covers l' x <-> covers l x \/ bp <= x < bp + 8 * s). { intros x. rewrite Hcov, Hl, covers_app, <- Hcv. tauto. }
  eexists _, l'. split; [unfold free; replace (bp + 8 - 8) with bp by lia; by rewrite Hplace|]. split; [|split_and!; [|exact Hbr| |done]].
  2: { rewrite Hu', Hl, units_app. lia. }
  2: { rewrite Hl, length_app. lia. }
  constructor; cbn; rewrite ?Hbr; try done.
  - split_and!; [done|apply (o_base _ _ _ _ H)|done].
  - apply (o_brk _ _ _ _ H).
  - by apply (links_ext _ _ base base l' base Hl').
  - intros x [Hx|Hx]%Hcov'; [by apply (o_lim _ _ _ _ H)|lia].
  - intros a s' [Hne Ha]%lookup_delete_Some. rewrite Hhd; [by apply (o_alloc _ _ _ _ H)|done|]. intros ->.
    destruct (o_alloc _ _ _ _ H _ _ Ha) as (_ & ? & _ & ? & _).
    destruct (node_cases base h l A (final base l1) H) as [?|Hc]; [by exists l1, l2|lia|]. eapply (o_apart _ _ _ _ H _ _ _ Ha); [|exact Hc]. lia.
  - intros a s' x [Hne Ha]%lookup_delete_Some Hx [Hc|Hc]%Hcov'; [by eapply (o_apart _ _ _ _ H)|]. apply Hne. symmetry. by eapply (o_disj _ _ _ _ H a s' bp s x).
  - intros a s' b t x [_ Ha]%lookup_delete_Some [_ Hb']%lookup_delete_Some. by eapply (o_disj _ _ _ _ H).
Qed.

(** ** Growing the heap *)

(** The free list keeps neighbours joined, so an interval it covers lies in
    one block. *)
Lemma one_block e l lo hi : ascending e l -> lo < hi -> (forall x, lo <= x < hi -> covers l x) -> exists b t, (b, t) ∈ l /\ b <= lo /\ hi <= b + 8 * t.
Proof.
  revert e. induction l as [|[b t] l IH]; intros e Ha Hlt Hc; [by destruct (covers_nil lo); apply Hc; lia|].
  cbn in Ha. destruct Ha as (H1 & H2 & H3 & H4). assert (Habove : forall x, covers l x -> b + 8 * t < x).
  { intros x (b' & t' & Hin & Hx). destruct (ascending_in _ _ _ _ H4 Hin). lia. }
  assert (Hlo : covers ((b, t) :: l) lo) by (apply Hc; lia). apply covers_cons in Hlo as [Hlo|Hlo].
  - exists b, t. split_and!; [by left|lia|]. destruct (decide (hi <= b + 8 * t)); [done|]. assert (Hx : covers ((b, t) :: l) (b + 8 * t)) by (apply Hc; lia).
    apply covers_cons in Hx as [Hx|Hx%Habove]; lia.
  - destruct (IH _ H4 Hlt) as (b' & t' & Hin & Hb').
    + intros x Hx. pose proof (Habove _ Hlo). specialize (Hc x Hx). apply covers_cons in Hc as [Hc|Hc]; [lia|done].
    + exists b', t'. split; [by right|done].
Qed.

Definition core_units (nu : Z) : Z := Z.max 4096 nu.

Section Growth.
Context (base : Z) (grow : Z -> Z -> bool) (grow_ok : forall b n, grow b n = true -> b + n <= 2 ^ 31).

(** The new block behaves like one handed out and freed. *)
Lemma grown_ok h l A nu : heap_ok base h l A -> 1 <= nu -> brk h + 8 * nu <= 2 ^ 31 ->
  heap_ok base (set_size (brk h) nu (mkHeap (h_ptr h) (h_size h) (freep h) (brk h + 8 * nu))) l (<[brk h := nu]> A) /\ A !! brk h = None.
Proof.
  intros H Hnu Hlim. destruct (o_brk _ _ _ _ H) as [Hb Hb8]. destruct (o_base _ _ _ _ H) as (Hb0 & Hb1 & Hbz).
  assert (Hfree : A !! brk h = None).
  { destruct (A !! brk h) as [s|] eqn:E; [|done]. destruct (o_alloc _ _ _ _ H _ _ E) as (_ & _ & _ & ? & ?). lia. }
  split; [|done]. constructor; cbn.
  - split_and!; [done|done|]. rewrite upd_ne by lia. done.
  - split; [lia|]. rewrite <- Hb8. replace (brk h + 8 * nu) with (brk h + nu * 8) by lia. apply Z.mod_add. done.
  - apply (links_ext h _ base); [apply (o_links _ _ _ _ H)|done|]. intros b s Hin. pose proof (block_lim _ _ _ _ _ _ H Hin).
    destruct (ascending_in _ _ _ _ (o_asc _ _ _ _ H) Hin) as (_ & _ & ? & _). cbn. rewrite upd_ne by lia. done.
  - apply (o_asc _ _ _ _ H).
  - intros x Hx%(o_lim _ _ _ _ H). lia.
  - apply (o_freep _ _ _ _ H).
  - intros a s [[<- <-]|[Hne Ha]]%lookup_insert_Some; [rewrite upd_eq, uint32_id by lia; lia|].
    destruct (o_alloc _ _ _ _ H _ _ Ha) as (? & ? & ? & ? & ?). rewrite upd_ne by done. lia.
  - intros a s x [[<- <-]|[Hne Ha]]%lookup_insert_Some Hx; [intros Hc%(o_lim _ _ _ _ H); lia|by apply (o_apart _ _ _ _ H _ _ _ Ha)].
  - intros a s b t x [[<- <-]|[Hne Ha]]%lookup_insert_Some [[<- <-]|[Hne' Hb']]%lookup_insert_Some Hx Hx'; [done| | |by eapply (o_disj _ _ _ _ H)].
    + destruct (o_alloc _ _ _ _ H _ _ Hb') as (_ & _ & _ & _ & ?). lia.
    + destruct (o_alloc _ _ _ _ H _ _ Ha) as (_ & _ & _ & _ & ?). lia.
Qed.

Lemma freep_pos h l A : heap_ok base h l A -> 0 < freep h.
Proof. intros H. destruct (o_freep _ _ _ _ H) as (k1 & k2 & -> & ->). pose proof (o_asc _ _ _ _ H) as Ha. apply ascending_app in Ha as [Ha _].
  pose proof (final_le _ _ Ha). destruct (o_base _ _ _ _ H). lia. Qed.

Lemma morecore_ok h l A nu fuel : heap_ok base h l A -> 1 <= nu < 2 ^ 28 -> (2 * length l + 2 <= fuel)%nat ->
  if grow (brk h) (8 * core_units nu) then
    exists h' l', morecore grow fuel nu h = Ret (freep h', h') /\ heap_ok base h' l' A /\ units l' = units l + core_units nu /\
      brk h' = brk h + 8 * core_units nu /\ (length l' <= S (length l))%nat /\ exists b t, (b, t) ∈ l' /\ nu <= t
  else morecore grow fuel nu h = Ret (0, h).
Proof using grow_ok.
  intros H Hnu Hfuel. unfold morecore. replace (if decide (nu < 4096) then 4096 else nu) with (core_units nu) by (unfold core_units; destruct (decide _); lia).
  assert (Hcu : 1 <= core_units nu < 2 ^ 28 /\ nu <= core_units nu) by (unfold core_units; lia). generalize dependent (core_units nu). intros cu Hcu.
  rewrite uint32_id, int32_id by lia. rewrite (Z.mul_comm cu). destruct (grow _ _) eqn:Eg; [|done].
  pose proof (grow_ok _ _ Eg) as Hlim. destruct (grown_ok h l A cu H ltac:(lia) Hlim) as [H1 Hnone].
  destruct (free_ok _ _ _ _ (brk h) cu fuel H1) as (h' & l' & Hf & H' & Hu & Hbr & Hlen & Hcov); [apply lookup_insert_eq|done|].
  rewrite Hf. cbn. rewrite delete_insert_id in H' by done. exists h', l'. split_and!; try done.
  destruct (one_block base l' (brk h) (brk h + 8 * cu) (o_asc _ _ _ _ H')) as (b & t & Hin & Hb & Ht); [lia|intros x Hx; apply Hcov; by right|].
  exists b, t. split; [done|lia].
Qed.
End Growth.

(** ** Taking a block *)

Lemma links_relink h a l z z' : ascending a l -> links h a l z -> links (set_ptr (final a l) z' h) a l z'.
Proof.
  revert a. induction l as [|[b s] l IH]; intros a Ha Hl; cbn in *; [apply upd_eq|].
  destruct Ha as (H1 & H2 & H3 & H4). destruct Hl as (H5 & H6 & H7). assert (H8 : ascending b l) by (eapply ascending_weaken; [|exact H4]; lia).
  pose proof (final_le _ _ H8). split_and!; [rewrite upd_ne; [done|lia]|done|by apply IH].
Qed.

(** The blocks of the list are apart: a byte of one is in no other. *)
Lemma block_unique e l1 b s l2 x : ascending e (l1 ++ (b, s) :: l2) -> b <= x < b + 8 * s -> ~ covers (l1 ++ l2) x.
Proof.
  rewrite ascending_app. cbn. intros (H1 & H2 & H3 & H4 & H5) Hx [Hc|Hc]%covers_app; destruct Hc as (c & t & Hin & Hc).
  - destruct (ascending_in _ _ _ _ H1 Hin). lia.
  - destruct (ascending_in _ _ _ _ H5 Hin). lia.
Qed.

Section Take.
Context (base : Z) (h : heap) (l1 l2 : list (Z * Z)) (b s n : Z) (A : gmap Z Z).
Context (H : heap_ok base h (l1 ++ (b, s) :: l2) A) (Hn : 1 <= n <= s).

Lemma block_facts : base < b /\ b mod 8 = 0 /\ b + 8 * s <= brk h /\ top base l1 < b /\ ascending base l1 /\ ascending (b + 8 * s) l2 /\
  links h base l1 b /\ h_size h b = s /\ links h b l2 base.
Proof using H Hn.
  pose proof (o_asc _ _ _ _ H) as Ha. assert (Hin : (b, s) ∈ l1 ++ (b, s) :: l2) by (apply elem_of_app; right; by left).
  destruct (ascending_in _ _ _ _ Ha Hin) as (? & ? & ? & ?). pose proof (block_lim _ _ _ _ _ _ H Hin).
  apply ascending_app in Ha as [Ha1 Ha2]. cbn in Ha2. pose proof (o_links _ _ _ _ H) as Hl. apply links_app in Hl as [Hl1 Hl2]. cbn in Hl1, Hl2. naive_solver lia.
Qed.

(** A part [c] of the block, which the free list [l'] no longer covers, is
    handed out. *)
Lemma hand_out h' l' c : b <= c -> c mod 8 = 0 -> c + 8 * n <= b + 8 * s ->
  links h' base l' base -> ascending base l' -> h_size h' c = n -> brk h' = brk h -> freep h' = final base l1 -> (exists k2, l' = l1 ++ k2) ->
  (forall x, covers l' x <-> covers (l1 ++ (b, s) :: l2) x /\ ~ (c <= x < c + 8 * n)) ->
  (forall a, ~ (b <= a < b + 8 * s) -> h_size h' a = h_size h a) -> heap_ok base h' l' (<[c := n]> A).
Proof using H Hn.
  intros Hbc Hc8 Hcs Hl' Ha' Hsz Hbrk Hfr Hk2 Hcov Hsame. destruct block_facts as (Hb & _ & Hlim & _).
  assert (Hin : forall x, c <= x < c + 8 * n -> covers (l1 ++ (b, s) :: l2) x). { intros x Hx. apply covers_app. right. apply covers_cons. left. lia. }
  constructor; rewrite ?Hbrk; try done.
  - destruct (o_base _ _ _ _ H) as (? & ? & ?). split_and!; [done|done|]. rewrite Hsame by lia. done.
  - apply (o_brk _ _ _ _ H).
  - intros x [Hx _]%Hcov. by apply (o_lim _ _ _ _ H).
  - destruct Hk2 as [k2 ->]. by exists l1, k2.
  - intros a t [[<- <-]|[Hne Hat]]%lookup_insert_Some; [lia|]. destruct (o_alloc _ _ _ _ H _ _ Hat) as (Hht & ? & ? & ? & ?).
    split_and!; [rewrite Hsame; [done|]|lia..]. intros Hab. apply (o_apart _ _ _ _ H _ _ a Hat); [lia|]. apply covers_app. right. apply covers_cons. by left.
  - intros a t x [[<- <-]|[Hne Hat]]%lookup_insert_Some Hx [Hc ?]%Hcov; [done|by apply (o_apart _ _ _ _ H _ _ _ Hat Hx)].
  - intros a t a' t' x [[<- <-]|[Hne Hat]]%lookup_insert_Some [[<- <-]|[Hne' Hat']]%lookup_insert_Some Hx Hx'; [done| | |by eapply (o_disj _ _ _ _ H)].
    + destruct (o_apart _ _ _ _ H _ _ x Hat' Hx'). by apply Hin.
    + destruct (o_apart _ _ _ _ H _ _ x Hat Hx). by apply Hin.
Qed.

Lemma unlink_links : links (set_freep (final base l1) (set_ptr (final base l1) (h_ptr h b) h)) base (l1 ++ l2) base.
Proof using H Hn.
  destruct block_facts as (Hb & Hb8 & Hlim & Htop & Ha1 & Ha2 & Hl1 & Hbs & Hl2). pose proof (final_le _ _ Ha1).
  assert (Hz : h_ptr h b = first l2 base) by (destruct l2 as [|[c t] k]; [exact Hl2|apply Hl2]). apply links_app. split.
  - rewrite <- Hz. eapply (links_ext _ _ base base); [by eapply links_relink|done|done].
  - apply (links_ext h _ b); [done|cbn; apply upd_eq|]. intros c t Hin. destruct (ascending_in _ _ _ _ Ha2 Hin). cbn. rewrite upd_ne by lia. done.
Qed.

Lemma shrink_links h' m : h_ptr h' = h_ptr h -> h_size h' b = m -> (forall a, ~ (b <= a < b + 8 * s) -> h_size h' a = h_size h a) ->
  links h' base (l1 ++ (b, m) :: l2) base.
Proof using H Hn.
  intros Hp Hm Hs. destruct block_facts as (Hb & Hb8 & Hlim & Htop & Ha1 & Ha2 & Hl1 & Hbs & Hl2). pose proof (o_links _ _ _ _ H) as Hl.
  apply links_app in Hl as [_ [Hf _]]. apply links_app. cbn. rewrite Hp, Hf. split_and!; [|done|done|].
  - apply (links_ext h _ base); [done|by rewrite Hp|]. intros c t Hin. destruct (ascending_in _ _ _ _ Ha1 Hin). rewrite Hp, Hs by lia. done.
  - apply (links_ext h _ b); [done|by rewrite Hp|]. intros c t Hin. destruct (ascending_in _ _ _ _ Ha2 Hin). rewrite Hp, Hs by lia. done.
Qed.

Lemma take_block_ok : exists c h' l', take_block n (final base l1) b h = (c + 8, h') /\ heap_ok base h' l' (<[c := n]> A) /\
  A !! c = None /\ units l' + n = units (l1 ++ (b, s) :: l2) /\ brk h' = brk h /\ (length l' <= length (l1 ++ (b, s) :: l2))%nat.
Proof using H Hn.
  destruct block_facts as (Hb & Hb8 & Hlim & Htop & Ha1 & Ha2 & Hl1 & Hbs & Hl2). unfold take_block. rewrite Hbs.
  assert (Hnone : forall c, b <= c < b + 8 * s -> A !! c = None).
  { intros c Hc. destruct (A !! c) as [t|] eqn:E; [|done]. destruct (o_alloc _ _ _ _ H _ _ E) as (_ & _ & _ & ? & _).
    destruct (o_apart _ _ _ _ H _ _ c E); [lia|]. apply covers_app. right. apply covers_cons. by left. }
  pose proof (fun x => block_unique base l1 b s l2 x (o_asc _ _ _ _ H)) as Huniq.
  destruct (decide (s = n)) as [Hsn|Hsn].
  - eexists b, _, (l1 ++ l2). split; [done|]. split; [|split_and!; [apply Hnone; lia|rewrite !units_app; cbn; lia|done|rewrite !length_app; cbn; lia]].
    apply (hand_out _ (l1 ++ l2)); cbn; try done; try lia.
    + apply unlink_links.
    + apply ascending_app. split; [done|]. eapply ascending_weaken; [|exact Ha2]. lia.
    + by exists l2.
    + intros x. specialize (Huniq x). rewrite !covers_app, covers_cons in *. rewrite <- Hsn. tauto.
  - cbn. rewrite upd_eq, uint32_id by (destruct (o_brk _ _ _ _ H); destruct (o_base _ _ _ _ H); lia).
    eexists (b + 8 * (s - n)), _, (l1 ++ (b, s - n) :: l2).
    split; [done|]. split; [|split_and!; [apply Hnone; lia|rewrite !units_app; cbn; lia|done|rewrite !length_app; cbn; lia]].
    apply (hand_out _ (l1 ++ (b, s - n) :: l2)); cbn; try done; try lia.
    + replace (b + 8 * (s - n)) with (b + (s - n) * 8) by lia. by rewrite Z.mod_add.
    + apply shrink_links; cbn; [done|rewrite upd_ne, upd_eq by lia; apply uint32_id; destruct (o_brk _ _ _ _ H); destruct (o_base _ _ _ _ H); lia|].
      intros a Ha. rewrite !upd_ne by lia. done.
    + apply ascending_app. cbn. split_and!; [done|done|done|lia|]. eapply ascending_weaken; [|exact Ha2]. lia.
    + rewrite upd_eq. apply uint32_id. destruct (o_brk _ _ _ _ H); destruct (o_base _ _ _ _ H); lia.
    + by exists ((b, s - n) :: l2).
    + intros x. specialize (Huniq x). rewrite !covers_app, !covers_cons in *. 
      assert (b <= x < b + 8 * (s - n) <-> b <= x < b + 8 * s /\ ~ (b + 8 * (s - n) <= x < b + 8 * (s - n) + 8 * n)) as -> by lia.
      assert (b + 8 * (s - n) <= x < b + 8 * (s - n) + 8 * n -> b <= x < b + 8 * s) by lia. tauto.
    + intros a Ha. rewrite !upd_ne by lia. done.
Qed.
End Take.

(** ** The search *)

Section Search.
Context (base : Z) (grow : Z -> Z -> bool) (grow_ok : forall b n, grow b n = true -> b + n <= 2 ^ 31).

(** Blocks that are too small are passed. *)
Lemma scan_skip h n c a z fuel : links h a c z -> (forall b s, (b, s) ∈ c -> s < n /\ b <> freep h) ->
  malloc_loop grow (length c + fuel) n a (h_ptr h a) h = malloc_loop grow fuel n (final a c) z h.
Proof.
  revert a. induction c as [|[b s] c IH]; intros a Hl Hc; cbn [length Nat.add final]; cbn in Hl; [by rewrite Hl|]. destruct Hl as (-> & Hs & Hl).
  destruct (Hc b s ltac:(by left)) as [Hlt Hne]. cbn [malloc_loop]. rewrite decide_False by lia. rewrite decide_False by done.
  apply IH; [done|]. intros b' s' Hin. apply Hc. by right.
Qed.

Lemma first_fit n (c : list (Z * Z)) : (forall b s, (b, s) ∈ c -> s < n) \/ exists c1 b s c2, c = c1 ++ (b, s) :: c2 /\ n <= s /\ forall b s, (b, s) ∈ c1 -> s < n.
Proof.
  induction c as [|[b s] c IH]; [left; by intros ?? ?%elem_of_nil|]. destruct (decide (n <= s)) as [Hle|Hgt].
  - right. exists [], b, s, c. split_and!; [done|done|by intros ?? ?%elem_of_nil].
  - destruct IH as [IH|(c1 & b' & s' & c2 & -> & Hs & Hc1)].
    + left. intros b' s' [[= -> ->]|Hin]%elem_of_cons; [lia|by eapply IH].
    + right. exists ((b, s) :: c1), b', s', c2. split_and!; [done|done|]. intros b0 s0 [[= -> ->]|Hin]%elem_of_cons; [lia|by eapply Hc1].
Qed.

(** The list read as a ring from [freep] on: [c], then [freep] itself. *)
Definition ring (h : heap) (l c : list (Z * Z)) (sf : Z) : Prop :=
  links h (freep h) (c ++ [(freep h, sf)]) (h_ptr h (freep h)) /\ (forall b s, (b, s) ∈ c -> b <> freep h) /\ length c = length l /\
  (forall b s, (b, s) ∈ c ++ [(freep h, sf)] <-> (b, s) ∈ l \/ b = base /\ s = 0).

Lemma ascending_nodup e l : ascending e l -> NoDup (fst <$> l).
Proof.
  revert e. induction l as [|[b s] l IH]; intros e Ha; cbn; [constructor|]. cbn in Ha. destruct Ha as (_ & _ & ? & Ha). constructor; [|by eapply IH].
  intros ([b' s'] & Hb & Hin)%list_elem_of_fmap. destruct (ascending_in _ _ _ _ Ha Hin). cbn in Hb. lia.
Qed.

Lemma ring_ok h l A : heap_ok base h l A -> exists c sf, ring h l c sf.
Proof.
  intros H. destruct (o_freep _ _ _ _ H) as (k1 & k2 & Hl & Hf). destruct (o_base _ _ _ _ H) as (_ & _ & Hbz).
  pose proof (o_links _ _ _ _ H) as Hlk. rewrite Hl in Hlk. apply links_app in Hlk as [Hl1 Hl2]. rewrite <- Hf in Hl2.
  assert (Hz : h_ptr h (freep h) = first k2 base) by (destruct k2 as [|[b s] k]; [exact Hl2|apply Hl2]).
  assert (Hring : links h (freep h) (k2 ++ (base, 0) :: k1) (h_ptr h (freep h))).
  { apply links_app. split; [exact Hl2|]. cbn. split_and!; [|done|by rewrite Hz].
    clear - Hl2. revert Hl2. generalize (freep h). induction k2 as [|[b s] k IH]; intros a; cbn; [done|]. intros (_ & _ & ?). by apply IH. }
  assert (Hperm : k2 ++ (base, 0) :: k1 ≡ₚ (base, 0) :: l) by (rewrite Hl; solve_Permutation).
  assert (Hnd : NoDup (fst <$> (base, 0) :: l)).
  { pose proof (o_asc _ _ _ _ H) as Ha. constructor; [|by eapply ascending_nodup]. intros ([b s] & Hb & Hin)%list_elem_of_fmap.
    destruct (ascending_in _ _ _ _ Ha Hin). cbn in Hb. lia. }
  assert (Hfin : final base (k2 ++ (base, 0) :: k1) = freep h) by (rewrite final_app; done).
  rewrite <- Hperm in Hnd. destruct (rev_case (k2 ++ (base, 0) :: k1)) as [Hn|(c & [p sf] & Hc)]; [by destruct k2|].
  rewrite Hc in *. rewrite final_app in Hfin. cbn in Hfin. subst p. exists c, sf. split_and!; [done| | |].
  - intros b s Hin ->. rewrite fmap_app in Hnd. apply NoDup_app in Hnd as (_ & Hd & _). apply (Hd (freep h)); [|by left].
    by apply (list_elem_of_fmap_2 fst _ (freep h, s)).
  - apply Permutation_length in Hperm. rewrite length_app in Hperm. cbn in Hperm. lia.
  - intros b s. rewrite Hperm, elem_of_cons. split; intros [Hx|Hx]; [by injection Hx as -> ->; right|by left|by right|]. destruct Hx as [-> ->]. by left.
Qed.

Definition node (l : list (Z * Z)) (a : Z) : Prop := exists k1 k2, l = k1 ++ k2 /\ a = final base k1.

Lemma in_node l b s : (b, s) ∈ l -> node l b.
Proof. intros (k1 & k2 & ->)%list_elem_of_split. exists (k1 ++ [(b, s)]), k2. split; [by rewrite <- app_assoc|by rewrite final_app]. Qed.

(** The block after a node of the list. *)
Lemma node_next h l A prev b : heap_ok base h l A -> node l prev -> h_ptr h prev = b -> b <> base ->
  exists l1 l2, l = l1 ++ (b, h_size h b) :: l2 /\ prev = final base l1.
Proof.
  intros H (k1 & k2 & -> & ->) Hp Hb. pose proof (o_links _ _ _ _ H) as Hl. apply links_app in Hl as [_ Hl].
  destruct k2 as [|[b' s'] k2]; cbn in Hl; [congruence|]. destruct Hl as (Hp' & Hs & _). exists k1, k2. split; [|done]. congruence.
Qed.

(** What [malloc] has done when it hands out a block of [n] units at [c]. *)
Definition handed (h : heap) (l : list (Z * Z)) (A : gmap Z Z) (n : Z) (r : Z * heap) : Prop :=
  exists c l', fst r = c + 8 /\ heap_ok base (snd r) l' (<[c := n]> A) /\ A !! c = None /\ units l' + n = units l /\ brk (snd r) = brk h /\ (length l' <= length l)%nat.

Lemma loop_fits h l A n fuel : heap_ok base h l A -> 1 <= n -> (exists b s, (b, s) ∈ l /\ n <= s) -> (length l < fuel)%nat ->
  exists r, malloc_loop grow fuel n (freep h) (h_ptr h (freep h)) h = Ret r /\ handed h l A n r.
Proof.
  intros H Hn (b0 & s0 & Hin0 & Hfit0) Hfuel. destruct (ring_ok h l A H) as (c & sf & Hlk & Hne & Hlen & Hmem).
  destruct (first_fit n (c ++ [(freep h, sf)])) as [Hall|(c1 & b & s & c2 & Hc & Hs & Hsmall)].
  { specialize (Hall b0 s0). rewrite Hmem in Hall. specialize (Hall ltac:(by left)). lia. }
  assert (Hc1 : forall b' s', (b', s') ∈ c1 -> (b', s') ∈ c).
  { intros b' s' Hin. symmetry in Hc. apply app_eq_app in Hc as (k & [[-> Hk]|[-> Hk]]).
    - destruct k as [|x k]; [by rewrite app_nil_r in Hin|]. exfalso. apply (f_equal length) in Hk. rewrite length_app in Hk. cbn in Hk. lia.
    - apply elem_of_app. by left. }
  assert (Hlc : (length c1 <= length l)%nat). { apply (f_equal length) in Hc. rewrite !length_app in Hc. cbn in Hc. lia. }
  assert (Hb : b <> base /\ h_size h b = s).
  { assert (Hin : (b, s) ∈ c ++ [(freep h, sf)]) by (rewrite Hc; apply elem_of_app; right; by left). apply Hmem in Hin as [Hin|[_ ->]]; [|lia].
    destruct (ascending_in _ _ _ _ (o_asc _ _ _ _ H) Hin). rewrite Hc in Hlk. apply links_app in Hlk as [_ (_ & ? & _)]. split; [lia|done]. }
  rewrite Hc in Hlk. apply links_app in Hlk as [Hl1 Hl2]. cbn in Hl1, Hl2.
  replace fuel with (length c1 + S (fuel - length c1 - 1))%nat by lia. rewrite (scan_skip h n c1 _ b) by naive_solver.
  cbn [malloc_loop]. rewrite decide_True by lia.
  destruct (node_next h l A (final (freep h) c1) b H) as (l1 & l2 & Hl & Hprev); [|apply Hl2|apply Hb|].
  - destruct (final_in (freep h) c1) as [[-> _]|(t & Ht)]; [apply (o_freep _ _ _ _ H)|]. apply Hc1 in Ht.
    assert (Ht' : (final (freep h) c1, t) ∈ c ++ [(freep h, sf)]) by (apply elem_of_app; by left).
    apply Hmem in Ht' as [Ht'|[Hx _]]; [by eapply in_node|rewrite Hx; by exists [], l].
  - destruct Hb as [_ Hb]. rewrite Hb in Hl. rewrite Hprev, Hl in *. destruct (take_block_ok base h l1 l2 b s n A H ltac:(lia)) as (c0 & h' & l' & -> & Hpost).
    eexists. split; [done|]. by exists c0, l'.
Qed.

Definition too_small (l : list (Z * Z)) (n : Z) : Prop := forall b s, (b, s) ∈ l -> s < n.

Lemma loop_grows h l A n fuel : heap_ok base h l A -> 1 <= n < 2 ^ 28 -> too_small l n -> (3 * length l + 4 <= fuel)%nat ->
  if grow (brk h) (8 * core_units n) then
    exists r h1 l1, malloc_loop grow fuel n (freep h) (h_ptr h (freep h)) h = Ret r /\ handed h1 l1 A n r /\
      brk h1 = brk h + 8 * core_units n /\ units l1 = units l + core_units n /\ (length l1 <= S (length l))%nat
  else malloc_loop grow fuel n (freep h) (h_ptr h (freep h)) h = Ret (0, h).
Proof using grow_ok.
  intros H Hn Hsmall Hfuel. destruct (ring_ok h l A H) as (c & sf & Hlk & Hne & Hlen & Hmem).
  assert (Hsm : forall b s, (b, s) ∈ c ++ [(freep h, sf)] -> s < n). { intros b s [Hin|[_ ->]]%Hmem; [by apply Hsmall in Hin|lia]. }
  apply links_app in Hlk as [Hl1 Hl2]. cbn in Hl1, Hl2.
  replace fuel with (length c + S (fuel - length c - 1))%nat by lia.
  rewrite (scan_skip h n c _ (freep h)); [|done|intros b s Hin; split; [apply (Hsm b); apply elem_of_app; by left|by eapply Hne]].
  cbn [malloc_loop]. assert (Hf : h_size h (freep h) < n). { destruct Hl2 as (_ & -> & _). apply (Hsm (freep h)). apply elem_of_app. right. by left. }
  rewrite decide_False by lia. rewrite decide_True by done.
  pose proof (morecore_ok base grow grow_ok h l A n (fuel - length c - 1) H ltac:(lia) ltac:(lia)) as Hm.
  destruct (grow _ _); [|by rewrite Hm]. destruct Hm as (h1 & l1 & -> & H1 & Hu & Hb & Hlen1 & Hfit). cbn [mbind outcome_bind].
  pose proof (freep_pos _ _ _ _ H1). rewrite decide_False by lia.
  destruct (loop_fits h1 l1 A n (fuel - length c - 1) H1) as (r & Hr & Hpost); [lia|done|lia|]. by exists r, h1, l1.
Qed.

(** ** More fuel changes nothing *)

Lemma find_place_mono f f' bp p h q : find_place f bp p h = Ret q -> (f <= f')%nat -> find_place f' bp p h = Ret q.
Proof.
  revert f' p. induction f as [|f IH]; intros f' p; [done|]. destruct f' as [|f']; [lia|]. cbn [find_place]. intros H Hle.
  destruct (decide _); [done|]. destruct (decide _); [done|]. apply IH; [done|lia].
Qed.

Lemma free_fuel_mono f f' ap h h' : free f ap h = Ret h' -> (f <= f')%nat -> free f' ap h = Ret h'.
Proof.
  unfold free. intros H Hle. destruct (find_place f _ _ _) as [p| | |] eqn:E; try done. by rewrite (find_place_mono _ _ _ _ _ _ E Hle).
Qed.

Lemma morecore_mono f f' n h r : morecore grow f n h = Ret r -> (f <= f')%nat -> morecore grow f' n h = Ret r.
Proof.
  unfold morecore. intros H Hle. destruct (grow _ _); [|done]. destruct (free f _ _) as [h'| | |] eqn:E; try done. by rewrite (free_fuel_mono _ _ _ _ _ E Hle).
Qed.

Lemma malloc_loop_mono f f' n prevp p h r : malloc_loop grow f n prevp p h = Ret r -> (f <= f')%nat -> malloc_loop grow f' n prevp p h = Ret r.
Proof.
  revert f' prevp p h. induction f as [|f IH]; intros f' prevp p h; [done|]. destruct f' as [|f']; [lia|]. cbn [malloc_loop]. intros H Hle.
  destruct (decide _); [done|]. destruct (decide _); [|apply IH; [done|lia]].
  destruct (morecore grow f n h) as [[q h1]| | |] eqn:E; try done. rewrite (morecore_mono f f' _ _ _ E) by lia. cbn [mbind outcome_bind] in *.
  destruct (decide _); [done|]. apply IH; [done|lia].
Qed.

(** ** Programs that use the allocator *)

(** A process before its first [malloc]. *)
Definition fresh (h : heap) : Prop := freep h = 0 /\ 0 < base /\ base mod 8 = 0 /\ base < brk h <= 2 ^ 31 /\ brk h mod 8 = 0.

(** The program writes into the block at [a] of [s] units it was given. *)
Definition written (a s : Z) (h h' : heap) : Prop :=
  freep h' = freep h /\ brk h' = brk h /\ forall x, ~ (a + 8 <= x < a + 8 * s) -> h_ptr h' x = h_ptr h x /\ h_size h' x = h_size h x.

(** The calls of a program that frees only what it was given and writes only
    inside its blocks; [A] are the blocks it holds. *)
Inductive run : heap -> gmap Z Z -> Prop :=
| run_start h : fresh h -> run h ∅
| run_malloc h A fuel n r h' : run h A -> 0 <= n < 2 ^ 31 - 16 -> malloc base grow fuel n h = Ret (r, h') ->
    run h' (if decide (r = 0) then A else <[r - 8 := nunits_of n]> A)
| run_free h A a s fuel h' : run h A -> A !! a = Some s -> free fuel (a + 8) h = Ret h' -> run h' (delete a A)
| run_write h A a s h' : run h A -> A !! a = Some s -> written a s h h' -> run h' A.

Lemma init_ok h : fresh h -> heap_ok base (malloc_init base h) [] ∅.
Proof.
  intros (Hf & Hb & Hb8 & Hlt & Hk8). unfold malloc_init. rewrite decide_True by done. constructor; cbn; rewrite ?upd_eq; try done.
  - by intros x ?%covers_nil.
  - by exists [], [].
Qed.

Lemma nunits_bound n : 0 <= n < 2 ^ 31 - 16 -> 1 <= nunits_of n < 2 ^ 28 /\ n <= 8 * (nunits_of n - 1) < n + 8.
Proof. intros Hn. unfold nunits_of. rewrite uint32_id by lia. Z.div_mod_to_equations. lia. Qed.

(** The outcome of [malloc(n)] in a heap with the blocks [A]. *)
Definition malloc_post (h : heap) (A : gmap Z Z) (n : Z) (r : Z * heap) : Prop :=
  fst r = 0 /\ grow (brk h) (8 * core_units (nunits_of n)) = false /\ (exists l', heap_ok base (snd r) l' A) \/
  fst r <> 0 /\ A !! (fst r - 8) = None /\ exists l', heap_ok base (snd r) l' (<[fst r - 8 := nunits_of n]> A).

Lemma malloc_init_ok h A : (fresh h /\ A = ∅) \/ (exists l, heap_ok base h l A) -> exists l, heap_ok base (malloc_init base h) l A.
Proof.
  intros [[Hf ->]|[l H]]; [exists []; by apply init_ok|]. exists l. unfold malloc_init. pose proof (freep_pos _ _ _ _ H). by rewrite decide_False by lia.
Qed.

Lemma handed_post h h1 l1 A n r : handed h1 l1 A (nunits_of n) r -> malloc_post h A n r.
Proof.
  intros (c & l' & Hc & H' & Hnone & _). right. replace (fst r - 8) with c by lia. split_and!; [|done|by exists l'].
  destruct (o_alloc _ _ _ _ H' c (nunits_of n)) as (_ & ? & _); [apply lookup_insert_eq|]. destruct (o_base _ _ _ _ H'). lia.
Qed.

Lemma malloc_ok h A n : (fresh h /\ A = ∅) \/ (exists l, heap_ok base h l A) -> 0 <= n < 2 ^ 31 - 16 ->
  exists f0 r, (forall fuel, (f0 <= fuel)%nat -> malloc base grow fuel n h = Ret r) /\ malloc_post h A n r.
Proof using grow_ok.
  intros Hh Hn. destruct (nunits_bound n Hn) as [Hnu _]. destruct (malloc_init_ok h A Hh) as [l H]. unfold malloc.
  assert (Hbrk : brk (malloc_init base h) = brk h) by (unfold malloc_init; by destruct (decide _)).
  exists (3 * length l + 4)%nat. destruct (first_fit (nunits_of n) l) as [Hsmall|(c1 & b & s & c2 & Hl & Hs & _)].
  - pose proof (loop_grows _ _ _ _ (3 * length l + 4) H Hnu Hsmall ltac:(lia)) as Hg. rewrite Hbrk in Hg. destruct (grow _ _) eqn:Eg.
    + destruct Hg as (r & h1 & l1 & Hr & Hpost & _). exists r. split; [|by eapply handed_post]. intros fuel Hle. by eapply malloc_loop_mono.
    + eexists. split; [intros fuel Hle; by eapply malloc_loop_mono|]. left. split_and!; [done|done|by exists l].
  - destruct (loop_fits _ _ _ (nunits_of n) (3 * length l + 4) H) as (r & Hr & Hpost); [lia|exists b, s; split; [rewrite Hl; apply elem_of_app; right; by left|done]|lia|].
    exists r. split; [|by eapply handed_post]. intros fuel Hle. by eapply malloc_loop_mono.
Qed.

Lemma written_ok h l A a s h' : heap_ok base h l A -> A !! a = Some s -> written a s h h' -> heap_ok base h' l A.
Proof.
  intros H Ha (Hf & Hb & Hsame). assert (Hbase : ~ (a + 8 <= base < a + 8 * s)) by (destruct (o_alloc _ _ _ _ H _ _ Ha); lia).
  assert (Hfree : forall b t, (b, t) ∈ l -> ~ (a + 8 <= b < a + 8 * s)).
  { intros b t Hin Hx. destruct (ascending_in _ _ _ _ (o_asc _ _ _ _ H) Hin) as (_ & _ & ? & _). apply (o_apart _ _ _ _ H _ _ b Ha); [lia|]. exists b, t. split; [done|lia]. }
  assert (Hal : forall b t, A !! b = Some t -> ~ (a + 8 <= b < a + 8 * s)).
  { intros b t Hbt Hx. destruct (o_alloc _ _ _ _ H _ _ Hbt) as (_ & _ & _ & ? & _). assert (a = b) by (apply (o_disj _ _ _ _ H a s b t b Ha Hbt); lia). lia. }
  destruct H. constructor; rewrite ?Hf, ?Hb; try done.
  - destruct (Hsame _ Hbase) as [_ ->]. done.
  - apply (links_ext h _ base); [done|by apply Hsame|]. intros b t Hin. apply Hsame. by eapply Hfree.
  - intros b t Hbt. destruct (Hsame b) as [_ ->]; [by eapply Hal|]. by apply o_alloc0.
Qed.

Lemma run_ok h A : run h A -> (fresh h /\ A = ∅) \/ (exists l, heap_ok base h l A).
Proof using grow_ok.
  induction 1 as [h Hf|h A fuel n r h' _ IH Hn Hm|h A a s fuel h' _ IH Ha Hfr|h A a s h' _ IH Ha Hw]; [by left|right..].
  - destruct (malloc_ok h A n IH Hn) as (f0 & [r0 h0] & Hret & Hpost). assert (E : malloc base grow (max f0 fuel) n h = Ret (r, h')) by (eapply malloc_loop_mono; [exact Hm|lia]).
    rewrite Hret in E by lia. injection E as -> ->. destruct Hpost as [(Hr & _ & Hok)|(Hr & _ & Hok)]; cbn in *; [by rewrite decide_True|by rewrite decide_False].
  - destruct IH as [[_ ->]|[l H]]; [done|]. destruct (free_ok _ _ _ _ a s (max fuel (2 * length l + 2)) H Ha ltac:(lia)) as (h1 & l' & Hret & Hok & _).
    rewrite (free_fuel_mono _ (max fuel (2 * length l + 2)) _ _ _ Hfr) in Hret by lia. injection Hret as <-. by exists l'.
  - destruct IH as [[_ ->]|[l H]]; [done|]. exists l. by eapply written_ok.
Qed.

(** The block [malloc] hands out is apart from every other one. *)
Lemma handed_apart h' l' A c n a s : heap_ok base h' l' (<[c := n]> A) -> A !! c = None -> A !! a = Some s -> c + 8 * n <= a \/ a + 8 * s <= c.
Proof.
  intros H Hnone Ha. assert (Hne : a <> c) by congruence. assert (Ha' : <[c := n]> A !! a = Some s) by (by rewrite lookup_insert_ne).
  assert (Hc' : <[c := n]> A !! c = Some n) by apply lookup_insert_eq.
  destruct (o_alloc _ _ _ _ H _ _ Ha') as (_ & _ & _ & ? & _). destruct (o_alloc _ _ _ _ H _ _ Hc') as (_ & _ & _ & ? & _).
  destruct (decide (c + 8 * n <= a)); [by left|]. destruct (decide (a + 8 * s <= c)); [by right|].
  destruct Hne. apply (o_disj _ _ _ _ H a s c n (Z.max a c) Ha' Hc'); lia.
Qed.


(** The first [malloc] of a process asks the kernel for 4096 units, 32768
    bytes, however small the request. *)
Theorem first_malloc_grows h n : fresh h -> 0 <= n <= 32760 -> grow (brk h) 32768 = true ->
  exists fuel r h', malloc base grow fuel n h = Ret (r, h') /\ r <> 0 /\ brk h' = brk h + 32768.
Proof using grow_ok.
  intros Hf Hn Hg. destruct (nunits_bound n ltac:(lia)) as [Hnu Hnb]. pose proof (init_ok h Hf) as H.
  assert (Hcu : core_units (nunits_of n) = 4096) by (unfold core_units; lia).
  assert (Hbrk : brk (malloc_init base h) = brk h) by (unfold malloc_init; by destruct (decide _)).
  pose proof (loop_grows _ [] _ (nunits_of n) 4 H Hnu) as Hl. rewrite Hcu, Hbrk in Hl. change (8 * 4096) with 32768 in Hl. rewrite Hg in Hl.
  destruct Hl as ([r h'] & h1 & l1 & Hr & (c & l' & Hc & H' & _ & _ & Hb & _) & Hb1 & _); [by intros ?? ?%elem_of_nil|done|]. cbn in *.
  exists 4%nat, r, h'. split_and!; [done| |congruence]. destruct (o_alloc _ _ _ _ H' c (nunits_of n)) as (_ & ? & _); [apply lookup_insert_eq|]. destruct (o_base _ _ _ _ H'). lia.
Qed.
End Search.

(** ** Instances *)

(** A process of one page whose static header is at 64; the kernel grants what
    fits below 2 GiB. *)
Definition demo_grow (b n : Z) : bool := bool_decide (0 <= b + n <= 2 ^ 31).
Definition demo_heap : heap := mkHeap (fun _ => 0) (fun _ => 0) 0 4096.
Definition demo_malloc (n : Z) (h : heap) : Z * heap := match malloc 64 demo_grow 20 n h with Ret r => r | _ => (0, h) end.


(** Freed neighbours are joined again: three blocks freed in any order leave
    one free block of the whole extent. *)
Example free_joins_neighbours :
  let '(a, h) := demo_malloc 16 demo_heap in let '(b, h) := demo_malloc 16 h in let '(c, h) := demo_malloc 16 h in
  (h ← free 20 a h; h ← free 20 c h; h ← free 20 b h; Ret (freep h, h_ptr h 64, h_size h 4096)) = Ret (4096, 4096, 4096).
Proof. by vm_compute. Qed.

(** [malloc(0xfffffff8)]: the size in bytes wraps around to 0, [sbrk(0)]
    succeeds, and the result points past the end of the process. *)
Example malloc_wraps : let '(r, h) := demo_malloc 4294967288 demo_heap in r = 4104 /\ brk h = 4096.
Proof. by vm_compute. Qed.

End Umalloc.
