(* ===== verification/Programs.v ===== *)
(** * Small user programs

    Models [echo.c], [kill.c], [ln.c], [rm.c], [mkdir.c], [zombie.c], [init.c],
    [ssu_trace.c], [memsizetest.c], [sdebug.c], [forktest.c] and [stressfs.c] of
    [src/xv6-public], their versions in [src/add system call] and
    [src/update scheduler], and [helloworld.c] and the [main] of [ssu_login.c] of
    [src/add shell program] as trees of system calls: a program makes a call and
    goes on with its result.  [fork] returns 0 in the child, which goes on with
    the same continuation.  [printf], [malloc] and [free] appear as calls;
    [Printf] and [Umalloc] model them.  The endless loop of [init] is a state
    machine. *)
From S2P Require Export Umalloc Strings Printf Login.

Module Programs.
Local Open Scope Z_scope.

Notation str := (list Z).

Inductive parg := PStr (s : str) | PInt (x : Z).

Inductive call :=
| COpen (path : string) (mode : Z)
| CMknod (path : string) (major minor : Z)
| CDup (fd : Z)
| CRead (fd n : Z)
| CWrite (fd : Z) (data : list Z)
| CClose (fd : Z)
| CFork
| CExec (path : str) (argv : list str)
| CWait
| CKill (pid : Z)
| CLink (old new : str)
| CUnlink (path : str)
| CMkdir (path : str)
| CSleep (n : Z)
| CTrace (mask : Z)
| CMemsize
| CUptime
| CGetpid
| CWeightset (w : Z)
| CMalloc (n : Z)
| CFree (p : Z)
| CPrintf (fd : Z) (fmt : string) (args : list parg).

(** A program exits, returns from [main] (there is nothing to return to: the
    return address is 0xffffffff), does something undefined, or makes a call. *)
Inductive prog :=
| Exit
| Return
| Stuck (why : string)
| Call (c : call) (k : Z -> prog).

(** Calls whose result is not used. *)
Definition Do (c : call) (k : prog) : prog := Call c (fun _ => k).

(** A format that ends in a newline. *)
Definition line (s : string) : string := String.append s (String (Ascii.ascii_of_nat 10) EmptyString).

(** [atoi] of an argument. *)
Definition arg_mem (a : str) : Z -> Z := fun x => if decide (x < 0) then 0 else default 0 (a !! Z.to_nat x).
Definition atoi_arg (a : str) (k : Z -> prog) : prog :=
  match Strings.atoi (S (length a)) 0 (arg_mem a) with
  | Ret n => k n
  | Panic s | Undef s | Hang s => Stuck s
  end.

(** ** One call per argument; [argv] is without the name of the program *)

Fixpoint echo (argv : list str) : prog :=
  match argv with
  | [] => Exit
  | [a] => Do (CPrintf 1 "%s%s" [PStr a; PStr [10]]) Exit
  | a :: argv => Do (CPrintf 1 "%s%s" [PStr a; PStr [32]]) (echo argv)
  end.

Fixpoint kill_loop (argv : list str) : prog :=
  match argv with
  | [] => Exit
  | a :: argv => atoi_arg a (fun n => Do (CKill n) (kill_loop argv))
  end.
Definition kill (argv : list str) : prog :=
  match argv with
  | [] => Do (CPrintf 2 (line "usage: kill pid...") []) Exit
  | _ => kill_loop argv
  end.

Definition ln (argv : list str) : prog :=
  match argv with
  | [old; new] => Call (CLink old new) (fun r =>
      if decide (r < 0) then Do (CPrintf 2 (line "link %s %s: failed") [PStr old; PStr new]) Exit else Exit)
  | _ => Do (CPrintf 2 (line "Usage: ln old new") []) Exit
  end.

Fixpoint rm_loop (argv : list str) : prog :=
  match argv with
  | [] => Exit
  | a :: argv => Call (CUnlink a) (fun r =>
      if decide (r < 0) then Do (CPrintf 2 (line "rm: %s failed to delete") [PStr a]) Exit else rm_loop argv)
  end.
Definition rm (argv : list str) : prog :=
  match argv with
  | [] => Do (CPrintf 2 (line "Usage: rm files...") []) Exit
  | _ => rm_loop argv
  end.

Fixpoint mkdir_loop (argv : list str) : prog :=
  match argv with
  | [] => Exit
  | a :: argv => Call (CMkdir a) (fun r =>
      if decide (r < 0) then Do (CPrintf 2 (line "mkdir: %s failed to create") [PStr a]) Exit else mkdir_loop argv)
  end.
Definition mkdir (argv : list str) : prog :=
  match argv with
  | [] => Do (CPrintf 2 (line "Usage: mkdir files...") []) Exit
  | _ => mkdir_loop argv
  end.

Definition helloworld : prog := Do (CPrintf 1 (line "Hello World xv6") []) Exit.

Definition zombie : prog := Call CFork (fun r => if decide (0 < r) then Do (CSleep 5) Exit else Exit).

(** ** The programs of the exercises *)

(** The child returns from [main] when [exec] does. *)
Definition ssu_trace (argv : list str) : prog :=
  match argv with
  | m :: cmd :: args =>
      atoi_arg m (fun mask =>
        if decide (mask <= 1) then Do (CPrintf 1 (line "ERROR: mask must be larger than 1") []) Exit
        else
          Do (CTrace mask) (Call CFork (fun pid =>
            if decide (pid < 0) then Do (CPrintf 1 (line "ERROR: fork failed") []) Exit
            else if decide (pid = 0) then Do (CExec cmd (cmd :: args)) Return
            else Do CWait Exit)))
  | _ => Do (CPrintf 1 (line "ERROR: few argument") []) Exit
  end.

(** The version of [add system call], in which the child asks to be traced. *)
Definition ssu_trace_child (argv : list str) : prog :=
  match argv with
  | m :: cmd :: args =>
      atoi_arg m (fun mask =>
        if decide (mask <= 1) then Do (CPrintf 1 (line "ERROR: mask must be larger than 1") []) Exit
        else
          Call CFork (fun pid =>
            if decide (pid < 0) then Do (CPrintf 1 (line "ERROR: fork failed") []) Exit
            else if decide (pid = 0) then Do (CTrace mask) (Do (CExec cmd (cmd :: args)) Return)
            else Do CWait Exit))
  | _ => Do (CPrintf 1 (line "ERROR: few argument") []) Exit
  end.

Definition memsizetest : prog :=
  Call CMemsize (fun msize =>
  Do (CPrintf 1 (line "The process is using %dB") [PInt msize]) (
  Call (CMalloc 2048) (fun tmp =>
  Do (CPrintf 1 (line "Allocating more memory") []) (
  Call CMemsize (fun msize =>
  Do (CPrintf 1 (line "The process is using %dB") [PInt msize]) (
  Do (CFree tmp) (
  Do (CPrintf 1 (line "Freeing memory") []) (
  Call CMemsize (fun msize =>
  Do (CPrintf 1 (line "The process is using %dB") [PInt msize]) Exit))))))))).

Definition PNUM : Z := 5.
Definition PRINT_CYCLE : Z := 10000000.
Definition TOTAL_COUNT : nat := Z.to_nat 500000000.

(** The lines a child prints, once. *)
Definition report (start : Z) (k : prog) : prog :=
  Call CUptime (fun end_ =>
  Call CGetpid (fun pid => Do (CPrintf 1 "PID: %d, " [PInt pid]) (
  Call CGetpid (fun pid => Do (CPrintf 1 "WEIGHT: %d, " [PInt pid]) (
  Do (CPrintf 1 (line "TIMES: %d ms") [PInt ((end_ - start) * 10)]) k))))).

(** The loop of a child of [xv6-public/sdebug.c], [rounds] of which are left. *)
Fixpoint child_loop (rounds : nat) (start : Z) (first : bool) (print_counter : Z) (k : prog) : prog :=
  match rounds with
  | O => k
  | S rounds =>
      if decide (print_counter = 0) then
        if first then report start (child_loop rounds start false PRINT_CYCLE k)
        else child_loop rounds start first PRINT_CYCLE k
      else child_loop rounds start first (print_counter - 1) k
  end.
Definition child : prog :=
  Call CUptime (fun start => child_loop TOTAL_COUNT start true PRINT_CYCLE (Do (CPrintf 1 (line "PID %d terminated.") []) Exit)).

(** The loop of a child of [update scheduler/sdebug.c]. *)
Definition report2 (ppid w start : Z) (k : prog) : prog :=
  Call CUptime (fun end_ =>
  Do (CPrintf 1 "PID: %d, " [PInt ppid]) (
  Do (CPrintf 1 "WEIGHT: %d, " [PInt w]) (
  Do (CPrintf 1 (line "TIMES: %d ms") [PInt ((end_ - start) * 10)]) k))).
Fixpoint child_loop2 (rounds : nat) (counter ppid w start : Z) (first : bool) (k : prog) : prog :=
  match rounds with
  | O => k
  | S rounds =>
      if decide (counter = PRINT_CYCLE /\ first = true) then report2 ppid w start (child_loop2 rounds (counter + 1) ppid w start false k)
      else child_loop2 rounds (counter + 1) ppid w start first k
  end.
Definition child2 (n : Z) : prog :=
  Call CUptime (fun start =>
  Call CGetpid (fun ppid =>
  Call (CWeightset (n + 1)) (fun w =>
    if decide (w < 0) then Do (CPrintf 1 (line "ERROR: weight cannot be 0") []) Exit
    else child_loop2 TOTAL_COUNT 0 ppid w start true (Do (CPrintf 1 (line "PID %d terminated.") [PInt ppid]) Exit)))).

(** [main]; the wait for [n] children and the check that there are no more. *)
Fixpoint wait_loop (n : nat) : prog :=
  match n with
  | O => Call CWait (fun r =>
      if decide (r <> -1) then Do (CPrintf 1 (line "wait got too many") []) Exit
      else Do (CPrintf 1 (line "end of sdebug command.") []) Exit)
  | S n => Call CWait (fun r =>
      if decide (r < 0) then Do (CPrintf 1 (line "wait stopped early") []) Exit else wait_loop n)
  end.
Fixpoint fork_loop (left_ : nat) (n : Z) (body : Z -> prog) : prog :=
  match left_ with
  | O => wait_loop (Z.to_nat n)
  | S left_ => Call CFork (fun pid =>
      if decide (pid < 0) then wait_loop (Z.to_nat n)
      else if decide (pid = 0) then body n
      else fork_loop left_ (n + 1) body)
  end.
Definition sdebug : prog := Do (CPrintf 1 (line "start sdebug command.") []) (fork_loop (Z.to_nat PNUM) 0 (fun _ => child)).
Definition sdebug2 : prog := Do (CPrintf 1 (line "start sdebug command.") []) (fork_loop (Z.to_nat PNUM) 0 child2).

(** ** Load tests *)

(** [forktest]: its [printf] writes the format as it is. *)
Definition puts (s : string) : call := CWrite 1 (Z.of_nat ∘ Ascii.nat_of_ascii <$> String.list_ascii_of_string (line s)).
Fixpoint reap_loop (n : nat) : prog :=
  match n with
  | O => Call CWait (fun r => if decide (r <> -1) then Do (puts "wait got too many") Exit else Do (puts "fork test OK") Exit)
  | S n => Call CWait (fun r => if decide (r < 0) then Do (puts "wait stopped early") Exit else reap_loop n)
  end.
Fixpoint forktest_loop (left_ : nat) (n : nat) : prog :=
  match left_ with
  | O => Do (puts "fork claimed to work N times!") Exit
  | S left_ => Call CFork (fun pid =>
      if decide (pid < 0) then reap_loop n
      else if decide (pid = 0) then Exit
      else forktest_loop left_ (S n))
  end.
Definition forktest : prog := Do (puts "fork test") (forktest_loop 1000 0).

Fixpoint repeat_call (n : nat) (c : call) (k : prog) : prog :=
  match n with O => k | S n => Do c (repeat_call n c k) end.
Definition stress_path (i : nat) : string := String.append "stressfs" (String (Ascii.ascii_of_nat (48 + i)) EmptyString).
(** After the forks, with [i] in [path]; [O_CREATE | O_RDWR] is 0x202. *)
Definition stress_body (i : nat) : prog :=
  Do (CPrintf 1 (line "write %d") [PInt (Z.of_nat i)]) (
  Call (COpen (stress_path i) 514) (fun fd =>
  repeat_call 20 (CWrite fd (replicate 512 97)) (
  Do (CClose fd) (
  Do (CPrintf 1 (line "read") []) (
  Call (COpen (stress_path i) 0) (fun fd =>
  repeat_call 20 (CRead fd 512) (
  Do (CClose fd) (Do CWait Exit)))))))).
Fixpoint stress_loop (left_ i : nat) : prog :=
  match left_ with
  | O => stress_body i
  | S left_ => Call CFork (fun pid => if decide (0 < pid) then stress_body i else stress_loop left_ (S i))
  end.
Definition stressfs : prog := Do (CPrintf 1 (line "stressfs starting") []) (stress_loop 4 0).

(** ** [init] *)

(** Where [init] is in its endless loop; [path] is the program it starts. *)
Inductive ist :=
| IOpen | IMknod | IOpen2 | IDup1 | IDup2
| IBanner | IFork | IForkFailed | IExec | IExecFailed
| IWait (pid : Z) | IZombie (pid : Z)
| IExit.

Definition init_call (banner : string) (path : str) (argv : list str) (i : ist) : option call :=
  match i with
  | IOpen | IOpen2 => Some (COpen "console" 2)
  | IMknod => Some (CMknod "console" 1 1)
  | IDup1 | IDup2 => Some (CDup 0)
  | IBanner => Some (CPrintf 1 (line banner) [])
  | IFork => Some CFork
  | IForkFailed => Some (CPrintf 1 (line "init: fork failed") [])
  | IExec => Some (CExec path argv)
  | IExecFailed => Some (CPrintf 1 (line "init: exec sh failed") [])
  | IWait _ => Some CWait
  | IZombie _ => Some (CPrintf 1 (line "zombie!") [])
  | IExit => None
  end.
(** [exec] returns only when it fails. *)
Definition init_next (i : ist) (r : Z) : ist :=
  match i with
  | IOpen => if decide (r < 0) then IMknod else IDup1
  | IMknod => IOpen2
  | IOpen2 => IDup1
  | IDup1 => IDup2
  | IDup2 => IBanner
  | IBanner => IFork
  | IFork => if decide (r < 0) then IForkFailed else if decide (r = 0) then IExec else IWait r
  | IForkFailed => IExit
  | IExec => IExecFailed
  | IExecFailed => IExit
  | IWait pid => if decide (0 <= r /\ r <> pid) then IZombie pid else IBanner
  | IZombie pid => IWait pid
  | IExit => IExit
  end.

(** [main] of [ssu_login.c]: [None] when the list of users cannot be read, [Return]
    when the login is refused; after a login the loop of [init] starts shells
    with the arguments of [ssu_login] and does not end. *)
Inductive login_next := Refused (e : prog) | Shells (i : ist).
Definition login_main {W} (read : nat -> W -> option (list Z) * W) (stack inp : list Z) (w : W) : outcome (login_next * W) :=
  '(u, w) ← Login.get_user_list read stack w;
  match u with
  | None => Ret (Refused Exit, w)
  | Some u =>
      '(ok, _) ← Login.check_idpw u inp;
      Ret (if ok : bool then Shells IBanner else Refused Return, w)
  end.

(** ** Running *)

Section Run.
Context {W : Type} (answer : call -> W -> Z * W).

(** The calls a program makes with their results, and how it ends. *)
Fixpoint run (p : prog) (w : W) : list (call * Z) * prog :=
  match p with
  | Call c k => let '(r, w) := answer c w in let '(l, e) := run (k r) w in ((c, r) :: l, e)
  | e => ([], e)
  end.

(** What [echo] writes. *)
Definition echoed (c : call) : list Z :=
  match c with CPrintf _ _ [PStr a; PStr b] => a ++ b | _ => [] end.
Fixpoint joined (argv : list str) : list Z :=
  match argv with [] => [] | [a] => a ++ [10] | a :: argv => a ++ [32] ++ joined argv end.

(** [echo] prints its arguments with blanks between them and a newline. *)
Theorem echo_spec argv w : exists l, run (echo argv) w = (l, Exit) /\ concat (echoed ∘ fst <$> l) = joined argv.
Proof.
  revert w. induction argv as [|a [|b argv] IH]; intros w; [by exists []|..]; cbn [echo Do run]; destruct (answer _ w) as [r w'].
  - eexists. split; [done|]. cbn. by rewrite app_nil_r.
  - destruct (IH w') as (l & Hl & Hj). cbn [echo] in Hl. rewrite Hl. eexists. split; [done|]. cbn [fmap list_fmap concat compose fst echoed].
    rewrite Hj. by rewrite <- app_assoc.
Qed.

(** [rm] removes its arguments in order and stops at the first one that cannot be
    removed. *)
Theorem rm_spec argv w : argv <> [] -> exists done_ rest l,
  argv = done_ ++ rest /\ run (rm argv) w = (l, Exit) /\
  (exists rs, Forall (fun r => 0 <= r) rs /\ length rs = length done_ /\
    ((rest = [] /\ l = zip (CUnlink <$> done_) rs) \/
     exists a rest' r r', rest = a :: rest' /\ r < 0 /\
       l = zip (CUnlink <$> done_) rs ++ [(CUnlink a, r); (CPrintf 2 (line "rm: %s failed to delete") [PStr a], r')])).
Proof.
  intros Hne. assert (rm argv = rm_loop argv) as -> by (by destruct argv). clear Hne.
  revert w. induction argv as [|a argv IH]; intros w; cbn [rm_loop run].
  - exists [], [], []. split; [done|split; [done|]]. exists []. split; [done|split; [done|]]. by left.
  - destruct (answer (CUnlink a) w) as [r w1] eqn:Ea. destruct (decide (r < 0)) as [Hr|Hr].
    + cbn [Do run]. destruct (answer _ w1) as [r' w2]. eexists [], (a :: argv), _. split; [done|split; [done|]]. exists [].
      split; [done|split; [done|]]. right. exists a, argv, r, r'. done.
    + destruct (IH w1) as (d & rest & l & -> & Hl & rs & Hrs & Hlen & Hc). rewrite Hl. eexists (a :: d), rest, _. split; [done|split; [done|]].
      exists (r :: rs). split; [constructor; [lia|done]|]. split; [cbn; lia|]. cbn [fmap list_fmap zip zip_with].
      destruct Hc as [[-> ->]|(x & rest' & q & q' & -> & Hq & ->)]; [by left|right]. exists x, rest', q, q'. done.
Qed.
End Run.

(** ** The reports of [sdebug] *)

Lemma child_loop_silent rounds start c k : child_loop rounds start false c k = k.
Proof. revert c. induction rounds as [|n IH]; intros c; cbn [child_loop]; [done|]. case_decide; apply IH. Qed.

Lemma child_loop_once rounds start c k : 0 <= c ->
  child_loop rounds start true c k = if decide (c < Z.of_nat rounds) then report start k else k.
Proof.
  revert c. induction rounds as [|n IH]; intros c Hc; cbn [child_loop]; [by rewrite decide_False by lia|].
  destruct (decide (c = 0)) as [->|Hne]; [rewrite child_loop_silent, decide_True by lia; done|].
  rewrite IH by lia. destruct (decide (c - 1 < Z.of_nat n)); [by rewrite decide_True by lia|by rewrite decide_False by lia].
Qed.

(** A child of [sdebug] reports exactly once, however often the counter passes
    [PRINT_CYCLE]. *)
Theorem child_reports_once start k : child_loop TOTAL_COUNT start true PRINT_CYCLE k = report start k.
Proof.
  rewrite child_loop_once by done. apply decide_True. unfold TOTAL_COUNT. rewrite Z2Nat.id; [done|lia].
Qed.

Lemma child_loop2_silent rounds c ppid w start k : child_loop2 rounds c ppid w start false k = k.
Proof. revert c. induction rounds as [|n IH]; intros c; cbn [child_loop2]; [done|]. rewrite decide_False by naive_solver. apply IH. Qed.

Lemma child_loop2_once rounds c ppid w start k : c <= PRINT_CYCLE ->
  child_loop2 rounds c ppid w start true k = if decide (PRINT_CYCLE < c + Z.of_nat rounds) then report2 ppid w start k else k.
Proof.
  revert c. induction rounds as [|n IH]; intros c Hc; cbn [child_loop2]; [by rewrite decide_False by lia|].
  destruct (decide (c = PRINT_CYCLE /\ true = true)) as [[-> _]|Hne]; [rewrite child_loop2_silent, decide_True by lia; done|].
  assert (c <> PRINT_CYCLE) by tauto. rewrite IH by lia.
  destruct (decide (PRINT_CYCLE < c + 1 + Z.of_nat n)); [by rewrite decide_True by lia|by rewrite decide_False by lia].
Qed.

Theorem child2_reports_once ppid w start k : child_loop2 TOTAL_COUNT 0 ppid w start true k = report2 ppid w start k.
Proof.
  rewrite child_loop2_once by done. apply decide_True. unfold TOTAL_COUNT. rewrite Z2Nat.id; [done|lia].
Qed.

(** What a process does after calls with these results. *)
Fixpoint follow (p : prog) (rs : list Z) : prog :=
  match rs, p with
  | r :: rs, Call _ k => follow (k r) rs
  | _, _ => p
  end.

(** The [i]-th child of the scheduler's [sdebug], counted from 0, asks for weight
    [i + 1]. *)
Theorem sdebug_weights pids : Forall (fun p => 0 < p) pids -> (length pids < 5)%nat ->
  forall t0 r0 pid, exists k, follow sdebug2 (r0 :: pids ++ [0; t0; pid]) = Call (CWeightset (Z.of_nat (length pids) + 1)) k.
Proof.
  intros Hp Hl t0 r0 pid. unfold sdebug2, Do. cbn [follow]. change (Z.to_nat PNUM) with 5%nat.
  assert (forall left_ n, (length pids < left_)%nat -> follow (fork_loop left_ n child2) (pids ++ [0; t0; pid]) = follow (child2 (n + Z.of_nat (length pids))) [t0; pid]) as H.
  { clear Hl. induction Hp as [|p pids Hp0 _ IH]; intros left_ n Hl; (destruct left_ as [|left_]; [cbn in Hl; lia|]); cbn [fork_loop app follow].
    - rewrite Z.add_0_r. done.
    - rewrite decide_False, decide_False by lia. rewrite IH by (cbn in Hl; lia). f_equal. f_equal. cbn [length]. lia. }
  rewrite (H 5%nat 0 Hl). rewrite Z.add_0_l. cbn [child2 follow]. by eexists.
Qed.

(** The child of [ssu_trace] runs the command with the arguments after the mask;
    when [exec] fails it returns from [main], which has no caller. *)
Theorem ssu_trace_child_returns m cmd args mask : Strings.atoi (S (length m)) 0 (arg_mem m) = Ret mask -> 1 < mask ->
  (exists k, follow (ssu_trace (m :: cmd :: args)) [0; 0] = Call (CExec cmd (cmd :: args)) k /\ k (-1) = Return) /\
  (exists k, follow (ssu_trace_child (m :: cmd :: args)) [0; 0] = Call (CExec cmd (cmd :: args)) k /\ k (-1) = Return).
Proof.
  intros Hm Hlt. unfold ssu_trace, ssu_trace_child, atoi_arg. rewrite Hm, decide_False by lia. unfold Do. split; cbn; [|rewrite decide_False by lia; cbn]; eexists; (split; [reflexivity|reflexivity]).
Qed.

(** [forktest] ends with OK when [fork] fails after fewer than 1000 children and
    [wait] then returns every one of them, and no more. *)
Theorem forktest_ok pids waits r0 : Forall (fun p => 0 < p) pids -> (length pids < 1000)%nat ->
  Forall (fun p => 0 <= p) waits -> length waits = length pids ->
  follow forktest (r0 :: pids ++ [-1] ++ waits ++ [-1]) = Do (puts "fork test OK") Exit.
Proof.
  intros Hp Hl Hw Hlen. unfold forktest, Do. cbn [follow].
  assert (Hreap : forall k, k = length waits -> follow (reap_loop k) (waits ++ [-1]) = Do (puts "fork test OK") Exit).
  { clear Hlen. induction Hw as [|q waits Hq _ IH]; intros k ->; cbn [length reap_loop app follow]; [by rewrite decide_False by tauto|].
    rewrite decide_False by lia. by apply IH. }
  assert (H : forall left_ n, (length pids < left_)%nat ->
    follow (forktest_loop left_ n) (pids ++ [-1] ++ waits ++ [-1]) = follow (reap_loop (n + length pids)) (waits ++ [-1])).
  { clear Hl Hlen Hreap. induction Hp as [|p pids Hp0 _ IH]; intros left_ n Hl; (destruct left_ as [|left_]; [cbn in Hl; lia|]).
    - cbn [forktest_loop app follow length]. rewrite decide_True by lia. by rewrite Nat.add_0_r.
    - cbn [forktest_loop app follow length]. rewrite decide_False, decide_False by lia. cbn in Hl. rewrite IH by lia. f_equal. f_equal. lia. }
  rewrite (H 1000%nat 0%nat Hl). by apply Hreap.
Qed.

Lemma stress_forks k left_ i rs : follow (stress_loop (k + left_) i) (replicate k 0 ++ rs) = follow (stress_loop left_ (k + i)) rs.
Proof. revert i. induction k as [|k IH]; intros i; [done|]. cbn [Nat.add replicate app stress_loop follow]. rewrite decide_False, IH by lia. do 2 f_equal. lia. Qed.

(** The five processes of [stressfs] write five files of their own. *)
Theorem stressfs_paths i r0 r1 pid : (i <= 4)%nat -> 0 < pid ->
  exists k, follow stressfs (r0 :: replicate i 0 ++ (if decide (i = 4%nat) then [] else [pid]) ++ [r1]) = Call (COpen (stress_path i) 514) k.
Proof.
  intros Hi Hp. unfold stressfs, Do. cbn [follow]. pose proof (stress_forks i (4 - i) 0) as E. replace (i + (4 - i))%nat with 4%nat in E by lia.
  rewrite E, Nat.add_0_r.
  destruct (decide (i = 4%nat)) as [->|Hne]; [by eexists|]. replace (4 - i)%nat with (S (3 - i)) by lia.
  cbn [stress_loop app follow]. rewrite decide_True by lia. by eexists.
Qed.

(** ** [memsizetest] on the allocator *)

(** The sizes printed. *)
Definition size_line (c : call) : option Z := match c with CPrintf _ _ [PInt x] => Some x | _ => None end.

Section Memsize.
Context (base : Z) (grow : Z -> Z -> bool) (grow_ok : forall b n, grow b n = true -> b + n <= 2 ^ 31).
Context (answer : call -> Umalloc.heap -> Z * Umalloc.heap).
(** [memsize] is the size of the process; [malloc] and [free] are those of
    [umalloc.c]; [printf] leaves the heap alone. *)
Hypothesis memsize_is : forall h, answer CMemsize h = (Umalloc.brk h, h).
Hypothesis malloc_is : forall fuel n h r, Umalloc.malloc base grow fuel n h = Ret r -> answer (CMalloc n) h = r.
Hypothesis free_is : forall fuel p h h', Umalloc.free fuel p h = Ret h' -> snd (answer (CFree p) h) = h'.
Hypothesis printf_is : forall fd fmt args h, snd (answer (CPrintf fd fmt args) h) = h.

Lemma run_do c k h : run answer (Do c k) h =
  ((c, fst (answer c h)) :: fst (run answer k (snd (answer c h))), snd (run answer k (snd (answer c h)))).
Proof. unfold Do. cbn [run]. destruct (answer c h) as [r h']. cbn. by destruct (run answer k h'). Qed.

(** The first allocation adds 32768 bytes to the process, whatever was asked
    for, and freeing it gives nothing back. *)
Theorem memsizetest_prints h : Umalloc.fresh base h -> grow (Umalloc.brk h) 32768 = true ->
  omap (size_line ∘ fst) (fst (run answer memsizetest h)) = [Umalloc.brk h; Umalloc.brk h + 32768; Umalloc.brk h + 32768] /\
  snd (run answer memsizetest h) = Exit.
Proof using All.
  intros Hf Hg. destruct (Umalloc.first_malloc_grows base grow grow_ok h 2048 Hf ltac:(lia) Hg) as (f1 & p & h1 & Hm & Hp & Hb1).
  assert (Hr : Umalloc.run base grow h1 (<[p - 8 := Umalloc.nunits_of 2048]> ∅)).
  { pose proof (Umalloc.run_malloc base grow h ∅ f1 2048 p h1 (Umalloc.run_start _ _ h Hf) ltac:(lia) Hm) as H. by rewrite decide_False in H. }
  destruct (Umalloc.run_ok base grow grow_ok _ _ Hr) as [[_ H]|[l H]]; [by apply insert_non_empty in H|].
  destruct (Umalloc.free_ok _ _ _ _ (p - 8) (Umalloc.nunits_of 2048) (2 * length l + 2) H) as (h2 & l' & Hfr & _ & _ & Hb2 & _); [apply lookup_insert_eq|lia|].
  replace (p - 8 + 8) with p in Hfr by lia.
  unfold memsizetest. do 4 (cbn [run]; rewrite ?memsize_is, ?(malloc_is _ _ _ _ Hm); cbv beta iota; repeat (rewrite run_do, ?printf_is, ?(free_is _ _ _ _ Hfr); cbn [fst snd])).
  cbn. rewrite Hb2, Hb1. done.
Qed.
End Memsize.

(** ** [init] and its shells *)

(** [init] with its shells and all its children.  [fork] gives a pid no child
    has; [wait] gives a child that has exited, or -1 when there is none; orphans
    are handed to [init] at any time ([exit] of their parent). *)
Record iworld := mkIworld { i_at : ist; shells : gset Z; children : gset Z }.

Definition is_fork_wait (i : ist) : bool := match i with IFork | IWait _ => true | _ => false end.

Inductive init_step : iworld -> iworld -> Prop :=
| init_fork sh ch pid : 0 < pid -> pid ∉ ch -> init_step (mkIworld IFork sh ch) (mkIworld (init_next IFork pid) ({[pid]} ∪ sh) ({[pid]} ∪ ch))
| init_no_fork sh ch : init_step (mkIworld IFork sh ch) (mkIworld (init_next IFork (-1)) sh ch)
| init_wait p sh ch pid : 0 < pid -> pid ∈ ch ->
    init_step (mkIworld (IWait p) sh ch) (mkIworld (init_next (IWait p) pid) (sh ∖ {[pid]}) (ch ∖ {[pid]}))
| init_no_wait p sh ch : ch = ∅ -> init_step (mkIworld (IWait p) sh ch) (mkIworld (init_next (IWait p) (-1)) sh ch)
| init_other i sh ch r : is_fork_wait i = false -> i <> IExec -> init_step (mkIworld i sh ch) (mkIworld (init_next i r) sh ch)
| init_orphan i sh ch pid : 0 < pid -> pid ∉ ch -> init_step (mkIworld i sh ch) (mkIworld i sh ({[pid]} ∪ ch)).

Inductive init_reach : iworld -> Prop :=
| init_reach_start : init_reach (mkIworld IOpen ∅ ∅)
| init_reach_step w w' : init_reach w -> init_step w w' -> init_reach w'.

(** [init] waits for the one shell it started, and has none elsewhere. *)
Definition one_shell (w : iworld) : Prop :=
  match i_at w with
  | IWait p | IZombie p => shells w = {[p]} /\ p ∈ children w
  | IExec | IExecFailed => False
  | _ => shells w = ∅
  end.

(** [init] starts a shell only when no other one it started is running, and goes
    on to the next only when [wait] has returned this one: at any time at most
    one of its shells is running. *)
Theorem init_one_shell w : init_reach w -> one_shell w.
Proof.
  induction 1 as [|w w' _ IH Hs]; [done|].
  destruct Hs as [sh ch pid Hp Hc|sh ch|p sh ch pid Hp Hc|p sh ch Hc|i sh ch r Hi Hne|i sh ch pid Hp Hc]; unfold one_shell in *; cbn in *.
  - rewrite decide_False, decide_False by lia. cbn. set_solver.
  - rewrite decide_True by lia. done.
  - destruct IH as [-> Hin]. destruct (decide (0 <= pid /\ pid <> p)) as [[_ Hd]|Hd]; cbn; [split; set_solver|].
    assert (pid = p) as -> by lia. set_solver.
  - destruct IH as [_ Hin]. set_solver.
  - destruct i; cbn in *; try done. by case_decide.
  - destruct i; cbn in *; try done; destruct IH as [-> Hin]; set_solver.
Qed.
End Programs.
