(* ===== verification/ShDefs.v ===== *)
(** * The shell: definitions

    Models [src/xv6-public/sh.c]: the lexer, the recursive-descent parser and
    [nulterminate], which work with positions in the line buffer, and the
    execution of the parsed command as a tree of system calls.  A character is
    an integer; [t] is the line up to its NUL, so that [es] is [length t].
    [malloc] is taken to succeed: the constructors [execcmd] ... [backcmd] are
    those of the type [cmd]. *)
From S2P Require Export Prelude.

Module Sh.

(** ** The lexer *)

Definition whitespace : list Z := [32; 9; 13; 10; 11]%Z.
Definition symbols : list Z := [60; 124; 62; 38; 59; 40; 41]%Z.
(** [strchr] of the library as a test: no string contains the NUL. *)
Definition strchr (l : list Z) (c : Z) : bool := bool_decide (c ∈ l).
Definition word_char (c : Z) : bool := negb (strchr whitespace c) && negb (strchr symbols c).

Definition O_RDONLY : Z := 0.
Definition O_WRONLY_CREATE : Z := 513.
Definition MAXARGS : nat := 10.

(** A string of the parsed command: the positions of its first character and
    after its last one. *)
Definition span : Type := nat * nat.

(** A redirection as [redircmd] stores it: [file], [mode] and [fd]. *)
Record redir (A : Type) := mkRedir { r_file : A; r_mode : Z; r_fd : nat }.
Arguments mkRedir {A}.
Arguments r_file {A}.
Arguments r_mode {A}.
Arguments r_fd {A}.

(** [struct cmd] with its variants; a string is an [A]. *)
Inductive cmd (A : Type) :=
| EXEC (argv : list A)
| REDIR (c : cmd A) (r : redir A)
| PIPE (left right : cmd A)
| LIST (left right : cmd A)
| BACK (c : cmd A).
Arguments EXEC {A}.
Arguments REDIR {A}.
Arguments PIPE {A}.
Arguments LIST {A}.
Arguments BACK {A}.

Section Parser.
Context (t : list Z).

(** [*s]: the NUL at [es]. *)
Definition ch (s : nat) : Z := default 0%Z (t !! s).

(** [while(s < es && p( *s)) s++], with [n = es - s] rounds at most. *)
Fixpoint skip_while (p : Z -> bool) (n s : nat) : nat :=
  match n with
  | O => s
  | S n => if p (ch s) then skip_while p n (S s) else s
  end.
Definition skip_ws (s : nat) : nat := skip_while (strchr whitespace) (length t - s) s.

(** The token, where it starts and ends, and the position after it. *)
Definition gettoken (s : nat) : Z * nat * nat * nat :=
  let q := skip_ws s in
  let c := ch q in
  let '(ret, eq) :=
    if decide (c = 0%Z) then (c, q)
    else if strchr [124; 40; 41; 59; 38; 60]%Z c then (c, S q)
    else if decide (c = 62%Z) then (if decide (ch (S q) = 62%Z) then (43%Z, S (S q)) else (c, S q))
    else (97%Z, skip_while word_char (length t - q) q) in
  (ret, q, eq, skip_ws eq).

Definition peek (s : nat) (toks : list Z) : bool * nat :=
  let s := skip_ws s in
  (negb (bool_decide (ch s = 0%Z)) && strchr toks (ch s), s).

(** ** The parser *)

(** [rs] are the redirections around the command, the innermost first.  The
    command itself is not needed here: [parseexec] still fills in its
    arguments. *)
Fixpoint parseredirs (fuel : nat) (rs : list (redir span)) (s : nat) : outcome (list (redir span) * nat) :=
  match fuel with
  | O => Hang "parseredirs"
  | S fuel =>
      let '(more, s) := peek s [60; 62]%Z in
      if more then
        let '(tok, _, _, s) := gettoken s in
        let '(tok', q, eq, s) := gettoken s in
        if decide (tok' <> 97%Z) then Panic "missing file for redirection"
        else
          let r := if decide (tok = 60%Z) then mkRedir (q, eq) O_RDONLY 0 else mkRedir (q, eq) O_WRONLY_CREATE 1 in
          parseredirs fuel (rs ++ [r]) s
      else Ret (rs, s)
  end.
Definition wrap {A} (c : cmd A) (rs : list (redir A)) : cmd A := foldl REDIR c rs.

(** The loop of [parseexec]. *)
Fixpoint parseargs (fuel : nat) (argv : list span) (rs : list (redir span)) (s : nat)
    : outcome (list span * list (redir span) * nat) :=
  match fuel with
  | O => Hang "parseexec"
  | S fuel =>
      let '(stop, s) := peek s [124; 41; 38; 59]%Z in
      if stop then Ret (argv, rs, s)
      else
        let '(tok, q, eq, s) := gettoken s in
        if decide (tok = 0%Z) then Ret (argv, rs, s)
        else if decide (tok <> 97%Z) then Panic "syntax"
        else
          let argv := argv ++ [(q, eq)] in
          if decide (MAXARGS <= length argv) then Panic "too many args"
          else
            '(rs, s) ← parseredirs fuel rs s;
            parseargs fuel argv rs s
  end.

(** The loop of [parseline] over the [&]s. *)
Fixpoint parsebacks (fuel : nat) (c : cmd span) (s : nat) : outcome (cmd span * nat) :=
  match fuel with
  | O => Hang "parseline"
  | S fuel =>
      let '(more, s) := peek s [38]%Z in
      if more then let '(_, _, _, s) := gettoken s in parsebacks fuel (BACK c) s
      else Ret (c, s)
  end.

Fixpoint parseline (fuel : nat) (s : nat) : outcome (cmd span * nat) :=
  match fuel with
  | O => Hang "parseline"
  | S fuel =>
      '(c, s) ← parsepipe fuel s;
      '(c, s) ← parsebacks fuel c s;
      let '(more, s) := peek s [59]%Z in
      if more then
        let '(_, _, _, s) := gettoken s in
        '(c', s) ← parseline fuel s;
        Ret (LIST c c', s)
      else Ret (c, s)
  end
with parsepipe (fuel : nat) (s : nat) : outcome (cmd span * nat) :=
  match fuel with
  | O => Hang "parsepipe"
  | S fuel =>
      '(c, s) ← parseexec fuel s;
      let '(more, s) := peek s [124]%Z in
      if more then
        let '(_, _, _, s) := gettoken s in
        '(c', s) ← parsepipe fuel s;
        Ret (PIPE c c', s)
      else Ret (c, s)
  end
with parseexec (fuel : nat) (s : nat) : outcome (cmd span * nat) :=
  match fuel with
  | O => Hang "parseexec"
  | S fuel =>
      let '(block, s) := peek s [40]%Z in
      if block then parseblock fuel s
      else
        '(rs, s) ← parseredirs fuel [] s;
        '(argv, rs, s) ← parseargs fuel [] rs s;
        Ret (wrap (EXEC argv) rs, s)
  end
with parseblock (fuel : nat) (s : nat) : outcome (cmd span * nat) :=
  match fuel with
  | O => Hang "parseblock"
  | S fuel =>
      let '(open, s) := peek s [40]%Z in
      if negb open then Panic "parseblock"
      else
        let '(_, _, _, s) := gettoken s in
        '(c, s) ← parseline fuel s;
        let '(close, s) := peek s [41]%Z in
        if negb close then Panic "syntax - missing )"
        else
          let '(_, _, _, s) := gettoken s in
          '(rs, s) ← parseredirs fuel [] s;
          Ret (wrap c rs, s)
  end.
End Parser.

(** The NULs written into the buffer [b]. *)
Fixpoint nulterminate (c : cmd span) (b : list Z) : list Z :=
  match c with
  | EXEC argv => foldl (fun b x => <[snd x := 0%Z]> b) b argv
  | REDIR c r => <[snd (r_file r) := 0%Z]> (nulterminate c b)
  | PIPE l r | LIST l r => nulterminate r (nulterminate l b)
  | BACK c => nulterminate c b
  end.

(** The C string at a position of the buffer. *)
Fixpoint cstring (b : list Z) : list Z :=
  match b with
  | [] => []
  | c :: b => if decide (c = 0%Z) then [] else c :: cstring b
  end.

(** A buffer of [n] NULs after the line; the number of calls that suffices for
    the line is [enough]. *)
Definition enough (t : list Z) : nat := 4 * length t + 8.
Definition parsecmd (t : list Z) (n : nat) : outcome (cmd span * list Z) :=
  '(c, s) ← parseline t (enough t) 0;
  let '(_, s) := peek t s [] in
  if decide (s <> length t) then Panic "syntax"
  else Ret (c, nulterminate c (t ++ replicate n 0%Z)).

(** What [runcmd] finds in the buffer. *)
Fixpoint strings (b : list Z) (c : cmd span) : cmd (list Z) :=
  match c with
  | EXEC argv => EXEC ((fun x => cstring (drop (fst x) b)) <$> argv)
  | REDIR c r => REDIR (strings b c) (mkRedir (cstring (drop (fst (r_file r)) b)) (r_mode r) (r_fd r))
  | PIPE l r => PIPE (strings b l) (strings b r)
  | LIST l r => LIST (strings b l) (strings b r)
  | BACK c => BACK (strings b c)
  end.

(** ** Running a command *)

(** What a descriptor refers to: something the shell was started with, an
    opened file, or an end of the pipe made at a place of the command. *)
Inductive obj :=
| Other (k : Z)
| File (name : list Z) (mode : Z)
| PipeR (place : list bool)
| PipeW (place : list bool).

(** The descriptor table; the kernel hands out the lowest free entry. *)
Notation fds := (list (option obj)).
Fixpoint lowest (f : fds) : option nat :=
  match f with
  | [] => None
  | None :: _ => Some 0
  | Some _ :: f => S <$> lowest f
  end.
Definition fd_new (o : obj) (f : fds) : option (nat * fds) := i ← lowest f; Some (i, <[i := Some o]> f).
Definition close (i : nat) (f : fds) : fds := <[i := None]> f.
(** [dup(i)]; the shell ignores its result. *)
Definition dup (i : nat) (f : fds) : fds :=
  match f !! i with
  | Some (Some o) => match fd_new o f with Some (_, f) => f | None => f end
  | _ => f
  end.

(** What a process that runs a command does, up to its [exec] or [exit].  When
    an [exec] fails the process prints a message and exits. *)
Inductive ptree :=
| Exit
| Exec (argv : list (list Z)) (f : fds)
| Fork (child parent : ptree)
| Wait (k : ptree)
| Complain (msg : string) (name : list Z) (k : ptree).

Section Run.
(** Whether the kernel grants an [open], a [pipe] and a [fork]; the place in
    the command tells the calls apart. *)
Context (open_ok : list Z -> Z -> bool) (pipe_ok : list bool -> bool) (fork_ok : list bool -> nat -> bool).

Definition sh_panic (msg : string) : ptree := Complain msg [] Exit.
Definition fork1 (place : list bool) (n : nat) (child parent : ptree) : ptree := if fork_ok place n then Fork child parent else sh_panic "fork".

Fixpoint runcmd (c : cmd (list Z)) (place : list bool) (f : fds) : ptree :=
  match c with
  | EXEC [] => Exit
  | EXEC (a :: argv) => Exec (a :: argv) f
  | REDIR c r =>
      let f := close (r_fd r) f in
      if open_ok (r_file r) (r_mode r) then
        match fd_new (File (r_file r) (r_mode r)) f with
        | Some (_, f) => runcmd c place f
        | None => Complain "open" (r_file r) Exit
        end
      else Complain "open" (r_file r) Exit
  | LIST l r => fork1 place 0 (runcmd l (place ++ [false]) f) (Wait (runcmd r (place ++ [true]) f))
  | PIPE l r =>
      if pipe_ok place then
        match fd_new (PipeR place) f with
        | None => sh_panic "pipe"
        | Some (p0, f) =>
            match fd_new (PipeW place) f with
            | None => sh_panic "pipe"
            | Some (p1, f) =>
                fork1 place 0 (runcmd l (place ++ [false]) (close p1 (close p0 (dup p1 (close 1 f)))))
                  (fork1 place 1 (runcmd r (place ++ [true]) (close p1 (close p0 (dup p0 (close 0 f)))))
                     (Wait (Wait Exit)))
            end
        end
      else sh_panic "pipe"
  | BACK c => fork1 place 0 (runcmd c (place ++ [false]) f) Exit
  end.
End Run.

(** The loop of [main] that opens the console until three descriptors are
    open; [n] bounds its rounds. *)
Fixpoint open_console (n : nat) (f : fds) : fds :=
  match n with
  | O => f
  | S n =>
      match fd_new (Other 0) f with
      | Some (i, f) => if decide (3 <= i) then close i f else open_console n f
      | None => f
      end
  end.

(** What [main] does with a line it has read into [buf]. *)
Inductive action :=
| Chdir (dir : list Z)
| Run (c : outcome (cmd (list Z))).

Definition run_line (t : list Z) (n : nat) : action :=
  if decide (take 3 t = [99; 100; 32]%Z) then Chdir (cstring (drop 3 (<[length t - 1 := 0%Z]> t)))
  else Run ('(c, b) ← parsecmd t n; Ret (strings b c)).

(** The lines [gets] delivers, up to an empty one (the end of the input). *)
Fixpoint sh_main (lines : list (list Z)) : list action :=
  match lines with
  | [] => []
  | t :: lines => if decide (t = []) then [] else run_line t (100 - length t) :: sh_main lines
  end.

End Sh.
