(* ===== verification/ShLex.v ===== *)
(** * The shell: the lexer against a specification

    [lex] splits a line into tokens without positions; [gettoken] and [peek]
    deliver these tokens one by one. *)
From S2P Require Export ShDefs.

Module ShLex.
Export Sh.

(** ** Tokens *)

Inductive token :=
| TWord (w : list Z)
| TSym (c : Z)
| TAppend.

(** The character [c] before the tokens [k]; it continues the first word if
    that one starts right after it. *)
Definition push_char (c : Z) (joins : bool) (k : list token) : list token :=
  match k with
  | TWord w :: k' => if joins then TWord (c :: w) :: k' else TWord [c] :: k
  | _ => TWord [c] :: k
  end.

Fixpoint lex (t : list Z) : list token :=
  match t with
  | [] => []
  | c :: u =>
      if strchr whitespace c then lex u
      else if strchr symbols c then
        match u with
        | d :: u' => if decide (c = 62 /\ d = 62)%Z then TAppend :: lex u' else TSym c :: lex u
        | [] => [TSym c]
        end
      else
        push_char c (match u with d :: _ => word_char d | [] => false end) (lex u)
  end.

(** What [gettoken] returns for a token. *)
Definition code (k : token) : Z := match k with TWord _ => 97 | TSym c => c | TAppend => 43 end.

Definition stops (p : Z -> bool) (u : list Z) : Prop := match u with [] => True | c :: _ => p c = false end.

Lemma span_ex (p : Z -> bool) u : exists a b, u = a ++ b /\ Forall (fun c => p c = true) a /\ stops p b.
Proof.
  induction u as [|c u IH]; [by exists [], []|]. destruct (p c) eqn:E; [|by exists [], (c :: u)].
  destruct IH as (a & b & -> & Ha & Hb). exists (c :: a), b. split_and!; [done|by constructor|done].
Qed.

Lemma lex_ws a b : Forall (fun c => strchr whitespace c = true) a -> lex (a ++ b) = lex b.
Proof. induction 1 as [|c a Hc _ IH]; cbn; [done|]. by rewrite Hc. Qed.

Lemma word_char_not c : word_char c = true -> strchr whitespace c = false /\ strchr symbols c = false.
Proof. unfold word_char. destruct (strchr whitespace c), (strchr symbols c); naive_solver. Qed.

Lemma lex_cons c u : word_char c = true -> lex (c :: u) = push_char c (match u with d :: _ => word_char d | [] => false end) (lex u).
Proof. intros Hc. destruct (word_char_not c Hc) as [H1 H2]. cbn. by rewrite H1, H2. Qed.

Lemma lex_word w b : w <> [] -> Forall (fun c => word_char c = true) w -> stops word_char b -> lex (w ++ b) = TWord w :: lex b.
Proof.
  intros Hne Hw Hb. induction Hw as [|c w Hc Hw IH]; [done|]. destruct w as [|d w]; cbn [app]; rewrite lex_cons by done.
  - destruct b as [|d b]; [done|]. cbn in Hb. rewrite Hb. by destruct (lex (d :: b)) as [|[] ?].
  - cbn [app] in IH. rewrite IH by done. inversion Hw as [|?? Hd]; subst. by rewrite Hd.
Qed.

Section Positions.
Context (t : list Z) (nonul : Forall (fun c => c <> 0%Z) t).

(** The tokens from a position on. *)
Definition lx (s : nat) : list token := lex (drop s t).

Lemma ch_drop s c u : drop s t = c :: u -> ch t s = c.
Proof. intros H. unfold ch. by rewrite <- (Nat.add_0_r s), <- lookup_drop, H. Qed.
Lemma ch_end s : drop s t = [] -> ch t s = 0%Z.
Proof. intros H. unfold ch. by rewrite <- (Nat.add_0_r s), <- lookup_drop, H. Qed.
Lemma ch_zero s : s <= length t -> ch t s = 0%Z -> s = length t.
Proof.
  intros Hs. unfold ch. destruct (t !! s) as [c|] eqn:E; cbn; [|apply lookup_ge_None in E; lia].
  intros ->. by destruct (proj1 (Forall_lookup _ _) nonul _ _ E).
Qed.

Lemma drop_step s a b : drop s t = a ++ b -> drop (s + length a) t = b.
Proof. intros H. by rewrite <- drop_drop, H, drop_app_length. Qed.

Lemma drop_le s a b : s <= length t -> drop s t = a ++ b -> s + length a + length b = length t.
Proof. intros Hs H. apply (f_equal length) in H. rewrite length_drop, length_app in H. lia. Qed.

Lemma skip_while_spec p s a b : drop s t = a ++ b -> Forall (fun c => p c = true) a -> stops p b ->
  skip_while t p (length t - s) s = s + length a.
Proof.
  revert s. induction a as [|c a IH]; intros s Hd Ha Hb.
  - cbn in Hd. destruct (length t - s) as [|n] eqn:E; cbn; [lia|]. destruct b as [|c b].
    + apply (f_equal length) in Hd. rewrite length_drop in Hd. cbn in Hd. lia.
    + rewrite (ch_drop _ _ _ Hd). cbn in Hb. rewrite Hb. lia.
  - inversion Ha as [|?? Hc Ha']; subst. cbn in Hd. assert (Hlen := f_equal length Hd). rewrite length_drop in Hlen. cbn in Hlen.
    destruct (length t - s) as [|n] eqn:E; [lia|]. cbn. rewrite (ch_drop _ _ _ Hd), Hc. replace n with (length t - S s) by lia.
    rewrite IH; [lia| |done|done]. replace (S s) with (s + length [c]) by (cbn; lia). by apply drop_step.
Qed.

(** [s'] is the first position from [s] on that is not white space. *)
Lemma skip_ws_spec s : s <= length t ->
  exists a, drop s t = a ++ drop (skip_ws t s) t /\ skip_ws t s = s + length a /\ skip_ws t s <= length t /\
    lx (skip_ws t s) = lx s /\ stops (strchr whitespace) (drop (skip_ws t s) t).
Proof.
  intros Hs. destruct (span_ex (strchr whitespace) (drop s t)) as (a & b & Hd & Ha & Hb).
  unfold skip_ws. rewrite (skip_while_spec _ s a b) by done. exists a. pose proof (drop_le _ _ _ Hs Hd).
  unfold lx. rewrite (drop_step _ _ _ Hd), Hd, lex_ws by done. split_and!; [done|done|lia|done|done].
Qed.

(** A maximal word of the line at position [q]. *)
Definition word_at (q : nat) (w : list Z) : Prop :=
  exists a b, t = a ++ w ++ b /\ length a = q /\ w <> [] /\ Forall (fun c => word_char c = true) w /\ stops word_char b.

Definition is_sym (k : list token) (toks : list Z) : bool :=
  match k with
  | TSym c :: _ => strchr toks c
  | TAppend :: _ => strchr toks 62%Z
  | _ => false
  end.


(** What follows white space: nothing, a symbol or a word. *)
Lemma next_cases u : stops (strchr whitespace) u ->
  u = [] \/
  (exists c u', u = c :: u' /\ strchr whitespace c = false /\ strchr symbols c = true) \/
  (exists w b, u = w ++ b /\ w <> [] /\ Forall (fun c => word_char c = true) w /\ stops word_char b).
Proof.
  intros Hc. destruct u as [|c u]; [by left|right]. cbn in Hc. destruct (strchr symbols c) eqn:E; [left; by exists c, u|right].
  destruct (span_ex word_char u) as (a & b & -> & Ha & Hb). exists (c :: a), b. split_and!; [done|done| |done].
  constructor; [|done]. unfold word_char. by rewrite Hc, E.
Qed.

Lemma strchr_false toks c : strchr symbols c = false -> toks ⊆ symbols -> strchr toks c = false.
Proof. unfold strchr. rewrite !bool_decide_eq_false. set_solver. Qed.

Lemma lex_sym c u : strchr whitespace c = false -> strchr symbols c = true ->
  lex (c :: u) = match u with d :: u' => if decide (c = 62 /\ d = 62)%Z then TAppend :: lex u' else TSym c :: lex u | [] => [TSym c] end.
Proof. intros H1 H2. cbn. by rewrite H1, H2. Qed.

Lemma peek_spec s toks : s <= length t -> toks ⊆ symbols -> peek t s toks = (is_sym (lx s) toks, skip_ws t s).
Proof.
  intros Hs Htoks. unfold peek. f_equal. destruct (skip_ws_spec s Hs) as (a & _ & _ & Hle & <- & Hst). unfold lx.
  destruct (next_cases _ Hst) as [Hu|[(c & u & Hu & Hc & Hsym)|(w & b & Hu & Hne & Hw & Hb)]].
  - rewrite (ch_end _ Hu), Hu. done.
  - rewrite (ch_drop _ _ _ Hu), Hu, lex_sym by done. assert (c <> 0%Z) by (intros ->; done). rewrite bool_decide_eq_false_2 by done. cbn.
    destruct u as [|d u]; [done|]. destruct (decide _) as [[-> ->]|]; done.
  - rewrite Hu, lex_word by done. destruct w as [|c w]; [done|]. rewrite (ch_drop _ c (w ++ b) Hu). inversion Hw as [|?? Hc]; subst.
    destruct (word_char_not c Hc) as [_ Hns]. rewrite (strchr_false toks c Hns Htoks). by rewrite andb_false_r.
Qed.

Lemma skip_ws_bounds s : s <= length t -> s <= skip_ws t s <= length t /\ lx (skip_ws t s) = lx s.
Proof. intros Hs. destruct (skip_ws_spec s Hs) as (a & _ & ? & ? & ? & _). split; [lia|done]. Qed.

Lemma word_at_drop q w b : q <= length t -> drop q t = w ++ b -> w <> [] -> Forall (fun c => word_char c = true) w -> stops word_char b -> word_at q w.
Proof. intros Hq Hd Hne Hw Hb. exists (take q t), b. split_and!; [by rewrite <- Hd, take_drop|rewrite length_take; lia|done..]. Qed.

(** [eq], the end of the token at [q], and what follows it. *)
Lemma token_end q u n rest : q <= length t -> drop q t = u -> n <= length u -> lex (drop n u) = rest ->
  q + n <= skip_ws t (q + n) <= length t /\ lx (skip_ws t (q + n)) = rest.
Proof.
  intros Hq Hd Hn Hl. assert (Hle : q + n <= length t) by (rewrite <- Hd, length_drop in Hn; lia).
  destruct (skip_ws_bounds (q + n) Hle) as [Hb ->]. split; [done|]. unfold lx. by rewrite <- drop_drop, Hd.
Qed.

Lemma gettoken_spec s : s <= length t ->
  match lx s with
  | [] => gettoken t s = (0%Z, length t, length t, length t)
  | k :: rest => exists q eq s', gettoken t s = (code k, q, eq, s') /\ s < s' <= length t /\ lx s' = rest /\
      forall w, k = TWord w -> word_at q w /\ eq = q + length w
  end.
Proof.
  intros Hs. destruct (skip_ws_spec s Hs) as (a & _ & Hq & Hle & <- & Hst). unfold gettoken. set (q := skip_ws t s) in *. unfold lx.
  destruct (next_cases _ Hst) as [Hu|[(c & u & Hu & Hc & Hsym)|(w & b & Hu & Hne & Hw & Hb)]].
  - rewrite (ch_end _ Hu), Hu. cbn. assert (Hlen := f_equal length Hu). rewrite length_drop in Hlen. cbn in Hlen. assert (Hql : q = length t) by lia.
    rewrite !Hql. rewrite decide_True by done. unfold skip_ws. by rewrite Nat.sub_diag.
  - rewrite (ch_drop _ _ _ Hu), Hu, lex_sym by done. rewrite decide_False by (intros ->; done).
    assert (Hq1 : drop (S q) t = u) by (replace (S q) with (q + length [c]) by (cbn; lia); by apply drop_step).
    pose proof (token_end q _ 1 (lex u) Hle Hu ltac:(cbn; lia) eq_refl) as Hone. rewrite Nat.add_1_r in Hone. destruct Hone as [Ho1 Ho2].
    destruct (decide (c = 62%Z)) as [->|Hne].
    + change (strchr [124; 40; 41; 59; 38; 60]%Z 62%Z) with false. cbv iota. destruct u as [|d u].
      * rewrite (ch_end _ Hq1). eexists _, _, _. split_and!; [done|lia|lia|exact Ho2|done].
      * rewrite (ch_drop _ _ _ Hq1). destruct (decide (d = 62%Z)) as [->|Hd].
        -- rewrite decide_True by done. destruct (token_end q _ 2 (lex u) Hle Hu ltac:(cbn; lia) eq_refl) as [Ht1 Ht2].
           replace (q + 2) with (S (S q)) in * by lia. eexists _, _, _. split_and!; [done|lia|lia|exact Ht2|done].
        -- rewrite (decide_False (P := (62 = 62 /\ d = 62)%Z)) by naive_solver. eexists _, _, _. split_and!; [done|lia|lia|exact Ho2|done].
    + assert (Hin : strchr [124; 40; 41; 59; 38; 60]%Z c = true). { unfold strchr in *. rewrite bool_decide_eq_true in *. set_solver. }
      rewrite Hin. cbv iota. destruct u as [|d u]; [|rewrite decide_False by naive_solver]; eexists _, _, _; (split_and!; [done|lia|lia|exact Ho2|done]).
  - rewrite Hu, lex_word by done. destruct w as [|c w]; [done|]. rewrite (ch_drop _ c (w ++ b) Hu). inversion Hw as [|?? Hc _]; subst.
    destruct (word_char_not c Hc) as [_ Hns]. assert (Hc0 : c <> 0%Z).
    { apply (proj1 (Forall_forall _ _) nonul). rewrite <- (take_drop q t), Hu. apply elem_of_app. right. by left. }
    rewrite decide_False by done. rewrite decide_False by (intros ->; done).
    rewrite (strchr_false _ c Hns) by set_solver. rewrite (skip_while_spec word_char q (c :: w) b) by done.
    destruct (token_end q _ (length (c :: w)) (lex b) Hle Hu) as [H1 H2]; [rewrite length_app; lia|by rewrite drop_app_length|].
    eexists _, _, _. split_and!; [done|cbn in *; lia|lia|exact H2|]. intros w' [= <-]. split; [by eapply word_at_drop|done].
Qed.
End Positions.
End ShLex.
