(* ===== verification/ShParse.v ===== *)
(** * The shell: the parser

    [print] writes a command as tokens, with parentheses where the grammar
    needs them; the parser gives back every command from its tokens, never
    gets stuck, and stops with a message on everything it does not accept. *)
From S2P Require Export ShLex.

Module ShParse.
Export ShLex.

(** ** Printing *)

Definition redir_toks (r : redir (list Z)) : list token := [TSym (if decide (r_fd r = 0) then 60%Z else 62%Z); TWord (r_file r)].
Definition redirs_toks (rs : list (redir (list Z))) : list token := concat (redir_toks <$> rs).
Definition paren (b : bool) (k : list token) : list token := if b then TSym 40 :: k ++ [TSym 41] else k.

(** The levels are those of [parseexec], [parsepipe], the [&] loop of
    [parseline], and [parseline]. *)
Fixpoint print (lvl : nat) (a : cmd (list Z)) : list token :=
  match a with
  | EXEC ws => TWord <$> ws
  | REDIR a r => print 0 a ++ redir_toks r
  | PIPE l r => paren (lvl <? 1) (print 0 l ++ TSym 124 :: print 1 r)
  | BACK a => paren (lvl <? 2) (print 2 a ++ [TSym 38])
  | LIST l r => paren (lvl <? 3) (print 2 l ++ TSym 59 :: print 3 r)
  end.

(** The commands the shell can represent: fewer than [MAXARGS] arguments, and
    the redirections [<] and [>]. *)
Definition redir_ok (r : redir (list Z)) : Prop := r_mode r = O_RDONLY /\ r_fd r = 0 \/ r_mode r = O_WRONLY_CREATE /\ r_fd r = 1.
Fixpoint cmd_ok (a : cmd (list Z)) : Prop :=
  match a with
  | EXEC ws => length ws < MAXARGS
  | REDIR a r => cmd_ok a /\ redir_ok r
  | PIPE l r | LIST l r => cmd_ok l /\ cmd_ok r
  | BACK a => cmd_ok a
  end.

(** The symbols of a lexed line are symbols of the shell. *)
Definition tok_ok (k : token) : Prop := match k with TSym c => strchr symbols c = true | _ => True end.
Lemma push_char_syms c b k : Forall tok_ok k -> Forall tok_ok (push_char c b k).
Proof. intros H. destruct k as [|[] k]; [by constructor| |by constructor..]. cbn. destruct b; [inversion H; by constructor|by constructor]. Qed.
Lemma lex_syms u : Forall tok_ok (lex u).
Proof.
  assert (H : forall n u, length u <= n -> Forall tok_ok (lex u)); [|by eapply H]. clear u. induction n as [|n IH]; intros [|c u] Hn; cbn in Hn; try lia; try constructor.
  cbn [lex]. destruct (strchr whitespace c); [apply IH; lia|]. destruct (strchr symbols c) eqn:E; [|apply push_char_syms, IH; lia].
  destruct u as [|d u]; [by repeat constructor|]. destruct (decide _); constructor; [done|apply IH; cbn in Hn; lia|done|apply IH; lia].
Qed.

Section Text.
Context (t : list Z) (nonul : Forall (fun c => c <> 0%Z) t).
Local Notation lx := (lx t).
Local Notation L := (length t).

(** The spans of a parsed command are maximal words of the line. *)
Definition names (x : span) (w : list Z) : Prop := word_at t (fst x) w /\ snd x = fst x + length w.
Definition names_redir (r : redir span) (r' : redir (list Z)) : Prop := names (r_file r) (r_file r') /\ r_mode r = r_mode r' /\ r_fd r = r_fd r'.
Inductive spells : cmd span -> cmd (list Z) -> Prop :=
| spells_exec xs ws : Forall2 names xs ws -> spells (EXEC xs) (EXEC ws)
| spells_redir c a r r' : spells c a -> names_redir r r' -> spells (REDIR c r) (REDIR a r')
| spells_pipe c c' a a' : spells c a -> spells c' a' -> spells (PIPE c c') (PIPE a a')
| spells_list c c' a a' : spells c a -> spells c' a' -> spells (LIST c c') (LIST a a')
| spells_back c a : spells c a -> spells (BACK c) (BACK a).

Lemma spells_wrap c a rs rs' : spells c a -> Forall2 names_redir rs rs' -> spells (wrap c rs) (wrap a rs').
Proof. intros H Hrs. revert c a H. induction Hrs as [|r r' rs rs' Hr _ IH]; intros c a H; [done|]. apply IH. by constructor. Qed.

(** One token is taken. *)
Lemma take_token s k rest : s <= L -> lx s = k :: rest ->
  exists q eq s', gettoken t s = (code k, q, eq, s') /\ lx s' = rest /\ s < s' <= L /\ forall w, k = TWord w -> names (q, eq) w.
Proof.
  intros Hs Hl. pose proof (gettoken_spec t nonul s Hs) as H. rewrite Hl in H. destruct H as (q & eq & s' & H1 & H2 & H3 & H4).
  exists q, eq, s'. split_and!; [done|done|lia|lia|]. intros w Hw. by apply H4.
Qed.

(** [peek] of a set of symbols. *)
Lemma peek_at s toks k : s <= L -> toks ⊆ symbols -> lx s = k -> exists s', peek t s toks = (is_sym k toks, s') /\ lx s' = k /\ s <= s' <= L.
Proof.
  intros Hs Ht Hl. exists (skip_ws t s). rewrite (peek_spec t nonul s toks Hs Ht), Hl. destruct (skip_ws_bounds t s Hs) as [? Hx]. split_and!; [done|congruence|lia|lia].
Qed.

(** ** Redirections *)

Lemma redir_ok_toks r : redir_ok r -> exists c, redir_toks r = [TSym c; TWord (r_file r)] /\
  (c = 60%Z /\ O_RDONLY = r_mode r /\ 0 = r_fd r \/ c = 62%Z /\ O_WRONLY_CREATE = r_mode r /\ 1 = r_fd r).
Proof. unfold redir_toks. intros [[Hm Hd]|[Hm Hd]]; rewrite Hd; eexists; (split; [done|]); naive_solver. Qed.

Lemma parseredirs_ok rs' : Forall redir_ok rs' -> forall s k, s <= L -> lx s = redirs_toks rs' ++ k -> is_sym k [60; 62]%Z = false ->
  exists rs s', (forall fuel acc, length rs' < fuel -> parseredirs t fuel acc s = Ret (acc ++ rs, s')) /\ Forall2 names_redir rs rs' /\ lx s' = k /\ s' <= L.
Proof.
  induction 1 as [|r rs' Hr _ IH]; intros s k Hs Hl Hk.
  - destruct (peek_at s [60; 62]%Z k Hs) as (s' & Hpk & Hl' & Hs'); [set_solver|done|]. exists [], s'. split_and!; [|done|done|lia].
    intros [|fuel] acc Hf; [cbn in Hf; lia|]. cbn [parseredirs]. by rewrite Hpk, Hk, app_nil_r.
  - destruct (redir_ok_toks r Hr) as (c & Htok & Hc). change (redirs_toks (r :: rs')) with (redir_toks r ++ redirs_toks rs') in Hl. rewrite Htok in Hl. cbn [app] in Hl.
    destruct (peek_at s [60; 62]%Z _ Hs ltac:(set_solver) Hl) as (s1 & Hpk & Hl1 & Hs1). cbn [is_sym] in Hpk.
    destruct (take_token s1 _ _ ltac:(lia) Hl1) as (q1 & e1 & s2 & Hg1 & Hl2 & Hs2 & _). destruct (take_token s2 _ _ ltac:(lia) Hl2) as (q2 & e2 & s3 & Hg2 & Hl3 & Hs3 & Hw).
    specialize (Hw _ eq_refl). cbn [code] in *.
    set (r0 := if decide (c = 60%Z) then mkRedir (q2, e2) O_RDONLY 0 else mkRedir (q2, e2) O_WRONLY_CREATE 1).
    assert (Hr0 : names_redir r0 r) by (unfold r0; destruct Hc as [(-> & Hm & Hd)|(-> & Hm & Hd)]; done).
    destruct (IH s3 k) as (rs & s' & Hp & Hrs & Hl' & Hs'); [lia|done|done|]. exists (r0 :: rs), s'. split_and!; [|by constructor|done|done].
    intros [|fuel] acc Hf; [cbn in Hf; lia|]. cbn [parseredirs]. rewrite Hpk.
    replace (strchr [60; 62]%Z c) with true by (destruct Hc as [(-> & _)|(-> & _)]; done).
    rewrite Hg1, Hg2, (decide_False (P := (97 <> 97)%Z)) by naive_solver. rewrite Hp by (cbn in Hf; lia). by rewrite <- app_assoc.
Qed.

(** ** Arguments *)

(** What may follow the parts of a command. *)
Definition follows (toks : list Z) (k : list token) : Prop := k = [] \/ is_sym k toks = true.

Lemma follows_not toks k toks' : follows toks k -> forallb (fun c => negb (strchr toks' c)) toks = true -> is_sym k toks' = false.
Proof.
  intros [->|H] Hd; [done|]. assert (Hx : forall c, strchr toks c = true -> strchr toks' c = false).
  { intros c Hc. unfold strchr in Hc. rewrite bool_decide_eq_true in Hc. rewrite forallb_forall in Hd. apply negb_true_iff, Hd. by apply list_elem_of_In. }
  destruct k as [|[|c|] k]; cbn in *; by try apply Hx.
Qed.

Lemma parseargs_end s k : s <= L -> lx s = k -> follows [124; 41; 38; 59]%Z k ->
  exists s', (forall fuel argv rs, 0 < fuel -> parseargs t fuel argv rs s = Ret (argv, rs, s')) /\ lx s' = k /\ s' <= L.
Proof.
  intros Hs Hl Hk. destruct (peek_at s [124; 41; 38; 59]%Z k Hs) as (s1 & Hpk & Hl1 & Hs1); [set_solver|done|].
  destruct Hk as [->|Hk].
  - pose proof (gettoken_spec t nonul s1 ltac:(lia)) as Hg. fold (lx s1) in Hg. rewrite Hl1 in Hg. exists L. split_and!; [|unfold ShLex.lx; by rewrite drop_all|lia].
    intros [|fuel] argv rs Hf; [lia|]. cbn [parseargs]. rewrite Hpk. cbn [is_sym]. by rewrite Hg.
  - exists s1. split_and!; [|done|lia]. intros [|fuel] argv rs Hf; [lia|]. cbn [parseargs]. by rewrite Hpk, Hk.
Qed.

Lemma parseargs_ok ws rs' k : Forall redir_ok rs' -> follows [124; 41; 38; 59]%Z k -> ws <> [] ->
  forall s, s <= L -> lx s = (TWord <$> ws) ++ redirs_toks rs' ++ k ->
  exists xs rs1 s', (forall fuel argv rs, length argv + length ws < MAXARGS -> length ws + length rs' + 1 < fuel ->
      parseargs t fuel argv rs s = Ret (argv ++ xs, rs ++ rs1, s')) /\
    Forall2 names xs ws /\ Forall2 names_redir rs1 rs' /\ lx s' = k /\ s' <= L.
Proof.
  intros Hrs Hk. induction ws as [|w ws IH]; intros Hne s Hs Hl; [done|]. clear Hne. cbn in Hl.
  destruct (peek_at s [124; 41; 38; 59]%Z _ Hs ltac:(set_solver) Hl) as (s1 & Hpk & Hl1 & Hs1). cbn [is_sym] in Hpk.
  destruct (take_token s1 _ _ ltac:(lia) Hl1) as (q & eq & s2 & Hg & Hl2 & Hs2 & Hw). specialize (Hw _ eq_refl). cbn [code] in Hg.
  assert (Hstep : forall fuel argv rs, S (length argv) < MAXARGS -> parseargs t (S fuel) argv rs s = '(rs, s) ← parseredirs t fuel rs s2; parseargs t fuel (argv ++ [(q, eq)]) rs s).
  { intros fuel argv rs Hlen. cbn [parseargs]. rewrite Hpk, Hg. rewrite decide_False by done. rewrite (decide_False (P := (97 <> 97)%Z)) by naive_solver.
    rewrite decide_False by (rewrite length_app; cbn; lia). done. }
  destruct ws as [|w' ws].
  - cbn in Hl2. destruct (parseredirs_ok rs' Hrs s2 k) as (rs1 & s3 & Hp & Hrs1 & Hl3 & Hs3); [lia|done|by eapply follows_not|].
    destruct (parseargs_end s3 k Hs3 Hl3 Hk) as (s4 & He & Hl4 & Hs4). exists [(q, eq)], rs1, s4. split_and!; [|constructor; [done|constructor]|done|done|done].
    intros [|fuel] argv rs Hlen Hf; [lia|]. cbn in *. rewrite Hstep, Hp by lia. cbn [mbind outcome_bind]. rewrite He by lia. done.
  - destruct (parseredirs_ok [] (Forall_nil_2 _) s2 _ ltac:(lia) Hl2) as (rs1 & s3 & Hp & Hrs1 & Hl3 & Hs3); [done|]. apply Forall2_nil_inv_r in Hrs1 as ->.
    destruct (IH ltac:(done) s3) as (xs & rs1 & s4 & He & Hxs & Hrs1 & Hl4 & Hs4); [lia|done|]. exists ((q, eq) :: xs), rs1, s4. split_and!; [|by constructor|done|done|done].
    intros [|fuel] argv rs Hlen Hf; [lia|]. cbn in *. rewrite Hstep, Hp by lia. cbn [mbind outcome_bind]. rewrite app_nil_r, He; [by rewrite <- app_assoc|rewrite length_app; cbn; lia|lia].
Qed.

(** ** The nonterminals *)

Definition eventually (P : nat -> Prop) : Prop := exists f0, forall f, f0 <= f -> P f.

Lemma eventually_and P Q : eventually P -> eventually Q -> eventually (fun f => P f /\ Q f).
Proof. intros [f1 H1] [f2 H2]. exists (max f1 f2). intros f Hf. split; [apply H1; lia|apply H2; lia]. Qed.
Lemma eventually_S P Q : eventually P -> (forall f, P f -> Q (S f)) -> eventually Q.
Proof. intros [f0 H] HPQ. exists (S f0). intros [|f] Hf; [lia|]. apply HPQ, H. lia. Qed.
Lemma eventually_ge n : eventually (fun f => n < f).
Proof. exists (S n). lia. Qed.

(** With enough calls, [p] returns a command that spells [a] and is before the
    tokens [k]. *)
Definition parses (p : nat -> outcome (cmd span * nat)) (a : cmd (list Z)) (k : list token) : Prop :=
  exists c s', eventually (fun f => p f = Ret (c, s')) /\ spells c a /\ lx s' = k /\ s' <= L.

Definition exec_ok (a : cmd (list Z)) : Prop := forall rs' k s, Forall redir_ok rs' -> s <= L -> lx s = print 0 a ++ redirs_toks rs' ++ k -> follows [124; 41; 38; 59]%Z k ->
  parses (fun f => parseexec t f s) (wrap a rs') k.
Definition pipe_ok (a : cmd (list Z)) : Prop := forall k s, s <= L -> lx s = print 1 a ++ k -> follows [41; 38; 59]%Z k -> parses (fun f => parsepipe t f s) a k.
(** After a pipe and some of the [&]s, the loop of [parseline] is before [k]. *)
Definition back_ok (a : cmd (list Z)) : Prop := forall k s, s <= L -> lx s = print 2 a ++ k -> follows [41; 38; 59]%Z k ->
  exists n c0 s0 c s', eventually (fun f => parsepipe t f s = Ret (c0, s0)) /\ (forall g, parsebacks t (n + g) c0 s0 = parsebacks t g c s') /\
    spells c a /\ lx s' = k /\ s' <= L.
Definition line_ok (a : cmd (list Z)) : Prop := forall k s, s <= L -> lx s = print 3 a ++ k -> follows [41]%Z k -> parses (fun f => parseline t f s) a k.

Lemma follows_weaken toks toks' k : follows toks k -> forallb (strchr toks') toks = true -> follows toks' k.
Proof.
  intros [->|H] Hd; [by left|right]. assert (Hx : forall c, strchr toks c = true -> strchr toks' c = true).
  { intros c Hc. unfold strchr in Hc. rewrite bool_decide_eq_true in Hc. rewrite forallb_forall in Hd. apply Hd. by apply list_elem_of_In. }
  destruct k as [|[|c|] k]; cbn in *; by try apply Hx.
Qed.

(** After a command, [peek] sees the token [c] that continues it, or not. *)
Lemma peek_yes s c k : s <= L -> [c] ⊆ symbols -> lx s = TSym c :: k ->
  exists s1 q eq s2, peek t s [c] = (true, s1) /\ gettoken t s1 = (c, q, eq, s2) /\ lx s2 = k /\ s2 <= L.
Proof.
  intros Hs Hc Hl. destruct (peek_at s [c] _ Hs Hc Hl) as (s1 & Hp & Hl1 & Hs1). destruct (take_token s1 _ _ ltac:(lia) Hl1) as (q & eq & s2 & Hg & Hl2 & Hs2 & _).
  exists s1, q, eq, s2. split_and!; [|done|done|lia]. rewrite Hp. cbn. unfold strchr. by rewrite bool_decide_eq_true_2 by (by left).
Qed.
Lemma peek_no s c k toks : s <= L -> [c] ⊆ symbols -> lx s = k -> follows toks k -> strchr toks c = false -> exists s1, peek t s [c] = (false, s1) /\ lx s1 = k /\ s1 <= L.
Proof.
  intros Hs Hc Hl Hf Ht. destruct (peek_at s [c] _ Hs Hc Hl) as (s1 & Hp & Hl1 & Hs1). exists s1. split_and!; [|done|lia]. rewrite Hp. f_equal.
  eapply follows_not; [exact Hf|]. apply forallb_forall. intros d Hd. apply negb_true_iff. unfold strchr in *. rewrite bool_decide_eq_false in *.
  intros ->%list_elem_of_singleton. apply Ht. by apply list_elem_of_In.
Qed.

Lemma exec_pipe a : print 1 a = print 0 a -> exec_ok a -> pipe_ok a.
Proof.
  intros He H k s Hs Hl Hk. rewrite He in Hl. destruct (H [] k s) as (c & s1 & Hp & Hsp & Hl1 & Hs1); [done|done|done|by eapply follows_weaken|].
  destruct (peek_no s1 124%Z k _ Hs1 ltac:(set_solver) Hl1 Hk eq_refl) as (s2 & Hpk & Hl2 & Hs2). exists c, s2. split_and!; [|done|done|done].
  eapply eventually_S; [exact Hp|]. intros f Hf. cbn [parsepipe]. rewrite Hf. cbn [mbind outcome_bind]. by rewrite Hpk.
Qed.

Lemma pipe_pipe l r : exec_ok l -> pipe_ok r -> pipe_ok (PIPE l r).
Proof.
  intros Hl Hr k s Hs Hlx Hk. cbn in Hlx. rewrite <- app_assoc in Hlx. cbn in Hlx.
  destruct (Hl [] (TSym 124 :: print 1 r ++ k) s ltac:(done) Hs Hlx) as (c & s1 & Hp & Hsp & Hl1 & Hs1); [by right|].
  destruct (peek_yes s1 124%Z _ Hs1 ltac:(set_solver) Hl1) as (s2 & q & eq & s3 & Hpk & Hg & Hl3 & Hs3).
  destruct (Hr k s3 Hs3 Hl3 Hk) as (c' & s4 & Hp' & Hsp' & Hl4 & Hs4). exists (PIPE c c'), s4. split_and!; [|by constructor|done|done].
  eapply eventually_S; [exact (eventually_and _ _ Hp Hp')|]. intros f [Hf Hf']. cbn [parsepipe]. rewrite Hf. cbn [mbind outcome_bind]. rewrite Hpk, Hg, Hf'. done.
Qed.

Lemma pipe_back a : print 2 a = print 1 a -> pipe_ok a -> back_ok a.
Proof.
  intros He H k s Hs Hl Hk. rewrite He in Hl. destruct (H k s Hs Hl Hk) as (c & s1 & Hp & Hsp & Hl1 & Hs1). by exists 0, c, s1, c, s1.
Qed.

Lemma back_back a : back_ok a -> back_ok (BACK a).
Proof.
  intros H k s Hs Hl Hk. cbn in Hl. rewrite <- app_assoc in Hl. cbn in Hl.
  destruct (H (TSym 38 :: k) s Hs Hl) as (n & c0 & s0 & c & s1 & Hp & Hb & Hsp & Hl1 & Hs1); [by right|].
  destruct (peek_yes s1 38%Z _ Hs1 ltac:(set_solver) Hl1) as (s2 & q & eq & s3 & Hpk & Hg & Hl3 & Hs3).
  exists (S n), c0, s0, (BACK c), s3. split_and!; [done| |by constructor|done|done]. intros g. replace (S n + g) with (n + S g) by lia. rewrite Hb. cbn [parsebacks]. by rewrite Hpk, Hg.
Qed.

(** The [&] loop ends. *)
Lemma back_end a k s : back_ok a -> s <= L -> lx s = print 2 a ++ k -> follows [41; 59]%Z k ->
  exists c0 s0 c s', eventually (fun f => parsepipe t f s = Ret (c0, s0)) /\ eventually (fun f => parsebacks t f c0 s0 = Ret (c, s')) /\ spells c a /\ lx s' = k /\ s' <= L.
Proof.
  intros H Hs Hl Hk. destruct (H k s Hs Hl) as (n & c0 & s0 & c & s1 & Hp & Hb & Hsp & Hl1 & Hs1); [by eapply follows_weaken|].
  destruct (peek_no s1 38%Z k _ Hs1 ltac:(set_solver) Hl1 Hk eq_refl) as (s2 & Hpk & Hl2 & Hs2). exists c0, s0, c, s2. split_and!; [done| |done|done|done].
  exists (S n). intros f Hf. replace f with (n + S (f - S n)) by lia. rewrite Hb. cbn [parsebacks]. by rewrite Hpk.
Qed.

Lemma back_line a : print 3 a = print 2 a -> back_ok a -> line_ok a.
Proof.
  intros He H k s Hs Hl Hk. rewrite He in Hl. destruct (back_end a k s H Hs Hl) as (c0 & s0 & c & s1 & Hp & Hb & Hsp & Hl1 & Hs1); [by eapply follows_weaken|].
  destruct (peek_no s1 59%Z k _ Hs1 ltac:(set_solver) Hl1 Hk eq_refl) as (s2 & Hpk & Hl2 & Hs2). exists c, s2. split_and!; [|done|done|done].
  eapply eventually_S; [exact (eventually_and _ _ Hp Hb)|]. intros f [Hf Hf']. cbn [parseline]. rewrite Hf. cbn [mbind outcome_bind]. rewrite Hf'. cbn [mbind outcome_bind]. by rewrite Hpk.
Qed.

Lemma list_line l r : back_ok l -> line_ok r -> line_ok (LIST l r).
Proof.
  intros Hl Hr k s Hs Hlx Hk. cbn in Hlx. rewrite <- app_assoc in Hlx. cbn in Hlx.
  destruct (back_end l _ s Hl Hs Hlx) as (c0 & s0 & c & s1 & Hp & Hb & Hsp & Hl1 & Hs1); [by right|].
  destruct (peek_yes s1 59%Z _ Hs1 ltac:(set_solver) Hl1) as (s2 & q & eq & s3 & Hpk & Hg & Hl3 & Hs3).
  destruct (Hr k s3 Hs3 Hl3 Hk) as (c' & s4 & Hp' & Hsp' & Hl4 & Hs4). exists (LIST c c'), s4. split_and!; [|by constructor|done|done].
  eapply eventually_S; [exact (eventually_and _ _ Hp (eventually_and _ _ Hb Hp'))|]. intros f (Hf & Hf1 & Hf2). cbn [parseline].
  rewrite Hf. cbn [mbind outcome_bind]. rewrite Hf1. cbn [mbind outcome_bind]. rewrite Hpk, Hg, Hf2. done.
Qed.

Lemma block_exec a : print 0 a = TSym 40 :: print 3 a ++ [TSym 41] -> line_ok a -> exec_ok a.
Proof.
  intros He H rs' k s Hrs Hs Hl Hk. rewrite He in Hl. cbn in Hl. rewrite <- app_assoc in Hl. cbn in Hl.
  destruct (peek_yes s 40%Z _ Hs ltac:(set_solver) Hl) as (s1 & _ & _ & _ & Hpk & _).
  assert (Hs1 : lx s1 = lx s /\ s1 <= L). { destruct (peek_at s [40]%Z _ Hs ltac:(set_solver) eq_refl) as (s1' & Hpk' & ? & ?). rewrite Hpk' in Hpk. injection Hpk as _ <-. split; [done|lia]. }
  destruct Hs1 as [Hl1 Hs1]. rewrite Hl in Hl1.
  destruct (peek_yes s1 40%Z _ Hs1 ltac:(set_solver) Hl1) as (s2 & q & eq & s3 & Hpk2 & Hg & Hl3 & Hs3).
  destruct (H (TSym 41 :: redirs_toks rs' ++ k) s3 Hs3 Hl3) as (c & s4 & Hp & Hsp & Hl4 & Hs4); [by right|].
  destruct (peek_yes s4 41%Z _ Hs4 ltac:(set_solver) Hl4) as (s5 & q' & eq' & s6 & Hpk5 & Hg5 & Hl6 & Hs6).
  destruct (parseredirs_ok rs' Hrs s6 k Hs6 Hl6) as (rs & s7 & Hr & Hrs7 & Hl7 & Hs7); [by eapply follows_not|].
  exists (wrap c rs), s7. split_and!; [|by apply spells_wrap|done|done].
  assert (Hb : eventually (fun f => parseblock t f s1 = Ret (wrap c rs, s7))).
  { eapply eventually_S; [exact (eventually_and _ _ Hp (eventually_ge (length rs')))|]. intros f [Hf Hf']. cbn [parseblock]. rewrite Hpk2, Hg. cbn [negb].
    rewrite Hf. cbn [mbind outcome_bind]. rewrite Hpk5, Hg5. cbn [negb]. rewrite Hr by done. done. }
  eapply eventually_S; [exact Hb|]. intros f Hf. cbn [parseexec]. by rewrite Hpk.
Qed.

Lemma exec_exec ws : length ws < MAXARGS -> exec_ok (EXEC ws).
Proof.
  intros Hlen rs' k s Hrs Hs Hl Hk. cbn [print] in Hl.
  destruct (peek_at s [40]%Z _ Hs ltac:(set_solver) eq_refl) as (s1 & Hpk & Hl1 & Hs1).
  replace (is_sym (lx s) [40]%Z) with false in Hpk.
  2: { rewrite Hl. destruct ws as [|w ws]; [|done]. destruct Hrs as [|r rs' Hr _]; [cbn; symmetry; by eapply follows_not|].
       destruct (redir_ok_toks r Hr) as (c & Ht & Hc). unfold redirs_toks. cbn [fmap list_fmap concat]. rewrite Ht. cbn. destruct Hc as [(-> & _)|(-> & _)]; done. }
  rewrite Hl in Hl1. destruct ws as [|w ws].
  - destruct (parseredirs_ok rs' Hrs s1 k) as (rs & s2 & Hp & Hrs2 & Hl2 & Hs2); [lia|done|by eapply follows_not|].
    destruct (parseargs_end s2 k Hs2 Hl2 Hk) as (s3 & He & Hl3 & Hs3). exists (wrap (EXEC []) rs), s3. split_and!; [|apply spells_wrap; [by constructor|done]|done|done].
    eapply eventually_S; [exact (eventually_ge (length rs'))|]. intros f Hf. cbn beta in Hf. cbn [parseexec]. rewrite Hpk, Hp by lia. cbn [mbind outcome_bind]. rewrite He by lia. done.
  - destruct (parseredirs_ok [] (Forall_nil_2 _) s1 _ ltac:(lia) Hl1) as (rs0 & s2 & Hp & Hrs2 & Hl2 & Hs2); [done|]. apply Forall2_nil_inv_r in Hrs2 as ->.
    destruct (parseargs_ok (w :: ws) rs' k Hrs Hk ltac:(done) s2 Hs2 Hl2) as (xs & rs & s3 & He & Hxs & Hrs3 & Hl3 & Hs3).
    exists (wrap (EXEC xs) rs), s3. split_and!; [|apply spells_wrap; [by constructor|done]|done|done].
    eapply eventually_S; [exact (eventually_ge (length (w :: ws) + length rs' + 1))|]. intros f Hf. cbn beta in Hf. cbn [parseexec]. rewrite Hpk, Hp by (cbn; lia). cbn [mbind outcome_bind app].
    rewrite He by (cbn in *; lia). done.
Qed.

Lemma redir_exec a r : redir_ok r -> exec_ok a -> exec_ok (REDIR a r).
Proof.
  intros Hr H rs' k s Hrs Hs Hl Hk. cbn [print] in Hl. rewrite <- app_assoc in Hl. apply (H (r :: rs') k s); [by constructor|done| |done].
  change (redirs_toks (r :: rs')) with (redir_toks r ++ redirs_toks rs'). by rewrite <- app_assoc.
Qed.

Lemma all_ok a : cmd_ok a -> exec_ok a /\ pipe_ok a /\ back_ok a /\ line_ok a.
Proof.
  induction a as [ws|a IH r|l IHl r IHr|l IHl r IHr|a IH]; cbn [cmd_ok].
  - intros Hw. assert (He : exec_ok (EXEC ws)) by by apply exec_exec. assert (Hp : pipe_ok (EXEC ws)) by by apply exec_pipe.
    assert (Hb : back_ok (EXEC ws)) by by apply pipe_back. split_and!; [done..|by apply back_line].
  - intros [Ha Hr]. assert (He : exec_ok (REDIR a r)) by (apply redir_exec; [done|by apply IH]). assert (Hp : pipe_ok (REDIR a r)) by by apply exec_pipe.
    assert (Hb : back_ok (REDIR a r)) by by apply pipe_back. split_and!; [done..|by apply back_line].
  - intros [Hl Hr]. assert (Hp : pipe_ok (PIPE l r)) by (apply pipe_pipe; [by apply IHl|by apply IHr]).
    assert (Hb : back_ok (PIPE l r)) by by apply pipe_back. assert (Hli : line_ok (PIPE l r)) by by apply back_line. split_and!; [by apply block_exec|done..].
  - intros [Hl Hr]. assert (Hli : line_ok (LIST l r)) by (apply list_line; [by apply IHl|by apply IHr]). assert (He : exec_ok (LIST l r)) by by apply block_exec.
    assert (Hp : pipe_ok (LIST l r)) by by apply exec_pipe. split_and!; [done|done|by apply pipe_back|done].
  - intros Ha. assert (Hb : back_ok (BACK a)) by (apply back_back; by apply IH). assert (Hli : line_ok (BACK a)) by by apply back_line.
    assert (He : exec_ok (BACK a)) by by apply block_exec. split_and!; [done|by apply exec_pipe|done|done].
Qed.

(** ** Every line *)

Lemma skip_ws_end s : s <= L -> lx s = [] -> skip_ws t s = L.
Proof.
  intros Hs Hl. destruct (skip_ws_spec t s Hs) as (a & _ & _ & Hle & Hx & Hst). rewrite Hl in Hx. unfold ShLex.lx in Hx.
  destruct (next_cases _ Hst) as [Hu|[(c & u & Hu & Hc & Hsym)|(w & b & Hu & Hne & Hw & Hb)]].
  - apply (f_equal length) in Hu. rewrite length_drop in Hu. cbn in Hu. lia.
  - rewrite Hu, lex_sym in Hx by done. destruct u as [|d u]; [done|]. by destruct (decide _).
  - by rewrite Hu, lex_word in Hx.
Qed.

Lemma token_any s : s <= L -> exists tok q eq s', gettoken t s = (tok, q, eq, s') /\ s <= s' <= L /\
  (tok = 0%Z \/ s < s') /\ (tok = 97%Z -> exists w, names (q, eq) w).
Proof.
  intros Hs. pose proof (gettoken_spec t nonul s Hs) as H. destruct (lex (drop s t)) as [|k rest] eqn:E; unfold ShLex.lx in H; rewrite E in H.
  - rewrite H. eexists _, _, _, _. split_and!; [done|lia|lia|by left|done].
  - destruct H as (q & eq & s' & -> & Hs' & _ & Hw). eexists _, _, _, _. split_and!; [done|lia|lia|right; lia|].
    intros Hc. destruct k as [w|c|]; [exists w; by apply Hw| |done]. exfalso. cbn in Hc. subst c.
    pose proof (lex_syms (drop s t)) as Hf. rewrite E in Hf. by inversion Hf.
Qed.

Lemma peek_any s toks : s <= L -> toks ⊆ symbols -> exists b s', peek t s toks = (b, s') /\ s <= s' <= L /\ (b = true -> lx s' <> []).
Proof.
  intros Hs Ht. destruct (peek_at s toks _ Hs Ht eq_refl) as (s' & Hp & Hl & Hs'). exists (is_sym (lx s) toks), s'. split_and!; [done|lia|lia|].
  rewrite Hl. by destruct (lx s).
Qed.

Lemma token_some s : s <= L -> lx s <> [] -> exists tok q eq s', gettoken t s = (tok, q, eq, s') /\ s < s' <= L.
Proof.
  intros Hs Hne. destruct (lx s) as [|k rest] eqn:E; [done|]. destruct (take_token s k rest Hs E) as (q & eq & s' & -> & _ & Hs' & _). by eexists _, q, eq, s'.
Qed.

(** The outcome of a parser on any input: a command of maximal words, or a
    message. *)
Definition fine {A} (P : A -> Prop) (s : nat) (r : outcome (A * nat)) : Prop :=
  match r with Ret (c, s') => s <= s' <= L /\ P c | Panic _ => True | _ => False end.

Lemma fine_bind {A B} (P : A -> Prop) (Q : B -> Prop) s r (k : A * nat -> outcome (B * nat)) :
  fine P s r -> (forall c s', s <= s' <= L -> P c -> fine Q s' (k (c, s'))) -> fine Q s (r ≫= k).
Proof.
  destruct r as [[c s']| | |]; cbn; try done. intros [Hs HP] Hk. specialize (Hk c s' Hs HP). destruct (k (c, s')) as [[c' s'']| | |]; cbn in *; try done. intuition lia.
Qed.
Lemma fine_weaken {A} (P : A -> Prop) s s' r : s <= s' -> fine P s' r -> fine P s r.
Proof. destruct r as [[c s'']| | |]; cbn; try done. intuition lia. Qed.

Definition a_cmd (c : cmd span) : Prop := exists a, cmd_ok a /\ spells c a.
Definition some_redirs (rs : list (redir span)) : Prop := exists rs', Forall redir_ok rs' /\ Forall2 names_redir rs rs'.

Lemma parseredirs_total fuel acc s : s <= L -> L - s < fuel -> some_redirs acc -> fine some_redirs s (parseredirs t fuel acc s).
Proof.
  revert acc s. induction fuel as [|fuel IH]; intros acc s Hs Hf Hacc; [lia|]. cbn [parseredirs].
  destruct (peek_any s [60; 62]%Z Hs ltac:(set_solver)) as (b & s1 & -> & Hs1 & Hb). destruct b; [|split; [lia|done]].
  destruct (token_some s1 ltac:(lia) (Hb eq_refl)) as (tok & q & eq & s2 & -> & Hs2).
  destruct (token_any s2 ltac:(lia)) as (tok' & q' & eq' & s3 & -> & Hs3 & _ & Hw). destruct (decide _) as [|Hd]; [done|]. apply dec_stable in Hd. destruct (Hw Hd) as [w Hn].
  eapply fine_weaken; [|apply IH]; [lia|lia|lia|]. destruct Hacc as (rs' & Hok & Hrs).
  destruct (decide (tok = 60%Z)); [exists (rs' ++ [mkRedir w O_RDONLY 0])|exists (rs' ++ [mkRedir w O_WRONLY_CREATE 1])];
    (split; [apply Forall_app; split; [done|constructor; [|done]]|apply Forall2_app; [done|constructor; [done|done]]]); [by left|by right].
Qed.

Definition some_args (x : list span * list (redir span)) : Prop := (exists ws, length ws < MAXARGS /\ Forall2 names (fst x) ws) /\ some_redirs (snd x).

Lemma parseargs_total fuel argv rs s : s <= L -> L - s < fuel -> some_args (argv, rs) -> fine some_args s (parseargs t fuel argv rs s).
Proof.
  revert argv rs s. induction fuel as [|fuel IH]; intros argv rs s Hs Hf Hacc; [lia|]. cbn [parseargs].
  destruct (peek_any s [124; 41; 38; 59]%Z Hs ltac:(set_solver)) as (b & s1 & -> & Hs1 & _). destruct b; [split; [lia|done]|].
  destruct (token_any s1 ltac:(lia)) as (tok & q & eq & s2 & -> & Hs2 & Hz & Hw). destruct (decide (tok = 0%Z)) as [|Hnz]; [split; [lia|done]|].
  destruct (decide (tok <> 97%Z)) as [|Hd]; [done|]. apply dec_stable in Hd. destruct (Hw Hd) as [w Hn]. destruct (decide _) as [|Hmax]; [done|].
  destruct Hacc as [(ws & Hlen & Hws) Hrs]. destruct Hz as [|Hlt]; [done|]. eapply fine_weaken; [|eapply fine_bind; [apply (parseredirs_total fuel rs s2)|]]; [lia|lia|lia|done|].
  intros rs' s3 Hs3 Hrs'. apply IH; [lia|lia|]. split; [|done]. exists (ws ++ [w]). cbn in *. apply Forall2_length in Hws as Hlw. rewrite !length_app in *. cbn in *.
  split; [lia|]. by apply Forall2_app; [|constructor; [done|constructor]].
Qed.

Lemma parsebacks_total fuel c s : s <= L -> L - s < fuel -> a_cmd c -> fine a_cmd s (parsebacks t fuel c s).
Proof.
  revert c s. induction fuel as [|fuel IH]; intros c s Hs Hf Hc; [lia|]. cbn [parsebacks].
  destruct (peek_any s [38]%Z Hs ltac:(set_solver)) as (b & s1 & -> & Hs1 & Hb). destruct b; [|split; [lia|done]].
  destruct (token_some s1 ltac:(lia) (Hb eq_refl)) as (tok & q & eq & s2 & -> & Hs2). eapply fine_weaken; [|apply IH]; [lia|lia|lia|].
  destruct Hc as (a & Ha & Hsp). exists (BACK a). split; [done|by constructor].
Qed.

Lemma a_cmd_wrap c rs : a_cmd c -> some_redirs rs -> a_cmd (wrap c rs).
Proof.
  intros (a & Ha & Hc) (rs' & Hok & Hrs). exists (wrap a rs'). split; [|by apply spells_wrap]. clear Hc Hrs. revert a Ha. induction Hok as [|r rs' Hr _ IH]; intros a Ha; [done|]. by apply IH.
Qed.

(** The four parsers, with the number of nested calls they may need. *)
Lemma parse_total fuel : forall s, s <= L ->
  (4 * (L - s) + 4 <= fuel -> fine a_cmd s (parseline t fuel s)) /\ (4 * (L - s) + 3 <= fuel -> fine a_cmd s (parsepipe t fuel s)) /\
  (4 * (L - s) + 2 <= fuel -> fine a_cmd s (parseexec t fuel s)) /\ (4 * (L - s) + 1 <= fuel -> lx s <> [] -> fine a_cmd s (parseblock t fuel s)).
Proof.
  induction fuel as [|fuel IH]; intros s Hs; [split_and!; lia|]. split_and!; intros Hf; cbn [parseline parsepipe parseexec parseblock].
  - eapply fine_bind; [apply IH; lia|]. intros c s1 Hs1 Hc. eapply fine_bind; [apply parsebacks_total; [lia|lia|done]|]. intros c' s2 Hs2 Hc'.
    destruct (peek_any s2 [59]%Z ltac:(lia) ltac:(set_solver)) as (b & s3 & -> & Hs3 & Hb). destruct b; [|split; [lia|done]].
    destruct (token_some s3 ltac:(lia) (Hb eq_refl)) as (tok & q & eq & s4 & -> & Hs4). eapply fine_weaken; [|eapply fine_bind; [apply (IH s4); lia|]]; [lia|].
    intros c2 s5 Hs5 (a2 & Ha2 & Hsp2). destruct Hc' as (a1 & Ha1 & Hsp1). split; [lia|]. exists (LIST a1 a2). split; [done|by constructor].
  - eapply fine_bind; [apply IH; lia|]. intros c s1 Hs1 Hc.
    destruct (peek_any s1 [124]%Z ltac:(lia) ltac:(set_solver)) as (b & s2 & -> & Hs2 & Hb). destruct b; [|split; [lia|done]].
    destruct (token_some s2 ltac:(lia) (Hb eq_refl)) as (tok & q & eq & s3 & -> & Hs3). eapply fine_weaken; [|eapply fine_bind; [apply (IH s3); lia|]]; [lia|].
    intros c2 s4 Hs4 (a2 & Ha2 & Hsp2). destruct Hc as (a1 & Ha1 & Hsp1). split; [lia|]. exists (PIPE a1 a2). split; [done|by constructor].
  - destruct (peek_any s [40]%Z Hs ltac:(set_solver)) as (b & s1 & -> & Hs1 & Hb). destruct b; [eapply fine_weaken; [|apply (IH s1)]; [lia|lia|lia|by apply Hb]|].
    eapply fine_weaken; [|eapply fine_bind; [apply (parseredirs_total fuel [] s1); [lia|lia|by exists []]|]]; [lia|]. intros rs s2 Hs2 Hrs.
    eapply fine_bind; [apply parseargs_total; [lia|lia|split; [exists []; split; [unfold MAXARGS; cbn; lia|done]|done]]|].
    intros [argv rs'] s3 Hs3 [(ws & Hlen & Hws) Hrs']. split; [lia|]. apply a_cmd_wrap; [|done]. exists (EXEC ws). split; [done|by constructor].
  - intros Hne. destruct (peek_any s [40]%Z Hs ltac:(set_solver)) as (b & s1 & -> & Hs1 & Hb). destruct b; [cbn [negb]|done].
    destruct (token_some s1 ltac:(lia) (Hb eq_refl)) as (tok & q & eq & s2 & -> & Hs2). eapply fine_weaken; [|eapply fine_bind; [apply (IH s2); lia|]]; [lia|]. intros c s3 Hs3 Hc.
    destruct (peek_any s3 [41]%Z ltac:(lia) ltac:(set_solver)) as (b & s4 & -> & Hs4 & Hb'). destruct b; [cbn [negb]|done].
    destruct (token_some s4 ltac:(lia) (Hb' eq_refl)) as (tok' & q' & eq' & s5 & -> & Hs5). eapply fine_weaken; [|eapply fine_bind; [apply (parseredirs_total fuel [] s5); [lia|lia|by exists []]|]]; [lia|].
    intros rs s6 Hs6 Hrs. split; [lia|]. by apply a_cmd_wrap.
Qed.

(** ** More calls change nothing *)

Definition settled {A} (r r' : outcome A) : Prop := match r with Hang _ => True | _ => r' = r end.

Lemma settled_refl {A} (r : outcome A) : settled r r.
Proof. by destruct r. Qed.
Lemma settled_bind {A B} (r r' : outcome A) (k k' : A -> outcome B) : settled r r' -> (forall a, settled (k a) (k' a)) -> settled (r ≫= k) (r' ≫= k').
Proof. intros Hr Hk. destruct r; cbn in *; subst; cbn; done || apply Hk. Qed.

Ltac settle :=
  repeat match goal with
  | |- settled (let '(_, _) := ?x in _) _ => destruct x
  | |- settled (if ?b then _ else _) _ => destruct b
  end.

Lemma parseredirs_settled f rs s : settled (parseredirs t f rs s) (parseredirs t (S f) rs s).
Proof.
  revert rs s. induction f as [|f IH]; intros rs s; [done|]. cbn [parseredirs]. settle; try apply settled_refl. apply IH.
Qed.
Lemma parseargs_settled f argv rs s : settled (parseargs t f argv rs s) (parseargs t (S f) argv rs s).
Proof.
  revert argv rs s. induction f as [|f IH]; intros argv rs s; [done|]. cbn [parseargs]. settle; try apply settled_refl.
  apply settled_bind; [apply parseredirs_settled|]. intros [rs' s']. apply IH.
Qed.
Lemma parsebacks_settled f c s : settled (parsebacks t f c s) (parsebacks t (S f) c s).
Proof. revert c s. induction f as [|f IH]; intros c s; [done|]. cbn [parsebacks]. settle; try apply settled_refl. apply IH. Qed.

Lemma parse_settled f : forall s, settled (parseline t f s) (parseline t (S f) s) /\ settled (parsepipe t f s) (parsepipe t (S f) s) /\
  settled (parseexec t f s) (parseexec t (S f) s) /\ settled (parseblock t f s) (parseblock t (S f) s).
Proof.
  induction f as [|f IH]; intros s; [done|]. split_and!; cbn [parseline parsepipe parseexec parseblock].
  - apply settled_bind; [apply IH|]. intros [c s1]. apply settled_bind; [apply parsebacks_settled|]. intros [c' s2]. settle; try apply settled_refl.
    apply settled_bind; [apply IH|]. intros [c2 s3]. apply settled_refl.
  - apply settled_bind; [apply IH|]. intros [c s1]. settle; try apply settled_refl. apply settled_bind; [apply IH|]. intros [c2 s3]. apply settled_refl.
  - settle; [apply IH|]. apply settled_bind; [apply parseredirs_settled|]. intros [rs s1]. apply settled_bind; [apply parseargs_settled|]. intros [[argv rs'] s2]. apply settled_refl.
  - settle; try apply settled_refl. apply settled_bind; [apply IH|]. intros [c s1]. settle; try apply settled_refl.
    apply settled_bind; [apply parseredirs_settled|]. intros [rs s2]. apply settled_refl.
Qed.

Lemma parseline_mono f f' s : f <= f' -> settled (parseline t f s) (parseline t f' s).
Proof.
  induction 1 as [|f' _ IH]; [apply settled_refl|]. pose proof (proj1 (parse_settled f' s)) as H. destruct (parseline t f s) eqn:E; cbn in *; try done; by rewrite IH in H.
Qed.

(** ** The NULs *)

Fixpoint ends (c : cmd span) : list nat :=
  match c with
  | EXEC argv => snd <$> argv
  | REDIR c r => ends c ++ [snd (r_file r)]
  | PIPE l r | LIST l r => ends l ++ ends r
  | BACK c => ends c
  end.
Definition zero_at (b : list Z) (es : list nat) : list Z := foldl (fun b e => <[e := 0%Z]> b) b es.

Lemma nulterminate_ends c b : nulterminate c b = zero_at b (ends c).
Proof.
  unfold zero_at. revert b. induction c as [argv|c IH r|l IHl r IHr|l IHl r IHr|c IH]; intros b; cbn.
  - revert b. induction argv as [|x argv IH]; intros b; cbn; [done|]. apply IH.
  - by rewrite foldl_app, IH.
  - by rewrite foldl_app, IHl, IHr.
  - by rewrite foldl_app, IHl, IHr.
  - apply IH.
Qed.

Lemma zero_at_length b es : length (zero_at b es) = length b.
Proof. unfold zero_at. revert b. induction es as [|e es IH]; intros b; cbn; [done|]. by rewrite IH, length_insert. Qed.
Lemma zero_at_other b es i : i ∉ es -> zero_at b es !! i = b !! i.
Proof. unfold zero_at. revert b. induction es as [|e es IH]; intros b Hi; cbn; [done|]. apply not_elem_of_cons in Hi as [Hne Hi]. rewrite IH by done. by apply list_lookup_insert_ne. Qed.
Lemma zero_at_in b es i : i ∈ es -> i < length b -> zero_at b es !! i = Some 0%Z.
Proof.
  unfold zero_at. revert b. induction es as [|e es IH]; intros b Hi Hb; [by apply elem_of_nil in Hi|]. cbn. destruct (decide (i ∈ es)) as [Hin|Hin].
  - apply IH; [done|]. by rewrite length_insert.
  - apply elem_of_cons in Hi as [->|Hi]; [|done]. change (zero_at (<[e := 0%Z]> b) es !! e = Some 0%Z). rewrite zero_at_other by done. by apply list_lookup_insert_eq.
Qed.

(** A word ends where the line ends or at a character that is not part of a
    word, so that the NULs do not touch the words. *)
Lemma word_at_char q w i : word_at t q w -> i < length w -> exists c, t !! (q + i) = Some c /\ w !! i = Some c /\ word_char c = true.
Proof.
  intros (a & b & Ht & Ha & _ & Hw & _) Hi. destruct (lookup_lt_is_Some_2 w i Hi) as [c Hc]. exists c. split_and!; [|done|by eapply (proj1 (Forall_lookup _ _) Hw)].
  rewrite Ht, lookup_app_r by lia. rewrite lookup_app_l by lia. rewrite <- Hc. f_equal. lia.
Qed.
Lemma word_at_end q w c : word_at t q w -> t !! (q + length w) = Some c -> word_char c = false.
Proof.
  intros (a & b & Ht & Ha & _ & _ & Hb). rewrite Ht, lookup_app_r by lia. rewrite lookup_app_r by lia. replace (q + length w - length a - length w) with 0 by lia.
  destruct b as [|d b]; [done|]. cbn in *. congruence.
Qed.
Lemma word_at_le q w : word_at t q w -> q + length w <= L.
Proof. intros (a & b & Ht & Ha & _). rewrite Ht, !length_app. lia. Qed.

Lemma ends_boundary c a e : spells c a -> e ∈ ends c -> e <= L /\ forall d, t !! e = Some d -> word_char d = false.
Proof.
  assert (Hn : forall x w, names x w -> snd x <= L /\ forall d, t !! (snd x) = Some d -> word_char d = false).
  { intros x w [Hw ->]. split; [by apply word_at_le|]. intros d. by apply word_at_end. }
  induction 1 as [xs ws Hxs|c a r r' _ IH [Hr _]|c c' a a' _ IH _ IH'|c c' a a' _ IH _ IH'|c a _ IH]; cbn; [|rewrite elem_of_app..|done].
  - intros (x & -> & Hx)%list_elem_of_fmap. apply list_elem_of_lookup in Hx as [i Hi]. destruct (Forall2_lookup_l _ _ _ _ _ Hxs Hi) as (w & _ & Hw). by eapply Hn.
  - intros [He|He]; [by apply IH|]. apply list_elem_of_singleton in He as ->. by eapply Hn.
  - intros [He|He]; [by apply IH|by apply IH'].
  - intros [He|He]; [by apply IH|by apply IH'].
Qed.

Lemma cstring_word b q w : word_at t q w -> (forall i c, t !! i = Some c -> word_char c = true -> b !! i = Some c) -> b !! (q + length w) = Some 0%Z -> cstring (drop q b) = w.
Proof.
  intros Hw Hb Hz. assert (Hd : exists u, drop q b = w ++ 0%Z :: u).
  { exists (drop (S (q + length w)) b). apply list_eq. intros i. rewrite lookup_drop. destruct (decide (i < length w)) as [Hi|Hi].
    - destruct (word_at_char q w i Hw Hi) as (c & Ht & Hc & Hwc). rewrite lookup_app_l, Hc by lia. by apply Hb.
    - rewrite lookup_app_r by lia. destruct (decide (i = length w)) as [->|Hne]; [by rewrite Nat.sub_diag|].
      replace (i - length w) with (S (i - length w - 1)) by lia. change (b !! (q + i) = drop (S (q + length w)) b !! (i - length w - 1)). rewrite lookup_drop. f_equal. lia. }
  destruct Hd as [u ->]. assert (Hnz : Forall (fun c => c <> 0%Z) w).
  { destruct Hw as (a & b' & Ht & _). rewrite Ht in nonul. apply Forall_app in nonul as [_ Hn]. by apply Forall_app in Hn as [Hn _]. }
  clear - Hnz. induction Hnz as [|c w Hc _ IH]; cbn; [done|]. rewrite decide_False by done. by rewrite IH.
Qed.

Lemma strings_spelled c a b : spells c a -> (forall i c, t !! i = Some c -> word_char c = true -> b !! i = Some c) ->
  (forall e, e ∈ ends c -> b !! e = Some 0%Z) -> strings b c = a.
Proof.
  intros Hsp Hb. assert (Hn : forall x w, names x w -> b !! (snd x) = Some 0%Z -> cstring (drop (fst x) b) = w).
  { intros x w [Hw He] Hz. apply cstring_word; [done|done|congruence]. }
  induction Hsp as [xs ws Hxs|c a r r' _ IH (Hr & Hm & Hd)|c c' a a' _ IH _ IH'|c c' a a' _ IH _ IH'|c a _ IH]; cbn; intros He.
  - f_equal. induction Hxs as [|x w xs ws Hx _ IH]; cbn in *; [done|]. f_equal; [apply Hn; [done|apply He; by left]|apply IH; intros e Hin; apply He; by right].
  - rewrite IH by (intros e Hin; apply He; apply elem_of_app; by left). rewrite (Hn _ _ Hr) by (apply He; apply elem_of_app; right; by left).
    rewrite Hm, Hd. by destruct r'.
  - rewrite IH, IH'; [done|intros e Hin; apply He; apply elem_of_app; by right|intros e Hin; apply He; apply elem_of_app; by left].
  - rewrite IH, IH'; [done|intros e Hin; apply He; apply elem_of_app; by right|intros e Hin; apply He; apply elem_of_app; by left].
  - by rewrite IH.
Qed.

(** The buffer after [nulterminate] holds the words of the command. *)
Lemma nulterminate_strings c a n : spells c a -> 1 <= n -> strings (nulterminate c (t ++ replicate n 0%Z)) c = a.
Proof.
  intros Hsp Hn. rewrite nulterminate_ends. apply strings_spelled; [done| |].
  - intros i d Hi Hd. rewrite zero_at_other; [by rewrite lookup_app_l by (by eapply lookup_lt_Some)|].
    intros He. destruct (ends_boundary _ _ _ Hsp He) as [_ Hx]. by rewrite (Hx d Hi) in Hd.
  - intros e He. destruct (ends_boundary _ _ _ Hsp He) as [Hle _]. apply zero_at_in; [done|]. rewrite length_app, length_replicate. lia.
Qed.
End Text.
(** ** The theorems *)

Lemma parsecmd_reads t n a : Forall (fun c => c <> 0%Z) t -> 1 <= n -> cmd_ok a -> lex t = print 3 a ->
  exists c b, parsecmd t n = Ret (c, b) /\ strings b c = a.
Proof.
  intros Hnz Hn Ha Hl. destruct (all_ok t Hnz a Ha) as (_ & _ & _ & Hline).
  destruct (Hline [] 0 ltac:(lia)) as (c & s & [f0 Hp] & Hsp & Hls & Hs); [unfold lx; cbn; by rewrite app_nil_r|by left|].
  assert (Hret : parseline t (enough t) 0 = Ret (c, s)).
  { pose proof (proj1 (parse_total t Hnz (enough t) 0 ltac:(lia)) ltac:(unfold enough; lia)) as Hf. pose proof (parseline_mono t (enough t) (max f0 (enough t)) 0 ltac:(lia)) as Hm.
    rewrite (Hp (max f0 (enough t))) in Hm by lia. destruct (parseline t (enough t) 0); cbn in *; by try done. }
  unfold parsecmd. rewrite Hret. cbn [mbind outcome_bind]. rewrite (peek_spec t Hnz s [] Hs) by set_solver. rewrite skip_ws_end by done.
  rewrite decide_False by naive_solver. eexists _, _. split; [done|]. by apply nulterminate_strings.
Qed.

(** C21. The shell reads commands back from their text: if the tokens of a line
    are those of a command (with parentheses where the grammar needs them, and
    any white space), [parsecmd] returns that command, and after [nulterminate]
    the strings in the line buffer are its words. *)
Theorem parsecmd_print t n a : Forall (fun c => c <> 0%Z) t -> 1 <= n -> cmd_ok a -> lex t = print 3 a ->
  exists c b, parsecmd t n = Ret (c, b) /\ strings b c = a.
Proof. apply parsecmd_reads. Qed.

(** C39. On every line [parsecmd] returns or stops with a message: it never
    loops or leaves the line.  A command it returns is one [cmd_ok] allows, and
    its strings are maximal words of the line. *)
Theorem parsecmd_total t n : Forall (fun c => c <> 0%Z) t -> 1 <= n ->
  match parsecmd t n with
  | Ret (c, b) => cmd_ok (strings b c) /\ spells t c (strings b c) /\ length b = length t + n
  | Panic _ => True
  | _ => False
  end.
Proof.
  intros Hnz Hn. unfold parsecmd. pose proof (proj1 (parse_total t Hnz (enough t) 0 ltac:(lia)) ltac:(unfold enough; lia)) as Hf.
  destruct (parseline t (enough t) 0) as [[c s]| | |]; cbn in *; try done. destruct Hf as [_ (a & Ha & Hsp)]. destruct (decide _); [done|].
  rewrite (nulterminate_strings t Hnz c a n Hsp Hn), nulterminate_ends, zero_at_length, length_app, length_replicate. done.
Qed.

(** ** Instances *)

(** The characters of a line. *)
Definition text (s : string) : list Z := (fun c => Z.of_N (Ascii.N_of_ascii c)) <$> String.list_ascii_of_string s.

(** [ls  -l|wc>out ; (sleep 9;echo done)&] *)
Definition demo_line : list Z := text "ls  -l|wc>out ; (sleep 9;echo done)&".
Definition demo_cmd : cmd (list Z) :=
  LIST (PIPE (EXEC [text "ls"; text "-l"]) (REDIR (EXEC [text "wc"]) (mkRedir (text "out") O_WRONLY_CREATE 1)))
    (BACK (LIST (EXEC [text "sleep"; text "9"]) (EXEC [text "echo"; text "done"]))).

Lemma nonzero_dec (l : list Z) : forallb (fun c => negb (bool_decide (c = 0%Z))) l = true -> Forall (fun c => c <> 0%Z) l.
Proof. rewrite forallb_forall, Forall_forall. intros H c Hc. specialize (H c). rewrite list_elem_of_In in Hc. specialize (H Hc). by rewrite negb_true_iff, bool_decide_eq_false in H. Qed.

Lemma parsecmd_print_witness : lex demo_line = print 3 demo_cmd /\ exists c b, parsecmd demo_line 64 = Ret (c, b) /\ strings b c = demo_cmd.
Proof.
  split; [by vm_compute|]. apply (parsecmd_print demo_line 64 demo_cmd); [by apply nonzero_dec; vm_compute|lia| |by vm_compute].
  cbn. unfold MAXARGS, redir_ok. cbn. split_and!; lia || by right.
Defined.

Lemma parsecmd_total_witness :
  match parsecmd demo_line 64 with
  | Ret (c, b) => cmd_ok (strings b c) /\ spells demo_line c (strings b c) /\ length b = length demo_line + 64
  | Panic _ => True
  | _ => False
  end.
Proof. apply (parsecmd_total demo_line 64); [by apply nonzero_dec; vm_compute|lia]. Defined.

(** Errors: a missing file name, a missing parenthesis, ten arguments, and a
    word after a block. *)
Example parse_errors :
  parsecmd (text "ls >") 9 = Panic "missing file for redirection" /\ parsecmd (text "(ls") 9 = Panic "syntax - missing )" /\
  parsecmd (text "a b c d e f g h i j") 9 = Panic "too many args" /\ parsecmd (text "(ls) x") 9 = Panic "syntax".
Proof. by vm_compute. Qed.

(** [>>] opens the file like [>]: nothing is appended. *)
Example append_overwrites : ('(c, b) ← parsecmd (text "ls>>f") 9; Ret (strings b c)) = ('(c, b) ← parsecmd (text "ls>f") 9; Ret (strings b c)).
Proof. by vm_compute. Qed.

End ShParse.
