(* ===== verification/ShRun.v ===== *)
(** * The shell: running a command

    The descriptors with which the programs of a command line are started:
    redirections and pipes change the standard input and output of exactly the
    programs they apply to, and no program inherits a pipe end beyond these. *)
From S2P Require Export ShParse.

Module ShRun.
Export ShParse.

(** The programs a process tree starts, with their descriptor tables. *)
Fixpoint execs (p : ptree) : list (list (list Z) * fds) :=
  match p with
  | Exit => []
  | Exec argv f => [(argv, f)]
  | Fork child parent => execs child ++ execs parent
  | Wait k | Complain _ _ k => execs k
  end.

(** The programs of a command with the standard input and output each should
    have. *)
Fixpoint plan (c : cmd (list Z)) (place : list bool) (i o : obj) : list (list (list Z) * (obj * obj)) :=
  match c with
  | EXEC [] => []
  | EXEC argv => [(argv, (i, o))]
  | REDIR c r => let x := File (r_file r) (r_mode r) in if decide (r_fd r = 0) then plan c place x o else plan c place i x
  | PIPE l r => plan l (place ++ [false]) i (PipeW place) ++ plan r (place ++ [true]) (PipeR place) o
  | LIST l r => plan l (place ++ [false]) i o ++ plan r (place ++ [true]) i o
  | BACK c => plan c (place ++ [false]) i o
  end.

(** A table whose first three entries are open. *)
Definition table (i o e : obj) (rest : fds) : fds := Some i :: Some o :: Some e :: rest.
Definition started (e : obj) (rest : fds) (x : list (list Z) * (obj * obj)) : list (list Z) * fds := (fst x, table (fst (snd x)) (snd (snd x)) e rest).

(** There is room for a pipe. *)
Definition two_free (f : fds) : Prop := exists p q, p <> q /\ f !! p = Some None /\ f !! q = Some None.

Lemma lowest_Some f i : lowest f = Some i -> f !! i = Some None.
Proof. revert i. induction f as [|[x|] f IH]; intros i; cbn; [done| |by intros [= <-]]. destruct (lowest f) as [j|]; cbn; [|done]. intros [= <-]. by apply IH. Qed.
Lemma lowest_ex f p : f !! p = Some None -> exists i, lowest f = Some i.
Proof.
  revert p. induction f as [|[x|] f IH]; intros p Hp; cbn; [done| |by eexists]. destruct p as [|p]; [done|]. destruct (IH p Hp) as [i ->]. by eexists.
Qed.

(** Two entries used and freed again. *)
Lemma entries_back (f : fds) p q x y : p <> q -> f !! p = Some None -> f !! q = Some None -> <[q := None]> (<[p := None]> (<[q := y]> (<[p := x]> f))) = f.
Proof.
  intros Hne Hp Hq. rewrite (list_insert_insert_ne (<[p := x]> f) p q) by done. rewrite (list_insert_insert_eq f p). rewrite (list_insert_id f p) by done.
  rewrite (list_insert_insert_eq f q). by apply (list_insert_id f q).
Qed.

Lemma fd_new_table x i o e rest p : lowest rest = Some p -> fd_new x (table i o e rest) = Some (3 + p, table i o e (<[p := Some x]> rest)).
Proof. intros Hp. unfold fd_new, table. cbn [lowest]. rewrite Hp. done. Qed.
Lemma close_table i o e rest p : close (3 + p) (table i o e rest) = table i o e (<[p := None]> rest).
Proof. done. Qed.
Lemma dup_out i o e rest q w : rest !! q = Some (Some w) -> dup (3 + q) (close 1 (table i o e rest)) = table i w e rest.
Proof. intros Hq. unfold dup. change (close 1 (table i o e rest) !! (3 + q)) with (rest !! q). by rewrite Hq. Qed.
Lemma dup_in i o e rest q w : rest !! q = Some (Some w) -> dup (3 + q) (close 0 (table i o e rest)) = table w o e rest.
Proof. intros Hq. unfold dup. change (close 0 (table i o e rest) !! (3 + q)) with (rest !! q). by rewrite Hq. Qed.

(** The tables of the two sides of a pipe. *)
Lemma pipe_tables i o e rest place : two_free rest ->
  exists p0 f0 p1 f1, fd_new (PipeR place) (table i o e rest) = Some (p0, f0) /\ fd_new (PipeW place) f0 = Some (p1, f1) /\
    close p1 (close p0 (dup p1 (close 1 f1))) = table i (PipeW place) e rest /\ close p1 (close p0 (dup p0 (close 0 f1))) = table (PipeR place) o e rest.
Proof.
  intros (a & b & Hab & Ha & Hb). destruct (lowest_ex rest a Ha) as [p Hp]. pose proof (lowest_Some _ _ Hp) as Hpn.
  assert (Hq : exists q, lowest (<[p := Some (PipeR place)]> rest) = Some q).
  { destruct (decide (p = a)) as [->|Hne]; [apply (lowest_ex _ b)|apply (lowest_ex _ a)]; by rewrite list_lookup_insert_ne. }
  destruct Hq as [q Hq]. pose proof (lowest_Some _ _ Hq) as Hqn. assert (Hlp : p < length rest) by (by eapply lookup_lt_Some).
  assert (Hpq : p <> q). { intros ->. by rewrite list_lookup_insert_eq in Hqn. }
  rewrite list_lookup_insert_ne in Hqn by done. assert (Hlq : q < length rest) by (by eapply lookup_lt_Some).
  eexists _, _, _, _. split; [by apply fd_new_table|]. split; [by apply fd_new_table|].
  rewrite (dup_out _ _ _ _ q (PipeW place)) by (apply list_lookup_insert_eq; by rewrite length_insert).
  rewrite (dup_in _ _ _ _ p (PipeR place)) by (rewrite list_lookup_insert_ne by done; by apply list_lookup_insert_eq).
  rewrite !close_table, !entries_back by done. done.
Qed.

Lemma redir_table i o e rest r : redir_ok r -> exists n, fd_new (File (r_file r) (r_mode r)) (close (r_fd r) (table i o e rest)) =
  Some (n, if decide (r_fd r = 0) then table (File (r_file r) (r_mode r)) o e rest else table i (File (r_file r) (r_mode r)) e rest).
Proof. intros [[_ ->]|[_ ->]]; eexists; done. Qed.

Section Oracles.
Context (open_ok : list Z -> Z -> bool) (pipe_ok : list bool -> bool) (fork_ok : list bool -> nat -> bool).
Context (e : obj) (rest : fds) (room : two_free rest).

Lemma runcmd_sublist c : cmd_ok c -> forall place i o,
  execs (runcmd open_ok pipe_ok fork_ok c place (table i o e rest)) `sublist_of` (started e rest <$> plan c place i o).
Proof using room.
  induction c as [ws|c IH r|l IHl r IHr|l IHl r IHr|c IH]; intros Hok place i o; cbn [runcmd plan].
  - destruct ws as [|w ws]; [constructor|]. cbn. apply sublist_skip. constructor.
  - destruct Hok as [Hc Hr]. destruct (open_ok _ _); [|apply sublist_nil_l]. destruct (redir_table i o e rest r Hr) as [n ->]. destruct (decide _); by apply IH.
  - destruct Hok as [Hl Hr]. destruct (pipe_tables i o e rest place room) as (p0 & f0 & p1 & f1 & E0 & E1 & El & Er). rewrite E0, E1, El, Er, fmap_app.
    destruct (pipe_ok place); [|apply sublist_nil_l]. unfold fork1. destruct (fork_ok place 0); [|apply sublist_nil_l].
    cbn [execs]. apply sublist_app; [by apply IHl|]. destruct (fork_ok place 1); [|apply sublist_nil_l]. cbn [execs]. rewrite app_nil_r. by apply IHr.
  - destruct Hok as [Hl Hr]. unfold fork1. rewrite fmap_app. destruct (fork_ok place 0); [|apply sublist_nil_l]. cbn [execs]. apply sublist_app; [by apply IHl|by apply IHr].
  - unfold fork1. destruct (fork_ok place 0); [|apply sublist_nil_l]. cbn [execs]. rewrite app_nil_r. by apply IH.
Qed.
End Oracles.

Definition granted {A B} (_ : A) (_ : B) : bool := true.

Lemma runcmd_exact e rest c : two_free rest -> cmd_ok c -> forall place i o,
  execs (runcmd granted (fun _ => true) granted c place (table i o e rest)) = started e rest <$> plan c place i o.
Proof.
  intros room. induction c as [ws|c IH r|l IHl r IHr|l IHl r IHr|c IH]; intros Hok place i o; cbn [runcmd plan granted fork1].
  - by destruct ws.
  - destruct Hok as [Hc Hr]. destruct (redir_table i o e rest r Hr) as [n ->]. destruct (decide _); by apply IH.
  - destruct Hok as [Hl Hr]. destruct (pipe_tables i o e rest place room) as (p0 & f0 & p1 & f1 & E0 & E1 & El & Er). rewrite E0, E1, El, Er, fmap_app.
    cbn [execs]. rewrite app_nil_r, IHl, IHr by done. done.
  - destruct Hok as [Hl Hr]. rewrite fmap_app. cbn [execs]. rewrite IHl, IHr by done. done.
  - cbn [execs]. rewrite app_nil_r. by apply IH.
Qed.

(** ** The theorems *)

(** C22. When the kernel grants what the shell asks for, [runcmd] starts exactly
    the programs of the command, in order, each with the standard input and
    output its redirections and pipes give it and all other descriptors as the
    shell had them (no program keeps another end of a pipe open); whatever the
    kernel refuses, the programs that are started are some of these, with these
    descriptors. *)
Theorem runcmd_plumbing c i o e rest : cmd_ok c -> two_free rest ->
  execs (runcmd granted (fun _ => true) granted c [] (table i o e rest)) = started e rest <$> plan c [] i o /\
  (forall open_ok pipe_ok fork_ok, execs (runcmd open_ok pipe_ok fork_ok c [] (table i o e rest)) `sublist_of` (started e rest <$> plan c [] i o)).
Proof. intros Hc Hr. split; [by apply runcmd_exact|]. intros. by apply runcmd_sublist. Qed.

(** From the text of a line to the programs: a line whose tokens are those of
    a command, and that is not a [cd], runs that command. *)
Theorem shell_runs_line t n c i o e rest : Forall (fun c => c <> 0%Z) t -> 1 <= n -> cmd_ok c -> lex t = print 3 c -> take 3 t <> [99; 100; 32]%Z -> two_free rest ->
  exists c', run_line t n = Run (Ret c') /\ execs (runcmd granted (fun _ => true) granted c' [] (table i o e rest)) = started e rest <$> plan c [] i o.
Proof.
  intros Ht Hn Hc Hl Hcd Hr. destruct (parsecmd_reads t n c Ht Hn Hc Hl) as (c0 & b & Hp & Hs). exists c. unfold run_line. rewrite decide_False, Hp by done.
  cbn. rewrite Hs. split; [done|by apply runcmd_exact].
Qed.

(** The loop at the start of [main] leaves the three standard descriptors
    open, whatever was open before, and closes the extra one. *)
Lemma open_console_full n a b c rest : open_console (S n) (table a b c rest) = table a b c rest.
Proof.
  cbn [open_console]. destruct (lowest rest) as [p|] eqn:Hp.
  - rewrite (fd_new_table _ _ _ _ _ p Hp). rewrite decide_True by lia. rewrite close_table, list_insert_insert_eq. by rewrite (list_insert_id rest p) by (by apply lowest_Some).
  - unfold fd_new, table. cbn [lowest]. by rewrite Hp.
Qed.

Theorem open_console_opens x0 x1 x2 rest : exists i o e, open_console 4 (x0 :: x1 :: x2 :: rest) = table i o e rest.
Proof.
  assert (Hstep : forall n f j, lowest f = Some j -> j < 3 -> open_console (S n) f = open_console n (<[j := Some (Other 0)]> f)).
  { intros n f j Hj Hlt. cbn [open_console]. unfold fd_new. rewrite Hj. cbn [mbind option_bind]. by rewrite decide_False by lia. }
  destruct x0 as [i|], x1 as [o|], x2 as [e|];
    repeat (erewrite Hstep; [|cbn; reflexivity|lia]; cbn [insert list_insert]); eexists _, _, _; apply open_console_full.
Qed.

(** ** Instances *)

Definition demo_rest : fds := replicate 13 None.

Lemma runcmd_plumbing_witness :
  execs (runcmd granted (fun _ => true) granted demo_cmd [] (table (Other 0) (Other 0) (Other 0) demo_rest)) = started (Other 0) demo_rest <$> plan demo_cmd [] (Other 0) (Other 0).
Proof.
  apply (runcmd_plumbing demo_cmd (Other 0) (Other 0) (Other 0) demo_rest); [|by exists 0, 1].
  cbn. unfold MAXARGS, redir_ok. cbn. split_and!; lia || by right.
Defined.

(** The line of [demo_line]: [ls] writes into the pipe [wc] reads, [wc] writes
    to the file, the background list uses the console. *)
Example demo_plan : plan demo_cmd [] (Other 0) (Other 0) =
  [([text "ls"; text "-l"], (Other 0, PipeW [false])); ([text "wc"], (PipeR [false], File (text "out") O_WRONLY_CREATE));
   ([text "sleep"; text "9"], (Other 0, Other 0)); ([text "echo"; text "done"], (Other 0, Other 0))].
Proof. by vm_compute. Qed.

(** Of two output redirections the first one wins; [main] cuts the last
    character of a [cd] line even when it is not a newline. *)
Example first_redirection_wins :
  (fun r => execs (runcmd granted (fun _ => true) granted r [] (table (Other 0) (Other 0) (Other 0) demo_rest))) <$> ('(c, b) ← parsecmd (text "ls >a >b") 9; Ret (strings b c)) =
  Ret [([text "ls"], table (Other 0) (File (text "a") O_WRONLY_CREATE) (Other 0) demo_rest)].
Proof. by vm_compute. Qed.
Example cd_cuts : run_line (text "cd dir") 9 = Chdir (text "di").
Proof. by vm_compute. Qed.

End ShRun.
