(* ===== verification/ExecDefs.v ===== *)
(** * Replacing the image of a process: [exec]

    Models [src/xv6-public/exec.c] on the memory of [Vm].  The file is read
    through [readi], a parameter: its result and the bytes it stores (what
    [FsFile] proves about [readi] is what the theorems assume).  The arguments
    are C strings, lists of characters before the NUL.  The calls that lock and
    release the inode and delimit the transaction are recorded in order. *)
From S2P Require Export VmSpace.

Module Exec.
Import Spin Locked Kalloc Vm.
Local Open Scope Z_scope.

(** ** [elf.h] *)

Definition ELF_MAGIC : Z := 1179403647.
Definition ELF_PROG_LOAD : Z := 1.

(** The little-endian number in [n] bytes from [i] on. *)
Fixpoint le_num (n : nat) (i : nat) (l : list Z) : Z :=
  match n with
  | O => 0
  | S n => default 0 (l !! i) + 256 * le_num n (S i) l
  end.
Definition le_word (x : Z) : list Z := [x mod 256; x / 256 mod 256; x / 65536 mod 256; x / 16777216 mod 256].

(** The fields [exec] reads of [struct elfhdr] (52 bytes) and [struct proghdr]
    (32 bytes). *)
Record elfhdr := mkElf { e_magic : Z; e_entry : Z; e_phoff : Z; e_phnum : Z }.
Definition elfhdr_size : Z := 52.
Definition decode_elf (l : list Z) : elfhdr := mkElf (le_num 4 0 l) (le_num 4 24 l) (le_num 4 28 l) (le_num 2 44 l).
Record proghdr := mkPh { ph_type : Z; ph_off : Z; ph_vaddr : Z; ph_filesz : Z; ph_memsz : Z }.
Definition proghdr_size : Z := 32.
Definition decode_ph (l : list Z) : proghdr := mkPh (le_num 4 0 l) (le_num 4 4 l) (le_num 4 8 l) (le_num 4 16 l) (le_num 4 20 l).

(** ** [exec] *)

(** The fields of [struct proc] and of its trap frame that [exec] sets. *)
Record image := mkImage { i_pgdir : Z; i_sz : Z; i_eip : Z; i_esp : Z; i_name : list Z }.

Inductive fscall := BeginOp | EndOp | Ilock | Iunlockput.

Definition MAXARG : nat := 32.

(** The part of [path] after the last slash. *)
Fixpoint last_elem (last s : list Z) : list Z :=
  match s with
  | [] => last
  | c :: s => if decide (c = 47) then last_elem s s else last_elem last s
  end.

Section Exec.
Context (kend kdata : Z) (me : nat) (readi : Z -> Z -> Z * list Z).

(** The loop over the program headers, [k] of them left; [None] is [goto bad]. *)
Fixpoint load_segments (k : nat) (pgdir off sz : Z) : km (option Z) :=
  match k with
  | O => mret (Some sz)
  | S k =>
      let '(r, bytes) := readi (uint32 off) proghdr_size in
      if decide (r <> proghdr_size) then mret None
      else
        let ph := decode_ph bytes in
        if decide (ph_type ph <> ELF_PROG_LOAD) then load_segments k pgdir (int32 (off + proghdr_size)) sz
        else if decide (ph_memsz ph < ph_filesz ph) then mret None
        else if decide (uint32 (ph_vaddr ph + ph_memsz ph) < ph_vaddr ph) then mret None
        else
          sz ← allocuvm kend me pgdir sz (uint32 (ph_vaddr ph + ph_memsz ph));
          if decide (sz = 0) then mret None
          else if decide (ph_vaddr ph mod PGSIZE <> 0) then mret None
          else
            r ← loaduvm me readi pgdir (ph_vaddr ph) (ph_off ph) (ph_filesz ph);
            if decide (r < 0) then mret None
            else load_segments k pgdir (int32 (off + proghdr_size)) sz
  end.

(** The strings are pushed from [sp] down; [ptrs] are their addresses. *)
Fixpoint push_args (argv : list (list Z)) (pgdir sp : Z) (ptrs : list Z) : km (option (Z * list Z)) :=
  match argv with
  | [] => mret (Some (sp, ptrs))
  | a :: argv =>
      if decide (MAXARG <= length ptrs)%nat then mret None
      else
        let sp := Z.land (uint32 (sp - (Z.of_nat (length a) + 1))) (Z.lnot 3) in
        r ← copyout me pgdir sp (a ++ [0]);
        if decide (r < 0) then mret None
        else push_args argv pgdir sp (ptrs ++ [sp])
  end.

(** [ustack], [3 + argc + 1] words. *)
Definition ustack (sp : Z) (ptrs : list Z) : list Z :=
  let argc := Z.of_nat (length ptrs) in
  [4294967295; argc; uint32 (sp - (argc + 1) * 4)] ++ ptrs ++ [0].

Definition exec (found : bool) (path : list Z) (argv : list (list Z)) (old : image) : km (Z * image * list fscall) :=
  if negb found then mret (-1, old, [BeginOp; EndOp])
  else
    let locked := [BeginOp; Ilock] in
    let done := [BeginOp; Ilock; Iunlockput; EndOp] in
    let '(r, bytes) := readi 0 elfhdr_size in
    let elf := decode_elf bytes in
    if decide (r <> elfhdr_size) then mret (-1, old, locked ++ [Iunlockput; EndOp])
    else if decide (e_magic elf <> ELF_MAGIC) then mret (-1, old, locked ++ [Iunlockput; EndOp])
    else
      pgdir ← setupkvm kend kdata me;
      if decide (pgdir = 0) then mret (-1, old, locked ++ [Iunlockput; EndOp])
      else
        r ← load_segments (Z.to_nat (e_phnum elf)) pgdir (int32 (e_phoff elf)) 0;
        match r with
        | None => freevm kend me pgdir ;; mret (-1, old, locked ++ [Iunlockput; EndOp])
        | Some sz =>
            let sz := uint32 (PGROUNDUP sz) in
            sz ← allocuvm kend me pgdir sz (uint32 (sz + 2 * PGSIZE));
            if decide (sz = 0) then freevm kend me pgdir ;; mret (-1, old, done)
            else
              clearpteu me pgdir (uint32 (sz - 2 * PGSIZE)) ;;
              r ← push_args argv pgdir sz [];
              match r with
              | None => freevm kend me pgdir ;; mret (-1, old, done)
              | Some (sp, ptrs) =>
                  let us := ustack sp ptrs in
                  let sp := uint32 (sp - 4 * Z.of_nat (length us)) in
                  r ← copyout me pgdir sp (us ≫= le_word);
                  if decide (r < 0) then freevm kend me pgdir ;; mret (-1, old, done)
                  else
                    freevm kend me (i_pgdir old) ;;
                    mret (0, mkImage pgdir sz (e_entry elf) sp (take 15 (last_elem path path)), done)
              end
        end.
End Exec.
End Exec.
