(* ===== verification/ExecMem.v ===== *)
(** * Bytes of user memory

    Byte access to the word memory, and what loading and copying to an address
    space do to the bytes the process sees. *)
From S2P Require Export ExecDefs.

Module ExecMem.
Import Spin Locked Kalloc Vm VmBase VmOps VmSpace Exec.
Local Open Scope Z_scope.

(** ** Bytes of words *)

Lemma load8_mod m a : load8 m a = m (word_of a) / 2 ^ (8 * (a mod 4)) mod 256.
Proof. unfold load8. rewrite Z.shiftr_div_pow2 by (pose proof (Z.mod_pos_bound a 4); lia). change 255 with (Z.ones 8). by rewrite Z.land_ones by lia. Qed.

Lemma byte_cases a : a mod 4 = 0 \/ a mod 4 = 1 \/ a mod 4 = 2 \/ a mod 4 = 3.
Proof. pose proof (Z.mod_pos_bound a 4). lia. Qed.

(** A word with one byte replaced. *)
Lemma byte_set w k j c : k ∈ [0; 1; 2; 3] -> j ∈ [0; 1; 2; 3] -> 0 <= c < 256 ->
  (w + (c - w / 2 ^ (8 * k) mod 256) * 2 ^ (8 * k)) / 2 ^ (8 * j) mod 256 = if decide (j = k) then c else w / 2 ^ (8 * j) mod 256.
Proof.
  intros Hk Hj Hc. rewrite !elem_of_cons, elem_of_nil in Hk, Hj.
  destruct Hk as [->|[->|[->|[->|[]]]]], Hj as [->|[->|[->|[->|[]]]]]; cbn [Z.mul Z.pow Z.pow_pos Pos.iter Pos.mul];
    match goal with |- context [decide ?P] => destruct (decide P) as [|] end; try lia; try (exfalso; lia);
    Z.div_mod_to_equations; lia.
Qed.

Lemma word_of_eq a b : word_of a = word_of b <-> a / 4 = b / 4.
Proof. unfold word_of. Z.div_mod_to_equations. lia. Qed.

Lemma load8_store8 a c m b : load8 (store8 a c m) b = if decide (b = a) then c mod 256 else load8 m b.
Proof.
  unfold store8. rewrite !load8_mod. unfold store. destruct (decide (word_of b = word_of a)) as [He|Hne].
  - rewrite He. assert (Hm : forall x, x mod 4 ∈ [0; 1; 2; 3]) by (intros x; rewrite !elem_of_cons; destruct (byte_cases x) as [->|[->|[->| ->]]]; tauto).
    rewrite byte_set; [|done|done|apply Z.mod_pos_bound; lia]. apply word_of_eq in He.
    destruct (decide (b = a)) as [->|Hba]; [by rewrite decide_True|]. rewrite decide_False; [done|]. intros Hm'. apply Hba. Z.div_mod_to_equations. lia.
  - rewrite decide_False; [done|]. by intros ->.
Qed.

Lemma load8_store_bytes l : forall a m b, load8 (store_bytes a l m) b =
  if decide (a <= b < a + Z.of_nat (length l)) then default 0 (l !! Z.to_nat (b - a)) mod 256 else load8 m b.
Proof.
  induction l as [|c l IH]; intros a m b; cbn [store_bytes length]; [by rewrite decide_False by lia|]. rewrite IH, load8_store8.
  destruct (decide (b = a)) as [->|Hne].
  - rewrite decide_False by lia. rewrite decide_True by lia. by rewrite Z.sub_diag.
  - destruct (decide (a + 1 <= b < a + 1 + Z.of_nat (length l))) as [Hin|Hout]; [|by rewrite decide_False by lia].
    rewrite decide_True by lia. replace (Z.to_nat (b - a)) with (S (Z.to_nat (b - (a + 1)))) by lia. done.
Qed.

Lemma store_bytes_other kend v l : page_ok kend v -> forall a m x, v <= a -> a + Z.of_nat (length l) <= v + PGSIZE -> ~ in_page x v -> store_bytes a l m x = m x.
Proof.
  intros [Hv _]. unfold in_page, PGSIZE in *. induction l as [|c l IH]; intros a m x Ha Hl Hx; cbn [store_bytes length] in *; [done|].
  rewrite IH by lia. unfold store8, store. rewrite decide_False; [done|]. intros ->. apply Hx. unfold word_of. Z.div_mod_to_equations. lia.
Qed.

Lemma load8_keep kend v m m' a : page_ok kend v -> in_page a v -> (forall b, in_page b v -> m' b = m b) -> load8 m' a = load8 m a.
Proof.
  intros [Hv _] Ha H. unfold load8. rewrite H; [done|]. unfold in_page, PGSIZE, word_of in *. Z.div_mod_to_equations. lia.
Qed.

Lemma load8_zero kend v m a : page_ok kend v -> in_page a v -> (forall b, in_page b v -> m b = 0) -> load8 m a = 0.
Proof.
  intros [Hv _] Ha H. unfold load8. rewrite H; [by rewrite Z.shiftr_0_l|]. unfold in_page, PGSIZE, word_of in *. Z.div_mod_to_equations. lia.
Qed.

(** ** The memory a process sees *)

(** [um] with the bytes [l] at [va]. *)
Definition write (va : Z) (l : list Z) (um : Z -> Z) : Z -> Z :=
  fun b => if decide (va <= b < va + Z.of_nat (length l)) then default 0 (l !! Z.to_nat (b - va)) mod 256 else um b.

Lemma write_nil va um a : write va [] um a = um a.
Proof. unfold write. by rewrite decide_False by (cbn; lia). Qed.

Lemma write_app va l1 l2 um a : write (va + Z.of_nat (length l1)) l2 (write va l1 um) a = write va (l1 ++ l2) um a.
Proof.
  unfold write. rewrite length_app. destruct (decide (va + Z.of_nat (length l1) <= a < va + Z.of_nat (length l1) + Z.of_nat (length l2))) as [H2|H2].
  - rewrite decide_True by lia. rewrite lookup_app_r by lia. do 3 f_equal. lia.
  - destruct (decide (va <= a < va + Z.of_nat (length l1))) as [H1|H1]; [|by rewrite decide_False by lia]. rewrite decide_True by lia. by rewrite lookup_app_l by lia.
Qed.

Section Memory.
Context (kend : Z) (kend_ok : KERNBASE < kend) (me : nat).
Notation page_ok := (page_ok kend).
Notation holds := (holds kend).
Notation born := (born kend).

(** The first [np] pages are user pages with the bytes [um] ([um] is 0 above
    them); page [g] is not accessible to the user; the rest of the map is [K]. *)
Record ustate (np g : Z) (K M : gmap Z Z) (m um : Z -> Z) : Prop := {
  u_map : forall x, if decide (0 <= x < np) then exists v, M !! x = Some (pte_of v (if decide (x = g) then 3 else 7)) /\ page_ok v else M !! x = K !! x;
  u_byte : forall x v f, 0 <= x < np -> M !! x = Some (pte_of v f) -> 0 <= f < 4096 -> page_ok v -> forall o, 0 <= o < 4096 -> load8 m (v + o) = um (4096 * x + o);
  u_zero : forall a, 4096 * np <= a -> um a = 0;
}.

Lemma pte_of_inj v w f f' : page_ok v -> page_ok w -> 0 <= f < 4096 -> 0 <= f' < 4096 -> pte_of v f = pte_of w f' -> v = w /\ f = f'.
Proof.
  intros Hv Hw Hf Hf' He. assert (v = w) as ->. { rewrite <- (frame_pte_of kend kend_ok v f), <- (frame_pte_of kend kend_ok w f'), He by done. done. }
  unfold pte_of in He. split; [done|lia].
Qed.

Lemma ustate_ext np g K M m um um' : (forall a, um' a = um a) -> ustate np g K M m um -> ustate np g K M m um'.
Proof. intros He [Hm Hb Hz]. constructor; [done| |]; intros; rewrite He; eauto. Qed.

Lemma born_evolved p R d0 fl0 d fl T M d' fl' T' M' :
  born p R d0 fl0 d fl T M -> evolved kend p R d fl T M d' fl' T' M' -> born p R d0 fl0 d' fl' T' M'.
Proof.
  intros (H & Hu & Hp & Hk) (H' & Hu' & Hp' & Hk'). split_and!; [done|congruence|intros w; by rewrite Hp'|].
  eapply keeps_trans; [exact Hk|]. eapply keeps_mono; [|exact Hk']. by left.
Qed.

(** Frames that are kept keep their bytes. *)
Lemma ustate_keep np g K M m m' um : np <= UPAGES -> ustate np g K M m um -> keeps (uframe M) m m' -> ustate np g K M m' um.
Proof.
  intros Hnp [Hm Hb Hz] Hk. constructor; [done| |done]. intros x v f Hx HM Hf Hv o Ho. rewrite <- (Hb x v f Hx HM Hf Hv o Ho).
  apply (load8_keep kend v); [done|unfold in_page, PGSIZE; lia|]. intros b Hin. apply (Hk v); [|done]. exists x, (pte_of v f). split_and!; [done|lia|]. by apply (frame_pte_of kend).
Qed.

(** Growing: the new pages read as zero. *)
Lemma ustate_added np n g K M M' m m' um : 0 <= np <= n -> n <= UPAGES -> ~ (np <= g < n) -> ustate np g K M m um -> keeps (uframe M) m m' -> (forall x, 0 <= x < UPAGES -> K !! x = None) ->
  added kend np n M M' m' -> ustate n g K M' m' um.
Proof.
  intros Hnp Hn Hg H Hk HK Ha. pose proof (ustate_keep np g K M m m' um ltac:(lia) H Hk) as [Hm' Hb' Hz']. destruct H as [Hm Hb Hz]. constructor.
  - intros x. specialize (Ha x). specialize (Hm x). destruct (decide (np <= x < n)) as [Hin|Hout].
    + rewrite decide_True by lia. destruct Ha as (v & Hv & Hok & _). exists v. by rewrite decide_False by lia.
    + rewrite Ha. destruct (decide (0 <= x < np)) as [Hlt|Hge]; [by rewrite decide_True by lia|by rewrite decide_False by lia].
  - intros x v f Hx HM Hf Hv o Ho. specialize (Ha x). destruct (decide (np <= x < n)) as [Hin|Hout].
    + destruct Ha as (w & Hw & Hok & Hzero). rewrite Hw in HM. injection HM as HM. symmetry in HM. apply pte_of_inj in HM as [-> _]; [|done|done|lia|lia].
      rewrite (load8_zero kend w); [|done|unfold in_page, PGSIZE; lia|done]. symmetry. apply Hz. lia.
    + rewrite Ha in HM. apply (Hb' x v f); [lia|done..].
  - intros a Ha'. apply Hz. lia.
Qed.

(** Bytes stored into a page. *)
Lemma user_store p R d0 fl0 d fl T M np g K um x v f o l :
  born p R d0 fl0 d fl T M -> ustate np g K M (mem d) um -> np <= UPAGES -> 0 <= x < np -> M !! x = Some (pte_of v f) -> 0 <= f < 4096 -> page_ok v ->
  0 <= o -> o + Z.of_nat (length l) <= 4096 ->
  let d' := mkKmem (use_lock d) (freelist d) (store_bytes (v + o) l (mem d)) in
  born p R d0 fl0 d' fl T M /\ ustate np g K M (mem d') (write (4096 * x + o) l um).
Proof.
  intros (H & Hu & Hp & Hk) Hus Hnp Hx HM Hf Hv Ho Hl d'. assert (Hfr : frame (pte_of v f) = v) by by apply (frame_pte_of kend).
  destruct H as [Hkm Hs Hown Hr]. destruct (a_frame _ _ _ _ _ Hs _ _ HM ltac:(lia)) as (_ & Hvd & Hvt). rewrite Hfr in Hvd, Hvt.
  assert (Hvo : owns p T M v) by (right; right; exists x, (pte_of v f); split_and!; [done|lia|done]).
  assert (Hoth : forall a, ~ in_page a v -> mem d' a = mem d a) by (intros a Ha; apply (store_bytes_other kend v); [done|lia|unfold PGSIZE; lia|done]).
  split.
  - split_and!; [|done|done|].
    + constructor.
      * by apply (kmem_inv_write kend d fl v); [..|apply Hown|].
      * eapply aspace_ext; [exact Hs|]. apply (keeps_page kend _ v); [done| |done]. intros w [->|[j Hj]].
        -- split; [apply (a_dir _ _ _ _ _ Hs)|done].
        -- destruct (a_tab _ _ _ _ _ Hs _ _ Hj) as (_ & ? & _). split; [done|]. intros ->. by apply (Hvt j).
      * done.
      * done.
    + eapply keeps_trans; [exact Hk|]. apply (keeps_page kend _ v); [done| |done]. intros w Hw. destruct (Hr w Hw) as (? & _ & ?). split; [done|]. by intros ->.
  - destruct Hus as [Hmap Hb Hz]. constructor; [done| |].
    + intros y w f' Hy HMy Hf' Hw o' Ho'. unfold d'. cbn [mem]. rewrite load8_store_bytes. unfold write. destruct (decide (x = y)) as [->|Hne].
      * rewrite HM in HMy. injection HMy as HMy. apply pte_of_inj in HMy as [-> _]; [|done..].
        destruct (decide (w + o <= w + o' < w + o + Z.of_nat (length l))) as [Hin|Hout].
        -- rewrite decide_True by lia. do 3 f_equal. lia.
        -- rewrite decide_False by lia. by apply (Hb y w f).
      * rewrite (decide_False (P := 4096 * x + o <= 4096 * y + o' < _)) by lia. rewrite decide_False; [by apply (Hb y w f')|].
        intros Hin. assert (w = v); [|subst w].
        { apply (in_page_inj kend (w + o')); [done|done|unfold in_page, PGSIZE; lia|unfold in_page, PGSIZE; lia]. }
        apply Hne. eapply (a_frame_inj _ _ _ _ _ Hs); [exact HM|exact HMy|lia|lia|]. rewrite Hfr. symmetry. by apply (frame_pte_of kend).
    + intros a Ha. unfold write. rewrite decide_False by lia. by apply Hz.
Qed.

(** ** [uva2ka] and [copyout] *)

Lemma wp_uva2ka x q b d p T M (Q : Z -> guarded kmem -> Prop) :
  aspace kend (mem d) p T M -> M !! x = Some q -> Q (if decide (Z.land q PTE_U = 0) then 0 else frame q) (free b d) -> wp (uva2ka me p (4096 * x)) Q (free b d).
Proof.
  intros Hs HM HQ. unfold uva2ka. lk_step. eapply (wp_walk_read kend kend_ok me); [exact Hs|exact HM|]. intros a Ha Hq. rewrite decide_False by done. lk_step. apply wp_rdw.
  rewrite Hq. destruct (a_map _ _ _ _ _ Hs _ _ HM) as (_ & _ & ->). cbn [negb]. destruct (decide _); lk_step; exact HQ.
Qed.

Lemma pte_user v f : page_ok v -> 0 <= f < 4096 -> Z.land (pte_of v f) PTE_U = Z.land f PTE_U.
Proof.
  intros Hv Hf. unfold pte_of. destruct (page_align kend kend_ok v Hv) as (-> & Hm & _). rewrite <- (lor_aligned _ _ Hm Hf), Z.land_lor_distr_l.
  replace (Z.land (v - KERNBASE) PTE_U) with 0; [by rewrite Z.lor_0_l|]. symmetry. apply Z.bits_inj'. intros k Hk. rewrite Z.bits_0, Z.land_spec.
  assert (Hdiv : v - KERNBASE = (v - KERNBASE) / 4096 * 4096) by (Z.div_mod_to_equations; lia). rewrite Hdiv. change 4096 with (2 ^ 12) at 2. rewrite Z.mul_pow2_bits by lia.
  destruct (decide (k < 12)) as [Hlt|Hge]; [by rewrite Z.testbit_neg_r by lia|]. unfold PTE_U. replace (Z.testbit 4 k) with false; [by rewrite andb_false_r|].
  symmetry. apply (Z.bits_above_log2 4 k); [lia|]. change (Z.log2 4) with 2. lia.
Qed.

(** The pages of the bytes from [va] to [va + n - 1]. *)
Definition touches (va n g : Z) : Prop := 0 < n /\ va / 4096 <= g <= (va + n - 1) / 4096.

Lemma wp_copyout_loop fuel va buf b p R d0 fl0 d fl T M np g K um (Q : Z -> guarded kmem -> Prop) :
  (length buf < fuel)%nat -> 0 <= va -> va + Z.of_nat (length buf) <= 4096 * np -> np <= UPAGES ->
  born p R d0 fl0 d fl T M -> ustate np g K M (mem d) um ->
  (forall d', born p R d0 fl0 d' fl T M -> ustate np g K M (mem d') (write va buf um) -> ~ touches va (Z.of_nat (length buf)) g -> Q 0 (free b d')) ->
  (forall d', born p R d0 fl0 d' fl T M -> touches va (Z.of_nat (length buf)) g -> Q (-1) (free b d')) ->
  wp (copyout_loop me fuel p va buf) Q (free b d).
Proof.
  revert va buf d um. induction fuel as [|fuel IH]; intros va buf d um Hf Hva Hend Hnp Hb Hus HQ Hfail; [lia|]. cbn [copyout_loop]. destruct buf as [|c buf'] eqn:Ebuf.
  { lk_step. apply (HQ d); [done| |unfold touches; cbn; lia]. eapply ustate_ext; [|exact Hus]. intros a. apply write_nil. }
  rewrite <- Ebuf in *. assert (Hlen : 0 < Z.of_nat (length buf)) by (rewrite Ebuf; cbn; lia). clear c buf' Ebuf. unfold UPAGES in Hnp.
  rewrite PGROUNDDOWN_spec. set (x := va / 4096) in *. assert (Hx : 0 <= x < np) by (unfold x; Z.div_mod_to_equations; lia).
  pose proof (u_map _ _ _ _ _ _ Hus x) as Hmx. rewrite decide_True in Hmx by done. destruct Hmx as (v & HMx & Hv).
  lk_step. eapply wp_uva2ka; [apply Hb|exact HMx|]. rewrite pte_user by (done || (destruct (decide (x = g)); lia)). destruct (decide (x = g)) as [Hg|Hg].
  { change (Z.land 3 PTE_U) with 0. rewrite !decide_True by done. lk_step. apply (Hfail d Hb). unfold touches. fold x. split; [done|]. subst g. split; [lia|]. unfold x. apply Z.div_le_mono; lia. }
  change (Z.land 7 PTE_U) with 4. rewrite (decide_False (P := 4 = 0)) by done. rewrite (frame_pte_of kend) by (done || lia).
  rewrite decide_False by (pose proof (page_pos kend kend_ok v 0 Hv); lia).
  set (o := va - 4096 * x). assert (Ho : 0 <= o < 4096) by (unfold o, x; Z.div_mod_to_equations; lia).
  set (n := Z.min (PGSIZE - o) (Z.of_nat (length buf))). assert (Hn : 0 < n <= Z.of_nat (length buf) /\ o + n <= 4096) by (unfold n, PGSIZE; lia).
  lk_step. apply wp_updm.
  assert (Hlt : length (take (Z.to_nat n) buf) = Z.to_nat n) by (rewrite length_take; lia).
  destruct (user_store p R d0 fl0 d fl T M np g K um x v 7 o (take (Z.to_nat n) buf) Hb Hus ltac:(unfold UPAGES; lia) Hx HMx ltac:(lia) Hv ltac:(lia) ltac:(lia)) as [Hb' Hus'].
  replace (4096 * x + o) with va in Hus' by (unfold o; lia). unfold PGSIZE. rewrite uint32_id by lia. replace (4096 * x + 4096) with (4096 * (x + 1)) by lia.
  set (buf2 := drop (Z.to_nat n) buf) in *. assert (Hl2 : Z.of_nat (length buf2) = Z.of_nat (length buf) - n) by (unfold buf2; rewrite length_drop; lia).
  destruct (decide (n = Z.of_nat (length buf))) as [Hall|Hmore].
  - assert (buf2 = []) as -> by (destruct buf2; [done|cbn in Hl2; lia]). assert (Hful : exists fu, fuel = S fu) by (destruct fuel; [lia|by eexists]). destruct Hful as [fu ->]. cbn [copyout_loop]. lk_step.
    apply (HQ _ Hb'); [replace (write va buf um) with (write va (take (Z.to_nat n) buf) um) by (by rewrite take_ge by lia); exact Hus'|]. unfold touches. fold x. intros [_ Ht]. apply Hg. assert ((va + Z.of_nat (length buf) - 1) / 4096 = x) by (unfold n, o, PGSIZE, x in *; Z.div_mod_to_equations; lia). lia.
  - assert (Hn' : n = 4096 - o) by (unfold n, PGSIZE in *; lia).
    eapply IH; [lia|lia|lia|unfold UPAGES; lia|exact Hb'|exact Hus'| |].
    + intros d2 Hb2 Hus2 Hnt. apply (HQ d2 Hb2); [|unfold touches in *; fold x; intros [_ Ht]; apply Hnt; split; [lia|]; split; [rewrite Z.mul_comm, Z.div_mul by lia; lia|]; replace (4096 * (x + 1) + Z.of_nat (length buf2) - 1) with (va + Z.of_nat (length buf) - 1) by lia; lia].
      eapply ustate_ext; [|exact Hus2]. intros a. rewrite <- (take_drop (Z.to_nat n) buf) at 1. fold buf2. rewrite <- write_app. do 2 f_equal. lia.
    + intros d2 Hb2 [_ Ht]. apply (Hfail d2 Hb2). unfold touches. fold x. split; [lia|]. rewrite Z.mul_comm, Z.div_mul in Ht by lia.
      replace ((x + 1) * 4096 + Z.of_nat (length buf2) - 1) with (va + Z.of_nat (length buf) - 1) in Ht by lia. lia.
Qed.

Lemma wp_copyout buf va b p R d0 fl0 d fl T M np g K um (Q : Z -> guarded kmem -> Prop) :
  0 <= va -> va + Z.of_nat (length buf) <= 4096 * np -> np <= UPAGES ->
  born p R d0 fl0 d fl T M -> ustate np g K M (mem d) um ->
  (forall d', born p R d0 fl0 d' fl T M -> ustate np g K M (mem d') (write va buf um) -> ~ touches va (Z.of_nat (length buf)) g -> Q 0 (free b d')) ->
  (forall d', born p R d0 fl0 d' fl T M -> touches va (Z.of_nat (length buf)) g -> Q (-1) (free b d')) ->
  wp (copyout me p va buf) Q (free b d).
Proof. intros. eapply wp_copyout_loop; [|done..]. lia. Qed.

(** A kernel page cannot be written by [copyout]. *)
Lemma wp_copyout_kernel c buf va q b p T M d (Q : Z -> guarded kmem -> Prop) :
  0 <= va < 4294967296 -> aspace kend (mem d) p T M -> M !! (va / 4096) = Some q -> Z.land q PTE_U = 0 -> Q (-1) (free b d) -> wp (copyout me p va (c :: buf)) Q (free b d).
Proof.
  intros Hva Hs HM Hq HQ. unfold copyout. cbn [length copyout_loop]. rewrite PGROUNDDOWN_spec. lk_step. eapply wp_uva2ka; [exact Hs|exact HM|]. rewrite (decide_True (P := Z.land q PTE_U = 0)) by done.
  rewrite decide_True by done. lk_step. exact HQ.
Qed.

(** ** Taking a page away from the user *)

Lemma clear_user v : page_ok v -> Z.land (pte_of v 7) (Z.lnot PTE_U) = pte_of v 3.
Proof.
  intros Hv. pose proof (Z.add_lor_land (Z.ldiff (pte_of v 7) PTE_U) (Z.land (pte_of v 7) PTE_U)) as Ha. rewrite Z.lor_ldiff_and in Ha.
  rewrite (Z.land_comm (pte_of v 7) PTE_U), Z.land_assoc, Z.land_ldiff, Z.land_0_l in Ha. rewrite (Z.land_comm PTE_U), pte_user in Ha by (done || lia).
  change (Z.land 7 PTE_U) with 4 in Ha. rewrite Z.ldiff_land in Ha. unfold pte_of in *. lia.
Qed.

Lemma holds_reflag d fl p T M R n t v f f' : holds d fl p T M R -> n < UPAGES -> T !! (n / 1024) = Some t -> M !! n = Some (pte_of v f) -> page_ok v ->
  0 <= f < 4096 -> 0 <= f' < 4096 -> f' mod 2 = 1 ->
  let d' := mkKmem (use_lock d) (freelist d) (store (t + 4 * (n mod 1024)) (pte_of v f') (mem d)) in
  holds d' fl p T (<[n := pte_of v f']> M) R /\ (forall w, owns p T (<[n := pte_of v f']> M) w <-> owns p T M w) /\ keeps (fun w => R w \/ uframe M w) (mem d) (mem d').
Proof.
  intros H Hn Ht HM Hv Hf Hf' Hodd d'. pose proof (Z.mod_pos_bound n 1024 ltac:(lia)) as Hj.
  destruct (holds_entry_frame kend d fl p T M R t (n mod 1024) (pte_of v f') H ltac:(eauto) Hj) as [Hk' Hkeep]. destruct H as [_ Hs Ho Hr].
  assert (Hfr : forall g, 0 <= g < 4096 -> frame (pte_of v g) = v) by (intros g Hg; by apply (frame_pte_of kend)).
  destruct (a_map _ _ _ _ _ Hs _ _ HM) as (Hn' & _ & _). destruct (a_frame _ _ _ _ _ Hs _ _ HM Hn) as (_ & Hvd & Hvt). rewrite Hfr in Hvd, Hvt by done.
  assert (Hown : forall w, owns p T (<[n := pte_of v f']> M) w <-> owns p T M w).
  { intros w. unfold owns. split; (intros [->|[?|(k & q & Hk & Hu & Hq)]]; [tauto|tauto|right; right]).
    - apply lookup_insert_Some in Hk as [[<- <-]|[? Hk]]; [|by exists k, q]. exists n, (pte_of v f). rewrite Hfr in * by done. done.
    - destruct (decide (k = n)) as [->|Hne]; [|exists k, q; by rewrite lookup_insert_ne]. rewrite HM in Hk. injection Hk as <-. exists n, (pte_of v f'). rewrite lookup_insert_eq. rewrite Hfr in * by done. done. }
  split_and!; [|done|done]. constructor; [done| | |].
  - eapply aspace_entry; [exact Hs|lia|done|intros k Hk; by rewrite lookup_insert_ne|by rewrite lookup_insert_eq|].
    intros q. rewrite lookup_insert_eq. intros [= <-]. rewrite Hfr by done. split; [rewrite (present_pte_of kend) by done; by apply bool_decide_true|].
    intros _. split_and!; [done|done|done|]. intros k q Hne Hk Hku He. apply Hne. eapply (a_frame_inj _ _ _ _ _ Hs); [exact Hk|exact HM|done|done|]. by rewrite Hfr.
  - intros w Hw%Hown. by apply Ho.
  - intros w Hw. destruct (Hr w Hw) as (? & ? & ?). by rewrite Hown.
Qed.

Lemma wp_clearpteu g b p R d0 fl0 d fl T M np K um (Q : unit -> guarded kmem -> Prop) :
  0 <= g < np -> np <= UPAGES -> born p R d0 fl0 d fl T M -> ustate np (-1) K M (mem d) um ->
  (forall d' M', born p R d0 fl0 d' fl T M' -> ustate np g K M' (mem d') um -> Q tt (free b d')) -> wp (clearpteu me p (4096 * g)) Q (free b d).
Proof.
  intros Hg Hnp Hb Hus HQ. pose proof (u_map _ _ _ _ _ _ Hus g) as Hm. rewrite decide_True in Hm by done. destruct Hm as (v & HM & Hv). rewrite decide_False in HM by lia.
  destruct Hb as (H & Hu & Hp & Hk). unfold clearpteu. lk_step. unfold UPAGES in Hnp. eapply (wp_walk kend kend_ok me g false); [lia|exact H| | |done].
  2: { intros Hnone _. destruct (a_map _ _ _ _ _ (h_space _ _ _ _ _ _ _ H) _ _ HM) as (_ & [t Ht] & _). congruence. }
  intros t Ht. destruct (a_tab _ _ _ _ _ (h_space _ _ _ _ _ _ _ H) _ _ Ht) as (_ & Htok & _). pose proof (Z.mod_pos_bound g 1024 ltac:(lia)) as Hj.
  rewrite decide_False by (apply (page_pos kend kend_ok); [done|lia]). lk_step. apply wp_rdw. rewrite (entry_absent kend _ _ _ _ _ _ _ _ H Ht), HM. change (default 0 (Some ?p)) with p.
  change (default 0 (Some (pte_of v 7))) with (pte_of v 7). rewrite clear_user by done. apply wp_updm.
  destruct (holds_reflag d fl p T M R g t v 7 3 H ltac:(unfold UPAGES; lia) Ht HM Hv ltac:(lia) ltac:(lia) ltac:(done)) as (H1 & H2 & H3).
  apply (HQ _ (<[g := pte_of v 3]> M)).
  - split_and!; [exact H1|done|intros w; by rewrite H2|]. eapply keeps_trans; [exact Hk|]. eapply keeps_mono; [|exact H3]. by left.
  - destruct (ustate_keep np (-1) K M (mem d) (mem (mkKmem (use_lock d) (freelist d) (store (t + 4 * (g mod 1024)) (pte_of v 3) (mem d)))) um ltac:(unfold UPAGES; lia) Hus) as [Hmap Hbyte Hz].
    { eapply keeps_mono; [|exact H3]. by right. }
    constructor; [| |done].
    + intros x. specialize (Hmap x). destruct (decide (x = g)) as [->|Hne]; [rewrite decide_True by done; exists v; by rewrite lookup_insert_eq|].
      rewrite lookup_insert_ne by done. destruct (decide (0 <= x < np)) as [Hin|]; [|done]. by rewrite decide_False in Hmap by lia.
    + intros x w f Hx Hl Hf Hw o Ho. destruct (decide (x = g)) as [->|Hne].
      * rewrite lookup_insert_eq in Hl. injection Hl as Hl. apply pte_of_inj in Hl as [<- _]; [|done|done|lia|done]. by apply (Hbyte g v 7).
      * rewrite lookup_insert_ne in Hl by done. by apply (Hbyte x w f).
Qed.
End Memory.

End ExecMem.
