(* ===== verification/ExecLoad.v ===== *)
(** * Loading the segments of a program, and pushing its arguments *)
From S2P Require Export ExecMem.

Module ExecLoad.
Import Spin Locked Kalloc Vm VmBase VmOps VmSpace Exec ExecMem.
Local Open Scope Z_scope.

Section Load.
Context (kend : Z) (kend_ok : KERNBASE < kend) (me : nat).
Notation page_ok := (page_ok kend).
Notation born := (born kend).
Notation ustate := (ustate kend).

(** The file: what [readi] promises ([FsFile] proves it for regular files). *)
Context (readi : Z -> Z -> Z * list Z) (file : Z -> Z) (fsize : Z).
Definition file_bytes (off n : Z) : list Z := file <$> seqZ off n.
Record reads_file : Prop := {
  rf_size : 0 <= fsize < 2 ^ 31;
  rf_byte : forall i, 0 <= file i < 256;
  rf_short : forall off n, 0 <= n -> Z.of_nat (length (readi off n).2) <= n;
  rf_full : forall off n bytes, 0 < n -> readi off n = (n, bytes) -> bytes = file_bytes off n /\ off + n <= fsize;
  rf_reads : forall off n, 0 <= off -> 0 < n -> off + n <= fsize -> (readi off n).1 = n
}.
Context (reads : reads_file).

Lemma length_file_bytes off n : 0 <= n -> Z.of_nat (length (file_bytes off n)) = n.
Proof. intros Hn. unfold file_bytes. rewrite length_fmap, length_seqZ. lia. Qed.

(** ** Growing *)

(** Not enough free pages for an image of [n] pages and its page tables (twice,
    since the bound is not the least one). *)
Definition scarce (fl : list Z) (n : Z) : Prop := Z.of_nat (length fl) <= 2050 + n.
Lemma scarce_mono fl n k : n <= k -> scarce fl n -> scarce fl k.
Proof. unfold scarce. lia. Qed.

Lemma wp_grow oldsz newsz b p R d0 fl0 d fl T M K um (Q : Z -> guarded kmem -> Prop) :
  0 <= oldsz < KERNBASE -> 0 <= newsz -> NoDup fl0 -> born p R d0 fl0 d fl T M -> ustate ((oldsz + 4095) / 4096) (-1) K M (mem d) um -> (forall x, 0 <= x < UPAGES -> K !! x = None) ->
  (forall d' fl' T' M', born p R d0 fl0 d' fl' T' M' -> KERNBASE <= newsz \/ scarce fl0 ((newsz + 4095) / 4096) -> Q 0 (free b d')) ->
  (forall d' fl' T' M', Z.max oldsz newsz < KERNBASE -> born p R d0 fl0 d' fl' T' M' -> ustate ((Z.max oldsz newsz + 4095) / 4096) (-1) K M' (mem d') um -> Q (Z.max oldsz newsz) (free b d')) ->
  wp (allocuvm kend me p oldsz newsz) Q (free b d).
Proof using kend_ok.
  intros Ho Hn Hnd Hb Hus HK Hfail HQ. destruct (decide (KERNBASE <= newsz)) as [Hbig|Hsmall].
  { unfold allocuvm. rewrite decide_True by done. lk_step. apply (Hfail d fl T M Hb). by left. }
  destruct (decide (newsz < oldsz)) as [Hlt|Hge].
  { unfold allocuvm. rewrite decide_False by done. rewrite decide_True by done. lk_step. replace (Z.max oldsz newsz) with oldsz in HQ by lia. by apply (HQ d fl T M); [lia|..]. }
  replace (Z.max oldsz newsz) with newsz in HQ by lia. unfold KERNBASE in *. eapply (wp_allocuvm kend kend_ok me); [lia|unfold KERNBASE; lia|apply Hb| | |].
  - intros x Hx Hxn. pose proof (u_map _ _ _ _ _ _ _ Hus x) as Hm. rewrite decide_False in Hm by lia. rewrite Hm. apply HK. unfold UPAGES. Z.div_mod_to_equations. lia.
  - intros d' fl' T' He Hs. apply (Hfail d' fl' T' M); [by eapply born_evolved|right]. set (np := (oldsz + 4095) / 4096) in *.
    assert (Hfl : short fl0 (np + Z.of_nat (length fl))).
    { apply (born_short kend _ _ _ _ _ _ _ _ _ Hb Hnd); [unfold np; Z.div_mod_to_equations; lia|]. intros x [q Hq] Hx.
      pose proof (u_map _ _ _ _ _ _ _ Hus x) as Hm. destruct (decide (0 <= x < np)) as [|Hx']; [lia|]. rewrite Hm, HK in Hq; [done|].
      destruct Hb as ([_ Hsp _ _] & _). destruct (a_map _ _ _ _ _ Hsp x q) as (? & _); [by rewrite Hm|]. lia. }
    unfold short, scarce in *. lia.
  - intros d' fl' T' M' He Ha. apply (HQ d' fl' T' M'); [lia|by eapply born_evolved|]. destruct He as (_ & _ & _ & Hk).
    eapply (ustate_added kend kend_ok) with (m := mem d) (M := M) (np := (oldsz + 4095) / 4096);
      [Z.div_mod_to_equations; lia|unfold UPAGES; Z.div_mod_to_equations; lia|Z.div_mod_to_equations; lia|done|eapply keeps_mono; [|exact Hk]; by right|done|done].
Qed.

(** ** [loaduvm] *)

Lemma wp_loaduvm_loop fuel x i offset sz b p R d0 fl0 d fl T M np K um (Q : Z -> guarded kmem -> Prop) :
  0 <= x -> 0 <= i -> i mod 4096 = 0 -> 4096 * x + sz <= 4096 * np -> np <= UPAGES -> 0 <= sz -> 0 <= offset < 2 ^ 32 -> (0 < fuel)%nat -> sz <= i + 4096 * (Z.of_nat fuel - 1) -> (i < sz -> offset + i < 2 ^ 32) ->
  born p R d0 fl0 d fl T M -> ustate np (-1) K M (mem d) um ->
  (forall d', born p R d0 fl0 d' fl T M -> fsize < offset + sz -> Q (-1) (free b d')) ->
  (forall d', born p R d0 fl0 d' fl T M -> ustate np (-1) K M (mem d') (write (4096 * x + i) (file_bytes (offset + i) (sz - i)) um) -> Q 0 (free b d')) ->
  wp (loaduvm_loop me readi fuel p (4096 * x) offset sz i) Q (free b d).
Proof using kend_ok reads.
  intros Hx Hi Him Hend Hnp Hsz Hoff. revert i d um Hi Him. induction fuel as [|fuel IH]; intros i d um Hi Him Hf0 Hf Hwrap Hb Hus Hfail HQ; cbn [loaduvm_loop].
  { lia. }
  destruct (decide (i < sz)) as [Hlt|Hge]; cycle 1.
  { lk_step. apply (HQ d Hb). eapply (ustate_ext kend); [|exact Hus]. intros a. unfold file_bytes. rewrite seqZ_nil by lia. apply write_nil. }
  unfold UPAGES in Hnp. replace (4096 * x + i) with (4096 * (x + i / 4096)) by (Z.div_mod_to_equations; lia). set (y := x + i / 4096). rewrite (uint32_id (4096 * y)) by (unfold y; Z.div_mod_to_equations; lia).
  assert (Hy : 0 <= y < np) by (unfold y; Z.div_mod_to_equations; lia).
  pose proof (u_map _ _ _ _ _ _ _ Hus y) as Hm. rewrite decide_True in Hm by done. destruct Hm as (v & HM & Hv). rewrite decide_False in HM by lia.
  lk_step. eapply (wp_walk_read kend kend_ok me); [apply Hb|exact HM|]. intros a Ha Hmem. rewrite decide_False by done. lk_step. apply wp_rdw. rewrite Hmem.
  change (P2V (PTE_ADDR (pte_of v 7))) with (frame (pte_of v 7)). rewrite (frame_pte_of kend) by (done || lia). unfold PGSIZE.
  set (n := if decide (sz - i < 4096) then sz - i else 4096). assert (Hn : 0 < n <= 4096 /\ n <= sz - i /\ (n = sz - i \/ n = 4096)) by (unfold n; destruct (decide _); lia).
  specialize (Hwrap Hlt). rewrite (uint32_id (offset + i)) by lia. destruct (readi (offset + i) n) as [r bytes] eqn:Er.
  pose proof (rf_short reads (offset + i) n ltac:(lia)) as Hshort. rewrite Er in Hshort. cbn in Hshort. lk_step. apply wp_updm. replace v with (v + 0) at 1 by lia.
  destruct (user_store kend kend_ok p R d0 fl0 d fl T M np (-1) K um y v 7 0 bytes Hb Hus ltac:(unfold UPAGES; lia) Hy HM ltac:(lia) Hv ltac:(lia) ltac:(lia)) as [Hb' Hus'].
  destruct (decide (r <> n)) as [Hr|Hr].
  { lk_step. apply Hfail; [done|]. destruct (decide (offset + i + n <= fsize)) as [Hin|]; [|lia]. exfalso. apply Hr.
    pose proof (rf_reads reads (offset + i) n ltac:(lia) ltac:(lia) Hin) as Hrd. by rewrite Er in Hrd. }
  apply dec_stable in Hr. subst r.
  destruct (rf_full reads (offset + i) n bytes ltac:(lia) Er) as [-> Hfs]. pose proof (rf_size reads). rewrite (uint32_id (i + 4096)) by lia.
  eapply IH; [lia|Z.div_mod_to_equations; lia|lia|lia|lia|exact Hb'|exact Hus'|done|]. intros d2 Hb2 Hus2. apply (HQ d2 Hb2). eapply (ustate_ext kend); [|exact Hus2].
  intros c. replace (file_bytes (offset + i) (sz - i)) with (file_bytes (offset + i) n ++ file_bytes (offset + (i + 4096)) (sz - (i + 4096))).
  - rewrite <- write_app, length_file_bytes by lia. replace (4096 * y + 0) with (4096 * x + i) by (unfold y; Z.div_mod_to_equations; lia).
    destruct Hn as (Hn1 & Hn2 & [Hn|Hn]).
    + replace (file_bytes (offset + (i + 4096)) (sz - (i + 4096))) with (@nil Z) by (unfold file_bytes; by rewrite seqZ_nil by lia). by rewrite !write_nil.
    + rewrite Hn. f_equal. lia.
  - unfold file_bytes. rewrite <- fmap_app. f_equal. destruct Hn as (Hn1 & Hn2 & [Hn|Hn]).
    + rewrite (seqZ_nil (offset + (i + 4096))) by lia. by rewrite app_nil_r, Hn.
    + rewrite Hn. replace (offset + (i + 4096)) with (offset + i + 4096) by lia. rewrite <- seqZ_app by lia. f_equal. lia.
Qed.

Lemma wp_loaduvm x offset sz b p R d0 fl0 d fl T M np K um (Q : Z -> guarded kmem -> Prop) :
  0 <= x -> 4096 * x + sz <= 4096 * np -> np <= UPAGES -> 0 <= sz -> 0 <= offset < 2 ^ 32 -> born p R d0 fl0 d fl T M -> ustate np (-1) K M (mem d) um ->
  (forall d', born p R d0 fl0 d' fl T M -> fsize < offset + sz -> Q (-1) (free b d')) ->
  (forall d', born p R d0 fl0 d' fl T M -> ustate np (-1) K M (mem d') (write (4096 * x) (file_bytes offset sz) um) -> Q 0 (free b d')) ->
  wp (loaduvm me readi p (4096 * x) offset sz) Q (free b d).
Proof using kend_ok reads.
  intros Hx He Hn Hs Ho Hb Hus Hfail HQ. unfold loaduvm, PGSIZE. rewrite decide_False by (intros Hm; apply Hm; rewrite Z.mul_comm; by apply Z.mod_mul).
  eapply (wp_loaduvm_loop _ x 0); [lia|lia|done|exact He|done|done|done|lia|Z.div_mod_to_equations; lia|lia|exact Hb|exact Hus|exact Hfail|].
  intros d' Hb' Hus'. rewrite !Z.add_0_r, Z.sub_0_r in Hus'. by apply HQ.
Qed.

(** ** The program headers *)

Lemma le_num_bound n : forall i l, (forall c, c ∈ l -> 0 <= c < 256) -> 0 <= le_num n i l < 256 ^ Z.of_nat n.
Proof.
  induction n as [|n IH]; intros i l Hl; cbn [le_num]; [cbn; lia|]. specialize (IH (S i) l Hl). rewrite Nat2Z.inj_succ, Z.pow_succ_r by lia.
  assert (0 <= default 0 (l !! i) < 256); [|lia]. destruct (l !! i) as [c|] eqn:E; cbn; [|lia]. apply Hl. by eapply list_elem_of_lookup_2.
Qed.

Lemma file_bytes_byte off n c : c ∈ file_bytes off n -> 0 <= c < 256.
Proof using reads. unfold file_bytes. intros (i & -> & _)%list_elem_of_fmap. apply (rf_byte reads). Qed.

(** The headers as [readi] delivers them, and what they ask for. *)
Fixpoint headers (k : nat) (off : Z) : list proghdr :=
  match k with
  | O => []
  | S k => decode_ph (file_bytes (uint32 off) proghdr_size) :: headers k (int32 (off + proghdr_size))
  end.
Definition is_load (ph : proghdr) : Prop := ph_type ph = ELF_PROG_LOAD.
Global Instance is_load_dec ph : Decision (is_load ph).
Proof. unfold is_load. apply _. Defined.
Definition segment (um : Z -> Z) (ph : proghdr) : Z -> Z := write (ph_vaddr ph) (file_bytes (ph_off ph) (ph_filesz ph)) um.
Definition seg_size (sz : Z) (ph : proghdr) : Z := Z.max sz (ph_vaddr ph + ph_memsz ph).
Definition seg_ok (ph : proghdr) : Prop := ph_filesz ph <= ph_memsz ph /\ ph_vaddr ph mod 4096 = 0 /\ ph_vaddr ph + ph_memsz ph < KERNBASE.

Lemma header_bounds off : let ph := decode_ph (file_bytes off proghdr_size) in
  0 <= ph_off ph < 2 ^ 32 /\ 0 <= ph_vaddr ph < 2 ^ 32 /\ 0 <= ph_filesz ph < 2 ^ 32 /\ 0 <= ph_memsz ph < 2 ^ 32.
Proof using reads.
  assert (H : forall i, 0 <= le_num 4 i (file_bytes off proghdr_size) < 2 ^ 32) by (intros i; apply (le_num_bound 4); intros c; apply file_bytes_byte).
  cbn [decode_ph ph_off ph_vaddr ph_filesz ph_memsz]. pose proof (H 4%nat). pose proof (H 8%nat). pose proof (H 16%nat). pose proof (H 20%nat). done.
Qed.

(** The headers and segments can be loaded, from size [sz] on. *)
Fixpoint loadable (k : nat) (off sz : Z) : Prop :=
  match k with
  | O => True
  | S k =>
      uint32 off + proghdr_size <= fsize /\
      let ph := decode_ph (file_bytes (uint32 off) proghdr_size) in
      if decide (is_load ph) then
        seg_ok ph /\ 0 < seg_size sz ph /\ ph_off ph + ph_filesz ph <= fsize /\ loadable k (int32 (off + proghdr_size)) (seg_size sz ph)
      else loadable k (int32 (off + proghdr_size)) sz
  end.
Lemma foldl_seg_size l sz : sz <= foldl seg_size sz l.
Proof. revert sz. induction l as [|ph l IH]; intros sz; cbn; [lia|]. specialize (IH (seg_size sz ph)). unfold seg_size in *. lia. Qed.

Lemma wp_load_segments k off sz b p R d0 fl0 d fl T M K um (Q : option Z -> guarded kmem -> Prop) :
  0 <= sz < KERNBASE -> NoDup fl0 -> born p R d0 fl0 d fl T M -> ustate ((sz + 4095) / 4096) (-1) K M (mem d) um -> (forall x, 0 <= x < UPAGES -> K !! x = None) ->
  (forall d' fl' T' M', born p R d0 fl0 d' fl' T' M' ->
     ~ loadable k off sz \/ scarce fl0 ((foldl seg_size sz (filter is_load (headers k off)) + 4095) / 4096) -> Q None (free b d')) ->
  (forall d' fl' T' M' sz', sz' = foldl seg_size sz (filter is_load (headers k off)) -> sz <= sz' < KERNBASE -> Forall seg_ok (filter is_load (headers k off)) ->
     born p R d0 fl0 d' fl' T' M' -> ustate ((sz' + 4095) / 4096) (-1) K M' (mem d') (foldl segment um (filter is_load (headers k off))) -> Q (Some sz') (free b d')) ->
  wp (load_segments kend me readi k p off sz) Q (free b d).
Proof using kend_ok reads.
  intros Hsz Hnd Hb Hus HK. revert off sz d fl T M um Hsz Hb Hus. induction k as [|k IH]; intros off sz d fl T M um Hsz Hb Hus Hfail HQ; cbn [load_segments headers].
  { lk_step. by apply (HQ d fl T M sz); [done|lia|constructor|..]. }
  pose proof (header_bounds (uint32 off)) as Hbd. assert (Huo : 0 <= uint32 off) by (unfold uint32; apply Z.mod_pos_bound; lia).
  cbn [headers loadable filter] in Hfail, HQ. destruct (readi (uint32 off) proghdr_size) as [r bytes] eqn:Er. destruct (decide (r <> proghdr_size)) as [Hr|Hr].
  { lk_step. eapply Hfail; [exact Hb|left]. intros [Hin _]. apply Hr. pose proof (rf_reads reads (uint32 off) proghdr_size Huo ltac:(done) Hin) as Hx. by rewrite Er in Hx. }
  apply dec_stable in Hr. subst r. destruct (rf_full reads (uint32 off) proghdr_size bytes ltac:(done) Er) as [-> Hfs].
  set (ph := decode_ph (file_bytes (uint32 off) proghdr_size)) in *. cbn zeta in Hbd, Hfail. destruct Hbd as (Hbo & Hbv & Hbf & Hbm). clear Er.
  destruct (decide (ph_type ph <> ELF_PROG_LOAD)) as [Hty|Hty].
  { rewrite filter_cons_False in HQ, Hfail by done. rewrite decide_False in Hfail by done. eapply IH; [exact Hsz|exact Hb|exact Hus| |exact HQ].
    intros d' fl' T' M' Hb' Hw. apply (Hfail d' fl' T' M' Hb'). destruct Hw as [Hw|Hw]; [left; tauto|by right]. }
  apply dec_stable in Hty. rewrite filter_cons_True in HQ, Hfail by done. rewrite decide_True in Hfail by done. cbn [foldl] in HQ, Hfail. set (sz1 := seg_size sz ph) in *.
  assert (Hbad : forall d' fl' T' M', born p R d0 fl0 d' fl' T' M' -> ~ (seg_ok ph /\ 0 < sz1 /\ ph_off ph + ph_filesz ph <= fsize) -> wp (mret None) Q (free b d')).
  { intros d' fl' T' M' Hb' Hw. lk_step. apply (Hfail d' fl' T' M' Hb'). left. tauto. }
  destruct (decide (ph_memsz ph < ph_filesz ph)) as [|Hfm]; [eapply Hbad; [exact Hb|]; intros [[? _] _]; lia|].
  destruct (decide (uint32 (ph_vaddr ph + ph_memsz ph) < ph_vaddr ph)) as [Hlt|Hov].
  { eapply Hbad; [exact Hb|]. intros [(_ & _ & Hlow) _]. unfold KERNBASE in Hlow. rewrite uint32_id in Hlt by lia. lia. }
  assert (Hnw : uint32 (ph_vaddr ph + ph_memsz ph) = ph_vaddr ph + ph_memsz ph). { unfold uint32 in *. Z.div_mod_to_equations. lia. }
  rewrite Hnw. lk_step. eapply wp_grow; [exact Hsz|lia|done|exact Hb|exact Hus|exact HK| |].
  { intros d' fl' T' M' Hb' [Hw|Hw]; rewrite decide_True by done; [eapply Hbad; [exact Hb'|]; intros [(_ & _ & Hlow) _]; lia|].
    lk_step. apply (Hfail d' fl' T' M' Hb'). right. eapply scarce_mono; [|exact Hw]. pose proof (foldl_seg_size (filter is_load (headers k (int32 (off + proghdr_size)))) sz1).
    apply Z.div_le_mono; [lia|]. unfold sz1, seg_size in *. lia. }
  intros d' fl' T' M' Hmax Hb' Hus'. change (Z.max sz (ph_vaddr ph + ph_memsz ph)) with sz1 in *.
  destruct (decide (sz1 = 0)); [eapply Hbad; [exact Hb'|]; lia|].
  unfold PGSIZE. destruct (decide (ph_vaddr ph mod 4096 <> 0)) as [|Hal]; [eapply Hbad; [exact Hb'|]; intros [(_ & ? & _) _]; done|]. apply dec_stable in Hal.
  lk_step. unfold KERNBASE in *. assert (Hsz1 : sz <= sz1 /\ ph_vaddr ph + ph_memsz ph <= sz1) by (unfold sz1, seg_size; lia).
  replace (ph_vaddr ph) with (4096 * (ph_vaddr ph / 4096)) by (Z.div_mod_to_equations; lia).
  eapply (wp_loaduvm (ph_vaddr ph / 4096) (ph_off ph) (ph_filesz ph)) with (np := (sz1 + 4095) / 4096);
    [Z.div_mod_to_equations; lia|Z.div_mod_to_equations; lia|unfold UPAGES; Z.div_mod_to_equations; lia|lia|lia|exact Hb'|exact Hus'| |].
  { intros d2 Hb2 Hw. rewrite decide_True by lia. eapply Hbad; [exact Hb2|]. lia. }
  intros d2 Hb2 Hus2. rewrite decide_False by lia. replace (4096 * (ph_vaddr ph / 4096)) with (ph_vaddr ph) in Hus2 by (Z.div_mod_to_equations; lia).
  eapply IH; [|exact Hb2|exact Hus2| |]; [unfold KERNBASE; lia| |].
  { intros d3 fl3 T3 M3 Hb3 Hw. apply (Hfail d3 fl3 T3 M3 Hb3). destruct Hw as [Hw|Hw]; [left; tauto|by right]. }
  intros d3 fl3 T3 M3 sz3 Hs3 Hle3 Hok3 Hb3 Hus3.
  apply (HQ d3 fl3 T3 M3 sz3); [done|lia| |done|done]. constructor; [|done]. split_and!; [lia|done|unfold KERNBASE; lia].
Qed.

(** ** The arguments *)

(** Where the strings go, and the memory with them. *)
Definition next_sp (sp : Z) (a : list Z) : Z := (sp - (Z.of_nat (length a) + 1)) / 4 * 4.
Fixpoint arg_ptrs (sp : Z) (argv : list (list Z)) : list Z :=
  match argv with
  | [] => []
  | a :: argv => next_sp sp a :: arg_ptrs (next_sp sp a) argv
  end.
Definition args_sp (sp : Z) (argv : list (list Z)) : Z := foldl next_sp sp argv.
Fixpoint push_strings (sp : Z) (argv : list (list Z)) (um : Z -> Z) : Z -> Z :=
  match argv with
  | [] => um
  | a :: argv => push_strings (next_sp sp a) argv (write (next_sp sp a) (a ++ [0]) um)
  end.

Lemma land_lnot_3 a : Z.land a (Z.lnot 3) = a / 4 * 4.
Proof. rewrite <- Z.ldiff_land. change 3 with (Z.ones 2). rewrite Z.ldiff_ones_r by lia. rewrite Z.shiftl_mul_pow2, Z.shiftr_div_pow2 by lia. done. Qed.

(** The kernel's device space is mapped, but not for the user. *)
Definition dev_mapped (K : gmap Z Z) : Prop := forall x, DEVSPACE <= 4096 * x < 2 ^ 32 -> exists q, K !! x = Some q /\ Z.land q PTE_U = 0.
Definition arg_ok (a : list Z) : Prop := Z.of_nat (length a) < 2 ^ 25 - 8.

Lemma args_sp_le argv sp : args_sp sp argv <= sp.
Proof.
  unfold args_sp. revert sp. induction argv as [|a argv IH]; intros sp; cbn; [lia|]. specialize (IH (next_sp sp a)). unfold next_sp in *. Z.div_mod_to_equations. lia.
Qed.

Lemma wp_push_args argv sp ptrs b p R d0 fl0 d fl T M np K um (Q : option (Z * list Z) -> guarded kmem -> Prop) :
  2 <= np <= UPAGES -> 4096 * (np - 1) <= sp <= 4096 * np -> (length ptrs <= MAXARG)%nat -> Forall arg_ok argv -> dev_mapped K -> born p R d0 fl0 d fl T M -> ustate np (np - 2) K M (mem d) um ->
  (forall d', born p R d0 fl0 d' fl T M -> ~ (4096 * (np - 1) <= args_sp sp argv /\ (length ptrs + length argv <= MAXARG)%nat) -> Q None (free b d')) ->
  (forall d', born p R d0 fl0 d' fl T M -> ustate np (np - 2) K M (mem d') (push_strings sp argv um) -> 4096 * (np - 1) <= args_sp sp argv <= 4096 * np -> (length ptrs + length argv <= MAXARG)%nat ->
     Q (Some (args_sp sp argv, ptrs ++ arg_ptrs sp argv)) (free b d')) ->
  wp (push_args me argv p sp ptrs) Q (free b d).
Proof using kend_ok.
  intros Hnp Hsp Hpl Hargs HK. revert sp ptrs d um Hsp Hpl. induction Hargs as [|a argv Ha _ IH]; intros sp ptrs d um Hsp Hpl Hb Hus Hfail HQ; cbn [push_args].
  { lk_step. cbn in HQ. rewrite app_nil_r in HQ. apply HQ; [done|done|done|lia]. }
  destruct (decide _) as [|Hmax]; [lk_step; apply Hfail; [done|cbn [length]; lia]|]. cbn [args_sp foldl length] in Hfail. fold (args_sp (next_sp sp a) argv) in Hfail.
  pose proof (args_sp_le argv (next_sp sp a)) as Hdown. unfold arg_ok in Ha. unfold UPAGES in Hnp. set (l := Z.of_nat (length a)) in *. assert (Hl0 : 0 <= l) by (unfold l; lia). rewrite land_lnot_3.
  assert (Hlen : Z.of_nat (length (a ++ [0])) = l + 1) by (rewrite length_app; cbn; lia).
  destruct (decide (0 <= sp - (l + 1))) as [Hpos|Hneg].
  - rewrite uint32_id by lia. change ((sp - (l + 1)) / 4 * 4) with (next_sp sp a). set (sp' := next_sp sp a) in *. assert (Hsp' : sp - (l + 1) - 3 <= sp' <= sp - (l + 1) /\ 0 <= sp') by (unfold sp', next_sp; fold l; Z.div_mod_to_equations; lia).
    lk_step. eapply (wp_copyout kend kend_ok me) with (np := np); [lia|rewrite Hlen; lia|unfold UPAGES; lia|exact Hb|exact Hus| |].
    + intros d' Hb' Hus' Hnt. rewrite decide_False by lia. assert (Hge : 4096 * (np - 1) <= sp').
      { destruct (decide (4096 * (np - 1) <= sp')) as [|Hlt]; [done|]. exfalso. apply Hnt. rewrite Hlen. unfold touches. split; [lia|]. Z.div_mod_to_equations. lia. }
      eapply IH; [lia|rewrite length_app; cbn; lia|exact Hb'|exact Hus'|intros d2 Hb2 Hw; apply Hfail; [done|]; rewrite length_app in Hw; cbn [length] in Hw; intros [? ?]; apply Hw; split; [done|lia]|]. intros d2 Hb2 Hus2 Hsp2 Hl2. rewrite length_app in Hl2. cbn [length] in Hl2. cbn [arg_ptrs push_strings args_sp foldl] in HQ. fold sp' in HQ. rewrite <- app_assoc. apply HQ; [done|done|done|cbn [length]; lia].
    + intros d' Hb' Ht. rewrite decide_True by lia. lk_step. apply Hfail; [done|]. unfold touches in Ht. destruct Ht as [_ Ht].
      assert (sp' < 4096 * (np - 1)) by (Z.div_mod_to_equations; lia). lia.
  - assert (Hu : uint32 (sp - (l + 1)) = 2 ^ 32 + (sp - (l + 1))). { unfold uint32. symmetry. apply (Z.mod_unique_pos _ _ (-1)); lia. }
    rewrite Hu. set (sp' := (2 ^ 32 + (sp - (l + 1))) / 4 * 4). assert (Hsp' : 2 ^ 32 - 2 ^ 25 <= sp' < 2 ^ 32) by (unfold sp'; Z.div_mod_to_equations; lia).
    destruct (HK (sp' / 4096)) as (q & Hq & Hq4); [unfold DEVSPACE; Z.div_mod_to_equations; lia|].
    pose proof (u_map _ _ _ _ _ _ _ Hus (sp' / 4096)) as Hm. rewrite decide_False in Hm by (Z.div_mod_to_equations; lia).
    assert (Hc : exists c buf, a ++ [0] = c :: buf) by (destruct a as [|c a']; [by exists 0, []|by exists c, (a' ++ [0])]). destruct Hc as (c & buf & ->).
    lk_step. eapply (wp_copyout_kernel kend kend_ok me); [lia|apply Hb|by rewrite Hm|done|]. rewrite decide_True by lia. lk_step. apply Hfail; [apply Hb|].
    assert (next_sp sp a < 0) by (unfold next_sp; fold l; Z.div_mod_to_equations; lia). lia.
Qed.
End Load.
End ExecLoad.
