(* ===== verification/ExecThms.v ===== *)
(** * Theorems about [exec]

    Replacing the image of a process is all or nothing: on every error path the
    process keeps its memory and no page is lost; on success the process has
    the segments of the file, zeros, and the arguments on its stack. *)
From S2P Require Export ExecLoad VmThms.

Module ExecThms.
Import Spin Locked Kalloc Vm VmBase VmOps VmSpace VmThms Exec ExecMem ExecLoad.
Local Open Scope Z_scope.

(** ** What a successful [exec] makes *)

Section Result.
Context (file : Z -> Z) (argv : list (list Z)) (path : list Z).
Definition the_elf : elfhdr := decode_elf (file_bytes file 0 elfhdr_size).
Definition the_loads : list proghdr := filter is_load (headers file (Z.to_nat (e_phnum the_elf)) (int32 (e_phoff the_elf))).
(** The pages of the program, then an inaccessible page and the stack page. *)
Definition the_pages : Z := (foldl seg_size 0 the_loads + 4095) / 4096 + 2.
Definition the_top : Z := 4096 * the_pages.
Definition the_stack : list Z := ustack (args_sp the_top argv) (arg_ptrs the_top argv).
Definition the_esp : Z := args_sp the_top argv - 4 * Z.of_nat (length the_stack).
(** The bytes of the new image. *)
Definition the_memory : Z -> Z :=
  write the_esp (the_stack ≫= le_word) (push_strings the_top argv (foldl (segment file) (fun _ => 0) the_loads)).
Definition the_image (p : Z) : image := mkImage p the_top (e_entry the_elf) the_esp (take 15 (last_elem path path)).
End Result.

Lemma length_words l : length (l ≫= le_word) = (4 * length l)%nat.
Proof. induction l as [|x l IH]; cbn in *; [done|lia]. Qed.
Lemma length_arg_ptrs sp argv : length (arg_ptrs sp argv) = length argv.
Proof. revert sp. induction argv as [|a argv IH]; intros sp; cbn; [done|]. by rewrite IH. Qed.
Lemma length_ustack sp ptrs : length (ustack sp ptrs) = (4 + length ptrs)%nat.
Proof. unfold ustack. rewrite !length_app. cbn. lia. Qed.

(** The file is a program that fits below the kernel, and the arguments fit in the
    stack page. *)
Definition runnable (file : Z -> Z) (fsize : Z) (argv : list (list Z)) : Prop :=
  elfhdr_size <= fsize /\ e_magic (the_elf file) = ELF_MAGIC /\
  loadable file fsize (Z.to_nat (e_phnum (the_elf file))) (int32 (e_phoff (the_elf file))) 0 /\
  the_top file < KERNBASE /\ (length argv <= MAXARG)%nat /\ the_top file - 4096 <= the_esp file argv.

Section Exec.
Context (kend : Z) (kend_ok : KERNBASE < kend) (me : nat) (kdata : Z) (kdata_align : kdata mod 4096 = 0) (kdata_range : KERNLINK < kdata < KERNBASE + PHYSTOP).
Context (readi : Z -> Z -> Z * list Z) (file : Z -> Z) (fsize : Z) (reads : reads_file readi file fsize).
Context (path : list Z) (argv : list (list Z)) (args_ok : Forall arg_ok argv).
Context (old : image) (T M : gmap Z Z) (R : Z -> Prop) (d : kmem) (fl : list Z) (H : holds kend d fl (i_pgdir old) T M R).

(** The pages in use before: those of the process and the others. *)
Definition used (w : Z) : Prop := R w \/ owns (i_pgdir old) T M w.

(** Nothing happened. *)
Definition unchanged (d' : kmem) (fl' : list Z) : Prop :=
  holds kend d' fl' (i_pgdir old) T M R /\ keeps used (mem d) (mem d') /\ forall w, w ∈ fl' <-> w ∈ fl.

(** The process runs the new program; the pages of the old one are free. *)
Definition replaced (new : image) (d' : kmem) (fl' : list Z) : Prop :=
  new = the_image file argv path (i_pgdir new) /\ e_magic (the_elf file) = ELF_MAGIC /\ Forall seg_ok (the_loads file) /\ (length argv <= MAXARG)%nat /\
  the_top file - 4096 <= i_esp new /\ keeps R (mem d) (mem d') /\
  exists T' M' K, holds kend d' fl' (i_pgdir new) T' M' R /\ (forall w, owns (i_pgdir new) T' M' w \/ w ∈ fl' <-> owns (i_pgdir old) T M w \/ w ∈ fl) /\
    (forall x, K !! x = kernel_pte kdata x) /\ ustate kend (the_pages file) (the_pages file - 2) K M' (mem d') (the_memory file argv).

Lemma used_ok v : used v -> page_ok kend v /\ v ∉ fl.
Proof.
  intros [Hv|Hv]; [by destruct (h_rest _ _ _ _ _ _ _ H v Hv) as (? & ? & ?)|].
  split; [eapply owns_ok; [apply (h_space _ _ _ _ _ _ _ H)|exact Hv]|by apply (h_own _ _ _ _ _ _ _ H)].
Qed.

(** The old address space while the new one is built. *)
Lemma returned_unchanged d' fl' : returned kend used d fl d' fl' -> unchanged d' fl'.
Proof.
  intros (Hk & _ & Hfl & Hkeep). split_and!; [|done|done]. destruct H as [_ Hs Ho Hr]. constructor; [done| | |].
  - eapply aspace_ext; [exact Hs|]. eapply keeps_mono; [|exact Hkeep]. intros w [->|?]; right; [by left|right; by left].
  - intros v Hv. rewrite Hfl. by apply Ho.
  - intros v Hv. destruct (Hr v Hv) as (? & ? & ?). rewrite Hfl. done.
Qed.

Lemma kernel_dev K : (forall x, K !! x = kernel_pte kdata x) -> dev_mapped K /\ (forall x, 0 <= x < UPAGES -> K !! x = None).
Proof using kdata_range.
  unfold KERNLINK, KERNBASE, EXTMEM, PHYSTOP in kdata_range. intros HK. split.
  - intros x Hx. rewrite HK. unfold kernel_pte, KERNLINK, KERNBASE, EXTMEM, PHYSTOP, DEVSPACE in *. rewrite !decide_False by lia. rewrite decide_True by lia. eexists. split; [done|].
    change PTE_U with (2 ^ 2). apply Z.bits_inj'. intros k Hk. rewrite Z.bits_0, Z.land_spec, Z.pow2_bits_eqb by lia.
    destruct (Z.eqb_spec 2 k) as [<-|]; [|by rewrite andb_false_r]. rewrite andb_true_r. apply Z.testbit_false; [lia|]. Z.div_mod_to_equations. lia.
  - intros x Hx. rewrite HK. unfold kernel_pte, KERNLINK, KERNBASE, EXTMEM, PHYSTOP, DEVSPACE, UPAGES in *. by rewrite !decide_False by lia.
Qed.

(** The last step: the pages of the old image are given back. *)
Lemma wp_commit b p d1 fl1 T1 M1 (Q : unit -> guarded kmem -> Prop) :
  born kend p used d fl d1 fl1 T1 M1 ->
  (forall d2 fl2, holds kend d2 fl2 p T1 M1 R -> (forall w, owns p T1 M1 w \/ w ∈ fl2 <-> owns (i_pgdir old) T M w \/ w ∈ fl) ->
     keeps R (mem d) (mem d2) -> keeps (owns p T1 M1) (mem d1) (mem d2) -> Q tt (free b d2)) ->
  wp (freevm kend me (i_pgdir old)) Q (free b d1).
Proof using kend_ok H.
  clear kdata_range kdata_align. intros ([Hk1 Hs1 Ho1 Hr1] & Hu & Hp & Hkeep) HQ. destruct H as [Hk Hs Ho Hr].
  eapply (wp_freevm kend kend_ok me) with (T := T) (M := M) (R := fun w => R w \/ owns p T1 M1 w) (fl := fl1).
  - constructor; [done| | |].
    + eapply aspace_ext; [exact Hs|]. eapply keeps_mono; [|exact Hkeep]. intros w [->|?]; right; [by left|right; by left].
    + intros v Hv. apply (Hr1 v). by right.
    + intros v [Hv|Hv].
      * destruct (Hr v Hv) as (? & _ & ?). destruct (Hr1 v ltac:(by left)) as (_ & ? & _). done.
      * split; [eapply owns_ok; [exact Hs1|exact Hv]|split; [by apply Ho1|]]. intros Hv'. by apply (Hr1 v ltac:(by right)).
  - intros d2 fl2 Hk2 _ Hfl2 Hkeep2. apply (HQ d2 fl2).
    + constructor; [done| | |].
      * eapply aspace_ext; [exact Hs1|]. eapply keeps_mono; [|exact Hkeep2]. intros w [->|?]; right; [by left|right; by left].
      * intros v Hv Hin. apply Hfl2 in Hin as [Hin|Hin]; [|by apply (Ho1 v)]. by apply (Hr1 v ltac:(by right)).
      * intros v Hv. destruct (Hr1 v ltac:(by left)) as (? & ? & ?). destruct (Hr v Hv) as (_ & _ & ?). split; [done|split; [|done]]. rewrite Hfl2. tauto.
    + intros w. rewrite Hfl2, <- Hp. tauto.
    + eapply keeps_trans; [eapply keeps_mono; [|exact Hkeep]; by left|eapply keeps_mono; [|exact Hkeep2]; by left].
    + eapply keeps_mono; [|exact Hkeep2]. by right.
Qed.

(** Why [exec] fails. *)
Definition refused (found : bool) : Prop := found = false \/ ~ runnable file fsize argv \/ scarce fl (the_pages file).

(** The end of the story, as a postcondition. *)
Definition exec_post (b : bool) (found : bool) (res : Z * image * list fscall) (s : guarded kmem) : Prop :=
  exists d' fl', s = free b d' /\ res.2 = (if found then [BeginOp; Ilock; Iunlockput; EndOp] else [BeginOp; EndOp]) /\
    ((res.1 = (-1, old) /\ unchanged d' fl' /\ refused found) \/ (found = true /\ res.1.1 = 0 /\ replaced res.1.2 d' fl')).

Lemma wp_bad b p d1 fl1 T1 M1 :
  born kend p used d fl d1 fl1 T1 M1 -> refused true -> wp (freevm kend me p ;; mret (-1, old, [BeginOp; Ilock; Iunlockput; EndOp])) (exec_post b true) (free b d1).
Proof using kend_ok H.
  intros Hb Hw. lk_step. eapply (wp_freevm_born kend kend_ok me); [exact Hb|]. intros d' fl' Hret. lk_step. exists d', fl'. split; [done|split; [done|]]. left. split; [done|]. split; [by apply returned_unchanged|done].
Qed.

(** What the new image is, with the number of pages [np]. *)
Lemma wp_done b p np d1 fl1 T1 M1 K (calls := [BeginOp; Ilock; Iunlockput; EndOp]) :
  np = the_pages file -> e_magic (the_elf file) = ELF_MAGIC -> Forall seg_ok (the_loads file) -> (length argv <= MAXARG)%nat -> the_top file - 4096 <= the_esp file argv -> np <= UPAGES ->
  born kend p used d fl d1 fl1 T1 M1 -> (forall x, K !! x = kernel_pte kdata x) -> ustate kend np (np - 2) K M1 (mem d1) (the_memory file argv) ->
  wp (freevm kend me (i_pgdir old) ;; mret (0, the_image file argv path p, calls)) (exec_post b true) (free b d1).
Proof using kend_ok H.
  intros -> Hmagic Hok Hargc Hesp Hnp Hb HK Hus. lk_step. eapply wp_commit; [exact Hb|]. intros d2 fl2 Hh Hp Hk Hk2. lk_step. exists d2, fl2. split; [done|split; [done|]]. right. split; [done|split; [done|]].
  split; [done|]. split; [done|]. split; [done|]. split; [done|]. split; [done|]. split; [done|]. exists T1, M1, K. split; [done|]. split; [done|]. split; [done|].
  eapply (ustate_keep kend kend_ok); [done|exact Hus|]. eapply keeps_mono; [|exact Hk2]. intros v. apply uframe_owns.
Qed.

Lemma exec_wp b found : wp (exec kend kdata me readi found path argv old) (exec_post b found) (free b d).
Proof using All.
  assert (Hsame : forall d' fl', returned kend used d fl d' fl' -> forall f : bool, refused f -> exec_post b f (-1, old, if f then [BeginOp; Ilock; Iunlockput; EndOp] else [BeginOp; EndOp]) (free b d')).
  { intros d' fl' Hret f Hw. exists d', fl'. split; [done|split; [done|]]. left. split; [done|]. split; [by apply returned_unchanged|done]. }
  assert (Hnow : returned kend used d fl d fl) by (split; [apply H|done]).
  unfold exec. destruct found; cbn [negb app]; [|lk_step; apply (Hsame d fl Hnow false); by left].
  destruct (readi 0 elfhdr_size) as [r bytes] eqn:Er. destruct (decide (r <> elfhdr_size)) as [Hr|Hr].
  { lk_step. apply (Hsame d fl Hnow true). right; left. intros (Hsz & _). apply Hr. pose proof (rf_reads _ _ _ reads 0 elfhdr_size ltac:(lia) ltac:(done) Hsz) as Hx. by rewrite Er in Hx. }
  apply dec_stable in Hr. subst r.
  destruct (rf_full _ _ _ reads 0 elfhdr_size bytes ltac:(done) Er) as [-> _]. fold (the_elf file).
  destruct (decide _) as [|Hmagic]; [lk_step; apply (Hsame d fl Hnow true); right; left; by intros (_ & ? & _)|]. apply dec_stable in Hmagic.
  assert (Hpg : 2 <= the_pages file) by (unfold the_pages; pose proof (foldl_seg_size (the_loads file) 0); Z.div_mod_to_equations; lia).
  pose proof (km_nodup _ _ _ (h_kmem _ _ _ _ _ _ _ H)) as Hnd.
  lk_step. eapply (wp_setupkvm kend kend_ok me kdata kdata_align kdata_range used); [apply H|exact used_ok| |].
  { intros d' fl' Hret Hs. rewrite decide_True by done. lk_step. apply (Hsame d' fl' Hret true). right; right. unfold few, scarce in *. lia. }
  intros p d1 fl1 T1 K Hb1 HK _. destruct (kernel_dev K HK) as [Hdev HKu]. pose proof (a_dir _ _ _ _ _ (h_space _ _ _ _ _ _ _ (proj1 Hb1))) as Hp.
  rewrite decide_False by (pose proof (page_pos kend kend_ok p 0 Hp); lia). lk_step.
  eapply (wp_load_segments kend kend_ok me readi file fsize reads) with (sz := 0) (um := fun _ => 0); [done|done|exact Hb1| |exact HKu| |].
  { change ((0 + 4095) / 4096) with 0. constructor; [|lia|done]. intros x. by rewrite decide_False by lia. }
  { intros d2 fl2 T2 M2 Hb2 Hw. eapply wp_bad; [exact Hb2|]. destruct Hw as [Hw|Hw]; [right; left; by intros (_ & _ & ? & _)|right; right].
    eapply scarce_mono; [|exact Hw]. fold (the_loads file). unfold the_pages. lia. }
  intros d2 fl2 T2 M2 sz2 Hsz2 Hle2 Hok2 Hb2 Hus2.
  fold (the_loads file) in Hsz2, Hok2, Hus2. unfold KERNBASE in Hle2.
  rewrite (PGROUNDUP_page sz2) by (unfold KERNBASE; lia). set (n := (sz2 + 4095) / 4096) in *. unfold PGSIZE. rewrite (uint32_id (4096 * n + 2 * 4096)) by (unfold n; Z.div_mod_to_equations; lia).
  destruct (decide (KERNBASE <= 4096 * n + 2 * 4096)) as [Hbig|Hfit].
  { lk_step. unfold allocuvm. rewrite decide_True by done. lk_step. eapply wp_bad; [exact Hb2|]. right; left. intros (_ & _ & _ & Hlow & _).
    unfold the_top, the_pages in Hlow. rewrite <- Hsz2 in Hlow. fold n in Hlow. lia. }
  unfold KERNBASE in Hfit. assert (Hn : 0 <= n) by (unfold n; Z.div_mod_to_equations; lia). lk_step.
  eapply (wp_grow kend kend_ok me) with (K := K); [unfold KERNBASE; lia|lia|done|exact Hb2| |exact HKu| |].
  { replace ((4096 * n + 4095) / 4096) with n by (Z.div_mod_to_equations; lia). exact Hus2. }
  { intros d3 fl3 T3 M3 Hb3 Hw. rewrite decide_True by done. eapply wp_bad; [exact Hb3|]. right; right. destruct Hw as [Hw|Hw]; [unfold KERNBASE in Hw; lia|].
    eapply scarce_mono; [|exact Hw]. unfold the_pages. rewrite <- Hsz2. fold n. Z.div_mod_to_equations. lia. }
  intros d3 fl3 T3 M3 _ Hb3 Hus3. rewrite Z.max_r in Hus3 |- * by lia. replace ((4096 * n + 2 * 4096 + 4095) / 4096) with (n + 2) in Hus3 by (Z.div_mod_to_equations; lia).
  rewrite decide_False by lia. lk_step. replace (4096 * n + 2 * 4096 - 2 * 4096) with (4096 * n) by lia. rewrite (uint32_id (4096 * n)) by lia.
  eapply (wp_clearpteu kend kend_ok me n) with (np := n + 2); [lia|unfold UPAGES; lia|exact Hb3|exact Hus3|]. intros d4 M4 Hb4 Hus4. lk_step.
  assert (Hnp : n + 2 = the_pages file) by (unfold the_pages; by rewrite <- Hsz2). assert (Htop : 4096 * n + 2 * 4096 = the_top file) by (unfold the_top; lia). rewrite Htop.
  eapply (wp_push_args kend kend_ok me argv) with (np := n + 2) (K := K); [unfold UPAGES; lia|lia|cbn; lia|exact args_ok|exact Hdev|exact Hb4| | |].
  { by replace (n + 2 - 2) with n by lia. }
  { intros d5 Hb5 Hw. eapply wp_bad; [exact Hb5|]. right; left. intros (_ & _ & _ & _ & Hlow & Hpage). apply Hw. cbn [length]. split; [|lia].
    unfold the_esp in Hpage. unfold the_top in Hpage at 1. lia. }
  intros d5 Hb5 Hus5 Hsp Hargc. cbn [app length] in Hargc |- *. fold (the_stack file argv). unfold MAXARG in Hargc.
  assert (Hlen : length (the_stack file argv) = (4 + length argv)%nat) by (unfold the_stack; by rewrite length_ustack, length_arg_ptrs).
  fold (the_esp file argv). assert (Hlw : Z.of_nat (length (the_stack file argv ≫= le_word)) = args_sp (the_top file) argv - the_esp file argv) by (rewrite length_words; unfold the_esp; lia).
  assert (Hesp : 0 <= the_esp file argv < args_sp (the_top file) argv) by (unfold the_esp; lia). rewrite (uint32_id (the_esp file argv)) by lia. lk_step.
  eapply (wp_copyout kend kend_ok me) with (np := n + 2) (K := K); [lia|rewrite Hlw; lia|unfold UPAGES; lia|exact Hb5|exact Hus5| |].
  - intros d6 Hb6 Hus6 Hnt. rewrite decide_False by lia. eapply (wp_done b p (n + 2)); [done|done|done|unfold MAXARG; lia| |unfold UPAGES; lia|exact Hb6|exact HK|exact Hus6].
    destruct (decide (the_top file - 4096 <= the_esp file argv)) as [|Hlt]; [done|]. exfalso. apply Hnt. rewrite Hlw. unfold touches. split; [lia|]. Z.div_mod_to_equations. lia.
  - intros d6 Hb6 Ht. rewrite decide_True by lia. eapply wp_bad; [exact Hb6|]. right; left. intros (_ & _ & _ & _ & _ & Hpage).
    unfold touches in Ht. Z.div_mod_to_equations. lia.
Qed.

End Exec.


(** An empty file. *)
Lemma empty_reads : reads_file (fun _ _ => (0, [])) (fun _ => 0) 0.
Proof. constructor; [lia|lia|cbn; lia| |lia]. intros off n bytes Hn [= Hr _]. lia. Qed.

Definition demo_image : image := mkImage (pg 0) 100 0 0 [].


End ExecThms.
