(* ===== verification/Boot.v ===== *)
(** * The boot loader

    Models [src/xv6-public/bootmain.c]: physical memory and the disk are
    functions from addresses to bytes.  The polling of the disk is left out. *)
From S2P Require Export ExecDefs.

Module Boot.
Import Exec.
Local Open Scope Z_scope.

Definition SECTSIZE : Z := 512.

Section Boot.
Context (disk : Z -> Z).

(** The disk gets the low 28 bits of the sector number. *)
Definition readsect (dst offset : Z) (m : Z -> Z) : Z -> Z := fun a =>
  if decide (dst <= a < dst + SECTSIZE) then disk (SECTSIZE * (offset mod 2 ^ 28) + (a - dst)) else m a.

Fixpoint readseg_loop (fuel : nat) (pa epa offset : Z) (m : Z -> Z) : outcome (Z -> Z) :=
  match fuel with
  | O => Hang "readseg"
  | S fuel => if decide (pa < epa) then readseg_loop fuel (uint32 (pa + SECTSIZE)) epa (uint32 (offset + 1)) (readsect pa offset m) else Ret m
  end.
Definition readseg (pa count offset : Z) (m : Z -> Z) : outcome (Z -> Z) :=
  let epa := uint32 (pa + count) in
  let pa := uint32 (pa - offset mod SECTSIZE) in
  readseg_loop (S (Z.to_nat ((epa - pa + SECTSIZE - 1) / SECTSIZE))) pa epa (offset / SECTSIZE + 1) m.

(** [stosb(pa, 0, n)]. *)
Definition clear (pa n : Z) (m : Z -> Z) : Z -> Z := fun a => if decide (pa <= a < pa + n) then 0 else m a.

Definition bytes_at (m : Z -> Z) (a n : Z) : list Z := m <$> seqZ a n.
Definition ph_paddr (l : list Z) : Z := le_num 4 12 l.

(** The program headers are read from the scratch space as they are used. *)
Fixpoint load_kernel (k : nat) (ph : Z) (m : Z -> Z) : outcome (Z -> Z) :=
  match k with
  | O => Ret m
  | S k =>
      let l := bytes_at m ph proghdr_size in
      let h := decode_ph l in
      let pa := ph_paddr l in
      m ← readseg pa (ph_filesz h) (ph_off h) m;
      let m := if decide (ph_filesz h < ph_memsz h) then clear (pa + ph_filesz h) (ph_memsz h - ph_filesz h) m else m in
      load_kernel k (ph + proghdr_size) m
  end.

Definition scratch : Z := 65536.

(** The entry point and the memory, or [None] when there is no kernel. *)
Definition bootmain (m : Z -> Z) : outcome (option Z * (Z -> Z)) :=
  m ← readseg scratch 4096 0 m;
  let elf := decode_elf (bytes_at m scratch elfhdr_size) in
  if decide (e_magic elf <> ELF_MAGIC) then Ret (None, m)
  else
    m ← load_kernel (Z.to_nat (e_phnum elf)) (scratch + e_phoff elf) m;
    Ret (Some (e_entry elf), m).

(** ** What is loaded *)

(** The image of the kernel starts at sector 1. *)
Definition img (i : Z) : Z := disk (SECTSIZE + i).

(** Sectors from [pa] to the first boundary not below [epa]. *)
Lemma readseg_loop_spec fuel pa epa sec m :
  0 <= pa -> epa <= 2 ^ 32 - SECTSIZE -> 0 <= sec -> sec + Z.of_nat fuel < 2 ^ 28 -> epa <= pa + 512 * (Z.of_nat fuel - 1) -> (0 < fuel)%nat ->
  exists m', readseg_loop fuel pa epa sec m = Ret m' /\
    forall a, (pa <= a < epa -> m' a = disk (512 * sec + (a - pa))) /\
              ((a < pa \/ epa <= pa \/ epa + 511 <= a) -> m' a = m a).
Proof.
  unfold SECTSIZE. revert pa sec m. induction fuel as [|fuel IH]; intros pa sec m Hpa Hepa Hsec Hs Hf H0; [lia|]. cbn [readseg_loop].
  destruct (decide (pa < epa)) as [Hlt|Hge]; [|by exists m; split; [done|]; intros a; split; [lia|]].
  unfold SECTSIZE. rewrite (uint32_id (pa + 512)), (uint32_id (sec + 1)) by lia.
  destruct (IH (pa + 512) (sec + 1) (readsect pa sec m)) as (m' & -> & Hm'); [lia..|]. exists m'. split; [done|]. intros a. destruct (Hm' a) as [H1 H2].
  assert (Hr : readsect pa sec m a = if decide (pa <= a < pa + 512) then disk (512 * sec + (a - pa)) else m a).
  { unfold readsect, SECTSIZE. by rewrite Z.mod_small by lia. }
  split.
  - intros Ha. destruct (decide (pa + 512 <= a)).
    + rewrite H1 by lia. f_equal. lia.
    + rewrite H2 by lia. rewrite Hr. by rewrite decide_True by lia.
  - intros Ha. rewrite H2 by lia. rewrite Hr. by rewrite decide_False by lia.
Qed.

Lemma readseg_spec pa count off m :
  512 <= pa -> 0 <= count -> 0 <= off -> pa + count <= 2 ^ 32 - SECTSIZE -> off + count + 2048 < 2 ^ 36 ->
  exists m', readseg pa count off m = Ret m' /\
    forall a, (pa <= a < pa + count -> m' a = img (off + (a - pa))) /\
              ((a < pa - off mod 512 \/ pa + count + 511 <= a) -> m' a = m a).
Proof.
  unfold SECTSIZE. intros Hpa Hc Ho Hend Hoff. pose proof (Z.mod_pos_bound off 512 ltac:(lia)) as Hm. unfold readseg, SECTSIZE.
  rewrite (uint32_id (pa + count)), (uint32_id (pa - off mod 512)) by lia. set (n := (pa + count - (pa - off mod 512) + 512 - 1) / 512).
  assert (Hn : 0 <= n /\ 512 * n < count + off mod 512 + 512 /\ count + off mod 512 <= 512 * n) by (unfold n; Z.div_mod_to_equations; lia).
  destruct (readseg_loop_spec (S (Z.to_nat n)) (pa - off mod 512) (pa + count) (off / 512 + 1) m) as (m' & -> & Hm');
    [lia|unfold SECTSIZE; lia|Z.div_mod_to_equations; lia|change (2 ^ 28) with 268435456; Z.div_mod_to_equations; lia|lia|lia|].
  exists m'. split; [done|]. intros a. destruct (Hm' a) as [H1 H2]. split; [|intros Ha; apply H2; lia].
  intros Ha. rewrite H1 by lia. unfold img, SECTSIZE. f_equal. Z.div_mod_to_equations. lia.
Qed.

(** A program header of the image, and the part of memory its segment gets. *)
Record kseg := mkSeg { k_pa : Z; k_off : Z; k_filesz : Z; k_memsz : Z }.
Definition kseg_of (l : list Z) : kseg := mkSeg (ph_paddr l) (ph_off (decode_ph l)) (ph_filesz (decode_ph l)) (ph_memsz (decode_ph l)).
Definition loaded (m : Z -> Z) (s : kseg) : Prop :=
  forall k, 0 <= k < k_memsz s -> m (k_pa s + k) = if decide (k < k_filesz s) then img (k_off s + k) else 0.

(** Segments above the scratch space, each beginning (with its first sector)
    after the end of those before it. *)
Definition seg_fits (s : kseg) : Prop :=
  scratch + 4096 + 512 <= k_pa s /\ 0 <= k_filesz s <= k_memsz s /\ k_pa s + k_memsz s <= 2 ^ 32 - 512 /\ 0 <= k_off s < 2 ^ 32.
Fixpoint increasing (low : Z) (ss : list kseg) : Prop :=
  match ss with
  | [] => True
  | s :: ss => low <= k_pa s - k_off s mod 512 /\ increasing (k_pa s + k_memsz s) ss
  end.

Fixpoint segs_at (m : Z -> Z) (n : nat) (ph : Z) : list kseg :=
  match n with
  | O => []
  | S n => kseg_of (bytes_at m ph proghdr_size) :: segs_at m n (ph + proghdr_size)
  end.

Lemma bytes_at_ext m m' a n : (forall i, a <= i < a + n -> m' i = m i) -> bytes_at m' a n = bytes_at m a n.
Proof.
  intros He. unfold bytes_at. apply list_fmap_ext. intros k i Hi. apply He. apply lookup_seqZ in Hi. lia.
Qed.

Lemma segs_at_ext m m' n ph : (forall i, ph <= i < ph + 32 * Z.of_nat n -> m' i = m i) -> segs_at m' n ph = segs_at m n ph.
Proof.
  revert ph. induction n as [|n IH]; intros ph He; cbn [segs_at]; [done|]. unfold proghdr_size in *. rewrite (bytes_at_ext m m') by (intros i Hi; apply He; lia).
  f_equal. apply IH. intros i Hi. apply He. lia.
Qed.

(** One segment. *)
Lemma load_segment s m : seg_fits s ->
  exists m1, readseg (k_pa s) (k_filesz s) (k_off s) m = Ret m1 /\
    let m2 := if decide (k_filesz s < k_memsz s) then clear (k_pa s + k_filesz s) (k_memsz s - k_filesz s) m1 else m1 in
    loaded m2 s /\ forall a, a < k_pa s - k_off s mod 512 -> m2 a = m a.
Proof.
  unfold seg_fits, scratch. intros (H1 & H2 & H3 & H4). pose proof (Z.mod_pos_bound (k_off s) 512 ltac:(lia)) as Hm.
  destruct (readseg_spec (k_pa s) (k_filesz s) (k_off s) m) as (m1 & Hr & Hm1); [lia|lia|lia|unfold SECTSIZE; lia|lia|]. exists m1. split; [done|].
  cbn zeta. split.
  - intros k Hk. destruct (Hm1 (k_pa s + k)) as [Hin _]. destruct (decide (k < k_filesz s)) as [Hlt|Hge].
    + rewrite <- (Z.add_simpl_l (k_pa s) k) at 2. rewrite <- Hin by lia. case_decide; [|done]. unfold clear. by rewrite decide_False by lia.
    + rewrite decide_True by lia. unfold clear. by rewrite decide_True by lia.
  - intros a Ha. destruct (Hm1 a) as [_ Hout]. rewrite <- Hout by lia. case_decide; [|done]. unfold clear. by rewrite decide_False by lia.
Qed.

Lemma load_kernel_spec n : forall ph low m,
  scratch <= ph -> ph + 32 * Z.of_nat n <= scratch + 4096 -> scratch + 4096 <= low -> Forall seg_fits (segs_at m n ph) -> increasing low (segs_at m n ph) ->
  exists m', load_kernel n ph m = Ret m' /\ Forall (loaded m') (segs_at m n ph) /\ forall a, a < low -> m' a = m a.
Proof.
  induction n as [|n IH]; intros ph low m Hs He Hlow Hf Hi; cbn [load_kernel segs_at] in *.
  { by exists m. }
  apply Forall_cons in Hf as [Hf1 Hf2]. cbn [increasing] in Hi. destruct Hi as [Hi1 Hi2]. set (l := bytes_at m ph proghdr_size) in *. set (s := kseg_of l) in *.
  destruct (load_segment s m Hf1) as (m1 & Hr & Hl & Hu). change (readseg (ph_paddr l) (ph_filesz (decode_ph l)) (ph_off (decode_ph l)) m) with (readseg (k_pa s) (k_filesz s) (k_off s) m).
  rewrite Hr. cbn [mbind outcome_bind]. cbn zeta in Hl, Hu.
  change (if decide (ph_filesz (decode_ph l) < ph_memsz (decode_ph l)) then clear (ph_paddr l + ph_filesz (decode_ph l)) (ph_memsz (decode_ph l) - ph_filesz (decode_ph l)) m1 else m1)
    with (if decide (k_filesz s < k_memsz s) then clear (k_pa s + k_filesz s) (k_memsz s - k_filesz s) m1 else m1).
  set (m2 := if decide (k_filesz s < k_memsz s) then _ else m1) in *.
  assert (Hsegs : segs_at m2 n (ph + proghdr_size) = segs_at m n (ph + proghdr_size)) by (apply segs_at_ext; unfold proghdr_size; intros i Hi; apply Hu; lia).
  destruct Hf1 as (F1 & F2 & F3 & F4). destruct (IH (ph + proghdr_size) (k_pa s + k_memsz s) m2) as (m' & Hm' & Hld & Hun);
    [unfold proghdr_size; lia|unfold proghdr_size; lia|lia|by rewrite Hsegs|by rewrite Hsegs|]. rewrite Hsegs in Hld.
  exists m'. split; [done|]. split.
  - constructor; [|done]. intros k Hk. rewrite Hun by lia. by apply Hl.
  - intros a Ha. pose proof (Z.mod_pos_bound (k_off s) 512 ltac:(lia)). rewrite Hun by lia. apply Hu. lia.
Qed.

(** The boot loader loads the kernel: when the image on the disk has an ELF
    header whose program headers are in its first page, and the segments are
    above the scratch space in increasing order, [bootmain] returns the entry
    point, and every segment is in memory with the bytes of the image, followed
    by zeros.  Although [readseg] copies whole sectors, no segment damages
    another one or the headers. *)
Theorem bootmain_loads m :
  let elf := decode_elf (bytes_at img 0 elfhdr_size) in
  let segs := segs_at img (Z.to_nat (e_phnum elf)) (e_phoff elf) in
  e_magic elf = ELF_MAGIC -> 0 <= e_phoff elf -> 0 <= e_phnum elf -> e_phoff elf + 32 * e_phnum elf <= 4096 ->
  Forall seg_fits segs -> increasing (scratch + 4096) segs ->
  exists m', bootmain m = Ret (Some (e_entry elf), m') /\ Forall (loaded m') segs.
Proof.
  intros elf segs Hmag Ho Hn Hend Hf Hi. unfold bootmain.
  destruct (readseg_spec scratch 4096 0 m) as (m1 & -> & Hm1); [unfold scratch; lia|lia|lia|unfold scratch, SECTSIZE; lia|lia|]. cbn [mbind outcome_bind].
  assert (Himg : forall i, 0 <= i < 4096 -> m1 (scratch + i) = img i).
  { intros i Hi'. destruct (Hm1 (scratch + i)) as [H1 _]. rewrite H1 by lia. f_equal. lia. }
  assert (Hshift : forall a n, 0 <= a -> a + n <= 4096 -> bytes_at m1 (scratch + a) n = bytes_at img a n).
  { intros a n Ha Han. unfold bytes_at. apply list_eq. intros k. rewrite !list_lookup_fmap. destruct (decide (Z.of_nat k < n)) as [Hk|Hk].
    - rewrite !lookup_seqZ_lt by lia. cbn. rewrite <- Z.add_assoc, Himg by lia. done.
    - rewrite !lookup_seqZ_ge by lia. done. }
  assert (He : decode_elf (bytes_at m1 scratch elfhdr_size) = elf) by (unfold elf; rewrite <- (Hshift 0 elfhdr_size) by (unfold elfhdr_size; lia); by rewrite Z.add_0_r).
  rewrite He, decide_False by auto.
  assert (Hsegs : forall n a, 0 <= a -> a + 32 * Z.of_nat n <= 4096 -> segs_at m1 n (scratch + a) = segs_at img n a).
  { induction n as [|n IH]; intros a Ha Han; cbn [segs_at]; [done|]. unfold proghdr_size. rewrite Hshift by lia. f_equal. rewrite <- Z.add_assoc. apply IH; lia. }
  destruct (load_kernel_spec (Z.to_nat (e_phnum elf)) (scratch + e_phoff elf) (scratch + 4096) m1) as (m' & -> & Hl & _);
    [lia|lia|lia|rewrite Hsegs by lia; done|rewrite Hsegs by lia; done|].
  rewrite Hsegs in Hl by lia. exists m'. done.
Qed.
End Boot.

(** A kernel of one segment of 5 bytes of which 3 are in the file. *)
Definition demo_image : list Z :=
  [127; 69; 76; 70] ++ replicate 20 0 ++ [12; 0; 16; 0] ++ [52; 0; 0; 0] ++ replicate 12 0 ++ [1; 0] ++ replicate 6 0 ++
  [1; 0; 0; 0] ++ [84; 0; 0; 0] ++ [0; 0; 16; 128] ++ [0; 0; 16; 0] ++ [3; 0; 0; 0] ++ [5; 0; 0; 0] ++ replicate 8 0 ++ [250; 244; 195].
Definition demo_disk (a : Z) : Z := if decide (512 <= a) then default 0 (demo_image !! Z.to_nat (a - 512)) else 0.

Definition demo_elf : elfhdr := Eval vm_compute in decode_elf (bytes_at (img demo_disk) 0 elfhdr_size).
Definition demo_segs : list kseg := Eval vm_compute in segs_at (img demo_disk) 1 52.
Lemma demo_elf_eq : decode_elf (bytes_at (img demo_disk) 0 elfhdr_size) = demo_elf.
Proof. vm_compute. reflexivity. Qed.
Lemma demo_segs_eq : segs_at (img demo_disk) 1 52 = demo_segs.
Proof. vm_compute. reflexivity. Qed.
Lemma demo_bytes : img demo_disk 84 = 250 /\ img demo_disk 86 = 195.
Proof. vm_compute. split; reflexivity. Qed.

Lemma bootmain_loads_witness : exists m', bootmain demo_disk (fun _ => 7) = Ret (Some 1048588, m') /\
  m' 1048576 = 250 /\ m' 1048578 = 195 /\ m' 1048580 = 0.
Proof.
  pose proof (bootmain_loads demo_disk (fun _ => 7)) as H. cbv zeta in H. rewrite demo_elf_eq in H. cbn [demo_elf e_phnum e_phoff e_magic e_entry] in H.
  change (Z.to_nat 1) with 1%nat in H. rewrite demo_segs_eq in H. destruct H as (m' & Hm & Hl).
  - done.
  - done.
  - done.
  - done.
  - constructor; [|constructor]. unfold seg_fits, scratch. cbn. lia.
  - cbn. done.
  - exists m'. split; [exact Hm|]. apply Forall_cons in Hl as [Hl _]. destruct demo_bytes as [B1 B2].
    pose proof (Hl 0 ltac:(cbn; lia)) as H0. pose proof (Hl 2 ltac:(cbn; lia)) as H2. pose proof (Hl 4 ltac:(cbn; lia)) as H4.
    cbn [k_pa k_off k_filesz] in H0, H2, H4. rewrite decide_True in H0, H2 by lia. rewrite decide_False in H4 by lia.
    split; [by rewrite <- B1|]. split; [by rewrite <- B2|done].
Defined.
End Boot.
